(* ===== verification/_CoqProject ===== *)
-Q . S2P
Prelude.v
Failures.v
Hmac.v
PyVal.v
Sql.v
JsonNumber.v
Json.v
JsonLoads.v
Sha256.v
PyTime.v
AuditChain.v
Engine.v
EngineFacts.v
EngineProps.v
Document.v
DecisionFile.v
Samples.v
DecisionFileProps.v
Transitions.v
TransitionProps.v
Identity.v
PyDecimal.v
Intake.v
IntakeProps.v
SecurityEvents.v
DecisionStore.v
DecisionStoreProps.v
Jobs.v
JobProps.v
Retention.v
RetentionProps.v
LifecycleTables.v
LifecycleTablesProps.v
LifecycleRefinement.v
LifecycleAgreement.v
Research.v
ResearchCodec.v
IntakeCodec.v
IntakeStore.v
IntakeStoreProps.v
ResearchCodecProps.v
ResearchEvidence.v
ResearchStore.v
Handoff.v
CircuitBreaker.v
UrlPolicy.v
Config.v
Egress.v
Oidc.v
Sessions.v
BrowserOidc.v
Events.v
Export.v
ExportValidator.v
PilotUi.v
Deployment.v
Orchestrator.v
I18n.v
Providers.v
ResearchService.v
Mcp.v
ResearchApi.v
ResearchProps.v
ResearchSamples.v
OrchestratorFacts.v
OrchestratorProps.v
ResearchFrontProps.v
HandoffProps.v
CircuitProps.v
UrlPolicyProps.v
EgressProps.v
ProvidersProps.v
OidcProps.v
DeploymentProps.v
PilotUiProps.v
ExportProps.v
ExportRoundTrip.v
ExportTheorems.v
