(* ===== verification/Prelude.v ===== *)
(** * Decision Assurance: a verified model of its governance core

    Decision Assurance decides whether a proposed action of an agent may go ahead. A caller hands
    it a _Decision File_ (claims, evidence, constraints, approvals, an action); the governance
    engine assesses it; the Transition Policy moves it from DRAFT to APPROVED under separation of
    duties; every step is appended to a hash chain. Around that core stand the intake of free
    text, the research of external evidence by asynchronous jobs, the deletion of data under legal
    holds, and the signed export of a case. All paths below are relative to
    [src/src/decision_assurance/].

    ** The parts and the files that model them

    - The language. [Prelude]: exceptions and the result monad, stateful computations, sorting,
      lists, strings. [PyVal]: JSON-shaped Python values with their operators. [JsonNumber],
      [Json], [JsonLoads]: [json.dumps] with sorted keys and [json.loads]. [Sha256]:
      [hashlib.sha256], executable. [Hmac]: [hmac.compare_digest]. [PyTime]: [datetime.isoformat]
      and [fromisoformat]. [PyDecimal]: [decimal.Decimal]. [Failures]: which exceptions a
      computation may raise.
    - Audit. [AuditChain]: [audit.py], the ledger and the chain of [previous_event_hash] links.
    - Governance. [Engine], [EngineFacts], [EngineProps]: [models.py], [adapters.py], [engine.py].
    - Decision Files. [Document], [DecisionFile], [DecisionFileProps]: the record the JSON schema
      describes and [decision_file.py]. [Transitions], [TransitionProps]: [transitions.py].
    - Identity. [Identity]: [tenancy.py], [identity.py], [authorization.py]. [SecurityEvents]:
      [security_events.py]. [Oidc], [OidcProps]: the keys of the issuer, the verification of a
      bearer token and the identity it stands for, [oidc/].
    - The decision API. [DecisionStore], [DecisionStoreProps]: [repositories/sqlite.py],
      [api/dependencies.py], [api/routes/decisions.py]; the tables are a record of maps and lists,
      a request is a stateful computation on them.
    - Intake. [Intake], [IntakeProps]: [intake/contracts.py], [lifecycle.py], [verification.py],
      [confirmation.py], [compiler.py], [audit.py]. [IntakeCodec], [IntakeStore],
      [IntakeStoreProps]: [codec.py], [repository.py] and the routes [api/routes/intakes.py].
    - Jobs. [Jobs], [JobProps]: [jobs/lifecycle.py], [jobs/postgresql.py], [jobs/worker.py].
    - Retention. [Retention], [RetentionProps]: [lifecycle/]; the service is written against the
      class [LifecycleRepository], which the repository in memory instantiates. [Sql]: tables,
      keys, foreign keys and the statements on them. [LifecycleTables], [LifecycleTablesProps]:
      [lifecycle/postgresql.py] over the tables of the migrations, the second instance;
      [LifecycleRefinement], [LifecycleAgreement]: that the two instances agree.
    - Research. [Research], [ResearchEvidence], [ResearchCodec], [ResearchStore], [Handoff],
      [CircuitBreaker], [UrlPolicy], [Orchestrator] with the theorems of [ResearchProps],
      [ResearchCodecProps], [OrchestratorFacts], [OrchestratorProps], [HandoffProps],
      [CircuitProps] and [UrlPolicyProps]: [web_research/].
    - The front ends of research. [ResearchService]: [web_research/service.py] with the
      transaction that stores a run and its job ([jobs/postgresql.py], [submit]), and the
      processor of [api/worker_runtime.py] under [jobs/worker.py]. [Mcp]: the five tools of the
      MCP server, [mcp/]. [ResearchApi]: [api/routes/research.py], [api/research_schemas.py].
      [I18n]: [i18n.py]. Their theorems are in [ResearchFrontProps]; the state they share is a
      [Desk], the world of the orchestrator and the tables of the job queue.
    - The providers of research. [Providers], [ProvidersProps]: [web_research/providers/], each a
      conversation with the ledger of the run and the network, and the scripts that the
      orchestrator runs ([with_providers], as in [api/runtime.py]).
    - Configuration and egress. [Config], [Egress], [EgressProps]: [production/config.py],
      [production/contracts.py], [provenance/config.py], [production/egress.py].
    - Deployment. [Deployment], [DeploymentProps]: the evidence of a deployment, the gate of the
      pilot and its acceptance, [deployment/].
    - Pilot user interface. [Sessions], [BrowserOidc], [PilotUi], [PilotUiProps]: the sessions in
      memory and in PostgreSQL, the login of the browser and the proxy of the API, [pilot_ui/].
    - Export. [Events], [Export], [ExportValidator], [ExportProps], [ExportRoundTrip],
      [ExportTheorems]: [events/registry.py], [export/service.py], [export/signing.py],
      [export/validator.py].
    - Samples. [Samples], [ResearchSamples]: the concrete inputs of the witnesses.

    ** How the model reads

    A function that raises is a function into [result]: [Ok] or [Raise] with the exception class
    of the code. A method of an object that keeps state is [stateful]: it returns its result and
    the state the calls before an exception left. A database transaction is all or nothing
    ([transaction]); the store is sequential, one request after the other, as SQLite and the row
    locks of the PostgreSQL statements serialise them. A dictionary whose order is visible is an
    association list, a table with a key is a list of keyed rows or a [gmap]. The clock, tokens
    from a random source, and the answers of remote services are arguments.

    What the code calls but does not define is a class the theorems are generic in: the digest
    ([HashAlg], with [Sha256.sha256] as an instance) and the keyed digest ([Hmac]), the JSON
    schema validator ([ContractValidator], [ManifestSchema]), Unicode case ([CaseFolding],
    [CaseMapping], [Uppercase]) and normal forms ([Naming]), [urllib] and [ipaddress]
    ([UrlLibrary]), [pathlib] ([PurePaths]), the texts of floats ([FloatText]), the text of bytes
    ([BytesText]), ZIP ([ZipFile]), Ed25519 ([Ed25519]) and the normalisation of fetched pages
    ([Normalizer]), PyJWT ([Jwt]), the extractor of facts ([Extractor]), the schema of deployment
    evidence ([EvidenceSchema]), the encryption of browser sessions ([SessionCrypto]), networks of
    addresses ([Networks]), the spelling of times and JSON values by PostgreSQL ([SessionTime],
    [Timestamptz], [JsonbText]), [str.isalnum] ([Alphanumeric]), [float] of a text
    ([ReadFloat]). HTTP clients and the API behind the proxy are streams of answers. Where a theorem needs one of their documented laws, the law is a hypothesis
    and the witness has an instance that satisfies it. Nothing is assumed of the strength of a
    digest: a theorem that depends on it says "equal, or here is a collision".

    ** What the theorems show

    - An approval is safe: nothing reaches APPROVED without every required approval, bound to the
      action's digest, by a human who did not create the case ([TransitionProps]); the same holds
      through the API ([DecisionStoreProps.approval_through_api]).
    - Outcomes are exact and fail closed: the engine computes its declarative specification, and
      more issues never make it more lenient ([EngineProps]).
    - Ledgers are append-only chains, digests bind their content, requests take effect at most
      once, tenants do not interfere ([AuditChain], [DecisionFileProps], [DecisionStoreProps],
      [OrchestratorProps]).
    - Jobs keep the invariant of the queue under every interleaving of claims, heartbeats,
      completions and recoveries, and refine the abstract lifecycle ([JobProps]).
    - A held case is never deleted, a request to delete is carried out ([RetentionProps]); the
      deletion erases exactly the rows of the case ([LifecycleTablesProps.case_erased_exactly]),
      and the repositories in memory and in PostgreSQL answer every sequence of calls alike
      ([LifecycleAgreement.repositories_agree]).
    - An identity is that of a verified token ([OidcProps]); an intake is compiled through the
      API exactly when it is confirmed, and takes effect once ([IntakeStoreProps]).
    - A pilot starts on attested evidence and an independent acceptance ([DeploymentProps]); a
      browser session rests on a login with the nonce, state and factors it needs, and calls to
      the API are made for it only ([PilotUiProps]).
    - Research never decides: its evidence reaches a case as an open question, within its budget,
      from admitted URLs, through recorded egress decisions ([OrchestratorProps], [HandoffProps],
      [UrlPolicyProps], [EgressProps]). A provider sends a request only after its decision is
      stored with the run, and within the residency; what it returns is bounded and checked
      ([ProvidersProps], which also runs the orchestrator with both providers).
    - A submission stores a run, its budget and its job in one transaction, and repeating it
      changes nothing; every tool of the MCP server and every route of research settles its
      idempotency key, and no tool goes beyond the authority of the token it is called with
      ([ResearchFrontProps], which also shows two ways a finished run stops the worker).
    - Stored runs and exports are read back ([ResearchCodecProps], [ExportTheorems]); an accepted
      export is sealed by its manifest.

    ** Bounds and fuel

    [JsonLoads.loads] scans with fuel twice the length of the text plus one, and
    [JsonLoads.loads_total] shows that the fuel never runs out; the recursion limit of the
    interpreter is not modelled. Every other recursion is structural. Integers are unbounded as
    in Python, lengths of bytes and of texts are told apart ([String.length] and [str_len]).

    ** Not modelled

    Wiring and I/O (the FastAPI application, the start of the user interface, its static files
    and metrics, the command line, the start of the MCP server and of the worker, the loop around
    the worker, the branch of [ResearchSubmissionService.submit] without an atomic submitter,
    which no runtime takes, the runner of the migrations, HTTP clients,
    observability, file stores, secrets and recovery), the twins over PostgreSQL of the
    repositories of decisions, intakes and research runs, the regular-expression extractor of the
    intake, and the scripts. The manifest lists each of them with its reason. *)

From stdpp Require Export base option list strings gmap pretty sorting.
From Stdlib Require Export Ascii ZArith Lia.
From stdpp Require Import options.

(** The string literals of the development are Python [str] values in their
    UTF-8 encoding; [++] on strings is [+:+]. *)
#[global] Open Scope stdpp_scope.

(** ** Exceptions and the result monad *)

(** The exception classes the modelled code raises or catches. *)
Inductive exn_class :=
  | KeyError | TypeError | AttributeError | ValueError | PermissionError | RuntimeError
  | StopIteration | InvalidOperation | OverflowError
  | ContractValidationError | DecisionFileSemanticError | TransitionRejected
  | AuthorizationDenied | ConfirmationRejected | CompilationRejected
  | IntakeTransitionRejected | ResearchTransitionRejected | InvalidJobTransition
  | JobConflict | LeaseRejected | LifecycleConflict | LifecycleTransitionConflict
  | LegalHoldActive | ProviderCircuitOpen | UrlPolicyRejected | IntegrityError
  | IdempotencyConflict | ResearchIdempotencyInProgress | ApiError
  | ResearchIdempotencyConflict | DecisionEvidenceHandoffRejected
  | EvidenceNormalizationRejected | ResearchExecutionCancelled | EgressRejected
  | JSONDecodeError | UnicodeDecodeError | RecursionError
  | EventVersionError | ExportValidationError | ExportRejected | BadZipFile | OSError
  | PyJWTError | ExpiredSignatureError | InvalidIssuerError | InvalidAudienceError
  | HTTPError | TimeoutException | NetworkError | HTTPStatusError
  | AuthenticationFailed | JwksResolutionError | BrowserOidcError | MfaRequired
  | IntakeIdempotencyConflict | SecretResolutionError | McpApplicationError
  | InvalidToken | PilotApiError | UiHttpError | PersistenceUnavailable
  | DataError | MigrationIntegrityError | UnsafeDatabaseRole.

#[export] Instance exn_class_eq_dec : EqDecision exn_class.
Proof. solve_decision. Defined.

(** An exception: its class and its arguments, rendered as strings. *)
Record exn := Exn { exn_cls : exn_class; exn_args : list string }.

#[export] Instance exn_eq_dec : EqDecision exn.
Proof. solve_decision. Defined.

(** [except ValueError] also catches the subclasses the code declares. *)
Definition is_value_error (c : exn_class) : bool :=
  match c with
  | ValueError | ContractValidationError | DecisionFileSemanticError | TransitionRejected
  | ConfirmationRejected | CompilationRejected | IntakeTransitionRejected
  | ResearchTransitionRejected | InvalidJobTransition | JobConflict | LifecycleConflict
  | UrlPolicyRejected | IdempotencyConflict | ResearchIdempotencyConflict
  | DecisionEvidenceHandoffRejected | EvidenceNormalizationRejected
  | JSONDecodeError | UnicodeDecodeError | EventVersionError | ExportValidationError
  | ExportRejected | AuthenticationFailed | JwksResolutionError | BrowserOidcError | MfaRequired
  | IntakeIdempotencyConflict => true
  | _ => false
  end.

Inductive result (A : Type) :=
  | Ok (a : A)
  | Raise (e : exn).
Arguments Ok {A} _.
Arguments Raise {A} _.

#[export] Instance result_ret : MRet result := λ A a, Ok a.
#[export] Instance result_bind : MBind result := λ A B f m,
  match m with Ok a => f a | Raise e => Raise e end.
#[export] Instance result_map : FMap result := λ A B f m,
  match m with Ok a => Ok (f a) | Raise e => Raise e end.

#[export] Instance result_eq_dec `{EqDecision A} : EqDecision (result A).
Proof. solve_decision. Defined.

(** [raise cls(arg)] *)
Definition raise {A} (c : exn_class) (msg : string) : result A := Raise (Exn c [msg]).

(** [if not b: raise cls(msg)] *)
Definition require (b : bool) (c : exn_class) (msg : string) : result unit :=
  if b then Ok tt else raise c msg.

(** The option of a lookup whose absence raises. *)
Definition or_raise {A} (o : option A) (c : exn_class) (msg : string) : result A :=
  match o with Some a => Ok a | None => raise c msg end.

(** [try: m except ...: raise e]: [h] names the exceptions the handler takes. *)
Definition rescue {A} (m : result A) (h : exn → option exn) : result A :=
  match m with Raise e => Raise (default e (h e)) | Ok a => Ok a end.

Lemma rescue_Ok {A} (m : result A) h a : rescue m h = Ok a ↔ m = Ok a.
Proof. destruct m; cbn; naive_solver. Qed.

Definition is_ok {A} (m : result A) : bool := match m with Ok _ => true | Raise _ => false end.

(** The run succeeds and its value passes a test: how a concrete run is evaluated. *)
Definition succeeds_with {A} (m : result A) (test : A → bool) : bool :=
  match m with Ok a => test a | Raise _ => false end.

Lemma succeeds_with_Ok {A} (m : result A) (test : A → bool) :
  succeeds_with m test = true → ∃ a, m = Ok a ∧ test a = true.
Proof. destruct m; [by eauto|done]. Qed.

Lemma bind_Ok {A B} (f : A → result B) (m : result A) b :
  m ≫= f = Ok b ↔ ∃ a, m = Ok a ∧ f a = Ok b.
Proof. destruct m; cbn; naive_solver. Qed.

Lemma bind_Raise {A B} (f : A → result B) (m : result A) e :
  m ≫= f = Raise e ↔ m = Raise e ∨ ∃ a, m = Ok a ∧ f a = Raise e.
Proof. destruct m; cbn; naive_solver. Qed.

Lemma require_Ok b c msg u : require b c msg = Ok u ↔ b = true.
Proof. destruct b, u; unfold require, raise; naive_solver. Qed.

Lemma require_Raise b c msg e : require b c msg = Raise e ↔ b = false ∧ e = Exn c [msg].
Proof. destruct b; unfold require, raise; naive_solver. Qed.

Lemma or_raise_Ok {A} (o : option A) c msg a : or_raise o c msg = Ok a ↔ o = Some a.
Proof. destruct o; unfold or_raise, raise; naive_solver. Qed.

Lemma or_raise_Raise {A} (o : option A) c msg e :
  or_raise o c msg = Raise e ↔ o = None ∧ e = Exn c [msg].
Proof. destruct o; unfold or_raise, raise; naive_solver. Qed.

(** [[f(x) for x in l]], stopping at the first exception. *)
Fixpoint mapM {A B} (f : A → result B) (l : list A) : result (list B) :=
  match l with
  | [] => Ok []
  | x :: l => y ← f x; ys ← mapM f l; Ok (y :: ys)
  end.


Lemma mapM_map {A B} (f : B → result A) (g : A → B) l :
  Forall (λ x, f (g x) = Ok x) l → mapM f (map g l) = Ok l.
Proof. induction 1 as [|x l Hx _ IH]; cbn; [done|]. by rewrite Hx, IH. Qed.

(** Turn the success of a computation into the success of its parts. *)
Ltac inv_ok :=
  repeat match goal with
  | H : mbind _ _ = Ok _ |- _ => apply bind_Ok in H; destruct H as (? & ? & H); cbn beta in H
  | H : require _ _ _ = Ok ?u |- _ => apply require_Ok in H; try clear u
  | H : or_raise _ _ _ = Ok _ |- _ => apply or_raise_Ok in H
  | H : raise _ _ = Ok _ |- _ => discriminate H
  | H : Raise _ = Ok _ |- _ => discriminate H
  | H : Ok _ = Raise _ |- _ => discriminate H
  | H : Ok _ = Ok _ |- _ => injection H as H
  | H : mret _ = Ok _ |- _ => injection H as H
  | H : (let '(_, _) := ?p in _) = Ok _ |- _ => destruct p eqn:?
  end; simplify_eq.

(** ** Booleans *)

Create Rewrite HintDb booldec.
#[export] Hint Rewrite andb_true_iff andb_false_iff orb_true_iff orb_false_iff
  negb_true_iff negb_false_iff bool_decide_eq_true bool_decide_eq_false : booldec.

(** Reflect the boolean guards of the code into propositions. *)
Ltac bool_prop := autorewrite with booldec in *.

Lemma existsb_false_Forall {A} (f : A → bool) l :
  existsb f l = false ↔ Forall (λ x, f x = false) l.
Proof.
  induction l as [|x l IH]; cbn; [by split|].
  rewrite orb_false_iff, IH, Forall_cons. done.
Qed.

Lemma existsb_true_Exists {A} (f : A → bool) l :
  existsb f l = true ↔ Exists (λ x, f x = true) l.
Proof.
  induction l as [|x l IH]; cbn; [by rewrite Exists_nil|].
  rewrite orb_true_iff, IH, Exists_cons. done.
Qed.

Lemma forallb_true_Forall {A} (f : A → bool) l :
  forallb f l = true ↔ Forall (λ x, f x = true) l.
Proof.
  induction l as [|x l IH]; cbn; [by split|].
  rewrite andb_true_iff, IH, Forall_cons. done.
Qed.

(** ** Lists *)

(** [list(dict.fromkeys(l))]: the first occurrence of each element, in order. *)
Fixpoint fromkeys_from {A} `{EqDecision A} (seen l : list A) : list A :=
  match l with
  | [] => []
  | x :: l => if decide (x ∈ seen) then fromkeys_from seen l
              else x :: fromkeys_from (x :: seen) l
  end.
Definition fromkeys {A} `{EqDecision A} (l : list A) : list A := fromkeys_from [] l.

Lemma elem_of_fromkeys_from {A} `{EqDecision A} (l seen : list A) x :
  x ∈ fromkeys_from seen l ↔ x ∈ l ∧ x ∉ seen.
Proof.
  revert seen. induction l as [|y l IH]; intros seen; cbn; [set_solver|].
  case_decide as Hy.
  - rewrite IH. set_solver.
  - rewrite !elem_of_cons, IH. destruct (decide (x = y)); set_solver.
Qed.

Lemma elem_of_fromkeys {A} `{EqDecision A} (l : list A) x : x ∈ fromkeys l ↔ x ∈ l.
Proof. unfold fromkeys. rewrite elem_of_fromkeys_from. set_solver. Qed.

Lemma NoDup_fromkeys {A} `{EqDecision A} (l : list A) : NoDup (fromkeys l).
Proof.
  unfold fromkeys. generalize (@nil A) as seen.
  induction l as [|y l IH]; intros seen; cbn; [constructor|].
  case_decide; [done|]. constructor; [|done].
  rewrite elem_of_fromkeys_from. set_solver.
Qed.

Lemma fromkeys_nil_inv {A} `{EqDecision A} (l : list A) : fromkeys l = [] → l = [].
Proof.
  destruct l as [|x l]; [done|]. intros H.
  assert (x ∈ fromkeys (x :: l)) as Hx by (rewrite elem_of_fromkeys; left).
  rewrite H in Hx. by apply elem_of_nil in Hx.
Qed.

Lemma fromkeys_NoDup_id {A} `{EqDecision A} (l : list A) : NoDup l → fromkeys l = l.
Proof.
  unfold fromkeys. intros Hl.
  assert (∀ seen, (∀ x, x ∈ l → x ∉ seen) → fromkeys_from seen l = l) as Hgen;
    [|apply Hgen; set_solver].
  induction Hl as [|x l Hx Hl IH]; intros seen Hs; cbn; [done|].
  rewrite decide_False by (apply Hs; left). f_equal. apply IH. set_solver.
Qed.

Lemma elem_of_concat {A} (ls : list (list A)) x : x ∈ concat ls ↔ ∃ l, l ∈ ls ∧ x ∈ l.
Proof. rewrite list_elem_of_In, in_concat. by setoid_rewrite list_elem_of_In. Qed.

Lemma elem_of_concat_map {A B} (f : A → list B) l x : x ∈ concat (map f l) ↔ ∃ y, y ∈ l ∧ x ∈ f y.
Proof. rewrite elem_of_concat. setoid_rewrite list_elem_of_fmap. naive_solver. Qed.

(** [sorted(l, key=...)]: a stable sort by a total preorder given as a boolean. *)
Section sorted.
Context {A : Type} (leb : A → A → bool).

Fixpoint insert_sorted (x : A) (l : list A) : list A :=
  match l with
  | [] => [x]
  | y :: l' => if leb x y then x :: l else y :: insert_sorted x l'
  end.
Definition py_sorted (l : list A) : list A := foldr insert_sorted [] l.

Lemma insert_sorted_perm x l : insert_sorted x l ≡ₚ x :: l.
Proof.
  induction l as [|y l IH]; cbn; [done|]. destruct (leb x y); [done|].
  rewrite IH. apply Permutation_swap.
Qed.

Lemma py_sorted_perm l : py_sorted l ≡ₚ l.
Proof. induction l as [|x l IH]; cbn; [done|]. by rewrite insert_sorted_perm, IH. Qed.

Lemma insert_sorted_Sorted x l :
  (∀ a b, leb a b = true ∨ leb b a = true) →
  Sorted (λ a b, leb a b = true) l → Sorted (λ a b, leb a b = true) (insert_sorted x l).
Proof.
  intros Htot Hl. induction Hl as [|y l Hl IH Hd]; cbn; [by repeat constructor|].
  destruct (leb x y) eqn:E; [by repeat constructor|].
  assert (leb y x = true) as Hyx by (destruct (Htot x y); congruence).
  constructor; [done|].
  destruct l as [|z l]; cbn; [by constructor|].
  inversion Hd; subst. by destruct (leb x z); constructor.
Qed.

Lemma py_sorted_Sorted l :
  (∀ a b, leb a b = true ∨ leb b a = true) →
  Sorted (λ a b, leb a b = true) (py_sorted l).
Proof.
  intros Htot. induction l as [|x l IH]; cbn; [constructor|].
  by apply insert_sorted_Sorted.
Qed.
End sorted.

(** [enumerate(l, start)] *)
Fixpoint enumerate {A} (start : nat) (l : list A) : list (nat * A) :=
  match l with
  | [] => []
  | x :: l => (start, x) :: enumerate (S start) l
  end.

Lemma enumerate_snd {A} start (l : list A) : (enumerate start l).*2 = l.
Proof. revert start. induction l; intros; cbn; f_equal; auto. Qed.

Lemma enumerate_length {A} start (l : list A) : length (enumerate start l) = length l.
Proof. revert start. induction l; intros; cbn; f_equal; auto. Qed.

Lemma elem_of_enumerate {A} start (l : list A) i x :
  (i, x) ∈ enumerate start l → start ≤ i < start + length l.
Proof.
  revert start. induction l as [|y l IH]; intros start H; cbn in *; [by apply elem_of_nil in H|].
  apply elem_of_cons in H as [H|H]; [simplify_eq; lia|]. apply IH in H. lia.
Qed.

Lemma enumerate_NoDup {A} start (l : list A) : NoDup (enumerate start l).*1.
Proof.
  revert start. induction l as [|y l IH]; intros start; cbn; constructor; [|done].
  intros [[i z] [-> H]]%list_elem_of_fmap. apply elem_of_enumerate in H. cbn in H. lia.
Qed.

(** [l[-1] if l else None] *)
Definition last_of {A} (l : list A) : option A := last l.

(** ** Strings *)

Notation "s =? t" := (String.eqb s t) (at level 70) : stdpp_scope.

(** Case analysis on the elements of a listed set. *)
Ltac elem_cases H :=
  repeat (apply elem_of_cons in H as [H|H]); [..|by apply elem_of_nil in H].

(** [s in {"a", "b"}] *)
Definition str_in (s : string) (l : list string) : bool := existsb (String.eqb s) l.

Lemma str_in_spec s l : str_in s l = true ↔ s ∈ l.
Proof.
  unfold str_in. rewrite existsb_true_Exists, Exists_exists.
  setoid_rewrite String.eqb_eq. naive_solver.
Qed.

Lemma str_in_false s l : str_in s l = false ↔ s ∉ l.
Proof. rewrite <-str_in_spec. destruct (str_in s l); naive_solver. Qed.

#[export] Hint Rewrite String.eqb_eq String.eqb_neq str_in_spec str_in_false : booldec.

Fixpoint str_startswith (p s : string) : bool :=
  match p, s with
  | EmptyString, _ => true
  | String a p, String b s => Ascii.eqb a b && str_startswith p s
  | _, _ => false
  end.

(** [sub in s] for strings *)
Fixpoint str_contains (sub s : string) : bool :=
  str_startswith sub s ||
  match s with EmptyString => false | String _ s => str_contains sub s end.

(** [sep.join(l)] *)
Definition str_join (sep : string) (l : list string) : string := String.concat sep l.

(** [len(s)] counts code points: the bytes of the UTF-8 encoding that are not
    continuation bytes. *)
Definition is_continuation (c : ascii) : bool :=
  let n := Ascii.nat_of_ascii c in (128 <=? n)%nat && (n <=? 191)%nat.
Fixpoint str_len (s : string) : nat :=
  match s with
  | EmptyString => 0
  | String c s => (if is_continuation c then 0 else 1) + str_len s
  end.

Lemma str_app_nil_l s : "" +:+ s = s.
Proof. done. Qed.

Lemma str_app_cons c s t : String c s +:+ t = String c (s +:+ t).
Proof. done. Qed.

Lemma str_app_nil_r s : s +:+ "" = s.
Proof. induction s as [|c s IH]; [done|]. by rewrite str_app_cons, IH. Qed.

Lemma str_app_assoc s t u : (s +:+ t) +:+ u = s +:+ (t +:+ u).
Proof. induction s as [|c s IH]; [done|]. by rewrite !str_app_cons, IH. Qed.

Lemma str_length_app s t : String.length (s +:+ t) = (String.length s + String.length t)%nat.
Proof. induction s as [|c s IH]; [done|]. rewrite str_app_cons. cbn. by rewrite IH. Qed.

Lemma str_app_inj_l s t u : s +:+ t = s +:+ u → t = u.
Proof. induction s as [|c s IH]; [done|]. rewrite !str_app_cons. intros [= H]. auto. Qed.

(** Every byte satisfies [f]. *)
Fixpoint str_forallb (f : ascii → bool) (s : string) : bool :=
  match s with EmptyString => true | String c s => f c && str_forallb f s end.

Lemma str_forallb_app f s t : str_forallb f (s +:+ t) = str_forallb f s && str_forallb f t.
Proof. induction s as [|c s IH]; [done|]. rewrite str_app_cons. cbn. by rewrite IH, andb_assoc. Qed.

Lemma str_forallb_impl (f g : ascii → bool) s :
  (∀ c, f c = true → g c = true) → str_forallb f s = true → str_forallb g s = true.
Proof.
  intros Hfg. induction s as [|c s IH]; cbn; [done|].
  rewrite !andb_true_iff. naive_solver.
Qed.

Create Rewrite HintDb str_app.
#[export] Hint Rewrite str_app_nil_l str_app_cons str_app_nil_r : str_app.

(** ** The order of strings *)
Lemma str_leb_trans s t u : String.leb s t = true → String.leb t u = true → String.leb s u = true.
Proof.
  assert (∀ a b c, Ascii.compare a b = Lt → Ascii.compare b c = Lt → Ascii.compare a c = Lt) as Hlt.
  { intros a b c. unfold Ascii.compare. rewrite !N.compare_lt_iff. lia. }
  unfold String.leb. revert t u. induction s as [|a s IH]; intros [|b t] [|c u]; cbn; try done.
  destruct (Ascii.compare a b) eqn:E1; try done; destruct (Ascii.compare b c) eqn:E2; try done.
  - apply Ascii.compare_eq_iff in E1 as ->. rewrite E2. apply IH.
  - apply Ascii.compare_eq_iff in E1 as ->. by rewrite E2.
  - apply Ascii.compare_eq_iff in E2 as ->. by rewrite E1.
  - by rewrite (Hlt _ _ _ E1 E2).
Qed.

(** The head of a sorted list is a least element. *)
Lemma py_sorted_head {A} (leb : A → A → bool) l x rest :
  (∀ a b, leb a b = true ∨ leb b a = true) →
  (∀ a b c, leb a b = true → leb b c = true → leb a c = true) →
  py_sorted leb l = x :: rest → ∀ y, y ∈ l → y = x ∨ leb x y = true.
Proof.
  intros Htot Htrans E y Hy.
  pose proof (py_sorted_Sorted leb l Htot) as Hs. rewrite E in Hs.
  assert (y ∈ x :: rest) as Hin by (by rewrite <-E, py_sorted_perm).
  apply elem_of_cons in Hin as [->|Hin]; [by left|right].
  assert (StronglySorted (λ a b, leb a b = true) (x :: rest)) as Hss
    by (apply Sorted_StronglySorted; [intros a b c; apply Htrans|done]).
  apply StronglySorted_inv in Hss as [_ Hall]. rewrite Forall_forall in Hall. by apply Hall.
Qed.

(** ** Stateful computations with exceptions *)

(** A method of an object with state [S]: an exception leaves the state the calls before it made. *)
Definition stateful (S A : Type) : Type := S → result A * S.

#[export] Instance stateful_ret {S} : MRet (stateful S) := λ A a s, (Ok a, s).
#[export] Instance stateful_bind {S} : MBind (stateful S) := λ A B f m s,
  match m s with
  | (Ok a, s') => f a s'
  | (Raise e, s') => (Raise e, s')
  end.

Definition lift {S A} (m : result A) : stateful S A := λ s, (m, s).
Definition gets {S A} (f : S → A) : stateful S A := λ s, (Ok (f s), s).
Definition modify {S} (f : S → S) : stateful S unit := λ s, (Ok tt, f s).
Definition guard_with {S} (b : bool) (c : exn_class) (msg : string) : stateful S unit :=
  lift (require b c msg).

(** [try m except c: h] *)
Definition catch {S A} (m : stateful S A) (c : exn_class) (h : stateful S A) : stateful S A := λ s,
  match m s with
  | (Raise e, s') => if bool_decide (exn_cls e = c) then h s' else (Raise e, s')
  | r => r
  end.

(** [try: m except ...: h]: the handler names the exceptions it takes, and the others go on. *)
Definition handle {S A} (m : stateful S A) (h : exn → option (stateful S A)) : stateful S A := λ s,
  match m s with
  | (Raise e, s') => match h e with Some k => k s' | None => (Raise e, s') end
  | r => r
  end.

(** An operation on a part of the state. *)
Definition zoom {S T A} (get : T → S) (set : S → T → T) (m : stateful S A) : stateful T A := λ t,
  let '(r, s) := m (get t) in (r, set s t).

(** A transaction on the state: a raised exception leaves it as it was. *)
Definition transaction {S A} (f : S → result (A * S)) : stateful S A := λ s,
  match f s with
  | Ok (a, s') => (Ok a, s')
  | Raise e => (Raise e, s)
  end.

(** The same for a computation: what it wrote before an exception is taken back. *)
Definition atomic {S A} (m : stateful S A) : stateful S A := λ s,
  match m s with
  | (Raise e, _) => (Raise e, s)
  | r => r
  end.

(** A loop for its effects. *)
Fixpoint for_each {S A} (f : A → stateful S unit) (l : list A) : stateful S unit :=
  match l with
  | [] => mret tt
  | x :: l => _ ← f x; for_each f l
  end.

(** A relation between the states before and after that every run of [m] satisfies. *)
Definition always {S A} (R : S → S → Prop) (m : stateful S A) : Prop := ∀ s, R s (m s).2.

Section always.
Context {S : Type} (R : S → S → Prop) `{!PreOrder R}.

Lemma always_ret {A} (a : A) : always R (mret a : stateful S A).
Proof using All. intros s. done. Qed.

Lemma always_lift {A} (m : result A) : always R (lift m).
Proof using All. intros s. done. Qed.

Lemma always_gets {A} (f : S → A) : always R (gets f).
Proof using All. intros s. done. Qed.

Lemma always_modify f : (∀ s, R s (f s)) → always R (modify f).
Proof using All. done. Qed.

Lemma always_bind {A B} (m : stateful S A) (f : A → stateful S B) :
  always R m → (∀ a, always R (f a)) → always R (m ≫= f).
Proof using All.
  intros Hm Hf s. unfold mbind, stateful_bind. specialize (Hm s).
  destruct (m s) as [[a|e] s']; cbn in *; [|done]. etrans; [done|]. apply Hf.
Qed.

Lemma always_catch {A} (m h : stateful S A) c :
  always R m → always R h → always R (catch m c h).
Proof using All.
  intros Hm Hh s. unfold catch. specialize (Hm s).
  destruct (m s) as [[a|e] s']; cbn in *; [done|]. case_bool_decide; [|done].
  etrans; [done|]. apply Hh.
Qed.

Lemma always_handle {A} (m : stateful S A) (h : exn → option (stateful S A)) :
  always R m → (∀ e k, h e = Some k → always R k) → always R (handle m h).
Proof using All.
  intros Hm Hh s. unfold handle. specialize (Hm s).
  destruct (m s) as [[a|e] s']; cbn in *; [done|]. destruct (h e) as [k|] eqn:E; [|done].
  etrans; [done|]. by apply (Hh e).
Qed.

Lemma always_atomic {A} (m : stateful S A) : always R m → always R (atomic m).
Proof using All. intros Hm s. unfold atomic. specialize (Hm s). by destruct (m s) as [[a|e] s']. Qed.

Lemma always_for_each {A} (f : A → stateful S unit) l :
  (∀ x, x ∈ l → always R (f x)) → always R (for_each f l).
Proof using All.
  intros Hf. induction l as [|x l IH]; cbn; [apply always_ret|].
  apply always_bind; [apply Hf; left|]. intros _. apply IH. intros y Hy. apply Hf. by right.
Qed.
End always.

(** How a stateful computation with a known result continues. *)
Lemma stateful_bind_Ok {S A B} (m : stateful S A) (f : A → stateful S B) s b s' :
  (m ≫= f) s = (Ok b, s') ↔ ∃ a s1, m s = (Ok a, s1) ∧ f a s1 = (Ok b, s').
Proof. unfold mbind, stateful_bind. destruct (m s) as [[a|e] s1]; naive_solver. Qed.

Lemma stateful_run {S A B} (m : stateful S A) (f : A → stateful S B) s a s1 :
  m s = (Ok a, s1) → (m ≫= f) s = f a s1.
Proof. unfold mbind, stateful_bind. by intros ->. Qed.

Lemma stateful_run_Raise {S A B} (m : stateful S A) (f : A → stateful S B) s e s1 :
  m s = (Raise e, s1) → (m ≫= f) s = (Raise e, s1).
Proof. unfold mbind, stateful_bind. by intros ->. Qed.

Lemma catch_Ok {S A} (m h : stateful S A) c s a s1 :
  m s = (Ok a, s1) → catch m c h s = (Ok a, s1).
Proof. unfold catch. by intros ->. Qed.

Lemma atomic_Ok {S A} (m : stateful S A) s a s' : atomic m s = (Ok a, s') ↔ m s = (Ok a, s').
Proof. unfold atomic. destruct (m s) as [[b|e] s1]; naive_solver. Qed.

Lemma atomic_Raise {S A} (m : stateful S A) s e s1 : m s = (Raise e, s1) → atomic m s = (Raise e, s).
Proof. unfold atomic. by intros ->. Qed.

(** ** What an operation establishes, whether it returns or raises *)

(** From [P], [m] ends in [Q a] when it returns [a], and in [E] when it raises. *)
Definition triple {S A} (P : S → Prop) (m : stateful S A) (Q : A → S → Prop) (E : S → Prop) : Prop :=
  ∀ s, P s → match m s with (Ok a, s') => Q a s' | (Raise _, s') => E s' end.

(** [I] holds after [m], however it ends. *)
Notation keeps I m := (triple I m (λ _, I) I).

Section triples.
Context {S : Type}.
Implicit Types P E : S → Prop.

Lemma triple_bind {A B} P (m : stateful S A) (f : A → stateful S B) Q Q' E :
  triple P m Q E → (∀ a, triple (Q a) (f a) Q' E) → triple P (m ≫= f) Q' E.
Proof.
  intros Hm Hf s Hs. unfold mbind, stateful_bind. specialize (Hm s Hs).
  destruct (m s) as [[a|e] s']; [by apply Hf|done].
Qed.

Lemma triple_conseq {A} P P' (m : stateful S A) Q Q' E E' :
  triple P m Q E → (∀ s, P' s → P s) → (∀ a s, Q a s → Q' a s) → (∀ s, E s → E' s) →
  triple P' m Q' E'.
Proof.
  intros Hm HP HQ HE s Hs. specialize (Hm s (HP s Hs)).
  destruct (m s) as [[a|e] s']; [by apply HQ|by apply HE].
Qed.

Lemma triple_post {A} P (m : stateful S A) Q Q' E :
  triple P m Q E → (∀ a s, Q a s → Q' a s) → triple P m Q' E.
Proof. intros. by eapply triple_conseq. Qed.

Lemma triple_ret {A} (a : A) P Q E : (∀ s, P s → Q a s) → triple P (mret a) Q E.
Proof. intros HQ s Hs. by apply HQ. Qed.

Lemma triple_lift {A} (m : result A) P Q E :
  (∀ a s, m = Ok a → P s → Q a s) → (∀ s, P s → E s) → triple P (lift m) Q E.
Proof. intros HQ HE s Hs. unfold lift. destruct m as [a|e]; [by apply HQ|by apply HE]. Qed.

Lemma triple_gets {A} (f : S → A) P Q E : (∀ s, P s → Q (f s) s) → triple P (gets f) Q E.
Proof. intros HQ s Hs. by apply HQ. Qed.

Lemma triple_modify f P Q E : (∀ s, P s → Q tt (f s)) → triple P (modify f) Q E.
Proof. intros HQ s Hs. by apply HQ. Qed.

Lemma triple_guard b c msg P Q E :
  (∀ s, b = true → P s → Q tt s) → (∀ s, P s → E s) → triple P (guard_with b c msg) Q E.
Proof.
  intros HQ HE. apply triple_lift; [|done]. intros [] s Hb%require_Ok Hs. by apply HQ.
Qed.

Lemma triple_handle {A} P (m : stateful S A) (h : exn → option (stateful S A)) Q E :
  triple P m Q E → (∀ e k, h e = Some k → triple E k Q E) → triple P (handle m h) Q E.
Proof.
  intros Hm Hh s Hs. unfold handle. specialize (Hm s Hs).
  destruct (m s) as [[a|e] s'] eqn:Em; [done|].
  destruct (h e) as [k|] eqn:Ek; [by apply (Hh e k Ek)|done].
Qed.

Lemma triple_if {A} (b : bool) P (m n : stateful S A) Q E :
  (b = true → triple P m Q E) → (b = false → triple P n Q E) → triple P (if b then m else n) Q E.
Proof. destruct b; auto. Qed.

Lemma triple_for_each {A} (f : A → stateful S unit) l P :
  (∀ x, x ∈ l → keeps P (f x)) → keeps P (for_each f l).
Proof.
  intros Hf. induction l as [|x l IH]; cbn; [by apply triple_ret|].
  eapply triple_bind; [apply Hf; left|]. intros []. apply IH. intros y Hy. apply Hf. by right.
Qed.

Lemma triple_transaction {T A} (get : S → T) (set : T → S → S) (f : T → result (A * T)) P Q E :
  (∀ s a t, P s → f (get s) = Ok (a, t) → Q a (set t s)) → (∀ s, P s → E (set (get s) s)) →
  triple P (zoom get set (transaction f)) Q E.
Proof.
  intros HQ HE s Hs. unfold zoom, transaction.
  destruct (f (get s)) as [[a t]|e] eqn:Ef; [by eapply HQ|by apply HE].
Qed.
End triples.

Create HintDb always.

(** Walk through the body of a computation; the database [always] knows the calls it makes. *)
Ltac always_steps :=
  repeat (cbv zeta; match goal with
  | |- always ?R (mbind _ _) => apply (always_bind R); [|intros ?]
  | |- always ?R (mret _) => apply (always_ret R)
  | |- always ?R (lift _) => apply (always_lift R)
  | |- always ?R (gets _) => apply (always_gets R)
  | |- always ?R (guard_with _ _ _) => apply (always_lift R)
  | |- always ?R (catch _ _ _) => apply (always_catch R)
  | |- always ?R (atomic _) => apply (always_atomic R)
  | |- always _ (if ?b then _ else _) => destruct b
  | |- always _ (match ?x with _ => _ end) => destruct x
  | |- always _ _ => solve [auto with always]
  end).
