(* ===== verification/Failures.v ===== *)
(** * Which exceptions a computation may raise

    [fails_in E m]: every exception [m] raises satisfies [E]. The walk over a body is
    automated by [fails_steps]; the database [fails] knows the calls. *)

From S2P Require Import Prelude.
From stdpp Require Import options.
#[local] Set Default Proof Using "Type".

Definition fails_in {A} (E : exn → Prop) (m : result A) : Prop := ∀ e, m = Raise e → E e.
Definition run_fails_in {S A} (E : exn → Prop) (m : stateful S A) : Prop := ∀ s, fails_in E (m s).1.

Section fails.
Context (E : exn → Prop).

Lemma fails_ok {A} (a : A) : fails_in E (Ok a).
Proof. done. Qed.

Lemma fails_raise {A} c msg : E (Exn c [msg]) → fails_in E (raise c msg : result A).
Proof. intros HE e [= <-]. done. Qed.

Lemma fails_require b c msg : E (Exn c [msg]) → fails_in E (require b c msg).
Proof. intros HE e [_ ->]%require_Raise. done. Qed.

Lemma fails_or_raise {A} (o : option A) c msg : E (Exn c [msg]) → fails_in E (or_raise o c msg).
Proof. intros HE e [_ ->]%or_raise_Raise. done. Qed.

Lemma fails_bind {A B} (m : result A) (f : A → result B) :
  fails_in E m → (∀ a, fails_in E (f a)) → fails_in E (m ≫= f).
Proof. intros Hm Hf e [?|(a & _ & ?)]%bind_Raise; [by apply Hm|by apply (Hf a)]. Qed.

Lemma fails_rescue {A} (E' : exn → Prop) (m : result A) h :
  fails_in E' m → (∀ e, E' e → E (default e (h e))) → fails_in E (rescue m h).
Proof. intros Hm Hh e. destruct m as [a|e']; [done|]. intros [= <-]. by apply Hh, Hm. Qed.

Lemma run_fails_lift {S A} (m : result A) : fails_in E m → run_fails_in E (lift m : stateful S A).
Proof. by intros Hm s. Qed.

Lemma run_fails_ret {S A} (a : A) : run_fails_in E (mret a : stateful S A).
Proof. done. Qed.

Lemma run_fails_gets {S A} (f : S → A) : run_fails_in E (gets f).
Proof. done. Qed.

Lemma run_fails_modify {S} (f : S → S) : run_fails_in E (modify f).
Proof. done. Qed.

Lemma run_fails_bind {S A B} (m : stateful S A) (f : A → stateful S B) :
  run_fails_in E m → (∀ a, run_fails_in E (f a)) → run_fails_in E (m ≫= f).
Proof.
  intros Hm Hf s. unfold mbind, stateful_bind. specialize (Hm s).
  destruct (m s) as [[a|e] s']; [apply Hf|]. intros e' [= <-]. by apply Hm.
Qed.
End fails.

Lemma fails_weaken {A} (E E' : exn → Prop) (m : result A) :
  fails_in E m → (∀ e, E e → E' e) → fails_in E' m.
Proof. intros Hm HE e He. auto. Qed.

Create HintDb fails.

Ltac fails_steps :=
  repeat (cbv zeta; match goal with
  | |- fails_in _ (mbind _ _) => apply fails_bind; [|intros ?]
  | |- fails_in _ (Ok _) => apply fails_ok
  | |- fails_in _ (raise _ _) => apply fails_raise
  | |- fails_in _ (require _ _ _) => apply fails_require
  | |- fails_in _ (or_raise _ _ _) => apply fails_or_raise
  | |- run_fails_in _ (mbind _ _) => apply run_fails_bind; [|intros ?]
  | |- run_fails_in _ (mret _) => apply run_fails_ret
  | |- run_fails_in _ (gets _) => apply run_fails_gets
  | |- run_fails_in _ (modify _) => apply run_fails_modify
  | |- run_fails_in _ (lift _) => apply run_fails_lift
  | |- run_fails_in _ (guard_with _ _ _) => apply run_fails_lift
  | |- fails_in _ (if ?b then _ else _) => destruct b
  | |- run_fails_in _ (if ?b then _ else _) => destruct b
  | |- fails_in _ (match ?x with _ => _ end) => destruct x
  | |- run_fails_in _ (match ?x with _ => _ end) => destruct x
  | |- _ => solve [auto with fails]
  end).
