(* ===== verification/Hmac.v ===== *)
(** * The comparison [hmac.compare_digest]

    On two texts it accepts ASCII only: any other character is a [TypeError]. *)

From S2P Require Import Prelude.
From stdpp Require Import options.

Definition is_ascii (s : string) : bool := str_forallb (λ c, (Ascii.N_of_ascii c <? 128)%N) s.

Definition compare_digest (s t : string) : result bool :=
  _ ← require (is_ascii s && is_ascii t) TypeError "compare_digest"; Ok (s =? t).

Lemma compare_digest_Ok s t b : compare_digest s t = Ok b → b = (s =? t).
Proof. unfold compare_digest. intros H. by inv_ok. Qed.

Lemma compare_digest_same s t : compare_digest s t = Ok true → s = t.
Proof. intros H%compare_digest_Ok. by apply String.eqb_eq. Qed.
