(* ===== verification/PyVal.v ===== *)
(** * Python values and canonical JSON

    The JSON-shaped Python values the program passes around ([dict[str, Any]] payloads), with
    the operations the code applies to them: truthiness, [==], [.get], iteration, [str], and
    [json.dumps(v, sort_keys=True, separators=(",", ":"), ensure_ascii=False)]. A [str] is its
    UTF-8 encoding; a [float] is kept as the token its [repr] prints. *)

From S2P Require Import Prelude.
From stdpp Require Import options.

Inductive pyval :=
  | PNone
  | PBool (b : bool)
  | PInt (z : Z)
  | PFloat (repr : string)
  | PStr (s : string)
  | PList (l : list pyval)
  | PDict (d : list (string * pyval)).

(** ** Induction through the containers *)
Section pyval_induction.
Context (P : pyval → Prop).
Context (HNone : P PNone) (HBool : ∀ b, P (PBool b)) (HInt : ∀ z, P (PInt z))
  (HFloat : ∀ t, P (PFloat t)) (HStr : ∀ s, P (PStr s))
  (HList : ∀ l, Forall P l → P (PList l))
  (HDict : ∀ d, Forall (λ kv, P kv.2) d → P (PDict d)).

Fixpoint pyval_ind_nested (v : pyval) : P v :=
  match v with
  | PNone => HNone
  | PBool b => HBool b
  | PInt z => HInt z
  | PFloat t => HFloat t
  | PStr s => HStr s
  | PList l => HList l
      ((fix go l : Forall P l :=
          match l with
          | [] => Forall_nil_2 _
          | x :: l => Forall_cons_2 _ _ _ (pyval_ind_nested x) (go l)
          end) l)
  | PDict d => HDict d
      ((fix go d : Forall (λ kv, P kv.2) d :=
          match d with
          | [] => Forall_nil_2 _
          | kv :: d => Forall_cons_2 _ _ _ (pyval_ind_nested kv.2) (go d)
          end) d)
  end.
End pyval_induction.

(** ** Equality of the representation *)
Fixpoint pyval_eqb (v w : pyval) : bool :=
  match v, w with
  | PNone, PNone => true
  | PBool b, PBool c => Bool.eqb b c
  | PInt z, PInt y => Z.eqb z y
  | PFloat t, PFloat u => t =? u
  | PStr s, PStr t => s =? t
  | PList l, PList m =>
      (fix go l m := match l, m with
                     | [], [] => true
                     | x :: l, y :: m => pyval_eqb x y && go l m
                     | _, _ => false
                     end) l m
  | PDict d, PDict e =>
      (fix go d e := match d, e with
                     | [], [] => true
                     | kv :: d, lw :: e => (kv.1 =? lw.1) && pyval_eqb kv.2 lw.2 && go d e
                     | _, _ => false
                     end) d e
  | _, _ => false
  end.

Lemma pyval_eqb_eq v w : pyval_eqb v w = true ↔ v = w.
Proof.
  revert w. induction v as [|b|z|t|s|l IH|d IH] using pyval_ind_nested; intros [|b'|z'|t'|s'|m|e];
    cbn; try (split; congruence).
  - rewrite Bool.eqb_true_iff. naive_solver.
  - rewrite Z.eqb_eq. naive_solver.
  - rewrite String.eqb_eq. naive_solver.
  - rewrite String.eqb_eq. naive_solver.
  - revert m. induction IH as [|x l Hx _ IHl]; intros [|y m]; cbn; try (split; congruence).
    rewrite andb_true_iff, Hx, IHl. naive_solver.
  - revert e. induction IH as [|[k x] d Hx _ IHd]; intros [|[k' y] e]; cbn; try (split; congruence).
    rewrite !andb_true_iff, String.eqb_eq, IHd. cbn in Hx. rewrite Hx. naive_solver.
Qed.

#[export] Instance pyval_eq_dec : EqDecision pyval.
Proof.
  intros v w. destruct (pyval_eqb v w) eqn:E.
  - left. by apply pyval_eqb_eq.
  - right. intros H%pyval_eqb_eq. congruence.
Defined.

#[export] Instance pyval_inhabited : Inhabited pyval := populate PNone.

(** ** Dictionaries *)

(** [d[k]] on the items of a dict; the keys of a dict are distinct. *)
Fixpoint assoc {A} (k : string) (d : list (string * A)) : option A :=
  match d with
  | [] => None
  | (k', x) :: d => if k =? k' then Some x else assoc k d
  end.

(** [d[k] = v]: in place when [k] is present, at the end otherwise. *)
Fixpoint assoc_set {A} (k : string) (x : A) (d : list (string * A)) : list (string * A) :=
  match d with
  | [] => [(k, x)]
  | (k', y) :: d => if k =? k' then (k', x) :: d else (k', y) :: assoc_set k x d
  end.

(** [d.setdefault(k, v)] *)
Definition assoc_setdefault {A} (k : string) (x : A) (d : list (string * A)) :=
  match assoc k d with Some _ => d | None => d ++ [(k, x)] end.

(** [d.update(e)] *)
Definition assoc_update {A} (d e : list (string * A)) : list (string * A) :=
  foldl (λ acc kv, assoc_set kv.1 kv.2 acc) d e.

Lemma assoc_app {A} k (d e : list (string * A)) :
  assoc k (d ++ e) = match assoc k d with Some x => Some x | None => assoc k e end.
Proof. induction d as [|[k' x] d IH]; cbn; [done|]. by destruct (k =? k'). Qed.

Lemma assoc_set_eq {A} k (x : A) d : assoc k (assoc_set k x d) = Some x.
Proof.
  induction d as [|[k' y] d IH]; cbn; [by rewrite String.eqb_refl|].
  destruct (k =? k') eqn:E; cbn; by rewrite E.
Qed.

Lemma assoc_set_ne {A} k k' (x : A) d : k ≠ k' → assoc k (assoc_set k' x d) = assoc k d.
Proof.
  intros Hne. assert ((k =? k') = false) as Hf by by apply String.eqb_neq.
  induction d as [|[k2 y] d IH]; cbn; [by rewrite Hf|].
  destruct (k' =? k2) eqn:E; cbn; [|by rewrite IH].
  apply String.eqb_eq in E as <-. by rewrite Hf.
Qed.

Lemma assoc_setdefault_eq {A} k (x : A) d :
  assoc k (assoc_setdefault k x d) = Some (default x (assoc k d)).
Proof.
  unfold assoc_setdefault. destruct (assoc k d) eqn:E; cbn; [done|].
  rewrite assoc_app, E. cbn. by rewrite String.eqb_refl.
Qed.

Lemma assoc_setdefault_ne {A} k k' (x : A) d :
  k ≠ k' → assoc k (assoc_setdefault k' x d) = assoc k d.
Proof.
  intros Hne%String.eqb_neq. unfold assoc_setdefault. destruct (assoc k' d); [done|].
  rewrite assoc_app. cbn. rewrite Hne. by destruct (assoc k d).
Qed.

(** ** Truthiness, equality and conversion *)

(** [bool(v)] *)
Definition truthy (v : pyval) : bool :=
  match v with
  | PNone => false
  | PBool b => b
  | PInt z => negb (Z.eqb z 0)
  | PFloat t => negb (str_in t ["0.0"; "-0.0"])
  | PStr s => negb (s =? "")
  | PList l => match l with [] => false | _ => true end
  | PDict d => match d with [] => false | _ => true end
  end.

(** The integer a [bool] or [int] denotes. *)
Definition as_int (v : pyval) : option Z :=
  match v with
  | PBool b => Some (if b then 1 else 0)%Z
  | PInt z => Some z
  | _ => None
  end.

(** [x == y] between a float's [repr] and another float's: [nan] differs from itself and the
    two zeros agree. *)
Definition float_eqb (t u : string) : bool :=
  negb (t =? "nan") && ((t =? u) || (str_in t ["0.0"; "-0.0"] && str_in u ["0.0"; "-0.0"])).

(** [x == z] between a float and an integer; the [repr] of an integral float below [10^16]
    is its decimal expansion followed by [.0]. *)
Definition float_int_eqb (t : string) (z : Z) : bool := float_eqb t (pretty z +:+ ".0").

(** [v == w]: numbers compare by value, dictionaries without their order. *)
Fixpoint py_eq (v w : pyval) : bool :=
  match v, w with
  | PNone, PNone => true
  | PStr s, PStr t => s =? t
  | PFloat t, PFloat u => float_eqb t u
  | PFloat t, (PBool _ | PInt _) =>
      match as_int w with Some z => float_int_eqb t z | None => false end
  | (PBool _ | PInt _), PFloat t =>
      match as_int v with Some z => float_int_eqb t z | None => false end
  | (PBool _ | PInt _), (PBool _ | PInt _) => bool_decide (as_int v = as_int w)
  | PList l, PList m =>
      (fix go l m := match l, m with
                     | [], [] => true
                     | x :: l, y :: m => py_eq x y && go l m
                     | _, _ => false
                     end) l m
  | PDict d, PDict e =>
      Nat.eqb (length d) (length e) &&
      (fix go d := match d with
                   | [] => true
                   | kv :: d => match assoc kv.1 e with
                                | Some y => py_eq kv.2 y
                                | None => false
                                end && go d
                   end) d
  | _, _ => false
  end.

Lemma py_eq_str s w : py_eq (PStr s) w = true ↔ w = PStr s.
Proof. destruct w; cbn; try (split; congruence). rewrite String.eqb_eq. naive_solver. Qed.

Lemma py_eq_str_r s v : py_eq v (PStr s) = true ↔ v = PStr s.
Proof. destruct v; cbn; try (split; congruence). rewrite String.eqb_eq. naive_solver. Qed.

Lemma py_eq_none w : py_eq PNone w = true ↔ w = PNone.
Proof. destruct w; cbn; split; congruence. Qed.

Definition is_none (v : pyval) : bool := match v with PNone => true | _ => false end.

(** [k in v]'s requirement and [hash(v)]: lists and dictionaries are not hashable. *)
Definition hashable (v : pyval) : bool :=
  match v with PList _ | PDict _ => false | _ => true end.

(** [x is y or x == y], the comparison of set elements and dictionary keys. *)
Definition same_key (v w : pyval) : bool := pyval_eqb v w || py_eq v w.

(** The hexadecimal digit of a number below 16. *)
Definition hex_digit (n : nat) : ascii :=
  Ascii.ascii_of_nat (if (n <? 10)%nat then 48 + n else 87 + n).

Definition dq : ascii := "034"%char.
Definition bs : ascii := "092"%char.

(** [repr(s)]: single quotes unless the string holds one and no double quote; non-ASCII
    characters print as themselves. *)
Definition repr_char (quote : ascii) (c : ascii) : string :=
  let n := Ascii.nat_of_ascii c in
  if Ascii.eqb c quote || Ascii.eqb c bs then String bs (String c EmptyString)
  else if Ascii.eqb c "009" then String bs "t"
  else if Ascii.eqb c "010" then String bs "n"
  else if Ascii.eqb c "013" then String bs "r"
  else if (n <? 32)%nat || Nat.eqb n 127 then
    String bs (String "x" (String (hex_digit (n / 16)) (String (hex_digit (n mod 16)) EmptyString)))
  else String c EmptyString.
Definition repr_str (s : string) : string :=
  let q := if str_contains "'" s && negb (str_contains (String dq EmptyString) s)
           then dq else "'"%char in
  let body := foldr (λ c acc, repr_char q c +:+ acc) EmptyString (String.list_ascii_of_string s) in
  String q body +:+ String q EmptyString.

Fixpoint py_repr (v : pyval) : string :=
  match v with
  | PNone => "None"
  | PBool true => "True"
  | PBool false => "False"
  | PInt z => pretty z
  | PFloat t => t
  | PStr s => repr_str s
  | PList l => "[" +:+ str_join ", " (map py_repr l) +:+ "]"
  | PDict d => "{" +:+ str_join ", " (map (λ kv, repr_str kv.1 +:+ ": " +:+ py_repr kv.2) d) +:+ "}"
  end.

(** [str(v)] *)
Definition py_str (v : pyval) : string := match v with PStr s => s | _ => py_repr v end.

(** ** Access, with the exceptions of the language *)

(** [v.get(k, default)]: only a dictionary has [get]. *)
Definition py_get (v : pyval) (k : string) (default : pyval) : result pyval :=
  match v with
  | PDict d => Ok (match assoc k d with Some x => x | None => default end)
  | _ => raise AttributeError "get"
  end.

(** [v[k]] with a string key *)
Definition py_item (v : pyval) (k : string) : result pyval :=
  match v with
  | PDict d => or_raise (assoc k d) KeyError k
  | _ => raise TypeError k
  end.

(** The Unicode code points of a UTF-8 string, each as its bytes. *)
Fixpoint code_points (s : string) : list string :=
  match s with
  | EmptyString => []
  | String c s' =>
      match code_points s' with
      | String d r :: l => if is_continuation d then String c (String d r) :: l
                           else String c EmptyString :: String d r :: l
      | l => String c EmptyString :: l
      end
  end.

(** [iter(v)]: the elements of a list, the keys of a dictionary, the characters of a string. *)
Definition py_iter (v : pyval) : result (list pyval) :=
  match v with
  | PList l => Ok l
  | PDict d => Ok (map (λ kv, PStr kv.1) d)
  | PStr s => Ok (map PStr (code_points s))
  | _ => raise TypeError "not iterable"
  end.

(** ** Monadic iteration *)

(** A loop that appends what each element yields, and stops at the first exception. *)
Fixpoint concatM {A B} (f : A → result (list B)) (l : list A) : result (list B) :=
  match l with
  | [] => Ok []
  | x :: l => ys ← f x; zs ← concatM f l; Ok (ys ++ zs)
  end.

Lemma concatM_Ok {A B} (f : A → result (list B)) l ys :
  concatM f l = Ok ys ↔ ∃ yss, Forall2 (λ x zs, f x = Ok zs) l yss ∧ ys = concat yss.
Proof.
  revert ys. induction l as [|x l IH]; intros ys; cbn.
  - split; [intros [= <-]; exists []; split; [constructor|done]|].
    intros (yss & H & ->). by inversion H.
  - rewrite bind_Ok. split.
    + intros (y & Hy & H). apply bind_Ok in H as (zs & Hz & [= <-]).
      apply IH in Hz as (yss & Hf & ->). exists (y :: yss). split; [by constructor|done].
    + intros (yss & H & ->). inversion H as [|? zs ? yss' Hz Hf]; subst.
      exists zs. split; [done|]. apply bind_Ok. exists (concat yss'). split; [|done].
      apply IH. eauto.
Qed.

Lemma concatM_total {A B} (f : A → result (list B)) (g : A → list B) l :
  (∀ x, x ∈ l → f x = Ok (g x)) → concatM f l = Ok (concat (map g l)).
Proof.
  induction l as [|x l IH]; intros H; cbn; [done|].
  rewrite H by left. cbn. rewrite IH by (intros; apply H; by right). done.
Qed.

(** [list(dict.fromkeys(l))] on values: raises on an unhashable key. *)
Fixpoint py_fromkeys_from (seen l : list pyval) : result (list pyval) :=
  match l with
  | [] => Ok []
  | x :: l =>
      _ ← require (hashable x) TypeError "unhashable type";
      if existsb (same_key x) seen then py_fromkeys_from seen l
      else r ← py_fromkeys_from (x :: seen) l; Ok (x :: r)
  end.
Definition py_fromkeys (l : list pyval) : result (list pyval) := py_fromkeys_from [] l.

Lemma py_fromkeys_subset l seen r x :
  py_fromkeys_from seen l = Ok r → x ∈ r → x ∈ l.
Proof.
  revert seen r. induction l as [|y l IH]; intros seen r H; cbn in H.
  - injection H as <-. by intros ?%elem_of_nil.
  - inv_ok. destruct (existsb _ _).
    + intros Hx. right. by eapply IH.
    + inv_ok. intros [->|Hx]%elem_of_cons; [left|right; by eapply IH].
Qed.

Lemma py_fromkeys_nil_inv l : py_fromkeys l = Ok [] → l = [].
Proof. destruct l as [|x l]; [done|]. unfold py_fromkeys. cbn. intros H. by inv_ok. Qed.
