(* ===== verification/Sql.v ===== *)
(** * Relational tables

    The part of SQL the PostgreSQL repositories rely on: tables of rows, SELECT, INSERT, UPDATE
    and DELETE statements, and the constraints of a schema (keys, partial unique indexes, foreign
    keys, NOT NULL), which every statement leaves satisfied or else fails with [IntegrityError]. A row
    lists its columns; NULL and an absent column are [PNone]; JSONB columns hold the value. The
    rows of a table are listed in the order they were inserted, which is the order of the
    identity column [sequence] of the audit tables. *)

From S2P Require Import Prelude PyVal.
From stdpp Require Import options.

Notation row := (list (string * pyval)).
Notation database := (gmap string (list row)).

Definition table (t : string) (db : database) : list row := default [] (db !! t).
Definition col (c : string) (r : row) : pyval := default PNone (assoc c r).

(** [c = %s] for a text: NULL equals nothing. *)
Definition col_is (c v : string) (r : row) : bool := bool_decide (col c r = PStr v).

(** The text of a NOT NULL column, and of one that may be NULL. *)
Definition text_of (v : pyval) : string := match v with PStr s => s | _ => "" end.
Definition opt_text_of (v : pyval) : option string := match v with PStr s => Some s | _ => None end.

(** A value from an optional one: [None] is NULL. *)
Definition nullable (o : option string) : pyval := match o with Some s => PStr s | None => PNone end.

Lemma opt_text_nullable o : opt_text_of (nullable o) = o.
Proof. by destruct o. Qed.

(** ** Constraints *)

(** PRIMARY KEY and UNIQUE; an index may cover only the rows where a boolean column is true. *)
Record Key := mkKey { key_table : string; key_columns : list string; key_where : option string }.
Record ForeignKey := mkForeignKey {
  fk_table : string; fk_columns : list string; fk_parent : string; fk_parent_columns : list string
}.
Record Schema := mkSchema {
  keys : list Key; foreign_keys : list ForeignKey; not_null : list (string * list string)
}.

#[export] Instance Key_eq_dec : EqDecision Key.
Proof. solve_decision. Defined.
#[export] Instance ForeignKey_eq_dec : EqDecision ForeignKey.
Proof. solve_decision. Defined.

(** The values of the columns, unless one of them is NULL. *)
Fixpoint project (cs : list string) (r : row) : option (list pyval) :=
  match cs with
  | [] => Some []
  | c :: cs =>
      match col c r with
      | PNone => None
      | v => (λ vs, v :: vs) <$> project cs r
      end
  end.

Definition covered (k : Key) (r : row) : bool :=
  match key_where k with None => true | Some c => bool_decide (col c r = PBool true) end.

(** The keys of the covered rows of a table. *)
Definition key_value (k : Key) (r : row) : option (list pyval) :=
  if covered k r then project (key_columns k) r else None.
Definition key_values (k : Key) (rows : list row) : list (list pyval) := omap (key_value k) rows.

Definition key_ok (db : database) (k : Key) : bool :=
  bool_decide (NoDup (key_values k (table (key_table k) db))).

(** [r] refers to the row [p] of the parent table. *)
Definition refers (f : ForeignKey) (r p : row) : bool :=
  match project (fk_columns f) r with
  | None => false
  | Some v => bool_decide (project (fk_parent_columns f) p = Some v)
  end.

Definition fk_ok (db : database) (f : ForeignKey) : bool :=
  forallb (λ r, match project (fk_columns f) r with
                | None => true
                | Some _ => existsb (refers f r) (table (fk_parent f) db)
                end) (table (fk_table f) db).

Definition not_null_ok (db : database) (n : string * list string) : bool :=
  forallb (λ r, bool_decide (is_Some (project n.2 r))) (table n.1 db).

Definition consistent (schema : Schema) (db : database) : bool :=
  forallb (key_ok db) (keys schema) && forallb (fk_ok db) (foreign_keys schema) &&
  forallb (not_null_ok db) (not_null schema).

(** ** Statements *)

Section statements.
Context (schema : Schema).

(** A statement that would leave a constraint violated fails. *)
Definition statement (f : database → database) : stateful database unit := λ db,
  let db' := f db in
  if consistent schema db' then (Ok tt, db') else (raise IntegrityError "CONSTRAINT_VIOLATED", db).

Definition insert_into (t : string) (r : row) : stateful database unit :=
  statement (λ db, <[t := table t db ++ [r]]> db).

(** The number of rows the statement deletes. *)
Definition delete_from (t : string) (p : row → bool) : stateful database nat :=
  n ← gets (λ db, length (filter (λ r, p r = true) (table t db)));
  _ ← statement (λ db, <[t := filter (λ r, p r = false) (table t db)]> db);
  mret n.

Definition update (t : string) (p : row → bool) (f : row → row) : stateful database nat :=
  n ← gets (λ db, length (filter (λ r, p r = true) (table t db)));
  _ ← statement (λ db, <[t := map (λ r, if p r then f r else r) (table t db)]> db);
  mret n.

Definition select (t : string) (p : row → bool) : stateful database (list row) :=
  gets (λ db, filter (λ r, p r = true) (table t db)).

(** [.fetchone()], and the same with [ORDER BY sequence DESC LIMIT 1]. *)
Definition fetchone (t : string) (p : row → bool) : stateful database (option row) :=
  gets (λ db, head (filter (λ r, p r = true) (table t db))).
Definition fetchlast (t : string) (p : row → bool) : stateful database (option row) :=
  gets (λ db, last (filter (λ r, p r = true) (table t db))).
End statements.

(** ** Facts about tables *)

Lemma and_iff_both (A B C D : Prop) : (A ↔ C) → (B ↔ D) → (A ∧ B ↔ C ∧ D).
Proof. tauto. Qed.

Lemma table_insert_eq t rows db : table t (<[t := rows]> db) = rows.
Proof. unfold table. by rewrite lookup_insert_eq. Qed.

Lemma table_insert_ne t t' rows db : t ≠ t' → table t (<[t' := rows]> db) = table t db.
Proof. intros. unfold table. by rewrite lookup_insert_ne. Qed.

Lemma col_is_true c v r : col_is c v r = true ↔ col c r = PStr v.
Proof. apply bool_decide_eq_true. Qed.

Lemma consistent_spec schema db :
  consistent schema db = true ↔
  (∀ k, k ∈ keys schema → NoDup (key_values k (table (key_table k) db))) ∧
  (∀ f r v, f ∈ foreign_keys schema → r ∈ table (fk_table f) db → project (fk_columns f) r = Some v →
     ∃ p, p ∈ table (fk_parent f) db ∧ project (fk_parent_columns f) p = Some v) ∧
  (∀ t cs r, (t, cs) ∈ not_null schema → r ∈ table t db → is_Some (project cs r)).
Proof.
  unfold consistent. rewrite !andb_true_iff, !forallb_true_Forall, !Forall_forall, Logic.and_assoc.
  apply and_iff_both; [|apply and_iff_both]; (split; [|]).
  - intros H k Hk. specialize (H k Hk). by apply bool_decide_eq_true in H.
  - intros H k Hk. apply bool_decide_eq_true. by apply H.
  - intros H f r v Hf Hr Hv. specialize (H f Hf). unfold fk_ok in H.
    rewrite forallb_true_Forall, Forall_forall in H. specialize (H r Hr). cbn in H. rewrite Hv in H.
    apply existsb_true_Exists, Exists_exists in H as (p & Hp & E). exists p. split; [done|].
    unfold refers in E. rewrite Hv in E. by apply bool_decide_eq_true in E.
  - intros H f Hf. unfold fk_ok. rewrite forallb_true_Forall, Forall_forall. intros r Hr.
    destruct (project (fk_columns f) r) as [v|] eqn:Hv; [|done].
    destruct (H f r v Hf Hr Hv) as (p & Hp & E).
    apply existsb_true_Exists, Exists_exists. exists p. split; [done|].
    unfold refers. rewrite Hv. by apply bool_decide_eq_true.
  - intros H t cs r Hn Hr. specialize (H _ Hn). unfold not_null_ok in H.
    rewrite forallb_true_Forall, Forall_forall in H. specialize (H r Hr).
    by apply bool_decide_eq_true in H.
  - intros H [t cs] Hn. unfold not_null_ok. rewrite forallb_true_Forall, Forall_forall. intros r Hr.
    apply bool_decide_eq_true. by apply (H t).
Qed.

Lemma key_values_app k l l' : key_values k (l ++ l') = key_values k l ++ key_values k l'.
Proof. unfold key_values. apply omap_app. Qed.

Lemma key_values_sublist k l l' : l `sublist_of` l' → key_values k l `sublist_of` key_values k l'.
Proof.
  induction 1 as [|x l l' _ IH|x l l' _ IH]; cbn; [done| |].
  - destruct (key_value k x); [by apply sublist_skip|done].
  - destruct (key_value k x); [by apply sublist_cons|done].
Qed.

Lemma elem_of_key_values k l v :
  v ∈ key_values k l ↔ ∃ r, r ∈ l ∧ covered k r = true ∧ project (key_columns k) r = Some v.
Proof.
  unfold key_values. rewrite list_elem_of_omap. unfold key_value. split; intros (r & Hr & E); exists r;
    destruct (covered k r); naive_solver.
Qed.

Lemma key_values_map k g l :
  (∀ r, key_value k (g r) = key_value k r) → key_values k (map g l) = key_values k l.
Proof. intros E. induction l as [|r l IH]; cbn; [done|]. unfold key_values in IH. by rewrite E, IH. Qed.

(** Two rows with the same key are the same row. *)
Lemma key_unique k l r r' v :
  NoDup (key_values k l) → r ∈ l → r' ∈ l → covered k r = true → covered k r' = true →
  project (key_columns k) r = Some v → project (key_columns k) r' = Some v → r = r'.
Proof.
  intros Hn Hr Hr' Hc Hc' Hv Hv'. induction l as [|x l IH]; [by apply elem_of_nil in Hr|].
  assert (∀ y, y ∈ l → covered k y = true → project (key_columns k) y = Some v →
    v ∈ key_values k l) as Hin by (intros; apply elem_of_key_values; eauto).
  cbn in Hn. unfold key_value at 1 in Hn. apply elem_of_cons in Hr as [->|Hr], Hr' as [->|Hr']; [done| | |].
  - rewrite Hc, Hv in Hn. apply NoDup_cons in Hn as [Hn _]. by destruct Hn; eapply Hin.
  - rewrite Hc', Hv' in Hn. apply NoDup_cons in Hn as [Hn _]. by destruct Hn; eapply Hin.
  - apply IH; try done. destruct (if covered k x then _ else _); [by apply NoDup_cons in Hn as [_ ?]|done].
Qed.

Section consistency.
Context (schema : Schema).

(** Two databases with the same tables are consistent together. *)
Lemma consistent_same db db' :
  (∀ t, table t db' = table t db) → consistent schema db' = consistent schema db.
Proof.
  intros E. apply eq_true_iff_eq. rewrite !consistent_spec. by setoid_rewrite E.
Qed.

(** What a deletion must not leave behind: a row that refers to a deleted one. *)
Lemma consistent_delete t p db :
  consistent schema db = true →
  (∀ f r q, f ∈ foreign_keys schema → fk_parent f = t → r ∈ table (fk_table f) db →
     q ∈ table t db → refers f r q = true → p q = true → fk_table f = t ∧ p r = true) →
  consistent schema (<[t := filter (λ r, p r = false) (table t db)]> db) = true.
Proof.
  intros (Hk & Hf & Hn)%consistent_spec Hp. apply consistent_spec. split_and!; cycle 2.
  { intros t' cs r Hin Hr. apply (Hn t' cs r Hin). destruct (decide (t' = t)) as [->|Hne].
    - rewrite table_insert_eq in Hr. by apply list_elem_of_filter in Hr as [_ ?].
    - by rewrite table_insert_ne in Hr. }
  - intros k Hin. destruct (decide (key_table k = t)) as [<-|Hne].
    + rewrite table_insert_eq. apply (sublist_NoDup _ (key_values k (table (key_table k) db)));
        [by apply Hk|]. apply key_values_sublist, sublist_filter.
    + rewrite table_insert_ne by done. by apply Hk.
  - intros f r v Hin Hr Hv.
    assert (r ∈ table (fk_table f) db ∧ (fk_table f = t → p r = false)) as [Hr0 Hpr].
    { destruct (decide (fk_table f = t)) as [E|Hne].
      - rewrite E, table_insert_eq in Hr. apply list_elem_of_filter in Hr as [? ?]. by rewrite E.
      - by rewrite table_insert_ne in Hr. }
    destruct (Hf f r v Hin Hr0 Hv) as (q & Hq & Eq). exists q. split; [|done].
    destruct (decide (fk_parent f = t)) as [E|Hne]; [|by rewrite table_insert_ne].
    rewrite E, table_insert_eq in *. apply list_elem_of_filter. split; [|done].
    destruct (p q) eqn:Hpq; [|done]. destruct (Hp f r q) as [E' Hr']; try done.
    + unfold refers. rewrite Hv. by apply bool_decide_eq_true.
    + rewrite Hpr in Hr' by done. done.
Qed.

Lemma consistent_insert t r db :
  consistent schema db = true →
  (∀ k v, k ∈ keys schema → key_table k = t → covered k r = true → project (key_columns k) r = Some v →
     ∀ r', r' ∈ table t db → covered k r' = true → project (key_columns k) r' ≠ Some v) →
  (∀ f v, f ∈ foreign_keys schema → fk_table f = t → project (fk_columns f) r = Some v →
     ∃ p, p ∈ table (fk_parent f) db ∧ project (fk_parent_columns f) p = Some v) →
  (∀ cs, (t, cs) ∈ not_null schema → is_Some (project cs r)) →
  consistent schema (<[t := table t db ++ [r]]> db) = true.
Proof.
  intros (Hk & Hf & Hn)%consistent_spec Hnew Hpar Hnn. apply consistent_spec. split_and!; cycle 2.
  { intros t' cs r' Hin Hr. destruct (decide (t' = t)) as [->|Hne].
    - rewrite table_insert_eq in Hr. apply elem_of_app in Hr as [Hr|Hr]; [by eapply Hn|].
      apply list_elem_of_singleton in Hr as ->. by apply Hnn.
    - rewrite table_insert_ne in Hr by done. by eapply Hn. }
  - intros k Hin. destruct (decide (key_table k = t)) as [<-|Hne].
    + rewrite table_insert_eq, key_values_app. apply NoDup_app. split_and!; [by apply Hk| |].
      * intros v Hv Hv'. apply elem_of_key_values in Hv as (r' & Hr' & Hc' & Hp').
        apply elem_of_key_values in Hv' as (r1 & Hr1 & Hc1 & Hp1).
        apply list_elem_of_singleton in Hr1 as ->. by apply (Hnew k v Hin eq_refl Hc1 Hp1 r').
      * cbn. destruct (key_value k r); [apply NoDup_singleton|].
        apply NoDup_nil_2.
    + rewrite table_insert_ne by done. by apply Hk.
  - intros f r0 v Hin Hr Hv.
    assert (∃ p, p ∈ table (fk_parent f) db ∧ project (fk_parent_columns f) p = Some v) as (p & Hp & E).
    { destruct (decide (fk_table f = t)) as [<-|Hne].
      - rewrite table_insert_eq in Hr. apply elem_of_app in Hr as [Hr|Hr]; [by eapply Hf|].
        apply list_elem_of_singleton in Hr as ->. by apply Hpar.
      - rewrite table_insert_ne in Hr by done. by eapply Hf. }
    exists p. split; [|done]. destruct (decide (fk_parent f = t)) as [<-|Hne].
    + rewrite table_insert_eq. apply elem_of_app. by left.
    + by rewrite table_insert_ne.
Qed.

Definition listed (o : option string) : list string := match o with Some c => [c] | None => [] end.

(** The columns the constraints of a table mention. *)
Definition constrained (t : string) : list string :=
  concat (map (λ k, if key_table k =? t then key_columns k ++ listed (key_where k) else []) (keys schema)) ++
  concat (map (λ f, if fk_table f =? t then fk_columns f else []) (foreign_keys schema)) ++
  concat (map (λ f, if fk_parent f =? t then fk_parent_columns f else []) (foreign_keys schema)) ++
  concat (map (λ n, if n.1 =? t then n.2 else []) (not_null schema)).

Lemma project_same cs r r' : (∀ c, c ∈ cs → col c r' = col c r) → project cs r' = project cs r.
Proof.
  induction cs as [|c cs IH]; intros E; cbn; [done|]. rewrite (E c) by left.
  rewrite IH; [done|]. intros c' Hc. apply E. by right.
Qed.

(** Columns no constraint mentions may be updated freely. *)
Lemma consistent_update t (p : row → bool) (f : row → row) db :
  (∀ r c, c ∈ constrained t → col c (f r) = col c r) →
  consistent schema (<[t := map (λ r, if p r then f r else r) (table t db)]> db) = consistent schema db.
Proof.
  intros Hsame. set (g := λ r : row, if p r then f r else r).
  assert (∀ r c, c ∈ constrained t → col c (g r) = col c r) as Hg
    by (intros r c Hc; unfold g; destruct (p r); [by apply Hsame|done]).
  unfold constrained in Hg. apply eq_true_iff_eq. rewrite !consistent_spec.
  assert (∀ t', table t' (<[t := map g (table t db)]> db) =
    if decide (t' = t) then map g (table t db) else table t' db) as Et.
  { intros t'. case_decide; subst; [by rewrite table_insert_eq|by rewrite table_insert_ne]. }
  assert (∀ k, k ∈ keys schema → key_table k = t → ∀ r,
    key_value k (g r) = key_value k r) as Hkey.
  { intros k Hk E r. assert (∀ c, c ∈ key_columns k ++ listed (key_where k) → col c (g r) = col c r) as Hc.
    { intros c Hc. apply Hg. rewrite !elem_of_app, elem_of_concat_map. left. exists k.
      by rewrite E, String.eqb_refl. }
    unfold key_value, covered.
    rewrite (project_same (key_columns k) r (g r)) by (intros; apply Hc, elem_of_app; by left).
    destruct (key_where k) as [c|] eqn:Ew; [|done].
    rewrite Hc; [done|]. apply elem_of_app. right. rewrite ?Ew. by left. }
  assert (∀ h, h ∈ foreign_keys schema → fk_table h = t → ∀ r,
    project (fk_columns h) (g r) = project (fk_columns h) r) as Hchild.
  { intros h Hh E r. apply project_same. intros c Hc. apply Hg.
    rewrite !elem_of_app, !elem_of_concat_map. right. left. exists h. by rewrite E, String.eqb_refl. }
  assert (∀ h, h ∈ foreign_keys schema → fk_parent h = t → ∀ r,
    project (fk_parent_columns h) (g r) = project (fk_parent_columns h) r) as Hparent.
  { intros h Hh E r. apply project_same. intros c Hc. apply Hg.
    rewrite !elem_of_app, !elem_of_concat_map. right. right. left. exists h. by rewrite E, String.eqb_refl. }
  assert (∀ cs, (t, cs) ∈ not_null schema → ∀ r, project cs (g r) = project cs r) as Hnull.
  { intros cs Hn r. apply project_same. intros c Hc. apply Hg.
    rewrite !elem_of_app, !elem_of_concat_map. right. right. right. exists (t, cs).
    cbn. by rewrite String.eqb_refl. }
  apply and_iff_both; [|apply and_iff_both]; cycle 2.
  { assert (∀ t' cs, (t', cs) ∈ not_null schema →
      (∀ r, r ∈ table t' (<[t := map g (table t db)]> db) → is_Some (project cs r)) ↔
      (∀ r, r ∈ table t' db → is_Some (project cs r))) as Hq.
    { intros t' cs Hn. rewrite Et. case_decide as E; [|done]. subst t'.
      setoid_rewrite list_elem_of_fmap. split.
      - intros H r Hr. rewrite <-(Hnull cs Hn). eauto.
      - intros H ? (r & -> & Hr). rewrite (Hnull cs Hn). eauto. }
    split; intros H t' cs r Hn; revert r; apply (Hq t' cs Hn); intros r Hr; by apply (H t'). }
  - apply forall_proper. intros k. apply forall_proper. intros Hk. rewrite Et.
    case_decide as E; [|done]. rewrite key_values_map by by apply Hkey. by rewrite E.
  - assert (∀ h v, h ∈ foreign_keys schema →
      (∃ q, q ∈ table (fk_parent h) (<[t := map g (table t db)]> db) ∧ project (fk_parent_columns h) q = Some v) ↔
      (∃ q, q ∈ table (fk_parent h) db ∧ project (fk_parent_columns h) q = Some v)) as Hq.
    { intros h v Hh. rewrite Et. case_decide as E; [|done].
      setoid_rewrite list_elem_of_fmap. rewrite E. split.
      - intros (? & (r & -> & Hr) & Ev). rewrite (Hparent h Hh E) in Ev. eauto.
      - intros (r & Hr & Ev). exists (g r). rewrite (Hparent h Hh E). eauto. }
    split.
    + intros H h r v Hh Hr Hv. apply Hq; [done|]. destruct (decide (fk_table h = t)) as [E|Hne].
      * apply (H h (g r) v Hh); [|by rewrite (Hchild h Hh E)].
        rewrite Et, decide_True by done. apply list_elem_of_fmap_2. by rewrite <-E.
      * apply (H h r v Hh); [|done]. by rewrite Et, decide_False.
    + intros H h r v Hh Hr Hv. apply Hq; [done|]. rewrite Et in Hr. case_decide as E.
      * apply list_elem_of_fmap in Hr as (r0 & -> & Hr0). rewrite (Hchild h Hh E) in Hv.
        rewrite <-E in Hr0. by eapply H.
      * by eapply H.
Qed.

(** The order of the rows does not matter to the constraints. *)
Lemma consistent_perm t l l' db :
  l ≡ₚ l' → consistent schema (<[t := l]> db) = true → consistent schema (<[t := l']> db) = true.
Proof.
  intros Hp (Hk & Hf & Hn)%consistent_spec.
  assert (∀ t' r, r ∈ table t' (<[t := l']> db) ↔ r ∈ table t' (<[t := l]> db)) as Hin.
  { intros t' r. destruct (decide (t' = t)) as [->|]; [by rewrite !table_insert_eq, Hp|].
    by rewrite !table_insert_ne. }
  apply consistent_spec. split_and!.
  - intros k Hin'. specialize (Hk k Hin'). destruct (decide (key_table k = t)) as [E|Hne].
    + rewrite E, table_insert_eq in *. unfold key_values in *. by rewrite <-Hp.
    + by rewrite table_insert_ne in *.
  - intros f r v Hin' Hr Hv. apply Hin in Hr. destruct (Hf f r v Hin' Hr Hv) as (q & Hq & E).
    exists q. split; [by apply Hin|done].
  - intros t' cs r Hin' Hr. apply Hin in Hr. by eapply Hn.
Qed.

Lemma filter_none (p : row → bool) (f : row → row) (l : list row) :
  filter (λ r, p r = true) l = [] →
  map (λ r, if p r then f r else r) l = l ∧ filter (λ r, p r = false) l = l.
Proof.
  induction l as [|y l IH]; [done|]. rewrite !filter_cons. cbn [map]. destruct (p y) eqn:Ep.
  - by rewrite decide_True.
  - rewrite decide_False, decide_True by done. intros [-> ->]%IH. done.
Qed.

Lemma map_update_perm (p : row → bool) (f : row → row) (l : list row) r :
  filter (λ r, p r = true) l = [r] →
  map (λ r, if p r then f r else r) l ≡ₚ filter (λ r, p r = false) l ++ [f r].
Proof.
  induction l as [|x l IH]; intros Er; [done|]. rewrite !filter_cons in *. cbn [map].
  destruct (p x) eqn:Ep.
  - rewrite decide_True in Er by done. rewrite decide_False by done. injection Er as -> Er.
    destruct (filter_none p f l Er) as [-> ->]. apply Permutation_cons_append.
  - rewrite decide_False in Er by done. rewrite decide_True by done. cbn. f_equiv. by apply IH.
Qed.

(** Replacing the one row a condition selects: the row is taken out and the new one put in. *)
Lemma consistent_replace t (p : row → bool) (f : row → row) r db :
  filter (λ r, p r = true) (table t db) = [r] →
  (let db1 := <[t := filter (λ r, p r = false) (table t db)]> db in
   consistent schema (<[t := table t db1 ++ [f r]]> db1) = true) →
  consistent schema (<[t := map (λ r, if p r then f r else r) (table t db)]> db) = true.
Proof.
  intros Er Hc. cbn in Hc. rewrite table_insert_eq, insert_insert_eq in Hc.
  eapply consistent_perm; [|done]. symmetry. by apply map_update_perm.
Qed.
End consistency.

(** ** Running statements *)

Section running.
Context (schema : Schema).

Lemma insert_run t r db :
  consistent schema (<[t := table t db ++ [r]]> db) = true →
  insert_into schema t r db = (Ok tt, <[t := table t db ++ [r]]> db).
Proof. intros E. unfold insert_into, statement. by rewrite E. Qed.

Lemma delete_run t p db :
  consistent schema (<[t := filter (λ r, p r = false) (table t db)]> db) = true →
  delete_from schema t p db =
    (Ok (length (filter (λ r, p r = true) (table t db))),
     <[t := filter (λ r, p r = false) (table t db)]> db).
Proof. intros E. unfold delete_from, statement, mbind, stateful_bind, gets. by rewrite E. Qed.

Lemma update_run t (p : row → bool) (f : row → row) db :
  consistent schema (<[t := map (λ r, if p r then f r else r) (table t db)]> db) = true →
  update schema t p f db =
    (Ok (length (filter (λ r, p r = true) (table t db))),
     <[t := map (λ r, if p r then f r else r) (table t db)]> db).
Proof. intros E. unfold update, statement, mbind, stateful_bind, gets. by rewrite E. Qed.

(** No statement leaves a constraint violated. *)
Definition stays_consistent (db db' : database) : Prop :=
  consistent schema db = true → consistent schema db' = true.

#[export] Instance stays_consistent_preorder : PreOrder stays_consistent.
Proof. split; unfold stays_consistent; [by intros ?|intros ???; auto]. Qed.

Lemma statement_consistent f : always stays_consistent (statement schema f).
Proof. intros db H. unfold statement. destruct (consistent schema (f db)) eqn:E; [exact E|exact H]. Qed.

Lemma insert_consistent t r : always stays_consistent (insert_into schema t r).
Proof. apply statement_consistent. Qed.

#[local] Hint Resolve statement_consistent : always.

Lemma delete_consistent t p : always stays_consistent (delete_from schema t p).
Proof. unfold delete_from. always_steps. Qed.

Lemma update_consistent t p f : always stays_consistent (update schema t p f).
Proof. unfold update. always_steps. Qed.
End running.

#[export] Hint Resolve insert_consistent delete_consistent update_consistent : always.
