(* ===== verification/JsonNumber.v ===== *)
(** * The numerals of JSON

    [json.scanner.NUMBER_RE], the grammar numbers are read by, the integer a numeral denotes and
    the fact that [str] of an integer is read back as that integer. *)

From S2P Require Import Prelude PyVal.
From stdpp Require Import options.

Definition num_digit (c : ascii) : bool :=
  let n := Ascii.nat_of_ascii c in (48 <=? n)%nat && (n <=? 57)%nat.

(** The longest run of digits and what follows. *)
Fixpoint span_digits (s : string) : string * string :=
  match s with
  | EmptyString => ("", "")
  | String c s' => if num_digit c then (String c (span_digits s').1, (span_digits s').2) else ("", s)
  end.

(** An optional minus, then zero or digits that start with another one. *)
Definition scan_natural (s : string) : option (string * string) :=
  match s with
  | EmptyString => None
  | String c s' =>
      if Ascii.eqb c "0" then Some ("0", s')
      else if num_digit c then Some (String c (span_digits s').1, (span_digits s').2) else None
  end.
Definition scan_integer (s : string) : option (string * string) :=
  match s with
  | String "-" s => '(i, s) ← scan_natural s; Some (String "-" i, s)
  | _ => scan_natural s
  end.

(** A point and at least one digit, or nothing. *)
Definition scan_fraction (s : string) : string * string :=
  match s with
  | String "." s' =>
      match span_digits s' with (EmptyString, _) => ("", s) | (d, r) => (String "." d, r) end
  | _ => ("", s)
  end.

(** An exponent with at least one digit, or nothing. *)
Definition scan_sign (s : string) : string * string :=
  match s with
  | String ("+"%char as c) s' | String ("-"%char as c) s' => (String c EmptyString, s')
  | _ => ("", s)
  end.
Definition scan_exponent (s : string) : string * string :=
  match s with
  | String ("e"%char as c) s' | String ("E"%char as c) s' =>
      let (sign, r) := scan_sign s' in
      match span_digits r with (EmptyString, _) => ("", s) | (d, r) => (String c (sign +:+ d), r) end
  | _ => ("", s)
  end.

(** The integer part of a numeral, its fraction and exponent, and the rest of the text. *)
Definition scan_number (s : string) : option (string * string * string) :=
  '(i, s) ← scan_integer s;
  let (f, s) := scan_fraction s in
  let (e, s) := scan_exponent s in
  Some (i, f +:+ e, s).

(** [int(text)] of a numeral without fraction *)
Fixpoint dec_val (acc : Z) (s : string) : Z :=
  match s with
  | EmptyString => acc
  | String c s => dec_val (acc * 10 + (Z.of_nat (Ascii.nat_of_ascii c) - 48)) s
  end.
Definition read_int (s : string) : Z :=
  match s with String "-" s => - dec_val 0 s | _ => dec_val 0 s end.

(** ** A numeral ends where no digit, point, sign or exponent follows *)

Definition num_char (c : ascii) : bool :=
  num_digit c || match c with "." | "+" | "-" | "e" | "E" => true | _ => false end%char.
Definition num_stop (k : string) : Prop :=
  match k with EmptyString => True | String c _ => num_char c = false end.

Lemma num_stop_digit c k : num_stop (String c k) → num_digit c = false.
Proof. cbn. by intros [? _]%orb_false_iff. Qed.

Lemma span_digits_app s k :
  num_stop k → span_digits (s +:+ k) = ((span_digits s).1, (span_digits s).2 +:+ k).
Proof.
  intros Hk. induction s as [|c s IH].
  - rewrite str_app_nil_l. destruct k as [|c k]; [done|]. cbn. by rewrite (num_stop_digit _ _ Hk).
  - rewrite str_app_cons. cbn [span_digits]. destruct (num_digit c); [by rewrite IH|done].
Qed.

Lemma scan_natural_app s k :
  num_stop k →
  scan_natural (s +:+ k) = '(i, r) ← scan_natural s; Some (i, r +:+ k).
Proof.
  intros Hk. destruct s as [|c s].
  - rewrite str_app_nil_l. destruct k as [|c k]; [done|]. pose proof (num_stop_digit _ _ Hk) as Hd.
    cbn. destruct (Ascii.eqb_spec c "0") as [->|]; [done|]. by rewrite Hd.
  - rewrite str_app_cons. cbn [scan_natural]. destruct (Ascii.eqb c "0"); [done|].
    destruct (num_digit c); [|done]. by rewrite span_digits_app.
Qed.

(** The first character of a text, when a choice depends on nothing else. *)
Lemma scan_integer_other c s : c ≠ "-"%char → scan_integer (String c s) = scan_natural (String c s).
Proof. by destruct c as [[] [] [] [] [] [] [] []]. Qed.

Lemma scan_integer_app s k :
  num_stop k →
  scan_integer (s +:+ k) = '(i, r) ← scan_integer s; Some (i, r +:+ k).
Proof.
  intros Hk. destruct s as [|c s].
  - rewrite str_app_nil_l. destruct k as [|c k]; [done|].
    rewrite scan_integer_other by (intros ->; done). by apply (scan_natural_app "" (String c k)).
  - destruct (ascii_dec c "-") as [->|Hc].
    + rewrite str_app_cons. cbn [scan_integer]. rewrite scan_natural_app by done.
      by destruct (scan_natural s) as [[]|].
    + rewrite str_app_cons, !scan_integer_other by done. by rewrite <-str_app_cons, scan_natural_app.
Qed.

Lemma scan_fraction_other c s : c ≠ "."%char → scan_fraction (String c s) = ("", String c s).
Proof. by destruct c as [[] [] [] [] [] [] [] []]. Qed.

Lemma scan_fraction_app s k :
  num_stop k → scan_fraction (s +:+ k) = ((scan_fraction s).1, (scan_fraction s).2 +:+ k).
Proof.
  intros Hk. destruct s as [|c s].
  - rewrite str_app_nil_l. destruct k as [|c k]; [done|].
    by rewrite scan_fraction_other by (intros ->; done).
  - destruct (ascii_dec c ".") as [->|Hc]; rewrite str_app_cons.
    + cbn [scan_fraction]. rewrite span_digits_app by done. by destruct (span_digits s) as [[] ?].
    + by rewrite !scan_fraction_other.
Qed.

Lemma scan_sign_other c s : c ≠ "+"%char → c ≠ "-"%char → scan_sign (String c s) = ("", String c s).
Proof. by destruct c as [[] [] [] [] [] [] [] []]. Qed.

Lemma scan_sign_app s k : num_stop k → scan_sign (s +:+ k) = ((scan_sign s).1, (scan_sign s).2 +:+ k).
Proof.
  intros Hk. destruct s as [|c s].
  - rewrite str_app_nil_l. destruct k as [|c k]; [done|].
    by rewrite scan_sign_other by (intros ->; done).
  - destruct (ascii_dec c "+") as [->|Hp]; [done|]. destruct (ascii_dec c "-") as [->|Hm]; [done|].
    by rewrite str_app_cons, !scan_sign_other.
Qed.

Lemma scan_exponent_other c s :
  c ≠ "e"%char → c ≠ "E"%char → scan_exponent (String c s) = ("", String c s).
Proof. by destruct c as [[] [] [] [] [] [] [] []]. Qed.

Lemma scan_exponent_app s k :
  num_stop k → scan_exponent (s +:+ k) = ((scan_exponent s).1, (scan_exponent s).2 +:+ k).
Proof.
  intros Hk. destruct s as [|c s].
  - rewrite str_app_nil_l. destruct k as [|c k]; [done|].
    by rewrite scan_exponent_other by (intros ->; done).
  - rewrite str_app_cons.
    destruct (ascii_dec c "e") as [->|He]; [|destruct (ascii_dec c "E") as [->|HE]];
      [..|by rewrite !scan_exponent_other];
      cbn [scan_exponent]; rewrite scan_sign_app by done; destruct (scan_sign s) as [sg r];
      cbn [fst snd]; rewrite span_digits_app by done; by destruct (span_digits r) as [[] ?].
Qed.

Lemma scan_number_app s k :
  num_stop k → scan_number (s +:+ k) = '(i, f, r) ← scan_number s; Some (i, f, r +:+ k).
Proof.
  intros Hk. unfold scan_number. rewrite scan_integer_app by done.
  destruct (scan_integer s) as [[i r]|]; [|done]. cbn [mbind option_bind].
  rewrite scan_fraction_app by done. destruct (scan_fraction r) as [f r']. cbn [fst snd].
  rewrite scan_exponent_app by done. by destruct (scan_exponent r') as [e r''].
Qed.

(** ** The characters of a numeral *)

Lemma span_digits_spec s :
  s = (span_digits s).1 +:+ (span_digits s).2 ∧ str_forallb num_digit (span_digits s).1 = true.
Proof.
  induction s as [|c s [IH1 IH2]]; [done|]. cbn [span_digits].
  destruct (num_digit c) eqn:E; [|done]. cbn [fst snd str_forallb]. rewrite str_app_cons, E.
  by rewrite <-IH1.
Qed.

Lemma digits_num_chars s : str_forallb num_digit s = true → str_forallb num_char s = true.
Proof. apply str_forallb_impl. intros c Hc. unfold num_char. by rewrite Hc. Qed.

Lemma scan_natural_spec s i r :
  scan_natural s = Some (i, r) → s = i +:+ r ∧ str_forallb num_char i = true ∧ i ≠ "".
Proof.
  destruct s as [|c s]; [done|]. cbn.
  destruct (Ascii.eqb_spec c "0") as [->|]; [by intros [= <- <-]|].
  destruct (num_digit c) eqn:E; [|done]. intros [= <- <-].
  destruct (span_digits_spec s) as [H1 H2]. cbn [str_forallb].
  rewrite str_app_cons, <-H1. unfold num_char at 1. rewrite E. by rewrite digits_num_chars.
Qed.

Lemma scan_number_spec s i f r :
  scan_number s = Some (i, f, r) →
  s = (i +:+ f) +:+ r ∧ str_forallb num_char (i +:+ f) = true ∧ i ≠ "".
Proof.
  assert (∀ s i r, scan_integer s = Some (i, r) →
    s = i +:+ r ∧ str_forallb num_char i = true ∧ i ≠ "") as Hint.
  { clear. intros [|c s] i r; [done|]. destruct (ascii_dec c "-") as [->|Hc].
    - cbn. destruct (scan_natural s) as [[j t]|] eqn:E; [|done]. intros [= <- <-].
      apply scan_natural_spec in E as (-> & Hj & _). done.
    - rewrite scan_integer_other by done. apply scan_natural_spec. }
  assert (∀ s, s = (scan_fraction s).1 +:+ (scan_fraction s).2 ∧
    str_forallb num_char (scan_fraction s).1 = true) as Hfrac.
  { clear. intros [|c s]; [done|]. destruct (ascii_dec c ".") as [->|Hc];
      [|by rewrite scan_fraction_other]. cbn [scan_fraction].
    destruct (span_digits s) as [[|d ds] t] eqn:E; [done|].
    pose proof (span_digits_spec s) as [H1 H2]. rewrite E in H1, H2. cbn [fst snd] in *.
    rewrite str_app_cons, <-H1. split; [done|].
    change (str_forallb num_char (String d ds) = true). by apply digits_num_chars. }
  assert (∀ s, s = (scan_sign s).1 +:+ (scan_sign s).2 ∧
    str_forallb num_char (scan_sign s).1 = true) as Hsign.
  { clear. intros [|c s]; [done|]. destruct (ascii_dec c "+") as [->|Hp]; [done|].
    destruct (ascii_dec c "-") as [->|Hm]; [done|]. by rewrite scan_sign_other. }
  assert (∀ s, s = (scan_exponent s).1 +:+ (scan_exponent s).2 ∧
    str_forallb num_char (scan_exponent s).1 = true) as Hexp.
  { clear -Hsign. intros [|c s]; [done|].
    destruct (ascii_dec c "e") as [->|He]; [|destruct (ascii_dec c "E") as [->|HE]];
      [..|by rewrite scan_exponent_other]; cbn [scan_exponent];
      destruct (Hsign s) as [S1 S2]; destruct (scan_sign s) as [sg t]; cbn [fst snd] in S1, S2;
      (destruct (span_digits t) as [[|d ds] u] eqn:E; [done|]);
      pose proof (span_digits_spec t) as [H1 H2]; rewrite E in H1, H2; cbn [fst snd] in *;
      rewrite str_app_cons, str_app_assoc, <-H1, <-S1; (split; [done|]);
      cbn [str_forallb]; rewrite str_forallb_app, S2, (digits_num_chars _ H2); done. }
  unfold scan_number. destruct (scan_integer s) as [[j t]|] eqn:E; [|done]. cbn [mbind option_bind].
  destruct (Hfrac t) as [F1 F2]. destruct (scan_fraction t) as [f1 t1].
  destruct (Hexp t1) as [E1 E2]. destruct (scan_exponent t1) as [e1 t2]. intros [= <- <- <-].
  apply Hint in E as (-> & Hi & Hne). cbn [fst snd] in *.
  rewrite !str_app_assoc, <-E1, <-F1. rewrite !str_forallb_app, Hi, F2, E2.
  by split_and!.
Qed.

(** ** Integers *)

(** What [str] of an integer is made of. *)
Lemma pretty_N_char_digit n : (n < 10)%N → num_digit (pretty_N_char n) = true.
Proof. intros H. unfold pretty_N_char. repeat case_match; done. Qed.

Lemma pretty_N_go_digits n s :
  str_forallb num_digit s = true → str_forallb num_digit (pretty_N_go n s) = true.
Proof.
  revert s. induction (N.lt_wf_0 n) as [n _ IH]; intros s Hs.
  destruct (decide (n = 0)%N) as [->|Hn]; [by rewrite pretty_N_go_0|].
  rewrite pretty_N_go_step by lia. apply IH; [by apply N.div_lt; lia|].
  cbn [str_forallb]. rewrite Hs, andb_true_r. apply pretty_N_char_digit. by apply N.mod_lt.
Qed.

(** The first digit is not zero. *)
Lemma pretty_N_go_head n s :
  n ≠ 0%N → ∃ c r, pretty_N_go n s = String c r ∧ num_digit c = true ∧ c ≠ "0"%char.
Proof.
  revert s. induction (N.lt_wf_0 n) as [n _ IH]; intros s Hn. rewrite pretty_N_go_step by lia.
  destruct (decide (n / 10 = 0)%N) as [E|E]; [|apply IH; [by apply N.div_lt; lia|done]].
  assert (n < 10)%N as H10 by (apply N.div_small_iff; [done|exact E]).
  rewrite E, pretty_N_go_0, N.mod_small by done. eexists _, _. split; [done|].
  split; [by apply pretty_N_char_digit|]. unfold pretty_N_char. repeat case_match; try done; lia.
Qed.

Lemma pretty_N_char_val acc n s :
  (n < 10)%N → dec_val acc (String (pretty_N_char n) s) = dec_val (acc * 10 + Z.of_N n) s.
Proof.
  intros H. destruct n as [|p]; [done|].
  do 4 (destruct p as [p|p|]; try done); exfalso; lia.
Qed.

Lemma pretty_N_go_val n s : dec_val 0 (pretty_N_go n s) = dec_val (Z.of_N n) s.
Proof.
  revert s. induction (N.lt_wf_0 n) as [n _ IH]; intros s.
  destruct (decide (n = 0)%N) as [->|Hn]; [by rewrite pretty_N_go_0|].
  rewrite pretty_N_go_step by lia. rewrite IH by (apply N.div_lt; lia).
  rewrite pretty_N_char_val by (by apply N.mod_lt). f_equal.
  pose proof (N.div_mod n 10). lia.
Qed.

Lemma span_digits_all s : str_forallb num_digit s = true → span_digits s = (s, "").
Proof.
  induction s as [|c s IH]; [done|]. cbn. intros [-> H]%andb_true_iff. by rewrite (IH H).
Qed.

Lemma scan_natural_pretty (n : N) : scan_natural (pretty n) = Some (pretty n, "").
Proof.
  unfold pretty, pretty_N. case_decide as Hn; [done|].
  pose proof (pretty_N_go_digits n "" eq_refl) as Hd.
  destruct (pretty_N_go_head n "" Hn) as (c & r & E & Hc & H0). rewrite E in *.
  cbn [scan_natural]. destruct (Ascii.eqb_spec c "0"); [done|]. rewrite Hc.
  cbn [str_forallb] in Hd. apply andb_true_iff in Hd as [_ Hd]. by rewrite (span_digits_all r).
Qed.

Lemma pretty_N_val (n : N) : dec_val 0 (pretty n) = Z.of_N n.
Proof. unfold pretty, pretty_N. case_decide as Hn; [by subst|]. by rewrite pretty_N_go_val. Qed.

Lemma pretty_N_head (n : N) : ∃ c r, pretty n = String c r ∧ num_digit c = true.
Proof.
  unfold pretty, pretty_N. case_decide as Hn; [by eexists _, _|].
  destruct (pretty_N_go_head n "" Hn) as (c & r & E & Hc & _). eauto.
Qed.

(** [int(str(z)) == z], through the grammar of numerals. *)
Lemma scan_number_pretty (z : Z) : scan_number (pretty z) = Some (pretty z, "", "").
Proof.
  assert (∀ n : N, scan_integer (pretty n) = Some (pretty n, "")) as HN.
  { intros n. destruct (pretty_N_head n) as (c & r & E & Hc). rewrite E.
    rewrite scan_integer_other by (intros ->; done). rewrite <-E. apply scan_natural_pretty. }
  unfold scan_number. destruct z as [|p|p]; [done| |].
  - change (pretty (Zpos p)) with (pretty (Npos p)). by rewrite HN.
  - change (pretty (Zneg p)) with (String "-" (pretty (Npos p))). cbn [scan_integer].
    by rewrite scan_natural_pretty.
Qed.

Lemma read_int_pretty (z : Z) : read_int (pretty z) = z.
Proof.
  destruct z as [|p|p]; [done| |].
  - change (pretty (Zpos p)) with (pretty (Npos p)).
    destruct (pretty_N_head (Npos p)) as (c & r & E & Hc). pose proof (pretty_N_val (Npos p)) as Hv.
    rewrite E in *. unfold read_int.
    destruct (ascii_dec c "-") as [->|Hm]; [done|].
    by destruct c as [[] [] [] [] [] [] [] []].
  - change (pretty (Zneg p)) with (String "-" (pretty (Npos p))). cbn [read_int].
    by rewrite pretty_N_val.
Qed.
