(* ===== verification/Json.v ===== *)
(** * Canonical JSON

    [json.dumps(v, sort_keys=True, separators=(",", ":"), ensure_ascii=False)], the encoding
    every digest of the program is taken over ([audit.payload_hash]). The printer passes the
    text that follows, so that its injectivity up to the order of keys can be proved by one
    induction: two values with the same canonical text are equal once their keys are sorted. *)

From S2P Require Import Prelude PyVal JsonNumber.
From stdpp Require Import options.

(** ** The printer *)

(** The escapes of [json.encoder.ESCAPE]; with [ensure_ascii=False] every other character
    prints as itself. *)
Definition esc_char (c : ascii) (k : string) : string :=
  let n := Ascii.nat_of_ascii c in
  if Ascii.eqb c dq then String bs (String dq k)
  else if Ascii.eqb c bs then String bs (String bs k)
  else if (n <? 32)%nat then
    if Nat.eqb n 8 then String bs (String "b" k)
    else if Nat.eqb n 9 then String bs (String "t" k)
    else if Nat.eqb n 10 then String bs (String "n" k)
    else if Nat.eqb n 12 then String bs (String "f" k)
    else if Nat.eqb n 13 then String bs (String "r" k)
    else String bs (String "u" (String "0" (String "0"
           (String (hex_digit (n / 16)) (String (hex_digit (n mod 16)) k)))))
  else String c k.

Fixpoint esc_str (s k : string) : string :=
  match s with
  | EmptyString => String dq k
  | String c s => esc_char c (esc_str s k)
  end.
Definition quote_app (s k : string) : string := String dq (esc_str s k).

(** [float.__repr__], except for the values that have no numeral. *)
Definition float_json (t : string) : string :=
  if t =? "nan" then "NaN" else if t =? "inf" then "Infinity"
  else if t =? "-inf" then "-Infinity" else t.

Fixpoint dumps_app (v : pyval) (k : string) : string :=
  match v with
  | PNone => "null" +:+ k
  | PBool true => "true" +:+ k
  | PBool false => "false" +:+ k
  | PInt z => pretty z +:+ k
  | PFloat t => float_json t +:+ k
  | PStr s => quote_app s k
  | PList l =>
      String "["
        ((fix go (first : bool) l : string :=
            match l with
            | [] => String "]" k
            | x :: l => (if first then λ s, s else String ",") (dumps_app x (go false l))
            end) true l)
  | PDict d =>
      String "{"
        ((fix go (first : bool) d : string :=
            match d with
            | [] => String "}" k
            | kv :: d =>
                (if first then λ s, s else String ",")
                  (quote_app kv.1 (String ":" (dumps_app kv.2 (go false d))))
            end) true d)
  end.

(** [sort_keys=True]: the items of every dictionary in the order of their keys. Comparing
    UTF-8 bytes is comparing code points. *)
Definition key_leb {A} (x y : string * A) : bool := String.leb x.1 y.1.

Fixpoint normalize_keys (v : pyval) : pyval :=
  match v with
  | PList l => PList (map normalize_keys l)
  | PDict d => PDict (py_sorted key_leb (map (λ kv, (kv.1, normalize_keys kv.2)) d))
  | _ => v
  end.

Definition canonical_json (v : pyval) : string := dumps_app (normalize_keys v) "".

(** ** Splitting tokens off a text *)

Definition is_delim (c : ascii) : bool :=
  match c with "," | "]" | "}" => true | _ => false end%char.

(** A text a value may be followed by. *)
Definition delimited (k : string) : Prop :=
  match k with EmptyString => True | String c _ => is_delim c = true end.

Definition token_char (c : ascii) : bool :=
  negb (is_delim c) &&
  match c with "[" | "{" | ":" => false | _ => negb (Ascii.eqb c dq) end%char.

(** The texts [float.__repr__] produces: a numeral with a fraction or an exponent, or one of the
    values that are not finite. *)
Definition float_token (t : string) : bool :=
  str_in t ["nan"; "inf"; "-inf"] ||
  match scan_number t with Some (_, f, EmptyString) => negb (f =? "") | _ => false end.

Fixpoint wf_json (v : pyval) : bool :=
  match v with
  | PFloat t => float_token t
  | PList l => forallb wf_json l
  | PDict d => forallb (λ kv, wf_json kv.2) d
  | _ => true
  end.

Lemma token_split s t k k' :
  str_forallb token_char s = true → str_forallb token_char t = true →
  delimited k → delimited k' → s +:+ k = t +:+ k' → s = t ∧ k = k'.
Proof.
  assert (∀ c, token_char c = true → is_delim c = true → False) as Hcl.
  { unfold token_char. intros c [Hn _]%andb_true_iff Hd. by rewrite Hd in Hn. }
  revert t. induction s as [|c s IH]; intros [|d t] Hs Ht Hk Hk' E; cbn in *;
    rewrite ?andb_true_iff in *.
  - by rewrite !str_app_nil_l in E.
  - rewrite str_app_nil_l, str_app_cons in E. destruct k as [|c' k]; [done|]. injection E as -> ->. cbn in Hk. naive_solver.
  - rewrite str_app_nil_l, str_app_cons in E. destruct k' as [|c' k']; [done|]. injection E as -> <-. cbn in Hk'. naive_solver.
  - rewrite !str_app_cons in E. injection E as -> E. destruct Hs, Ht. destruct (IH t) as [-> ->]; auto.
Qed.

(** ** Numbers print as tokens *)

Lemma num_token_char c : num_char c = true → token_char c = true.
Proof. by destruct c as [[] [] [] [] [] [] [] []]. Qed.

Lemma numeral_token s i f r : scan_number s = Some (i, f, r) → r = "" →
  s = i +:+ f ∧ s ≠ "" ∧ str_forallb token_char s = true.
Proof.
  intros (-> & Hc & Hi)%scan_number_spec ->. rewrite str_app_nil_r. split; [done|].
  split; [by destruct i|]. eapply str_forallb_impl; [apply num_token_char|done].
Qed.

(** A token of a finite float is printed as it is. *)
Lemma float_token_case t :
  float_token t = true →
  (t ∈ ["nan"; "inf"; "-inf"]) ∨
  (float_json t = t ∧ ∃ i f, scan_number t = Some (i, f, "") ∧ f ≠ "").
Proof.
  unfold float_token. intros [H%str_in_spec|H]%orb_true_iff; [by left|right].
  destruct (scan_number t) as [[[i f] [|]]|] eqn:E; try done. split; [|exists i, f; by bool_prop].
  unfold float_json. repeat case_match; bool_prop; subst; done.
Qed.

(** The text of a value that is neither a string nor a container. *)
Definition token (v : pyval) : option string :=
  match v with
  | PNone => Some "null"
  | PBool b => Some (if b then "true" else "false")
  | PInt z => Some (pretty z)
  | PFloat t => Some (float_json t)
  | _ => None
  end.

Lemma dumps_token v t k : token v = Some t → dumps_app v k = t +:+ k.
Proof. destruct v as [|[]| | | | |]; cbn; by intros [= <-]. Qed.

Lemma token_chars v t :
  wf_json v = true → token v = Some t → t ≠ "" ∧ str_forallb token_char t = true.
Proof.
  destruct v as [|[]|z|f| | |]; cbn; try (by intros _ [= <-]).
  - intros _ [= <-]. by apply (numeral_token _ _ _ _ (scan_number_pretty z) eq_refl).
  - intros [H|[-> (i & e & H & _)]]%float_token_case [= <-].
    + by elem_cases H; rewrite H.
    + by apply (numeral_token _ _ _ _ H eq_refl).
Qed.

(** What kind of token a text is: numerals with and without a fraction are told apart. *)
Definition numeral_kind (t : string) : option bool :=
  '(_, f, _) ← scan_number t; Some (f =? "").

Lemma int_kind (z : Z) : numeral_kind (pretty z) = Some true.
Proof. unfold numeral_kind. by rewrite scan_number_pretty. Qed.

Lemma float_kind t :
  float_token t = true →
  (numeral_kind (float_json t) = Some false ∧ float_json t = t) ∨
  (numeral_kind (float_json t) = None ∧ t ∈ ["nan"; "inf"; "-inf"]).
Proof.
  intros [H|[E (i & f & H & Hf)]]%float_token_case.
  - right. split; [|done]. by elem_cases H; rewrite H.
  - left. split; [|done]. rewrite E. unfold numeral_kind. rewrite H. cbn. by apply String.eqb_neq in Hf as ->.
Qed.

Lemma float_json_inj f g :
  float_token f = true → float_token g = true → float_json f = float_json g → f = g.
Proof.
  intros [[Hk Ef]|[Hk Hf]]%float_kind [[Hk' Eg]|[Hk' Hg]]%float_kind E; try congruence.
  by elem_cases Hf; elem_cases Hg; subst.
Qed.

(** No number prints as a literal, no float as an integer. *)
Definition literals : list string := ["null"; "true"; "false"].

Lemma int_not_literal (z : Z) : pretty z ∉ literals.
Proof. intros H. pose proof (int_kind z) as Hk. by elem_cases H; rewrite H in Hk. Qed.

Lemma float_not_literal f : float_token f = true → float_json f ∉ literals.
Proof.
  intros [[Hk _]|[_ Hf]]%float_kind H; [by elem_cases H; rewrite H in Hk|].
  by elem_cases Hf; subst; elem_cases H.
Qed.

Lemma int_not_float (z : Z) f : float_token f = true → pretty z ≠ float_json f.
Proof. intros [[Hk _]|[Hk _]]%float_kind E; rewrite <-E, int_kind in Hk; discriminate Hk. Qed.

Lemma token_inj v w t :
  wf_json v = true → wf_json w = true → token v = Some t → token w = Some t → v = w.
Proof.
  intros Hv Hw Ev Ew.
  destruct v as [|[]|z|f| | |], w as [|[]|z'|f'| | |]; cbn in *; simplify_eq; try done.
  all: try match goal with
    | H : pretty ?z = float_json _ |- _ => by apply int_not_float in H
    | H : float_json _ = pretty ?z |- _ => symmetry in H; by apply int_not_float in H
    | H : pretty ?z = _ |- _ => destruct (int_not_literal z); rewrite H; set_solver
    | H : _ = pretty ?z |- _ => destruct (int_not_literal z); rewrite <-H; set_solver
    | H : float_json ?f = String _ _ |- _ => destruct (float_not_literal f); [done|rewrite H; set_solver]
    | H : String _ _ = float_json ?f |- _ => destruct (float_not_literal f); [done|rewrite <-H; set_solver]
    end.
  f_equal. by apply float_json_inj.
Qed.

(** ** Strings are self-delimiting *)

(** Read one escaped character back. *)
Definition hex_val (c : ascii) : nat :=
  let n := Ascii.nat_of_ascii c in if (n <? 58)%nat then n - 48 else n - 87.
Definition unesc_char (s : string) : option (ascii * string) :=
  match s with
  | EmptyString => None
  | String c k =>
      if Ascii.eqb c dq then None
      else if Ascii.eqb c bs then
        match k with
        | String e k =>
            if Ascii.eqb e "b" then Some ("008"%char, k)
            else if Ascii.eqb e "t" then Some ("009"%char, k)
            else if Ascii.eqb e "n" then Some ("010"%char, k)
            else if Ascii.eqb e "f" then Some ("012"%char, k)
            else if Ascii.eqb e "r" then Some ("013"%char, k)
            else if Ascii.eqb e "u" then
              match k with
              | String _ (String _ (String h (String l k))) =>
                  Some (Ascii.ascii_of_nat (16 * hex_val h + hex_val l), k)
              | _ => None
              end
            else Some (e, k)
        | EmptyString => None
        end
      else Some (c, k)
  end.

Lemma unesc_esc_char c k : unesc_char (esc_char c k) = Some (c, k).
Proof. by destruct c as [[] [] [] [] [] [] [] []]. Qed.

Lemma esc_str_inj s t k k' : esc_str s k = esc_str t k' → s = t ∧ k = k'.
Proof.
  revert t. induction s as [|c s IH]; intros [|d t] E; cbn [esc_str] in E.
  - by injection E as ->.
  - assert (unesc_char (esc_char d (esc_str t k')) = None) as Hn by by rewrite <-E.
    by rewrite unesc_esc_char in Hn.
  - assert (unesc_char (esc_char c (esc_str s k)) = None) as Hn by by rewrite E.
    by rewrite unesc_esc_char in Hn.
  - assert (unesc_char (esc_char c (esc_str s k)) = unesc_char (esc_char d (esc_str t k')))
      as Hc by by rewrite E.
    rewrite !unesc_esc_char in Hc. injection Hc as -> E'.
    destruct (IH _ E') as [-> ->]. done.
Qed.

(** ** Injectivity of the printer *)

(** The character a value starts with. *)
Lemma dumps_head v k :
  wf_json v = true →
  ∃ c r, dumps_app v k = String c r ∧ is_delim c = false ∧
    (Ascii.eqb c dq = true ↔ ∃ s, v = PStr s) ∧
    (c = "["%char ↔ ∃ l, v = PList l) ∧ (c = "{"%char ↔ ∃ d, v = PDict d).
Proof.
  intros Hwf. destruct (token v) as [t|] eqn:Et.
  - destruct (token_chars _ _ Hwf Et) as [Hne Ht]. rewrite (dumps_token _ _ _ Et).
    destruct t as [|c t]; [done|]. cbn in Ht. apply andb_true_iff in Ht as [Hc _].
    exists c, (t +:+ k). rewrite str_app_cons. split; [done|].
    unfold token_char in Hc.
    split_and!; [by apply andb_true_iff in Hc as [?%negb_true_iff _]| | |];
      (split; [|by intros [? ->]]).
    + intros E. rewrite E in Hc. destruct c as [[] [] [] [] [] [] [] []]; cbn in *; done.
    + by intros ->.
    + by intros ->.
  - destruct v as [|[]| | |s|l|d]; try done; cbn; eexists _, _; (split; [reflexivity|]);
      split_and!; naive_solver.
Qed.

Section injectivity.
Let inj (v : pyval) : Prop := ∀ w k k',
  wf_json v = true → wf_json w = true → delimited k → delimited k' →
  dumps_app v k = dumps_app w k' → v = w ∧ k = k'.

(** The items of a list, and of a dictionary, after the opening bracket. *)
Let items (k : string) := fix go (first : bool) l : string :=
  match l with
  | [] => String "]" k
  | x :: l => (if first then λ s, s else String ",") (dumps_app x (go false l))
  end.
Let fields (k : string) := fix go (first : bool) d : string :=
  match d with
  | [] => String "}" k
  | kv :: d =>
      (if first then λ s, s else String ",")
        (quote_app kv.1 (String ":" (dumps_app kv.2 (go false d))))
  end.

Lemma items_delimited k l : delimited (items k false l).
Proof. by destruct l. Qed.

Lemma fields_delimited k d : delimited (fields k false d).
Proof. by destruct d. Qed.

Lemma items_inj first l m k k' :
  Forall inj l → forallb wf_json l = true → forallb wf_json m = true →
  items k first l = items k' first m → l = m ∧ k = k'.
Proof.
  intros Hl. revert first m. induction Hl as [|x l Hx Hl IH]; intros first [|y m] Wl Wm E;
    cbn in *; rewrite ?andb_true_iff in *.
  - by injection E.
  - exfalso. destruct first; [|done].
    destruct (dumps_head y (items k' false m)) as (c & r & Hr & Hd & _); [by apply Wm|].
    rewrite Hr in E. by injection E as <- _.
  - exfalso. destruct first; [|done].
    destruct (dumps_head x (items k false l)) as (c & r & Hr & Hd & _); [by apply Wl|].
    rewrite Hr in E. by injection E as -> _.
  - destruct Wl as [Wx Wl], Wm as [Wy Wm].
    assert (dumps_app x (items k false l) = dumps_app y (items k' false m)) as E'.
    { by destruct first; [|injection E]. }
    apply Hx in E' as [-> E']; [|done..|apply items_delimited|apply items_delimited].
    apply IH in E' as [-> ->]; done.
Qed.

Lemma fields_inj first d e k k' :
  Forall (λ kv, inj kv.2) d → forallb (λ kv, wf_json kv.2) d = true →
  forallb (λ kv, wf_json kv.2) e = true →
  fields k first d = fields k' first e → d = e ∧ k = k'.
Proof.
  intros Hd. revert first e. induction Hd as [|[n x] d Hx Hd IH];
    intros first [|[n' y] e] Wd We E; cbn in *; rewrite ?andb_true_iff in *.
  - by injection E.
  - by destruct first.
  - by destruct first.
  - destruct Wd as [Wx Wd], We as [Wy We].
    assert (quote_app n (String ":" (dumps_app x (fields k false d))) =
            quote_app n' (String ":" (dumps_app y (fields k' false e)))) as E'.
    { destruct first; [done|]. unfold quote_app in *. injection E as E. by f_equal. }
    unfold quote_app in E'. injection E' as E'. apply esc_str_inj in E' as [-> E'].
    injection E' as E'.
    apply Hx in E' as [-> E']; [|done..|apply fields_delimited|apply fields_delimited].
    apply IH in E' as [-> ->]; done.
Qed.

Lemma token_case v w t k k' :
  token v = Some t → wf_json v = true → wf_json w = true → delimited k → delimited k' →
  dumps_app v k = dumps_app w k' → v = w ∧ k = k'.
Proof.
  intros Et Wv Ww Hk Hk' E.
  destruct (dumps_head v k Wv) as (c & r & Hr & _ & Hs & Hl & Hm),
    (dumps_head w k' Ww) as (c' & r' & Hr' & _ & Hs' & Hl' & Hm').
  assert (c = c') as <- by congruence.
  destruct (token w) as [t'|] eqn:Et'.
  - rewrite (dumps_token _ _ _ Et), (dumps_token _ _ _ Et') in E.
    destruct (token_chars _ _ Wv Et) as [_ Ht], (token_chars _ _ Ww Et') as [_ Ht'].
    apply token_split in E as [-> ->]; [|done..].
    split; [by eapply token_inj|done].
  - exfalso. destruct w as [|[]| | |s|l|d]; try discriminate Et'.
    + destruct Hs as [Hs _], Hs as [? ->]; [apply Hs'; eauto|discriminate Et].
    + destruct Hl as [Hl _], Hl as [? ->]; [apply Hl'; eauto|discriminate Et].
    + destruct Hm as [Hm _], Hm as [? ->]; [apply Hm'; eauto|discriminate Et].
Qed.

Lemma dumps_app_inj v : inj v.
Proof.
  induction v as [|b|z|t|s|l IH|d IH] using pyval_ind_nested; intros w k k' Wv Ww Hk Hk' E;
    match type of E with dumps_app ?v _ = _ =>
      destruct (dumps_head v k Wv) as (c & r & Hr & Hd & Hs & Hl & Hm) end;
    destruct (dumps_head w k' Ww) as (c' & r' & Hr' & Hd' & Hs' & Hl' & Hm');
    assert (c = c') as <- by congruence.
  1-4: by eapply token_case.
  - destruct Hs as [_ Hs]. destruct Hs' as [Hs' _], Hs' as [t ->]; [eauto|].
    cbn in E. unfold quote_app in E. injection E as E. by apply esc_str_inj in E as [-> ->].
  - destruct Hl as [_ Hl]. destruct Hl' as [Hl' _], Hl' as [m ->]; [eauto|].
    cbn in E. injection E as E. apply (items_inj true) in E as [-> ->]; done.
  - destruct Hm as [_ Hm]. destruct Hm' as [Hm' _], Hm' as [e ->]; [eauto|].
    cbn in E. injection E as E. apply (fields_inj true) in E as [-> ->]; done.
Qed.
End injectivity.

Lemma dumps_inj v w :
  wf_json v = true → wf_json w = true → dumps_app v "" = dumps_app w "" → v = w.
Proof. intros Hv Hw E. by apply dumps_app_inj in E as [-> _]. Qed.

Lemma wf_normalize v : wf_json (normalize_keys v) = wf_json v.
Proof.
  assert (∀ A (f : A → bool) l m, l ≡ₚ m → forallb f l = forallb f m) as Hperm.
  { intros A f l m. induction 1; cbn; [done|congruence| |congruence].
    by rewrite !andb_assoc, (andb_comm (f x)). }
  induction v as [|b|z|t|s|l IH|d IH] using pyval_ind_nested; cbn; try done.
  - induction IH as [|x l Hx Hl IH]; cbn; [done|]. by rewrite Hx, IH.
  - rewrite (Hperm _ _ _ _ (py_sorted_perm _ _)).
    induction IH as [|[k x] d Hx Hd IH]; cbn in *; [done|]. by rewrite Hx, IH.
Qed.

(** The canonical text determines the value up to the order of its dictionaries' items. *)
Lemma canonical_json_inj v w :
  wf_json v = true → wf_json w = true →
  canonical_json v = canonical_json w ↔ normalize_keys v = normalize_keys w.
Proof.
  intros Hv Hw. unfold canonical_json. split; [|by intros ->].
  intros E. by apply dumps_inj in E; rewrite ?wf_normalize.
Qed.
