(* ===== verification/JsonLoads.v ===== *)
(** * Reading JSON

    [json.loads], the scanner of the standard library: what it accepts beyond the grammar (NaN,
    the infinities, lone surrogates), repeated keys, the limit on the digits of an integer.
    Reading back what [json.dumps] printed gives the value that was printed. The message and the
    position of a [JSONDecodeError] are not kept; the recursion limit of the interpreter is not
    modelled. *)

From S2P Require Import Prelude PyVal JsonNumber Json.
From stdpp Require Import options.

(** Floats by the texts that denote them: [repr(float(text))], and the microseconds
    [timedelta(seconds=x)] rounds the float with the given [repr] to. Rounding to binary is not
    modelled. *)
Class FloatText := {
  float_repr : string → string;
  float_micros : string → Z
}.

Definition is_json_space (c : ascii) : bool :=
  match Ascii.nat_of_ascii c with 32 | 9 | 10 | 13 => true | _ => false end%nat.

Fixpoint skip_ws (s : string) : string :=
  match s with
  | EmptyString => EmptyString
  | String c s' => if is_json_space c then skip_ws s' else s
  end.

(** ** Strings *)

(** The UTF-8 bytes of a code point, before [k]; a surrogate is encoded like any other. *)
Definition utf8_byte (n : N) : ascii := Ascii.ascii_of_N n.
Definition utf8_app (u : N) (k : string) : string :=
  if (u <? 128)%N then String (utf8_byte u) k
  else if (u <? 2048)%N then
    String (utf8_byte (192 + u / 64)) (String (utf8_byte (128 + u mod 64)) k)
  else if (u <? 65536)%N then
    String (utf8_byte (224 + u / 4096)) (String (utf8_byte (128 + u / 64 mod 64))
      (String (utf8_byte (128 + u mod 64)) k))
  else
    String (utf8_byte (240 + u / 262144)) (String (utf8_byte (128 + u / 4096 mod 64))
      (String (utf8_byte (128 + u / 64 mod 64)) (String (utf8_byte (128 + u mod 64)) k))).

Definition hex_value (c : ascii) : option N :=
  let n := Ascii.N_of_ascii c in
  if (48 <=? n)%N && (n <=? 57)%N then Some (n - 48)%N
  else if (65 <=? n)%N && (n <=? 70)%N then Some (n - 55)%N
  else if (97 <=? n)%N && (n <=? 102)%N then Some (n - 87)%N
  else None.

Definition hex4 (a b c d : ascii) : option N :=
  a ← hex_value a; b ← hex_value b; c ← hex_value c; d ← hex_value d;
  Some (((a * 16 + b) * 16 + c) * 16 + d)%N.

Definition is_high (u : N) : bool := (55296 <=? u)%N && (u <=? 56319)%N.
Definition is_low (u : N) : bool := (56320 <=? u)%N && (u <=? 57343)%N.

(** The second half of a surrogate pair, when the six characters are one. *)
Definition surrogate_pair (u : N) (b e l1 l2 l3 l4 : ascii) : option N :=
  if Ascii.eqb b bs && Ascii.eqb e "u" then
    w ← hex4 l1 l2 l3 l4;
    if is_low w then Some (65536 + (u - 55296) * 1024 + (w - 56320))%N else None
  else None.

Definition simple_escape (e : ascii) : option ascii :=
  if Ascii.eqb e dq || Ascii.eqb e bs || Ascii.eqb e "/" then Some e
  else if Ascii.eqb e "b" then Some "008"%char
  else if Ascii.eqb e "f" then Some "012"%char
  else if Ascii.eqb e "n" then Some "010"%char
  else if Ascii.eqb e "r" then Some "013"%char
  else if Ascii.eqb e "t" then Some "009"%char
  else None.

(** [scanstring], after the opening quote: the string and the text that follows it. *)
Fixpoint scan_string (s : string) : option (string * string) :=
  match s with
  | EmptyString => None
  | String c k =>
      if Ascii.eqb c dq then Some ("", k)
      else if Ascii.eqb c bs then
        match k with
        | EmptyString => None
        | String e k =>
            if Ascii.eqb e "u" then
              match k with
              | String h1 (String h2 (String h3 (String h4 k))) =>
                  u ← hex4 h1 h2 h3 h4;
                  if is_high u then
                    match k with
                    | String b (String e (String l1 (String l2 (String l3 (String l4 k'))))) =>
                        match surrogate_pair u b e l1 l2 l3 l4 with
                        | Some w => '(t, r) ← scan_string k'; Some (utf8_app w t, r)
                        | None => '(t, r) ← scan_string k; Some (utf8_app u t, r)
                        end
                    | _ => '(t, r) ← scan_string k; Some (utf8_app u t, r)
                    end
                  else '(t, r) ← scan_string k; Some (utf8_app u t, r)
              | _ => None
              end
            else d ← simple_escape e; '(t, r) ← scan_string k; Some (String d t, r)
        end
      else if (Ascii.nat_of_ascii c <? 32)%nat then None
      else '(t, r) ← scan_string k; Some (String c t, r)
  end.

(** ** Values *)

Fixpoint strip_prefix (p s : string) : option string :=
  match p, s with
  | EmptyString, _ => Some s
  | String a p, String b s => if Ascii.eqb a b then strip_prefix p s else None
  | _, _ => None
  end.

Definition decode_error {A} : result A := Raise (Exn JSONDecodeError []).

(** [sys.get_int_max_str_digits()] *)
Definition INT_MAX_STR_DIGITS : nat := 4300.
Definition int_digits (i : string) : nat :=
  match i with String "-" i => String.length i | _ => String.length i end.

Definition constants : list (string * pyval) :=
  [("null", PNone); ("true", PBool true); ("false", PBool false); ("NaN", PFloat "nan");
   ("Infinity", PFloat "inf"); ("-Infinity", PFloat "-inf")].

Fixpoint scan_constant (l : list (string * pyval)) (s : string) : option (pyval * string) :=
  match l with
  | [] => None
  | (p, v) :: l => match strip_prefix p s with Some r => Some (v, r) | None => scan_constant l s end
  end.

(** [s[idx] == c], and the text after it *)
Definition next_is (c : ascii) (s : string) : option string :=
  match s with String d r => if Ascii.eqb c d then Some r else None | EmptyString => None end.

Definition scan_quoted (s : string) : result (string * string) :=
  match next_is dq s with
  | Some s => match scan_string s with Some x => Ok x | None => decode_error end
  | None => decode_error
  end.

Section loads.
Context `{FloatText}.

Definition scan_atom (s : string) : result (pyval * string) :=
  match scan_constant constants s with
  | Some x => Ok x
  | None =>
      match scan_number s with
      | None => decode_error
      | Some (i, f, r) =>
          if f =? "" then
            _ ← require (int_digits i <=? INT_MAX_STR_DIGITS)%nat ValueError "Exceeds the limit";
            Ok (PInt (read_int i), r)
          else Ok (PFloat (float_repr (i +:+ f)), r)
      end
  end.

(** [scan_once], the elements of an array and the members of an object; every call of one of
    them uses one unit of fuel. *)
Fixpoint scan_value (n : nat) (s : string) : result (pyval * string) :=
  match n with
  | O => Raise (Exn RecursionError [])
  | S n =>
      match next_is dq s, next_is "[" s, next_is "{" s with
      | Some _, _, _ => '(t, r) ← scan_quoted s; Ok (PStr t, r)
      | None, Some k, _ =>
          match next_is "]" (skip_ws k) with
          | Some r => Ok (PList [], r)
          | None => '(l, r) ← scan_elements n (skip_ws k); Ok (PList l, r)
          end
      | None, None, Some k =>
          match next_is "}" (skip_ws k) with
          | Some r => Ok (PDict [], r)
          | None => '(d, r) ← scan_members n (skip_ws k); Ok (PDict (assoc_update [] d), r)
          end
      | None, None, None => scan_atom s
      end
  end
with scan_elements (n : nat) (s : string) : result (list pyval * string) :=
  match n with
  | O => Raise (Exn RecursionError [])
  | S n =>
      '(v, r) ← scan_value n s;
      match next_is "]" (skip_ws r), next_is "," (skip_ws r) with
      | Some r, _ => Ok ([v], r)
      | None, Some r => '(l, r) ← scan_elements n (skip_ws r); Ok (v :: l, r)
      | None, None => decode_error
      end
  end
with scan_members (n : nat) (s : string) : result (list (string * pyval) * string) :=
  match n with
  | O => Raise (Exn RecursionError [])
  | S n =>
      '(key, r) ← scan_quoted s;
      r ← match next_is ":" (skip_ws r) with Some r => Ok r | None => decode_error end;
      '(v, r) ← scan_value n (skip_ws r);
      match next_is "}" (skip_ws r), next_is "," (skip_ws r) with
      | Some r, _ => Ok ([(key, v)], r)
      | None, Some r => '(d, r) ← scan_members n (skip_ws r); Ok ((key, v) :: d, r)
      | None, None => decode_error
      end
  end.

Definition scan_fuel (s : string) : nat := S (2 * String.length s).

(** [json.loads(s)] of a [str] *)
Definition loads (s : string) : result pyval :=
  let s := skip_ws s in
  '(v, r) ← scan_value (scan_fuel s) s;
  _ ← (if skip_ws r =? "" then Ok tt else decode_error);
  Ok v.
End loads.

(** ** Every text is read in the fuel [loads] provides *)

Lemma skip_ws_length s : (String.length (skip_ws s) ≤ String.length s)%nat.
Proof. induction s as [|c s IH]; cbn; [done|]. destruct (is_json_space c); cbn; lia. Qed.

Lemma skip_ws_tail s c r : skip_ws s = String c r → (String.length r < String.length s)%nat.
Proof. intros E. pose proof (skip_ws_length s) as H. rewrite E in H. cbn in H. lia. Qed.

(** A scanner leaves less text than it was given. *)
Definition consumes {A} (s : string) (x : option (A * string)) : Prop :=
  match x with Some (_, r) => (String.length r < String.length s)%nat | None => True end.

Lemma consumes_bind {A B} (f : A → B) s s' x :
  consumes s x → (String.length s ≤ String.length s')%nat →
  consumes s' ('(t, r) ← x; Some (f t, r)).
Proof. destruct x as [[t r]|]; cbn; [lia|done]. Qed.

Lemma scan_string_consumes n s : (String.length s < n)%nat → consumes s (scan_string s).
Proof.
  revert s. induction n as [|n IH]; intros s Hn; [lia|].
  destruct s as [|c k]; [done|]. cbn [String.length] in Hn. cbn [scan_string].
  destruct (Ascii.eqb c dq); [cbn; lia|].
  destruct (Ascii.eqb c bs).
  - destruct k as [|e k]; [done|]. cbn [String.length] in Hn. destruct (Ascii.eqb e "u").
    + destruct k as [|h1 [|h2 [|h3 [|h4 k]]]]; try done. cbn [String.length] in Hn.
      destruct (hex4 h1 h2 h3 h4) as [u|]; [|done]. cbn [mbind option_bind].
      assert (∀ w k', (String.length k' ≤ String.length k)%nat →
        consumes (String c (String e (String h1 (String h2 (String h3 (String h4 k))))))
          ('(t, r) ← scan_string k'; Some (utf8_app w t, r))) as Hk.
      { intros w k' Hk'. eapply consumes_bind; [apply IH; lia|cbn; lia]. }
      destruct (is_high u); [|by apply Hk].
      destruct k as [|b [|e' [|l1 [|l2 [|l3 [|l4 k']]]]]]; try by apply Hk.
      destruct (surrogate_pair _ _ _ _ _ _ _); apply Hk; cbn; lia.
    + destruct (simple_escape e); [|done]. eapply consumes_bind; [apply IH; lia|cbn; lia].
  - destruct (_ <? 32)%nat; [done|]. eapply consumes_bind; [apply IH; lia|cbn; lia].
Qed.

Lemma strip_prefix_spec p s r : strip_prefix p s = Some r ↔ s = p +:+ r.
Proof.
  revert s. induction p as [|a p IH]; intros s; [cbn; rewrite str_app_nil_l; naive_solver|].
  destruct s as [|b s]; [done|]. cbn [strip_prefix]. rewrite str_app_cons.
  destruct (Ascii.eqb_spec a b) as [->|]; [rewrite IH; naive_solver|naive_solver].
Qed.

Lemma scan_constant_consumes l s :
  (∀ x, x ∈ l → x.1 ≠ "") → consumes s (scan_constant l s).
Proof.
  induction l as [|[p v] l IH]; intros Hl; [done|]. cbn [scan_constant].
  destruct (strip_prefix p s) as [r|] eqn:E; [|apply IH; intros; apply Hl; by right].
  apply strip_prefix_spec in E as ->. cbn [consumes]. rewrite str_length_app.
  assert (p ≠ "") by (apply (Hl (p, v)); left). destruct p; cbn; [done|lia].
Qed.

Section totality.
Context `{FloatText}.

(** Read, or refused for a reason of the text. *)
Definition scanned {A} (s : string) (x : result (A * string)) : Prop :=
  match x with
  | Ok (_, r) => (String.length r < String.length s)%nat
  | Raise e => e = Exn JSONDecodeError [] ∨ e = Exn ValueError ["Exceeds the limit"]
  end.

Lemma scan_atom_total s : scanned s (scan_atom s).
Proof.
  unfold scan_atom. pose proof (scan_constant_consumes constants s) as Hc.
  destruct (scan_constant constants s) as [[v r]|]; cbn in *.
  - apply Hc. intros x Hx. by elem_cases Hx; subst.
  - destruct (scan_number s) as [[[i f] r]|] eqn:E; [|by left].
    apply scan_number_spec in E as (-> & _ & Hi).
    assert (String.length r < String.length ((i +:+ f) +:+ r))%nat.
    { rewrite !str_length_app. destruct i; cbn; [done|lia]. }
    destruct (f =? ""); [|done]. unfold require. destruct (_ <=? _)%nat; [done|by right].
Qed.

Lemma scanned_bind {A B} (m : result (A * string)) (f : A * string → result (B * string)) s s' :
  scanned s m → (∀ a r, (String.length r < String.length s)%nat → scanned s' (f (a, r))) →
  scanned s' (m ≫= f).
Proof. destruct m as [[a r]|e]; cbn; auto. Qed.

Lemma scanned_weaken {A} s s' (x : result (A * string)) :
  scanned s x → (String.length s ≤ String.length s')%nat → scanned s' x.
Proof. destruct x as [[a r]|]; cbn; [lia|done]. Qed.

Lemma next_is_Some c s r : next_is c s = Some r ↔ s = String c r.
Proof.
  destruct s as [|d s]; [done|]. cbn. destruct (Ascii.eqb_spec c d) as [->|]; naive_solver.
Qed.

Lemma next_is_ws c s r : next_is c (skip_ws s) = Some r → (String.length r < String.length s)%nat.
Proof. intros E%next_is_Some. by eapply skip_ws_tail. Qed.

Lemma scan_quoted_total s : scanned s (scan_quoted s).
Proof.
  unfold scan_quoted. destruct (next_is dq s) as [k|] eqn:E; [|by left].
  apply next_is_Some in E as ->. pose proof (scan_string_consumes (S (String.length k)) k) as Hc.
  destruct (scan_string k) as [[t r]|]; cbn in *; [|by left]. assert (String.length k < S (String.length k))%nat by lia.
  apply Hc in H0. lia.
Qed.

Lemma scan_total n s :
  ((2 * String.length s < n)%nat → scanned s (scan_value n s)) ∧
  ((2 * String.length s + 1 < n)%nat → scanned s (scan_elements n s)) ∧
  ((2 * String.length s + 1 < n)%nat → scanned s (scan_members n s)).
Proof.
  revert s. induction n as [|n IH]; intros s; [split_and!; lia|].
  assert (∀ c k, next_is c s = Some k → (String.length (skip_ws k) < String.length s)%nat) as Hk.
  { intros c k ->%next_is_Some. cbn. pose proof (skip_ws_length k). lia. }
  split_and!; intros Hn; cbn [scan_value scan_elements scan_members].
  - destruct (next_is dq s); [eapply scanned_bind; [apply scan_quoted_total|done]|].
    destruct (next_is "[" s) as [k|] eqn:E; [apply Hk in E|].
    { destruct (next_is "]" _) as [r|] eqn:Er; [apply next_is_Some in Er; rewrite Er in E; cbn in *; lia|].
      eapply scanned_bind; [apply IH; lia|]. cbn; lia. }
    destruct (next_is "{" s) as [k|] eqn:E'; [apply Hk in E'|apply scan_atom_total].
    destruct (next_is "}" _) as [r|] eqn:Er; [apply next_is_Some in Er; rewrite Er in E'; cbn in *; lia|].
    eapply scanned_bind; [apply IH; lia|]. cbn; lia.
  - eapply scanned_bind; [apply IH; lia|]. intros v r Hr.
    destruct (next_is "]" _) as [r'|] eqn:E; [apply next_is_ws in E; cbn; lia|].
    destruct (next_is "," _) as [r'|] eqn:E'; [apply next_is_ws in E'|by left].
    pose proof (skip_ws_length r'). eapply scanned_bind; [apply IH; lia|]. cbn; lia.
  - eapply scanned_bind; [apply scan_quoted_total|]. intros key r Hr.
    destruct (next_is ":" _) as [r1|] eqn:E1; [apply next_is_ws in E1|by left]. cbn [mbind result_bind].
    pose proof (skip_ws_length r1). eapply scanned_bind; [apply IH; lia|]. intros v r2 Hr2.
    destruct (next_is "}" _) as [r3|] eqn:E; [apply next_is_ws in E; cbn; lia|].
    destruct (next_is "," _) as [r3|] eqn:E'; [apply next_is_ws in E'|by left].
    pose proof (skip_ws_length r3). eapply scanned_bind; [apply IH; lia|]. cbn; lia.
Qed.

(** Reading ends: the fuel is never what stops it. *)
Lemma loads_total s e :
  loads s = Raise e → e = Exn JSONDecodeError [] ∨ e = Exn ValueError ["Exceeds the limit"].
Proof.
  unfold loads. pose proof (proj1 (scan_total (scan_fuel (skip_ws s)) (skip_ws s))) as Ht.
  assert (2 * String.length (skip_ws s) < scan_fuel (skip_ws s))%nat as Hf by (unfold scan_fuel; lia).
  apply Ht in Hf. destruct (scan_value _ _) as [[v r]|e']; cbn in *; [|by intros [= <-]].
  destruct (_ =? _); [done|]. intros [= <-]. by left.
Qed.
End totality.

(** ** Reading back what was printed *)

Lemma scan_esc_str s k : scan_string (esc_str s k) = Some (s, k).
Proof.
  induction s as [|c s IH]; [done|]. cbn [esc_str].
  assert (scan_string (esc_char c (esc_str s k)) =
    '(t, r) ← scan_string (esc_str s k); Some (String c t, r)) as ->.
  { by destruct c as [[] [] [] [] [] [] [] []]. }
  by rewrite IH.
Qed.

Lemma scan_quoted_app s k : scan_quoted (quote_app s k) = Ok (s, k).
Proof. unfold scan_quoted, quote_app. cbn [next_is]. rewrite Ascii.eqb_refl. by rewrite scan_esc_str. Qed.

Section round_trip.
Context `{FloatText}.

(** The values whose text is read back: their floats are texts [repr] gives, their integers
    within the limit, the keys of a dictionary distinct. *)
Fixpoint readable (v : pyval) : bool :=
  match v with
  | PInt z => (int_digits (pretty z) <=? INT_MAX_STR_DIGITS)%nat
  | PFloat t => float_token t && (str_in t ["nan"; "inf"; "-inf"] || (float_repr t =? t))
  | PList l => forallb readable l
  | PDict d => bool_decide (NoDup d.*1) && forallb (λ kv, readable kv.2) d
  | _ => true
  end.

Lemma readable_wf v : readable v = true → wf_json v = true.
Proof.
  induction v as [|b|z|t|s|l IH|d IH] using pyval_ind_nested; cbn; try done.
  - by intros [? _]%andb_true_iff.
  - rewrite !forallb_true_Forall. intros Hl. rewrite Forall_forall in *. eauto.
  - intros [_ Hd]%andb_true_iff. rewrite !forallb_true_Forall in *. rewrite Forall_forall in *. eauto.
Qed.

Lemma delimited_stop k : delimited k → num_stop k.
Proof. destruct k as [|c k]; [done|]. by destruct c as [[] [] [] [] [] [] [] []]. Qed.

Lemma skip_ws_delimited k : delimited k → skip_ws k = k.
Proof. destruct k as [|c k]; [done|]. by destruct c as [[] [] [] [] [] [] [] []]. Qed.

(** A number starts with a digit, after a sign perhaps: it is no string, no container, and no
    constant. *)
Lemma scan_number_head s x :
  scan_number s = Some x →
  ∃ c r, num_digit c = true ∧ (s = String c r ∨ s = String "-" (String c r)).
Proof.
  assert (∀ s i r, scan_natural s = Some (i, r) → ∃ c r, num_digit c = true ∧ s = String c r) as Hn.
  { clear. intros [|c s] i r; [done|]. cbn. destruct (Ascii.eqb_spec c "0") as [->|].
    - by exists "0"%char, s.
    - destruct (num_digit c) eqn:E; [|done]. by exists c, s. }
  unfold scan_number. destruct (scan_integer s) as [[i r]|] eqn:E; [|done]. intros _.
  destruct s as [|c s]; [done|]. destruct (ascii_dec c "-") as [->|Hc].
  - cbn [scan_integer] in E. destruct (scan_natural s) as [[i' r']|] eqn:E'; [|done].
    apply Hn in E' as (d & t & Hd & ->). eauto.
  - rewrite scan_integer_other in E by done. apply Hn in E as (d & t & Hd & E). eauto.
Qed.

Lemma numeral_heads s x k :
  scan_number s = Some x →
  scan_constant constants (s +:+ k) = None ∧ next_is dq (s +:+ k) = None ∧
  next_is "[" (s +:+ k) = None ∧ next_is "{" (s +:+ k) = None ∧ skip_ws (s +:+ k) = s +:+ k.
Proof.
  intros (c & r & Hc & [->| ->])%scan_number_head; rewrite !str_app_cons.
  - by destruct c as [[] [] [] [] [] [] [] []].
  - by destruct c as [[] [] [] [] [] [] [] []].
Qed.

Lemma scan_atom_dumps v t k :
  readable v = true → token v = Some t → delimited k → scan_atom (t +:+ k) = Ok (v, k).
Proof.
  assert (∀ s i f, scan_number s = Some (i, f, "") → delimited k →
    scan_atom (s +:+ k) =
      if f =? "" then
        _ ← require (int_digits i <=? INT_MAX_STR_DIGITS)%nat ValueError "Exceeds the limit";
        Ok (PInt (read_int i), k)
      else Ok (PFloat (float_repr (i +:+ f)), k)) as Hnum.
  { intros s i f E Hk. unfold scan_atom. destruct (numeral_heads _ _ k E) as [-> _].
    rewrite scan_number_app by by apply delimited_stop. by rewrite E. }
  intros Hv Et Hk. destruct v as [|[]|z|f| | |]; try discriminate Et; injection Et as <-; [done..| |].
  - rewrite (Hnum _ _ _ (scan_number_pretty z) Hk), read_int_pretty. cbn in Hv. by rewrite Hv.
  - cbn -[str_in] in Hv. apply andb_true_iff in Hv as [Hf Hr].
    apply float_token_case in Hf as [Hf|[-> (i & e & E & He)]]; [by elem_cases Hf; subst|].
    rewrite (Hnum _ _ _ E Hk). apply String.eqb_neq in He as ->.
    pose proof (scan_number_spec _ _ _ _ E) as (Es & _ & _). rewrite str_app_nil_r in Es. rewrite <-Es.
    apply orb_true_iff in Hr as [Hr%str_in_spec|Hr%String.eqb_eq]; [|by rewrite Hr].
    by elem_cases Hr; rewrite Hr in E.
Qed.

(** What follows the first bracket of a container. *)
Let items (k : string) := fix go (first : bool) l : string :=
  match l with
  | [] => String "]" k
  | x :: l => (if first then λ s, s else String ",") (dumps_app x (go false l))
  end.
Let fields (k : string) := fix go (first : bool) d : string :=
  match d with
  | [] => String "}" k
  | kv :: d =>
      (if first then λ s, s else String ",")
        (quote_app kv.1 (String ":" (dumps_app kv.2 (go false d))))
  end.

Lemma dumps_list x l k : dumps_app (PList (x :: l)) k = String "[" (dumps_app x (items k false l)).
Proof. done. Qed.

Lemma dumps_dict key x d k :
  dumps_app (PDict ((key, x) :: d)) k =
  String "{" (quote_app key (String ":" (dumps_app x (fields k false d)))).
Proof. done. Qed.

Let reads (v : pyval) : Prop := ∀ n k,
  delimited k → (2 * String.length (dumps_app v k) < n)%nat → scan_value n (dumps_app v k) = Ok (v, k).

Lemma skip_ws_dumps v k : readable v = true → skip_ws (dumps_app v k) = dumps_app v k.
Proof.
  intros Hv. destruct v as [|[]|z|f| | |]; try done; cbn [dumps_app].
  - by apply (numeral_heads _ _ k (scan_number_pretty z)).
  - apply readable_wf in Hv. cbn in Hv. apply float_token_case in Hv as [Hf|[-> (i & e & E & He)]].
    + by elem_cases Hf; subst.
    + by apply (numeral_heads _ _ k E).
Qed.

Lemma not_close v k c : readable v = true → is_delim c = true → next_is c (dumps_app v k) = None.
Proof.
  intros Hv Hc. destruct (dumps_head v k (readable_wf v Hv)) as (d & r & -> & Hd & _).
  cbn. destruct (Ascii.eqb_spec c d) as [->|]; [congruence|done].
Qed.

(** Between two values of a container: what the printer writes is what the scanner expects. *)
Lemma items_shorter n v k :
  (2 * String.length (dumps_app v k) < n)%nat → reads v → delimited k →
  (String.length k < String.length (dumps_app v k))%nat.
Proof.
  intros Hn Hv Hk. specialize (Hv n k Hk Hn).
  pose proof (proj1 (scan_total n (dumps_app v k)) Hn) as Ht. by rewrite Hv in Ht.
Qed.

Lemma scan_items l x k n :
  reads x → Forall reads l → forallb readable l = true →
  (2 * String.length (dumps_app x (items k false l)) + 1 < n)%nat →
  scan_elements n (dumps_app x (items k false l)) = Ok (x :: l, k).
Proof.
  intros Hx Hl. revert x Hx n. induction Hl as [|y l Hy Hl IH]; intros x Hx n Rl Hn;
    (destruct n as [|n]; [lia|]); cbn [scan_elements].
  - by rewrite Hx by (done || lia).
  - assert (delimited (items k false (y :: l))) as Hd by done.
    rewrite Hx by (done || lia). cbn [mbind result_bind].
    assert (2 * String.length (dumps_app x (items k false (y :: l))) < n)%nat as Hn' by lia.
    pose proof (items_shorter _ _ _ Hn' Hx Hd) as Hs.
    cbn [forallb] in Rl. apply andb_true_iff in Rl as [Ry Rl].
    rewrite skip_ws_delimited by done. change (items k false (y :: l)) with (String "," (dumps_app y (items k false l))) in *.
    cbn [next_is Ascii.eqb Bool.eqb]. rewrite skip_ws_dumps by done. cbn [String.length] in Hs.
    rewrite IH by (done || lia). done.
Qed.

Lemma quoted_shorter key k : (String.length k < String.length (quote_app key k))%nat.
Proof. pose proof (scan_quoted_total (quote_app key k)) as Ht. by rewrite scan_quoted_app in Ht. Qed.

Lemma scan_fields d key x k n :
  reads x → Forall (λ kv, reads kv.2) d → readable x = true → forallb (λ kv, readable kv.2) d = true →
  (2 * String.length (quote_app key (String ":" (dumps_app x (fields k false d)))) + 1 < n)%nat →
  scan_members n (quote_app key (String ":" (dumps_app x (fields k false d)))) = Ok ((key, x) :: d, k).
Proof.
  intros Hx Hd. revert key x Hx n. induction Hd as [|[key' y] d Hy Hd IH]; intros key x Hx n Rx Rd Hn;
    (destruct n as [|n]; [lia|]);
    match goal with |- scan_members _ (quote_app ?key ?t) = _ => pose proof (quoted_shorter key t) as Hq end;
    cbn [scan_members]; rewrite scan_quoted_app; cbn [mbind result_bind];
    match goal with |- context [skip_ws (String ":" ?t)] =>
      change (skip_ws (String ":" t)) with (String ":" t) end;
    cbn [next_is Ascii.eqb Bool.eqb mbind result_bind String.length] in *; rewrite skip_ws_dumps by done.
  - by rewrite Hx by (done || lia).
  - assert (delimited (fields k false ((key', y) :: d))) as Hdl by done.
    rewrite Hx by (done || lia). cbn [mbind result_bind].
    assert (2 * String.length (dumps_app x (fields k false ((key', y) :: d))) < n)%nat as Hn' by lia.
    pose proof (items_shorter _ _ _ Hn' Hx Hdl) as Hs.
    cbn [forallb fst snd] in Rd. apply andb_true_iff in Rd as [Ry Rd].
    rewrite skip_ws_delimited by done.
    change (fields k false ((key', y) :: d)) with
      (String "," (quote_app key' (String ":" (dumps_app y (fields k false d))))) in *.
    cbn [next_is Ascii.eqb Bool.eqb]. cbn [String.length] in Hs.
    change (skip_ws (quote_app key' (String ":" (dumps_app y (fields k false d)))))
      with (quote_app key' (String ":" (dumps_app y (fields k false d)))).
    by rewrite IH by (done || lia).
Qed.

Lemma assoc_set_new {A} key (x : A) d : key ∉ d.*1 → assoc_set key x d = d ++ [(key, x)].
Proof.
  induction d as [|[key' y] d IH]; intros Hk; [done|]. cbn in *.
  apply not_elem_of_cons in Hk as [Hne Hk]. apply String.eqb_neq in Hne as ->. by rewrite IH.
Qed.

Lemma assoc_update_fresh {A} (d e : list (string * A)) :
  NoDup (e ++ d).*1 → assoc_update e d = e ++ d.
Proof.
  revert e. induction d as [|[key x] d IH]; intros e Hd; cbn; [by rewrite app_nil_r|].
  assert (key ∉ e.*1) as Hk.
  { rewrite fmap_app, fmap_cons in Hd. apply NoDup_app in Hd as (_ & Hd & _).
    intros He. apply (Hd key He). left. }
  unfold assoc_update in *. rewrite assoc_set_new by done. rewrite IH; by rewrite <-app_assoc.
Qed.

Lemma scan_dumps v : readable v = true → reads v.
Proof.
  revert v. assert (∀ v t n k, readable v = true → token v = Some t → delimited k →
    (2 * String.length (dumps_app v k) < S n)%nat →
    scan_value (S n) (dumps_app v k) = Ok (v, k)) as Htok.
  { intros v t n k Hv Et Hk Hn. pose proof (dumps_head v k (readable_wf v Hv)) as (c & r & Hr & _ & Hs & Hl & Hd).
    cbn [scan_value]. rewrite Hr. cbn [next_is].
    destruct (Ascii.eqb_spec dq c) as [<-|H1]; [by destruct (proj1 Hs eq_refl) as [? ->]|].
    destruct (Ascii.eqb_spec "[" c) as [<-|H2]; [by destruct (proj1 Hl eq_refl) as [? ->]|].
    destruct (Ascii.eqb_spec "{" c) as [<-|H3]; [by destruct (proj1 Hd eq_refl) as [? ->]|].
    rewrite <-Hr, (dumps_token _ _ _ Et). by apply scan_atom_dumps. }
  intros v. induction v as [|b|z|t|s|l IH|d IH] using pyval_ind_nested; intros Hv n k Hk Hn;
    (destruct n as [|n]; [lia|]); try by eapply Htok.
  - cbn [dumps_app scan_value]. by rewrite scan_quoted_app.
  - destruct l as [|x l]; [done|]. rewrite dumps_list in *. cbn [String.length] in Hn.
    cbn [readable forallb] in Hv. apply andb_true_iff in Hv as [Hx Hl].
    apply Forall_cons in IH as [IHx IHl].
    assert (Forall reads l) as Hrl.
    { rewrite forallb_true_Forall in Hl. rewrite !Forall_forall in *. auto. }
    cbn [scan_value next_is Ascii.eqb Bool.eqb].
    rewrite skip_ws_dumps, not_close by done. by rewrite scan_items by (auto || lia).
  - destruct d as [|[key x] d]; [done|]. rewrite dumps_dict in *. cbn [String.length] in Hn.
    cbn [readable forallb fst snd] in Hv.
    apply andb_true_iff in Hv as [Hnd [Hx Hd]%andb_true_iff]. apply bool_decide_eq_true in Hnd.
    apply Forall_cons in IH as [IHx IHd].
    assert (Forall (λ kv, reads kv.2) d) as Hrd.
    { rewrite forallb_true_Forall in Hd. rewrite !Forall_forall in *. auto. }
    cbn [scan_value next_is Ascii.eqb Bool.eqb].
    set (t := String ":" _) in *.
    change (skip_ws (quote_app key t)) with (quote_app key t).
    change (next_is "}" (quote_app key t)) with (@None string). cbn [mbind result_bind].
    unfold t in *. rewrite scan_fields by (auto || lia). cbn [mbind result_bind].
    by rewrite (assoc_update_fresh _ []).
Qed.

Lemma loads_dumps v : readable v = true → loads (dumps_app v "") = Ok v.
Proof.
  intros Hv. unfold loads. rewrite skip_ws_dumps by done.
  by rewrite (scan_dumps v Hv) by first [done|unfold scan_fuel; lia].
Qed.

Lemma readable_normalize v : readable (normalize_keys v) = readable v.
Proof.
  assert (∀ A (f : A → bool) l m, l ≡ₚ m → forallb f l = forallb f m) as Hperm.
  { intros A f l m. induction 1; cbn; [done|congruence| |congruence].
    by rewrite !andb_assoc, (andb_comm (f x)). }
  induction v as [|b|z|t|s|l IH|d IH] using pyval_ind_nested; cbn; try done.
  - induction IH as [|x l Hx Hl IH]; cbn; [done|]. by rewrite Hx, IH.
  - rewrite (Hperm _ _ _ _ (py_sorted_perm _ _)). f_equal.
    + apply bool_decide_ext. rewrite (py_sorted_perm key_leb (map (λ kv, (kv.1, normalize_keys kv.2)) d)).
      rewrite <-list_fmap_compose. done.
    + induction IH as [|[k x] d Hx Hd IH]; cbn in *; [done|]. by rewrite Hx, IH.
Qed.

(** What was stored as canonical JSON is read back, its keys in order. *)
Lemma loads_canonical_json v : readable v = true → loads (canonical_json v) = Ok (normalize_keys v).
Proof. intros Hv. apply loads_dumps. by rewrite readable_normalize. Qed.
End round_trip.
