(* ===== verification/Sha256.v ===== *)
(** * The digest [hashlib.sha256]

    Every digest of the program is [hashlib.sha256(text).hexdigest()]. The components take the
    digest function as a class, so their theorems hold for any function: what depends on its
    strength is stated as "equal, or here are two texts with the same digest". [sha256] is the
    standard's function (FIPS 180-4) on 32-bit words kept as integers, and
    [sha256_alg] its instance. *)

From S2P Require Import Prelude PyVal.
From stdpp Require Import options.

Class HashAlg := hexdigest : string → string.

Module Sha256.
Local Open Scope Z_scope.

Definition word_mask : Z := 4294967295.
Definition add32 (x y : Z) : Z := Z.land (x + y) word_mask.
Definition rotr (n x : Z) : Z :=
  Z.lor (Z.shiftr x n) (Z.land (Z.shiftl x (32 - n)) word_mask).
Definition ch (x y z : Z) : Z := Z.lxor (Z.land x y) (Z.land (Z.lxor x word_mask) z).
Definition maj (x y z : Z) : Z :=
  Z.lxor (Z.lxor (Z.land x y) (Z.land x z)) (Z.land y z).
Definition big_sigma0 (x : Z) : Z := Z.lxor (Z.lxor (rotr 2 x) (rotr 13 x)) (rotr 22 x).
Definition big_sigma1 (x : Z) : Z := Z.lxor (Z.lxor (rotr 6 x) (rotr 11 x)) (rotr 25 x).
Definition small_sigma0 (x : Z) : Z := Z.lxor (Z.lxor (rotr 7 x) (rotr 18 x)) (Z.shiftr x 3).
Definition small_sigma1 (x : Z) : Z :=
  Z.lxor (Z.lxor (rotr 17 x) (rotr 19 x)) (Z.shiftr x 10).

Definition round_constants : list Z :=
  [1116352408; 1899447441; 3049323471; 3921009573; 961987163; 1508970993; 2453635748;
   2870763221; 3624381080; 310598401; 607225278; 1426881987; 1925078388; 2162078206;
   2614888103; 3248222580; 3835390401; 4022224774; 264347078; 604807628; 770255983;
   1249150122; 1555081692; 1996064986; 2554220882; 2821834349; 2952996808; 3210313671;
   3336571891; 3584528711; 113926993; 338241895; 666307205; 773529912; 1294757372;
   1396182291; 1695183700; 1986661051; 2177026350; 2456956037; 2730485921; 2820302411;
   3259730800; 3345764771; 3516065817; 3600352804; 4094571909; 275423344; 430227734;
   506948616; 659060556; 883997877; 958139571; 1322822218; 1537002063; 1747873779;
   1955562222; 2024104815; 2227730452; 2361852424; 2428436474; 2756734187; 3204031479;
   3329325298].
Definition initial_hash : list Z :=
  [1779033703; 3144134277; 1013904242; 2773480762; 1359893119; 2600822924; 528734635;
   1541459225].

(** One round on the working variables. *)
Definition round (s : list Z) (kw : Z * Z) : list Z :=
  match s with
  | [a; b; c; d; e; f; g; h] =>
      let t1 := add32 (add32 (add32 h (big_sigma1 e)) (add32 (ch e f g) kw.1)) kw.2 in
      let t2 := add32 (big_sigma0 a) (maj a b c) in
      [add32 t1 t2; a; b; c; add32 d t1; e; f; g]
  | _ => s
  end.

(** The message schedule, [n] words after the 16 of [w]. *)
Fixpoint schedule (n : nat) (w : list Z) : list Z :=
  match n with
  | O => w
  | S n =>
      match w with
      | w0 :: w1 :: _ =>
          let t := add32 (add32 (small_sigma1 (nth 14 w 0)) (nth 9 w 0))
                         (add32 (small_sigma0 w1) w0) in
          w0 :: schedule n (tail w ++ [t])
      | _ => w
      end
  end.

Definition compress (h block : list Z) : list Z :=
  zip_with add32 h (foldl round h (zip round_constants (schedule 48 block))).

Fixpoint to_words (bytes : list Z) : list Z :=
  match bytes with
  | a :: b :: c :: d :: l => (a * 16777216 + b * 65536 + c * 256 + d) :: to_words l
  | _ => []
  end.

(** Blocks of 16 words. *)
Fixpoint hash_blocks (fuel : nat) (h words : list Z) : list Z :=
  match fuel, words with
  | S fuel, _ :: _ => hash_blocks fuel (compress h (take 16 words)) (drop 16 words)
  | _, _ => h
  end.

Definition be_bytes (n : nat) (x : Z) : list Z :=
  map (λ i, Z.land (Z.shiftr x (8 * Z.of_nat i)) 255) (rev (seq 0 n)).

(** A one bit, zeros up to 56 bytes modulo 64, the length in bits on 8 bytes. *)
Definition pad (bytes : list Z) : list Z :=
  let n := Z.of_nat (length bytes) in
  bytes ++ 128 :: repeat 0 (Z.to_nat ((55 - n) mod 64)) ++ be_bytes 8 (8 * n).

Definition hex_of (x : Z) : string :=
  foldr (λ b s, String (hex_digit (Z.to_nat (b / 16))) (String (hex_digit (Z.to_nat (b mod 16))) s))
    EmptyString (be_bytes 4 x).

Definition sha256 (s : string) : string :=
  let words := to_words (pad (map (λ c, Z.of_nat (Ascii.nat_of_ascii c))
                                (String.list_ascii_of_string s))) in
  String.concat "" (map hex_of (hash_blocks (length words) initial_hash words)).

#[local] Instance sha256_alg : HashAlg := sha256.

(** The standard's test vectors. *)
Example sha256_empty : sha256 "" =
  "e3b0c44298fc1c149afbf4c8996fb92427ae41e4649b934ca495991b7852b855".
Proof. reflexivity. Qed.

Example sha256_abc : sha256 "abc" =
  "ba7816bf8f01cfea414140de5dae2223b00361a396177a9cb410ff61f20015ad".
Proof. reflexivity. Qed.
End Sha256.

(** A digest that needs no computation, for the witnesses. *)
Definition constant_alg : HashAlg := λ _, "00".

(** Two different texts with the same digest. *)
Definition collision `{HashAlg} (s t : string) : Prop := s ≠ t ∧ hexdigest s = hexdigest t.
