(* ===== verification/PyTime.v ===== *)
(** * [datetime.fromisoformat] and [datetime.isoformat]

    The instants of the program: the clock readings it writes with [isoformat] and the
    timestamps it reads back with [fromisoformat] to compare them. The grammar is the one of
    Python 3.10, the oldest version the project supports. *)

From S2P Require Import Prelude PyVal.
From stdpp Require Import options.
Local Open Scope Z_scope.

(** A [datetime]: its fields, microseconds, and the offset of its time zone in
    microseconds ([None] for a naive one). *)
Record datetime := DateTime {
  year : Z; month : Z; day : Z;
  hour : Z; minute : Z; second : Z; microsecond : Z;
  utcoffset : option Z
}.

#[export] Instance datetime_eq_dec : EqDecision datetime.
Proof. solve_decision. Defined.

(** ** The calendar *)
Definition is_leap (y : Z) : bool :=
  (y mod 4 =? 0) && (negb (y mod 100 =? 0) || (y mod 400 =? 0)).
Definition days_in_month (y m : Z) : Z :=
  if m =? 2 then if is_leap y then 29 else 28
  else if (m =? 4) || (m =? 6) || (m =? 9) || (m =? 11) then 30 else 31.
Definition days_before_year (y : Z) : Z :=
  let y := y - 1 in y * 365 + y / 4 - y / 100 + y / 400.
Definition days_before_month (y m : Z) : Z :=
  foldl Z.add 0 (map (λ i, days_in_month y (Z.of_nat i)) (seq 1 (Z.to_nat (m - 1)))).
(** [date.toordinal] *)
Definition toordinal (y m d : Z) : Z := days_before_year y + days_before_month y m + d.

(** The ranges the constructors of [date] and [datetime] accept. *)
Definition valid_date (y m d : Z) : bool :=
  (1 <=? y) && (y <=? 9999) && (1 <=? m) && (m <=? 12) && (1 <=? d) && (d <=? days_in_month y m).
Definition valid_time (h mi s us : Z) : bool :=
  (0 <=? h) && (h <? 24) && (0 <=? mi) && (mi <? 60) && (0 <=? s) && (s <? 60) &&
  (0 <=? us) && (us <? 1000000).
Definition valid_datetime (t : datetime) : bool :=
  valid_date (year t) (month t) (day t) &&
  valid_time (hour t) (minute t) (second t) (microsecond t).

(** Microseconds since the first day of year 1, local to the time zone. *)
Definition local_micros (t : datetime) : Z :=
  ((toordinal (year t) (month t) (day t) * 24 + hour t) * 60 + minute t) * 60000000 +
  second t * 1000000 + microsecond t.

(** [t < u]: two aware datetimes compare as instants, two naive ones as local times, and a
    naive one does not compare with an aware one. *)
Definition datetime_lt (t u : datetime) : result bool :=
  match utcoffset t, utcoffset u with
  | Some o, Some p => Ok (local_micros t - o <? local_micros u - p)
  | None, None => Ok (local_micros t <? local_micros u)
  | _, _ => raise TypeError "can't compare offset-naive and offset-aware datetimes"
  end.

(** ** Decimal fields *)
Definition digit (z : Z) : ascii := Ascii.ascii_of_nat (48 + Z.to_nat z).
Definition is_digit (c : ascii) : bool :=
  let n := Ascii.nat_of_ascii c in ((48 <=? n) && (n <=? 57))%nat.
Definition digit_val (c : ascii) : Z := Z.of_nat (Ascii.nat_of_ascii c) - 48.

(** [z] on exactly [w] digits, before [k]. *)
Fixpoint pad_app (w : nat) (z : Z) (k : string) : string :=
  match w with
  | O => k
  | S w => pad_app w (z / 10) (String (digit (z mod 10)) k)
  end.

Fixpoint parse_digits (w : nat) (acc : Z) (s : string) : option (Z * string) :=
  match w, s with
  | O, _ => Some (acc, s)
  | S w, String c s => if is_digit c then parse_digits w (acc * 10 + digit_val c) s else None
  | S _, EmptyString => None
  end.
Definition digits (w : nat) (s : string) : option (Z * string) := parse_digits w 0 s.

(** The character [c], then the rest. *)
Definition expect (c : ascii) (s : string) : option string :=
  match s with
  | String d s => if Ascii.eqb c d then Some s else None
  | EmptyString => None
  end.

Definition head_is (c : ascii) (s : string) : bool :=
  match s with String d _ => Ascii.eqb c d | EmptyString => false end.

(** ** Reading *)
Definition parse_date (s : string) : option (Z * Z * Z * string) :=
  '(y, s) ← digits 4 s; s ← expect "-" s;
  '(m, s) ← digits 2 s; s ← expect "-" s;
  '(d, s) ← digits 2 s;
  Some (y, m, d, s).

(** [HH[:MM[:SS[.fff[fff]]]]]; [short] allows three digits of fraction. *)
Definition parse_fraction (short : bool) (s : string) : option (Z * string) :=
  match digits 6 s with
  | Some r => Some r
  | None => if short then '(f, s) ← digits 3 s; Some (f * 1000, s) else None
  end.
Definition parse_clock (short : bool) (s : string) : option (Z * Z * Z * Z * string) :=
  '(h, s) ← digits 2 s;
  match expect ":" s with
  | None => Some (h, 0, 0, 0, s)
  | Some s =>
      '(mi, s) ← digits 2 s;
      match expect ":" s with
      | None => Some (h, mi, 0, 0, s)
      | Some s =>
          '(sec, s) ← digits 2 s;
          match expect "." s with
          | None => Some (h, mi, sec, 0, s)
          | Some s => '(us, s) ← parse_fraction short s; Some (h, mi, sec, us, s)
          end
      end
  end.

(** [(+|-)HH:MM[:SS[.ffffff]]], the whole rest of the text; an offset is under 24 hours. *)
Definition parse_offset (s : string) : option (option Z) :=
  match s with
  | EmptyString => Some None
  | String c s =>
      sign ← (if Ascii.eqb c "+" then Some 1 else if Ascii.eqb c "-" then Some (-1) else None);
      '(h, rest) ← digits 2 s;
      _ ← expect ":" rest;
      '(h, mi, sec, us, s) ← parse_clock false s;
      if (s =? "")%string then
        let o := ((h * 60 + mi) * 60 + sec) * 1000000 + us in
        if o <? 86400000000 then Some (Some (sign * o)) else None
      else None
  end.

(** The rest after one code point, the separator of date and time. *)
Fixpoint skip_continuation (s : string) : string :=
  match s with
  | String c s' => if is_continuation c then skip_continuation s' else s
  | EmptyString => s
  end.

Definition parse_datetime (s : string) : option datetime :=
  '(y, m, d, s) ← parse_date s;
  '(h, mi, sec, us, o) ←
    match s with
    | EmptyString => Some (0, 0, 0, 0, None)
    | String _ s =>
        '(h, mi, sec, us, s) ← parse_clock true (skip_continuation s);
        o ← parse_offset s;
        Some (h, mi, sec, us, o)
    end;
  let t := DateTime y m d h mi sec us o in
  if valid_datetime t then Some t else None.

Definition fromisoformat (s : string) : result datetime :=
  or_raise (parse_datetime s) ValueError "Invalid isoformat string".

(** [date.fromisoformat(s)], as an ordinal. *)
Definition date_fromisoformat (s : string) : result Z :=
  or_raise ('(y, m, d, s) ← parse_date s;
            if (s =? "")%string && valid_date y m d then Some (toordinal y m d) else None)
    ValueError "Invalid isoformat string".

(** [s.replace("Z", "+00:00")] *)
Fixpoint replace_Z (s : string) : string :=
  match s with
  | EmptyString => EmptyString
  | String c s => if Ascii.eqb c "Z" then "+00:00" +:+ replace_Z s else String c (replace_Z s)
  end.

(** ** Printing *)
Definition offset_app (o : Z) : string :=
  let sign := if o <? 0 then "-" else "+" in
  let o := Z.abs o in
  let s := o / 1000000 in
  sign +:+ pad_app 2 (s / 3600) (String ":" (pad_app 2 (s / 60 mod 60)
    (if (s mod 60 =? 0) && (o mod 1000000 =? 0) then ""
     else String ":" (pad_app 2 (s mod 60)
       (if o mod 1000000 =? 0 then "" else String "." (pad_app 6 (o mod 1000000) "")))))).
Definition isoformat (t : datetime) : string :=
  let zone := match utcoffset t with None => "" | Some o => offset_app o end in
  pad_app 4 (year t) (String "-" (pad_app 2 (month t) (String "-" (pad_app 2 (day t)
    (String "T" (pad_app 2 (hour t) (String ":" (pad_app 2 (minute t) (String ":"
      (pad_app 2 (second t)
        (if microsecond t =? 0 then zone
         else String "." (pad_app 6 (microsecond t) zone)))))))))))).

(** ** Round trip *)
Lemma is_digit_digit z : 0 <= z < 10 → is_digit (digit z) = true ∧ digit_val (digit z) = z.
Proof.
  intros Hz. assert (z = 0 ∨ z = 1 ∨ z = 2 ∨ z = 3 ∨ z = 4 ∨ z = 5 ∨ z = 6 ∨ z = 7 ∨ z = 8 ∨ z = 9)
    as Hc by lia.
  by repeat destruct Hc as [->|Hc]; [..|subst].
Qed.

Lemma parse_digits_add w1 w2 acc s :
  parse_digits (w1 + w2) acc s =
    '(z, s) ← parse_digits w1 acc s; parse_digits w2 z s.
Proof.
  revert acc s. induction w1 as [|w1 IH]; intros acc s; cbn; [done|].
  destruct s as [|c s]; [done|]. by destruct (is_digit c).
Qed.

Lemma parse_digits_pad w acc z k :
  0 <= z < 10 ^ Z.of_nat w →
  parse_digits w acc (pad_app w z k) = Some (acc * 10 ^ Z.of_nat w + z, k).
Proof.
  revert z k. induction w as [|w IH]; intros z k Hz.
  - cbn. do 2 f_equal. cbn in Hz. lia.
  - rewrite Nat2Z.inj_succ, Z.pow_succ_r in * by lia.
    replace (S w) with (w + 1)%nat at 1 by lia. rewrite parse_digits_add. cbn [pad_app].
    pose proof (Z.mod_pos_bound z 10).
    rewrite IH by (split; [apply Z.div_pos|apply Z.div_lt_upper_bound]; lia).
    destruct (is_digit_digit (z mod 10)) as [Hd Hv]; [lia|].
    cbn. rewrite Hd, Hv. do 2 f_equal. pose proof (Z.div_mod z 10). lia.
Qed.

Lemma digits_pad w z k : 0 <= z < 10 ^ Z.of_nat w → digits w (pad_app w z k) = Some (z, k).
Proof. intros Hz. unfold digits. rewrite parse_digits_pad by done. do 2 f_equal. Qed.

Lemma expect_cons c s : expect c (String c s) = Some s.
Proof. cbn. by rewrite Ascii.eqb_refl. Qed.

Lemma days_in_month_le y m : days_in_month y m <= 31.
Proof. unfold days_in_month. repeat case_match; lia. Qed.

Lemma parse_date_print y m d k :
  valid_date y m d = true →
  parse_date (pad_app 4 y (String "-" (pad_app 2 m (String "-" (pad_app 2 d k))))) =
    Some (y, m, d, k).
Proof.
  unfold valid_date. intros Hv. rewrite !andb_true_iff, !Z.leb_le in Hv.
  pose proof (days_in_month_le y m).
  unfold parse_date. rewrite digits_pad by lia. cbn [mbind option_bind].
  rewrite expect_cons. cbn [mbind option_bind]. rewrite digits_pad by lia.
  cbn [mbind option_bind]. rewrite expect_cons. cbn [mbind option_bind].
  rewrite digits_pad by lia. done.
Qed.

(** Writing an instant of the clock and reading it back is the identity: every timestamp the
    program writes is one it can compare. *)
Lemma fromisoformat_isoformat t :
  valid_datetime t = true → utcoffset t = None ∨ utcoffset t = Some 0 →
  fromisoformat (isoformat t) = Ok t.
Proof.
  intros Hv Ho. unfold fromisoformat, isoformat, parse_datetime.
  pose proof Hv as Hv'. unfold valid_datetime in Hv'. apply andb_true_iff in Hv' as [Hd Ht].
  rewrite parse_date_print by done. cbn [mbind option_bind].
  unfold valid_time in Ht. rewrite !andb_true_iff, !Z.leb_le, !Z.ltb_lt in Ht.
  set (zone := match utcoffset t with None => "" | Some o => offset_app o end).
  assert (expect "." zone = None ∧ parse_offset zone = Some (utcoffset t)) as [Hz Hp].
  { subst zone. destruct Ho as [E|E]; rewrite E; done. }
  match goal with |- context [skip_continuation ?s] => assert (skip_continuation s = s) as -> end.
  { cbn [pad_app skip_continuation].
    destruct (is_digit_digit (hour t / 10 mod 10)) as [H _]; [apply Z.mod_pos_bound; lia|].
    unfold is_continuation. unfold is_digit in H.
    destruct (Nat.leb_spec 128 (Ascii.nat_of_ascii (digit (hour t / 10 mod 10)))); [|done].
    apply andb_true_iff in H as [_ H%Nat.leb_le]. lia. }
  assert (parse_clock true (pad_app 2 (hour t) (String ":" (pad_app 2 (minute t) (String ":"
      (pad_app 2 (second t) (if microsecond t =? 0 then zone
         else String "." (pad_app 6 (microsecond t) zone))))))) =
    Some (hour t, minute t, second t, microsecond t, zone)) as ->.
  { unfold parse_clock. rewrite digits_pad by lia. cbn [mbind option_bind].
    rewrite expect_cons. rewrite digits_pad by lia. cbn [mbind option_bind].
    rewrite expect_cons. rewrite digits_pad by lia. cbn [mbind option_bind].
    destruct (Z.eqb_spec (microsecond t) 0) as [E|E]; [by rewrite Hz, E|].
    rewrite expect_cons. unfold parse_fraction. by rewrite digits_pad by lia. }
  cbn [mbind option_bind]. rewrite Hp. cbn [mbind option_bind].
  destruct t; cbn [year month day hour minute second microsecond utcoffset] in *.
  by rewrite Hv.
Qed.
