(* ===== verification/AuditChain.v ===== *)
(** * Audit events and their hash chain

    [audit.py]: the digest of a payload, the ledger an assessment writes its events to, and the
    chain of [previous_event_hash] links that the ledger, the evaluation and the transitions of
    a Decision File all extend. What the chain promises is [chain_determined]: its last
    digest fixes every event, or exhibits two texts with the same digest. *)

From S2P Require Import Prelude PyVal Json Sha256 PyTime.
From stdpp Require Import options.

(** ** The link between consecutive events *)

(** [e["previous_event_hash"]] of an event, [None] when it is missing. *)
Definition previous_hash_of (e : pyval) : pyval :=
  match e with
  | PDict d => default PNone (assoc "previous_event_hash" d)
  | _ => PNone
  end.

Section audit.
Context `{HashAlg}.

(** [audit.payload_hash] *)
Definition payload_hash (payload : pyval) : string :=
  "sha256:" +:+ hexdigest (canonical_json payload).

(** [payload_hash(previous) if previous else None] *)
Definition link (previous : option pyval) : pyval :=
  match previous with Some e => PStr (payload_hash e) | None => PNone end.

(** Every event links to the one before it, the first one to [previous]. *)
Fixpoint chained_from (previous : option pyval) (events : list pyval) : Prop :=
  match events with
  | [] => True
  | e :: events => previous_hash_of e = link previous ∧ chained_from (Some e) events
  end.
Definition chained (events : list pyval) : Prop := chained_from None events.

Lemma chained_from_app previous l m :
  chained_from previous (l ++ m) ↔
    chained_from previous l ∧ chained_from (match last l with Some e => Some e | None => previous end) m.
Proof.
  revert previous. induction l as [|e l IH]; intros previous; cbn; [naive_solver|].
  rewrite IH. destruct l as [|e' l]; cbn; [tauto|].
  assert (is_Some (last (e' :: l))) as [x ->] by by apply last_is_Some. tauto.
Qed.

Lemma chained_snoc l e :
  chained (l ++ [e]) ↔ chained l ∧ previous_hash_of e = link (last l).
Proof. unfold chained. rewrite chained_from_app. cbn. by destruct (last l); naive_solver. Qed.

Lemma payload_hash_equal v w :
  payload_hash v = payload_hash w → hexdigest (canonical_json v) = hexdigest (canonical_json w).
Proof. apply str_app_inj_l. Qed.

(** Two payloads with the same digest are the same, or their texts collide. *)
Lemma payload_hash_binding v w :
  wf_json v = true → wf_json w = true → payload_hash v = payload_hash w →
  normalize_keys v = normalize_keys w ∨ collision (canonical_json v) (canonical_json w).
Proof.
  intros Hv Hw E%payload_hash_equal.
  destruct (decide (canonical_json v = canonical_json w)) as [Ec|Ec]; [left|by right].
  by apply canonical_json_inj.
Qed.
End audit.

(** ** Sorting the keys does not change the lookups *)
Lemma assoc_insert_sorted {A} k (x : string * A) l :
  assoc k (insert_sorted key_leb x l) = if k =? x.1 then Some x.2 else assoc k l.
Proof.
  destruct x as [k' x]. induction l as [|[k2 y] l IH]; cbn [insert_sorted assoc fst snd]; [done|].
  unfold key_leb at 1. cbn [fst]. destruct (String.leb k' k2) eqn:E; cbn [assoc]; [done|].
  rewrite IH. cbn. destruct (k =? k2) eqn:E2; [|done].
  apply String.eqb_eq in E2 as ->. destruct (k2 =? k') eqn:E3; [|done].
  apply String.eqb_eq in E3 as ->. exfalso.
  destruct (String.leb_total k' k'); congruence.
Qed.

Lemma assoc_normalize k d :
  assoc k (py_sorted key_leb (map (λ kv, (kv.1, normalize_keys kv.2)) d)) =
    normalize_keys <$> assoc k d.
Proof.
  induction d as [|[k' x] d IH]; cbn; [done|].
  rewrite assoc_insert_sorted. cbn. by destruct (k =? k').
Qed.

Lemma normalize_previous v w :
  normalize_keys v = normalize_keys w →
  normalize_keys (previous_hash_of v) = normalize_keys (previous_hash_of w).
Proof.
  assert (∀ v, normalize_keys (previous_hash_of v) = previous_hash_of (normalize_keys v)) as Hp.
  { intros [| | | | | |d]; cbn; try done. rewrite assoc_normalize.
    by destruct (assoc _ d). }
  intros E. by rewrite !Hp, E.
Qed.

Section tamper_evidence.
Context `{HashAlg}.

(** Two chains ending with the same digest hold the same events up to the order of keys, or a
    position at which their events differ and their texts have the same digest. *)
Lemma chain_determined (l m : list pyval) (e f : pyval) :
  chained (l ++ [e]) → chained (m ++ [f]) →
  forallb wf_json (l ++ [e]) = true → forallb wf_json (m ++ [f]) = true →
  payload_hash e = payload_hash f →
  map normalize_keys (l ++ [e]) = map normalize_keys (m ++ [f]) ∨
  ∃ v w, v ∈ l ++ [e] ∧ w ∈ m ++ [f] ∧ collision (canonical_json v) (canonical_json w).
Proof.
  revert e m f. induction l as [|e' l IH] using rev_ind; intros e m f Hl Hm Wl Wm E;
    apply chained_snoc in Hl as [Hl He]; apply chained_snoc in Hm as [Hm Hf];
    rewrite forallb_app, andb_true_iff in Wl, Wm;
    destruct Wl as [Wl [We _]%andb_true_iff], Wm as [Wm [Wf _]%andb_true_iff];
    (destruct (payload_hash_binding e f We Wf E) as [En|Ec];
      [|right; exists e, f; set_solver]);
    pose proof (normalize_previous _ _ En) as Hp; rewrite He, Hf in Hp.
  - destruct m as [|f' m _] using rev_ind; [left; cbn; by rewrite En|].
    rewrite last_snoc in Hp. done.
  - rewrite last_snoc in Hp. destruct m as [|f' m _] using rev_ind; [done|].
    rewrite last_snoc in Hp.
    assert (payload_hash e' = payload_hash f') as E' by (cbn in Hp; congruence).
    destruct (IH e' m f') as [IH'|(v & w & Hv & Hw & Hc)];
      [done..|left|right; exists v, w; set_solver].
    rewrite (map_app _ (l ++ [e'])), (map_app _ (m ++ [f'])). cbn. by rewrite IH', En.
Qed.
End tamper_evidence.

(** ** The ledger of an assessment *)
Module AuditLedger.
(** The clock is the stream of its readings: the ledger reads it once per event. *)
Record AuditLedger := mkLedger {
  decision_id : string;
  now : nat → datetime;
  actor_ref : string;
  correlation_id : option string;
  _events : list pyval
}.

Section ledger.
Context `{HashAlg}.

(** [AuditLedger(decision_id=..., now=...)] *)
Definition new (decision_id : string) (now : nat → datetime) : AuditLedger :=
  mkLedger decision_id now "decision-assurance-engine" None [].

Definition event_of (l : AuditLedger) (event_type : string) (payload : pyval) : pyval :=
  let previous_hash := link (last_of (_events l)) in
  let sequence := S (length (_events l)) in
  PDict
    ([("event_id", PStr (decision_id l +:+ ":event:" +:+ pretty sequence));
      ("decision_id", PStr (decision_id l));
      ("event_type", PStr event_type);
      ("occurred_at", PStr (isoformat (now l (length (_events l)))));
      ("actor_ref", PStr (actor_ref l));
      ("payload_hash", PStr (payload_hash payload));
      ("previous_event_hash", previous_hash);
      ("version_refs", PList [PStr "das:0.1.0"; PStr "engine:0.1.0"])] ++
     match correlation_id l with
     | Some c => if c =? "" then [] else [("correlation_id", PStr c)]
     | None => []
     end).

(** [AuditLedger.append] *)
Definition append (l : AuditLedger) (event_type : string) (payload : pyval) : AuditLedger :=
  mkLedger (decision_id l) (now l) (actor_ref l) (correlation_id l)
    (_events l ++ [event_of l event_type payload]).

(** [AuditLedger.events] *)
Definition events (l : AuditLedger) : list pyval := _events l.

Lemma events_new d n : events (new d n) = [].
Proof. done. Qed.

Lemma events_append l t p : events (append l t p) = events l ++ [event_of l t p].
Proof. done. Qed.

Lemma previous_event_of l t p : previous_hash_of (event_of l t p) = link (last (events l)).
Proof. done. Qed.

Lemma append_chained l t p : chained (events l) → chained (events (append l t p)).
Proof. rewrite events_append, chained_snoc, previous_event_of. done. Qed.

Lemma wf_event_of l t p : wf_json (event_of l t p) = true.
Proof.
  unfold event_of. cbn. destruct (last_of _); cbn; destruct (correlation_id l) as [c|];
    cbn; try destruct (c =? ""); done.
Qed.

Lemma append_wf l t p :
  forallb wf_json (events l) = true → forallb wf_json (events (append l t p)) = true.
Proof. intros Hl. rewrite events_append, forallb_app, Hl. cbn [forallb]. by rewrite wf_event_of. Qed.

(** A run of [append] calls from a fresh ledger. *)
Definition run (d : string) (n : nat → datetime) (calls : list (string * pyval)) : AuditLedger :=
  foldl (λ l call, append l call.1 call.2) (new d n) calls.

Lemma run_snoc d n calls call :
  run d n (calls ++ [call]) = append (run d n calls) call.1 call.2.
Proof. unfold run. by rewrite foldl_app. Qed.

Lemma run_append d n calls t p : append (run d n calls) t p = run d n (calls ++ [(t, p)]).
Proof. by rewrite run_snoc. Qed.

Lemma run_chained d n calls :
  chained (events (run d n calls)) ∧ forallb wf_json (events (run d n calls)) = true ∧
  length (events (run d n calls)) = length calls.
Proof.
  induction calls as [|call calls IH] using rev_ind; [done|].
  rewrite run_snoc. destruct IH as (Hc & Hw & Hl). split_and!.
  - by apply append_chained.
  - by apply append_wf.
  - rewrite events_append, !length_app, Hl. done.
Qed.
End ledger.
End AuditLedger.

#[export] Hint Resolve AuditLedger.append_chained AuditLedger.append_wf : core.
