(* ===== verification/Engine.v ===== *)
(** * The governance engine

    [models.py], [adapters.py] and [engine.py]: the outcome of an assessment, computed
    fail-closed from the findings of one pass over the payload. Payloads are raw dictionaries:
    a part with the wrong shape raises the exception Python raises, so no outcome is produced. *)

From S2P Require Import Prelude PyVal Json Sha256 PyTime AuditChain.
From stdpp Require Import options.

(** ** [models.py] *)

Inductive Outcome := PASS | REVIEW | BLOCK.
Inductive Severity := SevBLOCK | SevREVIEW.

#[export] Instance Outcome_eq_dec : EqDecision Outcome.
Proof. solve_decision. Defined.
#[export] Instance Severity_eq_dec : EqDecision Severity.
Proof. solve_decision. Defined.

Definition outcome_value (o : Outcome) : string :=
  match o with PASS => "PASS" | REVIEW => "REVIEW" | BLOCK => "BLOCK" end.
Definition severity_value (s : Severity) : string :=
  match s with SevBLOCK => "BLOCK" | SevREVIEW => "REVIEW" end.

(** The order in which outcomes get stricter. *)
Definition outcome_rank (o : Outcome) : nat :=
  match o with PASS => 0 | REVIEW => 1 | BLOCK => 2 end.
Definition outcome_le (o p : Outcome) : Prop := outcome_rank o ≤ outcome_rank p.

Record Finding := mkFinding {
  finding_id : string;
  reason_code : pyval;
  severity : Severity;
  subject_ref : option string;
  detail : option string
}.

(** [Finding.as_dict] *)
Definition as_dict (f : Finding) : pyval :=
  PDict ([("finding_id", PStr (finding_id f));
          ("reason_code", reason_code f);
          ("severity", PStr (severity_value (severity f)))] ++
         match subject_ref f with Some s => [("subject_ref", PStr s)] | None => [] end ++
         match detail f with Some s => [("detail", PStr s)] | None => [] end).

Record AssessmentResult := mkResult {
  outcome : Outcome;
  reason_codes : list pyval;
  human_review : bool;
  findings : list Finding;
  report : pyval;
  audit_events : list pyval
}.

(** [AssessmentResult.benchmark_result] *)
Definition benchmark_result (r : AssessmentResult) : pyval :=
  PDict [("outcome", PStr (outcome_value (outcome r)));
         ("reason_codes", PList (reason_codes r));
         ("human_review", PBool (human_review r))].

(** ** [adapters.normalize] *)

Definition dict := list (string * pyval).

Definition dget (d : dict) (k : string) (dflt : pyval) : pyval := default dflt (assoc k d).

Definition normalize_native (payload : dict) : dict :=
  let n := assoc_setdefault "decision_id" (PStr "unidentified-decision") payload in
  let n := assoc_setdefault "evidence" (PList []) n in
  let n := assoc_setdefault "constraints" (PList []) n in
  let n := assoc_setdefault "policies" (PList []) n in
  let n := assoc_setdefault "actors" (PDict []) n in
  let n := assoc_setdefault "risk" (PDict []) n in
  let n := assoc_setdefault "conflicts" (PList []) n in
  let n := assoc_setdefault "mandatory_evidence_missing" (PBool false) n in
  assoc_setdefault "policy_version" (PStr "unspecified") n.

Definition normalize (payload : dict) : dict :=
  match assoc "input" payload with
  | Some (PDict data) =>
      [("decision_id", dget payload "id" (PStr "unidentified-decision"));
       ("claim", dget data "claim" (PStr ""));
       ("evidence", dget data "evidence" (PList []));
       ("constraints", dget data "constraints" (PList []));
       ("policies", dget data "policies" (PList []));
       ("actors", dget data "actors" (PDict []));
       ("risk", dget data "risk" (PDict []));
       ("conflicts", dget data "conflicts" (PList []));
       ("mandatory_evidence_missing", dget data "mandatory_evidence_missing" (PBool false));
       ("policy_version", dget payload "policy_version" (PStr "dats-0.1.0"))]
  | _ => normalize_native payload
  end.

(** ** [DecisionAssuranceEngine._validate] *)

(** A finding before it is numbered: its reason code, severity and subject. *)
Definition found : Type := pyval * Severity * pyval.

Definition when (b : bool) (f : found) : list found := if b then [f] else [].

Definition evidence_findings (evidence : pyval) : result (list found) :=
  id ← py_get evidence "id" PNone;
  ref ← py_get evidence "evidence_id" id;
  status ← py_get evidence "status" PNone;
  verifiable ← py_get evidence "verifiable" (PBool (negb (py_eq status (PStr "UNVERIFIED"))));
  fabricated ← py_get evidence "fabricated" (PBool false);
  outdated ← py_get evidence "outdated" (PBool (py_eq status (PStr "OUTDATED")));
  supports ← py_get evidence "supports_claim" (PBool true);
  contradicts ← py_get evidence "contradicts_claim" (PBool (py_eq status (PStr "CONFLICTING")));
  Ok (when (negb (truthy verifiable)) (PStr "EVIDENCE_UNVERIFIABLE", SevREVIEW, ref) ++
      when (truthy fabricated) (PStr "CITATION_FABRICATED", SevBLOCK, ref) ++
      when (truthy outdated) (PStr "EVIDENCE_OUTDATED", SevREVIEW, ref) ++
      when (negb (truthy supports)) (PStr "SOURCE_CLAIM_MISMATCH", SevREVIEW, ref) ++
      when (truthy contradicts) (PStr "EVIDENCE_CONFLICT", SevREVIEW, ref) ++
      when (py_eq status (PStr "UNAVAILABLE"))
        (PStr "MANDATORY_EVIDENCE_MISSING", SevREVIEW, ref)).

Definition missing_findings (data : pyval) : result (list found) :=
  missing ← py_item data "mandatory_evidence_missing";
  if truthy missing then
    risk ← py_item data "risk";
    high ← py_get risk "high_impact" (PBool false);
    Ok [(PStr "MANDATORY_EVIDENCE_MISSING", if truthy high then SevBLOCK else SevREVIEW, PNone)]
  else Ok [].

Definition constraint_findings (constraint : pyval) : result (list found) :=
  id ← py_get constraint "id" PNone;
  ref ← py_get constraint "constraint_id" id;
  sev ← py_get constraint "severity" PNone;
  hard ← py_get constraint "hard" (PBool (py_eq sev (PStr "MANDATORY")));
  satisfied ← py_get constraint "satisfied" (PBool true);
  if truthy hard && negb (truthy satisfied) then
    Ok [(PStr "HARD_CONSTRAINT_VIOLATION", SevBLOCK, ref)]
  else if py_eq sev (PStr "REVIEW_REQUIRED") && negb (truthy satisfied) then
    code ← py_get constraint "reason_code" (PStr "CONSTRAINT_REQUIRES_REVIEW");
    Ok [(code, SevREVIEW, ref)]
  else Ok [].

Definition policy_findings (policy : pyval) : result (list found) :=
  review ← py_get policy "requires_review" (PBool false);
  if truthy review then
    id ← py_get policy "id" PNone;
    ref ← py_get policy "policy_id" id;
    Ok [(PStr "POLICY_REQUIRES_REVIEW", SevREVIEW, ref)]
  else Ok [].

Definition actor_findings (actors : pyval) : result (list found) :=
  generator ← py_get actors "generator" PNone;
  if truthy generator then
    approver ← py_get actors "approver" PNone;
    generator ← py_item actors "generator";
    Ok (when (py_eq approver generator)
          (PStr "SEPARATION_OF_DUTIES_VIOLATION", SevBLOCK, generator))
  else Ok [].

Definition uncertainty_findings (risk : pyval) : result (list found) :=
  high ← py_get risk "high_impact" (PBool false);
  if truthy high then
    uncertain ← py_get risk "unresolved_uncertainty" (PBool false);
    Ok (when (truthy uncertain) (PStr "HIGH_IMPACT_UNCERTAINTY", SevREVIEW, PNone))
  else Ok [].

Definition conflict_findings (conflict : pyval) : result (list found) :=
  resolved ← py_get conflict "resolved" (PBool false);
  if truthy resolved then Ok [] else
    sev ← py_get conflict "severity" PNone;
    id ← py_get conflict "id" PNone;
    Ok (if py_eq sev (PStr "CRITICAL") then [(PStr "CRITICAL_CONFLICT_UNRESOLVED", SevBLOCK, id)]
        else [(PStr "CONFLICT_UNRESOLVED", SevREVIEW, id)]).

(** The loop [for item in data[key]]. *)
Definition each (data : pyval) (key : string) (f : pyval → result (list found)) :
    result (list found) :=
  v ← py_item data key; items ← py_iter v; concatM f items.

Definition all_found (data : pyval) : result (list found) :=
  evidence ← each data "evidence" evidence_findings;
  missing ← missing_findings data;
  constraints ← each data "constraints" constraint_findings;
  policies ← each data "policies" policy_findings;
  actors ← py_item data "actors";
  separation ← actor_findings actors;
  risk ← py_item data "risk";
  uncertainty ← uncertainty_findings risk;
  conflicts ← each data "conflicts" conflict_findings;
  Ok (evidence ++ missing ++ constraints ++ policies ++ separation ++ uncertainty ++ conflicts).

Definition number_finding (decision_id : pyval) (i : nat * found) : Finding :=
  let '(index, (code, sev, ref)) := i in
  mkFinding (py_str decision_id +:+ ":finding:" +:+ pretty index) code sev
    (if is_none ref then None else Some (py_str ref)) None.

Definition _validate (data : pyval) : result (list Finding) :=
  fs ← all_found data;
  id ← (if bool_decide (fs = []) then Ok PNone else py_item data "decision_id");
  Ok (map (number_finding id) (enumerate 1 fs)).

(** [DecisionAssuranceEngine._govern] *)
Definition _govern (fs : list Finding) : Outcome :=
  if existsb (λ f, bool_decide (severity f = SevBLOCK)) fs then BLOCK
  else match fs with [] => PASS | _ => REVIEW end.

(** ** [DecisionAssuranceEngine.assess] *)

(** [str(item.get("evidence_id", item.get("id")))] of the evidence that has an identifier. *)
Definition evidence_ref (item : pyval) : result (list pyval) :=
  id ← py_get item "id" PNone;
  ref ← py_get item "evidence_id" id;
  Ok (if is_none ref then [] else [PStr (py_str ref)]).

Section engine.
Context `{HashAlg}.
(** [self.clock], the stream of its readings, and [self.engine_version]. *)
Context (clock : nat → datetime) (engine_version : string).

Definition assess (payload : dict) : result AssessmentResult :=
  let data := PDict (normalize payload) in
  decision_id ← py_item data "decision_id";
  let decision_id := py_str decision_id in
  let ledger := AuditLedger.new decision_id clock in
  let ledger := AuditLedger.append ledger "decision.received" data in
  fs ← _validate data;
  evidence ← py_item data "evidence";
  let ledger := AuditLedger.append ledger "evidence.validated"
    (PDict [("evidence", evidence); ("valid", PBool (bool_decide (fs = [])))]) in
  let ledger := foldl (λ l f, AuditLedger.append l "finding.created" (as_dict f)) ledger fs in
  let outcome := _govern fs in
  codes ← (if bool_decide (fs = []) then Ok [PStr "ALL_REQUIRED_CHECKS_SATISFIED"]
           else py_fromkeys (map reason_code fs));
  let ledger := AuditLedger.append ledger "governance.decided"
    (PDict [("outcome", PStr (outcome_value outcome)); ("reason_codes", PList codes)]) in
  let review_ref := decision_id +:+ ":review:1" in
  let ledger :=
    if bool_decide (outcome = REVIEW) then
      AuditLedger.append ledger "review.requested"
        (PDict [("review_id", PStr review_ref); ("reason_codes", PList codes)])
    else ledger in
  items ← py_iter evidence;
  evidence_refs ← concatM evidence_ref items;
  policy ← py_item data "policy_version";
  let report := PDict
    [("report_id", PStr (decision_id +:+ ":report:1"));
     ("decision_id", PStr decision_id);
     ("outcome", PStr (outcome_value outcome));
     ("reason_codes", PList codes);
     ("finding_refs", PList (map (λ f, PStr (finding_id f)) fs));
     ("evidence_refs", PList evidence_refs);
     ("review_ref", if bool_decide (outcome = REVIEW) then PStr review_ref else PNone);
     ("audit_ref", PStr (decision_id +:+ ":audit"));
     ("created_at", PStr (isoformat (clock (length (AuditLedger.events ledger)))));
     ("limitations", PList []);
     ("versions", PDict [("das", PStr "0.1.0"); ("policy", PStr (py_str policy));
                         ("engine", PStr engine_version)])] in
  Ok (mkResult outcome codes (bool_decide (outcome = REVIEW)) fs report
        (AuditLedger.events ledger)).
End engine.

(** [engine.evaluate] *)
Definition evaluate `{HashAlg} (clock : nat → datetime) (payload : dict) : result pyval :=
  r ← assess clock "0.1.0" payload; Ok (benchmark_result r).
