(* ===== verification/EngineFacts.v ===== *)
(** * What the governance engine decides

    A declarative reading of a payload, [spec_outcome], and the facts that tie the engine's
    pass over the payload to it: which findings each part yields, and that a run either reads a
    well-shaped payload to the end or raises. *)

From S2P Require Import Prelude PyVal Json Sha256 PyTime AuditChain Engine.
From stdpp Require Import options.

(** ** Reading a payload without exceptions *)

Definition is_dict (v : pyval) : bool := match v with PDict _ => true | _ => false end.

Definition field (v : pyval) (k : string) (dflt : pyval) : pyval :=
  match v with PDict d => dget d k dflt | _ => dflt end.

(** The value the condition reads: its truth. *)
Definition holds (v : pyval) (k : string) (dflt : bool) : bool := truthy (field v k (PBool dflt)).

Definition elements (v : pyval) : list pyval :=
  match py_iter v with Ok l => l | Raise _ => [] end.

Lemma py_get_dict v k dflt : is_dict v = true → py_get v k dflt = Ok (field v k dflt).
Proof. by destruct v. Qed.

Lemma py_get_not_dict v k dflt : is_dict v = false → py_get v k dflt = raise AttributeError "get".
Proof. by destruct v. Qed.

(** ** The conditions *)

Definition has_status (e : pyval) (s : string) : bool := py_eq (field e "status" PNone) (PStr s).

Definition evidence_fabricated (e : pyval) : bool := holds e "fabricated" false.
Definition evidence_clear (e : pyval) : bool :=
  holds e "verifiable" (negb (has_status e "UNVERIFIED")) && negb (evidence_fabricated e) &&
  negb (holds e "outdated" (has_status e "OUTDATED")) && holds e "supports_claim" true &&
  negb (holds e "contradicts_claim" (has_status e "CONFLICTING")) &&
  negb (has_status e "UNAVAILABLE").

Definition severity_is (v : pyval) (s : string) : bool :=
  py_eq (field v "severity" PNone) (PStr s).
Definition constraint_violated (c : pyval) : bool :=
  holds c "hard" (severity_is c "MANDATORY") && negb (holds c "satisfied" true).
Definition constraint_open (c : pyval) : bool :=
  severity_is c "REVIEW_REQUIRED" && negb (holds c "satisfied" true).

Definition conflict_critical (c : pyval) : bool :=
  negb (holds c "resolved" false) && severity_is c "CRITICAL".

Definition self_approved (actors : pyval) : bool :=
  truthy (field actors "generator" PNone) &&
  py_eq (field actors "approver" PNone) (field actors "generator" PNone).

Definition uncertain (risk : pyval) : bool :=
  holds risk "high_impact" false && holds risk "unresolved_uncertainty" false.

Definition items (data : dict) (k : string) : list pyval := elements (dget data k PNone).

(** What blocks a decision. *)
Definition blocking (data : dict) : bool :=
  existsb evidence_fabricated (items data "evidence") ||
  (truthy (dget data "mandatory_evidence_missing" PNone) &&
   holds (dget data "risk" PNone) "high_impact" false) ||
  existsb constraint_violated (items data "constraints") ||
  self_approved (dget data "actors" PNone) ||
  existsb conflict_critical (items data "conflicts").

(** What a decision needs to pass. *)
Definition all_clear (data : dict) : bool :=
  forallb evidence_clear (items data "evidence") &&
  negb (truthy (dget data "mandatory_evidence_missing" PNone)) &&
  forallb (λ c, negb (constraint_violated c) && negb (constraint_open c)) (items data "constraints") &&
  forallb (λ p, negb (holds p "requires_review" false)) (items data "policies") &&
  negb (self_approved (dget data "actors" PNone)) &&
  negb (uncertain (dget data "risk" PNone)) &&
  forallb (λ c, holds c "resolved" false) (items data "conflicts").

Definition spec_outcome (data : dict) : Outcome :=
  if blocking data then BLOCK else if all_clear data then PASS else REVIEW.

(** The payloads the engine reads to the end. *)
Definition iterates_dicts (v : pyval) : bool :=
  is_ok (py_iter v) && forallb is_dict (elements v).
Definition codes_hashable (c : pyval) : bool :=
  constraint_violated c || negb (constraint_open c) ||
  hashable (field c "reason_code" (PStr "CONSTRAINT_REQUIRES_REVIEW")).
Definition well_shaped (data : dict) : bool :=
  iterates_dicts (dget data "evidence" PNone) && iterates_dicts (dget data "constraints" PNone) &&
  iterates_dicts (dget data "policies" PNone) && iterates_dicts (dget data "conflicts" PNone) &&
  is_dict (dget data "actors" PNone) && is_dict (dget data "risk" PNone) &&
  forallb codes_hashable (items data "constraints").

(** The keys [normalize] always provides. *)
Definition required_keys : list string :=
  ["decision_id"; "evidence"; "constraints"; "policies"; "actors"; "risk"; "conflicts";
   "mandatory_evidence_missing"; "policy_version"].

Lemma assoc_setdefault_is_Some {A} k k' (x : A) d :
  is_Some (assoc k d) → is_Some (assoc k (assoc_setdefault k' x d)).
Proof.
  intros H. destruct (decide (k = k')) as [->|Hne].
  - by rewrite assoc_setdefault_eq.
  - by rewrite assoc_setdefault_ne.
Qed.

Lemma assoc_setdefault_new {A} k (x : A) d : is_Some (assoc k (assoc_setdefault k x d)).
Proof. by rewrite assoc_setdefault_eq. Qed.

Lemma normalize_complete payload k :
  k ∈ required_keys → assoc k (normalize payload) = Some (dget (normalize payload) k PNone).
Proof.
  intros Hk. assert (is_Some (assoc k (normalize payload))) as [x Hx].
  { unfold normalize. destruct (assoc "input" payload) as [[]|] eqn:E;
      unfold required_keys in Hk;
      repeat (apply elem_of_cons in Hk as [->|Hk]); try by apply elem_of_nil in Hk.
    all: try (by eexists).
    all: unfold normalize_native;
      repeat first [apply assoc_setdefault_new | apply assoc_setdefault_is_Some]. }
  unfold dget. by rewrite Hx.
Qed.

(** ** One part at a time *)

(** A part's findings: it has one that blocks exactly when [blk], none exactly when [clr], and
    their reason codes are all hashable exactly when [hsh]. *)
Definition decides (l : list found) (blk clr hsh : bool) : Prop :=
  existsb (λ f : found, bool_decide (f.1.2 = SevBLOCK)) l = blk ∧ bool_decide (l = []) = clr ∧
  forallb (λ f : found, hashable f.1.1) l = hsh.

(** The findings [f] yields for a dictionary, and its failure on anything else. *)
Definition reads (f : pyval → result (list found)) (blk clr hsh : pyval → bool) : Prop :=
  ∀ v, if is_dict v then ∃ l, f v = Ok l ∧ decides l (blk v) (clr v) (hsh v)
       else ∃ e, f v = Raise e.

Lemma not_dict_raises v k dflt {A} (g : pyval → result A) :
  is_dict v = false → ∃ e, (py_get v k dflt ≫= g) = Raise e.
Proof. intros H. rewrite py_get_not_dict by done. cbn. eauto. Qed.

Ltac part_start v Hv :=
  intros v; destruct (is_dict v) eqn:Hv;
  [rewrite !py_get_dict by done; cbn [mbind result_bind]|by apply not_dict_raises].

Lemma evidence_reads : reads evidence_findings evidence_fabricated evidence_clear (λ _, true).
Proof.
  unfold evidence_findings. part_start v Hv.
  repeat (rewrite py_get_dict by done; cbn [mbind result_bind]).
  eexists; split; [reflexivity|]. unfold decides, evidence_clear, evidence_fabricated, holds, has_status.
  repeat match goal with |- context [truthy ?x] => destruct (truthy x) end;
    destruct (py_eq (field v "status" PNone) (PStr "UNAVAILABLE")); done.
Qed.

Lemma constraint_reads :
  reads constraint_findings constraint_violated
    (λ c, negb (constraint_violated c) && negb (constraint_open c)) codes_hashable.
Proof.
  unfold constraint_findings. part_start v Hv. unfold codes_hashable.
  repeat (rewrite py_get_dict by done; cbn [mbind result_bind]).
  unfold constraint_violated, constraint_open, severity_is, holds.
  destruct (truthy (field v "hard" _)), (truthy (field v "satisfied" _)), (py_eq _ (PStr "REVIEW_REQUIRED"));
    cbn; repeat (rewrite py_get_dict by done; cbn [mbind result_bind]);
    eexists; (split; [reflexivity|]); unfold decides; cbn; by rewrite ?andb_true_r.
Qed.

Lemma policy_reads :
  reads policy_findings (λ _, false) (λ p, negb (holds p "requires_review" false)) (λ _, true).
Proof.
  unfold policy_findings. part_start v Hv.
  unfold holds. destruct (truthy (field v "requires_review" _));
    repeat (rewrite py_get_dict by done; cbn [mbind result_bind]);
    eexists; (split; [reflexivity|]); done.
Qed.

Lemma conflict_reads :
  reads conflict_findings conflict_critical (λ c, holds c "resolved" false) (λ _, true).
Proof.
  unfold conflict_findings. part_start v Hv.
  unfold conflict_critical, severity_is, holds. destruct (truthy (field v "resolved" _)); cbn;
    repeat (rewrite py_get_dict by done; cbn [mbind result_bind]);
    [eexists; split; [reflexivity|done]|].
  destruct (py_eq _ _); eexists; (split; [reflexivity|]); done.
Qed.

Lemma actor_reads : reads actor_findings self_approved (λ a, negb (self_approved a)) (λ _, true).
Proof.
  unfold actor_findings. part_start v Hv. unfold self_approved.
  destruct (truthy (field v "generator" PNone)) eqn:Eg; [|eexists; split; [reflexivity|done]].
  assert (py_item v "generator" = Ok (field v "generator" PNone)) as ->.
  { destruct v as [| | | | | |d]; try done. cbn in *. unfold dget in *.
    by destruct (assoc "generator" d). }
  cbn [mbind result_bind]. eexists; split; [reflexivity|].
  by destruct (py_eq _ _).
Qed.

Lemma uncertainty_reads : reads uncertainty_findings (λ _, false) (λ r, negb (uncertain r)) (λ _, true).
Proof.
  unfold uncertainty_findings. part_start v Hv. unfold uncertain, holds.
  destruct (truthy (field v "high_impact" _)); cbn; [|eexists; split; [reflexivity|done]].
  eexists; split; [reflexivity|]. by destruct (truthy _).
Qed.

(** ** The parts together *)

Lemma decides_app l m b c h b' c' h' :
  decides l b c h → decides m b' c' h' → decides (l ++ m) (b || b') (c && c') (h && h').
Proof.
  unfold decides. intros (<- & <- & <-) (<- & <- & <-). rewrite existsb_app, forallb_app.
  split_and!; [done| |done]. by destruct l.
Qed.

Lemma concat_reads f blk clr hsh l :
  reads f blk clr hsh →
  if forallb is_dict l then
    ∃ fs, concatM f l = Ok fs ∧ decides fs (existsb blk l) (forallb clr l) (forallb hsh l)
  else ∃ e, concatM f l = Raise e.
Proof.
  intros Hf. induction l as [|x l IH]; cbn; [by eexists|].
  specialize (Hf x). destruct (is_dict x); cbn.
  - destruct Hf as (fs & -> & Hd). cbn. destruct (forallb is_dict l).
    + destruct IH as (gs & -> & Hd'). cbn. eexists; split; [reflexivity|].
      by apply decides_app.
    + destruct IH as [e ->]. cbn. eauto.
  - destruct Hf as [e ->]. cbn. eauto.
Qed.

Lemma forallb_const_true {A} (l : list A) : forallb (λ _, true) l = true.
Proof. by induction l. Qed.

Lemma existsb_const_false {A} (l : list A) : existsb (λ _, false) l = false.
Proof. by induction l. Qed.

(** [assoc k] finds [dget _ k]: the key is there. *)
Definition has (data : dict) (k : string) : Prop := assoc k data = Some (dget data k PNone).

Lemma item_has data k : has data k → py_item (PDict data) k = Ok (dget data k PNone).
Proof. intros H. unfold py_item. by rewrite H. Qed.

Lemma each_reads data k f blk clr hsh :
  reads f blk clr hsh → has data k →
  if iterates_dicts (dget data k PNone) then
    ∃ fs, each (PDict data) k f = Ok fs ∧
      decides fs (existsb blk (items data k)) (forallb clr (items data k))
        (forallb hsh (items data k))
  else ∃ e, each (PDict data) k f = Raise e.
Proof.
  intros Hf Hk. unfold each, items, iterates_dicts, elements. rewrite item_has by done. cbn.
  destruct (py_iter (dget data k PNone)) as [l|e]; cbn; [|eauto].
  by apply concat_reads.
Qed.

Lemma missing_reads data :
  has data "mandatory_evidence_missing" → has data "risk" →
  let missing := truthy (dget data "mandatory_evidence_missing" PNone) in
  if negb missing || is_dict (dget data "risk" PNone) then
    ∃ fs, missing_findings (PDict data) = Ok fs ∧
      decides fs (missing && holds (dget data "risk" PNone) "high_impact" false) (negb missing) true
  else ∃ e, missing_findings (PDict data) = Raise e.
Proof.
  intros Hm Hr missing. unfold missing_findings. rewrite !item_has by done.
  cbn [mbind result_bind]. fold missing. destruct missing; cbn [negb orb]; [|by eexists].
  destruct (is_dict _) eqn:Hd; [|by apply not_dict_raises].
  rewrite py_get_dict by done. cbn. eexists; split; [reflexivity|].
  unfold holds. by destruct (truthy _).
Qed.

(** The shape of the parts, without the reason codes. *)
Definition parts_shaped (data : dict) : bool :=
  iterates_dicts (dget data "evidence" PNone) && iterates_dicts (dget data "constraints" PNone) &&
  iterates_dicts (dget data "policies" PNone) && iterates_dicts (dget data "conflicts" PNone) &&
  is_dict (dget data "actors" PNone) && is_dict (dget data "risk" PNone).

Ltac run_part H :=
  match type of H with
  | if ?b then _ else _ =>
      destruct b eqn:?;
      [let fs := fresh "fs" in let E := fresh "E" in let D := fresh "D" in
       destruct H as (fs & E & D); rewrite E; cbn [mbind result_bind]
      |let e := fresh "e" in let E := fresh "E" in
       destruct H as [e E]; rewrite E; cbn [mbind result_bind]]
  end.

Lemma all_found_spec payload :
  let data := normalize payload in
  if parts_shaped data then
    ∃ fs, all_found (PDict data) = Ok fs ∧
      decides fs (blocking data) (all_clear data) (forallb codes_hashable (items data "constraints"))
  else ∃ e, all_found (PDict data) = Raise e.
Proof.
  intros data.
  assert (∀ k, k ∈ required_keys → has data k) as Hk by by apply normalize_complete.
  assert (∀ k, str_in k required_keys = true → has data k) as Hin
    by (intros k Hin; apply Hk; by apply str_in_spec).
  pose proof (each_reads data "evidence" _ _ _ _ evidence_reads (Hin "evidence" eq_refl)) as He.
  pose proof (missing_reads data (Hin "mandatory_evidence_missing" eq_refl) (Hin "risk" eq_refl)) as Hm.
  pose proof (each_reads data "constraints" _ _ _ _ constraint_reads (Hin "constraints" eq_refl)) as Hc.
  pose proof (each_reads data "policies" _ _ _ _ policy_reads (Hin "policies" eq_refl)) as Hp.
  pose proof (each_reads data "conflicts" _ _ _ _ conflict_reads (Hin "conflicts" eq_refl)) as Hf.
  pose proof (actor_reads (dget data "actors" PNone)) as Ha.
  pose proof (uncertainty_reads (dget data "risk" PNone)) as Hu.
  unfold all_found, parts_shaped. cbn zeta in Hm. rewrite !item_has by (by apply Hin).
  run_part He; [|cbn; eauto].
  run_part Hm; [|bool_prop; destruct Heqb0 as [? ->]; rewrite !andb_false_r; eauto].
  run_part Hc; [|cbn; eauto]. run_part Hp; [|cbn; eauto].
  run_part Ha; [|rewrite ?andb_false_r; cbn; eauto].
  run_part Hu; [|rewrite ?andb_false_r; cbn; eauto].
  run_part Hf; [|cbn; eauto].
  cbn. eexists; split; [reflexivity|].
  pose proof (decides_app _ _ _ _ _ _ _ _ D (decides_app _ _ _ _ _ _ _ _ D0
    (decides_app _ _ _ _ _ _ _ _ D1 (decides_app _ _ _ _ _ _ _ _ D2
    (decides_app _ _ _ _ _ _ _ _ D3 (decides_app _ _ _ _ _ _ _ _ D4 D5)))))) as Dall.
  rewrite !existsb_const_false, !forallb_const_true in Dall.
  unfold blocking, all_clear. rewrite !andb_true_l, !andb_true_r, !orb_false_l in Dall.
  by rewrite <-!orb_assoc, <-!andb_assoc.
Qed.

(** ** The whole assessment *)

Lemma py_fromkeys_from_ok seen l : is_ok (py_fromkeys_from seen l) = forallb hashable l.
Proof.
  revert seen. induction l as [|x l IH]; intros seen; cbn; [done|].
  destruct (hashable x); cbn; [|done]. destruct (existsb _ _); [apply IH|].
  rewrite <-(IH (x :: seen)). by destruct (py_fromkeys_from (x :: seen) l).
Qed.

Lemma is_ok_Ok {A} (m : result A) : is_ok m = true → ∃ a, m = Ok a.
Proof. destruct m; [eauto|done]. Qed.

Lemma is_ok_Raise {A} (m : result A) : is_ok m = false → ∃ e, m = Raise e.
Proof. destruct m; [done|eauto]. Qed.

Lemma evidence_refs_Ok l : forallb is_dict l = true → ∃ refs, concatM evidence_ref l = Ok refs.
Proof.
  intros Hl. exists (concat (map (λ v,
    let ref := field v "evidence_id" (field v "id" PNone) in
    if is_none ref then [] else [PStr (py_str ref)]) l)).
  apply concatM_total. intros x Hx.
  rewrite forallb_true_Forall, Forall_forall in Hl. unfold evidence_ref.
  specialize (Hl x Hx). rewrite py_get_dict by done. cbn [mbind result_bind].
  by rewrite py_get_dict by done.
Qed.

Lemma number_findings_severity id i fs :
  existsb (λ f, bool_decide (severity f = SevBLOCK)) (map (number_finding id) (enumerate i fs)) =
  existsb (λ f : found, bool_decide (f.1.2 = SevBLOCK)) fs.
Proof.
  revert i. induction fs as [|[[c s] r] fs IH]; intros i; cbn; [done|]. by rewrite IH.
Qed.

Lemma number_findings_codes id i fs :
  map reason_code (map (number_finding id) (enumerate i fs)) = map (λ f : found, f.1.1) fs.
Proof.
  revert i. induction fs as [|[[c s] r] fs IH]; intros i; cbn; [done|]. by rewrite IH.
Qed.

Lemma number_findings_nil id i fs :
  bool_decide (map (number_finding id) (enumerate i fs) = []) = bool_decide (fs = []).
Proof. by destruct fs as [|[[c s] r] fs]. Qed.

Lemma forallb_map {A B} (f : B → bool) (g : A → B) l :
  forallb f (map g l) = forallb (λ x, f (g x)) l.
Proof. induction l; cbn; congruence. Qed.

Lemma govern_decides fs b c h id :
  decides fs b c h →
  _govern (map (number_finding id) (enumerate 1 fs)) = if b then BLOCK else if c then PASS else REVIEW.
Proof.
  intros (<- & <- & _). unfold _govern. rewrite number_findings_severity.
  destruct (existsb _ fs); [done|]. destruct fs as [|[[co s] r] fs]; [done|].
  by rewrite bool_decide_false by done.
Qed.

Lemma validate_spec payload :
  let data := normalize payload in
  if parts_shaped data then
    ∃ fs, _validate (PDict data) = Ok fs ∧ _govern fs = spec_outcome data ∧
      bool_decide (fs = []) = all_clear data ∧
      forallb (λ f, hashable (reason_code f)) fs = forallb codes_hashable (items data "constraints")
  else ∃ e, _validate (PDict data) = Raise e.
Proof.
  intros data. pose proof (all_found_spec payload) as Hspec. cbn zeta in Hspec. fold data in Hspec.
  unfold _validate. destruct (parts_shaped data).
  - destruct Hspec as (fs & -> & Hd). cbn [mbind result_bind].
    rewrite (item_has data "decision_id") by by apply normalize_complete, str_in_spec.
    set (id := if bool_decide (fs = []) then _ else _).
    assert (∃ i, id = Ok i) as [i ->] by (subst id; case_bool_decide; eauto).
    cbn [mbind result_bind]. eexists; split; [reflexivity|].
    rewrite (govern_decides _ _ _ _ _ Hd), number_findings_nil.
    destruct Hd as (_ & Hc & Hh). split_and!; [done|done|].
    rewrite <-Hh, <-(forallb_map hashable reason_code), number_findings_codes. apply forallb_map.
  - destruct Hspec as [e ->]. cbn. eauto.
Qed.

Section assess_facts.
Context `{HashAlg} (clock : nat → datetime) (version : string).

(** The payloads an assessment writes to its ledger, in order. *)
Definition assess_log (data : dict) (fs : list Finding) (codes : list pyval) :
    list (string * pyval) :=
  let id := py_str (dget data "decision_id" PNone) in
  [("decision.received", PDict data);
   ("evidence.validated", PDict [("evidence", dget data "evidence" PNone);
                                 ("valid", PBool (bool_decide (fs = [])))])] ++
  map (λ f, ("finding.created", as_dict f)) fs ++
  [("governance.decided", PDict [("outcome", PStr (outcome_value (_govern fs)));
                                 ("reason_codes", PList codes)])] ++
  (if bool_decide (_govern fs = REVIEW) then
     [("review.requested", PDict [("review_id", PStr (id +:+ ":review:1"));
                                  ("reason_codes", PList codes)])]
   else []).

Lemma foldl_append_run id calls fs :
  foldl (λ l f, AuditLedger.append l "finding.created" (as_dict f))
    (AuditLedger.run id clock calls) fs =
  AuditLedger.run id clock (calls ++ map (λ f, ("finding.created", as_dict f)) fs).
Proof.
  unfold AuditLedger.run. rewrite foldl_app.
  generalize (foldl (λ l call, AuditLedger.append l call.1 call.2) (AuditLedger.new id clock) calls).
  induction fs as [|f fs IH]; intros l; cbn; [done|]. apply IH.
Qed.

(** What a successful assessment is made of. *)
Lemma assess_inv payload r :
  assess clock version payload = Ok r →
  let data := normalize payload in
  let id := py_str (dget data "decision_id" PNone) in
  ∃ fs codes refs,
    _validate (PDict data) = Ok fs ∧
    (if bool_decide (fs = []) then codes = [PStr "ALL_REQUIRED_CHECKS_SATISFIED"]
     else py_fromkeys (map reason_code fs) = Ok codes) ∧
    audit_events r = AuditLedger.events (AuditLedger.run id clock (assess_log data fs codes)) ∧
    outcome r = _govern fs ∧ reason_codes r = codes ∧ findings r = fs ∧
    human_review r = bool_decide (_govern fs = REVIEW) ∧
    report r = PDict
      [("report_id", PStr (id +:+ ":report:1"));
       ("decision_id", PStr id);
       ("outcome", PStr (outcome_value (_govern fs)));
       ("reason_codes", PList codes);
       ("finding_refs", PList (map (λ f, PStr (finding_id f)) fs));
       ("evidence_refs", PList refs);
       ("review_ref", if bool_decide (_govern fs = REVIEW) then PStr (id +:+ ":review:1") else PNone);
       ("audit_ref", PStr (id +:+ ":audit"));
       ("created_at", PStr (isoformat (clock (length (audit_events r)))));
       ("limitations", PList []);
       ("versions", PDict [("das", PStr "0.1.0");
                           ("policy", PStr (py_str (dget data "policy_version" PNone)));
                           ("engine", PStr version)])].
Proof.
  intros Hr data id. unfold assess in Hr. fold data in Hr.
  rewrite !(item_has data) in Hr by by apply normalize_complete, str_in_spec.
  cbn [mbind result_bind] in Hr. fold id in Hr.
  apply bind_Ok in Hr as (fs & Hfs & Hr). apply bind_Ok in Hr as (codes & Hcodes & Hr).
  apply bind_Ok in Hr as (its & Hits & Hr). apply bind_Ok in Hr as (refs & Hrefs & Hr).
  injection Hr as <-. cbn [audit_events outcome reason_codes findings human_review report].
  exists fs, codes, refs.
  assert (∀ e, AuditLedger.append (AuditLedger.append (AuditLedger.new id clock)
    "decision.received" (PDict data)) "evidence.validated" e =
    AuditLedger.run id clock [("decision.received", PDict data); ("evidence.validated", e)])
    as Hrun by done.
  rewrite !Hrun, !foldl_append_run, !AuditLedger.run_append.
  split_and!; [done|by case_bool_decide; [injection Hcodes|]| |done..].
  unfold assess_log. fold id. destruct (bool_decide (_govern fs = REVIEW)).
  - by rewrite <-!app_assoc.
  - by rewrite app_nil_r, <-!app_assoc.
Qed.

(** The engine reads exactly the well-shaped payloads to the end, and their outcome is the
    specification's. *)
Lemma assess_spec payload :
  let data := normalize payload in
  if well_shaped data then
    ∃ r, assess clock version payload = Ok r ∧ outcome r = spec_outcome data
  else ∃ e, assess clock version payload = Raise e.
Proof.
  intros data. unfold assess. fold data.
  rewrite !(item_has data) by by apply normalize_complete, str_in_spec.
  cbn [mbind result_bind].
  pose proof (validate_spec payload) as Hv. cbn zeta in Hv. fold data in Hv.
  assert (well_shaped data = parts_shaped data && forallb codes_hashable (items data "constraints"))
    as -> by done.
  destruct (parts_shaped data) eqn:Hp; cbn [andb].
  2: { destruct Hv as [e ->]. cbn. eauto. }
  destruct Hv as (fs & -> & Hg & _ & Hh). cbn [mbind result_bind]. rewrite <-Hh.
  assert (if forallb (λ f, hashable (reason_code f)) fs then
     ∃ codes, (if bool_decide (fs = []) then Ok [PStr "ALL_REQUIRED_CHECKS_SATISFIED"]
               else py_fromkeys (map reason_code fs)) = Ok codes
   else ∃ e, (if bool_decide (fs = []) then Ok [PStr "ALL_REQUIRED_CHECKS_SATISFIED"]
               else py_fromkeys (map reason_code fs)) = Raise e) as Hcodes.
  { rewrite <-(forallb_map hashable reason_code), <-(py_fromkeys_from_ok []).
    destruct fs as [|f fs]; cbn [bool_decide]; [by eexists|].
    rewrite bool_decide_false by done. unfold py_fromkeys.
    destruct (is_ok _) eqn:E; [by apply is_ok_Ok|by apply is_ok_Raise]. }
  destruct (forallb _ fs).
  2: { destruct Hcodes as [e ->]. cbn. eauto. }
  destruct Hcodes as [codes ->]. cbn [mbind result_bind].
  unfold parts_shaped, iterates_dicts in Hp. rewrite !andb_true_iff in Hp.
  destruct Hp as ((((([Hi Hd] & _) & _) & _) & _) & _).
  apply is_ok_Ok in Hi as [its Hits]. unfold elements in Hd. rewrite Hits in *.
  cbn [mbind result_bind]. destruct (evidence_refs_Ok its Hd) as [refs ->].
  cbn [mbind result_bind]. eexists; split; [reflexivity|]. done.
Qed.
End assess_facts.
