(* ===== verification/EngineProps.v ===== *)
(** * Properties of the governance engine

    The outcome of an assessment is exactly the declarative one, it only gets stricter as issues
    are added, its report agrees with it, and its audit trail is complete and chained. *)

From S2P Require Import Prelude PyVal Json Sha256 PyTime AuditChain Engine EngineFacts.
From stdpp Require Import options.

(** A clock that stands still, for the witnesses. *)
Definition noon : datetime := DateTime 2026 1 2 12 0 0 0 (Some 0%Z).
Definition fixed_clock : nat → datetime := λ _, noon.

(** ** The outcome *)

Lemma clear_not_blocking data : all_clear data = true → blocking data = false.
Proof.
  assert (∀ A (f g : A → bool) l, (∀ x, f x = true → g x = false) →
    forallb f l = true → existsb g l = false) as Himp.
  { intros A f g l Hfg. rewrite forallb_true_Forall, existsb_false_Forall.
    intros Hl. by eapply Forall_impl. }
  unfold all_clear, blocking. rewrite !andb_true_iff, !negb_true_iff.
  intros ((((((He & Hm) & Hc) & _) & Ha) & _) & Hf).
  rewrite (Himp _ evidence_clear _ _) by (done || (intros x; unfold evidence_clear; rewrite !andb_true_iff, !negb_true_iff; tauto)).
  rewrite Hm, Ha.
  rewrite (Himp _ _ constraint_violated _ (λ x Hx, proj1 (negb_true_iff _) (proj1 (proj1 (andb_true_iff _ _) Hx))) Hc).
  rewrite (Himp _ (λ c, holds c "resolved" false) conflict_critical); [done| |done].
  intros x Hx. unfold conflict_critical. by rewrite Hx.
Qed.


(** The second payload states every issue the first one states. *)
Definition adds_issues (d1 d2 : dict) : Prop :=
  (∀ k, k ∈ ["evidence"; "constraints"; "policies"; "conflicts"] → items d1 k ⊆ items d2 k) ∧
  dget d1 "actors" PNone = dget d2 "actors" PNone ∧
  dget d1 "risk" PNone = dget d2 "risk" PNone ∧
  (truthy (dget d1 "mandatory_evidence_missing" PNone) = true →
   truthy (dget d2 "mandatory_evidence_missing" PNone) = true).

Lemma existsb_subset {A} (f : A → bool) l m :
  l ⊆ m → existsb f l = true → existsb f m = true.
Proof. rewrite !existsb_true_Exists, !Exists_exists. set_solver. Qed.

Lemma forallb_subset {A} (f : A → bool) l m :
  l ⊆ m → forallb f m = true → forallb f l = true.
Proof. rewrite !forallb_true_Forall, !Forall_forall. set_solver. Qed.

Lemma blocking_monotone d1 d2 : adds_issues d1 d2 → blocking d1 = true → blocking d2 = true.
Proof.
  intros (Hk & Ha & Hr & Hm). unfold blocking. rewrite Ha, Hr, !orb_true_iff, !andb_true_iff.
  pose proof (existsb_subset evidence_fabricated _ _ (Hk "evidence" ltac:(set_solver))).
  pose proof (existsb_subset constraint_violated _ _ (Hk "constraints" ltac:(set_solver))).
  pose proof (existsb_subset conflict_critical _ _ (Hk "conflicts" ltac:(set_solver))).
  tauto.
Qed.

Lemma all_clear_antitone d1 d2 : adds_issues d1 d2 → all_clear d2 = true → all_clear d1 = true.
Proof.
  intros (Hk & Ha & Hr & Hm). unfold all_clear. rewrite Ha, Hr, !andb_true_iff, !negb_true_iff.
  intros ((((((He & Hmiss) & Hc) & Hp) & Hs) & Hu) & Hf).
  assert (∀ k f, k ∈ ["evidence"; "constraints"; "policies"; "conflicts"] →
    forallb f (items d2 k) = true → forallb f (items d1 k) = true) as Hsub
    by (intros k f Hin; by apply forallb_subset, Hk).
  split_and!; try done; try (apply Hsub; [set_solver|done]).
  destruct (truthy (dget d1 "mandatory_evidence_missing" PNone)); [|done].
  by rewrite Hm in Hmiss.
Qed.

(** No laundering of issues: adding evidence, constraints, policies or conflicts to a
    payload, or declaring mandatory evidence missing, never makes the outcome laxer. *)
Theorem assess_monotone `{HashAlg} clock1 clock2 version p1 p2 r1 r2 :
  assess clock1 version p1 = Ok r1 → assess clock2 version p2 = Ok r2 →
  adds_issues (normalize p1) (normalize p2) →
  outcome_le (outcome r1) (outcome r2).
Proof.
  intros H1 H2 Hadd.
  pose proof (assess_spec clock1 version p1) as S1. pose proof (assess_spec clock2 version p2) as S2.
  cbn zeta in S1, S2.
  destruct (well_shaped (normalize p1)); [|destruct S1; congruence].
  destruct (well_shaped (normalize p2)); [|destruct S2; congruence].
  destruct S1 as (r1' & E1 & O1), S2 as (r2' & E2 & O2).
  rewrite H1 in E1. rewrite H2 in E2. injection E1 as <-. injection E2 as <-.
  unfold outcome_le. rewrite O1, O2. unfold spec_outcome.
  pose proof (blocking_monotone _ _ Hadd) as Hb.
  pose proof (all_clear_antitone _ _ Hadd) as Hc.
  destruct (blocking (normalize p1)); [by rewrite Hb by done|].
  destruct (blocking (normalize p2)); [destruct (all_clear (normalize p1)); cbn; lia|].
  destruct (all_clear (normalize p2)); [by rewrite Hc by done|].
  destruct (all_clear (normalize p1)); cbn; lia.
Qed.

Definition clean_case : dict :=
  [("decision_id", PStr "d1");
   ("evidence", PList [PDict [("id", PStr "e1"); ("status", PStr "VERIFIED")]])].
Definition stale_case : dict :=
  [("decision_id", PStr "d1");
   ("evidence", PList [PDict [("id", PStr "e1"); ("status", PStr "VERIFIED")];
                       PDict [("id", PStr "e2"); ("status", PStr "OUTDATED")]])].

Definition run_or {A} (d : A) (m : result A) : A := match m with Ok a => a | Raise _ => d end.
Definition no_result : AssessmentResult := mkResult BLOCK [] false [] PNone [].
Definition result_of (p : dict) : AssessmentResult :=
  run_or no_result (assess (H := constant_alg) fixed_clock "0.1.0" p).

Lemma assess_monotone_witness :
  outcome (result_of clean_case) = PASS ∧ outcome (result_of stale_case) = REVIEW ∧
  outcome_le (outcome (result_of clean_case)) (outcome (result_of stale_case)).
Proof.
  split_and!; [reflexivity|reflexivity|].
  apply (assess_monotone (H := constant_alg) fixed_clock fixed_clock "0.1.0" clean_case stale_case);
    [reflexivity|reflexivity|].
  split_and!; [|reflexivity|reflexivity|done].
  intros k Hk. apply str_in_spec in Hk. cbn in Hk.
  destruct (k =? "evidence") eqn:E1; [apply String.eqb_eq in E1 as ->; cbn; set_solver|].
  destruct (k =? "constraints") eqn:E2; [apply String.eqb_eq in E2 as ->; done|].
  destruct (k =? "policies") eqn:E3; [apply String.eqb_eq in E3 as ->; done|].
  destruct (k =? "conflicts") eqn:E4; [apply String.eqb_eq in E4 as ->; done|done].
Defined.

(** ** The report *)

Lemma number_findings_ids id i fs :
  map finding_id (map (number_finding id) (enumerate i fs)) =
  map (λ n, py_str id +:+ ":finding:" +:+ pretty n) (seq i (length fs)).
Proof. revert i. induction fs as [|[[c s] r] fs IH]; intros i; cbn; [done|]. by rewrite IH. Qed.

Lemma validate_ids data fs : _validate data = Ok fs → NoDup (map finding_id fs).
Proof.
  unfold _validate. intros H. apply bind_Ok in H as (fo & _ & H).
  apply bind_Ok in H as (id & _ & [= <-]). rewrite number_findings_ids.
  apply (NoDup_fmap_2 (λ n, py_str id +:+ ":finding:" +:+ pretty n)), NoDup_seq.
Qed.

Lemma govern_pass fs : _govern fs = PASS ↔ fs = [].
Proof.
  unfold _govern. destruct (existsb _ fs) eqn:E; [|by destruct fs].
  split; [done|]. by intros ->.
Qed.

(** The item of a report. *)
Definition report_item (r : AssessmentResult) (k : string) : pyval := field (report r) k PNone.

(** The result, its report and its flags say the same thing: human review is requested
    exactly for REVIEW (with a review reference), a passing result carries no finding and the
    code ALL_REQUIRED_CHECKS_SATISFIED, any other result carries numbered, pairwise distinct
    findings, every reason code of the result is one of theirs, and the report lists them. *)
Theorem assess_report_consistent `{HashAlg} clock version payload r :
  assess clock version payload = Ok r →
  (human_review r = true ↔ outcome r = REVIEW) ∧
  (outcome r = PASS ↔ findings r = []) ∧
  (outcome r = PASS → reason_codes r = [PStr "ALL_REQUIRED_CHECKS_SATISFIED"]) ∧
  (outcome r ≠ PASS → reason_codes r ≠ [] ∧
     ∀ c, c ∈ reason_codes r → c ∈ map reason_code (findings r)) ∧
  NoDup (map finding_id (findings r)) ∧
  report_item r "outcome" = PStr (outcome_value (outcome r)) ∧
  report_item r "reason_codes" = PList (reason_codes r) ∧
  report_item r "finding_refs" = PList (map (λ f, PStr (finding_id f)) (findings r)) ∧
  (report_item r "review_ref" ≠ PNone ↔ outcome r = REVIEW).
Proof.
  intros Hr. apply assess_inv in Hr as (fs & codes & refs & Hv & Hc & _ & Ho & -> & -> & Hh & Hrep).
  unfold report_item. rewrite Hrep, Ho, Hh. cbn. rewrite govern_pass, bool_decide_eq_true.
  split_and!; try done.
  - intros ->. by cbn in Hc.
  - intros Hne. rewrite bool_decide_false in Hc by done. split.
    + intros ->. apply py_fromkeys_nil_inv in Hc. by destruct fs.
    + intros c Hin. by eapply py_fromkeys_subset.
  - by eapply validate_ids.
  - case_bool_decide; naive_solver.
Qed.

Lemma assess_report_consistent_witness :
  human_review (result_of stale_case) = true ∧
  (human_review (result_of stale_case) = true ↔ outcome (result_of stale_case) = REVIEW) ∧
  report_item (result_of stale_case) "review_ref" = PStr "d1:review:1".
Proof.
  split; [reflexivity|]. split; [|reflexivity].
  apply (assess_report_consistent (H := constant_alg) fixed_clock "0.1.0" stale_case). reflexivity.
Defined.

(** ** The audit trail *)

(** The audit trail is complete and chained: one event for the payload received, one for
    the validation, one per finding in order, one for the decision and one for the review
    request of a REVIEW, each carrying the digest of what it records and of its predecessor. *)
Theorem assess_audit_trail `{HashAlg} clock version payload r :
  assess clock version payload = Ok r →
  chained (audit_events r) ∧
  map (λ e, field e "event_type" PNone) (audit_events r) =
    map PStr (["decision.received"; "evidence.validated"] ++
              map (λ _, "finding.created") (findings r) ++ ["governance.decided"] ++
              (if human_review r then ["review.requested"] else [])) ∧
  map (λ e, field e "payload_hash" PNone) (take (length (findings r)) (drop 2 (audit_events r))) =
    map (λ f, PStr (payload_hash (as_dict f))) (findings r).
Proof.
  intros Hr. apply assess_inv in Hr as (fs & codes & refs & Hv & Hc & -> & Ho & _ & -> & -> & _).
  set (id := py_str _). pose proof (AuditLedger.run_chained id clock
    (assess_log (normalize payload) fs codes)) as (Hch & _ & _).
  split; [done|].
  assert (∀ calls, map (λ e, field e "event_type" PNone)
      (AuditLedger.events (AuditLedger.run id clock calls)) = map (λ c, PStr c.1) calls ∧
    map (λ e, field e "payload_hash" PNone)
      (AuditLedger.events (AuditLedger.run id clock calls)) = map (λ c, PStr (payload_hash c.2)) calls)
    as Hrun.
  { induction calls as [|c calls [IH1 IH2]] using rev_ind; [done|].
    rewrite AuditLedger.run_snoc, AuditLedger.events_append, !map_app, IH1, IH2.
    by split; f_equal. }
  destruct (Hrun (assess_log (normalize payload) fs codes)) as [-> H2]. split.
  - unfold assess_log. cbn. rewrite !map_app. cbn. rewrite !map_map. cbn.
    by destruct (bool_decide (_govern fs = REVIEW)).
  - rewrite <-firstn_map, <-skipn_map, H2. unfold assess_log. cbn.
    rewrite drop_0, map_app, map_map. cbn.
    rewrite take_app_le by (by rewrite length_map). by rewrite take_ge by (by rewrite length_map).
Qed.

Lemma assess_audit_trail_witness :
  length (audit_events (result_of stale_case)) = 5 ∧
  @chained constant_alg (audit_events (result_of stale_case)).
Proof.
  split; [reflexivity|].
  apply (assess_audit_trail (H := constant_alg) fixed_clock "0.1.0" stale_case). reflexivity.
Defined.
