(* ===== verification/Document.v ===== *)
(** * The Decision File

    The record [schemas/decision-file.schema.json] describes (version 0.2.0), with the JSON it
    stands for. The parts of the file the program reads are fields; [parameters], the open part of
    an action, stays a Python value. The texts of enumerations stay strings: nothing but the
    contract validator restricts them. *)

From S2P Require Import Prelude PyVal Json Sha256 PyTime AuditChain.
From stdpp Require Import options.

(** [ContractValidator().validate(contract, instance)]: the JSON Schema validator of the
    jsonschema package, applied to a schema of the program. *)
Class ContractValidator := validate_contract : string → pyval → result unit.

Record Actor := mkActor { actor_id : string; actor_role : string; actor_kind : string }.

Record Claim := mkClaim { claim_id : string; statement : string; mandatory_evidence : bool }.

Record Evidence := mkEvidence {
  evidence_id : string; claim_refs : list string; source_ref : string; evidence_status : string;
  observed_at : option string; content_hash : option string
}.

Record Assumption := mkAssumption {
  assumption_id : string; assumption_statement : string; assumption_status : string
}.

Record Constraint := mkConstraint {
  constraint_id : string; constraint_severity : string; constraint_satisfied : bool;
  constraint_reason : string
}.

Record Policy := mkPolicy { policy_id : string; policy_version : string; requires_review : bool }.

Record Risk := mkRisk { risk_id : string; level : string; unresolved : bool }.

Record Conflict := mkConflict {
  conflict_id : string; conflict_severity : string; resolved : bool; description : option string
}.

Record Validation := mkValidation {
  validator : Actor; validation_result : string; validation_codes : list string;
  validated_at : string
}.

Record ReviewRequirement := mkRequirement {
  requirement_id : string; required_role : string; mandatory : bool; requirement_satisfied : bool
}.

Record CanonicalAction := mkAction {
  action_id : string; action_type : string; effect : string; target_type : string;
  target_id : string; parameters : list (string * pyval); reversibility_class : string;
  action_tenant : string; execution_context_hash : string; canonical_digest : string
}.

Record Approval := mkApproval {
  requirement_ref : string; approver : Actor; decision : string; decided_at : string;
  action_digest : option string; nonce : string; digest_of_approval : string
}.

Record AuditEvent := mkEvent {
  event_id : string; event_type : string; occurred_at : string; event_actor : Actor;
  from_status : option string; to_status : string; event_codes : list string;
  event_payload_hash : string; previous_event_hash : option string;
  event_tenant : option string; event_correlation : option string; source_channel : option string
}.

Record Document := mkDocument {
  schema_version : string; decision_id : string; title : string; doc_description : string;
  use_case : string; status : string; assurance_level : string;
  created_at : string; updated_at : string;
  created_by : Actor; requested_by : Actor; current_owner : Actor;
  canonical_action : option CanonicalAction;
  claims : list Claim; evidence : list Evidence; assumptions : list Assumption;
  constraints : list Constraint; policies : list Policy; risks : list Risk;
  conflicts : list Conflict; validation_results : list Validation;
  review_requirements : list ReviewRequirement; approvals : list Approval;
  decision_outcome : option string; outcome_reasons : list string;
  audit_events : list AuditEvent
}.

#[export] Instance Actor_eq_dec : EqDecision Actor.
Proof. solve_decision. Defined.
#[export] Instance Approval_eq_dec : EqDecision Approval.
Proof. solve_decision. Defined.

(** ** The JSON of each part *)

Definition opt_json (o : option string) : pyval :=
  match o with Some s => PStr s | None => PNone end.
Definition opt_field (k : string) (o : option string) : list (string * pyval) :=
  match o with Some s => [(k, PStr s)] | None => [] end.
Definition strs_json (l : list string) : pyval := PList (map PStr l).

Definition actor_json (a : Actor) : pyval :=
  PDict [("id", PStr (actor_id a)); ("role", PStr (actor_role a)); ("kind", PStr (actor_kind a))].

Definition claim_json (c : Claim) : pyval :=
  PDict [("id", PStr (claim_id c)); ("statement", PStr (statement c));
         ("mandatory_evidence", PBool (mandatory_evidence c))].

Definition evidence_json (e : Evidence) : pyval :=
  PDict ([("id", PStr (evidence_id e)); ("claim_refs", strs_json (claim_refs e));
          ("source_ref", PStr (source_ref e)); ("status", PStr (evidence_status e))] ++
         opt_field "observed_at" (observed_at e) ++ opt_field "content_hash" (content_hash e)).

Definition assumption_json (a : Assumption) : pyval :=
  PDict [("id", PStr (assumption_id a)); ("statement", PStr (assumption_statement a));
         ("status", PStr (assumption_status a))].

Definition constraint_json (c : Constraint) : pyval :=
  PDict [("id", PStr (constraint_id c)); ("severity", PStr (constraint_severity c));
         ("satisfied", PBool (constraint_satisfied c)); ("reason_code", PStr (constraint_reason c))].

Definition policy_json (p : Policy) : pyval :=
  PDict [("id", PStr (policy_id p)); ("version", PStr (policy_version p));
         ("requires_review", PBool (requires_review p))].

Definition risk_json (r : Risk) : pyval :=
  PDict [("id", PStr (risk_id r)); ("level", PStr (level r)); ("unresolved", PBool (unresolved r))].

Definition conflict_json (c : Conflict) : pyval :=
  PDict ([("id", PStr (conflict_id c)); ("severity", PStr (conflict_severity c));
          ("resolved", PBool (resolved c))] ++ opt_field "description" (description c)).

Definition validation_json (v : Validation) : pyval :=
  PDict [("validator", actor_json (validator v)); ("result", PStr (validation_result v));
         ("reason_codes", strs_json (validation_codes v)); ("validated_at", PStr (validated_at v))].

Definition requirement_json (r : ReviewRequirement) : pyval :=
  PDict [("id", PStr (requirement_id r)); ("required_role", PStr (required_role r));
         ("mandatory", PBool (mandatory r)); ("satisfied", PBool (requirement_satisfied r))].

(** The items of an action without its digest. *)
Definition action_items (a : CanonicalAction) : list (string * pyval) :=
  [("action_id", PStr (action_id a)); ("action_type", PStr (action_type a));
   ("effect", PStr (effect a));
   ("target", PDict [("type", PStr (target_type a)); ("id", PStr (target_id a))]);
   ("parameters", PDict (parameters a));
   ("reversibility_class", PStr (reversibility_class a));
   ("tenant_id", PStr (action_tenant a));
   ("execution_context_hash", PStr (execution_context_hash a))].
Definition action_json (a : CanonicalAction) : pyval :=
  PDict (action_items a ++ [("canonical_digest", PStr (canonical_digest a))]).

Definition approval_json (a : Approval) : pyval :=
  PDict [("requirement_ref", PStr (requirement_ref a)); ("approver", actor_json (approver a));
         ("decision", PStr (decision a)); ("decided_at", PStr (decided_at a));
         ("action_digest", opt_json (action_digest a)); ("nonce", PStr (nonce a));
         ("approval_digest", PStr (digest_of_approval a))].

Definition event_json (e : AuditEvent) : pyval :=
  PDict ([("event_id", PStr (event_id e)); ("event_type", PStr (event_type e));
          ("occurred_at", PStr (occurred_at e)); ("actor", actor_json (event_actor e));
          ("from_status", opt_json (from_status e)); ("to_status", PStr (to_status e));
          ("reason_codes", strs_json (event_codes e));
          ("payload_hash", PStr (event_payload_hash e));
          ("previous_event_hash", opt_json (previous_event_hash e))] ++
         opt_field "tenant_id" (event_tenant e) ++
         opt_field "correlation_id" (event_correlation e) ++
         opt_field "source_channel" (source_channel e)).

Definition document_json (d : Document) : pyval :=
  PDict [("schema_version", PStr (schema_version d)); ("decision_id", PStr (decision_id d));
         ("title", PStr (title d)); ("description", PStr (doc_description d));
         ("use_case", PStr (use_case d)); ("status", PStr (status d));
         ("assurance_level", PStr (assurance_level d)); ("created_at", PStr (created_at d));
         ("updated_at", PStr (updated_at d)); ("created_by", actor_json (created_by d));
         ("requested_by", actor_json (requested_by d));
         ("current_owner", actor_json (current_owner d));
         ("canonical_action",
            match canonical_action d with Some a => action_json a | None => PNone end);
         ("claims", PList (map claim_json (claims d)));
         ("evidence", PList (map evidence_json (evidence d)));
         ("assumptions", PList (map assumption_json (assumptions d)));
         ("constraints", PList (map constraint_json (constraints d)));
         ("policies", PList (map policy_json (policies d)));
         ("risks", PList (map risk_json (risks d)));
         ("conflicts", PList (map conflict_json (conflicts d)));
         ("validation_results", PList (map validation_json (validation_results d)));
         ("review_requirements", PList (map requirement_json (review_requirements d)));
         ("approvals", PList (map approval_json (approvals d)));
         ("decision_outcome", opt_json (decision_outcome d));
         ("outcome_reasons", strs_json (outcome_reasons d));
         ("audit_events", PList (map event_json (audit_events d)))].

(** ** The audit trail of a document *)
Section trail.
Context `{HashAlg}.

(** [payload_hash(previous) if previous else None] for [events[-1]]. *)
Definition previous_link (events : list AuditEvent) : option string :=
  payload_hash ∘ event_json <$> last_of events.

Definition trail_chained (events : list AuditEvent) : Prop := chained (map event_json events).

Lemma previous_hash_event e :
  previous_hash_of (event_json e) = opt_json (previous_event_hash e).
Proof. done. Qed.

Lemma trail_chained_snoc events e :
  trail_chained (events ++ [e]) ↔
    trail_chained events ∧ previous_event_hash e = previous_link events.
Proof.
  unfold trail_chained, previous_link, last_of. rewrite map_app. cbn.
  rewrite chained_snoc, previous_hash_event.
  assert (last (map event_json events) = event_json <$> last events) as ->.
  { symmetry. exact (eq_sym (fmap_last event_json events)). }
  destruct (last events), (previous_event_hash e); cbn; naive_solver.
Qed.
End trail.
