(* ===== verification/DecisionFile.v ===== *)
(** * Operations on Decision Files

    [decision_file.py]: the digests that bind an action and an approval to their content, the
    migration from the first schema version, the semantic rules the schema cannot express, and
    the evaluation of a file by the governance engine. *)

From S2P Require Import Prelude PyVal Json Sha256 PyTime AuditChain Engine Document.
From stdpp Require Import options.

(** The documents passed to [ContractValidator().validate("decision-file", ...)]. *)
Definition contract : string := "decision-file".

(** [sorted({...})] *)
Definition sorted_set (l : list string) : list string := py_sorted String.leb (fromkeys l).

Definition has_duplicates (l : list string) : bool :=
  negb (Nat.eqb (length l) (length (fromkeys l))).

(** [{item["id"]: item for item in l}.get(k)]: the last item with the identifier. *)
Definition last_by_id {A} (id : A → string) (k : string) (l : list A) : option A :=
  foldl (λ acc x, if id x =? k then Some x else acc) None l.

Section decision_file.
Context `{HashAlg} `{ContractValidator}.

(** ** Digests *)

Definition canonical_action_digest (action : CanonicalAction) : string :=
  payload_hash (PDict (action_items action)).

Definition bind_canonical_action (a : CanonicalAction) : CanonicalAction :=
  mkAction (action_id a) (action_type a) (effect a) (target_type a) (target_id a) (parameters a)
    (reversibility_class a) (action_tenant a) (execution_context_hash a)
    (canonical_action_digest a).

Definition approval_payload (document : Document) (approval : Approval) : pyval :=
  PDict [("decision_id", PStr (decision_id document));
         ("requested_by", actor_json (requested_by document));
         ("requirement_ref", PStr (requirement_ref approval));
         ("approver", actor_json (approver approval));
         ("decision", PStr (decision approval));
         ("decided_at", PStr (decided_at approval));
         ("action_digest", opt_json (action_digest approval));
         ("nonce", PStr (nonce approval))].
Definition approval_digest (document : Document) (approval : Approval) : string :=
  payload_hash (approval_payload document approval).

Definition bind_approval (document : Document) (a : Approval) : Approval :=
  mkApproval (requirement_ref a) (approver a) (decision a) (decided_at a) (action_digest a)
    (nonce a) (approval_digest document a).

(** ** Semantic validation *)

Definition find_requirement (document : Document) (ref : string) : option ReviewRequirement :=
  last_by_id requirement_id ref (review_requirements document).

Definition expected_action_digest (document : Document) : option string :=
  canonical_digest <$> canonical_action document.

Definition unknown_claims (document : Document) : list string :=
  sorted_set (filter (λ ref, ref ∉ map claim_id (claims document))
                (concat (map claim_refs (evidence document)))).

Definition unknown_requirements (document : Document) : list string :=
  sorted_set (filter (λ ref, ref ∉ map requirement_id (review_requirements document))
                (map requirement_ref (approvals document))).

Definition error_if (b : bool) (msg : string) : list string := if b then [msg] else [].

Definition action_errors (document : Document) (a : CanonicalAction) : list string :=
  error_if (negb (canonical_digest a =? canonical_action_digest a))
    "canonical_action digest does not match canonical content" ++
  error_if (negb (reversibility_class a =? "READ_ONLY") &&
            negb (existsb (λ r, mandatory r && (required_role r =? "APPROVER"))
                    (review_requirements document)))
    "non-read-only canonical_action requires a mandatory APPROVER review".

Definition approval_errors (document : Document) (a : Approval) : list string :=
  let prefix := "approval " +:+ requirement_ref a in
  error_if (match find_requirement document (requirement_ref a) with
            | Some r => negb (actor_role (approver a) =? required_role r)
            | None => false
            end) (prefix +:+ " approver role does not match requirement") ++
  error_if (negb (actor_kind (approver a) =? "HUMAN")) (prefix +:+ " requires a human approver") ++
  error_if (str_in (actor_id (approver a))
              [actor_id (created_by document); actor_id (requested_by document)])
    (prefix +:+ " violates actor independence") ++
  error_if (negb (bool_decide (action_digest a = expected_action_digest document)))
    (prefix +:+ " is not bound to canonical_action") ++
  error_if (negb (digest_of_approval a =? approval_digest document a))
    (prefix +:+ " digest does not match approval").

Definition time_disordered (document : Document) : result bool :=
  updated ← fromisoformat (replace_Z (updated_at document));
  created ← fromisoformat (replace_Z (created_at document));
  datetime_lt updated created.

Definition semantic_errors (document : Document) : result (list string) :=
  disordered ← time_disordered document;
  Ok (error_if disordered "updated_at must not be earlier than created_at" ++
      error_if (has_duplicates (map claim_id (claims document))) "claims contain duplicate ids" ++
      error_if (has_duplicates (map evidence_id (evidence document)))
        "evidence contains duplicate ids" ++
      error_if (negb (bool_decide (unknown_claims document = [])))
        ("evidence references unknown claims: " +:+ str_join ", " (unknown_claims document)) ++
      error_if (negb (bool_decide (unknown_requirements document = [])))
        ("approvals reference unknown requirements: " +:+
           str_join ", " (unknown_requirements document)) ++
      match canonical_action document with
      | Some a => action_errors document a
      | None => []
      end ++
      error_if (has_duplicates (map nonce (approvals document)))
        "approvals contain a reused nonce" ++
      error_if (negb (bool_decide (approvals document = [])) &&
                negb (str_in (status document) ["REVIEW"; "APPROVED"; "BLOCKED"]))
        "approvals are not allowed before REVIEW" ++
      concat (map (approval_errors document) (approvals document))).

Definition validate_semantics (document : Document) : result unit :=
  errors ← semantic_errors document;
  require (bool_decide (errors = [])) DecisionFileSemanticError (str_join "; " errors).

(** [ContractValidator().validate("decision-file", document)] *)
Definition validate_document (document : Document) : result unit :=
  validate_contract contract (document_json document).

Definition check_document (document : Document) : result unit :=
  _ ← validate_document document; validate_semantics document.

(** ** Evaluation *)

Definition engine_actor : Actor := mkActor "decision-assurance-engine" "VALIDATOR" "SERVICE".

(** [_actors] *)
Definition _actors (document : Document) : pyval :=
  PDict ([("generator", PStr (actor_id (created_by document)))] ++
         match last_of (approvals document) with
         | Some a => [("approver", PStr (actor_id (approver a)))]
         | None => []
         end).

Definition mandatory_missing (document : Document) : bool :=
  existsb (λ claim,
    mandatory_evidence claim &&
    negb (existsb (λ e, str_in (claim_id claim) (claim_refs e) &&
                        negb (str_in (evidence_status e) ["UNAVAILABLE"])) (evidence document)))
    (claims document).

Definition high_impact (document : Document) : bool :=
  existsb (λ r, str_in (level r) ["HIGH"; "CRITICAL"]) (risks document).

(** The request an evaluation puts to the engine. *)
Definition evaluation_request (document : Document) : dict :=
  let versions := str_join "," (map policy_version (policies document)) in
  [("decision_id", PStr (decision_id document));
   ("evidence", PList (map (λ e, PDict
      [("id", PStr (evidence_id e)); ("status", PStr (evidence_status e));
       ("fabricated", PBool (evidence_status e =? "FABRICATED"))]) (evidence document)));
   ("mandatory_evidence_missing", PBool (mandatory_missing document));
   ("constraints", PList (map constraint_json (constraints document)));
   ("policies", PList (map policy_json (policies document)));
   ("conflicts", PList (map conflict_json (conflicts document)));
   ("actors", _actors document);
   ("risk", PDict [("high_impact", PBool (high_impact document));
                   ("unresolved_uncertainty", PBool (existsb unresolved (risks document)))]);
   ("policy_version", PStr (if versions =? "" then "none" else versions))].

(** The text of a reason code; the codes of a document's evaluation are strings. *)
Definition code_text (v : pyval) : string := py_str v.

Definition report_created_at (r : AssessmentResult) : string :=
  match Engine.report r with
  | PDict d => match assoc "created_at" d with Some (PStr s) => s | _ => "" end
  | _ => ""
  end.

Definition record_evaluation (document : Document) (r : AssessmentResult) : Document :=
  let value := outcome_value (outcome r) in
  let codes := map code_text (reason_codes r) in
  let at_ := report_created_at r in
  let event := mkEvent
    (decision_id document +:+ ":evaluation:" +:+ pretty (S (length (audit_events document))))
    "decision.evaluated" at_ engine_actor (Some (status document)) (status document) codes
    (payload_hash (Engine.report r)) (previous_link (audit_events document)) None None None in
  mkDocument (schema_version document) (decision_id document) (title document)
    (doc_description document) (use_case document) (status document) (assurance_level document)
    (created_at document) at_ (created_by document) (requested_by document)
    (current_owner document) (canonical_action document) (claims document) (evidence document)
    (assumptions document) (constraints document) (policies document) (risks document)
    (conflicts document)
    (validation_results document ++ [mkValidation engine_actor value codes at_])
    (review_requirements document) (approvals document) (Some value) codes
    (audit_events document ++ [event]).

Definition evaluate_decision_file (clock : nat → datetime) (engine_version : string)
    (document : Document) : result (Document * AssessmentResult) :=
  _ ← validate_document document;
  _ ← validate_semantics document;
  r ← assess clock engine_version (evaluation_request document);
  let updated := record_evaluation document r in
  _ ← validate_document updated;
  Ok (updated, r).
End decision_file.

(** ** Migration *)

(** A file of schema version 0.1.0: the open dictionary it is read as. The migration adds the
    fields of version 0.2.0 and leaves the rest to the contract validator. *)
Definition migrate_v0_1_items (document : dict) : result dict :=
  _ ← require (py_eq (dget document "schema_version" PNone) (PStr "0.1.0"))
        DecisionFileSemanticError "migration requires schema_version 0.1.0";
  _ ← require (negb (truthy (dget document "approvals" PNone)))
        DecisionFileSemanticError "v0.1 approvals require independent re-approval";
  let migrated := assoc_set "schema_version" (PStr "0.2.0") document in
  created_by ← or_raise (assoc "created_by" migrated) KeyError "created_by";
  Ok (assoc_set "canonical_action" PNone (assoc_set "requested_by" created_by migrated)).

(** [migrate_decision_file_v0_1_to_v0_2], with [read] turning a dictionary the contract accepts
    into the record of its parts. *)
Definition migrate_decision_file_v0_1_to_v0_2 `{HashAlg} `{ContractValidator}
    (read : dict → result Document) (document : dict) : result Document :=
  items ← migrate_v0_1_items document;
  _ ← validate_contract contract (PDict items);
  migrated ← read items;
  _ ← validate_semantics migrated;
  Ok migrated.
