(* ===== verification/Samples.v ===== *)
(** * Concrete Decision Files

    The inputs at which the witnesses apply the theorems: a case in every status, an action
    with its digest, bound approvals, and validators that accept every instance. *)

From S2P Require Import Prelude PyVal Json Sha256 PyTime AuditChain Engine Document DecisionFile.
From stdpp Require Import options.

(** A contract validator that accepts everything. *)
Definition accept_all : ContractValidator := λ _ _, Ok tt.

Definition alice : Actor := mkActor "alice" "GENERATOR" "AGENT".
Definition vera : Actor := mkActor "vera" "VALIDATOR" "SERVICE".
Definition bob : Actor := mkActor "bob" "APPROVER" "HUMAN".
Definition mallory : Actor := mkActor "alice" "APPROVER" "HUMAN".

Definition sample_action : CanonicalAction :=
  bind_canonical_action (H := constant_alg)
    (mkAction "act-1" "payment" "pay" "invoice" "42" [("amount", PInt 10)] "IRREVERSIBLE" "t1" "h" "").

Definition approver_review : ReviewRequirement := mkRequirement "r1" "APPROVER" true true.

Definition clean_evidence : Evidence := mkEvidence "e1" ["c1"] "src" "VERIFIED" None None.

(** A case about the sample action, in the given status, with the given evidence, approvals,
    outcome and trail. *)
Definition sample_case (status : string) (ev : list Evidence) (aps : list Approval)
    (outcome : option string) (trail : list AuditEvent) : Document :=
  mkDocument "0.2.0" "d1" "t" "x" "u" status "BASIC" "2026-01-01T00:00:00Z" "2026-01-01T00:00:00Z"
    alice alice alice (Some sample_action) [mkClaim "c1" "s" true] ev [] [] [] [] []
    [] [approver_review] aps outcome [] trail.

Definition draft_case : Document := sample_case "DRAFT" [clean_evidence] [] (Some "PASS") [].
Definition fabricated_case : Document :=
  sample_case "DRAFT" [mkEvidence "e1" ["c1"] "src" "FABRICATED" None None] [] None [].

Definition sample_approval : Approval :=
  bind_approval (H := constant_alg) draft_case
    (mkApproval "r1" bob "APPROVE" "2026-01-01T00:00:00Z" (expected_action_digest draft_case) "n1" "").

Definition validation_event : AuditEvent :=
  mkEvent "d1:transition:1" "status.transitioned" "2026-01-01T00:00:00Z" vera (Some "DRAFT")
    "VALIDATION" ["TRANSITION_AUTHORIZED"] "h" None None None None.

Definition review_case : Document :=
  sample_case "REVIEW" [clean_evidence] [sample_approval] (Some "PASS") [validation_event].
