(* ===== verification/DecisionFileProps.v ===== *)
(** * Properties of Decision Files

    Digests bind what they are computed over, semantic validation is exactly its declarative
    rules, and an evaluation records the outcome the file's content determines without touching
    anything else. *)

From S2P Require Import Prelude PyVal Json Sha256 PyTime AuditChain Engine EngineFacts EngineProps Document DecisionFile Samples.
From stdpp Require Import options.

(** ** Generic facts *)

Lemma fromkeys_from_sublist {A} `{EqDecision A} (l seen : list A) :
  fromkeys_from seen l `sublist_of` l.
Proof.
  revert seen. induction l as [|x l IH]; intros seen; cbn; [constructor|].
  case_decide; by constructor.
Qed.

Lemma sublist_full {A} (l k : list A) : l `sublist_of` k → length k ≤ length l → l = k.
Proof.
  induction 1 as [|x l k _ IH|x l k Hs IH]; cbn; intros Hl; [done|f_equal; apply IH; lia|].
  apply sublist_length in Hs. lia.
Qed.

Lemma has_duplicates_false l : has_duplicates l = false ↔ NoDup l.
Proof.
  unfold has_duplicates. rewrite negb_false_iff, Nat.eqb_eq. split.
  - intros E. assert (fromkeys l = l) as <-; [|apply NoDup_fromkeys].
    apply sublist_full; [apply fromkeys_from_sublist|lia].
  - intros Hl. by rewrite fromkeys_NoDup_id.
Qed.

Lemma sorted_set_nil l : sorted_set l = [] ↔ l = [].
Proof.
  unfold sorted_set. split; [|by intros ->].
  intros E. apply fromkeys_nil_inv, Permutation_nil_r. fold (fromkeys l).
  rewrite <-(py_sorted_perm String.leb (fromkeys l)). by rewrite E.
Qed.

Lemma error_if_nil b msg : error_if b msg = [] ↔ b = false.
Proof. by destruct b. Qed.

Lemma app_nil_iff {A} (l m : list A) : l ++ m = [] ↔ l = [] ∧ m = [].
Proof. split; [apply app_nil|by intros [-> ->]]. Qed.

Lemma concat_map_nil {A B} (f : A → list B) l : concat (map f l) = [] ↔ ∀ x, x ∈ l → f x = [].
Proof.
  induction l as [|x l IH]; cbn; [set_solver|]. rewrite app_nil_iff, IH. set_solver.
Qed.

Lemma filter_nil_iff {A} (P : A → Prop) `{∀ x, Decision (P x)} l :
  filter P l = [] ↔ ∀ x, x ∈ l → ¬ P x.
Proof.
  induction l as [|x l IH]; [set_solver|]. rewrite filter_cons. case_decide; [|set_solver].
  split; [done|]. intros Hx. by destruct (Hx x); [left|].
Qed.

#[export] Hint Rewrite error_if_nil @app_nil_iff : booldec.

(** ** Semantic validation *)

Section semantics.
Context `{HashAlg}.

(** What an approval of a valid file is. *)
Definition approval_sound (d : Document) (a : Approval) : Prop :=
  (∀ r, find_requirement d (requirement_ref a) = Some r →
     actor_role (approver a) = required_role r) ∧
  actor_kind (approver a) = "HUMAN" ∧
  actor_id (approver a) ≠ actor_id (created_by d) ∧
  actor_id (approver a) ≠ actor_id (requested_by d) ∧
  action_digest a = expected_action_digest d ∧
  digest_of_approval a = approval_digest d a.

Definition action_sound (d : Document) (act : CanonicalAction) : Prop :=
  canonical_digest act = canonical_action_digest act ∧
  (reversibility_class act ≠ "READ_ONLY" →
   ∃ r, r ∈ review_requirements d ∧ mandatory r = true ∧ required_role r = "APPROVER").

(** The rules of a valid file, [time] apart. *)
Definition content_valid (d : Document) : Prop :=
  NoDup (map claim_id (claims d)) ∧ NoDup (map evidence_id (evidence d)) ∧
  (∀ e ref, e ∈ evidence d → ref ∈ claim_refs e → ref ∈ map claim_id (claims d)) ∧
  (∀ a, a ∈ approvals d → requirement_ref a ∈ map requirement_id (review_requirements d)) ∧
  (∀ act, canonical_action d = Some act → action_sound d act) ∧
  NoDup (map nonce (approvals d)) ∧
  (approvals d ≠ [] → status d ∈ ["REVIEW"; "APPROVED"; "BLOCKED"]) ∧
  (∀ a, a ∈ approvals d → approval_sound d a).

Definition semantically_valid (d : Document) : Prop :=
  time_disordered d = Ok false ∧ content_valid d.

Lemma unknown_claims_nil d :
  unknown_claims d = [] ↔
  ∀ e ref, e ∈ evidence d → ref ∈ claim_refs e → ref ∈ map claim_id (claims d).
Proof.
  unfold unknown_claims. rewrite sorted_set_nil, filter_nil_iff. split.
  - intros Hn e ref He Hr. destruct (decide (ref ∈ map claim_id (claims d))) as [|Hx]; [done|].
    exfalso. eapply Hn; [|exact Hx]. apply list_elem_of_In, in_concat.
    exists (claim_refs e). split; [apply in_map|]; by apply list_elem_of_In.
  - intros Hn ref Hr Hx. apply list_elem_of_In, in_concat in Hr as (l & Hl & Hin).
    apply in_map_iff in Hl as (e & <- & He). apply Hx, (Hn e); by apply list_elem_of_In.
Qed.

Lemma unknown_requirements_nil d :
  unknown_requirements d = [] ↔
  ∀ a, a ∈ approvals d → requirement_ref a ∈ map requirement_id (review_requirements d).
Proof.
  unfold unknown_requirements. rewrite sorted_set_nil, filter_nil_iff. split.
  - intros Hn a Ha. destruct (decide (requirement_ref a ∈ map requirement_id (review_requirements d)))
      as [|Hx]; [done|]. exfalso. eapply Hn; [|exact Hx]. by apply (list_elem_of_fmap_2 requirement_ref).
  - intros Hn ref (a & -> & Ha)%(list_elem_of_fmap_1 requirement_ref) Hx. by apply Hx, Hn.
Qed.

Lemma action_errors_nil d act : action_errors d act = [] ↔ action_sound d act.
Proof.
  unfold action_errors, action_sound. bool_prop.
  rewrite existsb_true_Exists, Exists_exists. setoid_rewrite andb_true_iff.
  setoid_rewrite String.eqb_eq.
  destruct (decide (reversibility_class act = "READ_ONLY")); naive_solver.
Qed.

Lemma approval_errors_nil d a : approval_errors d a = [] ↔ approval_sound d a.
Proof.
  unfold approval_errors, approval_sound. bool_prop.
  assert ((match find_requirement d (requirement_ref a) with
           | Some r => negb (actor_role (approver a) =? required_role r)
           | None => false
           end = false) ↔ ∀ r, find_requirement d (requirement_ref a) = Some r →
             actor_role (approver a) = required_role r) as ->.
  { destruct (find_requirement d _) as [r|]; [|naive_solver].
    rewrite negb_false_iff, String.eqb_eq. naive_solver. }
  rewrite !not_elem_of_cons. set_solver.
Qed.

Lemma validate_semantics_spec d :
  validate_semantics d = Ok tt ↔ semantically_valid d.
Proof.
  unfold validate_semantics, semantic_errors, semantically_valid, content_valid.
  destruct (time_disordered d) as [b|e]; cbn [mbind result_bind]; [|naive_solver].
  rewrite require_Ok, bool_decide_eq_true. bool_prop.
  rewrite !has_duplicates_false, concat_map_nil,
    unknown_claims_nil, unknown_requirements_nil.
  setoid_rewrite approval_errors_nil.
  assert ((match canonical_action d with Some a => action_errors d a | None => [] end = []) ↔
    ∀ act, canonical_action d = Some act → action_sound d act) as ->.
  { destruct (canonical_action d) as [act|]; [|naive_solver].
    rewrite action_errors_nil. naive_solver. }
  assert ((approvals d = [] ∨ status d ∈ ["REVIEW"; "APPROVED"; "BLOCKED"]) ↔
    (approvals d ≠ [] → status d ∈ ["REVIEW"; "APPROVED"; "BLOCKED"])) as ->
    by (destruct (decide (approvals d = [])); naive_solver).
  naive_solver.
Qed.
(** C6: semantic validation is exactly its declarative rules: it accepts a file if and only
    if the update does not precede the creation, claim ids, evidence ids and nonces are
    distinct, every reference resolves, the action's digest matches its content and an
    action that is not read-only has a mandatory APPROVER review, approvals exist only from
    REVIEW on, and every approval is by a human of the required role who neither created nor
    requested the case, bound to the action and to its own content. *)
Theorem validate_semantics_exact d :
  validate_semantics d = Ok tt ↔ semantically_valid d.
Proof. apply validate_semantics_spec. Qed.

Lemma check_document_valid `{ContractValidator} d :
  check_document d = Ok tt → validate_document d = Ok tt ∧ semantically_valid d.
Proof.
  unfold check_document. intros Hc. apply bind_Ok in Hc as ([] & Hv & Hs).
  split; [done|]. by apply validate_semantics_spec.
Qed.
End semantics.

(** ** Digests *)

Lemma opt_json_normal o : normalize_keys (opt_json o) = opt_json o.
Proof. by destruct o. Qed.

Lemma opt_json_inj o p : opt_json o = opt_json p → o = p.
Proof. destruct o, p; naive_solver. Qed.

Lemma actor_json_inj a b : normalize_keys (actor_json a) = normalize_keys (actor_json b) → a = b.
Proof. destruct a, b. cbn. by intros [= -> -> ->]. Qed.


(** Binding is sound: a bound action or approval carries the digest the validation
    recomputes, binding changes nothing else, and binding again changes nothing. *)
Theorem bind_digests `{HashAlg} d a act :
  digest_of_approval (bind_approval d a) = approval_digest d (bind_approval d a) ∧
  approval_payload d (bind_approval d a) = approval_payload d a ∧
  bind_approval d (bind_approval d a) = bind_approval d a ∧
  canonical_digest (bind_canonical_action act) =
    canonical_action_digest (bind_canonical_action act) ∧
  action_items (bind_canonical_action act) = action_items act ∧
  bind_canonical_action (bind_canonical_action act) = bind_canonical_action act.
Proof. done. Qed.

(** A digest of an action binds its content, parameters included, up to the order of keys
    and to a collision of SHA-256. *)
Theorem action_digest_binding `{HashAlg} act act' :
  wf_json (PDict (parameters act)) = true → wf_json (PDict (parameters act')) = true →
  canonical_action_digest act = canonical_action_digest act' →
  (normalize_keys (PDict (parameters act)) = normalize_keys (PDict (parameters act')) ∧
   action_id act = action_id act' ∧ action_type act = action_type act' ∧
   effect act = effect act' ∧ target_type act = target_type act' ∧
   target_id act = target_id act' ∧ reversibility_class act = reversibility_class act' ∧
   action_tenant act = action_tenant act' ∧
   execution_context_hash act = execution_context_hash act') ∨
  collision (canonical_json (PDict (action_items act))) (canonical_json (PDict (action_items act'))).
Proof.
  intros Hw Hw' E. assert (∀ x, wf_json (PDict (parameters x)) = true →
    wf_json (PDict (action_items x)) = true) as Hwf.
  { intros x Hx. unfold action_items. cbn in *. by rewrite Hx. }
  apply payload_hash_binding in E as [E|E]; [left|by right|by apply Hwf|by apply Hwf].
  unfold action_items in E. 
  assert (∀ p, ∃ m, normalize_keys (PDict p) = PDict m) as Hd by (intros; by eexists).
  destruct (Hd (parameters act)) as [m Hm], (Hd (parameters act')) as [m' Hm'].
  rewrite Hm, Hm'. revert E. cbn. cbn in Hm, Hm'. injection Hm as ->. injection Hm' as ->.
  intros [= -> -> -> -> -> -> -> -> ->]. done.
Qed.


Lemma action_digest_binding_witness :
  canonical_digest sample_action = canonical_action_digest (H := constant_alg) sample_action ∧
  (effect sample_action = effect sample_action ∨
   @collision constant_alg (canonical_json (PDict (action_items sample_action)))
     (canonical_json (PDict (action_items sample_action)))).
Proof.
  split; [reflexivity|].
  destruct (action_digest_binding (H := constant_alg) sample_action sample_action) as [E|E];
    [reflexivity|reflexivity|reflexivity|left; apply E|by right].
Defined.

(** ** Evaluation *)

(** What blocks a case, in the terms of its file. *)
Definition case_blocked (d : Document) : Prop :=
  (∃ e, e ∈ evidence d ∧ evidence_status e = "FABRICATED") ∨
  (mandatory_missing d = true ∧ high_impact d = true) ∨
  (∃ c, c ∈ constraints d ∧ constraint_severity c = "MANDATORY" ∧ constraint_satisfied c = false) ∨
  (∃ c, c ∈ conflicts d ∧ conflict_severity c = "CRITICAL" ∧ resolved c = false).

(** What a case needs to pass. *)
Definition case_clear (d : Document) : Prop :=
  (∀ e, e ∈ evidence d →
     evidence_status e ∉ ["UNVERIFIED"; "OUTDATED"; "CONFLICTING"; "UNAVAILABLE"; "FABRICATED"]) ∧
  mandatory_missing d = false ∧
  (∀ c, c ∈ constraints d →
     constraint_severity c ∈ ["MANDATORY"; "REVIEW_REQUIRED"] → constraint_satisfied c = true) ∧
  (∀ p, p ∈ policies d → requires_review p = false) ∧
  (high_impact d = true → ∀ r, r ∈ risks d → unresolved r = false) ∧
  (∀ c, c ∈ conflicts d → resolved c = true).

Lemma normalize_request d : normalize (evaluation_request d) = evaluation_request d.
Proof. reflexivity. Qed.

Lemma existsb_map {A B} (f : B → bool) (g : A → B) l :
  existsb f (map g l) = existsb (λ x, f (g x)) l.
Proof. induction l; cbn; congruence. Qed.

Lemma existsb_In {A} (f : A → bool) l : existsb f l = true ↔ ∃ x, x ∈ l ∧ f x = true.
Proof. by rewrite existsb_true_Exists, Exists_exists. Qed.

Lemma forallb_In {A} (f : A → bool) l : forallb f l = true ↔ ∀ x, x ∈ l → f x = true.
Proof. by rewrite forallb_true_Forall, Forall_forall. Qed.

Lemma request_shaped d : well_shaped (evaluation_request d) = true.
Proof.
  assert (∀ A (g : A → dict) l, forallb is_dict (map (λ x, PDict (g x)) l) = true) as Hd
    by (intros A g l; by induction l).
  unfold well_shaped, iterates_dicts, items, elements. cbn. rewrite !andb_true_iff.
  split_and!; try done; try apply (Hd _ (λ x, _)).
  rewrite forallb_map. apply forallb_In. intros c _. unfold codes_hashable. cbn.
  by rewrite !orb_true_r.
Qed.

Lemma independent_approver `{HashAlg} d :
  content_valid d → self_approved (_actors d) = false.
Proof.
  intros (_ & _ & _ & _ & _ & _ & _ & Hs). unfold self_approved, _actors, last_of.
  destruct (last (approvals d)) as [a|] eqn:E; cbn.
  - apply last_Some_elem_of in E. destruct (Hs a E) as (_ & _ & Hne & _).
    rewrite (proj2 (String.eqb_neq _ _) Hne). by rewrite andb_false_r.
  - by rewrite andb_false_r.
Qed.

Section evaluation.
Context `{HashAlg}.

Lemma blocking_request d :
  content_valid d → blocking (evaluation_request d) = true ↔ case_blocked d.
Proof.
  intros Hv. unfold blocking, case_blocked, items, elements.
  change (dget (evaluation_request d) "actors" PNone) with (_actors d).
  rewrite (independent_approver d Hv), orb_false_r. cbn -[truthy]. unfold holds.
  rewrite !existsb_map. cbn. rewrite !orb_true_iff, andb_true_iff, !existsb_In.
  unfold evidence_fabricated, constraint_violated, conflict_critical, severity_is, holds. cbn.
  setoid_rewrite andb_true_iff. setoid_rewrite negb_true_iff. setoid_rewrite String.eqb_eq.
  naive_solver.
Qed.

Lemma clear_evidence_item e :
  evidence_clear (PDict [("id", PStr (evidence_id e)); ("status", PStr (evidence_status e));
    ("fabricated", PBool (evidence_status e =? "FABRICATED"))]) = true ↔
  evidence_status e ∉ ["UNVERIFIED"; "OUTDATED"; "CONFLICTING"; "UNAVAILABLE"; "FABRICATED"].
Proof.
  unfold evidence_clear, evidence_fabricated, has_status, holds. cbn.
  rewrite !andb_true_iff, !negb_true_iff, !String.eqb_neq, !not_elem_of_cons. set_solver.
Qed.

Lemma clear_constraint_item c :
  (negb (constraint_violated (constraint_json c)) && negb (constraint_open (constraint_json c)) = true) ↔
  (constraint_severity c ∈ ["MANDATORY"; "REVIEW_REQUIRED"] → constraint_satisfied c = true).
Proof.
  unfold constraint_violated, constraint_open, severity_is, holds. cbn.
  rewrite !elem_of_cons, <-!String.eqb_eq.
  destruct (_ =? "MANDATORY"), (_ =? "REVIEW_REQUIRED"), (constraint_satisfied c); cbn;
    rewrite ?elem_of_nil; naive_solver.
Qed.

Lemma all_clear_request d :
  content_valid d → all_clear (evaluation_request d) = true ↔ case_clear d.
Proof.
  intros Hv. unfold all_clear, case_clear, items, elements.
  change (dget (evaluation_request d) "actors" PNone) with (_actors d).
  rewrite (independent_approver d Hv).
  cbn -[evidence_clear constraint_violated constraint_open holds].
  rewrite !forallb_map, !andb_true_iff, !negb_true_iff, !forallb_In.
  setoid_rewrite clear_evidence_item. setoid_rewrite clear_constraint_item.
  assert (uncertain (PDict [("high_impact", PBool (high_impact d));
      ("unresolved_uncertainty", PBool (existsb unresolved (risks d)))]) = false ↔
    (high_impact d = true → ∀ r, r ∈ risks d → unresolved r = false)) as ->.
  { unfold uncertain, holds. cbn. rewrite andb_false_iff, existsb_false_Forall, Forall_forall.
    destruct (high_impact d); naive_solver. }
  unfold holds. cbn. setoid_rewrite negb_true_iff. naive_solver.
Qed.

(** What a successful evaluation is made of. *)
Lemma evaluate_inv `{ContractValidator} clock version d d' r :
  evaluate_decision_file clock version d = Ok (d', r) →
  semantically_valid d ∧ assess clock version (evaluation_request d) = Ok r ∧
  d' = record_evaluation d r ∧ validate_document d' = Ok tt.
Proof.
  unfold evaluate_decision_file. intros He.
  apply bind_Ok in He as ([] & _ & He). apply bind_Ok in He as ([] & Hs & He).
  apply bind_Ok in He as (r' & Hr & He). apply bind_Ok in He as ([] & Hv & [= <- <-]).
  split_and!; [by apply validate_semantics_spec|done|done|done].
Qed.

Lemma evaluation_outcome clock version d r :
  content_valid d → assess clock version (evaluation_request d) = Ok r →
  (outcome r = BLOCK ↔ case_blocked d) ∧ (outcome r = PASS ↔ case_clear d).
Proof.
  intros Hv Hr. pose proof (assess_spec clock version (evaluation_request d)) as Hs.
  cbn zeta in Hs. rewrite normalize_request, request_shaped, Hr in Hs.
  destruct Hs as (? & [= <-] & Ho). rewrite Ho. unfold spec_outcome.
  rewrite <-blocking_request, <-all_clear_request by done.
  pose proof (clear_not_blocking (evaluation_request d)).
  destruct (blocking _), (all_clear _); naive_solver.
Qed.


(** An evaluation changes nothing it should not: the status, the actors, the content and the
    approvals stay, one validation result and one event are appended, the event links to its
    predecessor and carries the digest of the report, and the file stays semantically valid
    as long as the clock does not run behind the creation of the case. *)
Theorem evaluate_records `{ContractValidator} clock version d d' r :
  evaluate_decision_file clock version d = Ok (d', r) →
  status d' = status d ∧ approvals d' = approvals d ∧
  review_requirements d' = review_requirements d ∧ created_by d' = created_by d ∧
  canonical_action d' = canonical_action d ∧ evidence d' = evidence d ∧
  length (validation_results d') = S (length (validation_results d)) ∧
  (∃ e, audit_events d' = audit_events d ++ [e] ∧ from_status e = Some (status d) ∧
     to_status e = status d ∧ event_payload_hash e = payload_hash (Engine.report r) ∧
     previous_event_hash e = previous_link (audit_events d)) ∧
  (trail_chained (audit_events d) → trail_chained (audit_events d')) ∧
  (validate_semantics d' = Ok tt ↔ time_disordered d' = Ok false).
Proof.
  intros (Hs & Hr & -> & Hv)%evaluate_inv. unfold record_evaluation. cbn.
  split_and!; try done.
  - rewrite length_app. cbn. lia.
  - by eexists.
  - intros Hc. by apply trail_chained_snoc.
  - rewrite validate_semantics_spec. unfold semantically_valid. split; [by intros [? _]|].
    intros Ht. split; [done|]. apply Hs.
Qed.
End evaluation.

Definition evaluated (d : Document) : result (Document * AssessmentResult) :=
  @evaluate_decision_file constant_alg accept_all fixed_clock "0.1.0" d.


Lemma evaluate_records_witness :
  ∃ d' r, evaluated review_case = Ok (d', r) ∧ outcome r = PASS ∧
    status d' = "REVIEW" ∧ approvals d' = [sample_approval].
Proof.
  destruct (succeeds_with_Ok (evaluated review_case) (λ p, bool_decide (outcome p.2 = PASS)))
    as ([d' r] & E & Ho); [vm_compute; reflexivity|].
  exists d', r. split; [exact E|]. split; [by apply bool_decide_eq_true in Ho|].
  split; apply (@evaluate_records constant_alg accept_all fixed_clock "0.1.0" review_case d' r E).
Defined.
