(* ===== verification/Transitions.v ===== *)
(** * The Transition Policy

    [transitions.py]: the only operation that changes the status of a Decision File. The
    table of allowed transitions, the guards of each target and the event a transition
    appends to the file's hash chain. *)

From S2P Require Import Prelude PyVal Json Sha256 PyTime AuditChain Document DecisionFile.
From stdpp Require Import options.

Inductive CaseStatus := DRAFT | VALIDATION | REVIEW | APPROVED | BLOCKED.

#[export] Instance CaseStatus_eq_dec : EqDecision CaseStatus.
Proof. solve_decision. Defined.

Definition status_value (s : CaseStatus) : string :=
  match s with
  | DRAFT => "DRAFT" | VALIDATION => "VALIDATION" | REVIEW => "REVIEW"
  | APPROVED => "APPROVED" | BLOCKED => "BLOCKED"
  end.

Definition all_statuses : list CaseStatus := [DRAFT; VALIDATION; REVIEW; APPROVED; BLOCKED].

(** [CaseStatus(value)] *)
Definition parse_status (value : string) : result CaseStatus :=
  or_raise (List.find (λ s, status_value s =? value) all_statuses) ValueError
    (repr_str value +:+ " is not a valid CaseStatus").

(** [ALLOWED_TRANSITIONS]: the role each transition requires. *)
Definition ALLOWED_TRANSITIONS : list ((CaseStatus * CaseStatus) * string) :=
  [((DRAFT, VALIDATION), "VALIDATOR");
   ((DRAFT, BLOCKED), "VALIDATOR");
   ((VALIDATION, REVIEW), "VALIDATOR");
   ((VALIDATION, BLOCKED), "VALIDATOR");
   ((REVIEW, APPROVED), "APPROVER");
   ((REVIEW, BLOCKED), "APPROVER")].

Definition allowed_role (source target : CaseStatus) : option string :=
  snd <$> List.find (λ entry, bool_decide (entry.1 = (source, target))) ALLOWED_TRANSITIONS.

Section transitions.
Context `{HashAlg} `{ContractValidator}.

(** The approvals that count for a mandatory requirement when [actor] approves. *)
Definition matching_approval (requirement : ReviewRequirement) (actor : Actor) (a : Approval) :
    bool :=
  (requirement_ref a =? requirement_id requirement) && (decision a =? "APPROVE") &&
  (actor_kind (approver a) =? "HUMAN") &&
  (actor_role (approver a) =? required_role requirement) &&
  (negb (required_role requirement =? "APPROVER") ||
   (actor_id (approver a) =? actor_id actor)).

Definition validator_ids (document : Document) : list string :=
  map (actor_id ∘ event_actor)
    (filter (λ e, to_status e = "VALIDATION") (audit_events document)).

Definition approval_reasons (document : Document) (actor : Actor) : list string :=
  error_if (negb (actor_kind actor =? "HUMAN")) "HUMAN_APPROVER_REQUIRED" ++
  error_if (actor_id actor =? actor_id (created_by document)) "SEPARATION_OF_DUTIES_VIOLATION" ++
  error_if (str_in (actor_id actor) (validator_ids document)) "VALIDATOR_APPROVER_NOT_SEPARATE" ++
  error_if (negb (bool_decide (decision_outcome document = Some "PASS"))) "PASS_OUTCOME_REQUIRED" ++
  error_if (existsb (λ c, (constraint_severity c =? "MANDATORY") && negb (constraint_satisfied c))
              (constraints document)) "MANDATORY_CONSTRAINT_UNSATISFIED" ++
  error_if (existsb (λ c, (conflict_severity c =? "CRITICAL") && negb (resolved c))
              (conflicts document)) "CRITICAL_CONFLICT_UNRESOLVED" ++
  error_if (existsb (λ r, mandatory r && negb (requirement_satisfied r))
              (review_requirements document)) "MANDATORY_REVIEW_MISSING" ++
  concat (map (λ r, error_if (negb (existsb (matching_approval r actor) (approvals document)))
                      "MANDATORY_HUMAN_APPROVAL_MISSING")
            (filter (λ r, mandatory r = true) (review_requirements document))).

(** [TransitionPolicy._rejection_reasons] *)
Definition _rejection_reasons (document : Document) (source target : CaseStatus)
    (actor : Actor) : list string :=
  match allowed_role source target with
  | None => ["TRANSITION_NOT_ALLOWED"]
  | Some required =>
      error_if (negb (actor_role actor =? required)) "ACTOR_ROLE_NOT_AUTHORIZED" ++
      error_if (bool_decide (target = VALIDATION) &&
                (actor_id actor =? actor_id (created_by document)))
        "GENERATOR_VALIDATOR_NOT_SEPARATE" ++
      (if bool_decide (target = APPROVED) then approval_reasons document actor else []) ++
      error_if (bool_decide (target = REVIEW) &&
                bool_decide (decision_outcome document = Some "BLOCK"))
        "BLOCK_OUTCOME_REQUIRES_BLOCKED_STATUS" ++
      error_if (bool_decide (target = BLOCKED) &&
                negb (bool_decide (decision_outcome document = Some "BLOCK")))
        "BLOCK_OUTCOME_REQUIRED"
  end.

(** What the digest of a transition event covers. *)
Definition transition_payload (document : Document) (source target : CaseStatus)
    (actor : Actor) : pyval :=
  PDict [("from", PStr (status_value source)); ("to", PStr (status_value target));
         ("actor", actor_json actor);
         ("approval_digests",
            strs_json (py_sorted String.leb (map digest_of_approval (approvals document))))].

Definition transition_event (document : Document) (source target : CaseStatus) (actor : Actor)
    (occurred_at : string) : AuditEvent :=
  mkEvent
    (decision_id document +:+ ":transition:" +:+ pretty (S (length (audit_events document))))
    "status.transitioned" occurred_at actor (Some (status_value source)) (status_value target)
    ["TRANSITION_AUTHORIZED"] (payload_hash (transition_payload document source target actor))
    (previous_link (audit_events document)) None None None.

Definition record_transition (document : Document) (source target : CaseStatus) (actor : Actor)
    (at_ : string) : Document :=
  mkDocument (schema_version document) (decision_id document) (title document)
    (doc_description document) (use_case document) (status_value target)
    (assurance_level document) (created_at document) at_ (created_by document)
    (requested_by document) actor (canonical_action document) (claims document)
    (evidence document) (assumptions document) (constraints document) (policies document)
    (risks document) (conflicts document) (validation_results document)
    (review_requirements document) (approvals document) (decision_outcome document)
    (outcome_reasons document)
    (audit_events document ++ [transition_event document source target actor at_]).

(** [TransitionPolicy.transition]; [now] is the reading of the policy's clock. *)
Definition transition (now : datetime) (document : Document) (target : string) (actor : Actor) :
    result Document :=
  _ ← validate_document document;
  _ ← validate_semantics document;
  source ← parse_status (status document);
  destination ← parse_status target;
  let reasons := _rejection_reasons document source destination actor in
  _ ← (if bool_decide (reasons = []) then Ok tt else Raise (Exn TransitionRejected reasons));
  let updated := record_transition document source destination actor (isoformat now) in
  _ ← validate_document updated;
  Ok updated.
End transitions.
