(* ===== verification/TransitionProps.v ===== *)
(** * Properties of the Transition Policy

    Which transitions are accepted, what an approval guarantees, what a transition leaves alone,
    and the separation of duties over the whole life of a case. *)

From S2P Require Import Prelude PyVal Json Sha256 PyTime AuditChain Engine EngineProps Document DecisionFile Samples DecisionFileProps Transitions.
From stdpp Require Import options.

Lemma parse_status_Ok value s : parse_status value = Ok s ↔ value = status_value s.
Proof.
  unfold parse_status. rewrite or_raise_Ok. split.
  - intros E. apply List.find_some in E as [_ E]. by apply String.eqb_eq in E.
  - intros ->. by destruct s.
Qed.

Section policy.
Context `{HashAlg}.

(** ** The guards, declaratively *)

(** A counting approval of a mandatory requirement. *)
Definition counts_for (r : ReviewRequirement) (actor : Actor) (a : Approval) : Prop :=
  requirement_ref a = requirement_id r ∧ decision a = "APPROVE" ∧
  actor_kind (approver a) = "HUMAN" ∧ actor_role (approver a) = required_role r ∧
  (required_role r = "APPROVER" → actor_id (approver a) = actor_id actor).

Lemma matching_approval_spec r actor a : matching_approval r actor a = true ↔ counts_for r actor a.
Proof.
  unfold matching_approval, counts_for. bool_prop.
  destruct (decide (required_role r = "APPROVER")); naive_solver.
Qed.

Definition may_approve (d : Document) (actor : Actor) : Prop :=
  actor_kind actor = "HUMAN" ∧ actor_id actor ≠ actor_id (created_by d) ∧
  (∀ e, e ∈ audit_events d → to_status e = "VALIDATION" →
     actor_id actor ≠ actor_id (event_actor e)) ∧
  decision_outcome d = Some "PASS" ∧
  (∀ c, c ∈ constraints d → constraint_severity c = "MANDATORY" → constraint_satisfied c = true) ∧
  (∀ c, c ∈ conflicts d → conflict_severity c = "CRITICAL" → resolved c = true) ∧
  (∀ r, r ∈ review_requirements d → mandatory r = true → requirement_satisfied r = true) ∧
  (∀ r, r ∈ review_requirements d → mandatory r = true →
     ∃ a, a ∈ approvals d ∧ counts_for r actor a).

Definition permitted (d : Document) (source target : CaseStatus) (actor : Actor) : Prop :=
  allowed_role source target = Some (actor_role actor) ∧
  (target = VALIDATION → actor_id actor ≠ actor_id (created_by d)) ∧
  (target = APPROVED → may_approve d actor) ∧
  (target = REVIEW → decision_outcome d ≠ Some "BLOCK") ∧
  (target = BLOCKED → decision_outcome d = Some "BLOCK").

Lemma existsb_false_In {A} (f : A → bool) l : existsb f l = false ↔ ∀ x, x ∈ l → f x = false.
Proof. by rewrite existsb_false_Forall, Forall_forall. Qed.

Lemma approval_reasons_nil d actor : approval_reasons d actor = [] ↔ may_approve d actor.
Proof.
  unfold approval_reasons, may_approve. autorewrite with booldec.
  rewrite !existsb_false_In, concat_map_nil.
  assert (actor_id actor ∉ validator_ids d ↔ ∀ e, e ∈ audit_events d →
    to_status e = "VALIDATION" → actor_id actor ≠ actor_id (event_actor e)) as ->.
  { unfold validator_ids. split.
    - intros Hn e He Ht E. apply Hn. rewrite E.
      apply (list_elem_of_fmap_2 (actor_id ∘ event_actor)). by apply list_elem_of_filter.
    - intros Hn (e & E & [Ht He]%list_elem_of_filter)%(list_elem_of_fmap_1 (actor_id ∘ event_actor)).
      by eapply Hn. }
  assert ((∀ x, x ∈ filter (λ r, mandatory r = true) (review_requirements d) →
      error_if (negb (existsb (matching_approval x actor) (approvals d)))
        "MANDATORY_HUMAN_APPROVAL_MISSING" = []) ↔
    (∀ r, r ∈ review_requirements d → mandatory r = true →
      ∃ a, a ∈ approvals d ∧ counts_for r actor a)) as ->.
  { setoid_rewrite error_if_nil. setoid_rewrite negb_false_iff.
    setoid_rewrite existsb_In. setoid_rewrite matching_approval_spec.
    setoid_rewrite list_elem_of_filter. naive_solver. }
  setoid_rewrite andb_false_iff. setoid_rewrite negb_false_iff. setoid_rewrite String.eqb_neq.
  split.
  - intros (? & ? & ? & ? & Hc & Hf & Hr & ?). split_and!; try done.
    + intros c Hin Hs. destruct (Hc c Hin); congruence.
    + intros c Hin Hs. destruct (Hf c Hin); congruence.
    + intros r Hin Hs. destruct (Hr r Hin); congruence.
  - intros (? & ? & ? & ? & Hc & Hf & Hr & ?). split_and!; try done.
    + intros c Hin. destruct (decide (constraint_severity c = "MANDATORY")); auto.
    + intros c Hin. destruct (decide (conflict_severity c = "CRITICAL")); auto.
    + intros r Hin. destruct (mandatory r) eqn:?; auto.
Qed.

Lemma rejection_reasons_nil d source target actor :
  _rejection_reasons d source target actor = [] ↔ permitted d source target actor.
Proof.
  unfold _rejection_reasons, permitted.
  destruct (allowed_role source target) as [role|]; [|naive_solver].
  autorewrite with booldec.
  assert ((if bool_decide (target = APPROVED) then approval_reasons d actor else []) = [] ↔
    (target = APPROVED → may_approve d actor)) as ->.
  { case_bool_decide; [rewrite approval_reasons_nil|]; naive_solver. }
  destruct target; naive_solver.
Qed.
End policy.

Section transition_facts.
Context `{HashAlg} `{ContractValidator}.

(** What a successful transition is made of. *)
Lemma transition_inv now d target actor d' :
  transition now d target actor = Ok d' ↔
  ∃ source dest,
    status d = status_value source ∧ target = status_value dest ∧
    check_document d = Ok tt ∧ permitted d source dest actor ∧
    d' = record_transition d source dest actor (isoformat now) ∧ validate_document d' = Ok tt.
Proof.
  unfold transition, check_document. split.
  - intros Ht. apply bind_Ok in Ht as ([] & Hv & Ht). apply bind_Ok in Ht as ([] & Hs & Ht).
    apply bind_Ok in Ht as (source & Hsrc & Ht). apply bind_Ok in Ht as (dest & Hdst & Ht).
    apply bind_Ok in Ht as ([] & Hr & Ht). apply bind_Ok in Ht as ([] & Hv' & [= <-]).
    case_bool_decide as Hn; [|done].
    apply parse_status_Ok in Hsrc. apply parse_status_Ok in Hdst.
    apply rejection_reasons_nil in Hn. exists source, dest. rewrite Hv. by split_and!.
  - intros (source & dest & Hsrc & -> & Hc & Hp & -> & Hv').
    apply bind_Ok in Hc as ([] & -> & ->). cbn [mbind result_bind].
    rewrite (proj2 (parse_status_Ok _ source) Hsrc). cbn [mbind result_bind].
    rewrite (proj2 (parse_status_Ok _ dest) eq_refl). cbn [mbind result_bind].
    rewrite bool_decide_true by by apply rejection_reasons_nil.
    cbn [mbind result_bind]. by rewrite Hv'.
Qed.


Lemma valid_approval d a :
  semantically_valid d → a ∈ approvals d → approval_sound d a.
Proof. intros (_ & _ & _ & _ & _ & _ & _ & _ & Hs). by apply Hs. Qed.

(** C1: an approved case was approved by an independent human, on a passing outcome, for
    exactly the action it carries: on success of a transition to APPROVED the actor is a
    human APPROVER who neither created the case nor moved it through VALIDATION; the outcome
    is PASS and no mandatory constraint, critical conflict or mandatory review is open; every
    mandatory requirement has an approval by a human of its role, bound to the digest of the
    case's action; and an action that is not read-only was approved by the actor in person,
    under the digest of its content. *)
Theorem approval_is_safe now d actor d' :
  transition now d "APPROVED" actor = Ok d' →
  status d = "REVIEW" ∧ may_approve d actor ∧ actor_role actor = "APPROVER" ∧
  (∀ r, r ∈ review_requirements d → mandatory r = true →
     ∃ a, a ∈ approvals d ∧ counts_for r actor a ∧
       action_digest a = expected_action_digest d ∧
       digest_of_approval a = approval_digest d a ∧
       actor_id (approver a) ≠ actor_id (created_by d) ∧
       actor_id (approver a) ≠ actor_id (requested_by d)) ∧
  (∀ act, canonical_action d = Some act → reversibility_class act ≠ "READ_ONLY" →
     ∃ a, a ∈ approvals d ∧ decision a = "APPROVE" ∧
       actor_id (approver a) = actor_id actor ∧ actor_kind (approver a) = "HUMAN" ∧
       action_digest a = Some (canonical_action_digest act)).
Proof.
  intros (source & dest & Hs & Ht & Hc & (Hrole & _ & Ha & _) & _)%transition_inv.
  assert (dest = APPROVED) as -> by by destruct dest.
  specialize (Ha eq_refl). apply check_document_valid in Hc as [_ Hv].
  assert (source = REVIEW ∧ actor_role actor = "APPROVER") as [-> ->].
  { by destruct source; try discriminate Hrole; injection Hrole as <-. }
  pose proof (λ r Hr Hm, proj2 (proj2 (proj2 (proj2 (proj2 (proj2 (proj2 Ha)))))) r Hr Hm) as Happ.
  split_and!; [done..| |].
  - intros r Hr Hm. destruct (Happ r Hr Hm) as (a & Hin & Hcount).
    destruct (valid_approval d a Hv Hin) as (_ & _ & Hc1 & Hc2 & Hd1 & Hd2). by exists a.
  - intros act Hact Hro. destruct Hv as (_ & _ & _ & _ & _ & Hav & _ & _ & Hsound).
    destruct (Hav act Hact) as [Hdig Hreq]. destruct (Hreq Hro) as (r & Hr & Hm & Hrr).
    destruct (Happ r Hr Hm) as (a & Hin & (_ & Hdec & Hk & _ & Hid)).
    destruct (Hsound a Hin) as (_ & _ & _ & _ & Hd1 & _). exists a. split_and!; auto.
    rewrite Hd1. unfold expected_action_digest. rewrite Hact. cbn. by rewrite Hdig.
Qed.

(** A transition changes the status, the owner and the time, appends one event that
    records who moved the case from where to where with the digest of the approvals, and
    leaves everything else; the hash chain stays intact, and the file stays semantically
    valid as long as the clock does not run behind the creation of the case. *)
Theorem transition_records now d target actor d' :
  transition now d target actor = Ok d' →
  status d' = target ∧ current_owner d' = actor ∧ updated_at d' = isoformat now ∧
  created_by d' = created_by d ∧ requested_by d' = requested_by d ∧
  canonical_action d' = canonical_action d ∧ evidence d' = evidence d ∧
  approvals d' = approvals d ∧ review_requirements d' = review_requirements d ∧
  decision_outcome d' = decision_outcome d ∧
  (∃ e, audit_events d' = audit_events d ++ [e] ∧ event_actor e = actor ∧
     from_status e = Some (status d) ∧ to_status e = target ∧
     previous_event_hash e = previous_link (audit_events d)) ∧
  (trail_chained (audit_events d) → trail_chained (audit_events d')) ∧
  (validate_semantics d' = Ok tt ↔ time_disordered d' = Ok false).
Proof.
  intros (source & dest & Hs & -> & Hc & Hp & -> & Hv)%transition_inv. cbn.
  apply check_document_valid in Hc as [_ [_ Hcv]].
  split_and!; try done.
  - eexists; split; [done|]. cbn. by rewrite Hs.
  - intros Ht. by apply trail_chained_snoc.
  - rewrite validate_semantics_spec. unfold semantically_valid. split; [by intros [? _]|].
    intros Ht. split; [done|].
    destruct Hcv as (? & ? & ? & ? & ? & ? & Hst & ?). split_and!; try done. cbn.
    intros Hne. destruct Hp as [Hrole _]. specialize (Hst Hne). rewrite Hs in Hst.
    destruct source, dest; try done; set_solver.
Qed.
End transition_facts.

Section rejection.
Context `{HashAlg} `{ContractValidator}.

Lemma elem_of_error_if b m x : x ∈ error_if b m ↔ b = true ∧ x = m.
Proof. destruct b; cbn; set_solver. Qed.

Lemma or_iff_both (P P' Q Q' : Prop) : (P ↔ P') → (Q ↔ Q') → (P ∨ Q ↔ P' ∨ Q').
Proof. tauto. Qed.

(** The codes an approval can be refused with, each for its own reason. *)
Lemma elem_of_approval_reasons d actor code :
  code ∈ approval_reasons d actor ↔
    (actor_kind actor ≠ "HUMAN" ∧ code = "HUMAN_APPROVER_REQUIRED") ∨
    (actor_id actor = actor_id (created_by d) ∧ code = "SEPARATION_OF_DUTIES_VIOLATION") ∨
    (actor_id actor ∈ validator_ids d ∧ code = "VALIDATOR_APPROVER_NOT_SEPARATE") ∨
    (decision_outcome d ≠ Some "PASS" ∧ code = "PASS_OUTCOME_REQUIRED") ∨
    ((∃ c, c ∈ constraints d ∧ constraint_severity c = "MANDATORY" ∧ constraint_satisfied c = false) ∧
       code = "MANDATORY_CONSTRAINT_UNSATISFIED") ∨
    ((∃ c, c ∈ conflicts d ∧ conflict_severity c = "CRITICAL" ∧ resolved c = false) ∧
       code = "CRITICAL_CONFLICT_UNRESOLVED") ∨
    ((∃ r, r ∈ review_requirements d ∧ mandatory r = true ∧ requirement_satisfied r = false) ∧
       code = "MANDATORY_REVIEW_MISSING") ∨
    ((∃ r, r ∈ review_requirements d ∧ mandatory r = true ∧
        ¬ ∃ a, a ∈ approvals d ∧ counts_for r actor a) ∧
       code = "MANDATORY_HUMAN_APPROVAL_MISSING").
Proof.
  unfold approval_reasons. rewrite !elem_of_app, !elem_of_error_if, elem_of_concat_map.
  rewrite !existsb_In. setoid_rewrite elem_of_error_if. setoid_rewrite list_elem_of_filter.
  setoid_rewrite andb_true_iff. setoid_rewrite negb_true_iff.
  rewrite !bool_decide_eq_false, String.eqb_neq, String.eqb_eq, str_in_spec.
  setoid_rewrite String.eqb_eq.
  assert (∀ r, existsb (matching_approval r actor) (approvals d) = false ↔
    ¬ ∃ a, a ∈ approvals d ∧ counts_for r actor a) as Hm.
  { intros r. rewrite <-not_true_iff_false, existsb_In. by setoid_rewrite matching_approval_spec. }
  setoid_rewrite Hm. repeat apply or_iff_both; naive_solver.
Qed.

Lemma transition_checked now d source target actor :
  check_document d = Ok tt → status d = status_value source →
  transition now d target actor =
    destination ← parse_status target;
    let reasons := _rejection_reasons d source destination actor in
    _ ← (if bool_decide (reasons = []) then Ok tt else Raise (Exn TransitionRejected reasons));
    let updated := record_transition d source destination actor (isoformat now) in
    _ ← validate_document updated; Ok updated.
Proof.
  intros Hc Hs. unfold transition. apply bind_Ok in Hc as ([] & -> & ->).
  cbn [mbind result_bind]. by rewrite (proj2 (parse_status_Ok _ source) Hs).
Qed.

(** The error paths: on a valid file a transition to a known status that is not permitted
    raises TransitionRejected with a nonempty list of reasons; an unknown target is a
    ValueError; nothing leaves APPROVED or BLOCKED; and a refused approval states every one
    of its failing guards, so the list of reasons is complete. *)
Theorem transition_rejections now d source actor :
  check_document d = Ok tt → status d = status_value source →
  (∀ dest, ¬ permitted d source dest actor →
     ∃ reasons, reasons ≠ [] ∧
       transition now d (status_value dest) actor = Raise (Exn TransitionRejected reasons) ∧
       (source = REVIEW → dest = APPROVED →
          reasons = error_if (negb (actor_role actor =? "APPROVER")) "ACTOR_ROLE_NOT_AUTHORIZED" ++
                    approval_reasons d actor)) ∧
  (∀ target, (∀ s, target ≠ status_value s) →
     ∃ msg, transition now d target actor = Raise (Exn ValueError [msg])) ∧
  (∀ dest, source = APPROVED ∨ source = BLOCKED →
     transition now d (status_value dest) actor =
       Raise (Exn TransitionRejected ["TRANSITION_NOT_ALLOWED"])) ∧
  (∀ r, r ∈ review_requirements d → mandatory r = true → requirement_satisfied r = false →
     "MANDATORY_REVIEW_MISSING" ∈ approval_reasons d actor) ∧
  (decision_outcome d ≠ Some "PASS" → "PASS_OUTCOME_REQUIRED" ∈ approval_reasons d actor) ∧
  (actor_kind actor ≠ "HUMAN" → "HUMAN_APPROVER_REQUIRED" ∈ approval_reasons d actor) ∧
  (actor_id actor = actor_id (created_by d) →
     "SEPARATION_OF_DUTIES_VIOLATION" ∈ approval_reasons d actor).
Proof.
  intros Hc Hs. split_and!.
  - intros dest Hp. rewrite <-rejection_reasons_nil in Hp.
    exists (_rejection_reasons d source dest actor). split; [done|].
    rewrite (transition_checked _ _ _ _ _ Hc Hs), (proj2 (parse_status_Ok _ dest) eq_refl).
    cbn [mbind result_bind]. rewrite bool_decide_false by done. split; [done|].
    intros -> ->. unfold _rejection_reasons. cbn. by rewrite app_nil_r.
  - intros target Ht. rewrite (transition_checked _ _ _ _ _ Hc Hs).
    destruct (parse_status target) as [s|[c l]] eqn:E.
    + apply parse_status_Ok in E. by destruct (Ht s).
    + unfold parse_status in E. apply or_raise_Raise in E as [_ [= -> ->]]. cbn. eauto.
  - intros dest Hterm.
    rewrite (transition_checked _ _ _ _ _ Hc Hs), (proj2 (parse_status_Ok _ dest) eq_refl).
    cbn [mbind result_bind]. unfold _rejection_reasons.
    assert (allowed_role source dest = None) as ->; [|done].
    destruct Hterm as [-> | ->]; by destruct dest.
  - intros r Hr Hm Hn. rewrite elem_of_approval_reasons. naive_solver.
  - rewrite elem_of_approval_reasons. naive_solver.
  - rewrite elem_of_approval_reasons. naive_solver.
  - rewrite elem_of_approval_reasons. naive_solver.
Qed.
End rejection.

(** ** The life of a case *)
Section lifecycle.
Context `{HashAlg} `{ContractValidator}.

(** What happens to a case: a transition, an evaluation, or a revision by its authors and
    reviewers, which may change anything but the status, the creator and the trail. *)
Inductive step : Document → Document → Prop :=
  | step_transition now d target actor d' :
      transition now d target actor = Ok d' → step d d'
  | step_evaluate clock version d d' r :
      evaluate_decision_file clock version d = Ok (d', r) → step d d'
  | step_revise d d' :
      status d' = status d → created_by d' = created_by d →
      audit_events d' = audit_events d → step d d'.

Definition initial (d : Document) : Prop :=
  status d = "DRAFT" ∧ trail_chained (audit_events d) ∧
  ∀ e, e ∈ audit_events d → to_status e = "DRAFT".

(** An event that moves a case from one status to another. *)
Definition moved (e : AuditEvent) (s t : CaseStatus) : Prop :=
  from_status e = Some (status_value s) ∧ to_status e = status_value t.

(** The event by which an independent validator took the case. *)
Definition validated_by (d : Document) (e : AuditEvent) : Prop :=
  e ∈ audit_events d ∧ moved e DRAFT VALIDATION ∧ actor_role (event_actor e) = "VALIDATOR" ∧
  actor_id (event_actor e) ≠ actor_id (created_by d).

(** The event by which an independent human approved it. *)
Definition approved_by (d : Document) (e : AuditEvent) : Prop :=
  e ∈ audit_events d ∧ moved e REVIEW APPROVED ∧ actor_role (event_actor e) = "APPROVER" ∧
  actor_kind (event_actor e) = "HUMAN" ∧
  actor_id (event_actor e) ≠ actor_id (created_by d) ∧
  ∀ v, v ∈ audit_events d → moved v DRAFT VALIDATION →
    actor_id (event_actor e) ≠ actor_id (event_actor v).

Record separated (d : Document) : Prop := {
  sep_chain : trail_chained (audit_events d);
  sep_creator : ∀ e, e ∈ audit_events d → moved e DRAFT VALIDATION →
    actor_id (event_actor e) ≠ actor_id (created_by d);
  sep_validator : status d ∈ ["VALIDATION"; "REVIEW"; "APPROVED"] → ∃ e, validated_by d e;
  sep_approver : status d = "APPROVED" → ∃ e, approved_by d e
}.

Lemma initial_separated d : initial d → separated d.
Proof.
  intros (Hs & Hc & He). split; [done| | |].
  - intros e Hin [_ Ht]. by rewrite (He e Hin) in Ht.
  - rewrite Hs. set_solver.
  - by rewrite Hs.
Qed.

(** The trail and the status alone carry the invariant. *)
Lemma separated_extend d d' tail :
  separated d → created_by d' = created_by d → status d' = status d →
  audit_events d' = audit_events d ++ tail → trail_chained (audit_events d') →
  (∀ e, e ∈ tail → ¬ moved e DRAFT VALIDATION) → separated d'.
Proof.
  intros [Hc Hcr Hv Ha] Ecr Es Et Hc' Hm.
  split; [done|..]; rewrite ?Es; unfold validated_by, approved_by; rewrite Et, Ecr.
  - intros e [He|He]%elem_of_app Hmv; [by apply Hcr|by apply Hm in Hmv].
  - intros Hs. destruct (Hv Hs) as (e & ? & ?). exists e. split; [set_solver|done].
  - intros Hs. destruct (Ha Hs) as (e & ? & ? & ? & ? & ? & Hall). exists e.
    split_and!; [set_solver|done..|]. intros v [Hin|Hin]%elem_of_app Hmv; [auto|by apply Hm in Hmv].
Qed.

Lemma status_value_inj s t : status_value s = status_value t → s = t.
Proof. by destruct s, t. Qed.

Lemma separated_transition now d target actor d' :
  separated d → transition now d target actor = Ok d' → separated d'.
Proof.
  intros [Hc Hcr Hv Ha] (source & dest & Hs & -> & _ & (Hrole & Hval & Happ & _) & -> & _)%transition_inv.
  set (e := transition_event d source dest actor (isoformat now)).
  assert (moved e source dest) as Hmv by done.
  assert (∀ x, x ∈ audit_events d ++ [e] → moved x DRAFT VALIDATION →
    x ∈ audit_events d ∨ (x = e ∧ dest = VALIDATION ∧ source = DRAFT)) as Hnew.
  { intros x [?| ->%list_elem_of_singleton]%elem_of_app [Hf Ht]; [by left|right].
    destruct Hmv as [Hf' Ht']. rewrite Hf' in Hf. rewrite Ht' in Ht. injection Hf as Hf.
    apply (status_value_inj source DRAFT) in Hf as ->.
    by apply (status_value_inj dest VALIDATION) in Ht as ->. }
  split; cbn [record_transition audit_events status created_by]; fold e.
  - by apply trail_chained_snoc.
  - intros x Hx Hxm. destruct (Hnew x Hx Hxm) as [Hin|(-> & -> & _)]; [by apply Hcr|].
    by apply Hval.
  - intros Hst. destruct (decide (source = DRAFT)) as [->|Hne].
    + assert (dest = VALIDATION) as -> by (destruct dest; try done; set_solver).
      exists e. split; [set_solver|]. split; [done|]. split; [|by apply Hval].
      cbn in Hrole. injection Hrole as Hrole. exact (eq_sym Hrole).
    + destruct Hv as (x & Hx & Hrest).
      { rewrite Hs. destruct source; try done; try set_solver; destruct dest; try done; set_solver. }
      exists x. split; [set_solver|done].
  - intros Hst. assert (dest = APPROVED) as -> by by apply (status_value_inj dest APPROVED).
    assert (source = REVIEW ∧ actor_role actor = "APPROVER") as [-> Hr]
      by (destruct source; try discriminate Hrole; by injection Hrole as <-).
    destruct (Happ eq_refl) as (Hk & Hcre & Hvs & _).
    exists e. split; [set_solver|]. split_and!; try done.
    intros v Hin Hvm. destruct (Hnew v Hin Hvm) as [Hold|(-> & [=] & _)].
    by apply Hvs; [|apply Hvm].
Qed.

Lemma separated_evaluate clock version d d' r :
  separated d → evaluate_decision_file clock version d = Ok (d', r) → separated d'.
Proof.
  intros Hsep (_ & _ & -> & _)%evaluate_inv.
  eapply (separated_extend d _ [_] Hsep); [done|done|done| |].
  - apply trail_chained_snoc. split; [apply Hsep|done].
  - intros e ->%list_elem_of_singleton [Hf Ht]. cbn in Hf, Ht. congruence.
Qed.

Lemma step_separated d d' : separated d → step d d' → separated d'.
Proof.
  intros Hsep Hstep. destruct Hstep as [now d target actor d' Ht|clock version d d' r He|d d' Es Ec Ea].
  - by eapply separated_transition.
  - by eapply separated_evaluate.
  - eapply (separated_extend d d' [] Hsep); [done|done|by rewrite app_nil_r| |set_solver].
    rewrite Ea. apply Hsep.
Qed.

Lemma steps_separated d0 d : rtc step d0 d → separated d0 → separated d.
Proof. induction 1; eauto using step_separated. Qed.

(** C2: separation of duties over the whole life of a case: however transitions, evaluations
    and revisions interleave from a draft, a case that is APPROVED has in its trail the event
    by which a VALIDATOR other than its creator took it and the event by which a human
    APPROVER approved it who is neither its creator nor any of its validators, so three
    different actors; and the trail is one unbroken hash chain. *)
Theorem separation_of_duties d0 d :
  initial d0 → rtc step d0 d → status d = "APPROVED" →
  trail_chained (audit_events d) ∧
  ∃ v a, validated_by d v ∧ approved_by d a ∧
    NoDup [actor_id (created_by d); actor_id (event_actor v); actor_id (event_actor a)].
Proof.
  intros Hinit Hsteps Hst. assert (separated d) as [Hc Hcr Hv Ha].
  { by eapply steps_separated; [|apply initial_separated]. }
  split; [done|]. rewrite Hst in Hv.
  destruct Hv as [v Hv]; [set_solver|]. destruct (Ha Hst) as [a Happ]. exists v, a.
  split; [done|]. split; [done|].
  destruct Hv as (Hin & Hm & _ & Hne), Happ as (_ & _ & _ & _ & Hne' & Hall).
  specialize (Hall v Hin Hm). repeat constructor; set_solver.
Qed.
End lifecycle.

(** ** Concrete cases *)

Definition move (d : Document) (target : string) (actor : Actor) : result Document :=
  @transition constant_alg accept_all noon d target actor.

Lemma approval_is_safe_witness :
  ∃ d', move review_case "APPROVED" bob = Ok d' ∧
    ∃ a, a ∈ approvals review_case ∧ actor_id (approver a) = "bob" ∧
      action_digest a = Some (@canonical_action_digest constant_alg sample_action).
Proof.
  destruct (succeeds_with_Ok (move review_case "APPROVED" bob) (λ _, true)) as (d' & E & _);
    [vm_compute; reflexivity|].
  exists d'. split; [exact E|].
  destruct (@approval_is_safe constant_alg accept_all noon review_case bob d' E)
    as (_ & _ & _ & _ & Hact).
  destruct (Hact sample_action) as (a & Hin & _ & Hid & _ & Hd); [reflexivity|discriminate|].
  exists a. split; [exact Hin|split; [exact Hid|exact Hd]].
Defined.

Lemma transition_records_witness :
  ∃ d', move draft_case "VALIDATION" vera = Ok d' ∧ status d' = "VALIDATION" ∧
    current_owner d' = vera ∧ approvals d' = [].
Proof.
  destruct (succeeds_with_Ok (move draft_case "VALIDATION" vera) (λ _, true)) as (d' & E & _);
    [vm_compute; reflexivity|].
  exists d'. split; [exact E|].
  destruct (@transition_records constant_alg accept_all noon draft_case "VALIDATION" vera d' E)
    as (Hs & Ho & _ & _ & _ & _ & _ & Ha & _).
  split; [exact Hs|split; [exact Ho|exact Ha]].
Defined.

Lemma transition_rejections_witness :
  (∃ reasons, reasons ≠ [] ∧
     move review_case "APPROVED" mallory = Raise (Exn TransitionRejected reasons)) ∧
  "SEPARATION_OF_DUTIES_VIOLATION" ∈ approval_reasons review_case mallory.
Proof.
  destruct (@transition_rejections constant_alg accept_all noon review_case REVIEW mallory)
    as (Hrej & _ & _ & _ & _ & _ & Hsod); [vm_compute; reflexivity|reflexivity|].
  split; [|apply Hsod; reflexivity].
  destruct (Hrej APPROVED) as (reasons & Hne & Hr & _); [|exists reasons; split; [exact Hne|exact Hr]].
  intros (_ & _ & Ha & _). destruct (Ha eq_refl) as (_ & Hne & _). by apply Hne.
Defined.

(** The revision that adds the approval of the reviewed case. *)
Definition with_approval (d : Document) : Document :=
  mkDocument (schema_version d) (decision_id d) (title d) (doc_description d) (use_case d)
    (status d) (assurance_level d) (created_at d) (updated_at d) (created_by d) (requested_by d)
    (current_owner d) (canonical_action d) (claims d) (evidence d) (assumptions d)
    (constraints d) (policies d) (risks d) (conflicts d) (validation_results d)
    (review_requirements d) [sample_approval] (decision_outcome d) (outcome_reasons d)
    (audit_events d).

Definition sample_life : result Document :=
  d1 ← move draft_case "VALIDATION" vera;
  d2 ← move d1 "REVIEW" vera;
  move (with_approval d2) "APPROVED" bob.

Lemma separation_of_duties_witness :
  ∃ d, sample_life = Ok d ∧ status d = "APPROVED" ∧
    @trail_chained constant_alg (audit_events d) ∧
    ∃ v a, validated_by d v ∧ approved_by d a ∧
      NoDup [actor_id (created_by d); actor_id (event_actor v); actor_id (event_actor a)].
Proof.
  destruct (succeeds_with_Ok sample_life (λ d, status d =? "APPROVED")) as (d & E & Hst);
    [vm_compute; reflexivity|].
  apply String.eqb_eq in Hst. exists d. split; [exact E|]. split; [exact Hst|].
  unfold sample_life in E. apply bind_Ok in E as (d1 & E1 & E).
  apply bind_Ok in E as (d2 & E2 & E).
  apply (@separation_of_duties constant_alg accept_all draft_case d).
  - split; [reflexivity|]. split; [exact I|]. intros e He. by apply elem_of_nil in He.
  - eapply rtc_l; [eapply step_transition; exact E1|].
    eapply rtc_l; [eapply step_transition; exact E2|].
    eapply rtc_l; [apply (step_revise d2 (with_approval d2)); reflexivity|].
    eapply rtc_l; [eapply step_transition; exact E|]. apply rtc_refl.
  - exact Hst.
Defined.
