(* ===== verification/Identity.v ===== *)
(** * Tenants, identities and authorization

    [tenancy.py], [identity.py] and [authorization.py]: who acts, for which tenant, in which
    roles, and what the roles permit. *)

From S2P Require Import Prelude PyVal Document.
From stdpp Require Import options.

(** ** [str.strip] *)

(** The code points [str.isspace] accepts, as UTF-8. *)
Definition is_space (c : string) : bool :=
  match c with
  | String a EmptyString =>
      let n := Ascii.nat_of_ascii a in ((9 <=? n) && (n <=? 13))%nat || ((28 <=? n) && (n <=? 32))%nat
  | String a (String b EmptyString) =>
      let n := Ascii.nat_of_ascii b in
      Nat.eqb (Ascii.nat_of_ascii a) 194 && (Nat.eqb n 133 || Nat.eqb n 160)
  | String a (String b (String d EmptyString)) =>
      let x := Ascii.nat_of_ascii a in let y := Ascii.nat_of_ascii b in
      let z := Ascii.nat_of_ascii d in
      (Nat.eqb x 225 && Nat.eqb y 154 && Nat.eqb z 128) ||
      (Nat.eqb x 226 && Nat.eqb y 128 &&
        (((128 <=? z) && (z <=? 138))%nat || Nat.eqb z 168 || Nat.eqb z 169 || Nat.eqb z 175)) ||
      (Nat.eqb x 226 && Nat.eqb y 129 && Nat.eqb z 159) ||
      (Nat.eqb x 227 && Nat.eqb y 128 && Nat.eqb z 128)
  | _ => false
  end.

(** [not s.strip()] *)
Definition str_blank (s : string) : bool := forallb is_space (code_points s).

(** ** [tenancy.py] *)

Definition is_alnum (c : ascii) : bool :=
  let n := Ascii.nat_of_ascii c in
  (((48 <=? n) && (n <=? 57)) || ((65 <=? n) && (n <=? 90)) || ((97 <=? n) && (n <=? 122)))%nat.
Definition is_tenant_char (c : ascii) : bool :=
  is_alnum c || Ascii.eqb c "." || Ascii.eqb c "_" || Ascii.eqb c "-".

(** [_TENANT_ID.fullmatch], the pattern [^[A-Za-z0-9][A-Za-z0-9._-]{0,127}$] *)
Definition tenant_id_matches (s : string) : bool :=
  match s with
  | String c rest =>
      is_alnum c && forallb is_tenant_char (String.list_ascii_of_string rest) &&
      (String.length rest <=? 127)%nat
  | EmptyString => false
  end.

Record TenantContext := mkTenant { tenant_id : string }.

#[export] Instance TenantContext_eq_dec : EqDecision TenantContext.
Proof. solve_decision. Defined.

(** [TenantContext(tenant_id)] *)
Definition tenant_context (id : string) : result TenantContext :=
  _ ← require (tenant_id_matches id) ValueError "INVALID_TENANT_ID"; Ok (mkTenant id).

(** ** [identity.py] *)

Inductive Role :=
  | GENERATOR | VALIDATOR | APPROVER | AUDITOR | REVIEWER
  | TENANT_ADMIN | SYSTEM_ADMINISTRATOR | RESEARCH_OPERATOR | READONLY.

Inductive ActorKind := HUMAN | AGENT | SERVICE.

#[export] Instance Role_eq_dec : EqDecision Role.
Proof. solve_decision. Defined.
#[export] Instance ActorKind_eq_dec : EqDecision ActorKind.
Proof. solve_decision. Defined.

Definition all_roles : list Role :=
  [GENERATOR; VALIDATOR; APPROVER; AUDITOR; REVIEWER; TENANT_ADMIN; SYSTEM_ADMINISTRATOR;
   RESEARCH_OPERATOR; READONLY].

Definition role_value (r : Role) : string :=
  match r with
  | GENERATOR => "GENERATOR" | VALIDATOR => "VALIDATOR" | APPROVER => "APPROVER"
  | AUDITOR => "AUDITOR" | REVIEWER => "REVIEWER" | TENANT_ADMIN => "TENANT_ADMIN"
  | SYSTEM_ADMINISTRATOR => "SYSTEM_ADMINISTRATOR" | RESEARCH_OPERATOR => "RESEARCH_OPERATOR"
  | READONLY => "READONLY"
  end.

Definition kind_value (k : ActorKind) : string :=
  match k with HUMAN => "HUMAN" | AGENT => "AGENT" | SERVICE => "SERVICE" end.

(** [Role(value)] *)
Definition parse_role (value : string) : option Role :=
  List.find (λ r, role_value r =? value) all_roles.

#[export] Program Instance Role_countable : Countable Role :=
  inj_countable role_value parse_role _.
Next Obligation. by intros []. Qed.

Record Identity := mkIdentity {
  identity_actor : string;
  identity_tenant : TenantContext;
  identity_role : Role;
  identity_kind : ActorKind;
  organization_id : option string;
  groups : list string;
  identity_roles : gset Role;
  client_id : option string;
  scopes : list string
}.

Definition blank_option (o : option string) : bool :=
  match o with Some s => str_blank s | None => false end.

(** [Identity(...)] with its [__post_init__]: the roles default to the primary role. *)
Definition make_identity (i : Identity) : result Identity :=
  _ ← require (negb (str_blank (identity_actor i))) ValueError "INVALID_ACTOR_ID";
  _ ← require (negb (blank_option (organization_id i))) ValueError "INVALID_ORGANIZATION_ID";
  _ ← require (negb (existsb str_blank (groups i))) ValueError "INVALID_IDENTITY_GROUP";
  let effective_roles :=
    if bool_decide (identity_roles i = ∅) then {[identity_role i]} else identity_roles i in
  _ ← require (bool_decide (identity_role i ∈ effective_roles)) ValueError "INVALID_PRIMARY_ROLE";
  _ ← require (negb (blank_option (client_id i))) ValueError "INVALID_CLIENT_ID";
  _ ← require (negb (existsb str_blank (scopes i))) ValueError "INVALID_IDENTITY_SCOPE";
  Ok (mkIdentity (identity_actor i) (identity_tenant i) (identity_role i) (identity_kind i)
        (organization_id i) (groups i) effective_roles (client_id i) (scopes i)).

(** [StaticTokenAuthenticator.authenticate] *)
Definition authenticate (identities : list (string * Identity)) (token : string) : result Identity :=
  or_raise (assoc token identities) ValueError "INVALID_TOKEN".

(** ** [authorization.py] *)

Inductive Permission :=
  | DECISION_CREATE | DECISION_READ | DECISION_EVALUATE | DECISION_VALIDATE | DECISION_APPROVE
  | REPORT_READ | AUDIT_READ
  | INTAKE_CREATE | INTAKE_READ | INTAKE_CONFIRM | INTAKE_COMPILE
  | RESEARCH_CREATE | RESEARCH_READ | RESEARCH_RETRY | RESEARCH_CANCEL | RESEARCH_HANDOFF
  | RESEARCH_FORCE_REFRESH | RESEARCH_AUDIT_READ
  | PILOT_EXPORT | DATA_DELETE | LEGAL_HOLD_MANAGE.

#[export] Instance Permission_eq_dec : EqDecision Permission.
Proof. solve_decision. Defined.

Definition all_permissions : list Permission :=
  [DECISION_CREATE; DECISION_READ; DECISION_EVALUATE; DECISION_VALIDATE; DECISION_APPROVE;
   REPORT_READ; AUDIT_READ; INTAKE_CREATE; INTAKE_READ; INTAKE_CONFIRM; INTAKE_COMPILE;
   RESEARCH_CREATE; RESEARCH_READ; RESEARCH_RETRY; RESEARCH_CANCEL; RESEARCH_HANDOFF;
   RESEARCH_FORCE_REFRESH; RESEARCH_AUDIT_READ; PILOT_EXPORT; DATA_DELETE; LEGAL_HOLD_MANAGE].

Definition ROLE_PERMISSIONS (r : Role) : list Permission :=
  match r with
  | GENERATOR =>
      [DECISION_CREATE; DECISION_READ; REPORT_READ; INTAKE_CREATE; INTAKE_READ;
       RESEARCH_CREATE; RESEARCH_READ; RESEARCH_CANCEL; RESEARCH_HANDOFF]
  | VALIDATOR =>
      [DECISION_READ; DECISION_EVALUATE; DECISION_VALIDATE; REPORT_READ; INTAKE_READ;
       INTAKE_CONFIRM; INTAKE_COMPILE; RESEARCH_CREATE; RESEARCH_READ; RESEARCH_RETRY;
       RESEARCH_CANCEL; RESEARCH_HANDOFF]
  | APPROVER =>
      [DECISION_READ; DECISION_APPROVE; REPORT_READ; INTAKE_READ; INTAKE_CONFIRM;
       INTAKE_COMPILE; RESEARCH_READ; PILOT_EXPORT]
  | AUDITOR =>
      [DECISION_READ; REPORT_READ; AUDIT_READ; INTAKE_READ; RESEARCH_READ;
       RESEARCH_AUDIT_READ; PILOT_EXPORT]
  | REVIEWER => [DECISION_READ; REPORT_READ; INTAKE_READ; RESEARCH_READ; RESEARCH_AUDIT_READ]
  | TENANT_ADMIN => all_permissions
  | SYSTEM_ADMINISTRATOR => [REPORT_READ; AUDIT_READ; RESEARCH_AUDIT_READ]
  | RESEARCH_OPERATOR =>
      [DECISION_READ; REPORT_READ; RESEARCH_CREATE; RESEARCH_READ; RESEARCH_RETRY;
       RESEARCH_CANCEL; RESEARCH_HANDOFF; RESEARCH_FORCE_REFRESH; RESEARCH_AUDIT_READ]
  | READONLY => [DECISION_READ; REPORT_READ; INTAKE_READ; RESEARCH_READ]
  end.

(** Whether some role of the identity permits. *)
Definition permits (i : Identity) (p : Permission) : bool :=
  existsb (λ r, bool_decide (p ∈ ROLE_PERMISSIONS r)) (elements (identity_roles i)).

Definition authorize (i : Identity) (p : Permission) : result unit :=
  require (permits i p) AuthorizationDenied "FORBIDDEN".

(** ** Facts *)

Lemma permits_spec i p : permits i p = true ↔ ∃ r, r ∈ identity_roles i ∧ p ∈ ROLE_PERMISSIONS r.
Proof.
  unfold permits. rewrite existsb_true_Exists, Exists_exists.
  setoid_rewrite elem_of_elements. setoid_rewrite bool_decide_eq_true. done.
Qed.

Lemma make_identity_roles i j :
  make_identity i = Ok j →
  identity_role j = identity_role i ∧ identity_role j ∈ identity_roles j ∧
  identity_actor j = identity_actor i ∧ str_blank (identity_actor j) = false ∧
  (identity_roles i = ∅ → identity_roles j = {[identity_role i]}) ∧
  (identity_roles i ≠ ∅ → identity_roles j = identity_roles i).
Proof.
  unfold make_identity. intros H. inv_ok. cbn in *. bool_prop.
  split_and!; try done; intros; case_bool_decide; done.
Qed.

(** The duties that must not meet in one role. *)
Definition duties : list Permission := [DECISION_CREATE; DECISION_VALIDATE; DECISION_APPROVE].

(** Authorization is exactly the role table: a permission is granted when some role of the
    identity has it and refused with FORBIDDEN otherwise; an identity built with no roles acts
    in its primary role; and below TENANT_ADMIN no single role can both create and validate,
    create and approve, or validate and approve a decision. *)
Theorem authorize_exact i j p :
  make_identity i = Ok j →
  (authorize j p = Ok tt ↔ ∃ r, r ∈ identity_roles j ∧ p ∈ ROLE_PERMISSIONS r) ∧
  (authorize j p ≠ Ok tt → authorize j p = Raise (Exn AuthorizationDenied ["FORBIDDEN"])) ∧
  (∀ q, identity_roles i = ∅ → identity_role i ≠ TENANT_ADMIN → p ∈ duties → q ∈ duties →
     authorize j p = Ok tt → authorize j q = Ok tt → p = q).
Proof.
  intros Hj. apply make_identity_roles in Hj as (_ & _ & _ & _ & Hd & _).
  unfold authorize. split_and!.
  - by rewrite require_Ok, permits_spec.
  - by destruct (permits j p).
  - intros q He Ha Hp Hq. rewrite !require_Ok, !permits_spec, (Hd He).
    intros (r & ->%elem_of_singleton & Hrp) (r' & ->%elem_of_singleton & Hrq).
    unfold duties in *. destruct (identity_role i); try done; cbn in *; set_solver.
Qed.

Definition sample_tenant : TenantContext := mkTenant "t1".
Definition identity_of (name : string) (r : Role) (k : ActorKind) : Identity :=
  mkIdentity name sample_tenant r k None [] ∅ None [].

Lemma authorize_exact_witness :
  ∃ j, make_identity (identity_of "bob" APPROVER HUMAN) = Ok j ∧
    authorize j DECISION_APPROVE = Ok tt ∧
    (authorize j DECISION_CREATE = Ok tt → DECISION_CREATE = DECISION_APPROVE).
Proof.
  destruct (succeeds_with_Ok (make_identity (identity_of "bob" APPROVER HUMAN))
    (λ j, permits j DECISION_APPROVE)) as (j & E & Hp); [vm_compute; reflexivity|].
  exists j. split; [exact E|].
  assert (authorize j DECISION_APPROVE = Ok tt) as Hb by (unfold authorize; by rewrite Hp).
  split; [exact Hb|]. intros Ha.
  apply (authorize_exact (identity_of "bob" APPROVER HUMAN) j DECISION_CREATE E);
    [reflexivity|discriminate|set_solver|set_solver|exact Ha|exact Hb].
Defined.
