(* ===== verification/PyDecimal.v ===== *)
(** * [decimal.Decimal]

    What the program uses of the decimal numbers of the standard library: reading one from a
    text, comparing, [int] and [str]. Decimal digits are the ASCII ones. *)

From S2P Require Import Prelude PyVal PyTime Identity.
From stdpp Require Import options.
Local Open Scope Z_scope.

(** A finite number is [(-1)^neg * coefficient * 10^exponent]. *)
Inductive decimal :=
  | Finite (neg : bool) (coefficient : Z) (exponent : Z)
  | Infinite (neg : bool)
  | NotANumber.

#[export] Instance decimal_eq_dec : EqDecision decimal.
Proof. solve_decision. Defined.

(** ** Reading *)

(** The leading digits: their value, how many, and the rest. *)
Fixpoint span_digits (value : Z) (n : nat) (s : string) : Z * nat * string :=
  match s with
  | String c s' => if is_digit c then span_digits (value * 10 + digit_val c) (S n) s' else (value, n, s)
  | EmptyString => (value, n, s)
  end.

Definition ascii_lower (c : ascii) : ascii :=
  let n := Ascii.nat_of_ascii c in
  if ((65 <=? n) && (n <=? 90))%nat then Ascii.ascii_of_nat (n + 32) else c.
Fixpoint lower_ascii (s : string) : string :=
  match s with EmptyString => EmptyString | String c s => String (ascii_lower c) (lower_ascii s) end.

(** An optional sign. *)
Definition read_sign (s : string) : bool * string :=
  match s with
  | String c s' => if Ascii.eqb c "-" then (true, s') else if Ascii.eqb c "+" then (false, s') else (false, s)
  | EmptyString => (false, s)
  end.

(** An optional exponent, up to the end of the text. *)
Definition read_exponent (s : string) : option Z :=
  match s with
  | EmptyString => Some 0
  | String c s =>
      if Ascii.eqb (ascii_lower c) "e" then
        let '(neg, s) := read_sign s in
        let '(e, n, rest) := span_digits 0 0 s in
        if (0 <? n)%nat && (rest =? "")%string then Some (if neg then - e else e) else None
      else None
  end.

(** Digits with an optional point, at least one digit in all, then the exponent. *)
Definition read_number (neg : bool) (s : string) : option decimal :=
  let '(i, n, rest) := span_digits 0 0 s in
  match expect "." rest with
  | Some rest' =>
      let '(c, m, rest'') := span_digits i 0 rest' in
      e ← read_exponent rest'';
      if (0 <? n + m)%nat then Some (Finite neg c (e - Z.of_nat m)) else None
  | None =>
      e ← read_exponent rest;
      if (0 <? n)%nat then Some (Finite neg i e) else None
  end.

Definition all_digits (s : string) : bool := let '(_, _, rest) := span_digits 0 0 s in (rest =? "")%string.
Definition drop_prefix (p s : string) : option string :=
  if str_startswith p s then Some (String.substring (String.length p) (String.length s - String.length p) s)
  else None.

Definition read_special (neg : bool) (s : string) : option decimal :=
  let s := lower_ascii s in
  if (s =? "inf")%string || (s =? "infinity")%string then Some (Infinite neg)
  else
    match drop_prefix "nan" s with
    | Some rest => if all_digits rest then Some NotANumber else None
    | None =>
        match drop_prefix "snan" s with
        | Some rest => if all_digits rest then Some NotANumber else None
        | None => None
        end
    end.

(** [s.strip()] and [.replace("_", "")] on code points. *)
Fixpoint drop_spaces (l : list string) : list string :=
  match l with
  | c :: l' => if is_space c then drop_spaces l' else l
  | [] => []
  end.
Definition str_strip (s : string) : string :=
  str_join "" (rev (drop_spaces (rev (drop_spaces (code_points s))))).
Definition without_underscores (s : string) : string :=
  str_join "" (filter (λ c, c ≠ "_") (code_points s)).

(** [Decimal(s)] *)
Definition decimal_of_str (s : string) : result decimal :=
  let '(neg, rest) := read_sign (without_underscores (str_strip s)) in
  or_raise (match read_number neg rest with Some d => Some d | None => read_special neg rest end)
    InvalidOperation "ConversionSyntax".

(** ** Comparing *)

Definition signed (neg : bool) (c : Z) : Z := if neg then - c else c.

(** Two finite numbers at a common exponent. *)
Definition finite_compare (d e : bool * Z * Z) : comparison :=
  let '(nd, cd, xd) := d in
  let '(ne, ce, xe) := e in
  let x := Z.min xd xe in
  Z.compare (signed nd cd * 10 ^ (xd - x)) (signed ne ce * 10 ^ (xe - x)).

(** The order of two numbers; an ordering comparison with a NaN signals. *)
Definition decimal_compare (d e : decimal) : result comparison :=
  match d, e with
  | NotANumber, _ | _, NotANumber => raise InvalidOperation "comparison involving NaN"
  | Finite nd cd xd, Finite ne ce xe => Ok (finite_compare (nd, cd, xd) (ne, ce, xe))
  | Infinite nd, Infinite ne => Ok (Z.compare (signed nd 1) (signed ne 1))
  | Infinite nd, Finite _ _ _ => Ok (if nd then Lt else Gt)
  | Finite _ _ _, Infinite ne => Ok (if ne then Gt else Lt)
  end.

Definition decimal_gt (d e : decimal) : result bool :=
  (λ c, match c with Gt => true | _ => false end) <$> decimal_compare d e.
Definition decimal_lt (d e : decimal) : result bool :=
  (λ c, match c with Lt => true | _ => false end) <$> decimal_compare d e.
Definition decimal_ge (d e : decimal) : result bool :=
  (λ c, match c with Lt => false | _ => true end) <$> decimal_compare d e.

(** [int(d)]: towards zero. *)
Definition decimal_int (d : decimal) : result Z :=
  match d with
  | Finite neg c x => Ok (signed neg (if 0 <=? x then c * 10 ^ x else c / 10 ^ (- x)))
  | Infinite _ => raise OverflowError "cannot convert Infinity to integer"
  | NotANumber => raise ValueError "cannot convert NaN to integer"
  end.

(** ** Writing *)

Definition zeros (n : Z) : string := str_join "" (repeat "0" (Z.to_nat n)).

(** [str(d)] of a number; a NaN never reaches a text here. *)
Definition decimal_str (d : decimal) : string :=
  match d with
  | NotANumber => "NaN"
  | Infinite neg => (if neg then "-" else "") +:+ "Infinity"
  | Finite neg c x =>
      let digits := pretty c in
      let n := Z.of_nat (String.length digits) in
      let leftdigits := x + n in
      let dotplace := if (x <=? 0) && (-6 <? leftdigits) then leftdigits else 1 in
      let intpart := if dotplace <=? 0 then "0"
                     else if n <=? dotplace then digits +:+ zeros (dotplace - n)
                     else String.substring 0 (Z.to_nat dotplace) digits in
      let fracpart := if dotplace <=? 0 then "." +:+ zeros (- dotplace) +:+ digits
                      else if n <=? dotplace then ""
                      else "." +:+ String.substring (Z.to_nat dotplace) (Z.to_nat (n - dotplace)) digits in
      let exp := if leftdigits =? dotplace then ""
                 else "E" +:+ (if 0 <=? leftdigits - dotplace then "+" else "") +:+
                      pretty (leftdigits - dotplace) in
      (if neg then "-" else "") +:+ intpart +:+ fracpart +:+ exp
  end.

(** Readings of the texts policies and facts carry. *)
Example reads_percent : decimal_of_str " 12.50 " = Ok (Finite false 1250 (-2)).
Proof. reflexivity. Qed.
Example reads_exponent : decimal_of_str "-1_000e3" = Ok (Finite true 1000 3).
Proof. reflexivity. Qed.
Example refuses_text : decimal_of_str "12 %" = raise InvalidOperation "ConversionSyntax".
Proof. reflexivity. Qed.
Example writes_percent : decimal_str (Finite false 1250 (-2)) = "12.50".
Proof. reflexivity. Qed.
Example writes_scientific : decimal_str (Finite true 1000 3) = "-1.000E+6".
Proof. reflexivity. Qed.

(** ** Laws *)

(** Comparison of finite numbers is exact: rescaling one of them changes nothing. *)
Lemma finite_compare_rescale nd cd xd e k :
  0 <= k → finite_compare (nd, cd * 10 ^ k, xd - k) e = finite_compare (nd, cd, xd) e.
Proof.
  destruct e as [[ne ce] xe]. intros Hk. unfold finite_compare.
  set (x := Z.min xd xe). set (y := Z.min (xd - k) xe).
  assert (y <= x ∧ x <= xd ∧ x <= xe ∧ y <= xd - k) as (H1 & H2 & H3 & H4) by lia.
  replace (signed nd (cd * 10 ^ k) * 10 ^ (xd - k - y)) with (signed nd cd * 10 ^ (xd - x) * 10 ^ (x - y)).
  2:{ assert (signed nd (cd * 10 ^ k) = signed nd cd * 10 ^ k) as -> by (destruct nd; cbn; lia).
      rewrite <-!Z.mul_assoc, <-!Z.pow_add_r by lia. do 2 f_equal. lia. }
  replace (signed ne ce * 10 ^ (xe - y)) with (signed ne ce * 10 ^ (xe - x) * 10 ^ (x - y))
    by (rewrite <-!Z.mul_assoc, <-!Z.pow_add_r by lia; do 2 f_equal; lia).
  symmetry. apply Zmult_compare_compat_r. apply Z.lt_gt. lia.
Qed.
