(* ===== verification/Intake.v ===== *)
(** * Controlled intake

    [intake/contracts.py], [intake/lifecycle.py], [intake/verification.py],
    [intake/confirmation.py] and [intake/compiler.py]: the facts a text is read into, their
    verification against the tenant's policy, the confirmations humans give, and the compilation
    of a verified intake into a Decision File. *)

From S2P Require Import Prelude PyVal Json Sha256 PyTime AuditChain Document Identity PyDecimal.
From stdpp Require Import options.

(** ** [intake/contracts.py] *)

Inductive IntakeStatus := RECEIVED | EXTRACTED | NEEDS_CONFIRMATION | READY | COMPILED | INTAKE_REJECTED.
Inductive VerificationStatus := UNRESOLVED | VERIFIED | HUMAN_CONFIRMED | REJECTED.
Inductive FactType :=
  | AMOUNT | DISCOUNT_PERCENT | DISCOUNT_LIMIT_PERCENT | MARGIN_PERCENT | MIN_MARGIN_PERCENT
  | PAYMENT_TERM_DAYS | DURATION_MONTHS | DATE | EVIDENCE_DATE | POLICY_CLAIM | EXCEPTION_CLAIM
  | APPROVAL_CLAIM | SELF_APPROVAL_CLAIM | ROLE_CLAIM | UNTRUSTED_INSTRUCTION.

#[export] Instance IntakeStatus_eq_dec : EqDecision IntakeStatus.
Proof. solve_decision. Defined.
#[export] Instance VerificationStatus_eq_dec : EqDecision VerificationStatus.
Proof. solve_decision. Defined.
#[export] Instance FactType_eq_dec : EqDecision FactType.
Proof. solve_decision. Defined.

Definition fact_type_value (t : FactType) : string :=
  match t with
  | AMOUNT => "AMOUNT" | DISCOUNT_PERCENT => "DISCOUNT_PERCENT"
  | DISCOUNT_LIMIT_PERCENT => "DISCOUNT_LIMIT_PERCENT" | MARGIN_PERCENT => "MARGIN_PERCENT"
  | MIN_MARGIN_PERCENT => "MIN_MARGIN_PERCENT" | PAYMENT_TERM_DAYS => "PAYMENT_TERM_DAYS"
  | DURATION_MONTHS => "DURATION_MONTHS" | DATE => "DATE" | EVIDENCE_DATE => "EVIDENCE_DATE"
  | POLICY_CLAIM => "POLICY_CLAIM" | EXCEPTION_CLAIM => "EXCEPTION_CLAIM"
  | APPROVAL_CLAIM => "APPROVAL_CLAIM" | SELF_APPROVAL_CLAIM => "SELF_APPROVAL_CLAIM"
  | ROLE_CLAIM => "ROLE_CLAIM" | UNTRUSTED_INSTRUCTION => "UNTRUSTED_INSTRUCTION"
  end.

Record SourceReference := mkSource {
  source_id : string; source_start : Z; source_end : Z; source_hash : string
}.

Record CandidateFact := mkFact {
  fact_id : string; fact_type : FactType; raw_value : string; normalized_value : option string;
  source : SourceReference; extraction_method : string; method_version : string;
  extraction_confidence : pyval; verification_status : VerificationStatus;
  unit_of : option string; currency : option string; conflict_refs : list string;
  confirmation_required : bool; confirmed_by_actor_id : option string;
  confirmed_by_role : option string
}.

Record IntakeConflict := mkIntakeConflict {
  intake_conflict_id : string; conflict_type : FactType; fact_refs : list string; conflict_reason : string
}.

Record VerificationRequirement := mkVerificationRequirement {
  vr_id : string; vr_type : FactType; vr_reason : string; vr_mandatory : bool
}.

Record ExtractionReport := mkExtraction {
  ex_intake : string; ex_method : string; ex_version : string; ex_locale : string;
  ex_candidates : list CandidateFact; ex_conflicts : list IntakeConflict;
  ex_requirements : list VerificationRequirement
}.

Record DerivedFinding := mkDerived {
  finding_id : string; rule_id : string; finding_refs : list string; policy_ref : option string;
  calculation : string; result_code : string
}.

Record HumanConfirmation := mkConfirmation {
  confirmation_id : string; confirmed_fact : string; action : string; confirming_actor : string;
  old_value : option string; new_value : option string; confirmation_reason : string;
  confirmed_at : string
}.

Record PolicyContext := mkPolicyContext {
  ctx_policy_id : string; ctx_policy_version : string; effective_date : string;
  maximum_discount_percent : string; minimum_margin_percent : string;
  maximum_duration_months_without_exception : Z; requires_approval_above_amount : string;
  maximum_evidence_age_days : Z; required_approval_count : Z
}.

Record VerificationReport := mkReport {
  report_intake : string; candidates : list CandidateFact; report_findings : list DerivedFinding;
  unresolved_requirement_refs : list string; ready : bool; report_reasons : list string
}.

(** [replace(candidate, verification_status=..., confirmation_required=...)] *)
Definition set_status (c : CandidateFact) (s : VerificationStatus) (required : bool) : CandidateFact :=
  mkFact (fact_id c) (fact_type c) (raw_value c) (normalized_value c) (source c) (extraction_method c)
    (method_version c) (extraction_confidence c) s (unit_of c) (currency c) (conflict_refs c) required
    (confirmed_by_actor_id c) (confirmed_by_role c).

(** ** [intake/lifecycle.py] *)

Definition intake_allowed : list (IntakeStatus * IntakeStatus) :=
  [(RECEIVED, EXTRACTED); (EXTRACTED, NEEDS_CONFIRMATION); (EXTRACTED, READY);
   (NEEDS_CONFIRMATION, READY); (READY, NEEDS_CONFIRMATION); (READY, COMPILED)].

Definition next_status (source target : IntakeStatus) (is_ready : bool) : result IntakeStatus :=
  if bool_decide (target = INTAKE_REJECTED) && bool_decide (source ∉ [COMPILED; INTAKE_REJECTED])
  then Ok target
  else
    _ ← require (bool_decide ((source, target) ∈ intake_allowed)) IntakeTransitionRejected
          "INTAKE_TRANSITION_NOT_ALLOWED";
    _ ← require (negb (bool_decide (target = READY)) || is_ready) IntakeTransitionRejected
          "INTAKE_NOT_READY";
    Ok target.

(** ** [intake/verification.py] *)

(** [str.lower], the case mapping of the Unicode tables. *)
Class CaseMapping := str_lower : string → string.

Definition _OBJECTIVE_FACTS : list FactType :=
  [AMOUNT; DISCOUNT_PERCENT; MARGIN_PERCENT; PAYMENT_TERM_DAYS; DURATION_MONTHS; DATE; EVIDENCE_DATE].
(** In the order [sorted(missing, key=str)] gives. *)
Definition _REQUIRED_FACTS : list FactType := [AMOUNT; DISCOUNT_PERCENT; MARGIN_PERCENT].

Section verification.
Context `{CaseMapping}.

Definition is_resolved (c : CandidateFact) : bool :=
  bool_decide (verification_status c ∈ [VERIFIED; HUMAN_CONFIRMED]).

(** [_verify_candidate] *)
Definition _verify_candidate (c : CandidateFact) : CandidateFact :=
  if bool_decide (verification_status c ∈ [HUMAN_CONFIRMED; REJECTED]) then c
  else if bool_decide (fact_type c ∈ _OBJECTIVE_FACTS) && bool_decide (normalized_value c ≠ None)
  then set_status c VERIFIED false
  else if bool_decide (fact_type c = UNTRUSTED_INSTRUCTION)
  then set_status c REJECTED (confirmation_required c)
  else c.

(** The spans of the two facts overlap. *)
Definition overlaps (instruction c : CandidateFact) : bool :=
  ((source_start (source instruction) <? source_end (source c)) &&
   (source_start (source c) <? source_end (source instruction)))%Z.

(** [_reject_embedded_governance_claims] *)
Definition _reject_embedded_governance_claims (cs : list CandidateFact) : list CandidateFact :=
  let instructions := filter (λ c, fact_type c = UNTRUSTED_INSTRUCTION) cs in
  map (λ c, if bool_decide (fact_type c ∈ [POLICY_CLAIM; APPROVAL_CLAIM; ROLE_CLAIM]) &&
               existsb (λ i, overlaps i c) instructions
            then set_status c REJECTED false else c) cs.

(** [_verify_policy_references] *)
Definition _verify_policy_references (cs : list CandidateFact) (policy : option PolicyContext) :
    list CandidateFact :=
  match policy with
  | None => cs
  | Some p =>
      map (λ c, if bool_decide (fact_type c = POLICY_CLAIM) &&
                   negb (str_contains (str_lower (ctx_policy_id p))
                           (str_lower (default "" (normalized_value c))))
                then set_status c REJECTED false else c) cs
  end.

Definition verify_candidates (cs : list CandidateFact) (policy : option PolicyContext) : list CandidateFact :=
  _verify_policy_references (_reject_embedded_governance_claims (map _verify_candidate cs)) policy.

(** *** [_compare_policy]: each rule yields at most one finding *)

(** A finding before it is numbered: rule, facts, calculation, code. *)
Definition draft_finding : Type := string * list string * string * string.

Definition value (cs : list CandidateFact) (t : FactType) : option CandidateFact :=
  List.find (λ c, bool_decide (fact_type c = t)) cs.

Definition date_isoformat (d : Z * Z * Z) : string :=
  let '(y, m, d) := d in pad_app 4 y ("-" +:+ pad_app 2 m ("-" +:+ pad_app 2 d "")).

Definition ordinal (d : Z * Z * Z) : Z := let '(y, m, d) := d in toordinal y m d.

(** A text that is there and not empty. *)
Definition truthy_text (o : option string) : option string :=
  match o with Some s => if s =? "" then None else Some s | None => None end.

Definition rejected_claim_rule (cs : list CandidateFact) : result (list draft_finding) :=
  Ok (match List.find (λ c, bool_decide (fact_type c = POLICY_CLAIM) &&
                            bool_decide (verification_status c = REJECTED)) cs with
      | Some c => [("POLICY_REGISTRY_LOOKUP", [fact_id c],
                    "claimed policy reference does not match the trusted active registry entry",
                    "POLICY_REFERENCE_NOT_REGISTERED")]
      | None => []
      end).

Definition effective_date_rule (p : PolicyContext) (today : Z * Z * Z) : result (list draft_finding) :=
  effective ← date_fromisoformat (effective_date p);
  Ok (if (ordinal today <? effective)%Z
      then [("POLICY_EFFECTIVE_DATE", [],
             effective_date p +:+ " compared with " +:+ date_isoformat today, "POLICY_NOT_EFFECTIVE")]
      else []).

(** One of the two percentage checks against its limit. *)
Definition limit_rule (candidate : option CandidateFact) (limit : decimal)
    (violates : decimal → decimal → result bool) (rule code : string) : result (list draft_finding) :=
  match candidate with
  | Some c =>
      match normalized_value c with
      | Some v =>
          actual ← decimal_of_str v;
          bad ← violates actual limit;
          Ok (if (bad : bool)
              then [(rule, [fact_id c], decimal_str actual +:+ " compared with " +:+ decimal_str limit, code)]
              else [])
      | None => Ok []
      end
  | None => Ok []
  end.

Definition limits_rule (cs : list CandidateFact) (p : PolicyContext) : result (list draft_finding) :=
  maximum ← decimal_of_str (maximum_discount_percent p);
  minimum ← decimal_of_str (minimum_margin_percent p);
  discount ← limit_rule (value cs DISCOUNT_PERCENT) maximum decimal_gt "DISCOUNT_MAXIMUM"
               "DISCOUNT_ABOVE_POLICY_LIMIT";
  margin ← limit_rule (value cs MARGIN_PERCENT) minimum decimal_lt "MARGIN_MINIMUM"
             "MARGIN_BELOW_POLICY_MINIMUM";
  Ok (discount ++ margin).

Definition freshness_rule (cs : list CandidateFact) (p : PolicyContext) (today : Z * Z * Z) :
    result (list draft_finding) :=
  match value cs EVIDENCE_DATE with
  | Some c =>
      match truthy_text (normalized_value c) with
      | Some v =>
          observed ← date_fromisoformat v;
          let age := (ordinal today - observed)%Z in
          Ok (if (maximum_evidence_age_days p <? age)%Z
              then [("EVIDENCE_FRESHNESS", [fact_id c],
                     pretty age +:+ " days compared with " +:+ pretty (maximum_evidence_age_days p) +:+ " days",
                     "EVIDENCE_OUTDATED")]
              else [])
      | None => Ok []
      end
  | None => Ok []
  end.

Definition verified_exception (cs : list CandidateFact) (p : PolicyContext) : bool :=
  existsb (λ c, bool_decide (fact_type c ∈ [POLICY_CLAIM; EXCEPTION_CLAIM]) &&
                bool_decide (verification_status c = HUMAN_CONFIRMED) &&
                str_contains (ctx_policy_id p) (default "" (normalized_value c))) cs.

Definition duration_rule (cs : list CandidateFact) (p : PolicyContext) : result (list draft_finding) :=
  match value cs DURATION_MONTHS with
  | Some c =>
      match truthy_text (normalized_value c) with
      | Some v =>
          d ← decimal_of_str v;
          months ← decimal_int d;
          Ok (if (maximum_duration_months_without_exception p <? months)%Z && negb (verified_exception cs p)
              then [("DURATION_EXCEPTION", [fact_id c],
                     v +:+ " months compared with " +:+
                       pretty (maximum_duration_months_without_exception p) +:+ " months",
                     "DURATION_EXCEPTION_REQUIRED")]
              else [])
      | None => Ok []
      end
  | None => Ok []
  end.

Definition confirmed_approvals (cs : list CandidateFact) : list CandidateFact :=
  filter (λ c, fact_type c = APPROVAL_CLAIM ∧ verification_status c = HUMAN_CONFIRMED ∧
               confirmed_by_role c = Some "APPROVER") cs.
Definition distinct_approvers (cs : list CandidateFact) : list string :=
  fromkeys (omap confirmed_by_actor_id (confirmed_approvals cs)).

Definition approval_rule (cs : list CandidateFact) (p : PolicyContext) : result (list draft_finding) :=
  match value cs AMOUNT with
  | Some c =>
      match truthy_text (normalized_value c) with
      | Some v =>
          amount ← decimal_of_str v;
          threshold ← decimal_of_str (requires_approval_above_amount p);
          above ← decimal_ge amount threshold;
          let n := Z.of_nat (length (distinct_approvers cs)) in
          Ok (if (above : bool) && (n <? required_approval_count p)%Z
              then [("REQUIRED_APPROVAL_COUNT", fact_id c :: map fact_id (confirmed_approvals cs),
                     pretty n +:+ " distinct authenticated approvers compared with " +:+
                       pretty (required_approval_count p),
                     "REQUIRED_APPROVAL_MISSING")]
              else [])
      | None => Ok []
      end
  | None => Ok []
  end.

Definition self_approval_rule (cs : list CandidateFact) : result (list draft_finding) :=
  Ok (match List.find (λ c, bool_decide (fact_type c = SELF_APPROVAL_CLAIM) &&
                            bool_decide (verification_status c = HUMAN_CONFIRMED)) cs with
      | Some c => [("ROLE_INDEPENDENCE", [fact_id c],
                    "confirmed self-approval violates independent approval",
                    "SEPARATION_OF_DUTIES_VIOLATION")]
      | None => []
      end).

Definition override_rule (cs : list CandidateFact) : result (list draft_finding) :=
  Ok (match value cs UNTRUSTED_INSTRUCTION with
      | Some c =>
          if existsb (λ term, str_contains term (str_lower (raw_value c)))
               ["generator"; "validator"; "approver"; "approved"]
          then [("GOVERNANCE_OVERRIDE", [fact_id c],
                 "untrusted input attempted to override authenticated governance roles",
                 "GOVERNANCE_OVERRIDE_ATTEMPT")]
          else []
      | None => []
      end).

(** The findings in the order their rules run, each numbered by its position. *)
Definition number_findings (intake : string) (p : PolicyContext) (l : list draft_finding) : list DerivedFinding :=
  map (λ x, let '(n, (rule, refs, calc, code)) := x in
            mkDerived (intake +:+ ":derived:" +:+ pretty n) rule refs
              (Some (ctx_policy_id p +:+ "@" +:+ ctx_policy_version p)) calc code)
    (enumerate 1 l).

Definition _compare_policy (intake : string) (cs : list CandidateFact) (p : PolicyContext)
    (today : Z * Z * Z) : result (list DerivedFinding) :=
  a ← rejected_claim_rule cs;
  b ← effective_date_rule p today;
  c ← limits_rule cs p;
  d ← freshness_rule cs p today;
  e ← duration_rule cs p;
  f ← approval_rule cs p;
  g ← self_approval_rule cs;
  h ← override_rule cs;
  Ok (number_findings intake p (a ++ b ++ c ++ d ++ e ++ f ++ g ++ h)).

(** *** [_build_report] *)

Definition missing_facts (cs : list CandidateFact) : list FactType :=
  filter (λ t, t ∉ map fact_type (filter (λ c, is_resolved c = true) cs)) _REQUIRED_FACTS.

(** A claim that still waits for a human. *)
Definition untrusted (c : CandidateFact) : bool :=
  confirmation_required c && bool_decide (verification_status c = UNRESOLVED) &&
  bool_decide (fact_type c ∈ [POLICY_CLAIM; EXCEPTION_CLAIM; APPROVAL_CLAIM; SELF_APPROVAL_CLAIM]).

Definition build_reasons (cs : list CandidateFact) (policy : option PolicyContext) (refs : list string)
    (conflicts_unresolved : bool) : list string :=
  fromkeys
    ((match policy with None => ["TRUSTED_POLICY_UNAVAILABLE"] | Some _ => [] end) ++
     (if conflicts_unresolved then ["CONFLICTS_UNRESOLVED"] else []) ++
     (match refs with [] => [] | _ => ["MANDATORY_INFORMATION_MISSING"] end) ++
     map (λ t, "REQUIRED_FACT_MISSING:" +:+ fact_type_value t) (missing_facts cs) ++
     (if existsb untrusted cs then ["HUMAN_CONFIRMATION_REQUIRED"] else [])).

Definition _build_report (intake : string) (cs : list CandidateFact) (policy : option PolicyContext)
    (refs : list string) (conflicts_unresolved : bool) (today : Z * Z * Z) : result VerificationReport :=
  findings ← match policy with
             | None => Ok []
             | Some p => _compare_policy intake cs p today
             end;
  let reasons := build_reasons cs policy refs conflicts_unresolved in
  Ok (mkReport intake cs findings refs (bool_decide (reasons = [])) reasons).

(** [IntakeVerifier.verify]; [get_active] is the policy registry, [today] the reference date. *)
Definition verify (get_active : string → option PolicyContext) (today : Z * Z * Z) (tenant : string)
    (extraction : ExtractionReport) : result VerificationReport :=
  let policy := get_active tenant in
  let cs := verify_candidates (ex_candidates extraction) policy in
  _build_report (ex_intake extraction) cs policy (map vr_id (ex_requirements extraction))
    (negb (bool_decide (length (ex_conflicts extraction) = 0))) today.

(** [IntakeVerifier.reverify] *)
Definition reverify (get_active : string → option PolicyContext) (today : Z * Z * Z) (tenant : string)
    (report : VerificationReport) : result VerificationReport :=
  let policy := get_active tenant in
  let cs := verify_candidates (candidates report) policy in
  let confirmed_approval := existsb (λ c, bool_decide (fact_type c = APPROVAL_CLAIM) &&
                                          bool_decide (verification_status c = HUMAN_CONFIRMED)) cs in
  let refs := filter (λ r, negb (confirmed_approval && str_contains ":requirement:APPROVAL_CLAIM:" r) = true)
                (unresolved_requirement_refs report) in
  _build_report (report_intake report) cs policy refs
    (str_in "CONFLICTS_UNRESOLVED" (report_reasons report)) today.
End verification.

(** ** [json.dumps(..., sort_keys=True, separators=(",", ":"))], escaping what is not ASCII *)

(** The number of a code point given by its UTF-8 bytes. *)
Definition code_point_number (c : string) : Z :=
  let bytes := map (λ a, Z.of_nat (Ascii.nat_of_ascii a)) (String.list_ascii_of_string c) in
  match bytes with
  | [a] => a
  | [a; b] => (a - 192) * 64 + (b - 128)
  | [a; b; d] => (a - 224) * 4096 + (b - 128) * 64 + (d - 128)
  | [a; b; d; e] => (a - 240) * 262144 + (b - 128) * 4096 + (d - 128) * 64 + (e - 128)
  | _ => 0
  end%Z.

Definition hex_digit_of (z : Z) : ascii :=
  Ascii.ascii_of_nat (Z.to_nat (if (z <? 10)%Z then 48 + z else 87 + z)).
Definition unicode_escape (n : Z) : string :=
  String "\" (String "u" (String (hex_digit_of (n / 4096 mod 16)) (String (hex_digit_of (n / 256 mod 16))
    (String (hex_digit_of (n / 16 mod 16)) (String (hex_digit_of (n mod 16)) EmptyString)))))%Z.

Definition ascii_escape_point (c : string) : string :=
  let n := code_point_number c in
  if (n <? 127)%Z then c
  else if (n <? 65536)%Z then unicode_escape n
  else unicode_escape (55296 + (n - 65536) / 1024)%Z +:+ unicode_escape (56320 + (n - 65536) mod 1024)%Z.
Definition ascii_json (v : pyval) : string :=
  str_join "" (map ascii_escape_point (code_points (canonical_json v))).

(** ** [intake/confirmation.py] *)

Section confirmation.
Context `{HashAlg}.

Definition confirmation_digest (intake fact action actor : string) (new_value : option string)
    (reason occurred_at : string) : string :=
  String.substring 0 24 (hexdigest (ascii_json (PDict
    [("intake_id", PStr intake); ("fact_id", PStr fact); ("action", PStr action);
     ("actor_id", PStr actor); ("new_value", opt_json new_value); ("reason", PStr reason);
     ("occurred_at", PStr occurred_at)]))).

(** The fact after a human decided on it. *)
Definition decided_fact (c : CandidateFact) (action : string) (new_value : option string) (identity : Identity) :
    CandidateFact :=
  mkFact (fact_id c) (fact_type c) (raw_value c)
    (if action =? "CORRECT" then new_value else normalized_value c) (source c) (extraction_method c)
    (method_version c) (extraction_confidence c)
    (if action =? "REJECT" then REJECTED else HUMAN_CONFIRMED) (unit_of c) (currency c) (conflict_refs c)
    false (Some (identity_actor identity)) (Some (role_value (identity_role identity))).

Definition awaits_human (c : CandidateFact) : bool :=
  confirmation_required c && bool_decide (verification_status c = UNRESOLVED).

Definition confirm_fact (report : VerificationReport) (id action : string) (new_value : option string)
    (reason occurred_at : string) (identity : Identity) : result (VerificationReport * HumanConfirmation) :=
  _ ← require (bool_decide (identity_kind identity = HUMAN)) ConfirmationRejected "HUMAN_ACTOR_REQUIRED";
  _ ← require (permits identity INTAKE_CONFIRM) ConfirmationRejected "INTAKE_CONFIRMATION_FORBIDDEN";
  _ ← require (str_in action ["CONFIRM"; "CORRECT"; "REJECT"]) ConfirmationRejected
        "INVALID_CONFIRMATION_ACTION";
  _ ← require (negb ((action =? "CORRECT") && bool_decide (truthy_text new_value = None)))
        ConfirmationRejected "CORRECTED_VALUE_REQUIRED";
  _ ← require (negb (str_blank reason)) ConfirmationRejected "CONFIRMATION_REASON_REQUIRED";
  current ← or_raise (List.find (λ c, fact_id c =? id) (candidates report)) ConfirmationRejected "FACT_NOT_FOUND";
  let confirmation := mkConfirmation
    (report_intake report +:+ ":confirmation:" +:+
       confirmation_digest (report_intake report) id action (identity_actor identity) new_value reason occurred_at)
    id action (identity_actor identity) (normalized_value current) new_value reason occurred_at in
  let updated := decided_fact current action new_value identity in
  let cs := map (λ c, if fact_id c =? id then updated else c) (candidates report) in
  let kept := filter (λ code, code ≠ "HUMAN_CONFIRMATION_REQUIRED" ∨ existsb awaits_human cs = true)
                (report_reasons report) in
  let reasons := if (action =? "CORRECT") && negb (str_in "REVERIFICATION_REQUIRED" kept)
                 then kept ++ ["REVERIFICATION_REQUIRED"] else kept in
  let is_ready := bool_decide (reasons = []) && bool_decide (length (report_findings report) = 0) &&
                  bool_decide (unresolved_requirement_refs report = []) in
  Ok (mkReport (report_intake report) cs (report_findings report) (unresolved_requirement_refs report)
        is_ready reasons, confirmation).
End confirmation.

(** ** [intake/compiler.py] *)

Section compiler.
Context `{HashAlg}.

Definition value_text (o : option string) : string := default "None" o.

Definition claim_of (x : nat * CandidateFact) : Claim :=
  mkClaim ("claim-" +:+ pretty x.1)
    (fact_type_value (fact_type x.2) +:+ " = " +:+ value_text (normalized_value x.2)) true.

Definition evidence_of (x : nat * CandidateFact) : Evidence :=
  mkEvidence (fact_id x.2) ["claim-" +:+ pretty x.1]
    (source_id (source x.2) +:+ ":" +:+ pretty (source_start (source x.2)) +:+ "-" +:+
       pretty (source_end (source x.2)))
    "VERIFIED" None (Some (source_hash (source x.2))).

Definition mandatory_codes : list string :=
  ["MARGIN_BELOW_POLICY_MINIMUM"; "POLICY_NOT_EFFECTIVE"; "POLICY_REFERENCE_NOT_REGISTERED";
   "SEPARATION_OF_DUTIES_VIOLATION"; "GOVERNANCE_OVERRIDE_ATTEMPT"].

Definition constraint_of (f : DerivedFinding) : Constraint :=
  mkConstraint (finding_id f)
    (if str_in (result_code f) mandatory_codes then "MANDATORY" else "REVIEW_REQUIRED") false (result_code f).

Definition compiler_actor (actor_id : string) : Actor := mkActor actor_id "GENERATOR" "SERVICE".

Definition resolved_facts (report : VerificationReport) : list CandidateFact :=
  filter (λ c, is_resolved c = true) (candidates report).

Definition compiled_event (report : VerificationReport) (actor : Actor) (timestamp : string) : AuditEvent :=
  mkEvent (report_intake report +:+ "-decision:audit:1") "intake.compiled" timestamp actor None "DRAFT"
    ["VERIFIED_INTAKE_COMPILED"]
    ("sha256:" +:+ hexdigest (ascii_json (PDict
       [("intake_id", PStr (report_intake report));
        ("used_fact_refs", strs_json (map fact_id (resolved_facts report)))])))
    None None None None.

Definition compiled_document (report : VerificationReport) (policy : PolicyContext) (actor_id timestamp : string) :
    Document :=
  let actor := compiler_actor actor_id in
  let facts := enumerate 1 (resolved_facts report) in
  mkDocument "0.2.0" (report_intake report +:+ "-decision")
    ("Compiled intake " +:+ report_intake report)
    "Decision File compiled exclusively from verified intake facts." "controlled-real-world-intake"
    "DRAFT" "STANDARD" timestamp timestamp actor actor actor None (map claim_of facts)
    (map evidence_of facts) [] (map constraint_of (report_findings report))
    [mkPolicy (ctx_policy_id policy) (ctx_policy_version policy) false] [] [] [] [] [] None []
    [compiled_event report actor timestamp].

(** [DecisionFileCompiler.compile]; [now] is the reading of the clock in UTC. *)
Definition compile (now : datetime) (report : VerificationReport) (policy : PolicyContext)
    (actor_id : string) (intake_status : IntakeStatus) : result Document :=
  _ ← require (bool_decide (intake_status = READY) && ready report &&
               bool_decide (unresolved_requirement_refs report = []))
        CompilationRejected "NEEDS_CONFIRMATION";
  _ ← require (negb (bool_decide (length (resolved_facts report) = 0))) CompilationRejected "NEEDS_CONFIRMATION";
  Ok (compiled_document report policy actor_id (isoformat now)).
End compiler.

(** ** [intake/audit.py] *)

(** [IntakeStatus.value] *)
Definition intake_status_value (s : IntakeStatus) : string :=
  match s with
  | RECEIVED => "RECEIVED" | EXTRACTED => "EXTRACTED" | NEEDS_CONFIRMATION => "NEEDS_CONFIRMATION"
  | READY => "READY" | COMPILED => "COMPILED" | INTAKE_REJECTED => "REJECTED"
  end.

(** [intake_audit_event]; [if previous_event] takes an empty event for none. *)
Definition intake_audit_event `{HashAlg} (intake_id : string) (sequence : nat) (event_type occurred_at actor_id : string)
    (from_status to_status : IntakeStatus) (reason_codes : list string) (payload : pyval)
    (previous_event : option (list (string * pyval))) : list (string * pyval) :=
  [("event_id", PStr (intake_id +:+ ":intake-audit:" +:+ pretty sequence));
   ("event_type", PStr event_type); ("occurred_at", PStr occurred_at); ("actor_id", PStr actor_id);
   ("from_status", PStr (intake_status_value from_status)); ("to_status", PStr (intake_status_value to_status));
   ("reason_codes", strs_json reason_codes); ("payload_hash", PStr (payload_hash payload));
   ("previous_event_hash", match previous_event with
                           | None | Some [] => PNone
                           | Some e => PStr (payload_hash (PDict e))
                           end)].
