(* ===== verification/IntakeProps.v ===== *)
(** * Properties of controlled intake

    What verification and confirmation may conclude from an untrusted text, and that a compiled
    case is a valid Decision File whose evaluation is decided by the findings. *)

From S2P Require Import Prelude PyVal Json Sha256 PyTime AuditChain Engine EngineFacts EngineProps Document DecisionFile DecisionFileProps Samples Identity PyDecimal Intake.
From stdpp Require Import options.

(** ** Verification *)

Section verification.
Context `{CaseMapping}.

(** Claims about governance that an instruction to the machine surrounds. *)
Definition embedded (cs : list CandidateFact) (c : CandidateFact) : Prop :=
  fact_type c ∈ [POLICY_CLAIM; APPROVAL_CLAIM; ROLE_CLAIM] ∧
  ∃ i, i ∈ cs ∧ fact_type i = UNTRUSTED_INSTRUCTION ∧ overlaps i c = true.

Definition foreign_policy (policy : option PolicyContext) (c : CandidateFact) : Prop :=
  fact_type c = POLICY_CLAIM ∧ ∃ p, policy = Some p ∧
    str_contains (str_lower (ctx_policy_id p)) (str_lower (default "" (normalized_value c))) = false.

Definition embeddedb (cs : list CandidateFact) (c : CandidateFact) : bool :=
  bool_decide (fact_type c ∈ [POLICY_CLAIM; APPROVAL_CLAIM; ROLE_CLAIM]) &&
  existsb (λ i, overlaps i c) (filter (λ c, fact_type c = UNTRUSTED_INSTRUCTION) cs).

Definition foreignb (policy : option PolicyContext) (c : CandidateFact) : bool :=
  match policy with
  | None => false
  | Some p => bool_decide (fact_type c = POLICY_CLAIM) &&
      negb (str_contains (str_lower (ctx_policy_id p)) (str_lower (default "" (normalized_value c))))
  end.

(** The verdict on one fact among the facts [cs]. *)
Definition verdict (cs : list CandidateFact) (policy : option PolicyContext) (c : CandidateFact) : CandidateFact :=
  let inner := if embeddedb cs c then set_status (_verify_candidate c) REJECTED false
               else _verify_candidate c in
  if foreignb policy c then set_status inner REJECTED false else inner.

(** What no step of the verification changes. *)
Definition same_fact (c c' : CandidateFact) : Prop :=
  fact_id c' = fact_id c ∧ fact_type c' = fact_type c ∧ normalized_value c' = normalized_value c ∧
  source c' = source c ∧ raw_value c' = raw_value c ∧
  confirmed_by_actor_id c' = confirmed_by_actor_id c ∧ confirmed_by_role c' = confirmed_by_role c.

Lemma verify_candidate_same c : same_fact c (_verify_candidate c).
Proof. unfold _verify_candidate. by repeat case_match. Qed.

Lemma filter_verify_candidate cs (P : CandidateFact → bool) :
  (∀ c, P (_verify_candidate c) = P c) →
  existsb P (filter (λ c, fact_type c = UNTRUSTED_INSTRUCTION) (map _verify_candidate cs)) =
  existsb P (filter (λ c, fact_type c = UNTRUSTED_INSTRUCTION) cs).
Proof.
  intros HP. induction cs as [|c cs IH]; [done|]. cbn [map]. rewrite !filter_cons.
  destruct (verify_candidate_same c) as (_ & -> & _).
  case_decide; [|done]. cbn [existsb]. by rewrite HP, IH.
Qed.

Lemma overlaps_verified i c : overlaps (_verify_candidate i) c = overlaps i c.
Proof. unfold overlaps. by destruct (verify_candidate_same i) as (_ & _ & _ & -> & _). Qed.

Lemma embeddedb_verified cs c :
  bool_decide (fact_type (_verify_candidate c) ∈ [POLICY_CLAIM; APPROVAL_CLAIM; ROLE_CLAIM]) &&
  existsb (λ i, overlaps i (_verify_candidate c))
    (filter (λ c, fact_type c = UNTRUSTED_INSTRUCTION) (map _verify_candidate cs)) = embeddedb cs c.
Proof.
  rewrite filter_verify_candidate by (intros; apply overlaps_verified).
  unfold embeddedb, overlaps. by destruct (verify_candidate_same c) as (_ & -> & _ & -> & _).
Qed.

Lemma verify_candidates_verdict cs policy : verify_candidates cs policy = map (verdict cs policy) cs.
Proof.
  unfold verify_candidates, _verify_policy_references, _reject_embedded_governance_claims.
  destruct policy as [p|]; rewrite ?map_map; apply map_ext; intros c; rewrite embeddedb_verified;
    unfold verdict, foreignb; [|done].
  destruct (verify_candidate_same c) as (_ & Et & En & _).
  destruct (embeddedb cs c); cbn [fact_type normalized_value set_status]; by rewrite Et, En.
Qed.

Lemma verdict_same cs policy c : same_fact c (verdict cs policy c).
Proof.
  pose proof (verify_candidate_same c). unfold verdict.
  by destruct (embeddedb cs c), (foreignb policy c).
Qed.

Lemma embeddedb_spec cs c : embeddedb cs c = true ↔ embedded cs c.
Proof.
  unfold embeddedb, embedded. rewrite andb_true_iff, bool_decide_eq_true, existsb_In.
  setoid_rewrite list_elem_of_filter. naive_solver.
Qed.

Lemma foreignb_spec policy c : foreignb policy c = true ↔ foreign_policy policy c.
Proof.
  unfold foreignb, foreign_policy. destruct policy as [p|]; [|naive_solver].
  rewrite andb_true_iff, bool_decide_eq_true, negb_true_iff. naive_solver.
Qed.

Lemma verdict_status cs policy c :
  verification_status (verdict cs policy c) =
    if embeddedb cs c || foreignb policy c then REJECTED else verification_status (_verify_candidate c).
Proof. unfold verdict. by destruct (embeddedb cs c), (foreignb policy c). Qed.

Lemma objective_not_claim cs policy c :
  fact_type c ∈ _OBJECTIVE_FACTS →
  embeddedb cs c || foreignb policy c = false ∧ fact_type c ≠ UNTRUSTED_INSTRUCTION.
Proof.
  unfold embeddedb, foreignb. intros Ht. set_unfold.
  destruct policy; repeat destruct Ht as [Ht|Ht]; rewrite ?Ht; done.
Qed.

(** The verdict on a fact nobody has decided yet. *)
Lemma verdict_unresolved cs policy c :
  verification_status c = UNRESOLVED →
  (verification_status (verdict cs policy c) = VERIFIED ↔
     fact_type c ∈ _OBJECTIVE_FACTS ∧ normalized_value c ≠ None) ∧
  (verification_status (verdict cs policy c) = REJECTED ↔
     fact_type c = UNTRUSTED_INSTRUCTION ∨ embedded cs c ∨ foreign_policy policy c) ∧
  verification_status (verdict cs policy c) ≠ HUMAN_CONFIRMED.
Proof.
  intros Hs. rewrite verdict_status, <-embeddedb_spec, <-foreignb_spec.
  pose proof (objective_not_claim cs policy c) as Ho. unfold _verify_candidate.
  rewrite Hs, (bool_decide_false (UNRESOLVED ∈ _)) by set_solver.
  destruct (decide (fact_type c ∈ _OBJECTIVE_FACTS)) as [Hin|Hin].
  - destruct (Ho Hin) as [Hb Hu]. rewrite Hb. apply orb_false_iff in Hb as [-> ->].
    rewrite (bool_decide_true _ Hin), (bool_decide_false _ Hu). cbn [andb orb].
    destruct (normalized_value c); cbn; rewrite ?Hs; naive_solver.
  - rewrite (bool_decide_false _ Hin). cbn [andb]. case_bool_decide; cbn [verification_status set_status];
      rewrite ?Hs; destruct (embeddedb cs c), (foreignb policy c); naive_solver.
Qed.

(** ** Reports *)

Lemma build_reasons_nil cs policy refs conflicts :
  build_reasons cs policy refs conflicts = [] ↔
  policy ≠ None ∧ conflicts = false ∧ refs = [] ∧
  (∀ t, t ∈ _REQUIRED_FACTS → ∃ c, c ∈ cs ∧ fact_type c = t ∧ is_resolved c = true) ∧
  (∀ c, c ∈ cs → untrusted c = false).
Proof.
  unfold build_reasons. assert (∀ l : list string, fromkeys l = [] ↔ l = []) as ->
    by (intros l; split; [apply fromkeys_nil_inv|by intros ->]).
  rewrite !app_nil_iff.
  assert (map (λ t, "REQUIRED_FACT_MISSING:" +:+ fact_type_value t) (missing_facts cs) = [] ↔
    (∀ t, t ∈ _REQUIRED_FACTS → ∃ c, c ∈ cs ∧ fact_type c = t ∧ is_resolved c = true)) as ->.
  { unfold missing_facts. split.
    - intros E%map_eq_nil t Ht. rewrite filter_nil_iff in E. specialize (E t Ht).
      destruct (decide (t ∈ map fact_type (filter (λ c, is_resolved c = true) cs))) as [Hin|Hn]; [|done].
      apply list_elem_of_fmap_1 in Hin as (c & -> & [Hr Hc]%list_elem_of_filter). eauto.
    - intros Ha. assert (filter (λ t, t ∉ map fact_type (filter (λ c, is_resolved c = true) cs))
        _REQUIRED_FACTS = []) as ->; [|done].
      apply filter_nil_iff. intros t Ht Hn. apply Hn. destruct (Ha t Ht) as (c & Hc & <- & Hr).
      apply (list_elem_of_fmap_2 fact_type). by apply list_elem_of_filter. }
  assert ((if existsb untrusted cs then ["HUMAN_CONFIRMATION_REQUIRED"] else []) = [] ↔
    ∀ c, c ∈ cs → untrusted c = false) as ->.
  { destruct (existsb untrusted cs) eqn:E.
    - apply existsb_In in E as (c & Hc & Hu). split; [done|]. intros Ha. rewrite (Ha c Hc) in Hu. done.
    - rewrite existsb_false_Forall, Forall_forall in E. done. }
  destruct policy, conflicts, refs; naive_solver.
Qed.

Lemma build_report_Ok intake cs policy refs conflicts today r :
  _build_report intake cs policy refs conflicts today = Ok r →
  candidates r = cs ∧ report_intake r = intake ∧ unresolved_requirement_refs r = refs ∧
  report_reasons r = build_reasons cs policy refs conflicts ∧
  (ready r = true ↔ report_reasons r = []) ∧
  match policy with
  | None => report_findings r = []
  | Some p => _compare_policy intake cs p today = Ok (report_findings r)
  end.
Proof.
  unfold _build_report. intros E. apply bind_Ok in E as (fs & Hf & E). injection E as <-. cbn.
  rewrite bool_decide_eq_true. destruct policy; [by split_and!|]. injection Hf as <-. by split_and!.
Qed.

(** C24: verification trusts nothing the text says about governance: on an extraction nobody has
    confirmed, every fact is kept with its value, a fact ends VERIFIED exactly when it is of an
    objective type and has a value, REJECTED exactly when it is an instruction, a claim an
    instruction overlaps, or a reference to another policy, and never HUMAN_CONFIRMED; and the
    report is ready exactly when a policy is registered, no conflict and no requirement is
    open, every required fact is there with a value and no claim waits for a human. *)
Theorem verification_exact get_active today tenant ex r :
  verify get_active today tenant ex = Ok r →
  (∀ c, c ∈ ex_candidates ex → verification_status c = UNRESOLVED) →
  (∃ f, candidates r = map f (ex_candidates ex) ∧ ∀ c, c ∈ ex_candidates ex →
     same_fact c (f c) ∧ verification_status (f c) ≠ HUMAN_CONFIRMED ∧
     (verification_status (f c) = VERIFIED ↔
        fact_type c ∈ _OBJECTIVE_FACTS ∧ normalized_value c ≠ None) ∧
     (verification_status (f c) = REJECTED ↔
        fact_type c = UNTRUSTED_INSTRUCTION ∨ embedded (ex_candidates ex) c ∨
        foreign_policy (get_active tenant) c)) ∧
  (ready r = true ↔
     get_active tenant ≠ None ∧ ex_conflicts ex = [] ∧ ex_requirements ex = [] ∧
     (∀ t, t ∈ _REQUIRED_FACTS →
        ∃ c, c ∈ ex_candidates ex ∧ fact_type c = t ∧ normalized_value c ≠ None) ∧
     (∀ c, c ∈ candidates r → untrusted c = false)).
Proof.
  unfold verify. rewrite verify_candidates_verdict. intros Hr Hun.
  apply build_report_Ok in Hr as (Hc & _ & _ & Hre & Hrd & _). split.
  - exists (verdict (ex_candidates ex) (get_active tenant)). split; [done|]. intros c Hin.
    destruct (verdict_unresolved (ex_candidates ex) (get_active tenant) c (Hun c Hin)) as (Hv & Hj & Hh).
    split_and!; try done. apply verdict_same.
  - rewrite Hrd, Hre, build_reasons_nil, Hc.
    assert (map vr_id (ex_requirements ex) = [] ↔ ex_requirements ex = []) as ->
      by (destruct (ex_requirements ex); naive_solver).
    assert (negb (bool_decide (length (ex_conflicts ex) = 0)) = false ↔ ex_conflicts ex = []) as ->
      by (rewrite negb_false_iff, bool_decide_eq_true; apply length_zero_iff_nil).
    assert ((∀ t, t ∈ _REQUIRED_FACTS → ∃ c,
        c ∈ map (verdict (ex_candidates ex) (get_active tenant)) (ex_candidates ex) ∧
        fact_type c = t ∧ is_resolved c = true) ↔
      (∀ t, t ∈ _REQUIRED_FACTS →
        ∃ c, c ∈ ex_candidates ex ∧ fact_type c = t ∧ normalized_value c ≠ None)) as ->; [|done].
    assert (∀ c, c ∈ ex_candidates ex → fact_type c ∈ _REQUIRED_FACTS →
      (is_resolved (verdict (ex_candidates ex) (get_active tenant) c) = true ↔ normalized_value c ≠ None)) as Hres.
    { intros c Hin Ht. destruct (verdict_unresolved (ex_candidates ex) (get_active tenant) c (Hun c Hin))
        as (Hv & _ & Hh). unfold is_resolved. rewrite bool_decide_eq_true, !elem_of_cons, elem_of_nil, Hv.
      assert (fact_type c ∈ _OBJECTIVE_FACTS) by (unfold _REQUIRED_FACTS, _OBJECTIVE_FACTS in *; set_solver).
      naive_solver. }
    split; intros Ha t Ht; destruct (Ha t Ht) as (c & Hin & Et & Hn).
    + apply list_elem_of_fmap_1 in Hin as (c0 & -> & Hin).
      destruct (verdict_same (ex_candidates ex) (get_active tenant) c0) as (_ & Ety & _).
      rewrite Ety in Et. exists c0. split_and!; [done..|]. apply Hres; [done|by rewrite Et|done].
    + exists (verdict (ex_candidates ex) (get_active tenant) c). split; [by apply (list_elem_of_fmap_2 _)|].
      destruct (verdict_same (ex_candidates ex) (get_active tenant) c) as (_ & Ety & _).
      split; [congruence|]. apply Hres; [done|by rewrite Et|done].
Qed.

(** ** Human confirmation *)

Lemma confirm_Ok `{HashAlg} r id action new reason at_ i r' hc :
  confirm_fact r id action new reason at_ i = Ok (r', hc) →
  identity_kind i = HUMAN ∧ permits i INTAKE_CONFIRM = true ∧
  ∃ c, c ∈ candidates r ∧ fact_id c = id ∧ report_intake r' = report_intake r ∧
    candidates r' = map (λ x, if fact_id x =? id then decided_fact c action new i else x) (candidates r) ∧
    report_findings r' = report_findings r ∧ confirming_actor hc = identity_actor i ∧
    old_value hc = normalized_value c.
Proof.
  unfold confirm_fact. intros E.
  apply bind_Ok in E as ([] & H1%require_Ok & E). apply bind_Ok in E as ([] & H2%require_Ok & E).
  apply bind_Ok in E as ([] & _ & E). apply bind_Ok in E as ([] & _ & E).
  apply bind_Ok in E as ([] & _ & E). apply bind_Ok in E as (c & Hc%or_raise_Ok & E).
  apply List.find_some in Hc as [Hin Hid%String.eqb_eq]. injection E as <- <-. cbn.
  apply bool_decide_eq_true in H1. split_and!; [done..|]. exists c.
  by rewrite list_elem_of_In.
Qed.

(** The life of a report: verified once, then confirmed by humans and verified again. *)
Inductive reviewed `{HashAlg} (get_active : string → option PolicyContext) (tenant : string) :
    list Identity → VerificationReport → Prop :=
  | reviewed_verify today ex r :
      (∀ c, c ∈ ex_candidates ex → verification_status c = UNRESOLVED) →
      verify get_active today tenant ex = Ok r → reviewed get_active tenant [] r
  | reviewed_confirm who r id action new reason at_ i r1 hc today r2 :
      reviewed get_active tenant who r →
      confirm_fact r id action new reason at_ i = Ok (r1, hc) →
      reverify get_active today tenant r1 = Ok r2 →
      reviewed get_active tenant (i :: who) r2.

(** Where a fact's standing comes from. *)
Definition accounted (who : list Identity) (c : CandidateFact) : Prop :=
  (verification_status c = VERIFIED →
     fact_type c ∈ _OBJECTIVE_FACTS ∧ normalized_value c ≠ None) ∧
  (verification_status c = HUMAN_CONFIRMED →
     ∃ i, i ∈ who ∧ identity_kind i = HUMAN ∧ permits i INTAKE_CONFIRM = true ∧
       confirmed_by_actor_id c = Some (identity_actor i) ∧
       confirmed_by_role c = Some (role_value (identity_role i))).

Lemma accounted_weaken who i c : accounted who c → accounted (i :: who) c.
Proof. intros [Hv Hh]. split; [done|]. intros Hs. destruct (Hh Hs) as (j & Hj & Hx). exists j. split; [by right|done]. Qed.

Lemma rejected_accounted who c b : accounted who (set_status c REJECTED b).
Proof. split; cbn; discriminate. Qed.

Lemma verify_candidate_accounted who c : accounted who c → accounted who (_verify_candidate c).
Proof.
  intros Hc. unfold _verify_candidate. case_bool_decide; [done|].
  destruct (bool_decide _ && bool_decide _) eqn:E; [|destruct (bool_decide (fact_type c = _)); [apply rejected_accounted|done]].
  apply andb_true_iff in E as [E1%bool_decide_eq_true E2%bool_decide_eq_true].
  split; cbn; [done|discriminate].
Qed.

Lemma verdict_accounted who cs policy c : accounted who c → accounted who (verdict cs policy c).
Proof.
  intros Hc%verify_candidate_accounted. unfold verdict.
  destruct (embeddedb cs c), (foreignb policy c); (apply rejected_accounted || done).
Qed.

Lemma reviewed_accounted `{HashAlg} get_active tenant who r :
  reviewed get_active tenant who r → ∀ c, c ∈ candidates r → accounted who c.
Proof.
  induction 1 as [today ex r Hun Hv|who r id action new reason at_ i r1 hc today r2 Hr IH Hc Hre];
    intros c Hin.
  - unfold verify in Hv. rewrite verify_candidates_verdict in Hv.
    apply build_report_Ok in Hv as (Ec & _). rewrite Ec in Hin.
    apply list_elem_of_fmap_1 in Hin as (c0 & -> & Hin). apply verdict_accounted.
    split; intros E; rewrite (Hun c0 Hin) in E; done.
  - unfold reverify in Hre. rewrite verify_candidates_verdict in Hre.
    apply build_report_Ok in Hre as (Ec & _). rewrite Ec in Hin.
    apply list_elem_of_fmap_1 in Hin as (c1 & -> & Hin). apply verdict_accounted.
    apply confirm_Ok in Hc as (Hk & Hp & c0 & _ & _ & _ & Ec1 & _). rewrite Ec1 in Hin.
    apply list_elem_of_fmap_1 in Hin as (c2 & -> & Hin).
    destruct (fact_id c2 =? id); [|by apply accounted_weaken, IH].
    unfold decided_fact. split; cbn; destruct (action =? "REJECT"); try done.
    intros _. exists i. split; [left|done].
Qed.

(** Every standing of a fact is accounted for: however confirmations and verifications
    follow each other, a VERIFIED fact is of an objective type and has a value, and a
    HUMAN_CONFIRMED one names, with their role, a human who held the permission to confirm;
    the approvers a report counts towards the policy are such humans, each counted once. *)
Theorem standing_is_accounted `{HashAlg} get_active tenant who r :
  reviewed get_active tenant who r →
  (∀ c, c ∈ candidates r →
     (verification_status c = VERIFIED → fact_type c ∈ _OBJECTIVE_FACTS ∧ normalized_value c ≠ None) ∧
     (verification_status c = HUMAN_CONFIRMED →
        ∃ i, i ∈ who ∧ identity_kind i = HUMAN ∧ permits i INTAKE_CONFIRM = true ∧
          confirmed_by_actor_id c = Some (identity_actor i) ∧
          confirmed_by_role c = Some (role_value (identity_role i)))) ∧
  NoDup (distinct_approvers (candidates r)) ∧
  (∀ x, x ∈ distinct_approvers (candidates r) →
     ∃ i, i ∈ who ∧ identity_actor i = x ∧ identity_kind i = HUMAN ∧ identity_role i = APPROVER).
Proof.
  intros Hr. pose proof (reviewed_accounted _ _ _ _ Hr) as Hacc.
  split_and!; [exact Hacc|apply NoDup_fromkeys|].
  intros x Hx. unfold distinct_approvers in Hx. rewrite elem_of_fromkeys in Hx.
  apply list_elem_of_omap in Hx as (c & Hc & Ex).
  apply list_elem_of_filter in Hc as [(_ & Hs & Hro) Hc].
  destruct (Hacc c Hc) as [_ Hh]. destruct (Hh Hs) as (i & Hi & Hk & _ & Ha & Hr').
  exists i. split_and!; [done|congruence|done|]. rewrite Hro in Hr'.
  by destruct (identity_role i); try discriminate Hr'.
Qed.
End verification.

(** ** Compilation *)

Lemma digit_not_Z z : Ascii.eqb (digit (z mod 10)) "Z" = false.
Proof.
  destruct (is_digit_digit (z mod 10)) as [Hd _]; [by apply Z.mod_pos_bound|].
  apply Ascii.eqb_neq. intros E. rewrite E in Hd. vm_compute in Hd. discriminate Hd.
Qed.

Lemma replace_Z_pad w z k : replace_Z (pad_app w z k) = pad_app w z (replace_Z k).
Proof.
  revert z k. induction w as [|w IH]; intros z k; cbn [pad_app]; [done|].
  rewrite IH. cbn [replace_Z]. by rewrite digit_not_Z.
Qed.

Lemma replace_Z_char c k : Ascii.eqb c "Z" = false → replace_Z (String c k) = String c (replace_Z k).
Proof. cbn [replace_Z]. by intros ->. Qed.

(** The clock's own timestamps have no Z to replace. *)
Lemma replace_Z_isoformat t :
  utcoffset t = Some 0%Z → replace_Z (isoformat t) = isoformat t.
Proof.
  intros Ho. unfold isoformat. rewrite Ho. rewrite replace_Z_pad.
  do 5 rewrite replace_Z_char, replace_Z_pad by done.
  destruct (Z.eqb (microsecond t) 0); [done|]. by rewrite replace_Z_char, replace_Z_pad.
Qed.

Lemma not_disordered d t :
  valid_datetime t = true → utcoffset t = Some 0%Z →
  created_at d = isoformat t → updated_at d = isoformat t → time_disordered d = Ok false.
Proof.
  intros Hv Ho Hc Hu. unfold time_disordered. rewrite Hc, Hu, (replace_Z_isoformat t Ho).
  rewrite fromisoformat_isoformat by auto. cbn. unfold datetime_lt. rewrite Ho.
  by rewrite Z.ltb_irrefl.
Qed.

Lemma NoDup_claim_names {A} n (l : list A) :
  NoDup (map (λ x : nat * A, "claim-" +:+ pretty x.1) (enumerate n l)).
Proof.
  rewrite <-(map_map fst (λ n, "claim-" +:+ pretty n)).
  apply (NoDup_fmap_2 (λ n : nat, "claim-" +:+ pretty n)), enumerate_NoDup.
Qed.

Lemma map_enumerate_snd {A B} (f : A → B) n l : map (λ x : nat * A, f x.2) (enumerate n l) = map f l.
Proof. rewrite <-(map_map snd f). f_equal. apply enumerate_snd. Qed.

Section compiled.
Context `{HashAlg}.

Lemma compile_Ok now r p a s d :
  compile now r p a s = Ok d ↔
  s = READY ∧ ready r = true ∧ unresolved_requirement_refs r = [] ∧
  (∃ c, c ∈ candidates r ∧ is_resolved c = true) ∧ d = compiled_document r p a (isoformat now).
Proof.
  assert (negb (bool_decide (length (resolved_facts r) = 0)) = true ↔
    ∃ c, c ∈ candidates r ∧ is_resolved c = true) as Hne.
  { rewrite negb_true_iff, bool_decide_eq_false. unfold resolved_facts. split.
    - intros Hn. destruct (filter _ _) as [|c l] eqn:E; [done|].
      assert (c ∈ filter (λ c, is_resolved c = true) (candidates r)) as Hc by (rewrite E; left).
      apply list_elem_of_filter in Hc as [? ?]. eauto.
    - intros (c & Hc & Hr) E. apply length_zero_iff_nil in E.
      assert (c ∈ filter (λ c, is_resolved c = true) (candidates r)) as Hin by by apply list_elem_of_filter.
      rewrite E in Hin. by apply elem_of_nil in Hin. }
  unfold compile. split.
  - intros E. apply bind_Ok in E as ([] & H1%require_Ok & E). apply bind_Ok in E as ([] & H2%require_Ok & E).
    injection E as <-. bool_prop. apply Hne in H2. naive_solver.
  - intros (-> & Hr & Hu & Hc & ->). rewrite Hr, Hu. cbn. rewrite (proj2 Hne Hc). done.
Qed.

Lemma compiled_content_valid r p a at_ :
  NoDup (map fact_id (candidates r)) → content_valid (compiled_document r p a at_).
Proof.
  intros Hn. unfold content_valid. cbn. rewrite !map_map. cbn.
  split_and!; try (intros; done); try (by constructor); try (by intros ? ?%elem_of_nil).
  - apply NoDup_claim_names.
  - rewrite (map_enumerate_snd fact_id). eapply sublist_NoDup; [exact Hn|].
    apply (fmap_sublist fact_id), sublist_filter.
  - intros e ref (x & -> & Hx)%list_elem_of_fmap_1 Href. cbn in Href.
    apply list_elem_of_singleton in Href as ->. by apply (list_elem_of_fmap_2 (λ x, "claim-" +:+ pretty x.1)).
Qed.

Lemma compiled_not_missing r p a at_ : mandatory_missing (compiled_document r p a at_) = false.
Proof.
  unfold mandatory_missing. apply existsb_false_Forall, Forall_forall.
  intros cl (x & -> & Hx)%list_elem_of_fmap_1. cbn [mandatory_evidence claim_of andb].
  apply negb_false_iff, existsb_In. exists (evidence_of x).
  split; [by apply (list_elem_of_fmap_2 evidence_of)|]. cbn. by rewrite String.eqb_refl.
Qed.

Lemma compiled_evidence r p a at_ e :
  e ∈ evidence (compiled_document r p a at_) → evidence_status e = "VERIFIED".
Proof. by intros (x & -> & _)%list_elem_of_fmap_1. Qed.

Lemma compiled_constraint r p a at_ c :
  c ∈ constraints (compiled_document r p a at_) ↔ ∃ f, f ∈ report_findings r ∧ c = constraint_of f.
Proof. cbn. rewrite list_elem_of_fmap. naive_solver. Qed.

Lemma compiled_blocked r p a at_ :
  case_blocked (compiled_document r p a at_) ↔
  ∃ f, f ∈ report_findings r ∧ result_code f ∈ mandatory_codes.
Proof.
  unfold case_blocked. rewrite compiled_not_missing. setoid_rewrite compiled_constraint. split.
  - intros [(e & He & E)|[[? _]|[(c & (f & Hf & ->) & Hs & _)|(c & Hc & _)]]]; [|done| |by apply elem_of_nil in Hc].
    + apply compiled_evidence in He. congruence.
    + exists f. split; [done|]. unfold constraint_of in Hs. cbn [constraint_severity] in Hs.
      destruct (str_in _ _) eqn:E; [by apply str_in_spec|discriminate Hs].
  - intros (f & Hf & Hm%str_in_spec). right; right; left. exists (constraint_of f). split; [by exists f|].
    unfold constraint_of. by rewrite Hm.
Qed.

Lemma compiled_clear r p a at_ : case_clear (compiled_document r p a at_) ↔ report_findings r = [].
Proof.
  unfold case_clear. rewrite compiled_not_missing. setoid_rewrite compiled_constraint. split.
  - intros (_ & _ & Hc & _). destruct (report_findings r) as [|f l]; [done|].
    assert (constraint_satisfied (constraint_of f) = true) as E; [|done].
    apply Hc; [exists f; split; [left|done]|].
    unfold constraint_of. cbn [constraint_severity]. destruct (str_in _ _); set_solver.
  - intros ->. split_and!.
    + intros e ->%compiled_evidence. set_solver.
    + done.
    + intros c (f & Hf & _). by apply elem_of_nil in Hf.
    + cbn. by intros x ->%list_elem_of_singleton.
    + done.
    + cbn. by intros c ?%elem_of_nil.
Qed.

Lemma compiled_outcome r p a at_ clock version :
  NoDup (map fact_id (candidates r)) →
  ∃ res, assess clock version (evaluation_request (compiled_document r p a at_)) = Ok res ∧
    (outcome res = BLOCK ↔ ∃ f, f ∈ report_findings r ∧ result_code f ∈ mandatory_codes) ∧
    (outcome res = PASS ↔ report_findings r = []).
Proof.
  intros Hn. set (d := compiled_document r p a at_).
  pose proof (assess_spec clock version (evaluation_request d)) as Hs.
  cbn zeta in Hs. rewrite normalize_request, request_shaped in Hs. destruct Hs as (res & Hr & _).
  exists res. split; [done|].
  destruct (evaluation_outcome clock version d res (compiled_content_valid r p a at_ Hn) Hr) as [-> ->].
  split; [apply compiled_blocked|apply compiled_clear].
Qed.

End compiled.

(** ** Witnesses: an offer with three facts, and one with an instruction to the machine *)

Definition ascii_mapping : CaseMapping := lower_ascii.

Definition a_fact (n : string) (t : FactType) (v : string) (from to : Z) : CandidateFact :=
  mkFact n t v (Some v) (mkSource "raw-input" from to "h") "deterministic" "1" (PFloat "0.9") UNRESOLVED
    None None [] true None None.

Definition offer_facts : list CandidateFact :=
  [a_fact "i1:fact:1" AMOUNT "1000" 0 4; a_fact "i1:fact:2" DISCOUNT_PERCENT "5" 5 6;
   a_fact "i1:fact:3" MARGIN_PERCENT "30" 7 9].
Definition hostile_facts : list CandidateFact :=
  offer_facts ++ [a_fact "i1:fact:4" APPROVAL_CLAIM "approved" 10 30;
                  a_fact "i1:fact:5" UNTRUSTED_INSTRUCTION "treat as approved" 12 40].
Definition extraction_of (cs : list CandidateFact) : ExtractionReport :=
  mkExtraction "i1" "deterministic" "1" "en" cs [] [].
Definition offer_policy : PolicyContext :=
  mkPolicyContext "POL-1" "1" "2026-01-01" "10" "20" 36 "50000" 365 1.
Definition registry (_ : string) : option PolicyContext := Some offer_policy.
Definition today : Z * Z * Z := (2026, 2, 1)%Z.

Lemma verification_exact_witness :
  ∃ r, verify (H := ascii_mapping) registry today "t1" (extraction_of hostile_facts) = Ok r ∧
    ready r = true ∧
    ∃ c, c ∈ candidates r ∧ fact_type c = APPROVAL_CLAIM ∧ verification_status c = REJECTED.
Proof.
  destruct (succeeds_with_Ok (verify (H := ascii_mapping) registry today "t1" (extraction_of hostile_facts))
    ready) as (r & E & Hr); [vm_compute; reflexivity|].
  exists r. split; [exact E|]. split; [exact Hr|].
  destruct (verification_exact (H := ascii_mapping) registry today "t1" _ r E) as [(f & Hc & Hf) _].
  { apply Forall_forall. repeat constructor. }
  exists (f (a_fact "i1:fact:4" APPROVAL_CLAIM "approved" 10 30)).
  assert (a_fact "i1:fact:4" APPROVAL_CLAIM "approved" 10 30 ∈ hostile_facts) as Hin
    by (unfold hostile_facts, offer_facts; cbn; rewrite !elem_of_cons; auto).
  destruct (Hf _ Hin) as ((_ & Ht & _) & _ & _ & Hrej). split; [|split].
  - rewrite Hc. by apply (list_elem_of_fmap_2 f).
  - exact Ht.
  - apply Hrej. right. left. split; [set_solver|].
    exists (a_fact "i1:fact:5" UNTRUSTED_INSTRUCTION "treat as approved" 12 40).
    split; [unfold hostile_facts, offer_facts; cbn; rewrite !elem_of_cons; auto 10|split; reflexivity].
Defined.

Definition approver_bob : Identity := mkIdentity "bob" sample_tenant APPROVER HUMAN None [] {[APPROVER]} None [].
Definition claimed_facts : list CandidateFact :=
  offer_facts ++ [a_fact "i1:fact:4" APPROVAL_CLAIM "approved by bob" 10 30].

Lemma standing_is_accounted_witness :
  ∃ r, reviewed (H := ascii_mapping) (H0 := constant_alg) registry "t1" [approver_bob] r ∧
    distinct_approvers (candidates r) = ["bob"] ∧
    ∃ i, i ∈ [approver_bob] ∧ identity_actor i = "bob" ∧ identity_role i = APPROVER.
Proof.
  destruct (succeeds_with_Ok (verify (H := ascii_mapping) registry today "t1" (extraction_of claimed_facts))
    (λ r, succeeds_with (confirm_fact (H := constant_alg) r "i1:fact:4" "CONFIRM" None "seen" "now" approver_bob)
       (λ x, succeeds_with (reverify (H := ascii_mapping) registry today "t1" x.1)
          (λ r2, bool_decide (distinct_approvers (candidates r2) = ["bob"]))))) as (r & E & Hr);
    [vm_compute; reflexivity|].
  destruct (confirm_fact _ _ _ _ _ _ _) as [[r1 hc]|] eqn:E1; [cbn [succeeds_with fst] in Hr|discriminate Hr].
  destruct (reverify (H := ascii_mapping) _ _ _ _) as [r2|] eqn:E2; [cbn [succeeds_with] in Hr|discriminate Hr].
  apply bool_decide_eq_true in Hr. exists r2.
  assert (reviewed (H := ascii_mapping) (H0 := constant_alg) registry "t1" [approver_bob] r2) as Hrev.
  { eapply reviewed_confirm; [|exact E1|exact E2]. eapply reviewed_verify; [|exact E].
    apply Forall_forall. repeat constructor. }
  split; [exact Hrev|]. split; [exact Hr|].
  destruct (standing_is_accounted (H := ascii_mapping) (H0 := constant_alg) registry "t1" [approver_bob] r2 Hrev)
    as (_ & _ & Ha).
  destruct (Ha "bob") as (i & Hi & Hn & _ & Hro); [rewrite Hr; left|]. exists i. split_and!; assumption.
Defined.


(** A human may confirm an instruction to the machine: confirmation looks at the permission of the
    actor, not at the type of the fact, and the next verification keeps it. *)
Lemma instruction_can_be_confirmed :
  succeeds_with (verify (H := ascii_mapping) registry today "t1" (extraction_of hostile_facts)) (λ r,
    succeeds_with (confirm_fact (H := constant_alg) r "i1:fact:5" "CONFIRM" None "ok" "now" approver_bob) (λ x,
      succeeds_with (reverify (H := ascii_mapping) registry today "t1" x.1) (λ r2,
        existsb (λ c, bool_decide (fact_type c = UNTRUSTED_INSTRUCTION) &&
                      bool_decide (verification_status c = HUMAN_CONFIRMED)) (candidates r2)))) = true.
Proof. vm_compute. reflexivity. Qed.
