(* ===== verification/SecurityEvents.v ===== *)
(** * Security events

    [security_events.py]: the events that record every authentication and authorization
    decision, with the checks an event passes before a sink sees it. *)

From S2P Require Import Prelude PyVal PyTime Identity.
From stdpp Require Import options.

Definition AUTH_REASON_CODES : list string :=
  ["AUTH_TOKEN_MISSING"; "AUTH_TOKEN_INVALID"; "AUTH_TOKEN_EXPIRED"; "AUTH_ISSUER_MISMATCH";
   "AUTH_AUDIENCE_MISMATCH"; "AUTH_ROLE_REQUIRED"; "AUTH_TENANT_MISMATCH";
   "AUTH_CROSS_TENANT_DENIED"; "AUTH_ALLOWED"].

(** ** The pattern [(?i)(bearer\s+|password|refresh.?token|client.?secret)] *)

(** A code point under [re.IGNORECASE], as far as the letters of the pattern go: besides the
    capitals, the long s and the Kelvin sign fold to letters of the pattern. *)
Definition fold_case (c : string) : string :=
  match c with
  | String a EmptyString =>
      let n := Ascii.nat_of_ascii a in
      if ((65 <=? n) && (n <=? 90))%nat then String (Ascii.ascii_of_nat (n + 32)) EmptyString else c
  | _ => if c =? "ſ" then "s" else if c =? "K" then "k" else c
  end.

(** The literal [p] at the head of the code points [l], and the rest. *)
Fixpoint match_literal (p l : list string) : option (list string) :=
  match p, l with
  | [], _ => Some l
  | a :: p, b :: l => if a =? fold_case b then match_literal p l else None
  | _ :: _, [] => None
  end.

Definition newline : string := String "010" EmptyString.

(** [p.?q] at the head of [l]. *)
Definition match_pair (p q : string) (l : list string) : bool :=
  match match_literal (code_points p) l with
  | None => false
  | Some rest =>
      bool_decide (is_Some (match_literal (code_points q) rest)) ||
      match rest with
      | c :: rest => negb (c =? newline) && bool_decide (is_Some (match_literal (code_points q) rest))
      | [] => false
      end
  end.

Definition sensitive_here (l : list string) : bool :=
  match match_literal (code_points "bearer") l with
  | Some (c :: _) => is_space c
  | _ => false
  end ||
  bool_decide (is_Some (match_literal (code_points "password") l)) ||
  match_pair "refresh" "token" l || match_pair "client" "secret" l.

(** [_SENSITIVE.search] *)
Fixpoint search_sensitive (l : list string) : bool :=
  sensitive_here l || match l with [] => false | _ :: l => search_sensitive l end.
Definition _SENSITIVE (s : string) : bool := search_sensitive (code_points s).

(** ** Events *)

Record SecurityEvent := mkSecurityEvent {
  sec_id : string; sec_type : string; sec_schema : string; sec_occurred_at : string;
  sec_decision : string; sec_actor : string; sec_tenant : option string;
  sec_client : option string; sec_correlation : string; sec_reason : string;
  sec_permission : option string
}.

Definition event_values (e : SecurityEvent) : list string :=
  omap id [Some (sec_id e); Some (sec_type e); Some (sec_actor e); sec_tenant e; sec_client e;
           Some (sec_correlation e); sec_permission e].

(** [SecurityEvent._validate] *)
Definition _validate (e : SecurityEvent) : result unit :=
  _ ← require (str_in (sec_decision e) ["ALLOWED"; "DENIED"]) ValueError "INVALID_SECURITY_DECISION";
  _ ← require (str_in (sec_reason e) AUTH_REASON_CODES) ValueError "INVALID_AUTH_REASON_CODE";
  _ ← require (forallb (λ v, negb (str_blank v || (256 <? str_len v)%nat)) (event_values e))
        ValueError "INVALID_SECURITY_EVENT";
  require (forallb (λ v, negb (_SENSITIVE v)) (event_values e)) ValueError
    "SENSITIVE_SECURITY_EVENT_VALUE".

(** [SecurityEvent.create], with the fresh identifier and the clock's reading. *)
Definition create (id : string) (now : datetime) (type decision actor : string)
    (tenant client : option string) (correlation reason : string) (permission : option string) :
    result SecurityEvent :=
  let event := mkSecurityEvent id type "1.0.0" (isoformat now) decision actor tenant client
                 correlation reason permission in
  _ ← _validate event; Ok event.
