(* ===== verification/DecisionStore.v ===== *)
(** * The decision API and its store

    [repositories/sqlite.py], [api/dependencies.py] and [api/routes/decisions.py]: the tables
    of the decisions, the requests that read and change them, and the permissions, idempotency
    keys and security events every request goes through. A document in the store is the text
    [json.dumps] writes and [json.loads] reads back; the model keeps the document. *)

From S2P Require Import Prelude PyVal Json Sha256 PyTime AuditChain Engine Document DecisionFile Transitions Identity SecurityEvents.
From stdpp Require Import options.

(** ** [repositories/sqlite.py] *)

Notation row_key := (string * string)%type.
Notation operation_key := (string * string * string * string)%type.

Record Response := mkResponse { status_code : Z; body : pyval }.

Record Database := mkDatabase {
  decisions : gmap row_key Document;
  reports : gmap row_key pyval;
  audit_rows : list (row_key * AuditEvent);
  idempotency : gmap operation_key (string * Response)
}.

Record IdempotencyWrite := mkWrite {
  w_actor : string; w_operation : string; w_key : string; w_hash : string; w_response : Response
}.

Definition write_key (tenant : string) (w : IdempotencyWrite) : operation_key :=
  (tenant, w_actor w, w_operation w, w_key w).

(** [_insert_audit], [UNIQUE (tenant_id, decision_id, event_id)] *)
Definition _insert_audit (k : row_key) (e : AuditEvent) (db : Database) : result Database :=
  _ ← require (negb (existsb (λ r, bool_decide (r.1 = k) && (event_id r.2 =? event_id e)) (audit_rows db)))
        IntegrityError "audit_events";
  Ok (mkDatabase (decisions db) (reports db) (audit_rows db ++ [(k, e)]) (idempotency db)).

Fixpoint insert_events (k : row_key) (events : list AuditEvent) (db : Database) : result Database :=
  match events with
  | [] => Ok db
  | e :: events => db ← _insert_audit k e db; insert_events k events db
  end.

(** [_insert_idempotency] *)
Definition _insert_idempotency (tenant : string) (w : IdempotencyWrite) (db : Database) : result Database :=
  _ ← require (bool_decide (idempotency db !! write_key tenant w = None)) IntegrityError "idempotency";
  Ok (mkDatabase (decisions db) (reports db) (audit_rows db)
        (<[write_key tenant w := (w_hash w, w_response w)]> (idempotency db))).

Definition set_decision (k : row_key) (d : Document) (db : Database) : Database :=
  mkDatabase (<[k := d]> (decisions db)) (reports db) (audit_rows db) (idempotency db).
Definition set_report (k : row_key) (r : pyval) (db : Database) : Database :=
  mkDatabase (decisions db) (<[k := r]> (reports db)) (audit_rows db) (idempotency db).

(** [create_decision], one transaction *)
Definition db_create_decision (tenant : string) (document : Document) (events : list AuditEvent)
    (w : IdempotencyWrite) (db : Database) : result Database :=
  let k := (tenant, decision_id document) in
  _ ← require (bool_decide (decisions db !! k = None)) IntegrityError "decisions";
  db ← insert_events k events (set_decision k document db);
  _insert_idempotency tenant w db.

(** [save_result], one transaction *)
Definition save_result (tenant : string) (document : Document) (report : option pyval)
    (events : list AuditEvent) (w : IdempotencyWrite) (db : Database) : result Database :=
  let k := (tenant, decision_id document) in
  _ ← require (bool_decide (is_Some (decisions db !! k))) KeyError "DECISION_NOT_FOUND";
  let db := set_decision k document db in
  let db := match report with Some r => set_report k r db | None => db end in
  db ← insert_events k events db;
  _insert_idempotency tenant w db.

Definition get_idempotency (tenant actor operation key hash : string) (db : Database) :
    result (option Response) :=
  match idempotency db !! (tenant, actor, operation, key) with
  | None => Ok None
  | Some (h, response) =>
      _ ← require (h =? hash) IdempotencyConflict "IDEMPOTENCY_KEY_REUSED"; Ok (Some response)
  end.

Definition list_audit (tenant decision : string) (limit offset : Z) (db : Database) :
    result (list AuditEvent) :=
  _ ← require ((1 <=? limit)%Z && (limit <=? 100)%Z && (0 <=? offset)%Z) ValueError "INVALID_PAGE_LIMIT";
  Ok (take (Z.to_nat limit) (drop (Z.to_nat offset)
        (snd <$> filter (λ r, r.1 = (tenant, decision)) (audit_rows db)))).

(** ** [api/dependencies.py] *)

(** The application: its database and what its in-memory sink has recorded. *)
Record App := mkApp { database : Database; security_log : list SecurityEvent }.

(** A request: its correlation identifier, the clock's readings in the handler, the readings and
    identifiers of its security events, the nonces drawn for it, and the version of the engine. *)
Record Request := mkRequest {
  correlation_id : string;
  clock : nat → datetime;
  event_clock : nat → datetime;
  fresh_uuid : nat → string;
  fresh_nonce : nat → string;
  engine_version : string
}.

Definition api_error {A} (code : string) (args : list string) : result A :=
  Raise (Exn ApiError (code :: args)).

(** A transaction of the database: a raised exception rolls it back. *)
Definition transact (f : Database → result Database) : stateful App unit := λ a,
  match f (database a) with
  | Ok db => (Ok tt, mkApp db (security_log a))
  | Raise e => (Raise e, a)
  end.

(** [_record], with the sink that keeps the events in memory *)
Definition _record (q : Request) (type decision reason : string) (identity : Identity)
    (permission : option string) : stateful App unit := λ a,
  match create (fresh_uuid q (length (security_log a))) (event_clock q (length (security_log a))) type
          decision (identity_actor identity) (Some (tenant_id (identity_tenant identity)))
          (client_id identity) (correlation_id q) reason permission with
  | Ok e => (Ok tt, mkApp (database a) (security_log a ++ [e]))
  | Raise e => (Raise e, a)
  end.

Definition permission_value (p : Permission) : string :=
  match p with
  | DECISION_CREATE => "decision:create" | DECISION_READ => "decision:read"
  | DECISION_EVALUATE => "decision:evaluate" | DECISION_VALIDATE => "decision:validate"
  | DECISION_APPROVE => "decision:approve" | REPORT_READ => "report:read"
  | AUDIT_READ => "audit:read" | INTAKE_CREATE => "intake:create" | INTAKE_READ => "intake:read"
  | INTAKE_CONFIRM => "intake:confirm" | INTAKE_COMPILE => "intake:compile"
  | RESEARCH_CREATE => "research:create" | RESEARCH_READ => "research:read"
  | RESEARCH_RETRY => "research:retry" | RESEARCH_CANCEL => "research:cancel"
  | RESEARCH_HANDOFF => "research:handoff" | RESEARCH_FORCE_REFRESH => "research:force-refresh"
  | RESEARCH_AUDIT_READ => "research:audit-read" | PILOT_EXPORT => "pilot:export"
  | DATA_DELETE => "data:delete" | LEGAL_HOLD_MANAGE => "legal-hold:manage"
  end.

Definition forbidden {A} (reason : string) : result A := api_error "403" ["FORBIDDEN"; reason].
Definition not_found {A} : result A := api_error "404" ["NOT_FOUND"].
Definition conflict {A} (reasons : list string) : result A := api_error "409" ("CONFLICT" :: reasons).

(** [require] *)
Definition require_permission (q : Request) (identity : Identity) (p : Permission) : stateful App unit :=
  if permits identity p
  then _record q "authorization.allowed" "ALLOWED" "AUTH_ALLOWED" identity (Some (permission_value p))
  else
    _ ← _record q "authorization.denied" "DENIED" "AUTH_ROLE_REQUIRED" identity (Some (permission_value p));
    lift (forbidden "AUTH_ROLE_REQUIRED").

(** [require_one_of] *)
Definition require_one_of (q : Request) (identity : Identity) (ps : list Permission) : stateful App unit :=
  match List.find (permits identity) ps with
  | Some p => _record q "authorization.allowed" "ALLOWED" "AUTH_ALLOWED" identity (Some (permission_value p))
  | None =>
      _ ← _record q "authorization.denied" "DENIED" "AUTH_ROLE_REQUIRED" identity
            (Some (str_join "|" (map permission_value ps)));
      lift (forbidden "AUTH_ROLE_REQUIRED")
  end.

Definition require_idempotency_key (value : option string) : result string :=
  match value with
  | Some v =>
      if (1 <=? str_len v)%nat && (str_len v <=? 128)%nat then Ok v
      else api_error "422" ["INVALID_REQUEST"; "Idempotency-Key"]
  | None => api_error "422" ["INVALID_REQUEST"; "Idempotency-Key"]
  end.

(** ** [api/routes/decisions.py] *)

Section routes.
Context `{HashAlg} `{ContractValidator}.

Definition tenant_name (identity : Identity) : string := tenant_id (identity_tenant identity).

(** [_operation] *)
Definition _operation (identity : Identity) (key operation : string) (payload : pyval) :
    stateful App (string * option Response) := λ a,
  let digest := payload_hash payload in
  match get_idempotency (tenant_name identity) (identity_actor identity) operation key digest (database a) with
  | Ok replay => (Ok (digest, replay), a)
  | Raise _ => (conflict ["IDEMPOTENCY_KEY_REUSED"], a)
  end.

Definition preferred_role (p : Permission) : option Role :=
  match p with
  | DECISION_CREATE => Some GENERATOR
  | DECISION_EVALUATE | DECISION_VALIDATE => Some VALIDATOR
  | DECISION_APPROVE => Some APPROVER
  | _ => None
  end.

(** [_actor] *)
Definition _actor (identity : Identity) (p : Permission) : Actor :=
  let role := match preferred_role p with
              | Some r => if bool_decide (r ∈ identity_roles identity) then r else identity_role identity
              | None => identity_role identity
              end in
  mkActor (identity_actor identity) (role_value role) (kind_value (identity_kind identity)).

(** [event.update({...})] *)
Definition tag_event (q : Request) (identity : Identity) (e : AuditEvent) : AuditEvent :=
  mkEvent (event_id e) (event_type e) (occurred_at e) (event_actor e) (from_status e) (to_status e)
    (event_codes e) (event_payload_hash e) (previous_event_hash e) (Some (tenant_name identity))
    (Some (correlation_id q)) (Some "api").

Definition with_events (d : Document) (events : list AuditEvent) : Document :=
  mkDocument (schema_version d) (Document.decision_id d) (title d) (doc_description d) (use_case d)
    (status d) (assurance_level d) (created_at d) (updated_at d) (created_by d) (requested_by d)
    (current_owner d) (canonical_action d) (claims d) (evidence d) (assumptions d) (constraints d)
    (policies d) (risks d) (conflicts d) (validation_results d) (review_requirements d)
    (approvals d) (decision_outcome d) (outcome_reasons d) events.

(** The checks of the body of [create_decision]; [except (ContractValidationError, ValueError)]. *)
Definition check_body (d : Document) : result unit :=
  match check_document d with
  | Ok _ => Ok tt
  | Raise e => if is_value_error (exn_cls e) then api_error "422" ("INVALID_REQUEST" :: exn_args e)
               else Raise e
  end.

Definition created_event (q : Request) (identity : Identity) (d : Document) : AuditEvent :=
  mkEvent (Document.decision_id d +:+ ":created:1") "decision.created" (isoformat (clock q 0))
    (_actor identity DECISION_CREATE) None "DRAFT" ["DECISION_CREATED"] (payload_hash (document_json d))
    None (Some (tenant_name identity)) (Some (correlation_id q)) (Some "api").

Definition integrity_conflict (m : stateful App unit) : stateful App unit := λ a,
  match m a with
  | (Raise e, a') =>
      if bool_decide (exn_cls e = IntegrityError) then (conflict ["DECISION_ALREADY_EXISTS"], a')
      else (Raise e, a')
  | r => r
  end.

(** [POST /v1/decisions] *)
Definition create_decision (q : Request) (identity : Identity) (key : option string) (d : Document) :
    stateful App Response :=
  _ ← require_permission q identity DECISION_CREATE;
  key ← lift (require_idempotency_key key);
  '(digest, replay) ← _operation identity key "decision:create" (document_json d);
  match replay with
  | Some r => mret r
  | None =>
      _ ← lift (check_body d);
      _ ← lift (if bool_decide (created_by d = _actor identity DECISION_CREATE) then Ok tt
                else forbidden "ACTOR_SPOOFING");
      _ ← lift (match canonical_action d with
                | Some a => if action_tenant a =? tenant_name identity then Ok tt
                            else forbidden "CROSS_TENANT_ACTION"
                | None => Ok tt
                end);
      let event := created_event q identity d in
      let document := with_events d (audit_events d ++ [event]) in
      let response := mkResponse 201 (document_json document) in
      _ ← integrity_conflict (transact (db_create_decision (tenant_name identity) document [event]
            (mkWrite (identity_actor identity) "decision:create" key digest response)));
      mret response
  end.

Definition find_document (identity : Identity) (id : string) : stateful App Document := λ a,
  match decisions (database a) !! (tenant_name identity, id) with
  | Some d => (Ok d, a)
  | None => (not_found, a)
  end.

(** [GET /v1/decisions/{decision_id}] *)
Definition get_decision (q : Request) (identity : Identity) (id : string) : stateful App Document :=
  _ ← require_permission q identity DECISION_READ;
  find_document identity id.

Definition evaluate_operation (id : string) : string := "decision:evaluate:" +:+ id.

(** The new events of the trail, tagged. *)
Definition tag_new (q : Request) (identity : Identity) (before : nat) (d : Document) : Document :=
  with_events d (take before (audit_events d) ++ map (tag_event q identity) (drop before (audit_events d))).

(** [POST /v1/decisions/{decision_id}/evaluate] *)
Definition evaluate_route (q : Request) (identity : Identity) (key : option string) (id : string) :
    stateful App Response :=
  _ ← require_permission q identity DECISION_EVALUATE;
  key ← lift (require_idempotency_key key);
  '(digest, replay) ← _operation identity key (evaluate_operation id) (PDict []);
  match replay with
  | Some r => mret r
  | None =>
      document ← find_document identity id;
      let before := length (audit_events document) in
      '(updated, r) ← lift (evaluate_decision_file (clock q) (engine_version q) document);
      let updated := tag_new q identity before updated in
      let response := mkResponse 200 (Engine.report r) in
      _ ← transact (save_result (tenant_name identity) updated (Some (Engine.report r))
            (drop before (audit_events updated))
            (mkWrite (identity_actor identity) (evaluate_operation id) key digest response));
      mret response
  end.

(** *** Transitions *)

Definition transition_operation (id target : string) : string :=
  "decision:transition:" +:+ id +:+ ":" +:+ target.

(** The permission the target needs before the document is read. *)
Definition require_target (q : Request) (identity : Identity) (target : string) : stateful App unit :=
  if target =? "APPROVED" then require_permission q identity DECISION_APPROVE
  else if target =? "BLOCKED" then require_one_of q identity [DECISION_VALIDATE; DECISION_APPROVE]
  else require_permission q identity DECISION_VALIDATE.

Definition is_approval_action (target : string) (d : Document) : bool :=
  (target =? "APPROVED") || (target =? "BLOCKED") && (status d =? "REVIEW").

Definition transition_permission (target : string) (d : Document) : Permission :=
  if is_approval_action target d then DECISION_APPROVE else DECISION_VALIDATE.

Definition set_reviews (d : Document) (reviews : list ReviewRequirement) (aps : list Approval) : Document :=
  mkDocument (schema_version d) (Document.decision_id d) (title d) (doc_description d) (use_case d)
    (status d) (assurance_level d) (created_at d) (updated_at d) (created_by d) (requested_by d)
    (current_owner d) (canonical_action d) (claims d) (evidence d) (assumptions d) (constraints d)
    (policies d) (risks d) (conflicts d) (validation_results d) reviews aps (decision_outcome d)
    (outcome_reasons d) (audit_events d).

(** The requirements an approver's own approval satisfies. *)
Definition approver_requirement (r : ReviewRequirement) : bool :=
  mandatory r && (required_role r =? "APPROVER").

Definition given_approval (d : Document) (me : Actor) (r : ReviewRequirement) (a : Approval) : bool :=
  (requirement_ref a =? requirement_id r) && (decision a =? "APPROVE") &&
  bool_decide (approver a = me) &&
  bool_decide (action_digest a = (canonical_digest <$> canonical_action d)).

(** One iteration of the loop over the requirements: [n] nonces are drawn already. *)
Definition approve_requirement (q : Request) (me : Actor) (r : ReviewRequirement)
    (st : Document * nat) : Document * nat :=
  let '(d, n) := st in
  if approver_requirement r then
    if existsb (given_approval d me r) (approvals d) then (d, n)
    else (set_reviews d (review_requirements d)
            (approvals d ++ [bind_approval d (mkApproval (requirement_id r) me "APPROVE"
               (isoformat (clock q 0)) (canonical_digest <$> canonical_action d) (fresh_nonce q n) "")]),
          S n)
  else (d, n).

Definition satisfy (r : ReviewRequirement) : ReviewRequirement :=
  if approver_requirement r
  then mkRequirement (requirement_id r) (required_role r) (mandatory r) true else r.

(** The loop; a requirement is marked satisfied after its approval is bound. *)
Fixpoint approve_all (q : Request) (me : Actor) (todo : list ReviewRequirement) (st : Document * nat) :
    Document * nat :=
  match todo with
  | [] => st
  | r :: todo => approve_all q me todo (approve_requirement q me r st)
  end.

Definition record_approvals (q : Request) (identity : Identity) (d : Document) : Document :=
  let me := _actor identity DECISION_APPROVE in
  let '(d', _) := approve_all q me (review_requirements d) (d, 0) in
  set_reviews d' (map satisfy (review_requirements d)) (approvals d').

Definition prepared (q : Request) (identity : Identity) (target : string) (d : Document) : Document :=
  if (target =? "APPROVED") && (status d =? "REVIEW") && bool_decide (identity_kind identity = HUMAN)
  then record_approvals q identity d else d.

Definition transition_payload_json (target : string) : pyval := PDict [("target", PStr target)].

(** [except TransitionRejected as error] *)
Definition rejected_conflict (m : result Document) : result Document :=
  match m with
  | Raise e => if bool_decide (exn_cls e = TransitionRejected) then conflict (exn_args e) else Raise e
  | r => r
  end.

(** [POST /v1/decisions/{decision_id}/transitions] *)
Definition transition_route (q : Request) (identity : Identity) (key : option string)
    (id target : string) : stateful App Response :=
  key ← lift (require_idempotency_key key);
  _ ← require_target q identity target;
  document ← find_document identity id;
  let p := transition_permission target document in
  _ ← (if target =? "BLOCKED" then require_permission q identity p else mret tt);
  let operation := transition_operation id target in
  '(digest, replay) ← _operation identity key operation (transition_payload_json target);
  match replay with
  | Some r => mret r
  | None =>
      let document := prepared q identity target document in
      updated ← lift (rejected_conflict
                        (transition (clock q 1) document target (_actor identity p)));
      let updated := tag_new q identity (length (audit_events document)) updated in
      let response := mkResponse 200 (document_json updated) in
      _ ← transact (save_result (tenant_name identity) updated None
            (drop (length (audit_events document)) (audit_events updated))
            (mkWrite (identity_actor identity) operation key digest response));
      mret response
  end.

Definition find_report (identity : Identity) (id : string) : stateful App pyval := λ a,
  match reports (database a) !! (tenant_name identity, id) with
  | Some r => (Ok r, a)
  | None => (not_found, a)
  end.

Definition audit_page (identity : Identity) (id : string) (limit offset : Z) :
    stateful App (list AuditEvent) := λ a,
  (list_audit (tenant_name identity) id limit offset (database a), a).

(** [GET /v1/decisions/{decision_id}/report] *)
Definition get_report (q : Request) (identity : Identity) (id : string) : stateful App pyval :=
  _ ← require_permission q identity REPORT_READ;
  find_report identity id.

(** [GET /v1/decisions/{decision_id}/audit] *)
Definition get_audit (q : Request) (identity : Identity) (id : string) (limit offset : Z) :
    stateful App (list AuditEvent) :=
  _ ← require_permission q identity AUDIT_READ;
  _ ← find_document identity id;
  audit_page identity id limit offset.
End routes.
