(* ===== verification/DecisionStoreProps.v ===== *)
(** * Properties of the decision API

    Requests are atomic and idempotent, tenants are isolated, the audit table is the tail of
    each document's trail, and an approval through the API is the caller's own. *)

From S2P Require Import Prelude PyVal Json Sha256 PyTime AuditChain Engine Document DecisionFile DecisionFileProps Transitions TransitionProps Identity SecurityEvents DecisionStore Samples.
From stdpp Require Import options.

(** ** Computations that leave the database alone *)

Definition same_db (a a' : App) : Prop := database a' = database a.
#[export] Instance same_db_preorder : PreOrder same_db.
Proof. split; unfold same_db; [done|by intros ??? -> ->]. Qed.

Definition quiet {A} (m : stateful App A) : Prop := always same_db m.

(** A computation that raises has changed nothing. *)
Definition atomic {A} (m : stateful App A) : Prop :=
  ∀ a, match m a with (Raise _, a') => database a' = database a | _ => True end.

Lemma quiet_bind_Ok {A B} (m : stateful App A) (f : A → stateful App B) a b a' :
  quiet m → (m ≫= f) a = (Ok b, a') →
  ∃ x a1, m a = (Ok x, a1) ∧ database a1 = database a ∧ f x a1 = (Ok b, a').
Proof.
  intros Hm (x & a1 & Hx & Hf)%stateful_bind_Ok. specialize (Hm a). rewrite Hx in Hm. eauto.
Qed.

Lemma lift_bind_Ok {A B} (m : result A) (f : A → stateful App B) a b a' :
  (lift m ≫= f) a = (Ok b, a') ↔ ∃ x, m = Ok x ∧ f x a = (Ok b, a').
Proof.
  unfold mbind, stateful_bind, lift. destruct m; naive_solver.
Qed.

Lemma atomic_bind {A B} (m : stateful App A) (f : A → stateful App B) :
  quiet m → (∀ x, atomic (f x)) → atomic (m ≫= f).
Proof.
  intros Hm Hf a. unfold mbind, stateful_bind. specialize (Hm a).
  destruct (m a) as [[x|e] a1]; cbn in Hm; [|done]. specialize (Hf x a1).
  destruct (f x a1) as [[y|e] a2]; [done|]. by rewrite Hf.
Qed.

Lemma atomic_quiet {A} (m : stateful App A) : quiet m → atomic m.
Proof. intros Hm a. specialize (Hm a). by destruct (m a) as [[]]. Qed.

Lemma transact_Ok f a a' u :
  transact f a = (Ok u, a') ↔ u = tt ∧ ∃ db, f (database a) = Ok db ∧ a' = mkApp db (security_log a).
Proof. unfold transact. destruct (f (database a)), u; naive_solver. Qed.

Lemma atomic_transact {A} f (x : A) : atomic (transact f ≫= λ _, mret x).
Proof. intros a. unfold mbind, stateful_bind, transact. by destruct (f (database a)). Qed.

Lemma integrity_conflict_Ok m a u a' :
  integrity_conflict m a = (Ok u, a') ↔ m a = (Ok u, a').
Proof.
  unfold integrity_conflict. destruct (m a) as [[]]; [done|]. case_bool_decide; done.
Qed.

Lemma atomic_integrity {A} f (x : A) : atomic (integrity_conflict (transact f) ≫= λ _, mret x).
Proof.
  intros a. unfold mbind, stateful_bind, integrity_conflict, transact.
  destruct (f (database a)); [done|]. by case_bool_decide.
Qed.

Lemma record_quiet q ty d rs i p : quiet (_record q ty d rs i p).
Proof. intros a. unfold _record. by destruct (create _ _ _ _ _ _ _ _ _ _). Qed.
#[export] Hint Resolve record_quiet : always.

Lemma require_permission_quiet q i p : quiet (require_permission q i p).
Proof. unfold require_permission, quiet. always_steps; apply record_quiet. Qed.

Lemma require_one_of_quiet q i ps : quiet (require_one_of q i ps).
Proof. unfold require_one_of, quiet. always_steps; apply record_quiet. Qed.

Lemma require_target_quiet q i target : quiet (require_target q i target).
Proof.
  unfold require_target, quiet. always_steps;
    first [apply require_permission_quiet|apply require_one_of_quiet].
Qed.

Lemma require_permission_Ok q i p a u a' :
  require_permission q i p a = (Ok u, a') → permits i p = true.
Proof.
  unfold require_permission. destruct (permits i p); [done|].
  unfold mbind, stateful_bind, lift, forbidden, api_error. by destruct (_record _ _ _ _ _ _ a) as [[]].
Qed.

Lemma require_one_of_Ok q i ps a u a' :
  require_one_of q i ps a = (Ok u, a') → ∃ p, p ∈ ps ∧ permits i p = true.
Proof.
  unfold require_one_of. destruct (List.find _ ps) as [p|] eqn:E.
  - intros _. apply List.find_some in E as [Hin Hp]. exists p. by rewrite list_elem_of_In.
  - unfold mbind, stateful_bind, lift, forbidden, api_error. by destruct (_record _ _ _ _ _ _ a) as [[]].
Qed.

Section routes.
Context `{HashAlg} `{ContractValidator}.

Lemma operation_quiet i key op payload : quiet (_operation i key op payload).
Proof. intros a. unfold _operation. by destruct (get_idempotency _ _ _ _ _ _). Qed.

Lemma find_document_quiet i id : quiet (find_document i id).
Proof. intros a. unfold find_document. by destruct (decisions _ !! _). Qed.

Lemma operation_Ok i key op payload a digest replay a' :
  _operation i key op payload a = (Ok (digest, replay), a') ↔
  a' = a ∧ digest = payload_hash payload ∧
  get_idempotency (tenant_name i) (identity_actor i) op key digest (database a) = Ok replay.
Proof.
  unfold _operation. split; [|by intros (-> & -> & ->)].
  destruct (get_idempotency _ _ _ _ _ _) eqn:E; [|done]. by intros [= <- <- <-].
Qed.

Lemma find_document_Ok i id a d a' :
  find_document i id a = (Ok d, a') ↔ a' = a ∧ decisions (database a) !! (tenant_name i, id) = Some d.
Proof. unfold find_document. destruct (decisions _ !! _); naive_solver. Qed.

(** ** The requests that change the store *)

Inductive command :=
  | Create (d : Document)
  | Evaluate (id : string)
  | Transition (id target : string).

Definition run (q : Request) (i : Identity) (key : option string) (c : command) : stateful App Response :=
  match c with
  | Create d => create_decision q i key d
  | Evaluate id => evaluate_route q i key id
  | Transition id target => transition_route q i key id target
  end.

(** The name and the payload under which the answer to a command is kept. *)
Definition operation_name (c : command) : string :=
  match c with
  | Create _ => "decision:create"
  | Evaluate id => evaluate_operation id
  | Transition id target => transition_operation id target
  end.
Definition operation_payload (c : command) : pyval :=
  match c with
  | Create d => document_json d
  | Evaluate _ => PDict []
  | Transition _ target => transition_payload_json target
  end.

Definition command_key (i : Identity) (key : string) (c : command) : operation_key :=
  (tenant_name i, identity_actor i, operation_name c, key).
Definition command_hash (c : command) : string := payload_hash (operation_payload c).

(** What a command writes, besides the answer it keeps: the document [d] under its key, the
    rows [events], and possibly a report. *)
Record write := mkRows {
  rows_document : Document; rows_report : option pyval; rows_events : list AuditEvent
}.

(** The rows a command writes when it answers [r] for the first time. *)
Definition produces (q : Request) (i : Identity) (c : command) (db : Database) (w : write) (r : Response) : Prop :=
  match c with
  | Create d =>
      permits i DECISION_CREATE = true ∧ check_body d = Ok tt ∧
      created_by d = _actor i DECISION_CREATE ∧
      (∀ x, canonical_action d = Some x → action_tenant x = tenant_name i) ∧
      decisions db !! (tenant_name i, Document.decision_id d) = None ∧
      w = mkRows (with_events d (audit_events d ++ [created_event q i d])) None [created_event q i d] ∧
      r = mkResponse 201 (document_json (rows_document w))
  | Evaluate id =>
      permits i DECISION_EVALUATE = true ∧
      ∃ d d' res, decisions db !! (tenant_name i, id) = Some d ∧
        evaluate_decision_file (clock q) (engine_version q) d = Ok (d', res) ∧
        w = mkRows (tag_new q i (length (audit_events d)) d') (Some (Engine.report res))
              (drop (length (audit_events d)) (audit_events (tag_new q i (length (audit_events d)) d'))) ∧
        r = mkResponse 200 (Engine.report res)
  | Transition id target =>
      ∃ d d', decisions db !! (tenant_name i, id) = Some d ∧
        (target = "APPROVED" ∨ target = "BLOCKED" → permits i (transition_permission target d) = true) ∧
        (target ≠ "APPROVED" → target ≠ "BLOCKED" → permits i DECISION_VALIDATE = true) ∧
        transition (clock q 1) (prepared q i target d) target (_actor i (transition_permission target d)) = Ok d' ∧
        w = mkRows (tag_new q i (length (audit_events d)) d') None
              (drop (length (audit_events d)) (audit_events (tag_new q i (length (audit_events d)) d'))) ∧
        r = mkResponse 200 (document_json (rows_document w))
  end.

Definition target_id (c : command) : string :=
  match c with Create d => Document.decision_id d | Evaluate id => id | Transition id _ => id end.

(** The database after a write. *)
Definition written (i : Identity) (key : string) (c : command) (w : write) (r : Response) (db : Database) : Database :=
  let k := (tenant_name i, Document.decision_id (rows_document w)) in
  mkDatabase (<[k := rows_document w]> (decisions db))
    (match rows_report w with Some x => <[k := x]> (reports db) | None => reports db end)
    (audit_rows db ++ ((k,.) <$> rows_events w))
    (<[command_key i key c := (command_hash c, r)]> (idempotency db)).

(** ** What a transaction writes *)

Lemma insert_events_Ok k es db db' :
  insert_events k es db = Ok db' →
  db' = mkDatabase (decisions db) (reports db) (audit_rows db ++ ((k,.) <$> es)) (idempotency db).
Proof.
  revert db. induction es as [|e es IH]; intros db E; cbn in E.
  - inv_ok. cbn. rewrite app_nil_r. by destruct db'.
  - apply bind_Ok in E as (db1 & E1 & E). unfold _insert_audit in E1. inv_ok.
    rewrite (IH _ E). cbn. by rewrite <-(assoc_L (++)).
Qed.

Lemma create_Ok t d es w db db' :
  db_create_decision t d es w db = Ok db' →
  decisions db !! (t, Document.decision_id d) = None ∧ idempotency db !! write_key t w = None ∧
  db' = mkDatabase (<[(t, Document.decision_id d) := d]> (decisions db)) (reports db)
          (audit_rows db ++ (((t, Document.decision_id d),.) <$> es))
          (<[write_key t w := (w_hash w, w_response w)]> (idempotency db)).
Proof.
  intros E. unfold db_create_decision, _insert_idempotency in E. inv_ok.
  match goal with E : insert_events _ _ _ = Ok _ |- _ => apply insert_events_Ok in E; subst end.
  cbn in *. bool_prop. done.
Qed.

Lemma save_Ok t d rep es w db db' :
  save_result t d rep es w db = Ok db' →
  is_Some (decisions db !! (t, Document.decision_id d)) ∧ idempotency db !! write_key t w = None ∧
  db' = mkDatabase (<[(t, Document.decision_id d) := d]> (decisions db))
          (match rep with Some x => <[(t, Document.decision_id d) := x]> (reports db) | None => reports db end)
          (audit_rows db ++ (((t, Document.decision_id d),.) <$> es))
          (<[write_key t w := (w_hash w, w_response w)]> (idempotency db)).
Proof.
  intros E. unfold save_result, _insert_idempotency in E. inv_ok.
  match goal with E : insert_events _ _ _ = Ok _ |- _ => apply insert_events_Ok in E; subst end.
  bool_prop. destruct rep; cbn in *; done.
Qed.

(** ** The two ways a command succeeds *)

(** A replay of the kept answer, or a first answer with its write. *)
Definition answers (q : Request) (i : Identity) (k : string) (c : command) (db : Database) (r : Response)
    (db' : Database) : Prop :=
  (idempotency db !! command_key i k c = Some (command_hash c, r) ∧ db' = db) ∨
  (idempotency db !! command_key i k c = None ∧
   ∃ w, produces q i c db w r ∧ db' = written i k c w r db).

Lemma replay_or_first i k c db replay :
  get_idempotency (tenant_name i) (identity_actor i) (operation_name c) k (command_hash c) db = Ok replay →
  match replay with
  | Some r => idempotency db !! command_key i k c = Some (command_hash c, r)
  | None => idempotency db !! command_key i k c = None
  end.
Proof.
  unfold get_idempotency, command_key. destruct (idempotency db !! _) as [[h r]|]; intros E; inv_ok; [|done].
  bool_prop. by subst.
Qed.

Lemma require_key_Ok key k : require_idempotency_key key = Ok k → key = Some k.
Proof. unfold require_idempotency_key. destruct key as [v|]; [|done]. destruct (_ && _); [|done]. by intros [= ->]. Qed.

Lemma create_spec q i key d a r a' :
  create_decision q i key d a = (Ok r, a') →
  ∃ k, key = Some k ∧ answers q i k (Create d) (database a) r (database a').
Proof.
  unfold create_decision. intros E.
  apply quiet_bind_Ok in E as (u & a1 & Hp & E1 & E); [|apply require_permission_quiet].
  apply require_permission_Ok in Hp.
  apply lift_bind_Ok in E as (k & Hk & E). exists k. split; [by apply require_key_Ok|].
  apply stateful_bind_Ok in E as ([digest replay] & a2 & (-> & -> & Hg)%operation_Ok & E).
  rewrite E1 in Hg. pose proof (replay_or_first i k (Create d) _ _ Hg) as Hi.
  destruct replay as [r0|]; [injection E as -> <-; left; done|]. right. split; [done|].
  apply lift_bind_Ok in E as ([] & Hb & E). apply lift_bind_Ok in E as ([] & Hc & E).
  apply lift_bind_Ok in E as ([] & Ht & E).
  apply stateful_bind_Ok in E as ([] & a3 & (_ & db & Hdb & ->)%integrity_conflict_Ok%transact_Ok & E).
  injection E as <- <-. rewrite E1 in Hdb. apply create_Ok in Hdb as (Hn & _ & ->).
  eexists (mkRows _ None _). split; [|done].
  case_bool_decide; [|done]. split_and!; try done.
  intros x Hx. rewrite Hx in Ht. destruct (action_tenant x =? tenant_name i) eqn:Et; [|done].
  by apply String.eqb_eq.
Qed.

Lemma evaluate_id d clk v d' res :
  evaluate_decision_file clk v d = Ok (d', res) →
  Document.decision_id d' = Document.decision_id d ∧
  ∃ e, audit_events d' = audit_events d ++ [e] ∧ previous_event_hash e = previous_link (audit_events d).
Proof.
  intros (_ & _ & -> & _)%evaluate_inv. split; [done|]. by eexists.
Qed.

(** The documents of the store lie under their own identifiers. *)
Definition keyed (db : Database) : Prop :=
  ∀ t id d, decisions db !! (t, id) = Some d → Document.decision_id d = id.

Lemma evaluate_spec q i key id a r a' :
  evaluate_route q i key id a = (Ok r, a') →
  ∃ k, key = Some k ∧ answers q i k (Evaluate id) (database a) r (database a').
Proof.
  unfold evaluate_route. intros E.
  apply quiet_bind_Ok in E as (u & a1 & Hp & E1 & E); [|apply require_permission_quiet].
  apply require_permission_Ok in Hp.
  apply lift_bind_Ok in E as (k & Hk & E). exists k. split; [by apply require_key_Ok|].
  apply stateful_bind_Ok in E as ([digest replay] & a2 & (-> & -> & Hg)%operation_Ok & E).
  rewrite E1 in Hg. pose proof (replay_or_first i k (Evaluate id) _ _ Hg) as Hi.
  destruct replay as [r0|]; [injection E as -> <-; left; done|]. right. split; [done|].
  apply stateful_bind_Ok in E as (d & a3 & (-> & Hd)%find_document_Ok & E).
  apply lift_bind_Ok in E as ([d' res] & He & E).
  apply stateful_bind_Ok in E as ([] & a4 & (_ & db & Hdb & ->)%transact_Ok & E).
  injection E as <- <-. rewrite E1 in Hdb, Hd. apply save_Ok in Hdb as (_ & _ & ->).
  eexists (mkRows _ (Some _) _). split; [|done]. split; [done|]. exists d, d', res. done.
Qed.

(** *** The approvals an approver gives by approving *)

(** An approval of the caller for the action the document carries, bound to its digest. *)
Definition own_approval (d : Document) (me : Actor) (a : Approval) : Prop :=
  approver a = me ∧ decision a = "APPROVE" ∧
  action_digest a = (canonical_digest <$> canonical_action d) ∧
  digest_of_approval a = approval_digest d a.

Lemma set_reviews_same d : set_reviews d (review_requirements d) (approvals d) = d.
Proof. by destruct d. Qed.

Lemma approval_digest_reviews d rs aps a : approval_digest (set_reviews d rs aps) a = approval_digest d a.
Proof. done. Qed.

Lemma approve_all_shape q me todo d n :
  ∃ aps, (approve_all q me todo (d, n)).1 = set_reviews d (review_requirements d) (approvals d ++ aps) ∧
    Forall (own_approval d me) aps ∧
    ∀ r, r ∈ todo → approver_requirement r = true →
      existsb (given_approval d me r) (approvals d ++ aps) = true.
Proof.
  revert d n. induction todo as [|r todo IH]; intros d n; cbn [approve_all].
  { exists []. rewrite app_nil_r, set_reviews_same. split_and!; [done|constructor|set_solver]. }
  assert (∃ n' new, approve_requirement q me r (d, n) =
      (set_reviews d (review_requirements d) (approvals d ++ new), n') ∧
    Forall (own_approval d me) new ∧
    (approver_requirement r = true → existsb (given_approval d me r) (approvals d ++ new) = true))
    as (n' & new & -> & Hnew & Hr).
  { unfold approve_requirement. destruct (approver_requirement r).
    - destruct (existsb _ _) eqn:E.
      + exists n, []. by rewrite app_nil_r, set_reviews_same.
      + eexists _, [_]. split; [done|]. split; [by repeat constructor|]. intros _.
        rewrite existsb_app. cbn. unfold given_approval at 2. cbn.
        by rewrite String.eqb_refl, !bool_decide_true, orb_true_r by done.
    - exists n, []. by rewrite app_nil_r, set_reviews_same. }
  destruct (IH (set_reviews d (review_requirements d) (approvals d ++ new)) n') as (aps & -> & Haps & Hin).
  exists (new ++ aps). rewrite (assoc_L (++)). split_and!; [done|by apply Forall_app|].
  intros r' [->|Hr']%elem_of_cons Ha; [|by apply Hin].
  by rewrite existsb_app, (Hr Ha).
Qed.

(** The document the policy sees differs in its approvals and satisfied requirements only. *)
Lemma prepared_shape q i target d :
  ∃ f aps, prepared q i target d =
      set_reviews d (map f (review_requirements d)) (approvals d ++ aps) ∧
    Forall (own_approval d (_actor i DECISION_APPROVE)) aps ∧
    ∀ r, requirement_id (f r) = requirement_id r ∧ mandatory (f r) = mandatory r ∧
      required_role (f r) = required_role r.
Proof.
  unfold prepared. destruct (_ && _ && _).
  - unfold record_approvals.
    destruct (approve_all_shape q (_actor i DECISION_APPROVE) (review_requirements d) d 0)
      as (aps & E & Ha & _).
    destruct (approve_all _ _ _ _) as [d' n]. cbn in E. subst d'. cbn.
    exists satisfy, aps. split_and!; [done..|]. intros r. unfold satisfy.
    by destruct (approver_requirement r).
  - exists id, []. rewrite map_id, app_nil_r, set_reviews_same. by split_and!.
Qed.

Lemma prepared_trail q i target d : audit_events (prepared q i target d) = audit_events d.
Proof. by destruct (prepared_shape q i target d) as (rs & aps & -> & _). Qed.

Lemma transition_spec q i key id target a r a' :
  transition_route q i key id target a = (Ok r, a') →
  ∃ k, key = Some k ∧ answers q i k (Transition id target) (database a) r (database a').
Proof.
  unfold transition_route. intros E.
  apply lift_bind_Ok in E as (k & Hk & E). exists k. split; [by apply require_key_Ok|].
  apply quiet_bind_Ok in E as (u & a1 & Hp & E1 & E); [|apply require_target_quiet].
  apply stateful_bind_Ok in E as (d & a3 & (-> & Hd)%find_document_Ok & E).
  apply quiet_bind_Ok in E as (u' & a2 & Hp' & E2 & E);
    [|destruct (target =? "BLOCKED"); [apply require_permission_quiet|apply always_ret, _]].
  apply stateful_bind_Ok in E as ([digest replay] & a4 & (-> & -> & Hg)%operation_Ok & E).
  rewrite E2, E1 in Hg. rewrite E1 in Hd.
  pose proof (replay_or_first i k (Transition id target) _ _ Hg) as Hi.
  destruct replay as [r0|]; [injection E as -> <-; left; split; [done|congruence]|]. right. split; [done|].
  apply lift_bind_Ok in E as (d' & He & E).
  apply stateful_bind_Ok in E as ([] & a5 & (_ & db & Hdb & ->)%transact_Ok & E).
  injection E as <- <-. rewrite E2, E1 in Hdb. apply save_Ok in Hdb as (_ & _ & ->).
  rewrite !prepared_trail.
  eexists (mkRows _ None _). split; [|done]. exists d, d'. split_and!; try done.
  - intros [->| ->]; [|by apply require_permission_Ok in Hp'].
    by apply require_permission_Ok in Hp.
  - intros H1 H2. unfold require_target in Hp.
    rewrite (proj2 (String.eqb_neq _ _) H1), (proj2 (String.eqb_neq _ _) H2) in Hp.
    by apply require_permission_Ok in Hp.
  - unfold rejected_conflict in He. destruct (transition _ _ _ _) as [x|e]; [done|].
    by case_bool_decide.
Qed.

Lemma run_spec q i key c a r a' :
  run q i key c a = (Ok r, a') →
  ∃ k, key = Some k ∧ answers q i k c (database a) r (database a').
Proof. destruct c; [apply create_spec|apply evaluate_spec|apply transition_spec]. Qed.

Lemma run_atomic q i key c : atomic (run q i key c).
Proof.
  assert (∀ (A : Type) (m : result A), quiet (lift m)) as Hl by (intros; apply always_lift, _).
  destruct c; cbn.
  - apply atomic_bind; [apply require_permission_quiet|intros _]. apply atomic_bind; [done|intros k].
    apply atomic_bind; [apply operation_quiet|intros [digest [r|]]]; [done|].
    do 3 (apply atomic_bind; [done|intros ?]). apply atomic_integrity.
  - apply atomic_bind; [apply require_permission_quiet|intros _]. apply atomic_bind; [done|intros k].
    apply atomic_bind; [apply operation_quiet|intros [digest [r|]]]; [done|].
    apply atomic_bind; [apply find_document_quiet|intros d]. apply atomic_bind; [done|intros [d' r]].
    apply atomic_transact.
  - apply atomic_bind; [done|intros k]. apply atomic_bind; [apply require_target_quiet|intros _].
    apply atomic_bind; [apply find_document_quiet|intros d].
    apply atomic_bind; [destruct (_ =? _); [apply require_permission_quiet|apply always_ret, _]|intros _].
    apply atomic_bind; [apply operation_quiet|intros [digest [r|]]]; [done|].
    apply atomic_bind; [done|intros d']. apply atomic_transact.
Qed.

(** ** Sequences of requests *)

Definition request : Type := Request * Identity * option string * command.
Definition run_request (a : App) (x : request) : App :=
  let '(q, i, key, c) := x in (run q i key c a).2.
Definition run_requests (a : App) (xs : list request) : App := foldl run_request a xs.

(** Each request leaves the database alone or writes what its command produces. *)
Lemma run_request_cases a q i key c :
  database (run_request a (q, i, key, c)) = database a ∨
  ∃ k w r, idempotency (database a) !! command_key i k c = None ∧
    produces q i c (database a) w r ∧
    database (run_request a (q, i, key, c)) = written i k c w r (database a).
Proof.
  cbn. pose proof (run_atomic q i key c a) as Hat. destruct (run q i key c a) as [[r|e] a'] eqn:E.
  - apply run_spec in E as (k & _ & [[_ Hd]|(Hn & w & Hw & Hd)]); [by left|]. right.
    exists k, w, r. done.
  - by left.
Qed.

(** A relation on databases that every write respects holds along every sequence. *)
Lemma run_requests_ind (R : Database → Database → Prop) `{!PreOrder R} :
  (∀ q i k c w r db, idempotency db !! command_key i k c = None → produces q i c db w r →
     R db (written i k c w r db)) →
  ∀ xs a, R (database a) (database (run_requests a xs)).
Proof.
  intros Hw xs. induction xs as [|[[[q i] key] c] xs IH]; intros a; [done|].
  cbn [run_requests foldl]. etrans; [|apply IH].
  destruct (run_request_cases a q i key c) as [->|(k & w & r & Hn & Hp & ->)]; [done|by eapply Hw].
Qed.

(** Kept answers stay. *)
Definition keeps_answers (db db' : Database) : Prop :=
  ∀ k v, idempotency db !! k = Some v → idempotency db' !! k = Some v.
#[local] Instance keeps_answers_preorder : PreOrder keeps_answers.
Proof. split; [by intros db k v|]. intros x y z Hxy Hyz k v Hk. auto. Qed.

Lemma run_requests_keep xs a : keeps_answers (database a) (database (run_requests a xs)).
Proof.
  apply run_requests_ind; [apply _|]. intros q i k c w r db Hn _ k' v Hk. cbn.
  rewrite lookup_insert_ne; [done|congruence].
Qed.

(** C22: requests are atomic and idempotent: a request that fails changes nothing in the database;
    and once a request has answered under an idempotency key, whatever requests follow, any
    request of the same actor under the same key and operation that answers gives the same
    answer, changes nothing, and had the same payload digest. *)
Theorem requests_exactly_once q i key c a :
  (∀ e a', run q i key c a = (Raise e, a') → database a' = database a) ∧
  (∀ r a', run q i key c a = (Ok r, a') →
     ∀ xs q2 c2 r2 a2, operation_name c2 = operation_name c →
       run q2 i key c2 (run_requests a' xs) = (Ok r2, a2) →
       r2 = r ∧ database a2 = database (run_requests a' xs) ∧ command_hash c2 = command_hash c).
Proof.
  split; [intros e a' E; pose proof (run_atomic q i key c a) as Hat; by rewrite E in Hat|].
  intros r a' E xs q2 c2 r2 a2 Hop E2.
  apply run_spec in E as (k & -> & Ha).
  assert (idempotency (database a') !! command_key i k c = Some (command_hash c, r)) as Hk.
  { destruct Ha as [[Hk ->]|(_ & w & _ & ->)]; [done|]. cbn. by rewrite lookup_insert_eq. }
  apply (run_requests_keep xs) in Hk.
  apply run_spec in E2 as (k2 & [= <-] & Ha2). unfold command_key in *. unfold answers, command_key in Ha2.
  rewrite Hop, Hk in Ha2. destruct Ha2 as [[Hk2%(inj Some) Hd]|[Hn _]]; [|done].
  apply pair_equal_spec in Hk2 as [Hh Hr]. done.
Qed.

(** ** The audit table *)

Definition rows_of (db : Database) (k : row_key) : list AuditEvent :=
  snd <$> filter (λ r, r.1 = k) (audit_rows db).

Lemma rows_of_written i k c w r db key :
  rows_of (written i k c w r db) key =
    rows_of db key ++
    (if decide ((tenant_name i, Document.decision_id (rows_document w)) = key) then rows_events w else []).
Proof.
  unfold rows_of. cbn. rewrite filter_app, fmap_app. f_equal.
  set (key' := (tenant_name i, Document.decision_id (rows_document w))).
  induction (rows_events w) as [|e l IH]; [by case_decide|].
  rewrite fmap_cons, filter_cons. cbn [fst]. case_decide; [rewrite fmap_cons, IH|exact IH]. done.
Qed.

(** The rows of a decision are the last events of its document's trail. *)
Record store_ok (db : Database) : Prop := {
  store_keyed : keyed db;
  store_rows : ∀ k d, decisions db !! k = Some d →
    ∃ n, n ≤ length (audit_events d) ∧ rows_of db k = drop n (audit_events d);
  store_absent : ∀ k, decisions db !! k = None → rows_of db k = []
}.

Lemma transition_shape now d target actor d' :
  transition now d target actor = Ok d' →
  Document.decision_id d' = Document.decision_id d ∧
  ∃ e, audit_events d' = audit_events d ++ [e] ∧ previous_event_hash e = previous_link (audit_events d).
Proof. intros (s & t & _ & _ & _ & _ & -> & _)%transition_inv. split; [done|]. by eexists. Qed.

(** Every write is of a document whose trail extends the stored one by the rows it inserts. *)
Lemma produces_shape q i c db w r :
  keyed db → produces q i c db w r →
  let k := (tenant_name i, Document.decision_id (rows_document w)) in
  ∃ before e, audit_events (rows_document w) = before ++ [e] ∧ rows_events w = [e] ∧
    match decisions db !! k with
    | Some d => before = audit_events d ∧ previous_event_hash e = previous_link before ∧
        ∀ d0, c ≠ Create d0
    | None => ∃ d, c = Create d ∧ before = audit_events d
    end.
Proof.
  intros Hk Hp. destruct c as [d|id|id target]; cbn in Hp.
  - destruct Hp as (_ & _ & _ & _ & Hn & -> & _). cbn. rewrite Hn.
    exists (audit_events d), (created_event q i d). split_and!; [done..|]. by exists d.
  - destruct Hp as (_ & d & d' & res & Hd & He & -> & _). cbn.
    apply evaluate_id in He as (Hid & e & He & Hpr). rewrite Hid, (Hk _ _ _ Hd), Hd.
    rewrite He, take_app_length, drop_app_length. cbn. rewrite drop_app_length.
    exists (audit_events d), (tag_event q i e). by split_and!.
  - destruct Hp as (d & d' & Hd & _ & _ & He & -> & _). cbn.
    apply transition_shape in He as (Hid & e & He & Hpr). rewrite prepared_trail in He, Hpr.
    assert (Document.decision_id (prepared q i target d) = Document.decision_id d) as E
      by (by destruct (prepared_shape q i target d) as (rs & aps & -> & _)).
    rewrite Hid, E, (Hk _ _ _ Hd), Hd.
    rewrite He, take_app_length, drop_app_length. cbn. rewrite drop_app_length.
    exists (audit_events d), (tag_event q i e). by split_and!.
Qed.

Lemma written_ok q i k c w r db : store_ok db → produces q i c db w r → store_ok (written i k c w r db).
Proof.
  intros [Hk Hr Ha] Hp. destruct (produces_shape q i c db w r Hk Hp) as (before & e & He & Hes & Hold).
  set (key := (tenant_name i, Document.decision_id (rows_document w))) in *. split.
  - intros t id d Hl. cbn in Hl. fold key in Hl. destruct (decide (key = (t, id))) as [E|Hne].
    + rewrite E, lookup_insert_eq in Hl. injection Hl as <-. by injection E.
    + rewrite lookup_insert_ne in Hl by done. by eapply Hk.
  - intros k' d Hl. cbn in Hl. fold key in Hl. rewrite rows_of_written. fold key.
    destruct (decide (key = k')) as [<-|Hne].
    + rewrite lookup_insert_eq in Hl. injection Hl as <-. rewrite He, Hes.
      destruct (decisions db !! key) as [d0|] eqn:Ed.
      * destruct Hold as (-> & _ & _). destruct (Hr _ _ Ed) as (n & Hn & ->). exists n.
        rewrite length_app. split; [cbn; lia|]. by rewrite drop_app_le by done.
      * rewrite (Ha _ Ed). exists (length before). rewrite length_app, drop_app_length. split; [lia|done].
    + rewrite lookup_insert_ne in Hl by done. rewrite app_nil_r. by apply Hr.
  - intros k' Hl. cbn in Hl. fold key in Hl. apply lookup_insert_None in Hl as [Hl Hne].
    rewrite rows_of_written. fold key. rewrite decide_False by done. rewrite app_nil_r. by apply Ha.
Qed.

Definition empty_database : Database := mkDatabase ∅ ∅ [] ∅.

Lemma empty_ok : store_ok empty_database.
Proof. split; cbn; [intros ???|intros ??|intros ??]; rewrite ?lookup_empty; done. Qed.

Definition stays_ok (db db' : Database) : Prop := store_ok db → store_ok db'.
#[local] Instance stays_ok_preorder : PreOrder stays_ok.
Proof. split; [by intros db Hdb|]. intros x y z Hxy Hyz Hx. apply Hyz, Hxy, Hx. Qed.

Lemma run_requests_ok xs a : store_ok (database a) → store_ok (database (run_requests a xs)).
Proof.
  apply (run_requests_ind stays_ok).
  intros q i k c w r db _ Hp Hok. by eapply written_ok.
Qed.

(** History is only appended to. *)
Definition grows (db db' : Database) : Prop :=
  store_ok db → store_ok db' ∧
  ∀ k d, decisions db !! k = Some d →
    ∃ d' tail, decisions db' !! k = Some d' ∧ audit_events d' = audit_events d ++ tail ∧
      rows_of db' k = rows_of db k ++ tail ∧
      (trail_chained (audit_events d) → trail_chained (audit_events d')).

#[local] Instance grows_preorder : PreOrder grows.
Proof.
  split.
  - intros db Hok. split; [done|]. intros k d Hd. exists d, []. by rewrite !app_nil_r.
  - intros x y z Hxy Hyz Hok. destruct (Hxy Hok) as [Hy Gxy]. destruct (Hyz Hy) as [Hz Gyz].
    split; [done|]. intros k d Hd. destruct (Gxy _ _ Hd) as (d1 & t1 & Hd1 & E1 & R1 & C1).
    destruct (Gyz _ _ Hd1) as (d2 & t2 & Hd2 & E2 & R2 & C2). exists d2, (t1 ++ t2).
    split_and!; [done| |by rewrite R2, R1, (assoc_L (++))|auto].
    by rewrite E2, E1, (assoc_L (++)).
Qed.

Lemma written_grows q i k c w r db :
  idempotency db !! command_key i k c = None → produces q i c db w r → grows db (written i k c w r db).
Proof.
  intros _ Hp Hok. split; [by eapply written_ok|]. intros k' d Hd.
  destruct (produces_shape q i c db w r (store_keyed _ Hok) Hp) as (before & e & He & Hes & Hold).
  rewrite rows_of_written, Hes. cbn.
  destruct (decide ((tenant_name i, Document.decision_id (rows_document w)) = k')) as [<-|Hne].
  - rewrite Hd in Hold. destruct Hold as (-> & Hpr & _). rewrite lookup_insert_eq.
    exists (rows_document w), [e]. split_and!; [done..|]. intros Hc. rewrite He.
    by apply trail_chained_snoc.
  - rewrite lookup_insert_ne by done. exists d, []. by rewrite !app_nil_r.
Qed.

(** History is append-only and the audit table follows it: whatever requests are served from
    an empty database, every stored document lies under its own identifier and its rows of the
    audit table are the last events of its trail; and whatever requests follow, its trail only
    grows, by exactly the rows inserted, and stays a hash chain if it was one. *)
Theorem history_append_only xs ys a k d :
  database a = empty_database →
  decisions (database (run_requests a xs)) !! k = Some d →
  Document.decision_id d = k.2 ∧
  (∃ n, n ≤ length (audit_events d) ∧
     rows_of (database (run_requests a xs)) k = drop n (audit_events d)) ∧
  ∃ d' tail, decisions (database (run_requests (run_requests a xs) ys)) !! k = Some d' ∧
    audit_events d' = audit_events d ++ tail ∧
    rows_of (database (run_requests (run_requests a xs) ys)) k =
      rows_of (database (run_requests a xs)) k ++ tail ∧
    (trail_chained (audit_events d) → trail_chained (audit_events d')).
Proof.
  intros Ha Hd. assert (store_ok (database (run_requests a xs))) as Hok
    by (apply run_requests_ok; rewrite Ha; apply empty_ok).
  destruct k as [t id]. split; [by apply (store_keyed _ Hok t)|].
  split; [by apply (store_rows _ Hok)|].
  destruct (run_requests_ind grows written_grows ys (run_requests a xs) Hok) as [_ Hg].
  by apply Hg.
Qed.

(** ** Approval through the API *)

(** C21: an approval through the API is the caller's own: when a request to approve a case answers
    for the first time, the caller holds DECISION_APPROVE, is human, acts as APPROVER, and
    neither created nor validated the case, which was in REVIEW with a passing outcome and is
    stored as APPROVED; and every mandatory requirement has an approval for exactly the action
    the case carries, by the caller where it asks for an APPROVER, bound to its digest. *)
Theorem approval_through_api q i k id a r a' :
  run q i (Some k) (Transition id "APPROVED") a = (Ok r, a') →
  idempotency (database a) !! command_key i k (Transition id "APPROVED") = None →
  ∃ d d', decisions (database a) !! (tenant_name i, id) = Some d ∧
    decisions (database a') !! (tenant_name i, Document.decision_id d) = Some d' ∧
    status d = "REVIEW" ∧ status d' = "APPROVED" ∧ decision_outcome d = Some "PASS" ∧
    permits i DECISION_APPROVE = true ∧ identity_kind i = HUMAN ∧
    actor_role (_actor i DECISION_APPROVE) = "APPROVER" ∧
    identity_actor i ≠ actor_id (created_by d) ∧
    (∀ e, e ∈ audit_events d → to_status e = "VALIDATION" → identity_actor i ≠ actor_id (event_actor e)) ∧
    (∀ rq, rq ∈ review_requirements d → mandatory rq = true →
       ∃ x, x ∈ approvals d' ∧ requirement_ref x = requirement_id rq ∧ decision x = "APPROVE" ∧
         actor_kind (approver x) = "HUMAN" ∧ actor_role (approver x) = required_role rq ∧
         (required_role rq = "APPROVER" → actor_id (approver x) = identity_actor i) ∧
         action_digest x = expected_action_digest d ∧ digest_of_approval x = approval_digest d x).
Proof.
  intros E Hn. apply run_spec in E as (k' & [= <-] & [[Hk _]|(_ & w & Hp & Hdb)]); [congruence|].
  destruct Hp as (d & d' & Hd & Hperm & _ & Ht & -> & _). cbn in Ht.
  pose proof Ht as (s & dest & Hs & Hdest & Hchk & Hpm & -> & _)%transition_inv.
  assert (dest = APPROVED) as -> by (by apply status_value_inj; rewrite <-Hdest).
  destruct (prepared_shape q i "APPROVED" d) as (f & aps & E & Hown & Hf).
  assert (transition_permission "APPROVED" d = DECISION_APPROVE) as Hp by done. rewrite Hp in *.
  rewrite E in *. destruct Hpm as (Hal & _ & Hma & _).
  specialize (Hma eq_refl) as (Hkind & Hcr & Hval & Hout & _ & _ & _ & Hreq).
  assert (semantically_valid (set_reviews d (map f (review_requirements d)) (approvals d ++ aps)))
    as Hsem by (by apply check_document_valid in Hchk as [_ ?]).
  exists d, (rows_document (mkRows (tag_new q i (length (audit_events d)) (record_transition
    (set_reviews d (map f (review_requirements d)) (approvals d ++ aps)) s APPROVED
    (_actor i DECISION_APPROVE) (isoformat (clock q 1)))) None [])).
  assert (s = REVIEW ∧ actor_role (_actor i DECISION_APPROVE) = "APPROVER") as [-> Hrole].
  { destruct s; try discriminate Hal. apply (inj Some) in Hal. done. }
  rewrite Hdb. split_and!; try done; [cbn; by rewrite lookup_insert_eq|auto| |].
  { unfold _actor in Hkind. cbn in Hkind. by destruct (identity_kind i). }
  intros rq Hrq Hm. destruct (Hf rq) as (Hf1 & Hf2 & Hf3).
  destruct (Hreq (f rq)) as (x & Hx & Hc); [by apply (list_elem_of_fmap_2 f)|congruence|].
  exists x. split; [exact Hx|]. destruct (valid_approval _ _ Hsem Hx) as (_ & _ & _ & _ & Hd1 & Hd2).
  destruct Hc as (Hc1 & Hc2 & Hc3 & Hc4 & Hc5). rewrite Hf1 in Hc1. rewrite Hf3 in Hc4, Hc5. done.
Qed.

(** ** Tenants *)

(** Two databases a tenant cannot tell apart. *)
Record same_view (t : string) (db db' : Database) : Prop := {
  view_decisions : ∀ id, decisions db !! (t, id) = decisions db' !! (t, id);
  view_reports : ∀ id, reports db !! (t, id) = reports db' !! (t, id);
  view_rows : filter (λ r, r.1.1 = t) (audit_rows db) = filter (λ r, r.1.1 = t) (audit_rows db');
  view_answers : ∀ x op k, idempotency db !! (t, x, op, k) = idempotency db' !! (t, x, op, k)
}.

Definition indistinct (t : string) (a a' : App) : Prop :=
  same_view t (database a) (database a') ∧ length (security_log a) = length (security_log a').

(** The computation answers the same and keeps the two apart from nobody of the tenant. *)
Definition respects {A} (t : string) (m : stateful App A) : Prop :=
  ∀ a a', indistinct t a a' → (m a).1 = (m a').1 ∧ indistinct t (m a).2 (m a').2.

Lemma respects_bind {A B} t (m : stateful App A) (f : A → stateful App B) :
  respects t m → (∀ x, respects t (f x)) → respects t (m ≫= f).
Proof.
  intros Hm Hf a a' Ha. unfold mbind, stateful_bind. destruct (Hm a a' Ha) as [E Hs].
  destruct (m a) as [r s], (m a') as [r' s']. cbn in *. subst r'. destruct r; [by apply Hf|done].
Qed.

Lemma respects_const {A} t (r : result A) : respects t (λ a, (r, a)).
Proof. by intros a a' Ha. Qed.

Lemma respects_record t q ty d rs i p : respects t (_record q ty d rs i p).
Proof.
  intros a a' [Hv Hl]. unfold _record. rewrite <-Hl. destruct (create _ _ _ _ _ _ _ _ _ _); cbn; [|done].
  split; [done|]. split; [done|]. cbn. by rewrite !length_app, Hl.
Qed.

Lemma respects_permission t q i p : respects t (require_permission q i p).
Proof.
  unfold require_permission. destruct (permits i p); [apply respects_record|].
  apply respects_bind; [apply respects_record|intros _; apply respects_const].
Qed.

Lemma respects_target t q i target : respects t (require_target q i target).
Proof.
  unfold require_target, require_one_of. repeat case_match; try apply respects_permission;
    try apply respects_record.
  apply respects_bind; [apply respects_record|intros _; apply respects_const].
Qed.

Lemma respects_operation i key op p : respects (tenant_name i) (_operation i key op p).
Proof.
  intros a a' Ha. pose proof Ha as [Hv _]. unfold _operation, get_idempotency.
  rewrite (view_answers _ _ _ Hv). destruct (idempotency _ !! _) as [[h r]|]; [|done].
  by destruct (h =? _).
Qed.

Lemma respects_find i id : respects (tenant_name i) (find_document i id).
Proof.
  intros a a' Ha. pose proof Ha as [Hv _]. unfold find_document. rewrite (view_decisions _ _ _ Hv).
  by destruct (decisions _ !! _).
Qed.

(** Transactions on two databases the tenant cannot tell apart. *)
Definition agree (t : string) (m m' : result Database) : Prop :=
  match m, m' with
  | Ok db, Ok db' => same_view t db db'
  | Raise e, Raise e' => e = e'
  | _, _ => False
  end.

Lemma agree_bind t m m' f f' :
  agree t m m' → (∀ db db', same_view t db db' → agree t (f db) (f' db')) →
  agree t (m ≫= f) (m' ≫= f').
Proof. unfold agree at 1. destruct m, m'; cbn; naive_solver. Qed.

Lemma agree_require t b c msg m m' :
  (b = true → agree t m m') → agree t (_ ← require b c msg; m) (_ ← require b c msg; m').
Proof. destruct b; cbn; auto. Qed.

Lemma respects_transact t f :
  (∀ db db', same_view t db db' → agree t (f db) (f db')) → respects t (transact f).
Proof.
  intros Hf a a' [Hv Hl]. unfold transact. specialize (Hf _ _ Hv). unfold agree in Hf.
  destruct (f (database a)), (f (database a')); cbn; try done; by subst.
Qed.

Lemma existsb_filter {A} (f : A → bool) (P : A → Prop) `{∀ x, Decision (P x)} l :
  (∀ x, f x = true → P x) → existsb f l = existsb f (filter P l).
Proof.
  intros HfP. induction l as [|x l IH]; [done|]. rewrite filter_cons. cbn [existsb]. rewrite IH.
  case_decide as Hx; [done|]. destruct (f x) eqn:E; [by apply HfP in E|done].
Qed.

Lemma agree_insert t id es db db' :
  same_view t db db' → agree t (insert_events (t, id) es db) (insert_events (t, id) es db').
Proof.
  revert db db'. induction es as [|e es IH]; intros db db' Hv; [done|]. cbn [insert_events].
  apply agree_bind; [|apply IH]. unfold _insert_audit.
  rewrite (existsb_filter _ (λ r, r.1.1 = t) (audit_rows db)),
    (existsb_filter _ (λ r, r.1.1 = t) (audit_rows db')), (view_rows _ _ _ Hv);
    [|intros [k x]; bool_prop; cbn; naive_solver..].
  apply agree_require. intros _. destruct Hv as [H1 H2 H3 H4].
  split; cbn; [done..| |done]. by rewrite !filter_app, H3.
Qed.

Lemma agree_idempotency t w db db' :
  same_view t db db' → agree t (_insert_idempotency t w db) (_insert_idempotency t w db').
Proof.
  intros [H1 H2 H3 H4]. unfold _insert_idempotency, write_key.
  rewrite H4. apply agree_require. intros _. split; cbn; [done..|]. intros x op k.
  destruct (decide ((t, w_actor w, w_operation w, w_key w) = (t, x, op, k))) as [E|Hne].
  - by rewrite E, !lookup_insert_eq.
  - by rewrite !lookup_insert_ne.
Qed.

Lemma same_view_decision t id d db db' :
  same_view t db db' → same_view t (set_decision (t, id) d db) (set_decision (t, id) d db').
Proof.
  intros [H1 H2 H3 H4]. split; cbn; try done. intros id'.
  destruct (decide (id = id')) as [->|]; [by rewrite !lookup_insert_eq|].
  by rewrite !lookup_insert_ne by congruence.
Qed.

Lemma same_view_report t id r db db' :
  same_view t db db' → same_view t (set_report (t, id) r db) (set_report (t, id) r db').
Proof.
  intros [H1 H2 H3 H4]. split; cbn; try done. intros id'.
  destruct (decide (id = id')) as [->|]; [by rewrite !lookup_insert_eq|].
  by rewrite !lookup_insert_ne by congruence.
Qed.

Lemma respects_create t d es w : respects t (transact (db_create_decision t d es w)).
Proof.
  apply respects_transact. intros db db' Hv. unfold db_create_decision.
  rewrite (view_decisions _ _ _ Hv). apply agree_require. intros _.
  apply agree_bind; [by apply agree_insert, same_view_decision|by apply agree_idempotency].
Qed.

Lemma respects_save t d rep es w : respects t (transact (save_result t d rep es w)).
Proof.
  apply respects_transact. intros db db' Hv. unfold save_result.
  rewrite (view_decisions _ _ _ Hv). apply agree_require. intros _.
  apply agree_bind; [|by apply agree_idempotency]. apply agree_insert.
  destruct rep; [apply same_view_report|]; by apply same_view_decision.
Qed.

Lemma respects_integrity t m : respects t m → respects t (integrity_conflict m).
Proof.
  intros Hm a a' Ha. unfold integrity_conflict. destruct (Hm a a' Ha) as [E Hs].
  destruct (m a) as [r s], (m a') as [r' s']. cbn in *. subst r'. destruct r; [done|].
  by case_bool_decide.
Qed.

Lemma run_respects q i key c : respects (tenant_name i) (run q i key c).
Proof.
  destruct c; cbn.
  - apply respects_bind; [apply respects_permission|intros _].
    apply respects_bind; [apply respects_const|intros k].
    apply respects_bind; [apply respects_operation|intros [digest [r|]]]; [apply respects_const|].
    do 3 (apply respects_bind; [apply respects_const|intros ?]).
    apply respects_bind; [apply respects_integrity, respects_create|intros _; apply respects_const].
  - apply respects_bind; [apply respects_permission|intros _].
    apply respects_bind; [apply respects_const|intros k].
    apply respects_bind; [apply respects_operation|intros [digest [r|]]]; [apply respects_const|].
    apply respects_bind; [apply respects_find|intros d].
    apply respects_bind; [apply respects_const|intros [d' r]].
    apply respects_bind; [apply respects_save|intros _; apply respects_const].
  - apply respects_bind; [apply respects_const|intros k].
    apply respects_bind; [apply respects_target|intros _].
    apply respects_bind; [apply respects_find|intros d].
    apply respects_bind; [destruct (_ =? _); [apply respects_permission|apply respects_const]|intros _].
    apply respects_bind; [apply respects_operation|intros [digest [r|]]]; [apply respects_const|].
    apply respects_bind; [apply respects_const|intros d'].
    apply respects_bind; [apply respects_save|intros _; apply respects_const].
Qed.

Lemma written_other t i k c w r db : tenant_name i ≠ t → same_view t db (written i k c w r db).
Proof.
  intros Hne. split; cbn.
  - intros id. rewrite lookup_insert_ne by congruence. done.
  - intros id. destruct (rows_report w); [|done]. by rewrite lookup_insert_ne by congruence.
  - rewrite filter_app. assert (filter (λ r : row_key * AuditEvent, r.1.1 = t)
      (((tenant_name i, Document.decision_id (rows_document w)),.) <$> rows_events w) = []) as ->;
      [|by rewrite app_nil_r].
    induction (rows_events w) as [|e l IH]; [done|].
    rewrite fmap_cons, filter_cons. cbn [fst]. by rewrite decide_False.
  - intros x op k'. unfold command_key. rewrite lookup_insert_ne by congruence. done.
Qed.

(** C23: tenants do not interfere: the answer to a request depends only on the rows of the
    caller's tenant, on databases it cannot tell apart the request leaves databases it cannot
    tell apart, and no request changes what another tenant can see. *)
Theorem tenants_do_not_interfere q i key c a a' t :
  same_view (tenant_name i) (database a) (database a') →
  length (security_log a) = length (security_log a') →
  (run q i key c a).1 = (run q i key c a').1 ∧
  same_view (tenant_name i) (database (run q i key c a).2) (database (run q i key c a').2) ∧
  (t ≠ tenant_name i → same_view t (database a) (database (run q i key c a).2)).
Proof.
  intros Hv Hl. destruct (run_respects q i key c a a' (conj Hv Hl)) as [E [Hs _]].
  split_and!; [done..|]. intros Hne.
  destruct (run_request_cases a q i key c) as [E'|(k & w & r & _ & _ & E')]; cbn in E'; rewrite E'.
  - by split.
  - by apply written_other.
Qed.
End routes.

(** ** Witnesses and concrete runs *)

Definition an_instant : datetime := DateTime 2026 1 2 12 0 0 0 (Some 0%Z).
Definition a_request : Request :=
  mkRequest "corr" (λ _, an_instant) (λ _, an_instant) pretty pretty "0.2.0".

Definition alice_identity : Identity := mkIdentity "alice" sample_tenant GENERATOR AGENT None [] {[GENERATOR]} None [].
Definition bob_identity : Identity := mkIdentity "bob" sample_tenant APPROVER HUMAN None [] {[APPROVER]} None [].
Definition vera_identity : Identity := mkIdentity "vera" sample_tenant VALIDATOR SERVICE None [] {[VALIDATOR]} None [].

Definition serve (i : Identity) (key : string) (c : command) : App → result Response * App :=
  run (H := constant_alg) (H0 := accept_all) a_request i (Some key) c.

Definition empty_app : App := mkApp empty_database [].
Definition app_with (d : Document) : App :=
  mkApp (mkDatabase {[("t1", "d1") := d]} ∅ [] ∅) [].

(** A case in REVIEW that nobody has approved yet. *)
Definition unapproved_case : Document :=
  sample_case "REVIEW" [clean_evidence] [] (Some "PASS") [validation_event].

(** A run that answers, as an equation. *)
Lemma serve_Ok i key c a :
  is_ok (serve i key c a).1 = true → ∃ r, serve i key c a = (Ok r, (serve i key c a).2).
Proof. destruct (serve i key c a) as [[r|e] a']; [by exists r|done]. Qed.

Lemma requests_exactly_once_witness :
  ∃ r, (serve alice_identity "k" (Create draft_case) empty_app).1 = Ok r ∧
    ∀ r2 a2, serve alice_identity "k" (Create draft_case)
        (serve alice_identity "k" (Create draft_case) empty_app).2 = (Ok r2, a2) → r2 = r.
Proof.
  destruct (serve_Ok alice_identity "k" (Create draft_case) empty_app) as [r E]; [vm_compute; reflexivity|].
  exists r. split; [by rewrite E|]. intros r2 a2 E2.
  destruct (requests_exactly_once (H := constant_alg) (H0 := accept_all) a_request alice_identity
    (Some "k") (Create draft_case) empty_app) as [_ Hs].
  apply (Hs r _ E [] a_request (Create draft_case) r2 a2); [reflexivity|exact E2].
Defined.

Lemma history_append_only_witness :
  let xs := [(a_request, alice_identity, Some "k", Create draft_case)] in
  let ys := [(a_request, vera_identity, Some "k", Evaluate "d1")] in
  let final := run_requests (H := constant_alg) (H0 := accept_all)
                 (run_requests (H := constant_alg) (H0 := accept_all) empty_app xs) ys in
  ∃ d', decisions (database final) !! ("t1", "d1") = Some d' ∧ length (audit_events d') = 2.
Proof.
  cbv zeta.
  destruct (decisions (database (run_requests (H := constant_alg) (H0 := accept_all) empty_app
    [(a_request, alice_identity, Some "k", Create draft_case)])) !! ("t1", "d1")) as [d|] eqn:Ed;
    [|vm_compute in Ed; discriminate Ed].
  destruct (history_append_only (H := constant_alg) (H0 := accept_all)
    [(a_request, alice_identity, Some "k", Create draft_case)]
    [(a_request, vera_identity, Some "k", Evaluate "d1")] empty_app ("t1", "d1") d eq_refl Ed)
    as (_ & _ & d' & tail & Hd' & _).
  exists d'. split; [exact Hd'|].
  assert (length ∘ audit_events <$> decisions (database (run_requests (H := constant_alg)
    (H0 := accept_all) (run_requests (H := constant_alg) (H0 := accept_all) empty_app
    [(a_request, alice_identity, Some "k", Create draft_case)])
    [(a_request, vera_identity, Some "k", Evaluate "d1")])) !! ("t1", "d1") = Some 2) as Hl
    by (vm_compute; reflexivity).
  rewrite Hd' in Hl. by injection Hl as Hl.
Defined.

Lemma approval_through_api_witness :
  ∃ r, (serve bob_identity "k" (Transition "d1" "APPROVED") (app_with unapproved_case)).1 = Ok r ∧
    ∃ d', decisions (database (serve bob_identity "k" (Transition "d1" "APPROVED")
            (app_with unapproved_case)).2) !! ("t1", "d1") = Some d' ∧ status d' = "APPROVED".
Proof.
  destruct (serve_Ok bob_identity "k" (Transition "d1" "APPROVED") (app_with unapproved_case)) as [r E];
    [vm_compute; reflexivity|].
  exists r. split; [by rewrite E|].
  destruct (approval_through_api (H := constant_alg) (H0 := accept_all) a_request bob_identity "k" "d1"
    (app_with unapproved_case) r _ E) as (d & d' & Hd & Hd' & _ & Hs & _); [vm_compute; reflexivity|].
  exists d'. split; [|exact Hs]. rewrite <-Hd'.
  assert (d = unapproved_case) as -> by (apply (inj Some); rewrite <-Hd; vm_compute; reflexivity).
  reflexivity.
Defined.

Lemma tenants_do_not_interfere_witness :
  let other := mkDatabase {[("t2", "d1") := draft_case]} ∅ [] ∅ in
  (serve alice_identity "k" (Create draft_case) empty_app).1 =
  (serve alice_identity "k" (Create draft_case) (mkApp other [])).1.
Proof.
  cbv zeta. refine (proj1 (tenants_do_not_interfere (H := constant_alg) (H0 := accept_all) a_request
    alice_identity (Some "k") (Create draft_case) empty_app
    (mkApp (mkDatabase {[("t2", "d1") := draft_case]} ∅ [] ∅) []) "t1" _ _)); [|reflexivity].
  split; cbn; [|reflexivity..]. intros id. rewrite lookup_empty, lookup_singleton_ne; [reflexivity|].
  intros E. discriminate E.
Defined.

(** The idempotency key of a request that blocks a case in REVIEW does not survive it: the
    approver who blocked the case is FORBIDDEN when repeating the request, because the
    permission is chosen by the status the case has by then. *)
Definition blockable_case : Document :=
  sample_case "REVIEW" [clean_evidence] [] (Some "BLOCK") [validation_event].

Lemma blocking_replay_forbidden :
  let first := serve bob_identity "k" (Transition "d1" "BLOCKED") (app_with blockable_case) in
  status_code <$> first.1 = Ok 200%Z ∧
  status_code <$> (serve bob_identity "k" (Transition "d1" "BLOCKED") first.2).1 =
    forbidden "AUTH_ROLE_REQUIRED".
Proof. vm_compute. split; reflexivity. Qed.

(** A case can be created as APPROVED: the request checks the file, not the way it got there, and
    appends an event that moves it to DRAFT and starts the trail anew. *)
Lemma created_as_approved :
  let d := sample_case "APPROVED" [clean_evidence] [sample_approval] (Some "PASS") [validation_event] in
  let done := serve alice_identity "k" (Create d) empty_app in
  status_code <$> done.1 = Ok 201%Z ∧
  status <$> decisions (database done.2) !! ("t1", "d1") = Some "APPROVED" ∧
  (λ d, map to_status (audit_events d)) <$> decisions (database done.2) !! ("t1", "d1") =
    Some ["VALIDATION"; "DRAFT"] ∧
  (λ d, map previous_event_hash (audit_events d)) <$> decisions (database done.2) !! ("t1", "d1") =
    Some [None; None].
Proof. vm_compute. split_and!; reflexivity. Qed.
