(* ===== verification/Jobs.v ===== *)
(** * The research job queue

    [production/contracts.py] (JobStatus, JobPolicy, ResearchJob), [jobs/lifecycle.py],
    [jobs/postgresql.py] and [jobs/worker.py]. The tables the repository works on are maps, a
    [timestamptz] is an integer of microseconds, and an operation is a function from the
    tables to its result and the tables it commits; an exception rolls the transaction back. The
    time, the fresh lease token and the worker's processor are arguments. *)

From S2P Require Import Prelude PyVal Json Sha256 Identity.
From stdpp Require Import options.
Local Open Scope Z_scope.

(** ** [production/contracts.py] *)

Inductive JobStatus :=
  | QUEUED | RUNNING | RETRY_WAIT | COMPLETED | PARTIAL | FAILED | CANCELLED | DEAD_LETTER.

#[export] Instance JobStatus_eq_dec : EqDecision JobStatus.
Proof. solve_decision. Defined.

Definition job_status_value (s : JobStatus) : string :=
  match s with
  | QUEUED => "QUEUED" | RUNNING => "RUNNING" | RETRY_WAIT => "RETRY_WAIT"
  | COMPLETED => "COMPLETED" | PARTIAL => "PARTIAL" | FAILED => "FAILED"
  | CANCELLED => "CANCELLED" | DEAD_LETTER => "DEAD_LETTER"
  end.

Record JobPolicy := mkPolicy {
  max_attempts : Z; lease_seconds : Z; base_backoff_seconds : Z; maximum_backoff_seconds : Z
}.

(** [JobPolicy.__post_init__] *)
Definition job_policy (p : JobPolicy) : result JobPolicy :=
  _ ← require ((1 <=? max_attempts p) && (max_attempts p <=? 20)) ValueError "INVALID_JOB_ATTEMPT_LIMIT";
  _ ← require ((5 <=? lease_seconds p) && (lease_seconds p <=? 3600)) ValueError "INVALID_JOB_LEASE";
  _ ← require ((1 <=? base_backoff_seconds p) &&
               (base_backoff_seconds p <=? maximum_backoff_seconds p) &&
               (maximum_backoff_seconds p <=? 86400)) ValueError "INVALID_JOB_BACKOFF";
  Ok p.

Definition default_policy : JobPolicy := mkPolicy 5 60 5 300.

Record ResearchJob := mkJob {
  job_id : string; job_tenant : string; research_run_id : string; correlation_id : string;
  payload_digest : string; job_status : JobStatus; attempt_count : Z;
  available_at : Z; created_at : Z; updated_at : Z;
  lease_token_hash : option string; lease_expires_at : option Z;
  last_error_code : option string
}.

(** The characters of [_ID], the pattern [^[A-Za-z0-9][A-Za-z0-9._:-]{0,255}$]. *)
Definition id_matches (s : string) : bool :=
  match s with
  | String c rest =>
      is_alnum c &&
      forallb (λ c, is_tenant_char c || Ascii.eqb c ":") (String.list_ascii_of_string rest) &&
      (String.length rest <=? 255)%nat
  | EmptyString => false
  end.

(** [ResearchJob.__post_init__] *)
Definition research_job (j : ResearchJob) : result ResearchJob :=
  _ ← require (forallb id_matches [job_id j; job_tenant j; research_run_id j; correlation_id j])
        ValueError "INVALID_JOB_IDENTITY";
  _ ← require (str_startswith "sha256:" (payload_digest j) && Nat.eqb (str_len (payload_digest j)) 71)
        ValueError "INVALID_JOB_PAYLOAD_HASH";
  _ ← require (0 <=? attempt_count j) ValueError "INVALID_JOB_ATTEMPT_COUNT";
  _ ← require (bool_decide (lease_token_hash j = None ↔ lease_expires_at j = None))
        ValueError "INCOMPLETE_JOB_LEASE";
  Ok j.

(** ** [jobs/lifecycle.py] *)

Definition _ALLOWED (s : JobStatus) : list JobStatus :=
  match s with
  | QUEUED => [RUNNING; CANCELLED]
  | RETRY_WAIT => [RUNNING; CANCELLED]
  | RUNNING => [COMPLETED; PARTIAL; RETRY_WAIT; FAILED; CANCELLED; DEAD_LETTER]
  | COMPLETED => [QUEUED]
  | PARTIAL => [QUEUED]
  | FAILED => [QUEUED]
  | DEAD_LETTER => [QUEUED]
  | CANCELLED => []
  end.

(** [lifecycle.transition] *)
Definition job_transition (source target : JobStatus) : result JobStatus :=
  _ ← require (bool_decide (target ∈ _ALLOWED source)) InvalidJobTransition
        ("INVALID_JOB_TRANSITION:" +:+ job_status_value source +:+ ":" +:+ job_status_value target);
  Ok target.

Definition retry_delay (policy : JobPolicy) (attempts : Z) : result Z :=
  _ ← require (negb (attempts <? 1)) ValueError "INVALID_JOB_ATTEMPT_COUNT";
  let exponent := Z.min (attempts - 1) 30 in
  Ok (Z.min (maximum_backoff_seconds policy) (base_backoff_seconds policy * Z.shiftl 1 exponent)).

(** ** The tables *)

Notation key := (string * string)%type.

Record JobEvent := mkJobEvent {
  event_key : key; event_sequence : Z; event_type : string; event_time : Z;
  event_worker : option string; event_reason : option string
}.

Record Tables := mkTables {
  jobs : gmap key ResearchJob;
  job_events : list JobEvent;
  runtime_limits : gmap string Z
}.

Definition set_jobs (t : Tables) (m : gmap key ResearchJob) : Tables :=
  mkTables m (job_events t) (runtime_limits t).

Definition job_key (j : ResearchJob) : key := (job_tenant j, job_id j).

(** One microsecond clock for all columns. *)
Definition seconds (n : Z) : Z := n * 1000000.

(** [_append_event]: the next sequence number of the job. *)
Definition next_sequence (t : Tables) (k : key) : Z :=
  1 + foldr Z.max 0 (map event_sequence (filter (λ e, event_key e = k) (job_events t))).
Definition _append_event (t : Tables) (j : ResearchJob) (type : string) (now : Z)
    (worker reason : option string) : Tables :=
  let k := job_key j in
  mkTables (jobs t) (job_events t ++ [mkJobEvent k (next_sequence t k) type now worker reason])
    (runtime_limits t).

(** The row of a run, [WHERE tenant_id = %s AND research_run_id = %s]. *)
Definition job_of_run (t : Tables) (tenant run : string) : option ResearchJob :=
  snd <$> List.find (λ kv, (job_tenant kv.2 =? tenant)%string && (research_run_id kv.2 =? run)%string)
            (map_to_list (jobs t)).

(** [INSERT ... ON CONFLICT (tenant_id, research_run_id) DO NOTHING] *)
Definition insert_job (t : Tables) (j : ResearchJob) : result (bool * Tables) :=
  match job_of_run t (job_tenant j) (research_run_id j) with
  | Some _ => Ok (false, t)
  | None =>
      _ ← require (bool_decide (jobs t !! job_key j = None)) IntegrityError "research_jobs_pkey";
      Ok (true, set_jobs t (<[job_key j := j]> (jobs t)))
  end.

(** [UPDATE ... WHERE tenant_id = %s AND job_id = %s] of the columns [f] sets. *)
Definition update_job (t : Tables) (k : key) (j : ResearchJob) : Tables :=
  set_jobs t (<[k := j]> (jobs t)).

Definition with_status (j : ResearchJob) (s : JobStatus) (attempts available now : Z)
    (correlation : string) (lease : option string) (expires : option Z) (err : option string) :
    ResearchJob :=
  mkJob (job_id j) (job_tenant j) (research_run_id j) correlation (payload_digest j) s attempts
    available (created_at j) now lease expires err.

(** A job that leaves RUNNING or its queue, without a lease. *)
Definition released (j : ResearchJob) (s : JobStatus) (available now : Z) (err : option string) :
    ResearchJob :=
  with_status j s (attempt_count j) available now (correlation_id j) None None err.

Section repository.
Context `{HashAlg} (policy : JobPolicy).

Definition _lease_hash (token : string) : string := "sha256:" +:+ hexdigest token.

(** The lease is the caller's and has not expired. *)
Definition holds_lease (j : ResearchJob) (token : string) (now : Z) : bool :=
  bool_decide (job_status j = RUNNING) &&
  bool_decide (lease_token_hash j = Some (_lease_hash token)) &&
  match lease_expires_at j with Some e => now <? e | None => false end.

Definition enqueue (tenant : string) (job : ResearchJob) (t : Tables) :
    result (ResearchJob * Tables) :=
  _ ← require ((tenant =? job_tenant job)%string && bool_decide (job_status job = QUEUED))
        ValueError "INVALID_JOB_ENQUEUE";
  '(inserted, t) ← insert_job t job;
  existing ← or_raise (job_of_run t tenant (research_run_id job)) RuntimeError
               "JOB_ENQUEUE_CONVERGENCE_FAILED";
  _ ← require (payload_digest existing =? payload_digest job)%string JobConflict "JOB_PAYLOAD_CONFLICT";
  Ok (existing,
      if (inserted : bool) then _append_event t existing "JOB_QUEUED" (updated_at job) None None
      else t).

Definition requeue (tenant id correlation : string) (now : Z) (t : Tables) :
    result (ResearchJob * Tables) :=
  row ← or_raise (jobs t !! (tenant, id)) KeyError "JOB_NOT_FOUND";
  _ ← require (bool_decide (job_status row ∈ [COMPLETED; PARTIAL; FAILED; DEAD_LETTER]))
        ValueError "JOB_NOT_RETRYABLE";
  let job := with_status row QUEUED 0 now now correlation None None None in
  Ok (job, _append_event (update_job t (tenant, id) job) job "JOB_REQUEUED" now None None).

(** *** Claiming *)

Definition running_count (t : Tables) (tenant : string) : Z :=
  Z.of_nat (length (filter (λ kv : key * ResearchJob,
    job_tenant kv.2 = tenant ∧ job_status kv.2 = RUNNING) (map_to_list (jobs t)))).

Definition concurrency_limit (t : Tables) (tenant : string) : Z :=
  default 2 (runtime_limits t !! tenant).

Definition claimable (t : Tables) (now : Z) (j : ResearchJob) : bool :=
  bool_decide (job_status j ∈ [QUEUED; RETRY_WAIT]) && (available_at j <=? now) &&
  (running_count t (job_tenant j) <? concurrency_limit t (job_tenant j)).

(** [ORDER BY job.available_at, job.created_at, job.tenant_id, job.job_id] *)
Definition claim_leb (x y : ResearchJob) : bool :=
  (available_at x <? available_at y) ||
  (available_at x =? available_at y) &&
  ((created_at x <? created_at y) ||
   (created_at x =? created_at y) &&
   (negb (job_tenant x =? job_tenant y)%string && String.leb (job_tenant x) (job_tenant y) ||
    (job_tenant x =? job_tenant y)%string && String.leb (job_id x) (job_id y))).

Definition candidates (t : Tables) (now : Z) : list (key * ResearchJob) :=
  filter (λ kv, claimable t now kv.2 = true) (map_to_list (jobs t)).

Definition claimed (j : ResearchJob) (token : string) (now : Z) : ResearchJob :=
  with_status j RUNNING (attempt_count j + 1) (available_at j) now (correlation_id j)
    (Some (_lease_hash token)) (Some (now + seconds (lease_seconds policy))) (last_error_code j).

Definition claim (worker_id token : string) (now : Z) (t : Tables) :
    result (option (ResearchJob * string) * Tables) :=
  _ ← require (negb (str_blank worker_id)) ValueError "INVALID_WORKER_ID";
  match py_sorted (λ x y, claim_leb x.2 y.2) (candidates t now) with
  | [] => Ok (None, t)
  | (k, row) :: _ =>
      let job := claimed row token now in
      Ok (Some (job, token),
          _append_event (update_job t k job) job "JOB_CLAIMED" now (Some worker_id) None)
  end.

(** *** Operations of the lease holder *)

(** The row a lease holder updates. *)
Definition leased_row (t : Tables) (tenant id token : string) (now : Z) : result ResearchJob :=
  match jobs t !! (tenant, id) with
  | Some j => _ ← require (holds_lease j token now) LeaseRejected "INVALID_OR_EXPIRED_LEASE"; Ok j
  | None => raise LeaseRejected "INVALID_OR_EXPIRED_LEASE"
  end.

Definition heartbeat (tenant id token : string) (now : Z) (t : Tables) : result (unit * Tables) :=
  row ← leased_row t tenant id token now;
  let job := with_status row RUNNING (attempt_count row) (available_at row) now
    (correlation_id row) (lease_token_hash row) (Some (now + seconds (lease_seconds policy)))
    (last_error_code row) in
  Ok (tt, update_job t (tenant, id) job).

Definition complete (tenant id token : string) (partial : bool) (now : Z) (t : Tables) :
    result (unit * Tables) :=
  let target := if partial then PARTIAL else COMPLETED in
  row ← leased_row t tenant id token now;
  let job := released row target (available_at row) now (last_error_code row) in
  Ok (tt, _append_event (update_job t (tenant, id) job) job
            ("JOB_" +:+ job_status_value target) now None None).

(** What follows a failed attempt: the next status and its delay in seconds. *)
Definition after_failure (attempts : Z) (retryable : bool) : result (JobStatus * Z) :=
  if retryable && (attempts <? max_attempts policy) then
    delay ← retry_delay policy attempts; Ok (RETRY_WAIT, delay)
  else if retryable then Ok (DEAD_LETTER, 0)
  else Ok (FAILED, 0).

Definition fail (tenant id token reason_code : string) (retryable : bool) (now : Z) (t : Tables) :
    result (unit * Tables) :=
  _ ← require (negb ((reason_code =? "")%string || (128 <? str_len reason_code)%nat)) ValueError
        "INVALID_JOB_FAILURE_REASON";
  row ← leased_row t tenant id token now;
  '(target, delay) ← after_failure (attempt_count row) retryable;
  let job := released row target (now + seconds delay) now (Some reason_code) in
  Ok (tt, _append_event (update_job t (tenant, id) job) job
            ("JOB_" +:+ job_status_value target) now None (Some reason_code)).

(** *** Cancellation and recovery *)

Definition terminal (s : JobStatus) : bool :=
  bool_decide (s ∈ [COMPLETED; PARTIAL; FAILED; DEAD_LETTER; CANCELLED]).

Definition cancel (tenant id : string) (now : Z) (t : Tables) : result (ResearchJob * Tables) :=
  row ← or_raise (jobs t !! (tenant, id)) KeyError "JOB_NOT_FOUND";
  if terminal (job_status row) then Ok (row, t)
  else
    let job := released row CANCELLED (available_at row) now (last_error_code row) in
    Ok (job, _append_event (update_job t (tenant, id) job) job "JOB_CANCELLED" now None None).

Definition stale (now : Z) (j : ResearchJob) : bool :=
  bool_decide (job_status j = RUNNING) &&
  match lease_expires_at j with Some e => e <=? now | None => false end.

(** One iteration of the recovery loop. *)
Definition recover_one (now : Z) (t : Tables) (kv : key * ResearchJob) : result Tables :=
  '(target, delay) ← after_failure (attempt_count kv.2) true;
  let job := released kv.2 target (now + seconds delay) now (Some "STALE_LEASE_RECOVERED") in
  Ok (_append_event (update_job t kv.1 job) job "JOB_STALE_LEASE_RECOVERED" now None None).

Fixpoint recover_all (now : Z) (rows : list (key * ResearchJob)) (t : Tables) : result Tables :=
  match rows with
  | [] => Ok t
  | kv :: rows => t ← recover_one now t kv; recover_all now rows t
  end.

(** [SELECT ... ORDER BY lease_expires_at] *)
Definition stale_rows (now : Z) (t : Tables) : list (key * ResearchJob) :=
  py_sorted (λ x y, default 0 (lease_expires_at x.2) <=? default 0 (lease_expires_at y.2))
    (filter (λ kv, stale now kv.2 = true) (map_to_list (jobs t))).

Definition recover_stale (now : Z) (t : Tables) : result (Z * Tables) :=
  let rows := stale_rows now t in
  t ← recover_all now rows t;
  Ok (Z.of_nat (length rows), t).

Definition is_cancelled (tenant id : string) (t : Tables) : bool :=
  match jobs t !! (tenant, id) with
  | Some j => bool_decide (job_status j = CANCELLED)
  | None => false
  end.
End repository.

(** ** [jobs/worker.py] *)

(** How a processor ends: with its flag, or with one of the two job errors. *)
Inductive processed := Done (partial : bool) | RetryableJobError (msg : string)
  | NonRetryableJobError (msg : string).

Definition failure_reason (msg fallback : string) : string :=
  if negb (msg =? "")%string && (str_len msg <=? 128)%nat then msg else fallback.

(** [ResearchWorker.run_once]. Between its calls other workers, the heartbeat thread and the
    tenants run: [before] and [during] are what they do to the tables before the first
    cancellation check and until the processor has ended, [lease_lost] whether a heartbeat
    failed, [later] the clock's reading after processing. *)
Definition run_once `{HashAlg} (policy : JobPolicy) (worker_id token : string) (now later : Z)
    (before during : Tables → Tables) (lease_lost : bool)
    (processor : ResearchJob → processed) (t : Tables) : result (bool * Tables) :=
  '(claimed, t) ← claim policy worker_id token now t;
  match claimed with
  | None => Ok (false, t)
  | Some (job, lease) =>
      let tenant := job_tenant job in
      if bool_decide (job_status job = CANCELLED) then Ok (true, t) else
      let t := before t in
      if is_cancelled tenant (job_id job) t then Ok (true, t) else
      let outcome := processor job in
      let t := during t in
      if lease_lost || is_cancelled tenant (job_id job) t then Ok (true, t) else
      '(_, t) ← match outcome with
                | Done partial => complete tenant (job_id job) lease partial later t
                | RetryableJobError msg =>
                    fail policy tenant (job_id job) lease
                      (failure_reason msg "RETRYABLE_JOB_FAILURE") true later t
                | NonRetryableJobError msg =>
                    fail policy tenant (job_id job) lease
                      (failure_reason msg "NON_RETRYABLE_JOB_FAILURE") false later t
                end;
      Ok (true, t)
  end.
