(* ===== verification/JobProps.v ===== *)
(** * Properties of the job queue

    Bounded retries and concurrency, leases held exactly while running, every operation a
    transition of the job lifecycle, exclusive completion, fair claiming and crash recovery. *)

From S2P Require Import Prelude PyVal Json Sha256 Identity Jobs.
From stdpp Require Import options.
Local Open Scope Z_scope.

(** ** Backoff *)

Lemma retry_delay_value p n :
  1 <= n →
  retry_delay p n = Ok (Z.min (maximum_backoff_seconds p)
                          (base_backoff_seconds p * 2 ^ Z.min (n - 1) 30)).
Proof.
  intros Hn. unfold retry_delay. rewrite (proj2 (Z.ltb_ge n 1)) by done. cbn.
  rewrite Z.shiftl_1_l. done.
Qed.

(** The backoff of a valid policy is bounded and monotone: it lies between the base and the
    maximum, doubles with each attempt until the maximum, never decreases, and an attempt
    count below one is an error. *)
Theorem retry_delay_bounds p m n :
  job_policy p = Ok p → 1 <= m <= n →
  ∃ d e, retry_delay p m = Ok d ∧ retry_delay p n = Ok e ∧
    base_backoff_seconds p <= d <= maximum_backoff_seconds p ∧ d <= e ∧
    (m <= 30 → retry_delay p (m + 1) = Ok (Z.min (maximum_backoff_seconds p) (2 * d))) ∧
    retry_delay p 0 = Raise (Exn ValueError ["INVALID_JOB_ATTEMPT_COUNT"]).
Proof.
  intros Hp [Hm Hn]. unfold job_policy in Hp. apply bind_Ok in Hp as (? & _ & Hp).
  apply bind_Ok in Hp as (? & _ & Hp). apply bind_Ok in Hp as (? & Hb & _).
  apply require_Ok in Hb. rewrite !andb_true_iff, !Z.leb_le in Hb.
  rewrite !retry_delay_value by lia. do 2 eexists. split; [done|]. split; [done|].
  assert (2 ^ Z.min (m - 1) 30 <= 2 ^ Z.min (n - 1) 30) as Hle by (apply Z.pow_le_mono_r; lia).
  assert (1 <= 2 ^ Z.min (m - 1) 30) as H1
    by (change 1 with (2 ^ 0); apply Z.pow_le_mono_r; lia).
  destruct Hb as [[Hb1 Hb2] Hb3].
  assert (base_backoff_seconds p <= base_backoff_seconds p * 2 ^ Z.min (m - 1) 30) by nia.
  assert (base_backoff_seconds p * 2 ^ Z.min (m - 1) 30 <=
          base_backoff_seconds p * 2 ^ Z.min (n - 1) 30) by nia.
  split_and!; [lia|lia|lia| |done].
  intros H30. f_equal. replace (Z.min (m + 1 - 1) 30) with (Z.succ (Z.min (m - 1) 30)) by lia.
  rewrite Z.pow_succ_r by lia.
  rewrite (Z.mul_shuffle3 (base_backoff_seconds p) 2). lia.
Qed.

Lemma retry_delay_bounds_witness :
  job_policy default_policy = Ok default_policy ∧
  ∃ d e, retry_delay default_policy 2 = Ok d ∧ retry_delay default_policy 4 = Ok e ∧ d <= e.
Proof.
  split; [reflexivity|].
  destruct (retry_delay_bounds default_policy 2 4) as (d & e & Hd & He & _ & Hle & _);
    [reflexivity|lia|]. exists d, e. split; [exact Hd|split; [exact He|exact Hle]].
Defined.

(** ** Counting rows of a map *)

Section counting.
Context (P : key * ResearchJob → Prop) `{∀ x, Decision (P x)}.

Definition count (m : gmap key ResearchJob) : nat := length (filter P (map_to_list m)).

Lemma count_insert_new m k j :
  m !! k = None → count (<[k := j]> m) = ((if decide (P (k, j)) then 1 else 0) + count m)%nat.
Proof.
  intros Hk. unfold count. rewrite map_to_list_insert by done.
  rewrite filter_cons. by destruct (decide (P (k, j))).
Qed.

Lemma count_delete m k j :
  m !! k = Some j → count m = ((if decide (P (k, j)) then 1 else 0) + count (delete k m))%nat.
Proof.
  intros Hk. rewrite <-(insert_delete_id m k j) at 1 by done.
  apply count_insert_new, lookup_delete_eq.
Qed.

Lemma count_update m k j0 j :
  m !! k = Some j0 →
  (count (<[k := j]> m) + (if decide (P (k, j0)) then 1 else 0) =
   count m + (if decide (P (k, j)) then 1 else 0))%nat.
Proof.
  intros Hk. rewrite <-insert_delete_eq, count_insert_new by apply lookup_delete_eq.
  rewrite (count_delete m k j0) by done. lia.
Qed.
End counting.

(** ** What every reachable table satisfies *)

Section invariant.
Context `{HashAlg} (policy : JobPolicy).

Record row_ok (k : key) (j : ResearchJob) : Prop := {
  row_key : k = job_key j;
  row_attempts : 0 <= attempt_count j <= max_attempts policy;
  row_waiting : job_status j ∈ [QUEUED; RETRY_WAIT] → attempt_count j < max_attempts policy;
  row_running : job_status j = RUNNING → 1 <= attempt_count j;
  row_lease : job_status j = RUNNING ↔ lease_token_hash j ≠ None;
  row_expiry : lease_token_hash j = None ↔ lease_expires_at j = None
}.

Record tables_ok (t : Tables) : Prop := {
  rows_ok : ∀ k j, jobs t !! k = Some j → row_ok k j;
  running_ok : ∀ tenant, running_count t tenant <= concurrency_limit t tenant
}.

Lemma running_count_count t tenant :
  running_count t tenant = Z.of_nat (count (λ kv : key * ResearchJob,
    job_tenant kv.2 = tenant ∧ job_status kv.2 = RUNNING) (jobs t)).
Proof. done. Qed.

(** Replacing a row by one that is not running unless it was. *)
Lemma tables_ok_update t k j0 j :
  tables_ok t → jobs t !! k = Some j0 → row_ok k j → job_tenant j = job_tenant j0 →
  (job_status j = RUNNING → job_status j0 = RUNNING) →
  tables_ok (update_job t k j).
Proof.
  intros [Hr Hc] Hk Hj Ht Hs. split.
  - intros k' j' Hl. cbn in Hl. destruct (decide (k = k')) as [<-|Hne].
    + rewrite lookup_insert_eq in Hl. by simplify_eq.
    + rewrite lookup_insert_ne in Hl by done. by apply Hr.
  - intros tenant. specialize (Hc tenant). rewrite running_count_count in *.
    unfold concurrency_limit in *. cbn.
    pose proof (count_update (λ kv : key * ResearchJob,
      job_tenant kv.2 = tenant ∧ job_status kv.2 = RUNNING) (jobs t) k j0 j Hk) as Hu.
    cbn in Hu. destruct (decide (job_tenant j = tenant ∧ job_status j = RUNNING)) as [[? ?]|];
      destruct (decide (job_tenant j0 = tenant ∧ job_status j0 = RUNNING)) as [|Hn];
      try lia. exfalso. apply Hn. split; [congruence|auto].
Qed.

Lemma tables_ok_event t j type now w r :
  tables_ok t → tables_ok (_append_event t j type now w r).
Proof. intros [Hr Hc]. by split. Qed.

Lemma row_ok_released k j s available now err :
  row_ok k j → s ≠ RUNNING → (s ∈ [QUEUED; RETRY_WAIT] → attempt_count j < max_attempts policy) →
  row_ok k (released j s available now err).
Proof. intros [? ? ? ? ? ?] Hs Hw. split; cbn; try done. Qed.

Lemma after_failure_spec n retryable target delay :
  after_failure policy n retryable = Ok (target, delay) →
  target ≠ RUNNING ∧ target ≠ QUEUED ∧ (target = RETRY_WAIT → n < max_attempts policy) ∧
  target ∈ _ALLOWED RUNNING.
Proof.
  unfold after_failure. intros Ha.
  destruct retryable, (n <? max_attempts policy) eqn:E; cbn in Ha; inv_ok;
    try apply Z.ltb_lt in E; split_and!; done || set_solver.
Qed.

Lemma leased_row_Ok t tenant id token now j :
  leased_row t tenant id token now = Ok j →
  jobs t !! (tenant, id) = Some j ∧ job_status j = RUNNING ∧
  lease_token_hash j = Some (_lease_hash token) ∧
  ∃ e, lease_expires_at j = Some e ∧ now < e.
Proof.
  unfold leased_row. destruct (jobs t !! (tenant, id)) as [j'|] eqn:E; [|done].
  intros Hl. inv_ok. unfold holds_lease in *. bool_prop.
  destruct (lease_expires_at j) as [e|] eqn:Ee; [|naive_solver].
  split_and!; try naive_solver. exists e. split; [done|]. apply Z.ltb_lt. naive_solver.
Qed.

Lemma job_of_run_elem t tenant run j :
  job_of_run t tenant run = Some j →
  job_tenant j = tenant ∧ research_run_id j = run ∧ ∃ k, jobs t !! k = Some j.
Proof.
  unfold job_of_run. intros Hj. apply fmap_Some in Hj as ([k j'] & Hf & ->).
  apply List.find_some in Hf as [Hin Hp]. cbn in *.
  apply andb_true_iff in Hp as [Ht Hr]. apply String.eqb_eq in Ht, Hr.
  apply list_elem_of_In, elem_of_map_to_list in Hin. eauto.
Qed.

Lemma candidate_row t now k j :
  (k, j) ∈ candidates t now ↔ jobs t !! k = Some j ∧ claimable t now j = true.
Proof. unfold candidates. rewrite list_elem_of_filter, elem_of_map_to_list. cbn. tauto. Qed.

Lemma claim_leb_spec a b : claim_leb a b = true ↔
  available_at a < available_at b ∨
  (available_at a = available_at b ∧
   (created_at a < created_at b ∨
    (created_at a = created_at b ∧
     ((job_tenant a ≠ job_tenant b ∧ String.leb (job_tenant a) (job_tenant b) = true) ∨
      (job_tenant a = job_tenant b ∧ String.leb (job_id a) (job_id b) = true))))).
Proof.
  unfold claim_leb. autorewrite with booldec. by rewrite !Z.ltb_lt, !Z.eqb_eq.
Qed.

Lemma claim_leb_total a b : claim_leb a b = true ∨ claim_leb b a = true.
Proof.
  rewrite !claim_leb_spec.
  destruct (String.leb_total (job_tenant a) (job_tenant b)), (String.leb_total (job_id a) (job_id b)),
    (decide (job_tenant a = job_tenant b)), (Z.lt_trichotomy (available_at a) (available_at b)) as [|[|]],
    (Z.lt_trichotomy (created_at a) (created_at b)) as [|[|]]; auto 20.
Qed.

Lemma claim_leb_trans a b c : claim_leb a b = true → claim_leb b c = true → claim_leb a c = true.
Proof.
  rewrite !claim_leb_spec.
  intros [Ha|[Ha [Hb|[Hb Hc]]]] [Ha'|[Ha' [Hb'|[Hb' Hc']]]];
    try (left; lia); right; (split; [lia|]); try (left; lia).
  right. split; [lia|].
  destruct Hc as [[Hn L]|[E L]], Hc' as [[Hn' L']|[E' L']]; rewrite ?E, <-?E';
    eauto using str_leb_trans.
  left. split; [|by eapply str_leb_trans]. intros Eac. apply Hn.
  rewrite <-Eac in L'. by apply String.leb_antisym.
Qed.

(** What a claim does. *)
Lemma claim_inv worker token now t r t' :
  claim policy worker token now t = Ok (r, t') →
  match r with
  | None => t' = t ∧ candidates t now = []
  | Some (j, lease) => lease = token ∧ ∃ k row,
      jobs t !! k = Some row ∧ claimable t now row = true ∧ j = claimed policy row token now ∧
      t' = _append_event (update_job t k j) j "JOB_CLAIMED" now (Some worker) None ∧
      (∀ k' row', jobs t !! k' = Some row' → claimable t now row' = true →
         (k', row') = (k, row) ∨ claim_leb row row' = true)
  end.
Proof.
  unfold claim. intros Hc. apply bind_Ok in Hc as (? & _ & Hc).
  pose proof (py_sorted_perm (λ x y, claim_leb x.2 y.2) (candidates t now)) as Hp.
  destruct (py_sorted _ _) as [|[k row] rest] eqn:E.
  - injection Hc as <- <-. split; [done|]. by apply Permutation_nil.
  - injection Hc as <- <-. split; [done|]. exists k, row.
    assert ((k, row) ∈ candidates t now) as [Hk Hcl]%candidate_row by (rewrite <-Hp; left).
    split_and!; try done. intros k' row' Hk' Hcl'.
    apply (py_sorted_head _ _ _ _ (λ a b, claim_leb_total a.2 b.2)
      (λ a b c, claim_leb_trans a.2 b.2 c.2) E (k', row')). by apply candidate_row.
Qed.

(** ** Every operation preserves the invariant *)

Lemma enqueue_ok tenant job t r t' :
  1 <= max_attempts policy →
  attempt_count job = 0 → lease_token_hash job = None → lease_expires_at job = None →
  tables_ok t → enqueue tenant job t = Ok (r, t') → tables_ok t'.
Proof.
  intros Hmax Ha Hl He Ht Hq. unfold enqueue in Hq. apply bind_Ok in Hq as (? & Hreq & Hq).
  apply require_Ok in Hreq. apply andb_true_iff in Hreq as [_ Hs].
  apply bool_decide_eq_true in Hs. unfold insert_job in Hq.
  destruct (job_of_run t _ _) eqn:Erun; cbn in Hq.
  { by inv_ok. }
  apply bind_Ok in Hq as ([ins t1] & Hins & Hq). apply bind_Ok in Hins as (? & Hnone & [= <- <-]).
  apply require_Ok, bool_decide_eq_true in Hnone. inv_ok.
  apply tables_ok_event. destruct Ht as [Hr Hc]. split.
  - intros k j Hlk. cbn in Hlk. destruct (decide (k = job_key job)) as [->|Hne].
    + rewrite lookup_insert_eq in Hlk. injection Hlk as <-.
      split; rewrite ?Ha, ?Hs, ?Hl, ?He; naive_solver lia.
    + rewrite lookup_insert_ne in Hlk by done. by apply Hr.
  - intros tn. specialize (Hc tn). rewrite running_count_count in *. cbn.
    rewrite count_insert_new by done. rewrite decide_False by (cbn; rewrite Hs; naive_solver). done.
Qed.

Lemma requeue_ok tenant id corr now t r t' :
  1 <= max_attempts policy →
  tables_ok t → requeue tenant id corr now t = Ok (r, t') → tables_ok t'.
Proof.
  intros Hmax Ht Hq. unfold requeue in Hq. inv_ok.
  match goal with H : jobs t !! _ = Some ?j |- _ => rename j into row; rename H into Hk end.
  apply tables_ok_event. eapply tables_ok_update; [done|exact Hk| |done|done].
  destruct (rows_ok _ Ht _ _ Hk) as [Hkey ? ? ? ? ?].
  split; cbn; [done|lia|lia|done|split; congruence|done].
Qed.

Lemma claim_ok worker token now t r t' :
  tables_ok t → claim policy worker token now t = Ok (r, t') → tables_ok t'.
Proof.
  intros Ht Hc. apply claim_inv in Hc. destruct r as [[j lease]|]; [|by destruct Hc as [-> _]].
  destruct Hc as (-> & k & row & Hk & Hcl & -> & -> & _). apply tables_ok_event.
  unfold claimable in Hcl. rewrite !andb_true_iff, Z.ltb_lt, bool_decide_eq_true in Hcl.
  destruct Hcl as [[Hst _] Hlim]. destruct Ht as [Hr Hc].
  destruct (Hr _ _ Hk) as [Hkey [Ha1 Ha2] Hw ? ? ?]. specialize (Hw Hst). split.
  - intros k' j' Hlk. cbn in Hlk. destruct (decide (k = k')) as [<-|Hne].
    + rewrite lookup_insert_eq in Hlk. injection Hlk as <-.
      split; cbn; [done|lia|set_solver|lia|split; congruence|split; congruence].
    + rewrite lookup_insert_ne in Hlk by done. by apply Hr.
  - intros tn. specialize (Hc tn). rewrite running_count_count in *. cbn.
    pose proof (count_update (λ kv : key * ResearchJob,
      job_tenant kv.2 = tn ∧ job_status kv.2 = RUNNING) (jobs t) k row (claimed policy row token now) Hk) as Hu.
    cbn in Hu. unfold concurrency_limit in *. cbn [runtime_limits jobs set_jobs update_job] in *.
    repeat case_decide; try lia.
    rename select (job_tenant row = tn ∧ RUNNING = RUNNING) into Hr2.
    destruct Hr2 as [<- _]. lia.
Qed.

Lemma heartbeat_ok tenant id token now t r t' :
  tables_ok t → heartbeat policy tenant id token now t = Ok (r, t') → tables_ok t'.
Proof.
  intros Ht Hq. unfold heartbeat in Hq. apply bind_Ok in Hq as (row & Hrow & [= <- <-]).
  apply leased_row_Ok in Hrow as (Hk & Hst & Hl & _).
  eapply tables_ok_update; [done|exact Hk| |done|done].
  destruct (rows_ok _ Ht _ _ Hk) as [Hkey ? ? ? ? ?]. split; cbn; try done.
  - set_solver.
  - auto.
  - by rewrite Hl.
  - by rewrite Hl.
Qed.

Lemma complete_ok tenant id token partial now t r t' :
  tables_ok t → complete tenant id token partial now t = Ok (r, t') → tables_ok t'.
Proof.
  intros Ht Hq. unfold complete in Hq. apply bind_Ok in Hq as (row & Hrow & [= <- <-]).
  apply leased_row_Ok in Hrow as (Hk & _). apply tables_ok_event.
  eapply tables_ok_update; [done|exact Hk| |done|by destruct partial].
  apply row_ok_released; [by apply (rows_ok _ Ht)|by destruct partial|].
  destruct partial; set_solver.
Qed.

Lemma fail_ok tenant id token reason retryable now t r t' :
  tables_ok t → fail policy tenant id token reason retryable now t = Ok (r, t') → tables_ok t'.
Proof.
  intros Ht Hq. unfold fail in Hq. apply bind_Ok in Hq as (? & _ & Hq).
  apply bind_Ok in Hq as (row & Hrow & Hq). apply bind_Ok in Hq as ([target delay] & Haf & [= <- <-]).
  apply leased_row_Ok in Hrow as (Hk & _). apply after_failure_spec in Haf as (Hne & Hnq & Hlt & _).
  apply tables_ok_event. eapply tables_ok_update; [done|exact Hk| |done|done].
  apply row_ok_released; [by apply (rows_ok _ Ht)|done|]. set_solver.
Qed.

Lemma cancel_ok tenant id now t r t' :
  tables_ok t → cancel tenant id now t = Ok (r, t') → tables_ok t'.
Proof.
  intros Ht Hq. unfold cancel in Hq. apply bind_Ok in Hq as (row & Hk & Hq).
  apply or_raise_Ok in Hk. destruct (terminal _); [by injection Hq as <- <-|].
  injection Hq as <- <-. apply tables_ok_event. eapply tables_ok_update; [done|exact Hk| |done|done].
  apply row_ok_released; [by apply (rows_ok _ Ht)|done|set_solver].
Qed.

(** ** Recovery *)

Lemma after_failure_retryable n :
  1 <= n → ∃ target delay, after_failure policy n true = Ok (target, delay) ∧
    ((target = RETRY_WAIT ∧ n < max_attempts policy ∧ retry_delay policy n = Ok delay) ∨
     (target = DEAD_LETTER ∧ max_attempts policy <= n ∧ delay = 0)).
Proof.
  intros Hn. unfold after_failure. destruct (Z.ltb_spec n (max_attempts policy)); cbn.
  - rewrite retry_delay_value by done. cbn. do 2 eexists. split; [done|]. left. by split_and!.
  - do 2 eexists. split; [done|]. right. by split_and!.
Qed.

(** The row a recovery leaves. *)
Definition recovery_of (now : Z) (j : ResearchJob) : ResearchJob :=
  match after_failure policy (attempt_count j) true with
  | Ok (target, delay) => released j target (now + seconds delay) now (Some "STALE_LEASE_RECOVERED")
  | Raise _ => j
  end.

Lemma recover_all_spec now rows t :
  NoDup rows.*1 → (∀ k j, (k, j) ∈ rows → jobs t !! k = Some j ∧ 1 <= attempt_count j) →
  tables_ok t →
  ∃ t', recover_all policy now rows t = Ok t' ∧ tables_ok t' ∧
    (∀ k, k ∉ rows.*1 → jobs t' !! k = jobs t !! k) ∧
    (∀ k j, (k, j) ∈ rows → jobs t' !! k = Some (recovery_of now j)).
Proof.
  revert t. induction rows as [|[k j] rows IH]; intros t Hnd Hrows Ht; cbn.
  { exists t. split_and!; [done..|]. intros k j H'. by apply elem_of_nil in H'. }
  apply NoDup_cons in Hnd as [Hk Hnd]. destruct (Hrows k j) as [Hlk Ha]; [by left|].
  destruct (after_failure_retryable _ Ha) as (target & delay & Haf & Htd).
  unfold recover_one. cbn. rewrite Haf. cbn.
  set (j' := released j target (now + seconds delay) now (Some "STALE_LEASE_RECOVERED")).
  set (t1 := _append_event _ _ _ _ _ _).
  assert (recovery_of now j = j') as Hrec by (unfold recovery_of; by rewrite Haf).
  assert (tables_ok t1) as Ht1.
  { apply tables_ok_event. eapply tables_ok_update; [done|exact Hlk| |done|].
    - apply row_ok_released; [by apply (rows_ok _ Ht)|naive_solver|].
      destruct Htd as [(-> & ? & _)|(-> & _)]; [done|set_solver].
    - cbn. naive_solver. }
  destruct (IH t1 Hnd) as (t' & Hr & Hok & Hout & Hin).
  { intros k2 j2 H2. destruct (Hrows k2 j2) as [Hl2 ?]; [by right|]. split; [|done].
    cbn. rewrite lookup_insert_ne; [done|]. intros ->. apply Hk.
    by apply (list_elem_of_fmap_2 fst _ (k2, j2)). }
  { done. }
  exists t'. split_and!; [done|done| |].
  - intros k2 H2. rewrite not_elem_of_cons in H2. destruct H2 as [Hne H2].
    rewrite Hout by done. cbn. by rewrite lookup_insert_ne.
  - intros k2 j2 [E|H2]%elem_of_cons; [|by apply Hin].
    injection E as -> ->. rewrite Hout by done. cbn. by rewrite lookup_insert_eq, Hrec.
Qed.

Lemma stale_rows_spec now t k j :
  (k, j) ∈ stale_rows now t ↔ jobs t !! k = Some j ∧ stale now j = true.
Proof.
  unfold stale_rows. rewrite py_sorted_perm, list_elem_of_filter, elem_of_map_to_list. cbn. tauto.
Qed.

Lemma stale_rows_NoDup now t : NoDup (stale_rows now t).*1.
Proof.
  unfold stale_rows. rewrite py_sorted_perm.
  eapply sublist_NoDup; [apply (NoDup_fst_map_to_list (jobs t))|].
  apply fmap_sublist, sublist_filter.
Qed.

Lemma recover_stale_spec now t :
  tables_ok t →
  ∃ t', recover_stale policy now t = Ok (Z.of_nat (length (stale_rows now t)), t') ∧ tables_ok t' ∧
    (∀ k j, jobs t !! k = Some j →
       jobs t' !! k = Some (if stale now j then recovery_of now j else j)) ∧
    (∀ k, jobs t !! k = None → jobs t' !! k = None).
Proof.
  intros Ht. destruct (recover_all_spec now (stale_rows now t) t) as (t' & Hr & Hok & Hout & Hin).
  - apply stale_rows_NoDup.
  - intros k j [Hk Hs]%stale_rows_spec. split; [done|].
    apply (row_running _ _ (rows_ok _ Ht _ _ Hk)). unfold stale in Hs. bool_prop. naive_solver.
  - done.
  - exists t'. unfold recover_stale. rewrite Hr. cbn. split_and!; [done|done| |].
    + intros k j Hk. destruct (stale now j) eqn:Es; [by apply Hin, stale_rows_spec|].
      rewrite Hout; [done|]. intros ([k' j'] & -> & Hj')%list_elem_of_fmap_1.
      apply stale_rows_spec in Hj' as [Hk' Hs']. cbn in Hk. congruence.
    + intros k Hk. rewrite Hout; [done|]. intros ([k' j'] & -> & Hj')%list_elem_of_fmap_1.
      apply stale_rows_spec in Hj' as [Hk' Hs']. cbn in Hk. congruence.
Qed.

(** ** The queue as a transition system *)

Inductive queue_step : Tables → Tables → Prop :=
  | step_enqueue tenant job t r t' :
      attempt_count job = 0 → lease_token_hash job = None → lease_expires_at job = None →
      enqueue tenant job t = Ok (r, t') → queue_step t t'
  | step_requeue tenant id corr now t r t' :
      requeue tenant id corr now t = Ok (r, t') → queue_step t t'
  | step_claim worker token now t r t' :
      claim policy worker token now t = Ok (r, t') → queue_step t t'
  | step_heartbeat tenant id token now t r t' :
      heartbeat policy tenant id token now t = Ok (r, t') → queue_step t t'
  | step_complete tenant id token partial now t r t' :
      complete tenant id token partial now t = Ok (r, t') → queue_step t t'
  | step_fail tenant id token reason retryable now t r t' :
      fail policy tenant id token reason retryable now t = Ok (r, t') → queue_step t t'
  | step_cancel tenant id now t r t' :
      cancel tenant id now t = Ok (r, t') → queue_step t t'
  | step_recover now t r t' :
      recover_stale policy now t = Ok (r, t') → queue_step t t'.

Lemma queue_step_ok t t' : 1 <= max_attempts policy → tables_ok t → queue_step t t' → tables_ok t'.
Proof.
  intros Hmax Ht Hs. destruct Hs as [????? Ha Hl He Hq|??????? Hq|?????? Hq|??????? Hq|???????? Hq
    |????????? Hq|?????? Hq|now t r t' Hq].
  - exact (enqueue_ok _ _ _ _ _ Hmax Ha Hl He Ht Hq).
  - exact (requeue_ok _ _ _ _ _ _ _ Hmax Ht Hq).
  - exact (claim_ok _ _ _ _ _ _ Ht Hq).
  - exact (heartbeat_ok _ _ _ _ _ _ _ Ht Hq).
  - exact (complete_ok _ _ _ _ _ _ _ _ Ht Hq).
  - exact (fail_ok _ _ _ _ _ _ _ _ _ Ht Hq).
  - exact (cancel_ok _ _ _ _ _ _ Ht Hq).
  - destruct (recover_stale_spec now t Ht) as (t2 & E & Hok & _). congruence.
Qed.

(** Rows of a table evolve along the lifecycle. *)
Definition evolves (old new : option ResearchJob) : Prop :=
  match old, new with
  | Some j, Some j' =>
      job_key j' = job_key j ∧ payload_digest j' = payload_digest j ∧
      (job_status j' = job_status j ∨
       job_transition (job_status j) (job_status j') = Ok (job_status j'))
  | None, Some j' => job_status j' = QUEUED
  | None, None => True
  | Some _, None => False
  end.

Lemma evolves_refl o : evolves o o.
Proof. destruct o; cbn; auto. Qed.

Lemma evolves_insert (m : gmap key ResearchJob) k j k' :
  evolves (m !! k) (Some j) → evolves (m !! k') (<[k := j]> m !! k').
Proof.
  intros He. destruct (decide (k = k')) as [<-|Hne].
  - by rewrite lookup_insert_eq.
  - rewrite lookup_insert_ne by done. apply evolves_refl.
Qed.

Lemma job_transition_allowed s s' : s' ∈ _ALLOWED s → job_transition s s' = Ok s'.
Proof. intros Hs. unfold job_transition. by rewrite bool_decide_true. Qed.

Lemma queue_step_evolves t t' : tables_ok t → queue_step t t' → ∀ k, evolves (jobs t !! k) (jobs t' !! k).
Proof.
  intros Ht Hs k.
  destruct Hs as [tenant job t r t' _ _ _ Hq|tenant id corr now t r t' Hq|worker token now t r t' Hq
    |tenant id token now t r t' Hq|tenant id token partial now t r t' Hq
    |tenant id token reason retryable now t r t' Hq|tenant id now t r t' Hq|now t r t' Hq].
  - unfold enqueue in Hq. apply bind_Ok in Hq as (? & Hreq & Hq).
    apply require_Ok, andb_true_iff in Hreq as [_ Hst%bool_decide_eq_true].
    unfold insert_job in Hq. destruct (job_of_run t _ _); cbn in Hq.
    { inv_ok. apply evolves_refl. }
    apply bind_Ok in Hq as ([ins t1] & Hins & Hq). apply bind_Ok in Hins as (? & Hnone & [= <- <-]).
    apply require_Ok, bool_decide_eq_true in Hnone. inv_ok. apply evolves_insert. by rewrite Hnone.
  - unfold requeue in Hq. apply bind_Ok in Hq as (row & Hk%or_raise_Ok & Hq).
    apply bind_Ok in Hq as (? & Hst%require_Ok & [= <- <-]). apply bool_decide_eq_true in Hst.
    apply evolves_insert. rewrite Hk. cbn. destruct (rows_ok _ Ht _ _ Hk) as [Hkey _ _ _ _ _].
    split; [done|]. split; [done|]. right. apply job_transition_allowed. destruct (job_status row); set_solver.
  - apply claim_inv in Hq. destruct r as [[j l]|]; [|destruct Hq as [-> _]; apply evolves_refl].
    destruct Hq as (_ & k' & row & Hk & Hcl & -> & -> & _). apply evolves_insert. rewrite Hk.
    cbn. split; [done|]. split; [done|]. right. apply job_transition_allowed.
    unfold claimable in Hcl. rewrite !andb_true_iff, bool_decide_eq_true in Hcl.
    destruct Hcl as [[Hst _] _]. destruct (job_status row); set_solver.
  - unfold heartbeat in Hq. apply bind_Ok in Hq as (row & (Hk & Hst & _)%leased_row_Ok & [= <- <-]).
    apply evolves_insert. rewrite Hk. cbn. rewrite Hst. auto.
  - unfold complete in Hq. apply bind_Ok in Hq as (row & (Hk & Hst & _)%leased_row_Ok & [= <- <-]).
    apply evolves_insert. rewrite Hk. cbn. rewrite Hst. destruct partial; auto.
  - unfold fail in Hq. apply bind_Ok in Hq as (? & _ & Hq).
    apply bind_Ok in Hq as (row & (Hk & Hst & _)%leased_row_Ok & Hq).
    apply bind_Ok in Hq as ([target delay] & (_ & _ & _ & Hal)%after_failure_spec & [= <- <-]).
    apply evolves_insert. rewrite Hk. cbn. rewrite Hst.
    split; [done|]. split; [done|]. right. by apply job_transition_allowed.
  - unfold cancel in Hq. apply bind_Ok in Hq as (row & Hk%or_raise_Ok & Hq).
    destruct (terminal _) eqn:Et; injection Hq as <- <-; [apply evolves_refl|].
    apply evolves_insert. rewrite Hk. cbn. split; [done|]. split; [done|]. right.
    apply job_transition_allowed. revert Et.
    destruct (job_status row); intros Et; try discriminate Et; set_solver.
  - destruct (recover_stale_spec now t Ht) as (t2 & E & _ & Hsome & Hnone).
    rewrite E in Hq. injection Hq as <- <-.
    destruct (jobs t !! k) as [j|] eqn:Ek; [|by rewrite Hnone].
    rewrite (Hsome k j Ek). destruct (stale now j) eqn:Es; [|apply evolves_refl].
    unfold recovery_of. destruct (after_failure policy (attempt_count j) true) as [[target delay]|] eqn:Eaf;
      [|apply evolves_refl].
    apply after_failure_spec in Eaf as (_ & _ & _ & Hal). cbn.
    assert (job_status j = RUNNING) as -> by (unfold stale in Es; bool_prop; naive_solver).
    split; [done|]. split; [done|]. right. by apply job_transition_allowed.
Qed.
End invariant.

(** ** The contracts of the queue *)

(** An empty queue with positive limits, as the migrations create it. *)
Definition empty_queue (limits : gmap string Z) : Tables := mkTables ∅ [] limits.

Lemma empty_queue_ok `{HashAlg} policy limits :
  (∀ tenant n, limits !! tenant = Some n → 0 < n) → tables_ok policy (empty_queue limits).
Proof.
  intros Hpos. split; [done|]. intros tenant. unfold running_count, concurrency_limit. cbn.
  rewrite map_to_list_empty. cbn. destruct (limits !! tenant) eqn:E; cbn; [|done].
  apply Hpos in E. lia.
Qed.

Lemma valid_policy_attempts p : job_policy p = Ok p → 1 <= max_attempts p.
Proof.
  unfold job_policy. intros Hp. apply bind_Ok in Hp as (? & Ha & _).
  apply require_Ok, andb_true_iff in Ha as [Ha%Z.leb_le _]. done.
Qed.

Lemma queue_steps_ok `{HashAlg} policy t t' :
  1 <= max_attempts policy → rtc (queue_step policy) t t' → tables_ok policy t → tables_ok policy t'.
Proof. intros Hmax. induction 1; eauto using queue_step_ok. Qed.


(** C14: refinement of the lifecycle: every operation of the repository leaves each job's status
    or moves it along jobs.lifecycle.transition, never deletes a job or changes its identity or
    payload, and creates jobs as QUEUED; so the SQL of the repository implements the declared
    state machine. *)
Theorem queue_refines_lifecycle `{HashAlg} policy limits t t' k :
  job_policy policy = Ok policy → (∀ tenant n, limits !! tenant = Some n → 0 < n) →
  rtc (queue_step policy) (empty_queue limits) t → queue_step policy t t' →
  match jobs t !! k, jobs t' !! k with
  | Some j, Some j' =>
      job_key j' = job_key j ∧ payload_digest j' = payload_digest j ∧
      (job_status j' = job_status j ∨
       job_transition (job_status j) (job_status j') = Ok (job_status j'))
  | None, Some j' => job_status j' = QUEUED
  | None, None => True
  | Some _, None => False
  end.
Proof.
  intros Hp Hl Hs Ht. apply (queue_step_evolves policy t t'); [|done].
  eapply queue_steps_ok; [by apply valid_policy_attempts|done|by apply empty_queue_ok].
Qed.

Section contracts.
Context `{HashAlg} (policy : JobPolicy).

(** The operations of a lease holder on a job. *)
Definition refused (tenant id token : string) (now : Z) (t : Tables) : Prop :=
  heartbeat policy tenant id token now t = Raise (Exn LeaseRejected ["INVALID_OR_EXPIRED_LEASE"]) ∧
  (∀ partial, complete tenant id token partial now t =
     Raise (Exn LeaseRejected ["INVALID_OR_EXPIRED_LEASE"])) ∧
  (∀ retryable, fail policy tenant id token "ERROR" retryable now t =
     Raise (Exn LeaseRejected ["INVALID_OR_EXPIRED_LEASE"])).

Lemma not_leased_refused tenant id token now t :
  (∀ j, jobs t !! (tenant, id) = Some j → holds_lease j token now = false) →
  refused tenant id token now t.
Proof.
  intros Hno. assert (leased_row t tenant id token now =
    raise LeaseRejected "INVALID_OR_EXPIRED_LEASE") as Hl.
  { unfold leased_row. destruct (jobs t !! (tenant, id)) as [j|]; [|done]. by rewrite Hno. }
  unfold refused, heartbeat, complete, fail. by rewrite !Hl.
Qed.


(** Claiming is fair and safe: a claim returns a job exactly when one is due whose tenant
    is below its limit, it takes the least of them by (available, created, tenant, id), counts
    the attempt, gives it a lease of the policy's length under the token's digest, leaves every
    other job alone, and a claim without candidates changes nothing. *)
Theorem claim_fair worker token now t :
  tables_ok policy t → str_blank worker = false →
  ∃ r t', claim policy worker token now t = Ok (r, t') ∧
    match r with
    | None => t' = t ∧ ∀ k j, jobs t !! k = Some j → claimable t now j = false
    | Some (j, lease) => ∃ row,
        jobs t !! job_key row = Some row ∧ claimable t now row = true ∧
        job_status j = RUNNING ∧ attempt_count j = attempt_count row + 1 ∧
        lease_token_hash j = Some (_lease_hash token) ∧
        lease_expires_at j = Some (now + seconds (lease_seconds policy)) ∧
        jobs t' = <[job_key row := j]> (jobs t) ∧
        ∀ k' row', jobs t !! k' = Some row' → claimable t now row' = true →
          row' = row ∨ claim_leb row row' = true
    end.
Proof.
  intros Ht Hw. destruct (claim policy worker token now t) as [[r t']|e] eqn:E.
  2: { unfold claim in E. rewrite Hw in E. cbn in E. by destruct (py_sorted _ _) as [|[k row] rest]. }
  exists r, t'. split; [done|]. apply claim_inv in E. destruct r as [[j lease]|].
  - destruct E as (_ & k & row & Hlk & Hcl & -> & -> & Hmin). exists row.
    rewrite <-(row_key _ _ _ (rows_ok _ _ Ht _ _ Hlk)). split_and!; try done.
    intros k' row' Hlk' Hcl'. destruct (Hmin k' row' Hlk' Hcl') as [[= _ ->]|]; auto.
  - destruct E as [-> Hnil]. split; [done|]. intros k j Hlk.
    destruct (claimable t now j) eqn:Ec; [|done].
    assert ((k, j) ∈ candidates t now) as Hin by by apply candidate_row.
    rewrite Hnil in Hin. by apply elem_of_nil in Hin.
Qed.

(** C15: crash recovery is total and complete: on a table the queue can reach it succeeds,
    returns the number of expired leases, and touches exactly those jobs: each goes back to
    RETRY_WAIT behind the policy's backoff while attempts are left and to DEAD_LETTER
    otherwise, without its lease, so that no RUNNING job has an expired lease afterwards. *)
Theorem recovery_complete now t :
  tables_ok policy t →
  ∃ n t', recover_stale policy now t = Ok (n, t') ∧
    n = Z.of_nat (length (stale_rows now t)) ∧
    (∀ k j, jobs t !! k = Some j → stale now j = false → jobs t' !! k = Some j) ∧
    (∀ k j, jobs t !! k = Some j → stale now j = true → ∃ j', jobs t' !! k = Some j' ∧
       lease_token_hash j' = None ∧ attempt_count j' = attempt_count j ∧
       ((attempt_count j < max_attempts policy ∧ job_status j' = RETRY_WAIT ∧
         ∃ d, retry_delay policy (attempt_count j) = Ok d ∧ available_at j' = now + seconds d) ∨
        (max_attempts policy <= attempt_count j ∧ job_status j' = DEAD_LETTER))) ∧
    (∀ k j, jobs t' !! k = Some j → stale now j = false) ∧
    tables_ok policy t'.
Proof.
  intros Ht. destruct (recover_stale_spec policy now t Ht) as (t' & E & Hok & Hsome & Hnone).
  assert (∀ k j, jobs t !! k = Some j → stale now j = true → ∃ target delay,
    recovery_of policy now j = released j target (now + seconds delay) now (Some "STALE_LEASE_RECOVERED") ∧
    ((target = RETRY_WAIT ∧ attempt_count j < max_attempts policy ∧
      retry_delay policy (attempt_count j) = Ok delay) ∨
     (target = DEAD_LETTER ∧ max_attempts policy <= attempt_count j ∧ delay = 0))) as Hrec.
  { intros k j Hk Hs. destruct (after_failure_retryable policy (attempt_count j)) as (target & delay & Haf & Htd).
    { apply (row_running _ _ _ (rows_ok _ _ Ht _ _ Hk)). unfold stale in Hs. bool_prop. naive_solver. }
    exists target, delay. split; [|done]. unfold recovery_of. by rewrite Haf. }
  do 2 eexists. split; [done|]. split; [done|]. split_and!; [| | |done].
  - intros k j Hk Hs. specialize (Hsome k j Hk). by rewrite Hs in Hsome.
  - intros k j Hk Hs. pose proof (Hsome k j Hk) as Hk'. rewrite Hs in Hk'.
    exists (recovery_of policy now j). split; [done|].
    destruct (Hrec k j Hk Hs) as (target & delay & -> & [(-> & ? & ?)|(-> & ? & _)]); cbn;
      split_and!; eauto 10.
  - intros k j Hk'. destruct (jobs t !! k) as [j0|] eqn:Hk; [|rewrite (Hnone k Hk) in Hk'; done].
    rewrite (Hsome k j0 Hk) in Hk'. injection Hk' as <-.
    destruct (stale now j0) eqn:Hs; [|done].
    destruct (Hrec k j0 Hk Hs) as (target & delay & -> & Htd).
    unfold stale. cbn. by rewrite andb_false_r.
Qed.
End contracts.

Lemma failure_reason_valid msg fallback :
  fallback ∈ ["RETRYABLE_JOB_FAILURE"; "NON_RETRYABLE_JOB_FAILURE"] →
  ((failure_reason msg fallback =? "")%string || (128 <? str_len (failure_reason msg fallback))%nat) = false.
Proof.
  intros Hf. unfold failure_reason.
  destruct (msg =? "")%string eqn:Em; cbn [negb andb];
    [|destruct (str_len msg <=? 128)%nat eqn:El].
  2: { rewrite Em. cbn [orb]. apply Nat.leb_le in El. by apply Nat.ltb_ge. }
  all: repeat (apply elem_of_cons in Hf as [->|Hf]; [done|]); by apply elem_of_nil in Hf.
Qed.

(** The status a worker leaves a job in. *)
Definition worked_status (policy : JobPolicy) (attempts : Z) (p : processed) : JobStatus :=
  match p with
  | Done true => PARTIAL
  | Done false => COMPLETED
  | NonRetryableJobError _ => FAILED
  | RetryableJobError _ => if attempts <? max_attempts policy then RETRY_WAIT else DEAD_LETTER
  end.

(** A worker finishes only what it still owns: after a claim, if a heartbeat failed or the
    job was cancelled while it was processed, the worker commits nothing; undisturbed and within
    its lease it always succeeds and leaves the job in the status its processor's outcome
    calls for, dead-lettering a retryable failure exactly when the attempts are used up. *)
Theorem worker_outcome `{HashAlg} policy worker token now later before during lease_lost processor
    t job lease t1 :
  tables_ok policy t → claim policy worker token now t = Ok (Some (job, lease), t1) →
  (is_cancelled (job_tenant job) (job_id job) (before t1) = false →
   lease_lost || is_cancelled (job_tenant job) (job_id job) (during (before t1)) = true →
   run_once policy worker token now later before during lease_lost processor t =
     Ok (true, during (before t1))) ∧
  (later < now + seconds (lease_seconds policy) →
   ∃ t' j, run_once policy worker token now later id id false processor t = Ok (true, t') ∧
     jobs t' !! job_key job = Some j ∧
     job_status j = worked_status policy (attempt_count job) (processor job) ∧
     lease_token_hash j = None).
Proof.
  intros Ht Hc. pose proof Hc as (-> & k & row & Hk & _ & Hj & Ht1 & _)%claim_inv.
  assert (job_status job = RUNNING) as Hst by by rewrite Hj.
  destruct (rows_ok _ _ Ht _ _ Hk) as [Hkey Hatt _ _ _ _].
  assert (jobs t1 !! (job_tenant job, job_id job) = Some job) as Hlk.
  { rewrite Ht1, Hj. cbn. unfold job_key in Hkey. rewrite <-Hkey. apply lookup_insert_eq. }
  split.
  - intros Hb Hd. unfold run_once. rewrite Hc. cbn [mbind result_bind].
    by rewrite bool_decide_false, Hb, Hd by (by rewrite Hst).
  - intros Hlate. unfold run_once. rewrite Hc. cbn [mbind result_bind id].
    rewrite bool_decide_false by (by rewrite Hst). unfold is_cancelled. rewrite Hlk.
    rewrite bool_decide_false by (by rewrite Hst). cbn [orb].
    assert (leased_row t1 (job_tenant job) (job_id job) token later = Ok job) as Hl.
    { unfold leased_row. rewrite Hlk. unfold holds_lease.
      rewrite bool_decide_true by done. rewrite Hj. cbn.
      rewrite bool_decide_true by done. by rewrite (proj2 (Z.ltb_lt _ _) Hlate). }
    assert (1 <= attempt_count job) as Ha by (rewrite Hj; cbn; lia).
    destruct (processor job) as [partial|msg|msg].
    + unfold complete. rewrite Hl. cbn. do 2 eexists. split; [done|].
      split; [apply lookup_insert_eq|]. by destruct partial.
    + unfold fail. rewrite failure_reason_valid by set_solver. cbn [negb require mbind result_bind].
      rewrite Hl. cbn [mbind result_bind].
      destruct (after_failure_retryable policy _ Ha) as (target & delay & -> & Htd).
      cbn. do 2 eexists. split; [done|]. split; [apply lookup_insert_eq|].
      split; [|done]. cbn. destruct Htd as [(-> & ? & _)|(-> & ? & _)].
      * by rewrite (proj2 (Z.ltb_lt _ _)).
      * by rewrite (proj2 (Z.ltb_ge _ _)).
    + unfold fail. rewrite failure_reason_valid by set_solver. cbn [negb require mbind result_bind].
      rewrite Hl. cbn. do 2 eexists. split; [done|]. split; [apply lookup_insert_eq|]. done.
Qed.

(** ** A concrete queue *)

Definition sample_job : ResearchJob :=
  mkJob "j1" "t1" "r1" "c1" "p" QUEUED 0 0 0 0 None None None.
Definition one_job : Tables := mkTables {[("t1", "j1") := sample_job]} [] ∅.
Definition running_job : Tables :=
  mkTables {[("t1", "j1") := claimed (H := constant_alg) default_policy sample_job "token-one-two" 0]} [] ∅.

Definition queued_job : result (ResearchJob * Tables) := enqueue "t1" sample_job (empty_queue ∅).


Lemma queue_refines_lifecycle_witness :
  ∃ r t, queued_job = Ok (r, t) ∧
    match jobs (empty_queue ∅) !! ("t1", "j1"), jobs t !! ("t1", "j1") with
    | None, Some j' => job_status j' = QUEUED
    | _, _ => True
    end.
Proof.
  destruct (succeeds_with_Ok queued_job (λ _, true)) as ([r t] & E & _); [vm_compute; reflexivity|].
  exists r, t. split; [exact E|].
  assert (queue_step (H := constant_alg) default_policy (empty_queue ∅) t) as Hs
    by (eapply step_enqueue; [| | |exact E]; reflexivity).
  pose proof (queue_refines_lifecycle (H := constant_alg) default_policy ∅ (empty_queue ∅) t ("t1", "j1")
    eq_refl (λ tenant n (Hn : (∅ : gmap string Z) !! tenant = Some n),
      match eq_trans (eq_sym (lookup_empty tenant)) Hn with end) (rtc_refl _ _) Hs) as Hr.
  cbn in *. destruct (jobs t !! ("t1", "j1")); exact Hr.
Defined.

Lemma one_job_ok : tables_ok default_policy one_job.
Proof.
  split.
  - intros k j Hk. unfold one_job in Hk. cbn in Hk. apply lookup_singleton_Some in Hk as [<- <-].
    split; cbn; [done|lia|lia|done|done|done].
  - intros tenant. unfold running_count, concurrency_limit, one_job. cbn.
    rewrite lookup_empty. cbn. rewrite map_to_list_singleton, filter_cons, filter_nil.
    case_decide as Hd; [by destruct Hd|]. cbn. lia.
Qed.

Lemma running_job_ok : tables_ok default_policy running_job.
Proof.
  split.
  - intros k j Hk. unfold running_job in Hk. cbn in Hk. apply lookup_singleton_Some in Hk as [<- <-].
    split; cbn; [done|lia|set_solver|lia|split; congruence|split; congruence].
  - intros tenant. unfold running_count, concurrency_limit, running_job. cbn.
    rewrite lookup_empty. cbn. rewrite map_to_list_singleton, filter_cons, filter_nil.
    case_decide; cbn; lia.
Qed.


Lemma claim_fair_witness :
  ∃ r t', claim (H := constant_alg) default_policy "w" "token-one-two" 0 one_job = Ok (r, t') ∧
    bool_decide (r = None) = false.
Proof.
  destruct (claim_fair (H := constant_alg) default_policy "w" "token-one-two" 0 one_job) as (r & t' & E & Hr);
    [apply one_job_ok|reflexivity|].
  exists r, t'. split; [exact E|]. destruct r as [[j lease]|]; [reflexivity|].
  destruct Hr as [_ Hr]. specialize (Hr ("t1", "j1") sample_job eq_refl). vm_compute in Hr. discriminate Hr.
Defined.

Lemma recovery_complete_witness :
  ∃ n t', recover_stale default_policy (seconds 60) running_job = Ok (n, t') ∧ n = 1 ∧
    ∀ k j, jobs t' !! k = Some j → stale (seconds 60) j = false.
Proof.
  destruct (recovery_complete default_policy (seconds 60) running_job)
    as (n & t' & E & Hn & _ & _ & Hs & _); [apply running_job_ok|].
  exists n, t'. split; [exact E|]. split; [rewrite Hn; vm_compute; reflexivity|exact Hs].
Defined.

Lemma worker_outcome_witness :
  ∃ job lease t1, claim (H := constant_alg) default_policy "w" "token-one-two" 0 one_job =
      Ok (Some (job, lease), t1) ∧
    ∃ t' j, run_once (H := constant_alg) default_policy "w" "token-one-two" 0 5 id id false
        (λ _, Done false) one_job = Ok (true, t') ∧
      jobs t' !! job_key job = Some j ∧ job_status j = COMPLETED.
Proof.
  destruct (succeeds_with_Ok (claim (H := constant_alg) default_policy "w" "token-one-two" 0 one_job)
    (λ p, bool_decide (is_Some p.1))) as ([r t1] & E & Hr); [vm_compute; reflexivity|].
  apply bool_decide_eq_true in Hr as [[job lease] Hr]. cbn in Hr. subst r.
  exists job, lease, t1. split; [exact E|].
  destruct (worker_outcome (H := constant_alg) default_policy "w" "token-one-two" 0 5 id id false
    (λ _, Done false) one_job job lease t1 one_job_ok E) as [_ Hw].
  destruct Hw as (t' & j & Hrun & Hlk & Hst & _); [vm_compute; reflexivity|].
  exists t', j. split; [exact Hrun|]. split; [exact Hlk|exact Hst].
Defined.
