(* ===== verification/Retention.v ===== *)
(** * Deletion and legal holds

    [lifecycle/contracts.py], [lifecycle/ports.py], [lifecycle/repository.py] and
    [lifecycle/service.py]: the service that deletes the data of a case on request and the
    legal holds that forbid it. The service is written against the repository's interface, the
    class [LifecycleRepository]; the in-memory repository is an instance. The lock of the
    repository makes each of its operations atomic; operations of different callers may
    interleave between them. *)

From S2P Require Import Prelude PyVal Json Sha256 Identity.
From stdpp Require Import options.

(** ** [lifecycle/contracts.py] *)

Inductive DeletionStatus := REQUESTED | BLOCKED_BY_HOLD | EXECUTING | COMPLETED | FAILED.

#[export] Instance DeletionStatus_eq_dec : EqDecision DeletionStatus.
Proof. solve_decision. Defined.

Record DeletionRequest := mkDeletion {
  del_tenant : string; request_id : string; del_decision : option string;
  case_ref_hash : string; actor_hash : string; idempotency_key_hash : string;
  del_status : DeletionStatus; reason_code : string; requested_at : string;
  completed_at : option string; legal_hold_active : bool;
  event_hash : string; del_previous_hash : option string
}.

Record LifecycleEvent := mkLifecycleEvent {
  le_tenant : string; le_id : string; le_request : string; le_case_hash : string;
  le_type : string; le_occurred_at : string; le_reason : string; le_correlation : string;
  le_actor : string; le_hash : string; le_previous : option string
}.

(** [DeletionRequest.with_status] *)
Definition with_status (r : DeletionRequest) (status : DeletionStatus) (hold : bool)
    (completed : option string) (forget_decision : bool) : DeletionRequest :=
  mkDeletion (del_tenant r) (request_id r) (if forget_decision then None else del_decision r)
    (case_ref_hash r) (actor_hash r) (idempotency_key_hash r) status (reason_code r)
    (requested_at r) completed hold (event_hash r) (del_previous_hash r).

(** [DeletionRequest.with_event] *)
Definition with_event (r : DeletionRequest) (e : LifecycleEvent) : DeletionRequest :=
  mkDeletion (del_tenant r) (request_id r) (del_decision r) (case_ref_hash r) (actor_hash r)
    (idempotency_key_hash r) (del_status r) (reason_code r) (requested_at r) (completed_at r)
    (legal_hold_active r) (le_hash e) (le_previous e).

(** ** [lifecycle/ports.py]: the interface of a repository *)

Class LifecycleRepository (S : Type) := {
  case_exists : string → string → stateful S bool;
  get_by_idempotency : string → string → string → stateful S (option DeletionRequest);
  get_request : string → string → stateful S (option DeletionRequest);
  persist_transition :
    DeletionRequest → LifecycleEvent → option DeletionStatus → stateful S DeletionRequest;
  active_hold : string → string → stateful S bool;
  set_hold : string → string → string → string → string → string → LifecycleEvent → stateful S bool;
  release_hold : string → string → string → string → LifecycleEvent → stateful S bool;
  last_event : string → string → stateful S (option LifecycleEvent);
  last_hold_event : string → string → stateful S (option LifecycleEvent);
  complete_deletion : DeletionRequest → LifecycleEvent → stateful S DeletionRequest
}.

(** ** [lifecycle/service.py] *)

(** [hmac.new(secret, message, hashlib.sha256).hexdigest()] *)
Class Hmac := hmac_hexdigest : string → string → string.

Definition nul : string := String "000" EmptyString.

(** [s.removeprefix("sha256:")[:16]] *)
Definition chain_ref (previous : option string) : string :=
  match previous with
  | None => "root"
  | Some h => String.substring 0 16 (if str_startswith "sha256:" h
                                     then String.substring 7 (String.length h) h else h)
  end.

Section service.
Context `{HashAlg} `{Hmac} {S : Type} `{LifecycleRepository S} (secret : string).

Definition _digest (purpose tenant value : string) : string :=
  "sha256:" +:+ hmac_hexdigest secret (purpose +:+ nul +:+ tenant +:+ nul +:+ value).
Definition _plain_digest (value : string) : string := hexdigest value.

(** The fields [_event] and [_hold_event] share, with the digest over their canonical JSON;
    [occurred_at] is the reading of the clock. *)
Definition build_event (tenant id case_hash type reason correlation actor occurred_at : string)
    (prior : option LifecycleEvent) : LifecycleEvent :=
  let previous := le_hash <$> prior in
  let event_id := id +:+ ":" +:+ type +:+ ":" +:+ occurred_at +:+ ":" +:+ chain_ref previous in
  let payload := PDict
    [("event_id", PStr event_id); ("request_id", PStr id); ("case_ref_hash", PStr case_hash);
     ("event_type", PStr type); ("occurred_at", PStr occurred_at); ("reason_code", PStr reason);
     ("correlation_id", PStr correlation); ("actor_hash", PStr actor);
     ("previous_event_hash", match previous with Some h => PStr h | None => PNone end)] in
  mkLifecycleEvent tenant event_id id case_hash type occurred_at reason correlation actor
    ("sha256:" +:+ _plain_digest (canonical_json payload)) previous.

Definition _event (request : DeletionRequest) (type : string) (identity : Identity)
    (correlation occurred_at : string) : stateful S LifecycleEvent :=
  let tenant := tenant_id (identity_tenant identity) in
  prior ← last_event tenant (request_id request);
  mret (build_event tenant (request_id request) (case_ref_hash request) type (reason_code request)
          correlation (actor_hash request) occurred_at prior).

Definition _hold_event (identity : Identity) (decision hold_id type reason correlation
    occurred_at : string) : stateful S LifecycleEvent :=
  let tenant := tenant_id (identity_tenant identity) in
  prior ← last_hold_event tenant hold_id;
  mret (build_event tenant hold_id (_digest "case" tenant decision) type reason correlation
          (_digest "actor" tenant (identity_actor identity)) occurred_at prior).

Definition _record (request : DeletionRequest) (type : string) (identity : Identity)
    (correlation occurred_at : string) (expected : option DeletionStatus) :
    stateful S DeletionRequest :=
  event ← _event request type identity correlation occurred_at;
  persist_transition (with_event request event) event expected.

(** [request_deletion]; [clock] lists the readings of the call. *)
Definition request_deletion (identity : Identity) (decision reason key correlation : string)
    (clock : nat → string) : stateful S DeletionRequest :=
  _ ← lift (authorize identity DATA_DELETE);
  let tenant := tenant_id (identity_tenant identity) in
  let actor := _digest "actor" tenant (identity_actor identity) in
  let key_hash := _digest "idempotency" tenant key in
  let case_hash := _digest "case" tenant decision in
  replay ← get_by_idempotency tenant actor key_hash;
  match replay with
  | Some r =>
      _ ← guard_with ((case_ref_hash r =? case_hash) && (reason_code r =? reason))
            LifecycleConflict "IDEMPOTENCY_KEY_REUSED";
      mret r
  | None =>
      found ← case_exists tenant decision;
      _ ← guard_with found LifecycleConflict "CASE_NOT_FOUND";
      let id := "delete-" +:+ String.substring 0 24
                  (_plain_digest (tenant +:+ nul +:+ actor +:+ nul +:+ key_hash)) in
      hold ← active_hold tenant decision;
      let request := mkDeletion tenant id (Some decision) case_hash actor key_hash
        (if (hold : bool) then BLOCKED_BY_HOLD else REQUESTED) reason (clock 0) None hold "" None in
      event ← _event request "data.deletion-requested" identity correlation (clock 1);
      persist_transition (with_event request event) event None
  end.

(** [execute_deletion] *)
Definition execute_deletion (identity : Identity) (id correlation : string) (clock : nat → string) :
    stateful S DeletionRequest :=
  _ ← lift (authorize identity DATA_DELETE);
  let tenant := tenant_id (identity_tenant identity) in
  found ← get_request tenant id;
  request ← lift (or_raise found LifecycleConflict "CASE_NOT_FOUND");
  if bool_decide (del_status request = COMPLETED) then mret request else
  decision ← lift (or_raise (del_decision request) LifecycleConflict "INVALID_DELETION_STATE");
  hold ← active_hold tenant decision;
  if (hold : bool) then
    _record (with_status request BLOCKED_BY_HOLD true None false) "data.deletion-blocked"
      identity correlation (clock 0) (Some (del_status request))
  else
    executing ← _record (with_status request EXECUTING false None false) "data.deletion-executing"
                  identity correlation (clock 0) (Some (del_status request));
    catch
      (let completed := with_status executing COMPLETED false (Some (clock 1)) true in
       event ← _event completed "data.deletion-completed" identity correlation (clock 2);
       complete_deletion (with_event completed event) event)
      LegalHoldActive
      (_record (with_status executing BLOCKED_BY_HOLD true None false) "data.deletion-blocked"
         identity correlation (clock 3) (Some (del_status executing))).

Definition hold_id_of (tenant decision : string) : string :=
  "hold-" +:+ String.substring 0 24 (_plain_digest (tenant +:+ nul +:+ decision)).

(** [place_legal_hold] *)
Definition place_legal_hold (identity : Identity) (decision reason correlation : string)
    (clock : nat → string) : stateful S unit :=
  _ ← lift (authorize identity LEGAL_HOLD_MANAGE);
  let tenant := tenant_id (identity_tenant identity) in
  found ← case_exists tenant decision;
  _ ← guard_with found LifecycleConflict "CASE_NOT_FOUND";
  let actor := _digest "actor" tenant (identity_actor identity) in
  let hold_id := hold_id_of tenant decision in
  event ← _hold_event identity decision hold_id "data.legal-hold-placed" reason correlation (clock 0);
  _ ← set_hold tenant decision hold_id actor reason (le_occurred_at event) event;
  mret tt.

(** [release_legal_hold] *)
Definition release_legal_hold (identity : Identity) (decision correlation : string)
    (clock : nat → string) : stateful S bool :=
  _ ← lift (authorize identity LEGAL_HOLD_MANAGE);
  let tenant := tenant_id (identity_tenant identity) in
  let actor := _digest "actor" tenant (identity_actor identity) in
  event ← _hold_event identity decision (hold_id_of tenant decision) "data.legal-hold-released"
            "LEGAL_HOLD_RELEASED" correlation (clock 0);
  release_hold tenant decision actor (le_occurred_at event) event.
End service.

(** ** [lifecycle/repository.py] *)

Record Memory := mkMemory {
  _cases : gmap string (gset string);
  _requests : gmap (string * string) DeletionRequest;
  _idempotency : gmap (string * string * string) string;
  _holds : gset (string * string);
  events : list LifecycleEvent
}.

Definition mem_cases (m : Memory) (tenant : string) : gset string := default ∅ (_cases m !! tenant).

Definition mem_last_event (tenant id : string) (m : Memory) : option LifecycleEvent :=
  List.find (λ e, (le_tenant e =? tenant) && (le_request e =? id)) (rev (events m)).

Definition store_request (r : DeletionRequest) (e : LifecycleEvent) (m : Memory) : Memory :=
  mkMemory (_cases m) (<[(del_tenant r, request_id r) := r]> (_requests m))
    (<[(del_tenant r, actor_hash r, idempotency_key_hash r) := request_id r]> (_idempotency m))
    (_holds m) (events m ++ [e]).

Definition mem_persist_transition (request : DeletionRequest) (event : LifecycleEvent)
    (expected : option DeletionStatus) : stateful Memory DeletionRequest := λ m,
  let key := (del_tenant request, request_id request) in
  match _requests m !! key with
  | Some current =>
      match expected with
      | None =>
          if (case_ref_hash current =? case_ref_hash request) &&
             (actor_hash current =? actor_hash request) &&
             (idempotency_key_hash current =? idempotency_key_hash request) &&
             (reason_code current =? reason_code request)
          then (Ok current, m)
          else (raise LifecycleTransitionConflict "IDEMPOTENCY_KEY_REUSED", m)
      | Some expected =>
          if bool_decide (del_status current = expected) then
            if bool_decide (le_previous event = Some (event_hash current))
            then (Ok request, store_request request event m)
            else (raise LifecycleTransitionConflict "LIFECYCLE_EVENT_CHAIN_CONFLICT", m)
          else if bool_decide (del_status current ∈ [del_status request; COMPLETED])
          then (Ok current, m)
          else (raise LifecycleTransitionConflict "LIFECYCLE_STATUS_CONFLICT", m)
      end
  | None =>
      match expected with
      | Some _ => (raise LifecycleTransitionConflict "LIFECYCLE_STATUS_CONFLICT", m)
      | None =>
          if bool_decide (le_previous event = None)
          then (Ok request, store_request request event m)
          else (raise LifecycleTransitionConflict "LIFECYCLE_EVENT_CHAIN_CONFLICT", m)
      end
  end.

(** The link a hold event must carry. *)
Definition hold_link (tenant : string) (event : LifecycleEvent) (m : Memory) : bool :=
  bool_decide (le_previous event = (le_hash <$> mem_last_event tenant (le_request event) m)).

Definition mem_set_hold (tenant decision : string) (event : LifecycleEvent) : stateful Memory bool := λ m,
  if bool_decide ((tenant, decision) ∈ _holds m) then (Ok false, m)
  else if hold_link tenant event m then
    (Ok true, mkMemory (_cases m) (_requests m) (_idempotency m)
                ({[(tenant, decision)]} ∪ _holds m) (events m ++ [event]))
  else (raise LifecycleTransitionConflict "LIFECYCLE_EVENT_CHAIN_CONFLICT", m).

Definition mem_release_hold (tenant decision : string) (event : LifecycleEvent) :
    stateful Memory bool := λ m,
  if bool_decide ((tenant, decision) ∉ _holds m) then (Ok false, m)
  else if hold_link tenant event m then
    (Ok true, mkMemory (_cases m) (_requests m) (_idempotency m)
                (_holds m ∖ {[(tenant, decision)]}) (events m ++ [event]))
  else (raise LifecycleTransitionConflict "LIFECYCLE_EVENT_CHAIN_CONFLICT", m).

Definition mem_complete_deletion (request : DeletionRequest) (event : LifecycleEvent) :
    stateful Memory DeletionRequest := λ m,
  let key := (del_tenant request, request_id request) in
  match _requests m !! key with
  | None => (raise LifecycleTransitionConflict "LIFECYCLE_STATUS_CONFLICT", m)
  | Some current =>
      if negb (bool_decide (del_status current = EXECUTING)) then
        if bool_decide (del_status current = COMPLETED) then (Ok current, m)
        else (raise LifecycleTransitionConflict "LIFECYCLE_STATUS_CONFLICT", m)
      else
        match del_decision current with
        | None => (raise LifecycleTransitionConflict "LIFECYCLE_STATUS_CONFLICT", m)
        | Some decision =>
            if negb (bool_decide (le_previous event = Some (event_hash current))) then
              (raise LifecycleTransitionConflict "LIFECYCLE_EVENT_CHAIN_CONFLICT", m)
            else if bool_decide ((del_tenant request, decision) ∈ _holds m) then
              (raise LegalHoldActive "LEGAL_HOLD_ACTIVE", m)
            else
              (Ok request,
               mkMemory
                 (<[del_tenant request := mem_cases m (del_tenant request) ∖ {[decision]}]> (_cases m))
                 (<[key := request]> (_requests m)) (_idempotency m) (_holds m)
                 (events m ++ [event]))
        end
  end.

(** [add_case] *)
Definition add_case (tenant decision : string) (m : Memory) : Memory :=
  mkMemory (<[tenant := {[decision]} ∪ mem_cases m tenant]> (_cases m)) (_requests m)
    (_idempotency m) (_holds m) (events m).

#[export] Instance memory_repository : LifecycleRepository Memory := {
  case_exists tenant decision := gets (λ m, bool_decide (decision ∈ mem_cases m tenant));
  get_by_idempotency tenant actor key := λ m,
    match _idempotency m !! (tenant, actor, key) with
    | None => (Ok None, m)
    | Some id =>
        match _requests m !! (tenant, id) with
        | Some r => (Ok (Some r), m)
        | None => (raise KeyError id, m)
        end
    end;
  get_request tenant id := gets (λ m, _requests m !! (tenant, id));
  persist_transition := mem_persist_transition;
  active_hold tenant decision := gets (λ m, bool_decide ((tenant, decision) ∈ _holds m));
  set_hold tenant decision _ _ _ _ := mem_set_hold tenant decision;
  release_hold tenant decision _ _ := mem_release_hold tenant decision;
  last_event tenant id := gets (mem_last_event tenant id);
  last_hold_event tenant hold_id := gets (mem_last_event tenant hold_id);
  complete_deletion := mem_complete_deletion
}.
