(* ===== verification/RetentionProps.v ===== *)
(** * Properties of deletion and legal holds

    The invariant of the in-memory repository under every sequence of service calls, and what
    it gives: held cases are kept, deletions complete and forget the decision, replays are
    idempotent, and every request has a hash chain of its own. *)

From S2P Require Import Prelude PyVal Json Sha256 Identity Retention.
From stdpp Require Import options.

(** ** The events of one request *)

(** The events of one request or hold, in the order they were recorded. *)
Definition events_of (tenant id : string) (m : Memory) : list LifecycleEvent :=
  filter (λ e, le_tenant e = tenant ∧ le_request e = id) (events m).

Lemma events_of_snoc tenant id m m' e :
  events m' = events m ++ [e] →
  events_of tenant id m' =
    events_of tenant id m ++ (if decide (le_tenant e = tenant ∧ le_request e = id) then [e] else []).
Proof. intros E. unfold events_of. rewrite E, filter_app. cbn. by case_decide. Qed.

Lemma find_rev_last {A} (f : A → bool) (P : A → Prop) `{∀ x, Decision (P x)} l :
  (∀ x, f x = true ↔ P x) → List.find f (rev l) = last (filter P l).
Proof.
  intros HfP. induction l as [|x l IH] using rev_ind; [done|].
  rewrite rev_app_distr, filter_app. cbn [rev app List.find]. destruct (f x) eqn:E.
  - apply HfP in E. rewrite filter_cons_True, filter_nil by done. by rewrite last_snoc.
  - rewrite filter_cons_False, filter_nil, app_nil_r by (rewrite <-HfP; congruence). done.
Qed.

Lemma mem_last_event_last tenant id m : mem_last_event tenant id m = last (events_of tenant id m).
Proof.
  unfold mem_last_event. apply find_rev_last. intros e.
  by rewrite andb_true_iff, !String.eqb_eq.
Qed.

Section props.
Context `{HashAlg} `{Hmac} (secret : string).

(** What [_event] and [_hold_event] compute: the hash of an event covers its content. *)
Definition sealed (e : LifecycleEvent) : Prop :=
  e = build_event (le_tenant e) (le_request e) (le_case_hash e) (le_type e) (le_reason e)
        (le_correlation e) (le_actor e) (le_occurred_at e)
        ((λ h, mkLifecycleEvent "" "" "" "" "" "" "" "" "" h None) <$> le_previous e).

Fixpoint linked (previous : option string) (l : list LifecycleEvent) : Prop :=
  match l with
  | [] => True
  | e :: l => le_previous e = previous ∧ sealed e ∧ linked (Some (le_hash e)) l
  end.

Lemma linked_snoc previous l e :
  linked previous l → sealed e →
  le_previous e = (match last l with Some p => Some (le_hash p) | None => previous end) →
  linked previous (l ++ [e]).
Proof.
  revert previous. induction l as [|x l IH]; intros previous Hl Hs He; cbn; [done|].
  destruct Hl as (? & ? & Hl). split_and!; try done. apply IH; try done.
  rewrite He, last_cons. by destruct (last l).
Qed.

Lemma build_event_sealed tenant id c ty rs co ac at_ prior :
  sealed (build_event tenant id c ty rs co ac at_ prior).
Proof. unfold sealed, build_event. by destruct prior. Qed.

(** ** The invariant *)

Definition is_delete_id (id : string) : Prop := ∃ x, id = "delete-" +:+ x.

Lemma hold_id_not_delete tenant decision : ¬ is_delete_id (hold_id_of tenant decision).
Proof. intros [x E]. discriminate E. Qed.

Record request_ok (m : Memory) (tenant id : string) (r : DeletionRequest) : Prop := {
  ok_key : del_tenant r = tenant ∧ request_id r = id ∧ is_delete_id id;
  ok_completed : del_status r = COMPLETED ↔ del_decision r = None;
  ok_event : le_hash <$> mem_last_event tenant id m = Some (event_hash r);
  ok_index : _idempotency m !! (tenant, actor_hash r, idempotency_key_hash r) = Some id
}.

Record memory_ok (m : Memory) : Prop := {
  requests_ok : ∀ tenant id r, _requests m !! (tenant, id) = Some r → request_ok m tenant id r;
  unused_ok : ∀ tenant id, is_delete_id id → _requests m !! (tenant, id) = None →
    mem_last_event tenant id m = None;
  index_ok : ∀ tenant a k id, _idempotency m !! (tenant, a, k) = Some id →
    ∃ r, _requests m !! (tenant, id) = Some r ∧ actor_hash r = a ∧ idempotency_key_hash r = k;
  chains_ok : ∀ tenant id, linked None (events_of tenant id m)
}.

(** The event continues the chain of its request. *)
Definition continues (m : Memory) (e : LifecycleEvent) : Prop :=
  sealed e ∧ le_previous e = le_hash <$> mem_last_event (le_tenant e) (le_request e) m.

Lemma continues_build m tenant id c ty rs co ac at_ :
  continues m (build_event tenant id c ty rs co ac at_ (mem_last_event tenant id m)).
Proof. split; [apply build_event_sealed|done]. Qed.

Lemma linked_continues m m' e :
  (∀ tenant id, linked None (events_of tenant id m)) → continues m e →
  events m' = events m ++ [e] → ∀ tenant id, linked None (events_of tenant id m').
Proof.
  intros Hl [Hs Hp] E tenant id. rewrite (events_of_snoc _ _ _ _ _ E).
  case_decide as Hd; [|by rewrite app_nil_r]. destruct Hd as [<- <-].
  apply linked_snoc; [done..|]. rewrite Hp, mem_last_event_last. by destruct (last _).
Qed.

Lemma mem_last_event_snoc m m' e tenant id :
  events m' = events m ++ [e] →
  mem_last_event tenant id m' =
    if decide (le_tenant e = tenant ∧ le_request e = id) then Some e else mem_last_event tenant id m.
Proof.
  intros E. rewrite !mem_last_event_last, (events_of_snoc _ _ _ _ _ E).
  case_decide; [by rewrite last_snoc|by rewrite app_nil_r].
Qed.

(** Storing a request under its identifier, with an event that continues its chain. *)
Lemma store_request_ok m r e :
  memory_ok m → continues m e → is_delete_id (request_id r) →
  le_tenant e = del_tenant r → le_request e = request_id r → event_hash r = le_hash e →
  (del_status r = COMPLETED ↔ del_decision r = None) →
  (∀ r0, _requests m !! (del_tenant r, request_id r) = Some r0 →
     actor_hash r0 = actor_hash r ∧ idempotency_key_hash r0 = idempotency_key_hash r) →
  (_requests m !! (del_tenant r, request_id r) = None →
     _idempotency m !! (del_tenant r, actor_hash r, idempotency_key_hash r) = None) →
  memory_ok (store_request r e m).
Proof.
  intros [Hr Hu Hi Hc] He Hid Ht Hrq Hh Hs Hold Hnew. split.
  - intros tenant id r' Hl. cbn in Hl.
    destruct (decide ((del_tenant r, request_id r) = (tenant, id))) as [E|E].
    + rewrite E, lookup_insert_eq in Hl. injection Hl as <-. injection E as <- <-. split; try done.
      * rewrite (mem_last_event_snoc m _ e) by done. rewrite decide_True by (by rewrite Ht, Hrq).
        cbn. by rewrite Hh.
      * cbn. by rewrite lookup_insert_eq.
    + rewrite lookup_insert_ne in Hl by done. destruct (Hr _ _ _ Hl) as [H1 H2 H3 H4]. split; try done.
      * rewrite (mem_last_event_snoc m _ e) by done. rewrite decide_False; [done|].
        intros [E1 E2]. apply E. congruence.
      * cbn. destruct (decide ((del_tenant r, actor_hash r, idempotency_key_hash r) =
          (tenant, actor_hash r', idempotency_key_hash r'))) as [E'|E'];
          [|by rewrite lookup_insert_ne].
        destruct (Hi _ _ _ _ H4) as (r1 & Hr1 & _ & _). injection E' as E1 E2 E3.
        destruct (_requests m !! (del_tenant r, request_id r)) as [r0|] eqn:E0.
        -- destruct (Hold _ eq_refl) as [Ha Hk]. destruct (Hr _ _ _ E0) as [_ _ _ Hx].
           rewrite Ha, Hk, E1, E2, E3, H4 in Hx. injection Hx as Hx. congruence.
        -- rewrite E1, E2, E3 in Hnew. rewrite Hnew in H4; done.
  - intros tenant id Hd Hl. cbn in Hl. apply lookup_insert_None in Hl as [Hl Hne].
    rewrite (mem_last_event_snoc m _ e) by done. rewrite decide_False; [by apply Hu|].
    intros [E1 E2]. apply Hne. congruence.
  - intros tenant a k id Hl. cbn in *.
    destruct (decide ((del_tenant r, actor_hash r, idempotency_key_hash r) = (tenant, a, k))) as [E|E].
    + rewrite E, lookup_insert_eq in Hl. injection Hl as <-. injection E as <- <- <-.
      rewrite lookup_insert_eq. by exists r.
    + rewrite lookup_insert_ne in Hl by done. destruct (Hi _ _ _ _ Hl) as (r1 & Hr1 & Ha & Hk).
      destruct (decide ((del_tenant r, request_id r) = (tenant, id))) as [E'|E'].
      * injection E' as E1 E2. subst. rewrite lookup_insert_eq. exists r.
        destruct (Hold _ Hr1). split_and!; congruence.
      * rewrite lookup_insert_ne by done. by exists r1.
  - by eapply linked_continues.
Qed.

(** Any other change: the requests and their index stay, and the event, if one is recorded,
    belongs to a hold. *)
Lemma memory_ok_hold m m' e :
  memory_ok m → continues m e → ¬ is_delete_id (le_request e) →
  _requests m' = _requests m → _idempotency m' = _idempotency m → events m' = events m ++ [e] →
  memory_ok m'.
Proof.
  intros [Hr Hu Hi Hc] He Hh Er Ei Ee. split.
  - intros tenant id r Hl. rewrite Er in Hl. destruct (Hr _ _ _ Hl) as [H1 H2 H3 H4].
    split; try done; [|by rewrite Ei].
    rewrite (mem_last_event_snoc m _ e) by done. rewrite decide_False; [done|].
    intros [_ <-]. apply Hh, H1.
  - intros tenant id Hd Hl. rewrite Er in Hl.
    rewrite (mem_last_event_snoc m _ e) by done. rewrite decide_False; [by apply Hu|].
    by intros [_ <-].
  - intros tenant a k id. rewrite Ei, Er. apply Hi.
  - by eapply linked_continues.
Qed.

Lemma memory_ok_cases m cases :
  memory_ok m → memory_ok (mkMemory cases (_requests m) (_idempotency m) (_holds m) (events m)).
Proof. intros [Hr Hu Hi Hc]. split; try done. intros t i r Hl. by destruct (Hr t i r Hl). Qed.

Lemma memory_ok_empty cases holds : memory_ok (mkMemory cases ∅ ∅ holds []).
Proof. split; cbn; intros; simplify_map_eq; done. Qed.

(** ** The operations of the service on a correct repository *)

Definition tenant_of (i : Identity) : string := tenant_id (identity_tenant i).

(** The event [_event] builds in [m]. *)
Definition event_in (m : Memory) (r : DeletionRequest) (type : string) (i : Identity)
    (correlation at_ : string) : LifecycleEvent :=
  build_event (tenant_of i) (request_id r) (case_ref_hash r) type (reason_code r) correlation
    (actor_hash r) at_ (mem_last_event (tenant_of i) (request_id r) m).

(** The repository after a status change of a stored request. *)
Definition advance (m : Memory) (r : DeletionRequest) (type : string) (i : Identity)
    (correlation at_ : string) : DeletionRequest * Memory :=
  let e := event_in m r type i correlation at_ in
  (with_event r e, store_request (with_event r e) e m).

Lemma event_link m tenant id r :
  memory_ok m → _requests m !! (tenant, id) = Some r →
  le_hash <$> mem_last_event tenant id m = Some (event_hash r).
Proof. intros Hm Hl. by destruct (requests_ok m Hm _ _ _ Hl). Qed.

Lemma record_spec m r0 r type i correlation at_ :
  memory_ok m → _requests m !! (tenant_of i, request_id r) = Some r0 →
  del_tenant r = tenant_of i →
  _record r type i correlation at_ (Some (del_status r0)) m =
    (Ok (advance m r type i correlation at_).1, (advance m r type i correlation at_).2).
Proof.
  intros Hm Hl Ht. unfold _record, _event, mbind, stateful_bind, advance. cbn.
  unfold mem_persist_transition. cbn. rewrite Ht. fold (tenant_of i) (event_in m r type i correlation at_).
  rewrite Hl. rewrite bool_decide_true by done. rewrite bool_decide_true; [done|].
  by rewrite (event_link _ _ _ _ Hm Hl).
Qed.

Lemma advance_ok m r0 r type i correlation at_ :
  memory_ok m → _requests m !! (tenant_of i, request_id r) = Some r0 →
  del_tenant r = tenant_of i → actor_hash r0 = actor_hash r →
  idempotency_key_hash r0 = idempotency_key_hash r →
  (del_status r = COMPLETED ↔ del_decision r = None) →
  memory_ok (advance m r type i correlation at_).2.
Proof.
  intros Hm Hl Ht Ha Hk Hs. destruct (requests_ok m Hm _ _ _ Hl) as [(_ & _ & Hid) _ _ _].
  apply store_request_ok; cbn; rewrite ?Ht; try done; [apply continues_build| |];
    intros; simplify_eq; done.
Qed.

(** The repository after the completion of a deletion. *)
Definition finish (m : Memory) (r : DeletionRequest) (decision : string) (e : LifecycleEvent) : Memory :=
  mkMemory (<[del_tenant r := mem_cases m (del_tenant r) ∖ {[decision]}]> (_cases m))
    (<[(del_tenant r, request_id r) := r]> (_requests m)) (_idempotency m) (_holds m)
    (events m ++ [e]).

Lemma finish_ok m r0 r decision e :
  memory_ok m → continues m e → _requests m !! (del_tenant r, request_id r) = Some r0 →
  le_tenant e = del_tenant r → le_request e = request_id r → event_hash r = le_hash e →
  actor_hash r0 = actor_hash r → idempotency_key_hash r0 = idempotency_key_hash r →
  (del_status r = COMPLETED ↔ del_decision r = None) → memory_ok (finish m r decision e).
Proof.
  intros Hm He Hl Ht Hr Hh Ha Hk Hs. destruct (requests_ok m Hm _ _ _ Hl) as [(_ & _ & Hid) _ _ Hi].
  assert (memory_ok (store_request r e m)) as Hsr
    by (apply store_request_ok; try done; intros; simplify_eq; done).
  apply (memory_ok_cases _ (_cases (finish m r decision e))) in Hsr.
  unfold store_request in Hsr. cbn in Hsr. rewrite (insert_id (_idempotency m)) in Hsr by congruence. exact Hsr.
Qed.

(** The completion of the request [r] about [decision] in [m], as [execute_deletion] runs it. *)
Definition executed (m : Memory) (r : DeletionRequest) (decision : string) (i : Identity)
    (correlation : string) (clock : nat → string) : DeletionRequest * Memory :=
  let '(executing, m1) := advance m (with_status r EXECUTING false None false)
                            "data.deletion-executing" i correlation (clock 0) in
  let completed := with_status executing COMPLETED false (Some (clock 1)) true in
  let e := event_in m1 completed "data.deletion-completed" i correlation (clock 2) in
  (with_event completed e, finish m1 (with_event completed e) decision e).

Definition blocked (m : Memory) (r : DeletionRequest) (i : Identity) (correlation at_ : string) :
    DeletionRequest * Memory :=
  advance m (with_status r BLOCKED_BY_HOLD true None false) "data.deletion-blocked" i correlation at_.

Definition answer {A} (p : A * Memory) : result A * Memory := (Ok p.1, p.2).

Lemma complete_spec i m r0 r decision type correlation at_ :
  memory_ok m → _requests m !! (tenant_of i, request_id r) = Some r0 → del_status r0 = EXECUTING →
  del_decision r0 = Some decision → (tenant_of i, decision) ∉ _holds m → del_tenant r = tenant_of i →
  let e := event_in m r type i correlation at_ in
  mem_complete_deletion (with_event r e) e m = (Ok (with_event r e), finish m (with_event r e) decision e).
Proof.
  intros Hm Hl Hs Hd Hh Ht e. unfold mem_complete_deletion. cbn [del_tenant request_id with_event].
  rewrite Ht, Hl, (bool_decide_true (del_status r0 = _)) by done. cbn [negb]. rewrite Hd.
  rewrite (bool_decide_true (le_previous e = _)) by (by apply event_link). cbn [negb].
  rewrite bool_decide_false by done. unfold finish. cbn [del_tenant request_id with_event].
  by rewrite Ht.
Qed.

Lemma execute_spec m i id correlation clock r :
  memory_ok m → authorize i DATA_DELETE = Ok tt → _requests m !! (tenant_of i, id) = Some r →
  execute_deletion i id correlation clock m =
  match del_decision r with
  | None => (Ok r, m)
  | Some decision =>
      if bool_decide ((tenant_of i, decision) ∈ _holds m)
      then answer (blocked m r i correlation (clock 0))
      else answer (executed m r decision i correlation clock)
  end.
Proof.
  intros Hm Ha Hl. destruct (requests_ok m Hm _ _ _ Hl) as [(Ht & Hid & Hdel) Hs _ _].
  unfold execute_deletion. fold (tenant_of i).
  rewrite (stateful_run _ _ _ tt m) by (unfold lift; by rewrite Ha). cbv zeta.
  rewrite (stateful_run _ _ _ (Some r) m) by (cbn; by rewrite <-Hl).
  rewrite (stateful_run _ _ _ r m) by done.
  case_bool_decide as Hc; [by rewrite (proj1 Hs Hc)|].
  destruct (del_decision r) as [decision|] eqn:Hd; [|by destruct Hc; apply Hs].
  rewrite (stateful_run _ _ _ decision m) by done. rewrite <-Hid in Hl.
  rewrite (stateful_run _ _ _ (bool_decide ((tenant_of i, decision) ∈ _holds m)) m) by done.
  case_bool_decide as Hh; [by rewrite (record_spec m r) by done|].
  erewrite stateful_run by by apply record_spec.
  assert (memory_ok (advance m (with_status r EXECUTING false None false)
    "data.deletion-executing" i correlation (clock 0)).2) as Hm1
    by (apply (advance_ok m r); cbn; try done; by rewrite Hd).
  unfold answer. apply catch_Ok. erewrite stateful_run by done.
  apply (complete_spec i _ (advance m (with_status r EXECUTING false None false)
    "data.deletion-executing" i correlation (clock 0)).1); try done. cbn. by rewrite Ht, lookup_insert_eq.
Qed.

(** The key of a request and the replay a key finds. *)
Definition key_of (i : Identity) (key : string) : string * string * string :=
  (tenant_of i, _digest secret "actor" (tenant_of i) (identity_actor i),
   _digest secret "idempotency" (tenant_of i) key).

Lemma replay_spec m tenant a k :
  memory_ok m →
  get_by_idempotency tenant a k m =
    (Ok (match _idempotency m !! (tenant, a, k) with
         | Some id => _requests m !! (tenant, id) | None => None end), m).
Proof.
  intros Hm. cbn. destruct (_idempotency m !! _) as [id|] eqn:E; [|done].
  by destruct (index_ok m Hm _ _ _ _ E) as (r & -> & _ & _).
Qed.

(** A new request about [decision] in [m]. *)
Definition requested (m : Memory) (i : Identity) (decision reason key correlation : string)
    (clock : nat → string) : DeletionRequest * LifecycleEvent :=
  let '(tenant, a, k) := key_of i key in
  let hold := bool_decide ((tenant, decision) ∈ _holds m) in
  let r := mkDeletion tenant
    ("delete-" +:+ String.substring 0 24 (_plain_digest (tenant +:+ nul +:+ a +:+ nul +:+ k)))
    (Some decision) (_digest secret "case" tenant decision) a k
    (if hold then BLOCKED_BY_HOLD else REQUESTED) reason (clock 0) None hold "" None in
  let e := event_in m r "data.deletion-requested" i correlation (clock 1) in
  (with_event r e, e).

Lemma request_spec m i decision reason key correlation clock :
  memory_ok m → authorize i DATA_DELETE = Ok tt →
  request_deletion secret i decision reason key correlation clock m =
  match _idempotency m !! key_of i key with
  | Some id =>
      match _requests m !! (tenant_of i, id) with
      | Some r =>
          if (case_ref_hash r =? _digest secret "case" (tenant_of i) decision) &&
             (reason_code r =? reason)
          then (Ok r, m) else (raise LifecycleConflict "IDEMPOTENCY_KEY_REUSED", m)
      | None => (raise KeyError id, m)
      end
  | None =>
      if bool_decide (decision ∈ mem_cases m (tenant_of i)) then
        let '(r, e) := requested m i decision reason key correlation clock in
        match _requests m !! (tenant_of i, request_id r) with
        | Some _ => (raise LifecycleTransitionConflict "IDEMPOTENCY_KEY_REUSED", m)
        | None => (Ok r, store_request r e m)
        end
      else (raise LifecycleConflict "CASE_NOT_FOUND", m)
  end.
Proof.
  intros Hm Ha. unfold request_deletion. fold (tenant_of i).
  rewrite (stateful_run _ _ _ tt m) by (unfold lift; by rewrite Ha). cbv zeta.
  erewrite stateful_run by by apply replay_spec. change (tenant_of i, _, _) with (key_of i key).
  destruct (_idempotency m !! _) as [id|] eqn:Ei.
  - destruct (index_ok m Hm _ _ _ _ Ei) as (r & -> & _ & _).
    destruct (_ && _) eqn:E.
    + by rewrite (stateful_run _ _ _ tt m) by done.
    + by erewrite stateful_run_Raise by done.
  - erewrite stateful_run by done. case_bool_decide as Hc; [|by erewrite stateful_run_Raise by done].
    erewrite stateful_run by done. erewrite stateful_run by done. erewrite stateful_run by done.
    cbn [persist_transition memory_repository]. unfold mem_persist_transition. cbn [del_tenant request_id with_event].
    unfold requested, key_of. cbn [request_id with_event]. fold (tenant_of i).
    match goal with |- context [_requests m !! ?k] => destruct (_requests m !! k) as [r0|] eqn:El end.
    + destruct (_ && _) eqn:E; [|done]. exfalso.
      bool_prop. cbn in E. destruct E as [[[_ E1] E2] _].
      destruct (requests_ok m Hm _ _ _ El) as [_ _ _ Hi]. rewrite E1, E2 in Hi.
      unfold key_of in Ei. congruence.
    + rewrite bool_decide_true; [done|]. cbn. rewrite (unused_ok m Hm); [done|by eexists|exact El].
Qed.

(** ** Sequences of service calls *)

Inductive call :=
  | AddCase (tenant decision : string)
  | RequestDeletion (i : Identity) (decision reason key correlation : string) (clock : nat → string)
  | ExecuteDeletion (i : Identity) (id correlation : string) (clock : nat → string)
  | PlaceHold (i : Identity) (decision reason correlation : string) (clock : nat → string)
  | ReleaseHold (i : Identity) (decision correlation : string) (clock : nat → string).

(** The repository after a call, whether the call returns or raises. *)
Definition perform (m : Memory) (c : call) : Memory :=
  match c with
  | AddCase t d => add_case t d m
  | RequestDeletion i d rs k co clk => (request_deletion secret i d rs k co clk m).2
  | ExecuteDeletion i id co clk => (execute_deletion i id co clk m).2
  | PlaceHold i d rs co clk => (place_legal_hold secret i d rs co clk m).2
  | ReleaseHold i d co clk => (release_legal_hold secret i d co clk m).2
  end.

Definition perform_all (m : Memory) (calls : list call) : Memory := foldl perform m calls.

Lemma hold_event_spec m i d type rs co at_ :
  _hold_event secret i d (hold_id_of (tenant_of i) d) type rs co at_ m =
  (Ok (build_event (tenant_of i) (hold_id_of (tenant_of i) d) (_digest secret "case" (tenant_of i) d)
         type rs co (_digest secret "actor" (tenant_of i) (identity_actor i)) at_
         (mem_last_event (tenant_of i) (hold_id_of (tenant_of i) d) m)), m).
Proof. done. Qed.

Lemma place_hold_ok m i d rs co clk :
  memory_ok m → memory_ok (place_legal_hold secret i d rs co clk m).2.
Proof.
  intros Hm. unfold place_legal_hold, mbind, stateful_bind, lift, guard_with, lift.
  destruct (authorize _ _); [|done]. cbn -[_hold_event]. destruct (require _ _ _); [|done].
  fold (tenant_of i). rewrite hold_event_spec. unfold mem_set_hold. case_bool_decide; [done|].
  unfold hold_link. rewrite bool_decide_true by done. cbn [snd fst].
  eapply memory_ok_hold; [done|apply continues_build|apply hold_id_not_delete|done..].
Qed.

Lemma release_hold_ok m i d co clk :
  memory_ok m → memory_ok (release_legal_hold secret i d co clk m).2.
Proof.
  intros Hm. unfold release_legal_hold, mbind, stateful_bind, lift.
  destruct (authorize _ _); [|done]. cbn -[_hold_event].
  fold (tenant_of i). rewrite hold_event_spec. unfold mem_release_hold. case_bool_decide; [done|].
  unfold hold_link. rewrite bool_decide_true by done. cbn [snd fst].
  eapply memory_ok_hold; [done|apply continues_build|apply hold_id_not_delete|done..].
Qed.

Lemma denied {A} i p (f : unit → stateful Memory A) m :
  authorize i p ≠ Ok tt → ((lift (authorize i p) ≫= f) m).2 = m.
Proof. unfold mbind, stateful_bind, lift. by destruct (authorize i p) as [[]|]. Qed.

Lemma request_ok_step m i d rs k co clk :
  memory_ok m → memory_ok (request_deletion secret i d rs k co clk m).2.
Proof.
  intros Hm. destruct (decide (authorize i DATA_DELETE = Ok tt)) as [Ha|Ha];
    [|unfold request_deletion; by rewrite denied].
  rewrite request_spec by done. destruct (_idempotency m !! _) as [id|] eqn:Ei.
  { destruct (_requests m !! _); [|done]. by destruct (_ && _). }
  case_bool_decide; [|done]. destruct (requested _ _ _ _ _ _ _) as [r e] eqn:E.
  unfold requested, key_of in E. injection E as <- <-.
  destruct (_requests m !! _) as [r0|] eqn:El; [done|]. cbn in El.
  apply store_request_ok; cbn; try done; [apply continues_build|by eexists| |].
  - by case_bool_decide.
  - intros r0 Hr0. congruence.
Qed.

Lemma execute_ok m i id co clk :
  memory_ok m → memory_ok (execute_deletion i id co clk m).2.
Proof.
  intros Hm. destruct (decide (authorize i DATA_DELETE = Ok tt)) as [Ha|Ha];
    [|unfold execute_deletion; by rewrite denied].
  destruct (_requests m !! (tenant_of i, id)) as [r|] eqn:Hl.
  - rewrite (execute_spec m i id co clk r) by done.
    destruct (requests_ok m Hm _ _ _ Hl) as [(Ht & Hid & _) _ _ _]. rewrite <-Hid in Hl.
    destruct (del_decision r) as [d|] eqn:Hd; [|done]. case_bool_decide.
    + apply (advance_ok m r); cbn; try done. by rewrite Hd.
    + assert (memory_ok (advance m (with_status r EXECUTING false None false)
        "data.deletion-executing" i co (clk 0)).2) as Hm1
        by (apply (advance_ok m r); cbn; try done; by rewrite Hd).
      unfold executed, answer. cbn -[finish advance]. 
      eapply (finish_ok _ (advance m (with_status r EXECUTING false None false)
        "data.deletion-executing" i co (clk 0)).1); try done; [apply continues_build|].
      cbn. by rewrite Ht, lookup_insert_eq.
  - unfold execute_deletion. rewrite (stateful_run _ _ _ tt m) by (unfold lift; by rewrite Ha).
    fold (tenant_of i). cbv zeta. rewrite (stateful_run _ _ _ None m) by (cbn; by rewrite <-Hl). done.
Qed.

Lemma perform_all_ok m calls : memory_ok m → memory_ok (perform_all m calls).
Proof.
  revert m. induction calls as [|c calls IH]; intros m Hm; cbn; [done|]. apply IH.
  destruct c; cbn [perform];
    [apply memory_ok_cases, Hm|apply request_ok_step, Hm|apply execute_ok, Hm
    |apply place_hold_ok, Hm|apply release_hold_ok, Hm].
Qed.

(** ** What no call undoes *)

(** Keys keep their request and requests keep what they are about. *)
Definition extends (m m' : Memory) : Prop :=
  (∀ k id, _idempotency m !! k = Some id → _idempotency m' !! k = Some id) ∧
  ∀ k r, _requests m !! k = Some r → ∃ r', _requests m' !! k = Some r' ∧
    case_ref_hash r' = case_ref_hash r ∧ reason_code r' = reason_code r.

Lemma extends_same m m' :
  _idempotency m' = _idempotency m → _requests m' = _requests m → extends m m'.
Proof. intros Ei Er. split; rewrite ?Ei, ?Er; eauto. Qed.

Lemma extends_trans m1 m2 m3 : extends m1 m2 → extends m2 m3 → extends m1 m3.
Proof.
  intros [I1 R1] [I2 R2]. split; [auto|]. intros k r Hr.
  destruct (R1 _ _ Hr) as (r' & Hr' & E1 & E2). destruct (R2 _ _ Hr') as (r'' & ? & ? & ?).
  exists r''. split_and!; [done|congruence..].
Qed.

(** Replacing a request under the same key, or adding one under an unused key. *)
Lemma extends_store m m' r :
  memory_ok m →
  _requests m' = <[(del_tenant r, request_id r) := r]> (_requests m) →
  (_idempotency m' = <[(del_tenant r, actor_hash r, idempotency_key_hash r) := request_id r]> (_idempotency m)) →
  (match _requests m !! (del_tenant r, request_id r) with
   | Some r0 => actor_hash r0 = actor_hash r ∧ idempotency_key_hash r0 = idempotency_key_hash r ∧
                case_ref_hash r = case_ref_hash r0 ∧ reason_code r = reason_code r0
   | None => _idempotency m !! (del_tenant r, actor_hash r, idempotency_key_hash r) = None
   end) → extends m m'.
Proof.
  intros Hm Er Ei Hc. split.
  - intros k id Hk. rewrite Ei. destruct (decide (k = (del_tenant r, actor_hash r, idempotency_key_hash r)))
      as [->|Hne]; [|by rewrite lookup_insert_ne].
    rewrite lookup_insert_eq. destruct (_requests m !! (del_tenant r, request_id r)) as [r0|] eqn:El;
      [|congruence].
    destruct Hc as (Ha & Hy & _ & _). destruct (requests_ok m Hm _ _ _ El) as [_ _ _ Hi]. congruence.
  - intros k r1 Hr. rewrite Er. destruct (decide (k = (del_tenant r, request_id r))) as [->|Hne].
    + rewrite lookup_insert_eq. rewrite Hr in Hc. exists r. by destruct Hc as (_ & _ & ? & ?).
    + rewrite lookup_insert_ne by done. eauto.
Qed.

Lemma advance_extends m r0 r type i co at_ :
  memory_ok m → _requests m !! (tenant_of i, request_id r) = Some r0 → del_tenant r = tenant_of i →
  actor_hash r0 = actor_hash r → idempotency_key_hash r0 = idempotency_key_hash r →
  case_ref_hash r = case_ref_hash r0 → reason_code r = reason_code r0 →
  extends m (advance m r type i co at_).2.
Proof.
  intros Hm Hl Ht Ha Hk Hc Hr.
  apply (extends_store _ _ (advance m r type i co at_).1); [done..|]. cbn. by rewrite Ht, Hl.
Qed.

Lemma execute_extends m i id co clk :
  memory_ok m → extends m (execute_deletion i id co clk m).2.
Proof.
  intros Hm. destruct (decide (authorize i DATA_DELETE = Ok tt)) as [Ha|Ha];
    [|unfold execute_deletion; rewrite denied by done; by apply extends_same].
  destruct (_requests m !! (tenant_of i, id)) as [r|] eqn:Hl.
  - rewrite (execute_spec m i id co clk r) by done.
    destruct (requests_ok m Hm _ _ _ Hl) as [(Ht & Hid & _) _ _ _]. rewrite <-Hid in Hl.
    destruct (del_decision r) as [d|] eqn:Hd; [|by apply extends_same]. case_bool_decide.
    + by apply (advance_extends m r).
    + set (p := advance m (with_status r EXECUTING false None false) "data.deletion-executing" i co (clk 0)).
      assert (memory_ok p.2) as Hm1 by (apply (advance_ok m r); cbn; try done; by rewrite Hd).
      assert (_requests p.2 !! (del_tenant r, request_id r) = Some p.1) as Hp
        by (cbn; by rewrite lookup_insert_eq).
      apply (extends_trans _ p.2); [by apply (advance_extends m r)|].
      destruct (requests_ok _ Hm1 _ _ _ Hp) as [_ _ _ Hi].
      unfold executed, answer. fold p. rewrite (surjective_pairing p). cbn -[p].
      eapply extends_store; [done|done| |]; cbn -[p].
      * symmetry. apply insert_id. exact Hi.
      * change (_requests p.2 !! _) with (_requests p.2 !! (del_tenant r, request_id r)).
        by rewrite Hp.
  - unfold execute_deletion. rewrite (stateful_run _ _ _ tt m) by (unfold lift; by rewrite Ha).
    fold (tenant_of i). cbv zeta. rewrite (stateful_run _ _ _ None m) by (cbn; by rewrite <-Hl).
    by apply extends_same.
Qed.

Lemma request_extends m i d rs k co clk :
  memory_ok m → extends m (request_deletion secret i d rs k co clk m).2.
Proof.
  intros Hm. destruct (decide (authorize i DATA_DELETE = Ok tt)) as [Ha|Ha];
    [|unfold request_deletion; rewrite denied by done; by apply extends_same].
  rewrite request_spec by done. destruct (_idempotency m !! _) as [id|] eqn:Ei.
  { by destruct (_requests m !! _); [destruct (_ && _)|]; apply extends_same. }
  case_bool_decide; [|by apply extends_same]. destruct (requested _ _ _ _ _ _ _) as [r e] eqn:E.
  unfold requested, key_of in E. injection E as <- <-.
  destruct (_requests m !! _) as [r0|] eqn:El; [by apply extends_same|].
  eapply extends_store; [done..|]. cbn in *. by rewrite El.
Qed.

Lemma perform_extends m c : memory_ok m → extends m (perform m c).
Proof.
  intros Hm. destruct c; cbn [perform];
    [by apply extends_same|by apply request_extends|by apply execute_extends| |].
  - unfold place_legal_hold, mbind, stateful_bind, lift, guard_with, lift.
    destruct (authorize _ _); [|by apply extends_same]. cbn -[_hold_event].
    destruct (require _ _ _); [|by apply extends_same]. fold (tenant_of i).
    rewrite hold_event_spec. unfold mem_set_hold. case_bool_decide; [by apply extends_same|].
    by destruct (hold_link _ _ _); apply extends_same.
  - unfold release_legal_hold, mbind, stateful_bind, lift.
    destruct (authorize _ _); [|by apply extends_same]. cbn -[_hold_event]. fold (tenant_of i).
    rewrite hold_event_spec. unfold mem_release_hold. case_bool_decide; [by apply extends_same|].
    by destruct (hold_link _ _ _); apply extends_same.
Qed.

Lemma perform_all_extends m calls : memory_ok m → extends m (perform_all m calls).
Proof.
  revert m. induction calls as [|c calls IH]; intros m Hm; cbn; [by apply extends_same|].
  eapply extends_trans; [by apply perform_extends|]. apply IH.
  by apply (perform_all_ok m [c]).
Qed.

(** ** Legal holds under any interleaving *)

(** The atomic operations of the repository, with whatever arguments a concurrent caller gives. *)
Inductive repository_op :=
  | OpPersist (r : DeletionRequest) (e : LifecycleEvent) (expected : option DeletionStatus)
  | OpSetHold (tenant decision : string) (e : LifecycleEvent)
  | OpReleaseHold (tenant decision : string) (e : LifecycleEvent)
  | OpComplete (r : DeletionRequest) (e : LifecycleEvent).

Definition run_op (m : Memory) (op : repository_op) : Memory :=
  match op with
  | OpPersist r e expected => (mem_persist_transition r e expected m).2
  | OpSetHold t d e => (mem_set_hold t d e m).2
  | OpReleaseHold t d e => (mem_release_hold t d e m).2
  | OpComplete r e => (mem_complete_deletion r e m).2
  end.

(** A step of the program: a whole call, or one operation of a call in progress. *)
Definition step : Type := call + repository_op.
Definition run_step (m : Memory) (s : step) : Memory :=
  match s with inl c => perform m c | inr op => run_op m op end.

(** The step releases the hold on the case: the operation itself, or a call by an identity that
    may manage holds. *)
Definition releases (tenant decision : string) (s : step) : Prop :=
  match s with
  | inl (ReleaseHold i d _ _) =>
      tenant_of i = tenant ∧ d = decision ∧ authorize i LEGAL_HOLD_MANAGE = Ok tt
  | inr (OpReleaseHold t d _) => t = tenant ∧ d = decision
  | _ => False
  end.

Definition held (tenant decision : string) (m : Memory) : Prop :=
  (tenant, decision) ∈ _holds m ∧ decision ∈ mem_cases m tenant.

Definition keeps_hold (tenant decision : string) (m m' : Memory) : Prop :=
  held tenant decision m → held tenant decision m'.

#[local] Instance keeps_hold_preorder tenant decision : PreOrder (keeps_hold tenant decision).
Proof. split; unfold keeps_hold; [by intros ?|intros ???; auto]. Qed.

Lemma keeps_hold_same tenant decision m m' :
  _holds m' = _holds m → _cases m' = _cases m → keeps_hold tenant decision m m'.
Proof. unfold keeps_hold, held, mem_cases. by intros -> ->. Qed.

Lemma persist_keeps t d r e ex : always (keeps_hold t d) (mem_persist_transition r e ex).
Proof.
  intros m. unfold mem_persist_transition.
  repeat case_match; by apply keeps_hold_same.
Qed.

Lemma set_hold_keeps t d t' d' e : always (keeps_hold t d) (mem_set_hold t' d' e).
Proof.
  intros m. unfold mem_set_hold. case_bool_decide; [done|].
  destruct (hold_link _ _ _); [|done]. intros [Hh Hc]. split; [cbn; set_solver|done].
Qed.

Lemma release_hold_keeps t d t' d' e :
  (t', d') ≠ (t, d) → always (keeps_hold t d) (mem_release_hold t' d' e).
Proof.
  intros Hne m. unfold mem_release_hold. case_bool_decide; [done|].
  destruct (hold_link _ _ _); [|done]. intros [Hh Hc]. split; [cbn; set_solver|done].
Qed.

Lemma complete_keeps t d r e : always (keeps_hold t d) (mem_complete_deletion r e).
Proof.
  intros m. unfold mem_complete_deletion. destruct (_requests m !! _) as [r0|]; [|done].
  destruct (negb _); [by case_match|]. destruct (del_decision r0) as [d'|]; [|done].
  destruct (negb _); [done|]. case_bool_decide as Hd; [done|]. intros [Hh Hc]. split; [done|].
  unfold mem_cases in *. cbn. destruct (decide (del_tenant r = t)) as [<-|Hne].
  - rewrite lookup_insert_eq. cbn. apply elem_of_difference. split; [done|].
    rewrite elem_of_singleton. by intros ->.
  - by rewrite lookup_insert_ne.
Qed.

Lemma get_keeps t d {A} (f : stateful Memory A) : (∀ m, (f m).2 = m) → always (keeps_hold t d) f.
Proof. intros E m. by rewrite E. Qed.

Lemma replay_keeps t d t' a k : always (keeps_hold t d) (get_by_idempotency t' a k).
Proof. apply get_keeps. intros m. cbn. by repeat case_match. Qed.

#[local] Hint Resolve persist_keeps set_hold_keeps release_hold_keeps complete_keeps replay_keeps : always.

Lemma hold_event_keeps t d i d' id ty rs co at_ :
  always (keeps_hold t d) (_hold_event secret i d' id ty rs co at_).
Proof. unfold _hold_event. cbn. always_steps. Qed.

Lemma record_keeps t d r ty i co at_ ex : always (keeps_hold t d) (_record r ty i co at_ ex).
Proof. unfold _record, _event. cbn. always_steps. Qed.

#[local] Hint Resolve hold_event_keeps record_keeps : always.

Lemma request_keeps t d i d' rs k co clk :
  always (keeps_hold t d) (request_deletion secret i d' rs k co clk).
Proof. unfold request_deletion, _event. cbn -[get_by_idempotency]. always_steps. Qed.

Lemma execute_keeps t d i id co clk : always (keeps_hold t d) (execute_deletion i id co clk).
Proof. unfold execute_deletion, _event. cbn -[_record]. always_steps. Qed.

Lemma place_keeps t d i d' rs co clk :
  always (keeps_hold t d) (place_legal_hold secret i d' rs co clk).
Proof. unfold place_legal_hold. cbn -[_hold_event]. always_steps. Qed.

Lemma release_keeps t d i d' co clk :
  ¬ releases t d (inl (ReleaseHold i d' co clk)) →
  always (keeps_hold t d) (release_legal_hold secret i d' co clk).
Proof.
  intros Hr. cbn in Hr. destruct (decide (authorize i LEGAL_HOLD_MANAGE = Ok tt)) as [Ha|Ha].
  - unfold release_legal_hold. cbn -[_hold_event]. always_steps. apply release_hold_keeps.
    intros [= E1 E2]. by apply Hr.
  - apply get_keeps. intros m. unfold release_legal_hold. by rewrite denied.
Qed.

Lemma step_keeps t d s m : ¬ releases t d s → keeps_hold t d m (run_step m s).
Proof.
  intros Hs. destruct s as [[t' d'|i d' rs k co clk|i id co clk|i d' rs co clk|i d' co clk]|op];
    cbn [run_step perform].
  - intros [Hh Hc]. split; [done|]. unfold mem_cases, add_case in *. cbn.
    destruct (decide (t' = t)) as [->|]; [rewrite lookup_insert_eq; cbn; set_solver|].
    by rewrite lookup_insert_ne.
  - apply request_keeps.
  - apply execute_keeps.
  - apply place_keeps.
  - by apply release_keeps.
  - destruct op; cbn [run_op]; [apply persist_keeps|apply set_hold_keeps| |apply complete_keeps].
    apply release_hold_keeps. intros [= -> ->]. by apply Hs.
Qed.

Definition run_steps (m : Memory) (steps : list step) : Memory := foldl run_step m steps.

Lemma steps_keep t d steps m :
  Forall (λ s, ¬ releases t d s) steps → keeps_hold t d m (run_steps m steps).
Proof.
  intros Hs. revert m. induction Hs as [|s steps Hr Hs IH]; intros m; cbn; [done|].
  etrans; [by apply step_keeps|]. apply IH.
Qed.

(** ** The properties *)

(** C8: a case under legal hold is never deleted: whatever calls are made and however their
    repository operations interleave, as long as nobody who may manage holds releases the hold
    on the case, the hold stays and the case stays. *)
Theorem held_case_is_kept m steps tenant decision :
  (tenant, decision) ∈ _holds m → decision ∈ mem_cases m tenant →
  Forall (λ s, ¬ releases tenant decision s) steps →
  (tenant, decision) ∈ _holds (run_steps m steps) ∧
  decision ∈ mem_cases (run_steps m steps) tenant.
Proof. intros Hh Hc Hs. by apply (steps_keep tenant decision steps m Hs). Qed.

(** A repository the service has reached from one that only knows cases. *)
Definition reachable (m : Memory) : Prop :=
  ∃ cases calls, m = perform_all (mkMemory cases ∅ ∅ ∅ []) calls.

Lemma reachable_ok m : reachable m → memory_ok m.
Proof. intros (cases & calls & ->). apply perform_all_ok, memory_ok_empty. Qed.

(** C13: executing a deletion does what it promises: a completed request is returned as it is;
    under a hold the request is blocked, one event is recorded and no case is touched; without
    one the case, and only that case, is removed, the request is completed, no longer names
    the decision, and exactly the two events of the execution are recorded; executing it again
    changes nothing and returns the same request. *)
Theorem deletion_executes m i id correlation clock r :
  reachable m → authorize i DATA_DELETE = Ok tt → _requests m !! (tenant_of i, id) = Some r →
  (del_status r = COMPLETED → execute_deletion i id correlation clock m = (Ok r, m)) ∧
  (del_status r ≠ COMPLETED → ∃ decision r' m',
     del_decision r = Some decision ∧
     execute_deletion i id correlation clock m = (Ok r', m') ∧
     _requests m' = <[(tenant_of i, id) := r']> (_requests m) ∧ _holds m' = _holds m ∧
     ((tenant_of i, decision) ∈ _holds m →
        del_status r' = BLOCKED_BY_HOLD ∧ del_decision r' = Some decision ∧ _cases m' = _cases m ∧
        le_type <$> events m' = (le_type <$> events m) ++ ["data.deletion-blocked"]) ∧
     ((tenant_of i, decision) ∉ _holds m →
        del_status r' = COMPLETED ∧ del_decision r' = None ∧ completed_at r' = Some (clock 1) ∧
        mem_cases m' (tenant_of i) = mem_cases m (tenant_of i) ∖ {[decision]} ∧
        (∀ t, t ≠ tenant_of i → mem_cases m' t = mem_cases m t) ∧
        le_type <$> events m' =
          (le_type <$> events m) ++ ["data.deletion-executing"; "data.deletion-completed"] ∧
        execute_deletion i id correlation clock m' = (Ok r', m'))).
Proof.
  intros Hm Ha Hl. apply reachable_ok in Hm.
  destruct (requests_ok m Hm _ _ _ Hl) as [(Ht & Hid & _) Hs _ _].
  rewrite (execute_spec m i id _ _ r) by done.
  split; [by intros ->%Hs|]. intros Hc.
  destruct (del_decision r) as [decision|] eqn:Hd; [|by destruct Hc; apply Hs].
  assert (memory_ok (execute_deletion i id correlation clock m).2) as Hm' by by apply execute_ok.
  rewrite (execute_spec m i id _ _ r), Hd in Hm' by done.
  case_bool_decide as Hh; eexists decision, _, _; (split; [done|]); (split; [reflexivity|]).
  - cbn. rewrite Ht, Hid, fmap_app, Hd. split_and!; done.
  - cbn -[executed] in Hm'. cbn. rewrite Ht, Hid, insert_insert_eq, !fmap_app, <-(assoc_L (++)).
    split_and!; [done..|]. intros _. split_and!; try done.
    + unfold mem_cases. cbn. by rewrite ?Ht, lookup_insert_eq.
    + intros t Hne. unfold mem_cases. cbn. rewrite ?Ht. by rewrite lookup_insert_ne.
    + rewrite (execute_spec _ i id _ _ (executed m r decision i correlation clock).1); try done.
      cbn. by rewrite Ht, Hid, lookup_insert_eq.
Qed.

(** Requests for deletion are idempotent: after a successful request, whatever calls
    follow, the same identity repeating its key gets the same request back and changes
    nothing, and reusing the key for another reason, or for a case whose reference digest
    differs, is refused and changes nothing. *)
Theorem deletion_request_replay m i decision reason key correlation clock r calls correlation' clock' :
  reachable m →
  (request_deletion secret i decision reason key correlation clock m).1 = Ok r →
  let m' := perform_all (request_deletion secret i decision reason key correlation clock m).2 calls in
  (∃ r', request_deletion secret i decision reason key correlation' clock' m' = (Ok r', m') ∧
     request_id r' = request_id r ∧ case_ref_hash r' = case_ref_hash r) ∧
  ∀ decision' reason',
    reason' ≠ reason ∨
    _digest secret "case" (tenant_of i) decision' ≠ _digest secret "case" (tenant_of i) decision →
    request_deletion secret i decision' reason' key correlation' clock' m' =
      (raise LifecycleConflict "IDEMPOTENCY_KEY_REUSED", m').
Proof.
  intros Hm Hr m'. apply reachable_ok in Hm.
  pose proof (request_ok_step m i decision reason key correlation clock Hm) as Hm1.
  assert (authorize i DATA_DELETE = Ok tt) as Ha.
  { unfold request_deletion, mbind, stateful_bind, lift in Hr.
    by destruct (authorize i DATA_DELETE) as [[]|]. }
  assert (∃ id r1, _idempotency (request_deletion secret i decision reason key correlation clock m).2
             !! key_of i key = Some id ∧
           _requests (request_deletion secret i decision reason key correlation clock m).2
             !! (tenant_of i, id) = Some r1 ∧ request_id r = id ∧ case_ref_hash r1 = case_ref_hash r ∧
           case_ref_hash r = _digest secret "case" (tenant_of i) decision ∧ reason_code r1 = reason)
    as (id & r1 & Hi & Hr1 & Hid & Hc1 & Hc & Hre).
  { rewrite request_spec in Hr |- * by done. destruct (_idempotency m !! _) as [id|] eqn:Ei.
    - destruct (_requests m !! _) as [r1|] eqn:Er; [|done].
      destruct (_ && _) eqn:E; [|done]. bool_prop. destruct E as [E1 E2]. cbn in Hr. simplify_eq.
      exists id, r. destruct (requests_ok m Hm _ _ _ Er) as [(_ & ? & _) _ _ _]. done.
    - case_bool_decide; [|done]. destruct (requested _ _ _ _ _ _ _) as [r1 e] eqn:E.
      unfold requested, key_of in E. injection E as <- <-.
      destruct (_requests m !! _) as [r0|] eqn:El; [done|]. cbn in Hr. simplify_eq. cbn.
      eexists _, _. rewrite !lookup_insert_eq. done. }
  destruct (perform_all_extends _ calls Hm1) as [Ei Er]. fold m' in Ei, Er.
  assert (memory_ok m') as Hm' by by apply perform_all_ok.
  apply Ei in Hi. destruct (Er _ _ Hr1) as (r2 & Hr2 & Hc2 & Hre2).
  setoid_rewrite request_spec; [|done..]. rewrite Hi, Hr2. 
  destruct (requests_ok _ Hm' _ _ _ Hr2) as [(_ & Hid2 & _) _ _ _]. split.
  - exists r2. rewrite (proj2 (String.eqb_eq _ _)) by congruence.
    rewrite (proj2 (String.eqb_eq _ _)) by congruence. split_and!; [done|congruence..].
  - intros decision' reason' Hne. destruct (_ && _) eqn:E; [|done]. bool_prop.
    destruct E as [E1 E2], Hne; congruence.
Qed.

(** In every repository the service reaches, the events of each deletion request and of each
    hold form a hash chain of their own: the first has no predecessor, each next one names the
    hash of the one before it, and every hash is the digest of the event's canonical content;
    and a stored request carries the hash of its latest event. *)
Theorem lifecycle_chains m tenant id :
  reachable m →
  linked None (events_of tenant id m) ∧
  ∀ r, _requests m !! (tenant, id) = Some r →
    ∃ e, last (events_of tenant id m) = Some e ∧ event_hash r = le_hash e ∧
      request_id r = id ∧ del_tenant r = tenant ∧ (del_status r = COMPLETED ↔ del_decision r = None).
Proof.
  intros Hm%reachable_ok. split; [apply Hm|]. intros r Hr.
  destruct (requests_ok m Hm _ _ _ Hr) as [(? & ? & _) ? He _]. rewrite mem_last_event_last in He.
  destruct (last _) as [e|]; [|done]. injection He as He. by exists e.
Qed.
End props.

(** ** Witnesses: one case, one administrator *)

Definition constant_hmac : Hmac := λ _ _, "00".
Definition sample_admin : Identity :=
  mkIdentity "admin" sample_tenant TENANT_ADMIN HUMAN None [] {[TENANT_ADMIN]} None [].
Definition ticks : nat → string := pretty.
Definition cases_only : Memory := mkMemory {["t1" := {["d1"]}]} ∅ ∅ ∅ [].
Definition sample_calls : list call :=
  [RequestDeletion sample_admin "d1" "PILOT_END" "k1" "c1" ticks].
Definition after (calls : list call) : Memory :=
  perform_all (H := constant_alg) (H0 := constant_hmac) "s" cases_only calls.
Definition sample_held : Memory := after [PlaceHold sample_admin "d1" "LITIGATION" "c0" ticks].
Definition sample_request_id : string := "delete-00".

Lemma held_case_is_kept_witness :
  let steps := [inl (RequestDeletion sample_admin "d1" "PILOT_END" "k1" "c1" ticks);
                inl (ExecuteDeletion sample_admin sample_request_id "c2" ticks)] : list step in
  ("t1", "d1") ∈ _holds (run_steps (H := constant_alg) (H0 := constant_hmac) "s" sample_held steps) ∧
  "d1" ∈ mem_cases (run_steps (H := constant_alg) (H0 := constant_hmac) "s" sample_held steps) "t1".
Proof.
  cbv zeta. apply (held_case_is_kept (H := constant_alg) (H0 := constant_hmac)).
  - apply (bool_decide_unpack _). vm_compute. exact I.
  - apply (bool_decide_unpack _). vm_compute. exact I.
  - repeat constructor; intros [].
Defined.

Lemma deletion_executes_witness :
  ∃ r' m', execute_deletion (H := constant_alg) sample_admin sample_request_id "c2" ticks
             (after sample_calls) = (Ok r', m') ∧ del_status r' = COMPLETED ∧ del_decision r' = None.
Proof.
  assert (∃ r, _requests (after sample_calls) !! ("t1", sample_request_id) = Some r ∧
    bool_decide (del_status r = REQUESTED) && bool_decide (("t1", "d1") ∉ _holds (after sample_calls)) &&
    bool_decide (del_decision r = Some "d1") = true) as (r & Hr & E)
    by (eexists; split; [vm_compute; reflexivity|vm_compute; reflexivity]).
  rewrite !andb_true_iff, !bool_decide_eq_true in E. destruct E as [[Hs Hh] Hd].
  assert (reachable (H := constant_alg) (H0 := constant_hmac) "s" (after sample_calls)) as Hreach
    by (exists {["t1" := {["d1"]}]}, sample_calls; reflexivity).
  assert (authorize sample_admin DATA_DELETE = Ok tt) as Ha by (vm_compute; reflexivity).
  destruct (deletion_executes (H := constant_alg) (H0 := constant_hmac) "s" (after sample_calls)
    sample_admin sample_request_id "c2" ticks r Hreach Ha Hr) as [_ Hx].
  destruct Hx as (d & r' & m' & Hd' & Hx & _ & _ & _ & Hf); [rewrite Hs; discriminate|].
  exists r', m'. split; [exact Hx|]. destruct Hf as (Hf1 & Hf2 & _).
  - rewrite Hd in Hd'. injection Hd' as <-. exact Hh.
  - split; [exact Hf1|exact Hf2].
Defined.

Lemma deletion_request_replay_witness :
  ∃ r, (request_deletion (H := constant_alg) (H0 := constant_hmac) "s" sample_admin "d1" "PILOT_END"
          "k1" "c1" ticks cases_only).1 = Ok r ∧
    request_deletion (H := constant_alg) (H0 := constant_hmac) "s" sample_admin "d1" "OTHER" "k1" "c3"
      ticks (after (sample_calls ++ [ExecuteDeletion sample_admin sample_request_id "c2" ticks])) =
    (raise LifecycleConflict "IDEMPOTENCY_KEY_REUSED",
     after (sample_calls ++ [ExecuteDeletion sample_admin sample_request_id "c2" ticks])).
Proof.
  destruct (succeeds_with_Ok (request_deletion (H := constant_alg) (H0 := constant_hmac) "s"
    sample_admin "d1" "PILOT_END" "k1" "c1" ticks cases_only).1 (λ _, true)) as (r & E & _);
    [vm_compute; reflexivity|].
  exists r. split; [exact E|].
  destruct (deletion_request_replay (H := constant_alg) (H0 := constant_hmac) "s" cases_only
    sample_admin "d1" "PILOT_END" "k1" "c1" ticks r
    [ExecuteDeletion sample_admin sample_request_id "c2" ticks] "c3" ticks) as [_ Hx].
  - exists {["t1" := {["d1"]}]}, []. reflexivity.
  - exact E.
  - apply Hx. left. discriminate.
Defined.

Lemma lifecycle_chains_witness :
  linked (H := constant_alg) None (events_of "t1" sample_request_id (after sample_calls)) ∧
  length (events_of "t1" sample_request_id (after sample_calls)) = 1.
Proof.
  split; [|vm_compute; reflexivity].
  apply (lifecycle_chains (H := constant_alg) (H0 := constant_hmac) "s").
  exists {["t1" := {["d1"]}]}, sample_calls. reflexivity.
Defined.
