(* ===== verification/LifecycleTables.v ===== *)
(** * The deletion repository in PostgreSQL

    [lifecycle/postgresql.py] over the tables of [migrations/postgresql/001], [002] and [003]:
    the second instance of the class [LifecycleRepository]. Every method runs in the transaction
    of its connection, so an exception takes back what it wrote; the advisory locks on the request
    and on the case make the methods on one case follow one another. Every statement names the
    tenant of its connection, as row level security requires. Texts have no NUL character, which
    PostgreSQL refuses. *)

From S2P Require Import Prelude PyVal Sql Identity Retention.
From stdpp Require Import options.

(** ** The constraints of the migrations *)

Definition unique (t : string) (cs : list string) : Key := mkKey t cs None.
Definition references (t : string) (cs : list string) (p : string) (pcs : list string) : ForeignKey :=
  mkForeignKey t cs p pcs.

(** The tables a research run owns, with the column that completes their key. *)
Definition run_tables : list (string * string) :=
  [("research_source_candidates", "source_id"); ("research_source_snapshots", "snapshot_id");
   ("research_evidence_candidates", "evidence_id"); ("research_attempts", "attempt_id");
   ("research_audit_events", "event_id")].
Definition run_key : list string := ["tenant_id"; "research_run_id"].
Definition answer_key : list string := ["tenant_id"; "actor_id"; "operation"; "idempotency_key"].

Definition schema_keys : list Key :=
  [unique "decisions" ["tenant_id"; "decision_id"]; unique "reports" ["tenant_id"; "decision_id"];
   unique "audit_events" ["tenant_id"; "decision_id"; "event_id"]; unique "idempotency" answer_key;
   unique "intake_records" ["tenant_id"; "intake_id"];
   unique "intake_facts" ["tenant_id"; "intake_id"; "fact_id"];
   unique "intake_confirmations" ["tenant_id"; "intake_id"; "confirmation_id"];
   unique "intake_audit_events" ["tenant_id"; "intake_id"; "event_id"];
   unique "intake_audit_events" ["tenant_id"; "intake_id"; "sequence"];
   unique "intake_idempotency" answer_key;
   unique "research_runs" run_key; unique "research_runs" ["tenant_id"; "semantic_fingerprint"]] ++
  map (λ t, unique t.1 (run_key ++ [t.2])) run_tables ++
  [unique "research_source_snapshots" (run_key ++ ["content_hash"]);
   unique "research_evidence_candidates" (run_key ++ ["content_hash"]);
   unique "research_audit_events" (run_key ++ ["sequence"]);
   unique "research_idempotency" answer_key; unique "research_budget_usage" run_key;
   unique "research_handoffs" (run_key ++ ["decision_file_id"; "handoff_id"]);
   unique "research_jobs" ["tenant_id"; "job_id"]; unique "research_jobs" run_key;
   unique "research_job_events" ["tenant_id"; "job_id"; "event_id"];
   unique "research_job_events" ["tenant_id"; "job_id"; "sequence"];
   unique "tenant_runtime_limits" ["tenant_id"]; unique "tenant_retention_policies" ["tenant_id"];
   unique "legal_holds" ["tenant_id"; "decision_id"; "hold_id"];
   mkKey "legal_holds" ["tenant_id"; "decision_id"] (Some "active");
   unique "legal_hold_audit_events" ["tenant_id"; "event_id"];
   unique "deletion_requests" ["tenant_id"; "request_id"];
   unique "deletion_requests" ["tenant_id"; "actor_hash"; "idempotency_key_hash"];
   unique "lifecycle_audit_events" ["tenant_id"; "event_id"]].

Definition of_decision (t : string) : ForeignKey :=
  references t ["tenant_id"; "decision_id"] "decisions" ["tenant_id"; "decision_id"].
Definition of_intake (t : string) : ForeignKey :=
  references t ["tenant_id"; "intake_id"] "intake_records" ["tenant_id"; "intake_id"].
Definition of_run (t : string) : ForeignKey := references t run_key "research_runs" run_key.
Definition of_source (t : string) : ForeignKey :=
  references t (run_key ++ ["source_id"]) "research_source_candidates" (run_key ++ ["source_id"]).

Definition schema_foreign_keys : list ForeignKey :=
  [of_decision "reports"; of_decision "audit_events"; of_intake "intake_facts";
   references "intake_confirmations" ["tenant_id"; "intake_id"; "fact_id"]
     "intake_facts" ["tenant_id"; "intake_id"; "fact_id"];
   of_intake "intake_audit_events"; of_run "research_source_candidates";
   of_source "research_source_snapshots"; of_source "research_evidence_candidates";
   references "research_evidence_candidates" (run_key ++ ["snapshot_id"])
     "research_source_snapshots" (run_key ++ ["snapshot_id"]);
   of_run "research_attempts"; of_run "research_audit_events"; of_run "research_budget_usage";
   of_run "research_handoffs";
   references "research_handoffs" ["tenant_id"; "decision_file_id"]
     "decisions" ["tenant_id"; "decision_id"];
   of_run "research_jobs";
   references "research_job_events" ["tenant_id"; "job_id"] "research_jobs" ["tenant_id"; "job_id"];
   of_decision "legal_holds";
   references "lifecycle_audit_events" ["tenant_id"; "request_id"]
     "deletion_requests" ["tenant_id"; "request_id"]].

(** The columns of these constraints are all declared NOT NULL. *)
Definition schema : Schema := mkSchema schema_keys schema_foreign_keys
  (map (λ k, (key_table k, key_columns k)) schema_keys ++
   map (λ f, (fk_table f, fk_columns f)) schema_foreign_keys).

Notation insert_into := (Sql.insert_into schema).
Notation delete_from := (Sql.delete_from schema).
Notation update := (Sql.update schema).

(** What a TIMESTAMPTZ column gives back of the text that was stored: the [isoformat()] of the
    instant in the time zone of the session; [None] for a text that is no timestamp. *)
Class SessionTime := session_time : string → option string.

(** The text of a JSON value that is neither a string nor null, as [->>] prints it. *)
Class JsonbText := jsonb_text : pyval → string.

Section repository.
Context `{SessionTime} `{JsonbText}.

Definition timestamptz (t : string) : result pyval :=
  match session_time t with Some s => Ok (PStr s) | None => raise DataError "invalid timestamp" end.

(** [json ->> key]; NULL when there is no such key or its value is null. *)
Definition json_text (key : string) (v : pyval) : option string :=
  match v with
  | PDict d =>
      match assoc key d with
      | Some (PStr s) => Some s
      | None | Some PNone => None
      | Some w => Some (jsonb_text w)
      end
  | _ => None
  end.

Definition json_is (c key text : string) (r : row) : bool :=
  bool_decide (json_text key (col c r) = Some text).

(** ** Rows and values *)

Definition status_text (s : DeletionStatus) : string :=
  match s with
  | REQUESTED => "REQUESTED" | BLOCKED_BY_HOLD => "BLOCKED_BY_HOLD" | EXECUTING => "EXECUTING"
  | COMPLETED => "COMPLETED" | FAILED => "FAILED"
  end.
Definition status_of (t : string) : option DeletionStatus :=
  List.find (λ s, status_text s =? t) [REQUESTED; BLOCKED_BY_HOLD; EXECUTING; COMPLETED; FAILED].

(** [LifecycleEvent.payload] *)
Definition payload (e : LifecycleEvent) : pyval := PDict
  [("schema_version", PStr "0.8.0"); ("event_id", PStr (le_id e)); ("request_id", PStr (le_request e));
   ("case_ref_hash", PStr (le_case_hash e)); ("event_type", PStr (le_type e));
   ("occurred_at", PStr (le_occurred_at e)); ("reason_code", PStr (le_reason e));
   ("correlation_id", PStr (le_correlation e)); ("actor_hash", PStr (le_actor e));
   ("previous_event_hash", nullable (le_previous e))].

(** [value[key]] of a JSON object whose values are texts. *)
Definition field (key : string) (d : list (string * pyval)) : result string :=
  v ← or_raise (assoc key d) KeyError key; Ok (text_of v).

Definition _event_from_row (tenant : string) (r : row) : result LifecycleEvent :=
  match col "event_json" r with
  | PDict value =>
      event_id ← field "event_id" value;
      request_id ← field "request_id" value;
      case_hash ← field "case_ref_hash" value;
      event_type ← field "event_type" value;
      occurred_at ← field "occurred_at" value;
      reason ← field "reason_code" value;
      correlation ← field "correlation_id" value;
      actor ← field "actor_hash" value;
      Ok (mkLifecycleEvent tenant event_id request_id case_hash event_type occurred_at reason
            correlation actor (text_of (col "event_hash" r)) (opt_text_of (col "previous_event_hash" r)))
  | _ => raise ValueError "event_json"
  end.

Definition _request (r : row) (event : option LifecycleEvent) : result DeletionRequest :=
  status ← or_raise (status_of (text_of (col "status" r))) ValueError "DeletionStatus";
  Ok (mkDeletion (text_of (col "tenant_id" r)) (text_of (col "request_id" r))
        (opt_text_of (col "decision_id" r)) (text_of (col "case_ref_hash" r))
        (text_of (col "actor_hash" r)) (text_of (col "idempotency_key_hash" r)) status
        (text_of (col "reason_code" r)) (text_of (col "requested_at" r))
        (opt_text_of (col "completed_at" r))
        (bool_decide (col "status" r = PStr (status_text BLOCKED_BY_HOLD)))
        (match event with None => "" | Some e => le_hash e end) (event ≫= le_previous)).

(** The row of an event in one of the two audit tables; [id] is its column [request_id] or
    [hold_id]. *)
Definition event_row (id : string) (e : LifecycleEvent) : result row :=
  occurred_at ← timestamptz (le_occurred_at e);
  Ok [("tenant_id", PStr (le_tenant e)); ("event_id", PStr (le_id e)); (id, PStr (le_request e));
      ("case_ref_hash", PStr (le_case_hash e)); ("event_type", PStr (le_type e));
      ("event_json", payload e); ("event_hash", PStr (le_hash e));
      ("previous_event_hash", nullable (le_previous e)); ("occurred_at", occurred_at)].

Definition nullable_time (o : option string) : result pyval :=
  match o with None => Ok PNone | Some t => timestamptz t end.

(** [_request_values] *)
Definition _request_values (r : DeletionRequest) : result row :=
  requested ← timestamptz (requested_at r);
  completed ← nullable_time (completed_at r);
  Ok [("tenant_id", PStr (del_tenant r)); ("request_id", PStr (request_id r));
      ("decision_id", nullable (del_decision r)); ("case_ref_hash", PStr (case_ref_hash r));
      ("actor_hash", PStr (actor_hash r)); ("idempotency_key_hash", PStr (idempotency_key_hash r));
      ("status", PStr (status_text (del_status r))); ("reason_code", PStr (reason_code r));
      ("requested_at", requested); ("completed_at", completed)].

Definition of_tenant (tenant : string) (r : row) : bool := col_is "tenant_id" tenant r.
Definition keyed (tenant c v : string) (r : row) : bool := of_tenant tenant r && col_is c v r.

(** ** The transactions *)

Definition _last_event (tenant id : string) : stateful database (option LifecycleEvent) :=
  r ← fetchlast "lifecycle_audit_events" (keyed tenant "request_id" id);
  match r with
  | None => mret None
  | Some r => e ← lift (_event_from_row tenant r); mret (Some e)
  end.

Definition pg_last_hold_event (tenant hold_id : string) : stateful database (option LifecycleEvent) :=
  r ← fetchlast "legal_hold_audit_events" (keyed tenant "hold_id" hold_id);
  match r with
  | None => mret None
  | Some r => e ← lift (_event_from_row tenant r); mret (Some e)
  end.

(** The request of a row with its last event. *)
Definition read_request (tenant : string) (r : row) : stateful database DeletionRequest :=
  event ← _last_event tenant (text_of (col "request_id" r));
  lift (_request r event).

Definition pg_case_exists (tenant decision : string) : stateful database bool :=
  r ← fetchone "decisions" (keyed tenant "decision_id" decision);
  mret (bool_decide (is_Some r)).

Definition pg_get_by_idempotency (tenant actor key : string) :
    stateful database (option DeletionRequest) :=
  r ← fetchone "deletion_requests"
        (λ r, keyed tenant "actor_hash" actor r && col_is "idempotency_key_hash" key r);
  match r with
  | None => mret None
  | Some r => q ← read_request tenant r; mret (Some q)
  end.

Definition pg_get_request (tenant id : string) : stateful database (option DeletionRequest) :=
  r ← fetchone "deletion_requests" (keyed tenant "request_id" id);
  match r with
  | None => mret None
  | Some r => q ← read_request tenant r; mret (Some q)
  end.

Definition _append_event (e : LifecycleEvent) : stateful database unit :=
  r ← lift (event_row "request_id" e); insert_into "lifecycle_audit_events" r.
Definition _append_hold_event (e : LifecycleEvent) : stateful database unit :=
  r ← lift (event_row "hold_id" e); insert_into "legal_hold_audit_events" r.

Definition _insert_request (r : DeletionRequest) : stateful database unit :=
  values ← lift (_request_values r); insert_into "deletion_requests" values.

Definition _update_request (r : DeletionRequest) : stateful database unit :=
  completed ← lift (nullable_time (completed_at r));
  _ ← update "deletion_requests" (keyed (del_tenant r) "request_id" (request_id r))
        (λ old, assoc_set "completed_at" completed
                  (assoc_set "status" (PStr (status_text (del_status r)))
                     (assoc_set "decision_id" (nullable (del_decision r)) old)));
  mret tt.

Definition _same_request (left right : DeletionRequest) : bool :=
  (case_ref_hash left =? case_ref_hash right) && (actor_hash left =? actor_hash right) &&
  (idempotency_key_hash left =? idempotency_key_hash right) && (reason_code left =? reason_code right).

Definition _assert_event_tip (current : DeletionRequest) (e : LifecycleEvent) : result unit :=
  require (bool_decide (le_previous e = Some (event_hash current))) LifecycleTransitionConflict
    "LIFECYCLE_EVENT_CHAIN_CONFLICT".

Definition _assert_hold_event_tip (e : LifecycleEvent) : stateful database unit :=
  r ← fetchlast "legal_hold_audit_events" (keyed (le_tenant e) "hold_id" (le_request e));
  guard_with (bool_decide (le_previous e = ((λ r, text_of (col "event_hash" r)) <$> r)))
    LifecycleTransitionConflict "LIFECYCLE_EVENT_CHAIN_CONFLICT".

Definition pg_persist_transition (request : DeletionRequest) (event : LifecycleEvent)
    (expected : option DeletionStatus) : stateful database DeletionRequest :=
  atomic (
    found ← fetchone "deletion_requests" (keyed (del_tenant request) "request_id" (request_id request));
    match found with
    | Some r =>
        last ← _last_event (del_tenant request) (request_id request);
        current ← lift (_request r last);
        match expected with
        | None =>
            _ ← guard_with (_same_request current request) LifecycleTransitionConflict
                  "IDEMPOTENCY_KEY_REUSED";
            mret current
        | Some expected =>
            if bool_decide (del_status current = expected) then
              _ ← lift (_assert_event_tip current event);
              _ ← _update_request request;
              _ ← _append_event event;
              mret request
            else
              _ ← guard_with (bool_decide (del_status current ∈ [del_status request; COMPLETED]))
                    LifecycleTransitionConflict "LIFECYCLE_STATUS_CONFLICT";
              mret current
        end
    | None =>
        _ ← guard_with (bool_decide (expected = None)) LifecycleTransitionConflict
              "LIFECYCLE_STATUS_CONFLICT";
        _ ← guard_with (bool_decide (le_previous event = None)) LifecycleTransitionConflict
              "LIFECYCLE_EVENT_CHAIN_CONFLICT";
        _ ← _insert_request request;
        _ ← _append_event event;
        mret request
    end).

Definition active_on (tenant decision : string) (r : row) : bool :=
  keyed tenant "decision_id" decision r && bool_decide (col "active" r = PBool true).

Definition pg_active_hold (tenant decision : string) : stateful database bool :=
  r ← fetchone "legal_holds" (active_on tenant decision);
  mret (bool_decide (is_Some r)).

(** The row of a new hold; a hold with the same identifier is made active again. *)
Definition hold_row (tenant decision hold_id actor reason : string) (created_at : pyval) : row :=
  [("tenant_id", PStr tenant); ("decision_id", PStr decision); ("hold_id", PStr hold_id);
   ("active", PBool true); ("reason_code", PStr reason); ("created_by_actor_hash", PStr actor);
   ("created_at", created_at); ("released_by_actor_hash", PNone); ("released_at", PNone)].

Definition reactivate (actor reason : string) (created_at : pyval) (old : row) : row :=
  assoc_update old
    [("active", PBool true); ("reason_code", PStr reason); ("created_by_actor_hash", PStr actor);
     ("created_at", created_at); ("released_by_actor_hash", PNone); ("released_at", PNone)].

Definition upsert_hold (tenant decision hold_id actor reason occurred_at : string) :
    stateful database unit :=
  created_at ← lift (timestamptz occurred_at);
  let same r := keyed tenant "decision_id" decision r && col_is "hold_id" hold_id r in
  old ← fetchone "legal_holds" same;
  match old with
  | None => insert_into "legal_holds" (hold_row tenant decision hold_id actor reason created_at)
  | Some _ => _ ← update "legal_holds" same (reactivate actor reason created_at); mret tt
  end.

Definition pg_set_hold (tenant decision hold_id actor reason occurred_at : string)
    (event : LifecycleEvent) : stateful database bool :=
  atomic (
    existing ← fetchone "legal_holds" (active_on tenant decision);
    match existing with
    | None =>
        _ ← _assert_hold_event_tip event;
        _ ← upsert_hold tenant decision hold_id actor reason occurred_at;
        _ ← _append_hold_event event;
        mret true
    | Some _ => mret false
    end).

Definition pg_release_hold (tenant decision actor occurred_at : string) (event : LifecycleEvent) :
    stateful database bool :=
  atomic (
    active ← fetchone "legal_holds" (active_on tenant decision);
    match active with
    | None => mret false
    | Some _ =>
        _ ← _assert_hold_event_tip event;
        released_at ← lift (timestamptz occurred_at);
        rowcount ← update "legal_holds" (active_on tenant decision)
          (λ old, assoc_update old [("active", PBool false); ("released_by_actor_hash", PStr actor);
                                    ("released_at", released_at)]);
        if (0 <? rowcount)%nat then _ ← _append_hold_event event; mret true else mret false
    end).

(** ** [_delete_case_data] *)

(** [IN (SELECT c FROM t WHERE p)] *)
Definition in_select (c : string) (rows : list row) (r : row) : bool :=
  match col c r with
  | PNone => false
  | v => existsb (λ q, bool_decide (col c q = v)) rows
  end.

Definition about_run (tenant : string) (runs : list row) (r : row) : bool :=
  of_tenant tenant r && in_select "research_run_id" runs r.

Definition case_runs (tenant decision : string) : stateful database (list row) :=
  select "research_runs" (keyed tenant "decision_file_id" decision).

(** [response_json ->> 'decision_id' = %s OR response_json ->> 'compiled_decision_id' = %s] *)
Definition answers_case (tenant decision : string) (r : row) : bool :=
  of_tenant tenant r &&
  (json_is "response_json" "decision_id" decision r ||
   json_is "response_json" "compiled_decision_id" decision r).

Definition case_intake (tenant decision : string) (r : row) : bool :=
  of_tenant tenant r &&
  (json_is "record_json" "compiled_decision_id" decision r ||
   match col "intake_id" r with PStr i => i +:+ "-decision" =? decision | _ => false end).

Definition run_owned_tables : list string :=
  ["research_handoffs"; "research_evidence_candidates"; "research_source_snapshots";
   "research_source_candidates"; "research_attempts"; "research_audit_events";
   "research_budget_usage"].
Definition intake_owned_tables : list string :=
  ["intake_confirmations"; "intake_facts"; "intake_audit_events"].

Definition delete_research (tenant decision : string) : stateful database unit :=
  runs ← case_runs tenant decision;
  jobs ← select "research_jobs" (about_run tenant runs);
  _ ← delete_from "research_job_events" (λ r, of_tenant tenant r && in_select "job_id" jobs r);
  _ ← delete_from "research_jobs" (about_run tenant runs);
  _ ← for_each (λ t, _ ← delete_from t (about_run tenant runs); mret tt) run_owned_tables;
  _ ← delete_from "research_idempotency"
        (λ r, of_tenant tenant r && json_is "response_json" "decision_file_id" decision r);
  _ ← delete_from "research_runs" (keyed tenant "decision_file_id" decision);
  mret tt.

Definition delete_intakes (tenant decision : string) : stateful database unit :=
  intakes ← select "intake_records" (case_intake tenant decision);
  match intakes with
  | [] => mret tt
  | _ =>
      let about r := of_tenant tenant r && in_select "intake_id" intakes r in
      _ ← for_each (λ t, _ ← delete_from t about; mret tt) intake_owned_tables;
      _ ← delete_from "intake_idempotency" (answers_case tenant decision);
      _ ← delete_from "intake_records" about;
      mret tt
  end.

Definition _delete_case_data (tenant decision : string) : stateful database unit :=
  held ← fetchone "legal_holds" (active_on tenant decision);
  _ ← guard_with (bool_decide (held = None)) LegalHoldActive "LEGAL_HOLD_ACTIVE";
  _ ← delete_research tenant decision;
  _ ← delete_intakes tenant decision;
  let about := keyed tenant "decision_id" decision in
  _ ← delete_from "legal_holds" about;
  _ ← delete_from "reports" about;
  _ ← delete_from "audit_events" about;
  _ ← delete_from "idempotency" (answers_case tenant decision);
  rowcount ← delete_from "decisions" about;
  guard_with (bool_decide (rowcount = 1)) KeyError "CASE_NOT_FOUND".

Definition pg_complete_deletion (request : DeletionRequest) (event : LifecycleEvent) :
    stateful database DeletionRequest :=
  atomic (
    found ← fetchone "deletion_requests" (keyed (del_tenant request) "request_id" (request_id request));
    r ← lift (or_raise found LifecycleTransitionConflict "LIFECYCLE_STATUS_CONFLICT");
    last ← _last_event (del_tenant request) (request_id request);
    current ← lift (_request r last);
    if bool_decide (del_status current = COMPLETED) then mret current else
    match del_decision current with
    | Some decision =>
        _ ← guard_with (bool_decide (del_status current = EXECUTING)) LifecycleTransitionConflict
              "LIFECYCLE_STATUS_CONFLICT";
        _ ← lift (_assert_event_tip current event);
        _ ← _delete_case_data (del_tenant request) decision;
        _ ← _update_request request;
        _ ← _append_event event;
        mret request
    | None => lift (raise LifecycleTransitionConflict "LIFECYCLE_STATUS_CONFLICT")
    end).
End repository.

#[export] Instance postgres_repository `{SessionTime} `{JsonbText} : LifecycleRepository database := {
  case_exists := pg_case_exists;
  get_by_idempotency := pg_get_by_idempotency;
  get_request := pg_get_request;
  persist_transition := pg_persist_transition;
  active_hold := pg_active_hold;
  set_hold := pg_set_hold;
  release_hold := pg_release_hold;
  last_event := _last_event;
  last_hold_event := pg_last_hold_event;
  complete_deletion := pg_complete_deletion
}.
