(* ===== verification/LifecycleTablesProps.v ===== *)
(** * What a deletion erases

    [_delete_case_data] over the tables of the migrations: the statements respect every foreign
    key, and together they erase exactly the rows that belong to the case. *)

From S2P Require Import Prelude PyVal Sql Identity Retention LifecycleTables.
From stdpp Require Import options.

(** Membership in the lists of the schema is computed. *)
Ltac in_schema := match goal with |- ?P => apply (bool_decide_unpack P); vm_compute; exact I end.

(** The constraints of the schema, one by one. *)
Ltac schema_cases H := vm_compute in H; elem_cases H.

(** ** References *)

(** The columns of a reference carry the same values, none of them NULL. *)
Fixpoint columns_agree (cs ps : list string) (r p : row) : Prop :=
  match cs, ps with
  | [], [] => True
  | c :: cs, q :: ps => col c r = col q p ∧ col c r ≠ PNone ∧ columns_agree cs ps r p
  | _, _ => False
  end.

Lemma project_Some cs r v : project cs r = Some v ↔ map (λ c, col c r) cs = v ∧ Forall (λ c, col c r ≠ PNone) cs.
Proof.
  revert v. induction cs as [|c cs IH]; intros v; cbn; [naive_solver|].
  rewrite Forall_cons. destruct (col c r) eqn:E; try (rewrite fmap_Some; setoid_rewrite IH; naive_solver).
  naive_solver.
Qed.

Lemma refers_spec f r p : refers f r p = true ↔ columns_agree (fk_columns f) (fk_parent_columns f) r p.
Proof.
  unfold refers. destruct f as [t cs t' ps]; cbn.
  assert ((∃ v, project cs r = Some v ∧ project ps p = Some v) ↔ columns_agree cs ps r p) as <-.
  { setoid_rewrite project_Some. revert ps. induction cs as [|c cs IH]; intros [|q ps]; cbn.
    - split; [done|]. intros _. exists []. by repeat split; try constructor.
    - split; [|done]. intros (v & [<- _] & [E _]). done.
    - split; [|done]. intros (v & [<- _] & [E _]). done.
    - rewrite <-IH. setoid_rewrite Forall_cons. split.
      + intros (v & [<- [Hc Hcs]] & [E [Hq Hps]]). injection E as E Es. eauto 10.
      + intros (E & Hc & v & [<- Hcs] & [Es Hps]). eexists. rewrite Es, <-E. eauto 10. }
  destruct (project cs r) as [v|]; [rewrite bool_decide_eq_true|]; naive_solver.
Qed.

(** A row of a consistent table refers to a row of the parent. *)
Lemma parent_row f r db :
  consistent schema db = true → f ∈ schema_foreign_keys → r ∈ table (fk_table f) db →
  ∃ p, p ∈ table (fk_parent f) db ∧ refers f r p = true.
Proof.
  intros (_ & Hf & Hn)%consistent_spec Hin Hr.
  destruct (Hn (fk_table f) (fk_columns f) r) as [v Hv]; [|done|].
  - cbn [not_null schema]. apply elem_of_app. right. apply list_elem_of_fmap. by exists f.
  - destruct (Hf f r v Hin Hr Hv) as (p & Hp & E). exists p. split; [done|].
    unfold refers. rewrite Hv. by apply bool_decide_eq_true.
Qed.

Section erasure.
Context `{SessionTime} `{JsonbText}.
Implicit Types (db : database) (r p q : row) (t : string).

(** ** What belongs to a case *)

(** The decision itself, the research about it, the intakes compiled to it and the stored
    answers that name it; and every row that refers to a row of the case. *)
Inductive belongs db (tenant decision : string) : string → row → Prop :=
  | belongs_decision r :
      r ∈ table "decisions" db → keyed tenant "decision_id" decision r = true →
      belongs db tenant decision "decisions" r
  | belongs_run r :
      r ∈ table "research_runs" db → keyed tenant "decision_file_id" decision r = true →
      belongs db tenant decision "research_runs" r
  | belongs_intake r :
      r ∈ table "intake_records" db → case_intake tenant decision r = true →
      belongs db tenant decision "intake_records" r
  | belongs_answer r :
      r ∈ table "idempotency" db → answers_case tenant decision r = true →
      belongs db tenant decision "idempotency" r
  | belongs_research_answer r :
      r ∈ table "research_idempotency" db → of_tenant tenant r = true →
      json_is "response_json" "decision_file_id" decision r = true →
      belongs db tenant decision "research_idempotency" r
  | belongs_intake_answer r i :
      r ∈ table "intake_idempotency" db → answers_case tenant decision r = true →
      i ∈ table "intake_records" db → case_intake tenant decision i = true →
      belongs db tenant decision "intake_idempotency" r
  | belongs_child f r p :
      f ∈ schema_foreign_keys → r ∈ table (fk_table f) db → p ∈ table (fk_parent f) db →
      refers f r p = true → belongs db tenant decision (fk_parent f) p →
      belongs db tenant decision (fk_table f) r.

(** A handoff is recorded for the case its run is about. *)
Definition own_handoffs db : Prop :=
  ∀ h run, h ∈ table "research_handoffs" db → run ∈ table "research_runs" db →
    refers (of_run "research_handoffs") h run = true →
    col "decision_file_id" run = col "decision_file_id" h.

Section case.
Context (db : database) (tenant decision : string).

Definition runs_of_case : list row :=
  filter (λ r, keyed tenant "decision_file_id" decision r = true) (table "research_runs" db).
Definition jobs_of_case : list row :=
  filter (λ r, about_run tenant runs_of_case r = true) (table "research_jobs" db).
Definition intakes_of_case : list row :=
  filter (λ r, case_intake tenant decision r = true) (table "intake_records" db).
Definition about_intake (r : row) : bool := of_tenant tenant r && in_select "intake_id" intakes_of_case r.

(** The condition of the statement on each table, with its subqueries evaluated. *)
Definition rules : list (string * (row → bool)) :=
  [("research_job_events", λ r, of_tenant tenant r && in_select "job_id" jobs_of_case r);
   ("research_jobs", about_run tenant runs_of_case)] ++
  map (λ t, (t, about_run tenant runs_of_case)) run_owned_tables ++
  [("research_idempotency",
      λ r, of_tenant tenant r && json_is "response_json" "decision_file_id" decision r);
   ("research_runs", keyed tenant "decision_file_id" decision)] ++
  map (λ t, (t, about_intake)) intake_owned_tables ++
  [("intake_idempotency",
      λ r, answers_case tenant decision r && negb (bool_decide (intakes_of_case = [])));
   ("intake_records", about_intake)] ++
  map (λ t, (t, keyed tenant "decision_id" decision)) ["legal_holds"; "reports"; "audit_events"] ++
  [("idempotency", answers_case tenant decision); ("decisions", keyed tenant "decision_id" decision)].

Definition rule t : row → bool := default (λ _, false) (assoc t rules).

Lemma in_select_spec c rows r :
  in_select c rows r = true ↔ col c r ≠ PNone ∧ ∃ q, q ∈ rows ∧ col c q = col c r.
Proof.
  unfold in_select. destruct (col c r) eqn:E; try (split; [done|by intros [? _]]);
    rewrite existsb_true_Exists, Exists_exists; setoid_rewrite bool_decide_eq_true; naive_solver.
Qed.

Lemma keyed_spec t c v r : keyed t c v r = true ↔ col "tenant_id" r = PStr t ∧ col c r = PStr v.
Proof. unfold keyed, of_tenant. by rewrite andb_true_iff, !col_is_true. Qed.

Lemma about_run_spec runs r :
  about_run tenant runs r = true ↔
  col "tenant_id" r = PStr tenant ∧ col "research_run_id" r ≠ PNone ∧
  ∃ q, q ∈ runs ∧ col "research_run_id" q = col "research_run_id" r.
Proof. unfold about_run, of_tenant. by rewrite andb_true_iff, col_is_true, in_select_spec. Qed.

Lemma about_intake_spec r :
  about_intake r = true ↔
  col "tenant_id" r = PStr tenant ∧ col "intake_id" r ≠ PNone ∧
  ∃ q, q ∈ table "intake_records" db ∧ case_intake tenant decision q = true ∧
    col "intake_id" q = col "intake_id" r.
Proof.
  unfold about_intake, of_tenant, intakes_of_case. rewrite andb_true_iff, col_is_true, in_select_spec.
  setoid_rewrite list_elem_of_filter. naive_solver.
Qed.

Lemma case_intake_tenant r : case_intake tenant decision r = true → col "tenant_id" r = PStr tenant.
Proof. unfold case_intake, of_tenant. rewrite andb_true_iff, col_is_true. by intros [? _]. Qed.

Lemma answers_case_tenant r : answers_case tenant decision r = true → col "tenant_id" r = PStr tenant.
Proof. unfold answers_case, of_tenant. rewrite andb_true_iff, col_is_true. by intros [? _]. Qed.

Lemma elem_of_runs_of_case q :
  q ∈ runs_of_case ↔ keyed tenant "decision_file_id" decision q = true ∧ q ∈ table "research_runs" db.
Proof. unfold runs_of_case. by rewrite list_elem_of_filter. Qed.

Lemma elem_of_jobs_of_case q :
  q ∈ jobs_of_case ↔ about_run tenant runs_of_case q = true ∧ q ∈ table "research_jobs" db.
Proof. unfold jobs_of_case. by rewrite list_elem_of_filter. Qed.

(** ** The conditions are closed under references *)

Context (Hdb : consistent schema db = true).

Lemma not_null_column t cs c r :
  (t, cs) ∈ not_null schema → r ∈ table t db → c ∈ cs → col c r ≠ PNone.
Proof using Hdb.
  intros Hn Hr Hc. apply consistent_spec in Hdb as (_ & _ & Hnn).
  destruct (Hnn t cs r Hn Hr) as [v [_ Hv]%project_Some]. rewrite Forall_forall in Hv. by apply Hv.
Qed.

Lemma handoff_run h :
  own_handoffs db → h ∈ table "research_handoffs" db → keyed tenant "decision_file_id" decision h = true →
  about_run tenant runs_of_case h = true.
Proof using Hdb.
  intros Ho Hh [Ht Hd]%keyed_spec.
  destruct (parent_row (of_run "research_handoffs") h db Hdb) as (run & Hrun & Hr); [by in_schema|done|].
  pose proof (Ho h run Hh Hrun Hr) as E. apply refers_spec in Hr as (Et & _ & Ei & Hn & _).
  apply about_run_spec. split_and!; [done|done|]. exists run. split; [|done].
  apply list_elem_of_filter. split; [|done]. apply keyed_spec. split; congruence.
Qed.

Lemma rule_closed f r p :
  own_handoffs db → f ∈ schema_foreign_keys → r ∈ table (fk_table f) db →
  p ∈ table (fk_parent f) db → refers f r p = true → rule (fk_parent f) p = true →
  rule (fk_table f) r = true.
Proof using Hdb.
  intros Ho Hf Hr Hp Href%refers_spec. unfold schema_foreign_keys in Hf.
  elem_cases Hf; subst f; cbn in Hr, Hp, Href |- *; unfold rule; cbn;
    rewrite ?about_run_spec, ?about_intake_spec, ?keyed_spec, ?andb_true_iff, ?in_select_spec;
    unfold of_tenant; rewrite ?col_is_true; try done.
  all: destruct Href as (E1 & N1 & E2 & N2 & _); rewrite <-?E1, <-?E2; try naive_solver.
  all: intros [Ht Hx].
  6: { assert (keyed tenant "decision_file_id" decision r = true) as Hk by by apply keyed_spec.
       by apply (handoff_run r Ho Hr), about_run_spec in Hk. }
  all: split_and!; [done..|]; exists p; rewrite ?elem_of_runs_of_case, ?elem_of_jobs_of_case,
    ?keyed_spec, ?about_run_spec, <-?E1; split_and!; first [done|apply Hx].
Qed.

(** ** The conditions say what belongs to the case *)

Lemma belongs_rule t r : own_handoffs db → belongs db tenant decision t r → rule t r = true.
Proof using Hdb.
  intros Ho. induction 1 as [r Hr Hk|r Hr Hk|r Hr Hk|r Hr Hk|r Hr Ht Hk|r i Hr Hk Hi Hci|f r p Hf Hr Hp Href _ IH];
    unfold rule; cbn; [done|done| |done|by rewrite Ht| |by eapply rule_closed].
  - apply about_intake_spec. pose proof (case_intake_tenant _ Hk). split_and!; [done| |eauto].
    apply (not_null_column "intake_records" ["tenant_id"; "intake_id"]); [by in_schema|done|by in_schema].
  - rewrite Hk. cbn. apply negb_true_iff, bool_decide_eq_false. intros E.
    assert (i ∈ intakes_of_case) as Hin by by apply list_elem_of_filter. rewrite E in Hin.
    by apply elem_of_nil in Hin.
Qed.


Lemma child t r p f :
  fk_table f = t → f ∈ schema_foreign_keys → r ∈ table t db → p ∈ table (fk_parent f) db →
  columns_agree (fk_columns f) (fk_parent_columns f) r p → belongs db tenant decision (fk_parent f) p →
  belongs db tenant decision t r.
Proof using Type. intros <- Hf Hr Hp Hc Hb. apply (belongs_child _ _ _ f r p); try done. by apply refers_spec. Qed.

Lemma run_child t r :
  of_run t ∈ schema_foreign_keys → r ∈ table t db → about_run tenant runs_of_case r = true →
  belongs db tenant decision t r.
Proof using Type.
  intros Hf Hr (Ht & Hn & q & [Hk Hq]%elem_of_runs_of_case & E)%about_run_spec.
  apply (child t r q (of_run t)); try done; cbn.
  - pose proof Hk as [Hkt _]%keyed_spec. by rewrite Ht, Hkt.
  - by apply belongs_run.
Qed.

Lemma source_child t r :
  of_source t ∈ schema_foreign_keys → r ∈ table t db → about_run tenant runs_of_case r = true →
  belongs db tenant decision t r.
Proof using Hdb.
  intros Hf Hr (Ht & Hn & q & Hq & E)%about_run_spec.
  destruct (parent_row (of_source t) r db Hdb Hf Hr) as (p & Hp & Href%refers_spec).
  apply (child t r p (of_source t)); try done. destruct Href as (E1 & _ & E2 & _ & _).
  apply run_child; [by in_schema|done|]. apply about_run_spec. rewrite <-E1, <-E2. eauto.
Qed.

Lemma intake_child t r :
  of_intake t ∈ schema_foreign_keys → r ∈ table t db → about_intake r = true →
  belongs db tenant decision t r.
Proof using Type.
  intros Hf Hr (Ht & Hn & q & Hq & Hk & E)%about_intake_spec.
  apply (child t r q (of_intake t)); try done; cbn.
  - by rewrite Ht, (case_intake_tenant _ Hk).
  - by apply belongs_intake.
Qed.

Lemma decision_child t r :
  of_decision t ∈ schema_foreign_keys → r ∈ table t db → keyed tenant "decision_id" decision r = true →
  belongs db tenant decision t r.
Proof using Hdb.
  intros Hf Hr [Ht Hd]%keyed_spec.
  destruct (parent_row (of_decision t) r db Hdb Hf Hr) as (p & Hp & Href%refers_spec).
  apply (child t r p (of_decision t)); try done. destruct Href as (E1 & _ & E2 & _ & _).
  apply belongs_decision; [done|]. apply keyed_spec. by rewrite <-E1, <-E2.
Qed.

Lemma job_event_belongs r :
  r ∈ table "research_job_events" db → of_tenant tenant r = true →
  in_select "job_id" jobs_of_case r = true → belongs db tenant decision "research_job_events" r.
Proof using Type.
  unfold of_tenant. rewrite col_is_true. intros Hr Ht (Hn & q & [Ha Hq]%elem_of_jobs_of_case & E)%in_select_spec.
  apply (child "research_job_events" r q (references "research_job_events" ["tenant_id"; "job_id"]
    "research_jobs" ["tenant_id"; "job_id"])); [done|by in_schema|done|done| |].
  - cbn. apply about_run_spec in Ha as [Htq _]. by rewrite Ht, Htq.
  - apply run_child; [by in_schema|done..].
Qed.

Lemma confirmation_belongs r :
  r ∈ table "intake_confirmations" db → about_intake r = true →
  belongs db tenant decision "intake_confirmations" r.
Proof using Hdb.
  intros Hr (Ht & Hn & q & Hq & Hk & E)%about_intake_spec.
  set (f := references "intake_confirmations" ["tenant_id"; "intake_id"; "fact_id"]
    "intake_facts" ["tenant_id"; "intake_id"; "fact_id"]).
  destruct (parent_row f r db Hdb) as (p & Hp & Href%refers_spec); [by in_schema|done|].
  apply (child _ r p f); try done; [by in_schema|]. destruct Href as (E1 & _ & E2 & _ & _).
  apply intake_child; [by in_schema|done|]. apply about_intake_spec. rewrite <-E1, <-E2. eauto 6.
Qed.

Lemma record_belongs r :
  r ∈ table "intake_records" db → about_intake r = true → belongs db tenant decision "intake_records" r.
Proof using Hdb.
  intros Hr (Ht & Hn & q & Hq & Hk & E)%about_intake_spec.
  pose proof (case_intake_tenant _ Hk) as Htq.
  assert (project ["tenant_id"; "intake_id"] r = Some [PStr tenant; col "intake_id" r]) as Hv.
  { apply project_Some. cbn. rewrite Ht. split; [done|]. repeat constructor; congruence. }
  assert (r = q) as ->; [|by apply belongs_intake].
  pose proof Hdb as (Hkeys & _)%consistent_spec.
  eapply (key_unique (unique "intake_records" ["tenant_id"; "intake_id"])); try done.
  - apply (Hkeys (unique "intake_records" ["tenant_id"; "intake_id"])). by in_schema.
  - cbn [key_columns unique]. rewrite <-E. apply project_Some. cbn. rewrite Htq.
    split; [done|]. repeat constructor; congruence.
Qed.

Lemma assoc_elem {A} k (d : list (string * A)) x : assoc k d = Some x → (k, x) ∈ d.
Proof using Type.
  induction d as [|[k' y] d IH]; cbn; [done|]. destruct (k =? k') eqn:E.
  - apply String.eqb_eq in E. intros [= ->]. subst. by left.
  - right. by apply IH.
Qed.

Lemma rule_belongs t r : r ∈ table t db → rule t r = true → belongs db tenant decision t r.
Proof using Hdb.
  unfold rule. intros Hr. destruct (assoc t rules) as [p|] eqn:E; cbn; [|done].
  apply assoc_elem in E. elem_cases E; injection E as -> ->; intros Hp.
  1: { apply andb_true_iff in Hp as [? ?]. by apply job_event_belongs. }
  all: try (by apply run_child; [in_schema|..]).
  all: try (by apply source_child; [in_schema|..]).
  all: try (by apply intake_child; [in_schema|..]).
  all: try (by apply decision_child; [in_schema|..]).
  - apply andb_true_iff in Hp as [? ?]. by apply belongs_research_answer.
  - by apply belongs_run.
  - by apply confirmation_belongs.
  - apply andb_true_iff in Hp as [Ha Hi]. apply negb_true_iff, bool_decide_eq_false in Hi.
    destruct intakes_of_case as [|i l] eqn:Ei; [done|].
    assert (i ∈ intakes_of_case) as Hin by (rewrite Ei; by left).
    unfold intakes_of_case in Hin. apply list_elem_of_filter in Hin as [? ?].
    by apply (belongs_intake_answer _ _ _ r i).
  - by apply record_belongs.
  - by apply belongs_answer.
  - by apply belongs_decision.
Qed.

(** ** The run of the statements *)

(** The tables [P] have lost the rows of the case, the others are as they were. *)
Definition erased (P : list string) db' : Prop :=
  consistent schema db' = true ∧
  ∀ t, table t db' = if str_in t P then filter (λ r, rule t r = false) (table t db) else table t db.

(** [m] returns a value in [Q] and takes the tables [P'] of the case after the tables [P]. *)
Definition erases {A} (P P' : list string) (m : stateful database A) (Q : A → Prop) : Prop :=
  ∀ db1, erased P db1 → ∃ a db2, m db1 = (Ok a, db2) ∧ erased P' db2 ∧ Q a.

Lemma erases_bind {A B} P P1 P2 (m : stateful database A) (f : A → stateful database B) Q Q' :
  erases P P1 m Q → (∀ a, Q a → erases P1 P2 (f a) Q') → erases P P2 (m ≫= f) Q'.
Proof using Type.
  intros Hm Hf db1 H1. destruct (Hm db1 H1) as (a & db2 & E & H2 & Ha).
  destruct (Hf a Ha db2 H2) as (b & db3 & E' & H3 & Hb). exists b, db3.
  by rewrite (stateful_run _ _ _ a db2).
Qed.

Lemma erases_ret {A} P (a : A) (Q : A → Prop) : Q a → erases P P (mret a) Q.
Proof using Type. intros Ha db1 H1. by exists a, db1. Qed.

Lemma erases_select P t (g : row → bool) :
  str_in t P = false → erases P P (select t g) (λ l, l = filter (λ r, g r = true) (table t db)).
Proof using Type.
  intros Ht db1 [Hc He]. exists (filter (λ r, g r = true) (table t db1)), db1.
  split_and!; [done|done|]. by rewrite He, Ht.
Qed.

(** Every table that refers to [t] has lost its rows. *)
Definition children_first (t : string) (P : list string) : bool :=
  forallb (λ f, negb (fk_parent f =? t) || str_in (fk_table f) P) schema_foreign_keys.

Lemma filter_ext {A} (f g : A → bool) b (l : list A) :
  (∀ x, x ∈ l → f x = g x) → filter (λ x, f x = b) l = filter (λ x, g x = b) l.
Proof using Type.
  intros E. induction l as [|x l IH]; [done|]. rewrite !filter_cons, (E x) by left.
  rewrite IH; [done|]. intros y Hy. apply E. by right.
Qed.

Lemma erases_delete P t (g : row → bool) :
  own_handoffs db → children_first t P = true → str_in t P = false →
  (∀ r, r ∈ table t db → g r = rule t r) →
  erases P (t :: P) (delete_from t g)
    (λ n, n = length (filter (λ r, rule t r = true) (table t db))).
Proof using Hdb.
  intros Ho Hch Ht Hp db1 [Hc He]. pose proof (He t) as Et. rewrite Ht in Et.
  assert (filter (λ r, g r = false) (table t db1) = filter (λ r, rule t r = false) (table t db)) as Ef
    by (rewrite Et; by apply filter_ext).
  assert (consistent schema (<[t := filter (λ r, g r = false) (table t db1)]> db1) = true) as Hc'.
  { apply consistent_delete; [done|]. intros f r q Hf Hft Hr Hq Href Hpq. exfalso.
    unfold children_first in Hch. rewrite forallb_true_Forall, Forall_forall in Hch.
    specialize (Hch f Hf). rewrite Hft, String.eqb_refl in Hch. cbn in Hch.
    rewrite He, Hch in Hr. apply list_elem_of_filter in Hr as [Hn Hr]. rewrite Et in Hq.
    rewrite Hp in Hpq by done. subst t. rewrite (rule_closed f r q) in Hn; done. }
  exists (length (filter (λ r, g r = true) (table t db1))), (<[t := filter (λ r, g r = false) (table t db1)]> db1).
  split_and!; [by apply delete_run| |].
  - split; [done|]. intros t'. change (str_in t' (t :: P)) with ((t' =? t) || str_in t' P).
    destruct (t' =? t) eqn:E.
    + apply String.eqb_eq in E as ->. by rewrite table_insert_eq.
    + apply String.eqb_neq in E. rewrite table_insert_ne by done. apply He.
  - f_equal. rewrite Et. by apply filter_ext.
Qed.

Lemma filter_keep {A} (f : A → bool) (l : list A) : (∀ x, x ∈ l → f x = false) → filter (λ x, f x = false) l = l.
Proof using Type.
  intros E. induction l as [|x l IH]; [done|]. rewrite filter_cons_True by (apply E; by left).
  f_equal. apply IH. intros y Hy. apply E. by right.
Qed.

(** A table of which nothing belongs to the case may count as erased. *)
Lemma erased_nothing P t db1 :
  (∀ r, r ∈ table t db → rule t r = false) → erased P db1 → erased (t :: P) db1.
Proof using Type.
  intros Hn [Hc He]. split; [done|]. intros t'.
  change (str_in t' (t :: P)) with ((t' =? t) || str_in t' P).
  destruct (t' =? t) eqn:E; [|apply He]. apply String.eqb_eq in E as ->. cbv [orb].
  rewrite He, (filter_keep (rule t)) by (by intros; apply Hn). by destruct (str_in t P).
Qed.

Lemma erased_nothing_of ts P db1 :
  (∀ t r, t ∈ ts → r ∈ table t db → rule t r = false) → erased P db1 → erased (rev ts ++ P) db1.
Proof using Type.
  revert P. induction ts as [|t ts IH]; intros P Hn He; cbn [rev]; [done|].
  rewrite <-app_assoc. apply IH; [intros t' r Ht; apply Hn; by right|]. apply erased_nothing; [|done].
  intros r. apply Hn. by left.
Qed.

(** The loop over tables that do not refer to a table still to come. *)
Fixpoint each_ready (ts P : list string) : bool :=
  match ts with
  | [] => true
  | t :: ts => children_first t P && negb (str_in t P) && each_ready ts (t :: P)
  end.

Lemma erases_each ts P (g : row → bool) :
  own_handoffs db → each_ready ts P = true → (∀ t r, t ∈ ts → r ∈ table t db → g r = rule t r) →
  erases P (rev ts ++ P) (for_each (λ t, _ ← delete_from t g; mret tt) ts) (λ _, True).
Proof using Hdb.
  intros Ho. revert P. induction ts as [|t ts IH]; intros P Hr Hg; cbn [for_each rev]; [by apply erases_ret|].
  cbn [each_ready] in Hr. rewrite !andb_true_iff, negb_true_iff in Hr. destruct Hr as [[Hc Ht] Hr].
  eapply erases_bind.
  - eapply erases_bind; [apply erases_delete; try done; intros; apply Hg; [by left|done]|].
    intros n _. by apply (erases_ret _ _ (λ _, True)).
  - intros _ _. rewrite <-app_assoc. apply IH; [done|]. intros t' r Ht'. apply Hg. by right.
Qed.

Definition research_tables : list string :=
  ["research_runs"; "research_idempotency"] ++ rev run_owned_tables ++ ["research_jobs"; "research_job_events"].

Lemma delete_research_erases :
  own_handoffs db → erases [] research_tables (delete_research tenant decision) (λ _, True).
Proof using Hdb.
  intros Ho. unfold delete_research, case_runs. eapply erases_bind; [by apply erases_select|].
  intros runs ->. fold runs_of_case. eapply erases_bind; [by apply erases_select|].
  intros jobs ->. fold jobs_of_case.
  eapply erases_bind; [by apply erases_delete|]. intros _ _.
  eapply erases_bind; [by apply erases_delete|]. intros _ _.
  eapply erases_bind.
  { apply erases_each; [done|done|]. intros t r Ht _. unfold run_owned_tables in Ht.
    elem_cases Ht; by subst t. }
  intros _ _. eapply erases_bind; [by apply erases_delete|]. intros _ _.
  eapply erases_bind; [by apply erases_delete|]. intros _ _. by apply erases_ret.
Qed.

Definition intake_tables : list string :=
  ["intake_records"; "intake_idempotency"] ++ rev intake_owned_tables.

Lemma no_intakes : intakes_of_case = [] → ∀ t r, t ∈ intake_tables → rule t r = false.
Proof using Type.
  intros E t r Ht. assert (about_intake r = false) as Ha.
  { destruct (about_intake r) eqn:Hr; [|done]. exfalso.
    apply about_intake_spec in Hr as (_ & _ & q & Hq & Hk & _).
    assert (q ∈ intakes_of_case) as Hin by by apply list_elem_of_filter.
    rewrite E in Hin. by apply elem_of_nil in Hin. }
  unfold intake_tables in Ht. elem_cases Ht; subst t; unfold rule; cbn; try done.
  rewrite E. by rewrite andb_false_r.
Qed.

Lemma delete_intakes_erases P :
  own_handoffs db → P = research_tables →
  erases P (intake_tables ++ P) (delete_intakes tenant decision) (λ _, True).
Proof using Hdb.
  intros Ho ->. unfold delete_intakes. eapply erases_bind; [by apply erases_select|].
  intros intakes ->. fold intakes_of_case. destruct intakes_of_case as [|i l] eqn:E.
  - intros db1 H1. exists tt, db1. split_and!; [done| |done].
    apply (erased_nothing_of (rev intake_tables) _ db1); [|done].
    intros t r Ht _. apply (no_intakes E). by apply list_elem_of_In, in_rev, list_elem_of_In.
  - rewrite <-E. fold about_intake. eapply erases_bind.
    { apply erases_each; [done|done|]. intros t r Ht _. unfold intake_owned_tables in Ht.
      elem_cases Ht; by subst t. }
    intros _ _. eapply erases_bind.
    { apply erases_delete; [done..|]. intros r _. unfold rule. cbn. rewrite bool_decide_false by (by rewrite E).
      by rewrite andb_true_r. }
    intros _ _. eapply erases_bind; [by apply erases_delete|]. intros _ _. by apply erases_ret.
Qed.

(** All the tables in the order they are emptied. *)
Definition erased_tables : list string :=
  ["decisions"; "idempotency"; "audit_events"; "reports"; "legal_holds"] ++ intake_tables ++ research_tables.

Lemma rules_erased t r : str_in t erased_tables = false → rule t r = false.
Proof using Type.
  unfold rule. intros Ht. destruct (assoc t rules) as [g|] eqn:E; [|done]. exfalso.
  apply assoc_elem in E. elem_cases E; injection E as -> ->; discriminate Ht.
Qed.

Lemma one_row_of_key k l v :
  NoDup (key_values k l) → (∃ r, r ∈ l ∧ covered k r = true ∧ project (key_columns k) r = Some v) →
  length (filter (λ r, key_value k r = Some v) l) = 1.
Proof using Type.
  unfold key_values. intros Hn (r & Hr & Hc & Hv).
  assert (key_value k r = Some v) as Hk by (unfold key_value; by rewrite Hc).
  clear Hc Hv. induction l as [|x l IH]; [by apply elem_of_nil in Hr|].
  cbn in Hn. rewrite filter_cons. apply elem_of_cons in Hr as [<-|Hr].
  - rewrite decide_True by done. rewrite Hk in Hn. apply NoDup_cons in Hn as [Hn _]. cbn. f_equal.
    apply length_zero_iff_nil, elem_of_nil_inv. intros y Hy.
    apply list_elem_of_filter in Hy as [Hy Hin]. apply Hn, list_elem_of_omap. by exists y.
  - destruct (decide (key_value k x = Some v)) as [Ex|Ex].
    + rewrite Ex in Hn. apply NoDup_cons in Hn as [Hn _]. destruct Hn. apply list_elem_of_omap. eauto.
    + apply IH; [|done]. destruct (key_value k x); [by apply NoDup_cons in Hn as [_ ?]|done].
Qed.

Lemma one_decision :
  (∃ r, r ∈ table "decisions" db ∧ keyed tenant "decision_id" decision r = true) →
  length (filter (λ r, rule "decisions" r = true) (table "decisions" db)) = 1.
Proof using Hdb.
  intros (r & Hr & Hk). pose proof Hdb as (Hkeys & _)%consistent_spec.
  assert (∀ r, rule "decisions" r = true ↔
    key_value (unique "decisions" ["tenant_id"; "decision_id"]) r = Some [PStr tenant; PStr decision]) as E.
  { intros r'. unfold rule. cbn [rules]. change (default _ _ r') with (keyed tenant "decision_id" decision r').
    rewrite keyed_spec. unfold key_value. cbn [covered unique key_where key_columns].
    rewrite project_Some. cbn. split; [|naive_solver].
    intros [E1 E2]. rewrite E1, E2. split; [done|]. rewrite !Forall_cons, E1, E2. by split_and!. }
  rewrite (list_filter_iff _ _ _ E).
  apply one_row_of_key; [apply Hkeys; by in_schema|]. exists r. split_and!; [done|done|].
  apply E in Hk. by unfold key_value in Hk.
Qed.

Definition decision_stored : Prop :=
  ∃ r, r ∈ table "decisions" db ∧ keyed tenant "decision_id" decision r = true.
Definition held_in_tables : Prop :=
  ∃ r, r ∈ table "legal_holds" db ∧ active_on tenant decision r = true.

Lemma no_decision :
  ¬ decision_stored → length (filter (λ r, rule "decisions" r = true) (table "decisions" db)) = 0.
Proof using Type.
  intros Hn. apply length_zero_iff_nil, elem_of_nil_inv. intros r [Hr Hin]%list_elem_of_filter.
  apply Hn. by exists r.
Qed.

Lemma active_hold_run :
  fetchone "legal_holds" (active_on tenant decision) db =
    (Ok (head (filter (λ r, active_on tenant decision r = true) (table "legal_holds" db))), db).
Proof using Type. done. Qed.

Lemma no_hold_run : ¬ held_in_tables → fetchone "legal_holds" (active_on tenant decision) db = (Ok None, db).
Proof using Type.
  intros Hn. rewrite active_hold_run. destruct (filter _ _) as [|r l] eqn:E; [done|]. destruct Hn.
  assert (r ∈ filter (λ r, active_on tenant decision r = true) (table "legal_holds" db)) as Hr
    by (rewrite E; by left).
  apply list_elem_of_filter in Hr as [? ?]. by exists r.
Qed.

(** The next statement of the run, which ends in [db2]. *)
Ltac delete_next t g :=
  match goal with
  | Ho : own_handoffs _, He : erased ?P ?db1 |- context [(delete_from t _ ≫= _) ?db1] =>
      let db2 := fresh "db" in let n := fresh "n" in let E := fresh in let He2 := fresh in let En := fresh in
      destruct (erases_delete P t g Ho eq_refl eq_refl (λ _ _, eq_refl) db1 He)
        as (n & db2 & E & He2 & En); rewrite (stateful_run _ _ _ _ _ E); clear He E
  end.

Lemma delete_statements_run :
  own_handoffs db → ¬ held_in_tables →
  ∃ db', erased erased_tables db' ∧
    _delete_case_data tenant decision db =
      (require (bool_decide (length (filter (λ r, rule "decisions" r = true) (table "decisions" db)) = 1))
         KeyError "CASE_NOT_FOUND", db').
Proof using Hdb.
  intros Ho Hh. unfold _delete_case_data. rewrite (stateful_run _ _ _ None db) by by apply no_hold_run.
  rewrite (stateful_run _ _ _ tt db) by done.
  destruct (delete_research_erases Ho db) as (? & db1 & E1 & H1 & _); [done|].
  rewrite (stateful_run _ _ _ _ _ E1).
  destruct (delete_intakes_erases _ Ho eq_refl db1 H1) as (? & db2 & E2 & H2 & _).
  rewrite (stateful_run _ _ _ _ _ E2). cbv zeta. clear H1 E1 E2.
  delete_next "legal_holds" (keyed tenant "decision_id" decision).
  delete_next "reports" (keyed tenant "decision_id" decision).
  delete_next "audit_events" (keyed tenant "decision_id" decision).
  delete_next "idempotency" (answers_case tenant decision).
  delete_next "decisions" (keyed tenant "decision_id" decision). subst.
  eexists. by split.
Qed.

Lemma erased_elem db' t r :
  own_handoffs db → erased erased_tables db' →
  r ∈ table t db' ↔ r ∈ table t db ∧ ¬ belongs db tenant decision t r.
Proof using Hdb.
  intros Ho [_ He]. rewrite He. destruct (str_in t erased_tables) eqn:Et.
  - rewrite list_elem_of_filter. split.
    + intros [Hr Hin]. split; [done|]. intros Hb%belongs_rule; [congruence|done].
    + intros [Hin Hb]. split; [|done]. destruct (rule t r) eqn:Hr; [|done].
      by destruct Hb; apply rule_belongs.
  - split; [|by intros [? _]]. intros Hin. split; [done|]. intros Hb%belongs_rule; [|done].
    by rewrite (rules_erased t r Et) in Hb.
Qed.

Lemma belongs_tenant t r : own_handoffs db → belongs db tenant decision t r → col "tenant_id" r = PStr tenant.
Proof using Hdb.
  intros Ho. induction 1 as [r _ [? _]%keyed_spec|r _ [? _]%keyed_spec|r _ Hk|r _ Hk|r _ Ht _|r i _ Hk _ _|
    f r p Hf _ _ Href%refers_spec _ IH]; try done.
  - by apply case_intake_tenant in Hk.
  - by apply answers_case_tenant in Hk.
  - by apply col_is_true in Ht.
  - by apply answers_case_tenant in Hk.
  - rewrite <-IH. unfold schema_foreign_keys in Hf. elem_cases Hf; subst f; apply Href.
Qed.
End case.

(** ** What the deletion of a case does *)

(** C9: the statements that delete a case do exactly that. With a hold on the case they refuse and
    change nothing; without the case they fail and the transaction changes nothing. Otherwise no
    foreign key stops them, every row that belongs to the case is gone (what refers to it, through
    however many tables, included), every other row of every table is still there in its place,
    what belongs to the case is the tenant's own, and the database is consistent. *)
Theorem case_erased_exactly db tenant decision :
  consistent schema db = true → own_handoffs db →
  (held_in_tables db tenant decision →
     atomic (_delete_case_data tenant decision) db = (raise LegalHoldActive "LEGAL_HOLD_ACTIVE", db)) ∧
  (¬ held_in_tables db tenant decision → ¬ decision_stored db tenant decision →
     atomic (_delete_case_data tenant decision) db = (raise KeyError "CASE_NOT_FOUND", db)) ∧
  (¬ held_in_tables db tenant decision → decision_stored db tenant decision →
     ∃ db', atomic (_delete_case_data tenant decision) db = (Ok tt, db') ∧
       consistent schema db' = true ∧
       ∀ t, table t db' `sublist_of` table t db ∧
         ∀ r, r ∈ table t db' ↔ r ∈ table t db ∧ ¬ belongs db tenant decision t r) ∧
  (∀ t r, belongs db tenant decision t r → col "tenant_id" r = PStr tenant).
Proof.
  intros Hdb Ho. split_and!; [| | |by intros; eapply belongs_tenant].
  - intros (r & Hr & Ha). unfold atomic, _delete_case_data. erewrite stateful_run by apply active_hold_run.
    assert (r ∈ filter (λ r, active_on tenant decision r = true) (table "legal_holds" db)) as Hin
      by by apply list_elem_of_filter.
    destruct (filter _ _) as [|q l]; [by apply elem_of_nil in Hin|]. done.
  - intros Hh Hd. destruct (delete_statements_run db tenant decision Hdb Ho Hh) as (db' & _ & E).
    rewrite no_decision in E by done. unfold atomic. by rewrite E.
  - intros Hh Hd. destruct (delete_statements_run db tenant decision Hdb Ho Hh) as (db' & He & E).
    rewrite one_decision in E by done. exists db'. split_and!.
    + by apply atomic_Ok.
    + apply He.
    + intros t. split; [|intros r; by apply erased_elem]. destruct He as [_ He]. rewrite He.
      destruct (str_in t _); [apply sublist_filter|done].
Qed.
End erasure.

(** ** Witnesses *)

Definition sample_session : SessionTime := λ t, Some t.
Definition sample_jsonb : JsonbText := λ _, "".

Definition owned (tenant : string) (columns : list (string * string)) : row :=
  ("tenant_id", PStr tenant) :: map (λ c, (c.1, PStr c.2)) columns.

Definition answer (tenant key : string) (response : pyval) : row :=
  owned tenant [("actor_id", "alice"); ("operation", "op"); ("idempotency_key", key);
                ("request_hash", "h")] ++ [("response_json", response)].

(** Two cases of one tenant, one of them with research, an intake and a report, and a case of the
    same name of another tenant. *)
Definition sample_tables : database := list_to_map
  [("decisions", [owned "t1" [("decision_id", "d1")]; owned "t1" [("decision_id", "d2")];
                  owned "t2" [("decision_id", "d1")]]);
   ("reports", [owned "t1" [("decision_id", "d1")]; owned "t2" [("decision_id", "d1")]]);
   ("research_runs", [owned "t1" [("research_run_id", "r1"); ("decision_file_id", "d1");
                                  ("semantic_fingerprint", "f1")]]);
   ("research_source_candidates", [owned "t1" [("research_run_id", "r1"); ("source_id", "s1")]]);
   ("research_source_snapshots",
     [owned "t1" [("research_run_id", "r1"); ("snapshot_id", "n1"); ("source_id", "s1");
                  ("content_hash", "c1")]]);
   ("research_handoffs",
     [owned "t1" [("research_run_id", "r1"); ("decision_file_id", "d1"); ("handoff_id", "o1")]]);
   ("intake_records",
     [owned "t1" [("intake_id", "i1")] ++
        [("record_json", PDict [("compiled_decision_id", PStr "d1")])]]);
   ("intake_facts", [owned "t1" [("intake_id", "i1"); ("fact_id", "a1")]]);
   ("idempotency", [answer "t1" "k1" (PDict [("decision_id", PStr "d1")]);
                    answer "t1" "k2" (PDict [("decision_id", PStr "d2")])]);
   ("intake_idempotency",
     [answer "t1" "k1" (PDict [("intake_id", PStr "i1"); ("raw_input", PStr "the customer's words");
                               ("compiled_decision_id", PNone)])])].

Definition without_case : result unit * database :=
  _delete_case_data (H0 := sample_jsonb) "t1" "d1" sample_tables.

Lemma elem_of_sample (l : list row) (f : row → bool) : existsb f l = false → ¬ ∃ r, r ∈ l ∧ f r = true.
Proof.
  intros Hf (r & Hr & E). rewrite existsb_false_Forall, Forall_forall in Hf.
  specialize (Hf r Hr). cbn in Hf. congruence.
Qed.

Lemma sample_own_handoffs : own_handoffs sample_tables.
Proof.
  intros h run Hh Hrun _. vm_compute in Hh, Hrun. elem_cases Hh. elem_cases Hrun. by subst.
Qed.

Lemma case_erased_exactly_witness :
  ∃ db', atomic (_delete_case_data (H0 := sample_jsonb) "t1" "d1") sample_tables = (Ok tt, db') ∧
    consistent schema db' = true ∧
    table "decisions" db' = [owned "t1" [("decision_id", "d2")]; owned "t2" [("decision_id", "d1")]].
Proof.
  destruct (case_erased_exactly (H0 := sample_jsonb) sample_tables "t1" "d1") as (_ & _ & Hx & _).
  - vm_compute. reflexivity.
  - exact sample_own_handoffs.
  - destruct Hx as (db' & E & Hc & _).
    + apply elem_of_sample. vm_compute. reflexivity.
    + exists (owned "t1" [("decision_id", "d1")]). split; [vm_compute; left|reflexivity].
    + exists db'. split; [exact E|]. split; [exact Hc|].
      assert (db' = without_case.2) as -> by
        (apply (proj1 (atomic_Ok _ _ _ _)) in E; unfold without_case; rewrite E; reflexivity).
      vm_compute. reflexivity.
Defined.

(** The answers an intake was given before it was compiled name no decision and survive the
    deletion of the case, the customer's words included. *)
Theorem intake_words_survive :
  without_case.1 = Ok tt ∧ table "intake_records" without_case.2 = [] ∧
  table "intake_idempotency" without_case.2 = table "intake_idempotency" sample_tables.
Proof. vm_compute. auto. Qed.
