(* ===== verification/LifecycleRefinement.v ===== *)
(** * The two deletion repositories agree

    [lifecycle/repository.py] keeps everything in memory, [lifecycle/postgresql.py] in tables.
    The relation [represents] says when the tables hold what the memory holds, and every call of
    the service keeps it: both repositories give the same answers, up to the spelling of the
    times PostgreSQL reads back. *)

From S2P Require Import Prelude PyVal Json Sha256 Sql Identity Retention RetentionProps LifecycleTables LifecycleTablesProps.
From stdpp Require Import options.

(** ** Lists in step *)

Lemma Forall2_filter {A B} (R : A → B → Prop) (P : A → Prop) (Q : B → Prop)
    `{∀ x, Decision (P x)} `{∀ y, Decision (Q y)} l k :
  Forall2 R l k → (∀ x y, R x y → P x ↔ Q y) →
  Forall2 (λ x y, R x y ∧ P x) (filter P l) (filter Q k).
Proof.
  intros HR HPQ. induction HR as [|x y l k Hxy HR IH]; [constructor|]. rewrite !filter_cons.
  destruct (decide (P x)) as [Hp|Hp].
  - rewrite decide_True by by apply (HPQ x y). by constructor.
  - rewrite decide_False by (intros Hq; by apply Hp, (HPQ x y)). done.
Qed.

Definition option_rel {A B} (R : A → B → Prop) (a : option A) (b : option B) : Prop :=
  match a, b with Some x, Some y => R x y | None, None => True | _, _ => False end.

Lemma Forall2_last {A B} (R : A → B → Prop) l k : Forall2 R l k → option_rel R (last l) (last k).
Proof.
  induction 1 as [|x y l k Hxy HR IH]; [done|]. rewrite !last_cons.
  destruct (last l), (last k); cbn in *; done.
Qed.

Section refinement.
Context `{HashAlg} `{Hmac} `{SessionTime} `{JsonbText} (secret : string).

(** A time read back from a column is stored as it is. *)
Context (Hsession : ∀ t s, session_time t = Some s → session_time s = Some s).

(** ** Requests up to the spelling of their times *)

Definition request_view (r : DeletionRequest) :=
  (del_tenant r, request_id r, del_decision r, case_ref_hash r, actor_hash r, idempotency_key_hash r,
   del_status r, reason_code r, session_time (requested_at r), session_time <$> completed_at r,
   legal_hold_active r, event_hash r, del_previous_hash r).

Definition same_request (r q : DeletionRequest) : Prop := request_view r = request_view q.

#[local] Instance same_request_equivalence : Equivalence same_request.
Proof using Type. split; unfold same_request; congruence || (intros ?; done). Qed.

Lemma request_values_same r q : same_request r q → _request_values r = _request_values q.
Proof using Type.
  unfold same_request, request_view. intros [= E1 E2 E3 E4 E5 E6 E7 E8 E9 E10 E11 E12 E13].
  unfold _request_values, timestamptz.
  assert (nullable_time (completed_at r) = nullable_time (completed_at q)) as ->.
  { unfold nullable_time, timestamptz. destruct (completed_at r), (completed_at q); cbn in *; try done.
    injection E10 as E10. by rewrite E10. }
  by rewrite E1, E2, E3, E4, E5, E6, E7, E8, E9.
Qed.

Lemma with_status_same r q s h c f :
  same_request r q → same_request (with_status r s h c f) (with_status q s h c f).
Proof using Type.
  unfold same_request, request_view, with_status. cbn. intros [=]. destruct f; congruence.
Qed.

Lemma with_event_same r q e : same_request r q → same_request (with_event r e) (with_event q e).
Proof using Type. unfold same_request, request_view, with_event. cbn. intros [=]. congruence. Qed.

(** ** What is read back *)

Lemma stored_event_read c e row :
  c = "request_id" ∨ c = "hold_id" → event_row c e = Ok row →
  _event_from_row (le_tenant e) row = Ok e ∧
  (∀ t id, keyed t c id row = true ↔ le_tenant e = t ∧ le_request e = id) ∧
  text_of (col "event_hash" row) = le_hash e.
Proof using Type.
  intros Hc E. unfold event_row in E. apply bind_Ok in E as (o & _ & E). injection E as <-.
  split_and!.
  - destruct Hc as [-> | ->], e; unfold _event_from_row, payload; cbn; by rewrite opt_text_nullable.
  - intros t id. rewrite keyed_spec. destruct Hc as [-> | ->]; cbn; naive_solver.
  - by destruct Hc as [-> | ->].
Qed.

Lemma status_of_text s : status_of (status_text s) = Some s.
Proof using Type. by destruct s. Qed.

Lemma stored_request_read r row event :
  _request_values r = Ok row → le_hash <$> event = Some (event_hash r) →
  del_previous_hash r = event ≫= le_previous →
  legal_hold_active r = bool_decide (del_status r = BLOCKED_BY_HOLD) →
  ∃ q, _request row event = Ok q ∧ same_request r q.
Proof using Hsession.
  intros E He Hp Hl. unfold _request_values in E.
  apply bind_Ok in E as (req & Er & E). apply bind_Ok in E as (com & Ec & E). injection E as <-.
  unfold _request. cbn -[status_of status_text]. rewrite status_of_text. cbn -[status_text]. eexists. split; [done|].
  destruct event as [e|]; [|done]. injection He as He. cbn in Hp.
  unfold same_request, request_view. cbn -[status_text]. rewrite Hl, He, Hp, opt_text_nullable.
  unfold timestamptz in Er. destruct (session_time (requested_at r)) as [s|] eqn:Es; [|done].
  injection Er as <-. cbn -[status_text]. rewrite (Hsession _ _ Es).
  assert (session_time <$> completed_at r = session_time <$> opt_text_of com) as ->.
  { unfold nullable_time, timestamptz in Ec. destruct (completed_at r) as [t|]; [|by injection Ec as <-].
    destruct (session_time t) as [u|] eqn:Eu; [|done]. injection Ec as <-. cbn.
    by rewrite (Hsession _ _ Eu), Eu. }
  repeat f_equal. destruct (del_status r); reflexivity.
Qed.

(** ** The relation *)

(** The event of a deletion request, not of a hold. *)
Definition of_request (e : LifecycleEvent) : bool := str_startswith "delete-" (le_request e).

Record represents (m : Memory) (db : database) : Prop := {
  rep_memory : memory_ok m;
  rep_consistent : consistent schema db = true;
  rep_handoffs : own_handoffs db;
  rep_cases : ∀ t d, d ∈ mem_cases m t ↔ decision_stored db t d;
  rep_holds : ∀ t d, (t, d) ∈ _holds m ↔ held_in_tables db t d;
  rep_requests : ∀ t id r, _requests m !! (t, id) = Some r →
    ∃ row, row ∈ table "deletion_requests" db ∧ _request_values r = Ok row;
  rep_rows : ∀ row, row ∈ table "deletion_requests" db →
    ∃ r, _requests m !! (del_tenant r, request_id r) = Some r ∧ _request_values r = Ok row;
  rep_fields : ∀ t id r, _requests m !! (t, id) = Some r →
    legal_hold_active r = bool_decide (del_status r = BLOCKED_BY_HOLD) ∧
    del_previous_hash r = mem_last_event t id m ≫= le_previous;
  rep_events : Forall2 (λ e row, event_row "request_id" e = Ok row)
    (filter (λ e, of_request e = true) (events m)) (table "lifecycle_audit_events" db);
  rep_hold_events : Forall2 (λ e row, event_row "hold_id" e = Ok row)
    (filter (λ e, of_request e = false) (events m)) (table "legal_hold_audit_events" db)
}.

Lemma delete_id_prefix id : is_delete_id id → str_startswith "delete-" id = true.
Proof using Type. by intros [x ->]. Qed.

(** The last event is found among the events of its table. *)
Lemma last_event_filter b t id m :
  str_startswith "delete-" id = b →
  mem_last_event t id m =
    last (filter (λ e, le_tenant e = t ∧ le_request e = id) (filter (λ e, of_request e = b) (events m))).
Proof using Type.
  intros Hb. rewrite mem_last_event_last. unfold events_of. f_equal. rewrite list_filter_filter.
  apply list_filter_iff. intros e. split; [|by intros [? _]].
  intros [? <-]. split; [done|]. exact Hb.
Qed.

Lemma fetchlast_event c t id m db tb b :
  c = "request_id" ∨ c = "hold_id" → str_startswith "delete-" id = b →
  Forall2 (λ e row, event_row c e = Ok row) (filter (λ e, of_request e = b) (events m)) (table tb db) →
  ∃ o, fetchlast tb (keyed t c id) db = (Ok o, db) ∧
    option_rel (λ e row, event_row c e = Ok row ∧ le_tenant e = t ∧ le_request e = id)
      (mem_last_event t id m) o.
Proof using Type.
  intros Hc Hb HF. eexists. split; [done|]. rewrite (last_event_filter b) by done.
  apply Forall2_last. apply (Forall2_filter _ (λ e, le_tenant e = t ∧ le_request e = id)); [done|].
  intros e row E. symmetry. by apply (stored_event_read c e row Hc E).
Qed.

Section reading.
Context (m : Memory) (db : database) (Hrep : represents m db).

Lemma pg_last_event t id :
  str_startswith "delete-" id = true → _last_event t id db = (Ok (mem_last_event t id m), db).
Proof using Hrep.
  intros Hid. destruct (fetchlast_event "request_id" t id m db _ true (or_introl eq_refl) Hid
    (rep_events _ _ Hrep)) as (o & E & Ho).
  unfold _last_event. rewrite (stateful_run _ _ _ o db) by done.
  destruct (mem_last_event t id m) as [e|], o as [row|]; try done. destruct Ho as (Er & Ht & _).
  destruct (stored_event_read "request_id" e row (or_introl eq_refl) Er) as (Ee & _). rewrite Ht in Ee.
  by rewrite (stateful_run _ _ _ e db) by (unfold lift; by rewrite Ee).
Qed.

Lemma pg_hold_event t id :
  str_startswith "delete-" id = false →
  pg_last_hold_event t id db = (Ok (mem_last_event t id m), db) ∧
  ∃ o, fetchlast "legal_hold_audit_events" (keyed t "hold_id" id) db = (Ok o, db) ∧
    ((λ r, text_of (col "event_hash" r)) <$> o) = le_hash <$> mem_last_event t id m.
Proof using Hrep.
  intros Hid. destruct (fetchlast_event "hold_id" t id m db _ false (or_intror eq_refl) Hid
    (rep_hold_events _ _ Hrep)) as (o & E & Ho).
  unfold pg_last_hold_event. rewrite (stateful_run _ _ _ o db) by done.
  destruct (mem_last_event t id m) as [e|], o as [row|]; try done; [|by split; [|exists None]].
  destruct Ho as (Er & Ht & _).
  destruct (stored_event_read "hold_id" e row (or_intror eq_refl) Er) as (Ee & _ & Eh). rewrite Ht in Ee.
  split; [by rewrite (stateful_run _ _ _ e db) by (unfold lift; by rewrite Ee)|].
  exists (Some row). cbn. by rewrite Eh.
Qed.

(** The row of a stored request, and what is read back of it. *)
Lemma request_columns r row :
  _request_values r = Ok row →
  col "tenant_id" row = PStr (del_tenant r) ∧ col "request_id" row = PStr (request_id r) ∧
  col "actor_hash" row = PStr (actor_hash r) ∧
  col "idempotency_key_hash" row = PStr (idempotency_key_hash r).
Proof using Type.
  intros E. unfold _request_values in E. apply bind_Ok in E as (req & _ & E).
  apply bind_Ok in E as (com & _ & E). by injection E as <-.
Qed.

Lemma read_stored t id r row :
  _requests m !! (t, id) = Some r → _request_values r = Ok row →
  ∃ q, read_request t row db = (Ok q, db) ∧ same_request r q ∧
    lift (S := database) (_request row (mem_last_event t id m)) db = (Ok q, db).
Proof using Hrep Hsession.
  intros Hl E. destruct (requests_ok m (rep_memory _ _ Hrep) _ _ _ Hl) as [(Ht & Hid & Hdel) _ He _].
  destruct (rep_fields _ _ Hrep _ _ _ Hl) as [Hh Hp].
  destruct (stored_request_read r row (mem_last_event t id m) E He Hp Hh) as (q & Eq & Hs).
  destruct (request_columns r row E) as (_ & Ei & _). exists q. unfold read_request.
  rewrite Ei. cbn [text_of]. rewrite Hid.
  rewrite (stateful_run _ _ _ (mem_last_event t id m) db) by (apply pg_last_event; by apply delete_id_prefix).
  unfold lift. rewrite Eq. done.
Qed.

(** The row a key of the table selects. *)
Lemma select_request t id :
  fetchone "deletion_requests" (keyed t "request_id" id) db =
    (Ok (_requests m !! (t, id) ≫= λ r, match _request_values r with Ok row => Some row | _ => None end), db).
Proof using Hrep.
  unfold fetchone, gets. f_equal. f_equal.
  assert (∀ row, row ∈ filter (λ r, keyed t "request_id" id r = true) (table "deletion_requests" db) ↔
    ∃ r, _requests m !! (t, id) = Some r ∧ _request_values r = Ok row) as Hf.
  { intros row. rewrite list_elem_of_filter, keyed_spec. split.
    - intros [[Et Ei] Hin]. destruct (rep_rows _ _ Hrep row Hin) as (r & Hl & E).
      destruct (request_columns r row E) as (Et' & Ei' & _). exists r. split; [|done].
      rewrite <-Hl. congruence.
    - intros (r & Hl & E). destruct (rep_requests _ _ Hrep _ _ _ Hl) as (row' & Hin & E').
      rewrite E in E'. injection E' as <-. destruct (request_columns r row E) as (Et' & Ei' & _).
      destruct (requests_ok m (rep_memory _ _ Hrep) _ _ _ Hl) as [(Ht & Hid & _) _ _ _].
      split; [|done]. split; congruence. }
  destruct (filter _ _) as [|row l] eqn:E; cbn.
  - destruct (_requests m !! (t, id)) as [r|] eqn:Hl; [|done]. exfalso.
    destruct (rep_requests _ _ Hrep _ _ _ Hl) as (row & Hin & Er).
    apply (elem_of_nil row), Hf. eauto.
  - destruct (proj1 (Hf row)) as (r & -> & Er); [by left|]. cbn. by rewrite Er.
Qed.

Lemma fetchone_is_Some t (g : row → bool) :
  ∃ o, fetchone t g db = (Ok o, db) ∧ (is_Some o ↔ ∃ r, r ∈ table t db ∧ g r = true).
Proof using Type.
  eexists. split; [done|]. destruct (filter _ _) as [|r l] eqn:E; cbn.
  - split; [by intros [? ?]|]. intros (r & Hr & Hg).
    assert (r ∈ filter (λ r, g r = true) (table t db)) as Hin by by apply list_elem_of_filter.
    rewrite E in Hin. by apply elem_of_nil in Hin.
  - split; [|done]. intros _. assert (r ∈ filter (λ r, g r = true) (table t db)) as Hin
      by (rewrite E; by left). apply list_elem_of_filter in Hin as [? ?]. eauto.
Qed.

Lemma pg_case t d : pg_case_exists t d db = (Ok (bool_decide (d ∈ mem_cases m t)), db).
Proof using Hrep.
  destruct (fetchone_is_Some "decisions" (keyed t "decision_id" d)) as (o & E & Ho).
  unfold pg_case_exists. rewrite (stateful_run _ _ _ o db) by done. unfold mret, stateful_ret. do 2 f_equal.
  apply bool_decide_ext. rewrite Ho. symmetry. apply (rep_cases _ _ Hrep).
Qed.

Lemma pg_hold t d : pg_active_hold t d db = (Ok (bool_decide ((t, d) ∈ _holds m)), db).
Proof using Hrep.
  destruct (fetchone_is_Some "legal_holds" (active_on t d)) as (o & E & Ho).
  unfold pg_active_hold. rewrite (stateful_run _ _ _ o db) by done. unfold mret, stateful_ret. do 2 f_equal.
  apply bool_decide_ext. rewrite Ho. symmetry. apply (rep_holds _ _ Hrep).
Qed.

(** What both repositories find under a name. *)
Lemma pg_request t id :
  ∃ o, pg_get_request t id db = (Ok o, db) ∧ option_rel same_request (_requests m !! (t, id)) o.
Proof using Hrep Hsession.
  unfold pg_get_request. erewrite stateful_run by apply select_request.
  destruct (_requests m !! (t, id)) as [r|] eqn:Hl; cbn; [|by exists None].
  destruct (rep_requests _ _ Hrep _ _ _ Hl) as (row & _ & E). rewrite E.
  destruct (read_stored t id r row Hl E) as (q & Eq & Hs & _). exists (Some q).
  by rewrite (stateful_run _ _ _ q db).
Qed.

Lemma pg_replay t a k :
  ∃ o, pg_get_by_idempotency t a k db = (Ok o, db) ∧
    option_rel same_request (match _idempotency m !! (t, a, k) with
                             | Some id => _requests m !! (t, id) | None => None end) o.
Proof using Hrep Hsession.
  set (g := λ r : row, keyed t "actor_hash" a r && col_is "idempotency_key_hash" k r).
  assert (∀ row, row ∈ filter (λ r, g r = true) (table "deletion_requests" db) →
    ∃ id r, _idempotency m !! (t, a, k) = Some id ∧ _requests m !! (t, id) = Some r ∧
      _request_values r = Ok row) as Hf.
  { intros row [Hg Hin]%list_elem_of_filter. unfold g in Hg.
    rewrite andb_true_iff, keyed_spec, col_is_true in Hg. destruct Hg as [[Et Ea] Ek].
    destruct (rep_rows _ _ Hrep row Hin) as (r & Hl & E).
    destruct (request_columns r row E) as (Et' & _ & Ea' & Ek').
    destruct (requests_ok m (rep_memory _ _ Hrep) _ _ _ Hl) as [_ _ _ Hi].
    exists (request_id r), r. split_and!; [|by congruence|done].
    rewrite <-Hi. congruence. }
  assert (fetchone "deletion_requests" g db =
    (Ok (head (filter (λ r, g r = true) (table "deletion_requests" db))), db)) as Ef by done.
  unfold pg_get_by_idempotency. rewrite (stateful_run _ _ _ _ _ Ef). clear Ef.
  destruct (filter (λ r, g r = true) (table "deletion_requests" db)) as [|row l] eqn:E.
  - exists None. split; [done|].
    destruct (_idempotency m !! (t, a, k)) as [id|] eqn:Ei; [|done].
    destruct (index_ok m (rep_memory _ _ Hrep) _ _ _ _ Ei) as (r & Hl & Ha & Hk). rewrite Hl.
    destruct (rep_requests _ _ Hrep _ _ _ Hl) as (row & Hin & Er).
    destruct (request_columns r row Er) as (Et' & _ & Ea' & Ek').
    destruct (requests_ok m (rep_memory _ _ Hrep) _ _ _ Hl) as [(Ht & _ & _) _ _ _].
    exfalso. apply (elem_of_nil row). rewrite <-E. apply list_elem_of_filter. split; [|done].
    unfold g. rewrite andb_true_iff, keyed_spec, col_is_true. split_and!; congruence.
  - destruct (Hf row) as (id & r & Ei & Hl & Er); [by left|]. rewrite Ei, Hl.
    destruct (read_stored t id r row Hl Er) as (q & Eq & Hs & _). exists (Some q). split; [|done].
    cbn [head]. by rewrite (stateful_run _ _ _ q db).
Qed.
End reading.

(** ** Appending events *)

Definition fresh_event (l : list LifecycleEvent) (e : LifecycleEvent) : Prop :=
  ∀ e', e' ∈ l → (le_tenant e', le_id e') ≠ (le_tenant e, le_id e).

Lemma event_row_columns c e row :
  c = "request_id" ∨ c = "hold_id" → event_row c e = Ok row →
  col "tenant_id" row = PStr (le_tenant e) ∧ col "event_id" row = PStr (le_id e) ∧
  col c row = PStr (le_request e).
Proof using Type.
  intros Hc E. unfold event_row in E. apply bind_Ok in E as (o & _ & E). injection E as <-.
  by destruct Hc as [-> | ->].
Qed.

Lemma event_row_defined c e s :
  session_time (le_occurred_at e) = Some s → ∃ row, event_row c e = Ok row.
Proof using Type. intros E. unfold event_row, timestamptz. rewrite E. by eexists. Qed.

Lemma fresh_row c l rows e row r' v :
  c = "request_id" ∨ c = "hold_id" → Forall2 (λ e row, event_row c e = Ok row) l rows →
  fresh_event l e → event_row c e = Ok row → r' ∈ rows →
  project ["tenant_id"; "event_id"] row = Some v → project ["tenant_id"; "event_id"] r' ≠ Some v.
Proof using Type.
  intros Hc HF Hfr E Hr' Hv Hv'. apply Forall2_flip in HF.
  apply list_elem_of_lookup in Hr' as [i Hi]. destruct (Forall2_lookup_l _ _ _ _ _ HF Hi) as (e' & He' & E').
  destruct (event_row_columns c e row Hc E) as (Et & Ei & _).
  destruct (event_row_columns c e' r' Hc E') as (Et' & Ei' & _).
  apply project_Some in Hv as [<- _], Hv' as [Hx _]. cbn in Hx. rewrite Et, Ei, Et', Ei' in Hx.
  apply (Hfr e'); [by eapply list_elem_of_lookup_2|]. congruence.
Qed.

Lemma append_event_run db l e s :
  consistent schema db = true →
  Forall2 (λ e row, event_row "request_id" e = Ok row) l (table "lifecycle_audit_events" db) →
  fresh_event l e → session_time (le_occurred_at e) = Some s →
  (∃ row, row ∈ table "deletion_requests" db ∧
     col "tenant_id" row = PStr (le_tenant e) ∧ col "request_id" row = PStr (le_request e)) →
  ∃ row, event_row "request_id" e = Ok row ∧
    let db' := <["lifecycle_audit_events" := table "lifecycle_audit_events" db ++ [row]]> db in
    _append_event e db = (Ok tt, db') ∧ consistent schema db' = true.
Proof using Type.
  intros Hc HF Hfr Hs (q & Hq & Eqt & Eqi). destruct (event_row_defined "request_id" e s Hs) as [row E].
  exists row. split; [done|]. cbv zeta.
  destruct (event_row_columns "request_id" e row (or_introl eq_refl) E) as (Et & Ei & Er).
  assert (consistent schema (<["lifecycle_audit_events" := table "lifecycle_audit_events" db ++ [row]]> db)
    = true) as Hc'.
  { apply consistent_insert; [done|..].
    - intros k v Hk Hkt _ Hv r' Hr' _. schema_cases Hk; subst k; try discriminate Hkt.
      by apply (fresh_row "request_id" l (table "lifecycle_audit_events" db) e row r' v); [left|..].
    - intros f v Hf Hft Hv. schema_cases Hf; subst f; try discriminate Hft. exists q. split; [done|].
      cbn in *. rewrite Et, Er in Hv. rewrite Eqt, Eqi. exact Hv.
    - intros cs Hn. schema_cases Hn; try discriminate Hn; injection Hn as ->; cbn;
        rewrite ?Et, ?Ei, ?Er; by eexists. }
  split; [|done]. unfold _append_event. rewrite (stateful_run _ _ _ row db) by (unfold lift; by rewrite E).
  by apply insert_run.
Qed.

Lemma append_hold_event_run db l e s :
  consistent schema db = true →
  Forall2 (λ e row, event_row "hold_id" e = Ok row) l (table "legal_hold_audit_events" db) →
  fresh_event l e → session_time (le_occurred_at e) = Some s →
  ∃ row, event_row "hold_id" e = Ok row ∧
    let db' := <["legal_hold_audit_events" := table "legal_hold_audit_events" db ++ [row]]> db in
    _append_hold_event e db = (Ok tt, db') ∧ consistent schema db' = true.
Proof using Type.
  intros Hc HF Hfr Hs. destruct (event_row_defined "hold_id" e s Hs) as [row E].
  exists row. split; [done|]. cbv zeta.
  destruct (event_row_columns "hold_id" e row (or_intror eq_refl) E) as (Et & Ei & Er).
  assert (consistent schema (<["legal_hold_audit_events" := table "legal_hold_audit_events" db ++ [row]]> db)
    = true) as Hc'.
  { apply consistent_insert; [done|..].
    - intros k v Hk Hkt _ Hv r' Hr' _. schema_cases Hk; subst k; try discriminate Hkt.
      by apply (fresh_row "hold_id" l (table "legal_hold_audit_events" db) e row r' v); [right|..].
    - intros f v Hf Hft Hv. schema_cases Hf; subst f; discriminate Hft.
    - intros cs Hn. schema_cases Hn; try discriminate Hn; injection Hn as ->; cbn;
        rewrite ?Et, ?Ei, ?Er; by eexists. }
  split; [|done]. unfold _append_hold_event.
  rewrite (stateful_run _ _ _ row db) by (unfold lift; by rewrite E). by apply insert_run.
Qed.

(** ** Keeping the relation *)

(** A request is stored and its event recorded. *)
Lemma represents_request m db m' db' r e row erow :
  represents m db → memory_ok m' →
  _requests m' = <[(del_tenant r, request_id r) := r]> (_requests m) → events m' = events m ++ [e] →
  of_request e = true → le_tenant e = del_tenant r → le_request e = request_id r →
  legal_hold_active r = bool_decide (del_status r = BLOCKED_BY_HOLD) → del_previous_hash r = le_previous e →
  _request_values r = Ok row → event_row "request_id" e = Ok erow →
  (∀ x, x ∈ table "deletion_requests" db' ↔ x = row ∨
     x ∈ table "deletion_requests" db ∧ keyed (del_tenant r) "request_id" (request_id r) x = false) →
  table "lifecycle_audit_events" db' = table "lifecycle_audit_events" db ++ [erow] →
  table "legal_hold_audit_events" db' = table "legal_hold_audit_events" db →
  consistent schema db' = true → own_handoffs db' →
  (∀ t d, d ∈ mem_cases m' t ↔ decision_stored db' t d) →
  (∀ t d, (t, d) ∈ _holds m' ↔ held_in_tables db' t d) →
  represents m' db'.
Proof using Type.
  intros Hrep Hm' Er Ee Hof Het Heq Hh Hp Hrow Herow Hdr Hae Hhe Hc Ho Hcases Hholds.
  split; [done..| | | | |].
  - intros t id r0 Hl. rewrite Er in Hl.
    destruct (decide ((del_tenant r, request_id r) = (t, id))) as [E|Hne].
    + rewrite E, lookup_insert_eq in Hl. injection Hl as <-. exists row. split; [|done]. apply Hdr. by left.
    + rewrite lookup_insert_ne in Hl by done. destruct (rep_requests _ _ Hrep _ _ _ Hl) as (row0 & Hin & E0).
      exists row0. split; [|done]. apply Hdr. right. split; [done|].
      destruct (requests_ok m (rep_memory _ _ Hrep) _ _ _ Hl) as [(Ht0 & Hi0 & _) _ _ _].
      destruct (request_columns r0 row0 E0) as (Ct & Ci & _).
      destruct (keyed _ _ _ row0) eqn:Ek; [|done]. apply keyed_spec in Ek as [Ek1 Ek2].
      destruct Hne. rewrite Ct in Ek1. rewrite Ci in Ek2. congruence.
  - intros x [->|[Hin Hk]]%Hdr.
    + exists r. by rewrite Er, lookup_insert_eq.
    + destruct (rep_rows _ _ Hrep x Hin) as (r0 & Hl & E0). exists r0. split; [|done].
      rewrite Er, lookup_insert_ne; [done|]. intros [= Ht Hi].
      destruct (request_columns r0 x E0) as (Ct & Ci & _).
      assert (keyed (del_tenant r) "request_id" (request_id r) x = true) as Hk'
        by (apply keyed_spec; by rewrite Ct, Ci, Ht, Hi). congruence.
  - intros t id r0 Hl. rewrite Er in Hl. rewrite (mem_last_event_snoc m m' e t id Ee).
    destruct (decide ((del_tenant r, request_id r) = (t, id))) as [E|Hne].
    + rewrite E, lookup_insert_eq in Hl. injection Hl as <-. injection E as <- <-.
      rewrite decide_True by done. done.
    + rewrite lookup_insert_ne in Hl by done. rewrite decide_False; [by apply (rep_fields _ _ Hrep)|].
      intros [E1 E2]. apply Hne. congruence.
  - rewrite Ee, Hae, filter_app. apply Forall2_app; [apply Hrep|].
    rewrite filter_cons_True by done. repeat constructor. done.
  - rewrite Ee, Hhe, filter_app. rewrite (filter_cons_False _ e) by (by rewrite Hof).
    rewrite filter_nil, app_nil_r. apply Hrep.
Qed.

(** A hold is set or released, a case added: the requests stay. *)
Lemma represents_holds m db m' db' es rows :
  represents m db → memory_ok m' →
  _requests m' = _requests m → events m' = events m ++ es → Forall (λ e, of_request e = false) es →
  Forall2 (λ e row, event_row "hold_id" e = Ok row) es rows →
  table "deletion_requests" db' = table "deletion_requests" db →
  table "lifecycle_audit_events" db' = table "lifecycle_audit_events" db →
  table "legal_hold_audit_events" db' = table "legal_hold_audit_events" db ++ rows →
  consistent schema db' = true → own_handoffs db' →
  (∀ t d, d ∈ mem_cases m' t ↔ decision_stored db' t d) →
  (∀ t d, (t, d) ∈ _holds m' ↔ held_in_tables db' t d) →
  represents m' db'.
Proof using Type.
  intros Hrep Hm' Er Ee Hof HF Hdr Hae Hhe Hc Ho Hcases Hholds.
  assert (filter (λ e, of_request e = true) es = [] ∧ filter (λ e, of_request e = false) es = es) as [E1 E2].
  { clear -Hof. induction Hof as [|e es He _ [IH1 IH2]]; [done|]. rewrite !filter_cons, He.
    rewrite decide_False, decide_True, IH1, IH2 by done. done. }
  split; [done..| | | | |].
  - intros t id r0 Hl. rewrite Er in Hl. rewrite Hdr. by apply (rep_requests _ _ Hrep t id).
  - intros x. rewrite Hdr, Er. apply (rep_rows _ _ Hrep).
  - intros t id r0 Hl. rewrite Er in Hl. destruct (rep_fields _ _ Hrep t id r0 Hl) as [F1 F2].
    split; [done|]. rewrite F2. f_equal.
    destruct (requests_ok m (rep_memory _ _ Hrep) _ _ _ Hl) as [(_ & _ & Hdel) _ _ _].
    rewrite !(last_event_filter true) by by apply delete_id_prefix. by rewrite Ee, filter_app, E1, app_nil_r.
  - by rewrite Ee, Hae, filter_app, E1, app_nil_r; apply Hrep.
  - rewrite Ee, Hhe, filter_app, E2. apply Forall2_app; [apply Hrep|done].
Qed.

(** ** Writing requests *)

Lemma col_assoc_set c k v (r : row) : col c (assoc_set k v r) = if c =? k then v else col c r.
Proof using Type.
  unfold col. induction r as [|[k' x] r IH]; cbn.
  - by destruct (c =? k).
  - destruct (k =? k') eqn:E; cbn.
    + apply String.eqb_eq in E as <-. by destruct (c =? k) eqn:E.
    + destruct (c =? k') eqn:E'; [|done]. apply String.eqb_eq in E' as ->.
      by rewrite String.eqb_sym, E.
Qed.

(** The next form of a request, on either side. *)
Definition next (r : DeletionRequest) (s : DeletionStatus) (hold : bool) (completed : option string)
    (forget : bool) (e : LifecycleEvent) : DeletionRequest :=
  with_event (with_status r s hold completed forget) e.

Lemma next_same r q s h c f e : same_request r q → same_request (next r s h c f e) (next q s h c f e).
Proof using Type. intros. by apply with_event_same, with_status_same. Qed.

Lemma same_key r q :
  same_request r q → del_tenant q = del_tenant r ∧ request_id q = request_id r ∧
    del_decision q = del_decision r ∧ del_status q = del_status r ∧ event_hash q = event_hash r ∧
    case_ref_hash q = case_ref_hash r ∧ actor_hash q = actor_hash r ∧
    idempotency_key_hash q = idempotency_key_hash r ∧ reason_code q = reason_code r.
Proof using Type. unfold same_request, request_view. intros [=]. by repeat split. Qed.

(** Two rows of one request are one row. *)
Lemma only_row m db r row x :
  represents m db → _requests m !! (del_tenant r, request_id r) = Some r → _request_values r = Ok row →
  x ∈ table "deletion_requests" db →
  keyed (del_tenant r) "request_id" (request_id r) x = true → x = row.
Proof using Type.
  intros Hrep Hl E Hin [Ht Hi]%keyed_spec. destruct (rep_rows _ _ Hrep x Hin) as (r' & Hl' & E').
  destruct (request_columns r' x E') as (Ct & Ci & _). rewrite Ct in Ht. rewrite Ci in Hi.
  assert (del_tenant r' = del_tenant r ∧ request_id r' = request_id r) as [E1 E2] by (split; congruence).
  rewrite E1, E2, Hl in Hl'. congruence.
Qed.

Lemma next_row r row s h c f e com :
  _request_values r = Ok row → nullable_time c = Ok com →
  _request_values (next r s h c f e) =
    Ok (assoc_set "completed_at" com (assoc_set "status" (PStr (status_text s))
         (assoc_set "decision_id" (nullable (if f then None else del_decision r)) row))).
Proof using Type.
  intros E Ec. unfold _request_values in *. apply bind_Ok in E as (req & Er & E).
  apply bind_Ok in E as (com0 & _ & E). injection E as <-.
  unfold next, with_event, with_status. cbn -[nullable_time timestamptz status_text].
  rewrite Er, Ec. reflexivity.
Qed.

Lemma update_append m db db1 r q s h c f e com u :
  represents m db → consistent schema db1 = true →
  (∀ t, t ∈ ["deletion_requests"; "lifecycle_audit_events"] → table t db1 = table t db) →
  _requests m !! (del_tenant r, request_id r) = Some r → same_request r q →
  nullable_time c = Ok com → session_time (le_occurred_at e) = Some u →
  of_request e = true → le_tenant e = del_tenant r → le_request e = request_id r →
  fresh_event (events m) e →
  let q' := next q s h c f e in
  ∃ row erow db', (_ ← _update_request q'; _ ← _append_event e; mret q') db1 = (Ok q', db') ∧
    _request_values (next r s h c f e) = Ok row ∧ event_row "request_id" e = Ok erow ∧
    consistent schema db' = true ∧
    (∀ x, x ∈ table "deletion_requests" db' ↔ x = row ∨
       x ∈ table "deletion_requests" db ∧ keyed (del_tenant r) "request_id" (request_id r) x = false) ∧
    table "lifecycle_audit_events" db' = table "lifecycle_audit_events" db ++ [erow] ∧
    ∀ t, t ∉ ["deletion_requests"; "lifecycle_audit_events"] → table t db' = table t db1.
Proof using Hsession.
  intros Hrep Hc1 Hsame Hl Hrq Hcom Hu Hof Het Heq Hfr q'.
  destruct (rep_requests _ _ Hrep _ _ _ Hl) as (row0 & Hin0 & E0).
  destruct (same_key r q Hrq) as (Eqt & Eqi & Eqd & _).
  set (g := λ old : row, assoc_set "completed_at" com (assoc_set "status" (PStr (status_text s))
         (assoc_set "decision_id" (nullable (if f then None else del_decision r)) old))).
  set (p := keyed (del_tenant r) "request_id" (request_id r)).
  set (db2 := <["deletion_requests" := map (λ r, if p r then g r else r) (table "deletion_requests" db1)]> db1).
  assert (consistent schema db2 = true) as Hc2.
  { unfold db2. rewrite consistent_update; [done|]. intros r1 c1 Hc. vm_compute in Hc.
    elem_cases Hc; subst c1; unfold g; by rewrite !col_assoc_set. }
  assert (_update_request q' db1 = (Ok tt, db2)) as Eu.
  { unfold _update_request. rewrite (stateful_run _ _ _ com db1) by (unfold lift; cbn; by rewrite Hcom).
    cbn [del_tenant request_id del_decision del_status q' next with_event with_status].
    rewrite Eqt, Eqi, Eqd. by erewrite stateful_run by by apply update_run. }
  assert (∀ x, x ∈ table "deletion_requests" db2 ↔ x = g row0 ∨
    x ∈ table "deletion_requests" db ∧ p x = false) as Hdr2.
  { intros x. unfold db2. rewrite table_insert_eq, Hsame, list_elem_of_fmap by set_solver. split.
    - intros (y & -> & Hy). destruct (p y) eqn:Ep; [left|right; done]. f_equal. by eapply only_row.
    - intros [->|[Hx Hp]]; [|exists x; by rewrite Hp]. exists row0.
      assert (p row0 = true) as ->; [|done]. destruct (request_columns r row0 E0) as (Ct & Ci & _).
      by apply keyed_spec. }
  destruct (append_event_run db2 (filter (λ e, of_request e = true) (events m)) e u) as (erow & Ee & Ea & Hc3);
    [done| | |done| |].
  { unfold db2. rewrite table_insert_ne, Hsame by (done || set_solver). apply Hrep. }
  { intros e' [_ He']%list_elem_of_filter. by apply Hfr. }
  { exists (g row0). split; [apply Hdr2; by left|]. unfold g. rewrite !col_assoc_set. cbn.
    destruct (request_columns r row0 E0) as (Ct & Ci & _). split; congruence. }
  exists (g row0), erow, (<["lifecycle_audit_events" := table "lifecycle_audit_events" db2 ++ [erow]]> db2).
  split_and!; [|by apply next_row|done|done| | |].
  - rewrite (stateful_run _ _ _ _ _ Eu). by rewrite (stateful_run _ _ _ _ _ Ea).
  - intros x. by rewrite table_insert_ne.
  - rewrite table_insert_eq. unfold db2. by rewrite table_insert_ne, Hsame by (done || set_solver).
  - intros t Ht. unfold db2. rewrite !table_insert_ne; [done|set_solver..].
Qed.

Definition case_tables : list string := ["decisions"; "legal_holds"; "research_runs"; "research_handoffs"].

Lemma case_tables_same db db' :
  (∀ t, t ∈ case_tables → table t db' = table t db) →
  (own_handoffs db → own_handoffs db') ∧ (∀ t d, decision_stored db' t d ↔ decision_stored db t d) ∧
  (∀ t d, held_in_tables db' t d ↔ held_in_tables db t d).
Proof using Type.
  intros E. unfold own_handoffs, decision_stored, held_in_tables.
  rewrite !E by in_schema. done.
Qed.

(** A status change of a stored request: the same answer and the same state on both sides. *)
Lemma persist_update m db r q s h c f e com u :
  represents m db → _requests m !! (del_tenant r, request_id r) = Some r → same_request r q →
  nullable_time c = Ok com → session_time (le_occurred_at e) = Some u →
  of_request e = true → le_tenant e = del_tenant r → le_request e = request_id r →
  h = bool_decide (s = BLOCKED_BY_HOLD) → fresh_event (events m) e → le_previous e = Some (event_hash r) →
  memory_ok (store_request (next r s h c f e) e m) →
  ∃ db', pg_persist_transition (next q s h c f e) e (Some (del_status r)) db = (Ok (next q s h c f e), db') ∧
    represents (store_request (next r s h c f e) e m) db'.
Proof using Hsession.
  intros Hrep Hl Hrq Hcom Hu Hof Het Heq Hh Hfr Hprev Hm'.
  destruct (rep_requests _ _ Hrep _ _ _ Hl) as (row0 & Hin0 & E0).
  destruct (read_stored m db Hrep _ _ r row0 Hl E0) as (q1 & _ & Hs1 & Er1).
  destruct (same_key r q1 Hs1) as (_ & _ & _ & Es & Eh & _).
  destruct (same_key r q Hrq) as (Eqt & Eqi & _).
  destruct (requests_ok m (rep_memory _ _ Hrep) _ _ _ Hl) as [(_ & _ & Hdel) _ _ _].
  destruct (update_append m db db r q s h c f e com u) as (row & erow & db' & Erun & Erow & Eerow &
    Hc' & Hdr & Hae & Hrest); try done; [apply Hrep|].
  exists db'. split.
  - unfold pg_persist_transition. apply atomic_Ok.
    cbn [del_tenant request_id next with_event with_status]. rewrite Eqt, Eqi.
    erewrite stateful_run by by apply select_request. rewrite Hl. cbn [mbind option_bind]. rewrite E0.
    rewrite (stateful_run _ _ _ _ _ (pg_last_event m db Hrep _ _ (delete_id_prefix _ Hdel))).
    rewrite (stateful_run _ _ _ _ _ Er1). rewrite bool_decide_true by done.
    unfold _assert_event_tip. rewrite bool_decide_true by congruence.
    rewrite (stateful_run _ _ _ tt db) by done. exact Erun.
  - destruct (case_tables_same db db') as (Ho & Hd & Hh');
      [intros t Ht; apply Hrest; unfold case_tables in Ht; set_solver|].
    apply (represents_request m db _ db' (next r s h c f e) e row erow); try done.
    + rewrite Hrest by set_solver. done.
    + apply Ho, Hrep.
    + intros t d. rewrite Hd. apply (rep_cases _ _ Hrep).
    + intros t d. rewrite Hh'. apply (rep_holds _ _ Hrep).
Qed.

(** A new request. *)
Lemma persist_new m db r e row u :
  represents m db → _requests m !! (del_tenant r, request_id r) = None →
  _idempotency m !! (del_tenant r, actor_hash r, idempotency_key_hash r) = None →
  _request_values r = Ok row → session_time (le_occurred_at e) = Some u →
  of_request e = true → le_tenant e = del_tenant r → le_request e = request_id r →
  legal_hold_active r = bool_decide (del_status r = BLOCKED_BY_HOLD) → del_previous_hash r = le_previous e →
  fresh_event (events m) e → le_previous e = None → memory_ok (store_request r e m) →
  ∃ db', pg_persist_transition r e None db = (Ok r, db') ∧ represents (store_request r e m) db'.
Proof using Hsession.
  intros Hrep Hl Hi Erow Hu Hof Het Heq Hh Hp Hfr Hprev Hm'.
  destruct (request_columns r row Erow) as (Ct & Ci & Ca & Ck).
  set (db1 := <["deletion_requests" := table "deletion_requests" db ++ [row]]> db).
  assert (∀ x, x ∈ table "deletion_requests" db →
    (col "tenant_id" x = PStr (del_tenant r) → col "request_id" x ≠ PStr (request_id r)) ∧
    (col "tenant_id" x = PStr (del_tenant r) → col "actor_hash" x = PStr (actor_hash r) →
     col "idempotency_key_hash" x ≠ PStr (idempotency_key_hash r))) as Hnew.
  { intros x Hx. destruct (rep_rows _ _ Hrep x Hx) as (r0 & Hl0 & E0).
    destruct (request_columns r0 x E0) as (Ct0 & Ci0 & Ca0 & Ck0). rewrite Ct0, Ci0, Ca0, Ck0.
    destruct (requests_ok m (rep_memory _ _ Hrep) _ _ _ Hl0) as [_ _ _ Hi0].
    split; intros; congruence. }
  assert (consistent schema db1 = true) as Hc1.
  { apply consistent_insert; [apply Hrep|..].
    - intros k v Hk Hkt _ Hv r' Hr' _ Hv'. destruct (Hnew r' Hr') as [N1 N2].
      apply project_Some in Hv as [<- _], Hv' as [Hx _].
      schema_cases Hk; subst k; try discriminate Hkt; cbn in Hx; rewrite ?Ct, ?Ci, ?Ca, ?Ck in Hx;
        simplify_eq; naive_solver.
    - intros f v Hf Hft Hv. schema_cases Hf; subst f; discriminate Hft.
    - intros cs Hn. schema_cases Hn; try discriminate Hn; injection Hn as ->; cbn;
        rewrite ?Ct, ?Ci, ?Ca, ?Ck; by eexists. }
  destruct (append_event_run db1 (filter (λ e, of_request e = true) (events m)) e u) as (erow & Ee & Ea & Hc2);
    [done| | |done| |].
  { unfold db1. rewrite table_insert_ne by done. apply Hrep. }
  { intros e' [_ He']%list_elem_of_filter. by apply Hfr. }
  { exists row. unfold db1. rewrite table_insert_eq, elem_of_app. split; [right; by left|].
    by rewrite Ct, Ci, Het, Heq. }
  eexists. split.
  - unfold pg_persist_transition. apply atomic_Ok.
    erewrite stateful_run by by apply select_request. rewrite Hl. cbn [mbind option_bind].
    rewrite (stateful_run _ _ _ tt db) by done. rewrite Hprev.
    rewrite (stateful_run _ _ _ tt db) by done.
    rewrite (stateful_run _ _ _ tt db1); [by rewrite (stateful_run _ _ _ _ _ Ea)|].
    unfold _insert_request. rewrite (stateful_run _ _ _ row db) by (unfold lift; by rewrite Erow).
    by apply insert_run.
  - set (db' := <["lifecycle_audit_events" := table "lifecycle_audit_events" db1 ++ [erow]]> db1).
    assert (∀ t, t ∉ ["deletion_requests"; "lifecycle_audit_events"] → table t db' = table t db) as Hrest
      by (intros t Ht; unfold db', db1; rewrite !table_insert_ne; [done|set_solver..]).
    destruct (case_tables_same db db') as (Ho & Hd & Hh');
      [intros t Ht; apply Hrest; unfold case_tables in Ht; set_solver|].
    apply (represents_request m db _ db' r e row erow); try done.
    + intros x. unfold db', db1. rewrite table_insert_ne, table_insert_eq, elem_of_app, list_elem_of_singleton by done.
      split; [|intros [->|[Hx _]]; auto]. intros [Hx| ->]; [right|by left]. split; [done|].
      destruct (Hnew x Hx) as [N1 _]. destruct (keyed _ _ _ x) eqn:Ek; [|done].
      apply keyed_spec in Ek as [Ek1 Ek2]. by destruct (N1 Ek1).
    + unfold db', db1. by rewrite table_insert_eq, table_insert_ne.
    + rewrite Hrest by set_solver. done.
    + apply Ho, Hrep.
    + intros t d. rewrite Hd. apply (rep_cases _ _ Hrep).
    + intros t d. rewrite Hh'. apply (rep_holds _ _ Hrep).
Qed.

(** What an erased case leaves of the tables the relation reads. *)
Lemma erased_case db db1 t d :
  consistent schema db = true → own_handoffs db → ¬ held_in_tables db t d →
  erased db t d erased_tables db1 →
  own_handoffs db1 ∧
  (∀ t' d', decision_stored db1 t' d' ↔ decision_stored db t' d' ∧ (t', d') ≠ (t, d)) ∧
  (∀ t' d', held_in_tables db1 t' d' ↔ held_in_tables db t' d').
Proof using Type.
  intros Hc Ho Hn [_ He].
  assert (∀ tb x, x ∈ table tb db1 → x ∈ table tb db) as Hsub.
  { intros tb x. rewrite He. destruct (str_in tb _); [|done]. by intros [_ ?]%list_elem_of_filter. }
  assert (∀ tb x, tb ∈ ["decisions"; "legal_holds"] → x ∈ table tb db1 ↔
    x ∈ table tb db ∧ keyed t "decision_id" d x = false) as Hd.
  { intros tb x Htb. rewrite He. elem_cases Htb; subst tb;
      cbn [str_in erased_tables existsb app String.eqb Ascii.eqb Bool.eqb orb];
      (rewrite list_elem_of_filter; unfold rule; cbn [rules assoc]; naive_solver). }
  split_and!.
  - intros h run Hh Hrun Hr. by apply Ho; [apply Hsub..|].
  - intros t' d'. unfold decision_stored. split.
    + intros (x & [Hx Hk]%Hd & Hk'); [|by left]. split; [eauto|]. intros [= -> ->]. congruence.
    + intros [(x & Hx & Hk) Hne]. exists x. split; [|done]. apply Hd; [by left|]. split; [done|].
      destruct (keyed t _ d x) eqn:E; [|done]. apply keyed_spec in E as [E1 E2], Hk as [K1 K2].
      destruct Hne. congruence.
  - intros t' d'. unfold held_in_tables. split.
    + intros (x & Hx & Ha). exists x. split; [by apply Hsub|done].
    + intros (x & Hx & Ha). exists x. split; [|done]. apply Hd; [right; by left|]. split; [done|].
      destruct (keyed t _ d x) eqn:E; [|done]. destruct Hn. exists x. split; [done|].
      unfold active_on in *. by rewrite andb_true_iff in *; destruct Ha.
Qed.

(** The completion of a deletion whose case is stored and not held. *)
Lemma complete_case m db r q d t1 e com u :
  represents m db → _requests m !! (del_tenant r, request_id r) = Some r → same_request r q →
  del_status r = EXECUTING → del_decision r = Some d →
  (del_tenant r, d) ∉ _holds m → d ∈ mem_cases m (del_tenant r) →
  nullable_time (Some t1) = Ok com → session_time (le_occurred_at e) = Some u →
  of_request e = true → le_tenant e = del_tenant r → le_request e = request_id r →
  fresh_event (events m) e → le_previous e = Some (event_hash r) →
  memory_ok (finish m (next r COMPLETED false (Some t1) true e) d e) →
  ∃ db', pg_complete_deletion (next q COMPLETED false (Some t1) true e) e db =
      (Ok (next q COMPLETED false (Some t1) true e), db') ∧
    represents (finish m (next r COMPLETED false (Some t1) true e) d e) db'.
Proof using Hsession.
  intros Hrep Hl Hrq Hs Hd Hnh Hcase Hcom Hu Hof Het Heq Hfr Hprev Hm'.
  destruct (rep_requests _ _ Hrep _ _ _ Hl) as (row0 & Hin0 & E0).
  destruct (read_stored m db Hrep _ _ r row0 Hl E0) as (q1 & _ & Hs1 & Er1).
  destruct (same_key r q1 Hs1) as (_ & _ & Ed1 & Es1 & Eh1 & _).
  destruct (same_key r q Hrq) as (Eqt & Eqi & _).
  destruct (requests_ok m (rep_memory _ _ Hrep) _ _ _ Hl) as [(_ & _ & Hdel) _ _ _].
  assert (¬ held_in_tables db (del_tenant r) d) as Hnh' by (by rewrite <-(rep_holds _ _ Hrep)).
  destruct (delete_statements_run db (del_tenant r) d (rep_consistent _ _ Hrep) (rep_handoffs _ _ Hrep) Hnh')
    as (db1 & He & Edel).
  rewrite one_decision in Edel; [|apply Hrep|by apply (rep_cases _ _ Hrep)].
  destruct (erased_case db db1 (del_tenant r) d) as (Ho1 & Hd1 & Hh1); [apply Hrep..|done|done|].
  destruct He as [Hc1 He].
  destruct (update_append m db db1 r q COMPLETED false (Some t1) true e com u) as (row & erow & db' &
    Erun & Erow & Eerow & Hc' & Hdr & Hae & Hrest); try done.
  { intros t Ht. rewrite He. elem_cases Ht; by subst t. }
  exists db'. split.
  - unfold pg_complete_deletion. apply atomic_Ok.
    cbn [del_tenant request_id next with_event with_status]. rewrite Eqt, Eqi.
    erewrite stateful_run by by apply select_request. rewrite Hl. cbn [mbind option_bind]. rewrite E0.
    rewrite (stateful_run _ _ _ row0 db) by done.
    rewrite (stateful_run _ _ _ _ _ (pg_last_event m db Hrep _ _ (delete_id_prefix _ Hdel))).
    rewrite (stateful_run _ _ _ _ _ Er1). rewrite Es1, Hs, Ed1, Hd.
    rewrite bool_decide_false by done. rewrite (stateful_run _ _ _ tt db) by done.
    unfold _assert_event_tip. rewrite bool_decide_true by congruence.
    rewrite (stateful_run _ _ _ tt db) by done. rewrite (stateful_run _ _ _ _ _ Edel). exact Erun.
  - destruct (case_tables_same db1 db') as (Ho & Hds & Hhs);
      [intros t Ht; apply Hrest; unfold case_tables in Ht; set_solver|].
    apply (represents_request m db _ db' (next r COMPLETED false (Some t1) true e) e row erow); try done.
    + rewrite Hrest, He by set_solver. done.
    + by apply Ho.
    + intros t' d'. rewrite Hds, Hd1, <-(rep_cases _ _ Hrep). unfold mem_cases, finish. cbn.
      destruct (decide (del_tenant r = t')) as [<-|Hne].
      * rewrite lookup_insert_eq. cbn. rewrite elem_of_difference, elem_of_singleton. naive_solver.
      * rewrite lookup_insert_ne by done. naive_solver.
    + intros t' d'. rewrite Hhs, Hh1. apply (rep_holds _ _ Hrep).
Qed.

(** ** Writing holds *)

Definition same_hold (t d hold_id : string) (r : row) : bool :=
  keyed t "decision_id" d r && col_is "hold_id" hold_id r.

Lemma same_hold_spec t d hid r :
  same_hold t d hid r = true ↔
  col "tenant_id" r = PStr t ∧ col "decision_id" r = PStr d ∧ col "hold_id" r = PStr hid.
Proof using Type. unfold same_hold. rewrite andb_true_iff, keyed_spec, col_is_true. by rewrite Logic.and_assoc. Qed.

Lemma active_on_spec t d r :
  active_on t d r = true ↔
  col "tenant_id" r = PStr t ∧ col "decision_id" r = PStr d ∧ col "active" r = PBool true.
Proof using Type.
  unfold active_on. rewrite andb_true_iff, keyed_spec, bool_decide_eq_true. by rewrite Logic.and_assoc.
Qed.

(** The only row a key selects. *)
Lemma selected_row k t db (p : row → bool) v r :
  NoDup (key_values k (table t db)) → (∀ r, p r = true ↔ key_value k r = Some v) →
  head (filter (λ r, p r = true) (table t db)) = Some r → filter (λ r, p r = true) (table t db) = [r].
Proof using Type.
  intros Hn Hp Hh.
  assert (length (filter (λ r, p r = true) (table t db)) = 1) as Hl.
  { rewrite (list_filter_iff _ _ _ Hp). apply one_row_of_key; [done|]. exists r.
    assert (r ∈ filter (λ r, p r = true) (table t db)) as Hin
      by (destruct (filter _ _); [done|]; injection Hh as ->; by left).
    apply list_elem_of_filter in Hin as [Hr Hin]. apply Hp in Hr. unfold key_value in Hr.
    split; [done|]. by destruct (covered k r). }
  destruct (filter _ _) as [|x [|y l]]; try done. by injection Hh as ->.
Qed.

(** A row of a hold that is new and whose case has no active hold may be inserted. *)
Lemma hold_insert_consistent t d hid row db :
  consistent schema db = true → decision_stored db t d → hid ≠ PNone →
  col "tenant_id" row = PStr t → col "decision_id" row = PStr d → col "hold_id" row = hid →
  (∀ r, r ∈ table "legal_holds" db → keyed t "decision_id" d r = true → col "hold_id" r ≠ hid) →
  (∀ r, r ∈ table "legal_holds" db → active_on t d r = true → col "active" row ≠ PBool true) →
  consistent schema (<["legal_holds" := table "legal_holds" db ++ [row]]> db) = true.
Proof using Type.
  intros Hc (q & Hq & [Hqt Hqd]%keyed_spec) Hnn Ht Hd Hh Hnew Hact. apply consistent_insert; [done|..].
  - intros k v Hk Hkt Hcov Hv r' Hr' Hcov' Hv'. apply project_Some in Hv as [<- _], Hv' as [Hx _].
    specialize (Hnew r' Hr'). specialize (Hact r' Hr').
    schema_cases Hk; subst k; try discriminate Hkt; cbn in Hx; rewrite ?Ht, ?Hd, ?Hh in Hx; injection Hx as Hx.
    + apply Hnew; [|done]. by apply keyed_spec.
    + unfold covered in Hcov, Hcov'. cbn in Hcov, Hcov'. apply bool_decide_eq_true in Hcov, Hcov'.
      apply Hact; [|done]. by apply active_on_spec.
  - intros f v Hf Hft Hv. schema_cases Hf; subst f; try discriminate Hft. exists q. split; [done|].
    cbn in *. rewrite Ht, Hd in Hv. by rewrite Hqt, Hqd.
  - intros cs Hn. schema_cases Hn; try discriminate Hn; injection Hn as ->; cbn; rewrite ?Ht, ?Hd, ?Hh;
      destruct hid; try done; by eexists.
Qed.

(** No table refers to the holds. *)
Lemma hold_delete_consistent (p : row → bool) db :
  consistent schema db = true →
  consistent schema (<["legal_holds" := filter (λ r, p r = false) (table "legal_holds" db)]> db) = true.
Proof using Type.
  intros Hc. apply consistent_delete; [done|]. intros f r q Hf Hft _ _ _ _.
  schema_cases Hf; subst f; discriminate Hft.
Qed.

Lemma reactivate_columns actor reason at_ old :
  (∀ c, c ∈ ["tenant_id"; "decision_id"; "hold_id"] → col c (reactivate actor reason at_ old) = col c old) ∧
  col "active" (reactivate actor reason at_ old) = PBool true.
Proof using Type.
  unfold reactivate, assoc_update. cbn [foldl fst snd]. split.
  - intros c Hc. elem_cases Hc; subst c; by rewrite !col_assoc_set.
  - by rewrite !col_assoc_set.
Qed.

Lemma upsert_run t d hid actor reason at_ db u :
  consistent schema db = true → decision_stored db t d → ¬ held_in_tables db t d →
  session_time at_ = Some u →
  ∃ db', upsert_hold t d hid actor reason at_ db = (Ok tt, db') ∧ consistent schema db' = true ∧
    (∀ tb, tb ≠ "legal_holds" → table tb db' = table tb db) ∧
    (∀ t' d', held_in_tables db' t' d' ↔ held_in_tables db t' d' ∨ (t', d') = (t, d)).
Proof using Type.
  intros Hc Hd Hnh Hu. unfold upsert_hold, timestamptz.
  rewrite (stateful_run _ _ _ (PStr u) db) by (unfold lift; by rewrite Hu). cbv zeta.
  change (λ r : row, keyed t "decision_id" d r && col_is "hold_id" hid r) with (same_hold t d hid).
  assert (∀ r, r ∈ table "legal_holds" db → active_on t d r = true → False) as Hact
    by (intros r Hr Ha; apply Hnh; by exists r).
  assert (fetchone "legal_holds" (same_hold t d hid) db =
    (Ok (head (filter (λ r, same_hold t d hid r = true) (table "legal_holds" db))), db)) as Ef by done.
  rewrite (stateful_run _ _ _ _ _ Ef). clear Ef.
  destruct (head (filter (λ r, same_hold t d hid r = true) (table "legal_holds" db))) as [old|] eqn:Eh.
  - pose proof Hc as (Hkeys & _)%consistent_spec.
    assert (filter (λ r, same_hold t d hid r = true) (table "legal_holds" db) = [old]) as Eold.
    { apply (selected_row (unique "legal_holds" ["tenant_id"; "decision_id"; "hold_id"]) _ _ _
        [PStr t; PStr d; PStr hid]); [apply (Hkeys (unique "legal_holds" ["tenant_id"; "decision_id"; "hold_id"])); by in_schema| |done].
      intros r. rewrite same_hold_spec. unfold key_value. cbn [covered unique key_where key_columns].
      rewrite project_Some. cbn. rewrite !Forall_cons. split; [|naive_solver].
      intros (E1 & E2 & E3). rewrite E1, E2, E3. by split_and!. }
    set (f := reactivate actor reason (PStr u)).
    destruct (reactivate_columns actor reason (PStr u) old) as [Hcols Hon].
    assert (old ∈ table "legal_holds" db ∧ same_hold t d hid old = true) as [Hin Hold].
    { assert (old ∈ filter (λ r, same_hold t d hid r = true) (table "legal_holds" db)) as Hx
        by (rewrite Eold; by left). by apply list_elem_of_filter in Hx as [? ?]. }
    pose proof Hold as (Ot & Od & Oh)%same_hold_spec.
    assert (consistent schema (<["legal_holds" := map (λ r, if same_hold t d hid r then f r else r)
      (table "legal_holds" db)]> db) = true) as Hc'.
    { apply (consistent_replace _ _ _ _ old); [done|]. cbv zeta.
      apply (hold_insert_consistent t d (PStr hid)).
      - by apply hold_delete_consistent.
      - destruct Hd as (q & Hq & Hk). exists q. by rewrite table_insert_ne.
      - done.
      - unfold f. rewrite Hcols by in_schema. done.
      - unfold f. rewrite Hcols by in_schema. done.
      - unfold f. rewrite Hcols by in_schema. done.
      - intros r. rewrite table_insert_eq. intros [Hs _]%list_elem_of_filter Hk Hx.
        unfold same_hold in Hs. rewrite Hk in Hs. cbn in Hs. by apply bool_decide_eq_false in Hs.
      - intros r. rewrite table_insert_eq. intros [_ Hr]%list_elem_of_filter Ha. by destruct (Hact r). }
    eexists. split; [by erewrite stateful_run by by apply update_run|]. split_and!; [done| |].
    + intros tb Hne. by rewrite table_insert_ne.
    + intros t' d'. unfold held_in_tables. rewrite table_insert_eq.
      assert (∀ r, r ∈ map (λ r, if same_hold t d hid r then f r else r) (table "legal_holds" db) ↔
        (same_hold t d hid r = false ∧ r ∈ table "legal_holds" db) ∨ r = f old) as Hmap.
      { intros r. by rewrite (map_update_perm _ _ _ _ Eold), elem_of_app, list_elem_of_filter,
          list_elem_of_singleton. }
      setoid_rewrite Hmap. clear Hmap. split.
      * intros (r & [[_ Hr]| ->] & Ha); [left; eauto|right]. apply active_on_spec in Ha as (A1 & A2 & _).
        unfold f in A1, A2. rewrite Hcols in A1, A2 by in_schema. congruence.
      * intros [(r & Hr & Ha)|[= -> ->]].
        -- destruct (same_hold t d hid r) eqn:Es; [|by exists r; auto]. exfalso.
           apply same_hold_spec in Es as (E1 & E2 & _). apply active_on_spec in Ha as (A1 & A2 & A3).
           apply (Hact r Hr). apply active_on_spec. done.
        -- exists (f old). split; [by right|]. apply active_on_spec. unfold f.
           rewrite !Hcols by in_schema. by split_and!.
  - assert (∀ r, r ∈ table "legal_holds" db → keyed t "decision_id" d r = true →
      col "hold_id" r ≠ PStr hid) as Hnew.
    { intros r Hr Hk Hx. assert (same_hold t d hid r = true) as Es
        by (unfold same_hold; rewrite Hk; by apply bool_decide_eq_true).
      assert (r ∈ filter (λ r, same_hold t d hid r = true) (table "legal_holds" db)) as Hy
        by by apply list_elem_of_filter. destruct (filter _ _); [by apply elem_of_nil in Hy|done]. }
    eexists. split; [apply insert_run|].
    + apply (hold_insert_consistent t d (PStr hid)); try done. intros r Hr Ha. by destruct (Hact r).
    + split_and!.
      * apply (hold_insert_consistent t d (PStr hid)); try done. intros r Hr Ha. by destruct (Hact r).
      * intros tb Hne. by rewrite table_insert_ne.
      * intros t' d'. unfold held_in_tables. rewrite table_insert_eq.
        setoid_rewrite elem_of_app. setoid_rewrite list_elem_of_singleton. split.
        -- intros (r & [Hr| ->] & Ha); [left; eauto|right].
           apply active_on_spec in Ha as (A1 & A2 & _). cbn in A1, A2. congruence.
        -- intros [(r & Hr & Ha)|[= -> ->]]; [by exists r; auto|]. eexists. split; [by right|].
           by apply active_on_spec.
Qed.

Lemma release_run t d actor u db :
  consistent schema db = true → held_in_tables db t d → decision_stored db t d →
  let f := λ old, assoc_update old [("active", PBool false); ("released_by_actor_hash", PStr actor);
                                    ("released_at", PStr u)] in
  ∃ db', update "legal_holds" (active_on t d) f db = (Ok 1, db') ∧ consistent schema db' = true ∧
    (∀ tb, tb ≠ "legal_holds" → table tb db' = table tb db) ∧
    (∀ t' d', held_in_tables db' t' d' ↔ held_in_tables db t' d' ∧ (t', d') ≠ (t, d)).
Proof using Type.
  intros Hc Hheld Hd f. pose proof Hc as (Hkeys & _ & Hnn)%consistent_spec.
  set (k := mkKey "legal_holds" ["tenant_id"; "decision_id"] (Some "active")).
  assert (∀ r, active_on t d r = true ↔ key_value k r = Some [PStr t; PStr d]) as Hk.
  { intros r. rewrite active_on_spec. unfold key_value, covered. cbn [k key_where key_columns].
    case_bool_decide as Ha; [rewrite project_Some|naive_solver]. cbn. rewrite !Forall_cons.
    split; [|naive_solver]. intros (E1 & E2 & _). rewrite E1, E2. by split_and!. }
  assert (∃ old, filter (λ r, active_on t d r = true) (table "legal_holds" db) = [old]) as [old Eold].
  { destruct Hheld as (r & Hr & Ha).
    destruct (filter (λ r, active_on t d r = true) (table "legal_holds" db)) as [|old l] eqn:E.
    - assert (r ∈ filter (λ r, active_on t d r = true) (table "legal_holds" db)) as Hx
        by by apply list_elem_of_filter. rewrite E in Hx. by apply elem_of_nil in Hx.
    - exists old. rewrite <-E. apply (selected_row k _ _ _ [PStr t; PStr d]);
        [apply (Hkeys k); by in_schema|done|by rewrite E]. }
  assert (old ∈ table "legal_holds" db ∧ active_on t d old = true) as [Hin Hold].
  { assert (old ∈ filter (λ r, active_on t d r = true) (table "legal_holds" db)) as Hx
      by (rewrite Eold; by left). by apply list_elem_of_filter in Hx as [? ?]. }
  pose proof Hold as (Ot & Od & Oa)%active_on_spec.
  assert (∀ c, c ∈ ["tenant_id"; "decision_id"; "hold_id"] → col c (f old) = col c old) as Hcols.
  { intros c Hcc. unfold f, assoc_update. cbn [foldl fst snd]. elem_cases Hcc; subst c; by rewrite !col_assoc_set. }
  assert (col "active" (f old) = PBool false) as Hoff
    by (unfold f, assoc_update; cbn [foldl fst snd]; by rewrite !col_assoc_set).
  assert (col "hold_id" old ≠ PNone) as Hnull
    by (apply (not_null_column db Hc "legal_holds" ["tenant_id"; "decision_id"; "hold_id"]);
        [by in_schema|done|by in_schema]).
  assert (consistent schema (<["legal_holds" := map (λ r, if active_on t d r then f r else r)
    (table "legal_holds" db)]> db) = true) as Hc'.
  { apply (consistent_replace _ _ _ _ old); [done|]. cbv zeta.
    apply (hold_insert_consistent t d (col "hold_id" old)).
    - by apply hold_delete_consistent.
    - destruct Hd as (q & Hq & Hkq). exists q. by rewrite table_insert_ne.
    - done.
    - by rewrite Hcols by in_schema.
    - by rewrite Hcols by in_schema.
    - by rewrite Hcols by in_schema.
    - intros r. rewrite table_insert_eq. intros [Hs Hr]%list_elem_of_filter [E1 E2]%keyed_spec E3.
      assert (r = old) as ->; [|congruence].
      apply (key_unique (unique "legal_holds" ["tenant_id"; "decision_id"; "hold_id"])
        (table "legal_holds" db) r old [PStr t; PStr d; col "hold_id" old]); try done.
      + apply (Hkeys (unique "legal_holds" ["tenant_id"; "decision_id"; "hold_id"])). by in_schema.
      + apply project_Some. cbn. rewrite !Forall_cons, E1, E2, E3. by split_and!.
      + apply project_Some. cbn. rewrite !Forall_cons, Ot, Od. by split_and!.
    - intros r _ _. by rewrite Hoff. }
  eexists. split; [by rewrite update_run, Eold|]. split_and!; [done| |].
  - intros tb Hne. by rewrite table_insert_ne.
  - intros t' d'. unfold held_in_tables. rewrite table_insert_eq.
    assert (∀ r, r ∈ map (λ r, if active_on t d r then f r else r) (table "legal_holds" db) ↔
      (active_on t d r = false ∧ r ∈ table "legal_holds" db) ∨ r = f old) as Hmap.
    { intros r. by rewrite (map_update_perm _ _ _ _ Eold), elem_of_app, list_elem_of_filter,
        list_elem_of_singleton. }
    setoid_rewrite Hmap. clear Hmap. split.
    + intros (r & [[Hn Hr]| ->] & Ha).
      * split; [eauto|]. intros [= -> ->]. congruence.
      * apply active_on_spec in Ha as (_ & _ & Ha). congruence.
    + intros [(r & Hr & Ha) Hne]. exists r. split; [|done]. left. split; [|done].
      destruct (active_on t d r) eqn:E; [|done]. apply active_on_spec in E as (E1 & E2 & _), Ha as (A1 & A2 & _).
      destruct Hne. congruence.
Qed.
End refinement.
