(* ===== verification/LifecycleAgreement.v ===== *)
(** * The deletion service over either repository

    Every sequence of calls of [lifecycle/service.py] gets the same answers from the repository
    in memory and from the repository in PostgreSQL, and leaves them in related states. The one
    place where they part is the execution of a request whose case is no longer stored. *)

From S2P Require Import Prelude PyVal Json Sha256 Sql Identity Retention RetentionProps LifecycleTables LifecycleTablesProps LifecycleRefinement.
From stdpp Require Import options.

(** ** Calls and answers *)

Inductive response := ARequest (r : DeletionRequest) | ADone | AReleased (released : bool).

(** What a caller of the service sees; [add] is how the store of decisions adds a case. *)
Definition reply `{HashAlg} `{Hmac} {S} `{LifecycleRepository S} (secret : string)
    (add : string → string → S → S) (c : call) : stateful S response :=
  match c with
  | AddCase t d => λ s, (Ok ADone, add t d s)
  | RequestDeletion i d rs k co clk => r ← request_deletion secret i d rs k co clk; mret (ARequest r)
  | ExecuteDeletion i id co clk => r ← execute_deletion i id co clk; mret (ARequest r)
  | PlaceHold i d rs co clk => _ ← place_legal_hold secret i d rs co clk; mret ADone
  | ReleaseHold i d co clk => b ← release_legal_hold secret i d co clk; mret (AReleased b)
  end.

(** The answers to a list of calls, one after the other, and the final state. *)
Fixpoint replies `{HashAlg} `{Hmac} {S} `{LifecycleRepository S} (secret : string)
    (add : string → string → S → S) (calls : list call) (s : S) : list (result response) * S :=
  match calls with
  | [] => ([], s)
  | c :: calls =>
      let '(a, s1) := reply secret add c s in
      let '(l, s2) := replies secret add calls s1 in (a :: l, s2)
  end.

(** A new case: the first statement of [create_decision]. *)
Definition pg_add_case (tenant decision : string) (db : database) : database :=
  (insert_into "decisions" [("tenant_id", PStr tenant); ("decision_id", PStr decision)] db).2.

Section agreement.
Context `{HashAlg} `{Hmac} `{SessionTime} `{JsonbText} (secret : string).
Context (Hsession : ∀ t s, session_time t = Some s → session_time s = Some s).

Definition same_answer (a b : result response) : Prop :=
  match a, b with
  | Ok (ARequest r), Ok (ARequest q) => same_request r q
  | _, _ => a = b
  end.

(** ** What a run must provide *)

Definition timely (clock : nat → string) : Prop := ∀ n, ∃ u, session_time (clock n) = Some u.

Definition timely_call (c : call) : Prop :=
  match c with
  | AddCase _ _ => True
  | RequestDeletion _ _ _ _ _ clk | ExecuteDeletion _ _ _ clk | PlaceHold _ _ _ _ clk
  | ReleaseHold _ _ _ clk => timely clk
  end.

(** A deletion that is about to delete finds its case. *)
Definition case_present (m : Memory) (c : call) : Prop :=
  match c with
  | ExecuteDeletion i id _ _ => ∀ r d, _requests m !! (tenant_of i, id) = Some r →
      del_decision r = Some d → (tenant_of i, d) ∉ _holds m → d ∈ mem_cases m (tenant_of i)
  | _ => True
  end.

Fixpoint orderly (m : Memory) (calls : list call) : Prop :=
  match calls with
  | [] => True
  | c :: calls => timely_call c ∧ case_present m c ∧ orderly (perform secret m c) calls
  end.

Definition event_keys (l : list LifecycleEvent) : list (string * string) :=
  map (λ e, (le_tenant e, le_id e)) l.

(** ** Events only grow *)

Definition grows (m m' : Memory) : Prop := events m `prefix_of` events m'.

#[local] Instance grows_preorder : PreOrder grows.
Proof using Type. split; unfold grows; [by intros ?|intros ???; apply transitivity]. Qed.

Lemma grows_snoc m m' e : events m' = events m ++ [e] → grows m m'.
Proof using Type. intros E. exists [e]. done. Qed.

Lemma persist_grows r e ex : always grows (mem_persist_transition r e ex).
Proof using Type.
  intros m. unfold mem_persist_transition. repeat case_match; first [reflexivity|by eapply grows_snoc].
Qed.

Lemma set_hold_grows t d e : always grows (mem_set_hold t d e).
Proof using Type. intros m. unfold mem_set_hold. repeat case_match; first [reflexivity|by eapply grows_snoc]. Qed.

Lemma release_hold_grows t d e : always grows (mem_release_hold t d e).
Proof using Type. intros m. unfold mem_release_hold. repeat case_match; first [reflexivity|by eapply grows_snoc]. Qed.

Lemma complete_grows r e : always grows (mem_complete_deletion r e).
Proof using Type. intros m. unfold mem_complete_deletion. repeat case_match; first [reflexivity|by eapply grows_snoc]. Qed.

Lemma replay_grows t a k : always grows (get_by_idempotency t a k).
Proof using Type. intros m. cbn. by repeat case_match. Qed.

#[local] Hint Resolve persist_grows set_hold_grows release_hold_grows complete_grows replay_grows : always.

Lemma hold_event_grows i d id ty rs co at_ : always grows (_hold_event secret i d id ty rs co at_).
Proof using Type. unfold _hold_event. cbn. always_steps. Qed.

Lemma record_grows r ty i co at_ ex : always grows (_record r ty i co at_ ex).
Proof using Type. unfold _record, _event. cbn. always_steps. Qed.

#[local] Hint Resolve hold_event_grows record_grows : always.

Lemma events_grow m c : grows m (perform secret m c).
Proof using Type.
  destruct c as [t d|i d rs k co clk|i id co clk|i d rs co clk|i d co clk]; cbn [perform]; [by exists []; rewrite app_nil_r|..].
  - revert m. change (always grows (request_deletion secret i d rs k co clk)).
    unfold request_deletion, _event. cbn -[get_by_idempotency]. always_steps.
  - revert m. change (always grows (execute_deletion i id co clk)).
    unfold execute_deletion, _event. cbn -[_record]. always_steps.
  - revert m. change (always grows (place_legal_hold secret i d rs co clk)).
    unfold place_legal_hold. cbn -[_hold_event]. always_steps.
  - revert m. change (always grows (release_legal_hold secret i d co clk)).
    unfold release_legal_hold. cbn -[_hold_event]. always_steps.
Qed.

Lemma perform_all_grows m calls : grows m (perform_all secret m calls).
Proof using Type.
  revert m. induction calls as [|c calls IH]; intros m; [done|]. cbn.
  etrans; [apply events_grow|apply IH].
Qed.

Lemma fresh_of_NoDup l e rest : NoDup (event_keys (l ++ e :: rest)) → fresh_event l e.
Proof using Type.
  unfold event_keys. rewrite map_app. cbn. intros (_ & Hd & _)%NoDup_app e' He' E.
  apply (Hd (le_tenant e', le_id e')); [apply list_elem_of_fmap; by exists e'|]. rewrite E. by left.
Qed.

Lemma NoDup_grows m m' : grows m m' → NoDup (event_keys (events m')) → NoDup (event_keys (events m)).
Proof using Type. intros [l ->]. unfold event_keys. rewrite map_app. by intros [? _]%NoDup_app. Qed.

(** ** The calls, one by one *)

(** A run over the memory and one over the tables that end alike. *)
Definition agree (a : result response * Memory) (b : result response * database) : Prop :=
  same_answer a.1 b.1 ∧ represents a.2 b.2.

Lemma agree_error m db (c : exn_class) (msg : string) :
  represents m db → agree (raise c msg, m) (raise c msg, db).
Proof using Type. by split. Qed.

Lemma denied_run {S A} i p e (f : unit → stateful S A) (s : S) :
  authorize i p = Raise e → (lift (authorize i p) ≫= f) s = (Raise e, s).
Proof using Type. intros E. unfold mbind, stateful_bind, lift. by rewrite E. Qed.

Lemma add_agrees m db t d : represents m db → represents (add_case t d m) (pg_add_case t d db).
Proof using Type.
  intros Hrep. pose proof (rep_consistent _ _ Hrep) as Hc.
  set (r := [("tenant_id", PStr t); ("decision_id", PStr d)]).
  assert (∀ t' d', d' ∈ mem_cases (add_case t d m) t' ↔ (t', d') = (t, d) ∨ d' ∈ mem_cases m t') as Hmem.
  { intros t' d'. unfold add_case, mem_cases. cbn. destruct (decide (t = t')) as [<-|Hne].
    - rewrite lookup_insert_eq. cbn. rewrite elem_of_union, elem_of_singleton. naive_solver.
    - rewrite lookup_insert_ne by done. naive_solver. }
  assert (pg_add_case t d db = <["decisions" := table "decisions" db ++ [r]]> db ∧
    consistent schema (pg_add_case t d db) = true ∨ pg_add_case t d db = db ∧ decision_stored db t d) as Hpg.
  { unfold pg_add_case, Sql.insert_into, statement. fold r.
    destruct (consistent schema (<["decisions" := table "decisions" db ++ [r]]> db)) eqn:E; [by left|right].
    split; [done|]. destruct (decide (d ∈ mem_cases m t)) as [Hin|Hni]; [by apply (rep_cases _ _ Hrep)|].
    assert (¬ decision_stored db t d) as Hns by (by rewrite <-(rep_cases _ _ Hrep)).
    exfalso. apply not_true_iff_false in E. apply E.
    apply consistent_insert; [done|..].
    - intros k v Hk Hkt _ Hv r' Hr' _ Hv'. schema_cases Hk; subst k; try discriminate Hkt.
      apply Hns. exists r'. split; [done|]. apply project_Some in Hv as [<- _], Hv' as [Hx _].
      cbn in Hx. injection Hx as E1 E2. by apply keyed_spec.
    - intros f v Hf Hft _. schema_cases Hf; subst f; discriminate Hft.
    - intros cs Hn. schema_cases Hn; try discriminate Hn; injection Hn as ->; by eexists. }
  destruct Hpg as [[E Hc']|[-> Hst]].
  - rewrite E in *.
    assert (∀ tb, tb ≠ "decisions" → table tb (<["decisions" := table "decisions" db ++ [r]]> db) = table tb db)
      as Hrest by (intros tb Hne; by rewrite table_insert_ne).
    apply (represents_holds m db _ _ [] []); try done.
    + apply memory_ok_cases, Hrep.
    + by rewrite app_nil_r.
    + by apply Hrest.
    + by apply Hrest.
    + rewrite app_nil_r. by apply Hrest.
    + intros h run. rewrite !Hrest by done. apply (rep_handoffs _ _ Hrep).
    + intros t' d'. rewrite Hmem, (rep_cases _ _ Hrep). unfold decision_stored. rewrite table_insert_eq.
      setoid_rewrite elem_of_app. setoid_rewrite list_elem_of_singleton. split.
      * intros [[= -> ->]|(x & Hx & Hk)]; [|eauto]. exists r. split; [by right|]. by apply keyed_spec.
      * intros (x & [Hx| ->] & Hk); [right; eauto|left]. apply keyed_spec in Hk as [K1 K2].
        cbn in K1, K2. congruence.
    + intros t' d'. unfold held_in_tables. rewrite Hrest by done. apply (rep_holds _ _ Hrep).
  - apply (represents_holds m db _ _ [] []); try done; try apply Hrep.
    + apply memory_ok_cases, Hrep.
    + by rewrite app_nil_r.
    + by rewrite app_nil_r.
    + intros t' d'. rewrite Hmem, <-(rep_cases _ _ Hrep). rewrite <-(rep_cases _ _ Hrep) in Hst. naive_solver.
Qed.

Lemma pg_event m db r type i co at_ :
  represents m db → is_delete_id (request_id r) →
  _event (S := database) r type i co at_ db = (Ok (event_in m r type i co at_), db).
Proof using Hsession.
  intros Hrep Hid. unfold _event. fold (tenant_of i). cbv zeta.
  assert (last_event (tenant_of i) (request_id r) db = (Ok (mem_last_event (tenant_of i) (request_id r) m), db))
    as E by by apply (pg_last_event m db Hrep), delete_id_prefix.
  by rewrite (stateful_run _ _ _ _ _ E).
Qed.

(** Equal events for requests that are the same up to their times. *)
Lemma event_in_same m r q type i co at_ :
  same_request r q → event_in m q type i co at_ = event_in m r type i co at_.
Proof using Type.
  intros Hs. destruct (same_key r q Hs) as (_ & E1 & _ & _ & _ & E2 & E3 & _ & E4).
  unfold event_in. by rewrite E1, E2, E3, E4.
Qed.

Lemma of_request_in m r type i co at_ :
  is_delete_id (request_id r) → of_request (event_in m r type i co at_) = true.
Proof using Type. apply delete_id_prefix. Qed.

Lemma request_agrees m db i d rs k co clk :
  represents m db → timely clk →
  NoDup (event_keys (events (request_deletion secret i d rs k co clk m).2)) →
  let a := request_deletion secret i d rs k co clk m in
  let b := request_deletion secret i d rs k co clk db in
  agree (ARequest <$> a.1, a.2) (ARequest <$> b.1, b.2).
Proof using Hsession.
  intros Hrep Hclk Hnd. cbv zeta.
  destruct (authorize i DATA_DELETE) as [[]|err] eqn:Ha;
    [|unfold request_deletion; rewrite !(denied_run _ _ _ _ _ Ha); by split].
  pose proof (rep_memory _ _ Hrep) as Hm.
  pose proof (request_ok_step secret m i d rs k co clk Hm) as Hm'.
  rewrite request_spec in Hnd, Hm' |- * by done.
  unfold request_deletion. fold (tenant_of i).
  rewrite (stateful_run (lift (authorize i DATA_DELETE)) _ db tt db) by (unfold lift; by rewrite Ha). cbv zeta.
  destruct (pg_replay Hsession m db Hrep (tenant_of i) (key_of secret i k).1.2 (key_of secret i k).2)
    as (o & Eo & Ho). unfold key_of in Eo. cbn [fst snd] in Eo.
  assert (get_by_idempotency (tenant_of i) (_digest secret "actor" (tenant_of i) (identity_actor i))
    (_digest secret "idempotency" (tenant_of i) k) db = (Ok o, db)) as Eo' by exact Eo.
  rewrite (stateful_run _ _ _ _ _ Eo'). clear Eo Eo'.
  change (tenant_of i, (key_of secret i k).1.2, (key_of secret i k).2) with (key_of secret i k) in Ho.
  destruct (_idempotency m !! key_of secret i k) as [id|] eqn:Ei.
  - destruct (index_ok m Hm _ _ _ _ Ei) as (r & Hl & _). rewrite Hl in Hnd, Hm', Ho |- *.
    destruct o as [q|]; [|done]. cbn in Ho.
    destruct (same_key r q Ho) as (_ & _ & _ & _ & _ & E1 & _ & _ & E2). rewrite E1, E2.
    destruct (_ && _); [|by split]. by split.
  - destruct o as [q|]; [done|].
    assert (case_exists (tenant_of i) d db = (Ok (bool_decide (d ∈ mem_cases m (tenant_of i))), db))
      as Ec by by apply pg_case. rewrite (stateful_run _ _ _ _ _ Ec). clear Ec.
    case_bool_decide as Hcase; [|by split]. rewrite (stateful_run _ _ _ tt db) by done.
    assert (active_hold (tenant_of i) d db = (Ok (bool_decide ((tenant_of i, d) ∈ _holds m)), db))
      as Eh by by apply pg_hold. rewrite (stateful_run _ _ _ _ _ Eh). clear Eh.
    set (r := mkDeletion _ _ _ _ _ _ _ _ _ _ _ _ _).
    assert (is_delete_id (request_id r)) as Hid by by eexists.
    rewrite (stateful_run _ _ _ _ _ (pg_event m db r "data.deletion-requested" i co (clk 1) Hrep Hid)).
    change (requested secret m i d rs k co clk) with
      (with_event r (event_in m r "data.deletion-requested" i co (clk 1)),
       event_in m r "data.deletion-requested" i co (clk 1)) in Hnd, Hm' |- *.
    set (e := event_in m r "data.deletion-requested" i co (clk 1)) in *. cbv beta iota in Hnd, Hm' |- *.
    destruct (Hclk 0) as [u0 Hu0]. destruct (Hclk 1) as [u1 Hu1].
    change (persist_transition (with_event r e) e None db) with
      (pg_persist_transition (with_event r e) e None db).
    destruct (_requests m !! (tenant_of i, request_id (with_event r e))) as [r0|] eqn:Hl.
    + destruct (rep_requests _ _ Hrep _ _ _ Hl) as (row0 & Hin0 & E0).
      destruct (read_stored Hsession m db Hrep _ _ r0 row0 Hl E0) as (q1 & _ & Hs1 & Er1).
      destruct (same_key r0 q1 Hs1) as (_ & _ & _ & _ & _ & _ & Ea & Ek & _).
      assert (_same_request q1 (with_event r e) = false) as Hd.
      { destruct (_same_request _ _) eqn:E; [|done]. exfalso. unfold _same_request in E. bool_prop.
        destruct E as [[[_ E1] E2] _]. destruct (requests_ok m Hm _ _ _ Hl) as [_ _ _ Hi].
        rewrite <-Ea, <-Ek, E1, E2 in Hi. unfold key_of in Ei. cbn in Hi. congruence. }
      assert (pg_persist_transition (with_event r e) e None db =
        (raise LifecycleTransitionConflict "IDEMPOTENCY_KEY_REUSED", db)) as ->; [|by split].
      unfold pg_persist_transition. eapply atomic_Raise.
      change (del_tenant (with_event r e)) with (tenant_of i).
      rewrite (stateful_run _ _ _ _ _ (select_request m db Hrep (tenant_of i) (request_id (with_event r e)))).
      rewrite Hl. cbn [mbind option_bind]. rewrite E0.
      rewrite (stateful_run _ _ _ _ _ (pg_last_event m db Hrep (tenant_of i) (request_id (with_event r e))
        (delete_id_prefix _ Hid))).
      rewrite (stateful_run _ _ _ _ _ Er1). unfold guard_with. rewrite Hd. reflexivity.
    + assert (∃ row, _request_values (with_event r e) = Ok row) as [row Hrow].
      { unfold _request_values, timestamptz. cbn -[status_text]. rewrite Hu0. by eexists. }
      destruct (persist_new Hsession m db (with_event r e) e row u1) as (db' & Er & Hrep'); try done.
      * cbn. by case_bool_decide.
      * by apply (fresh_of_NoDup _ _ []).
      * cbn. by rewrite (unused_ok m Hm).
      * rewrite Er. by split.
Qed.


(** A status change recorded on both sides. *)
Lemma record_agrees m db r q s h c (f : bool) type i co at_ com u :
  represents m db → _requests m !! (tenant_of i, request_id r) = Some r → del_tenant r = tenant_of i →
  same_request r q → nullable_time c = Ok com → session_time at_ = Some u →
  h = bool_decide (s = BLOCKED_BY_HOLD) →
  (s = COMPLETED ↔ (if f then None else del_decision r) = None) →
  let e := event_in m r type i co at_ in
  fresh_event (events m) e →
  ∃ db', _record (with_status q s h c f) type i co at_ (Some (del_status r)) db = (Ok (next q s h c f e), db') ∧
    represents (store_request (next r s h c f e) e m) db'.
Proof using Hsession.
  intros Hrep Hl Ht Hrq Hcom Hu Hh Hs e Hfr. pose proof (rep_memory _ _ Hrep) as Hm.
  destruct (requests_ok m Hm _ _ _ Hl) as [(_ & _ & Hid) _ He _].
  pose proof (advance_ok m r (with_status r s h c f) type i co at_ Hm Hl Ht eq_refl eq_refl Hs) as Hm'.
  destruct (same_key r q Hrq) as (_ & Eqi & _).
  assert (is_delete_id (request_id q)) as Hid' by by rewrite Eqi.
  rewrite <-Ht in Hl.
  destruct (persist_update Hsession m db r q s h c f e com u) as (db' & Er & Hrep'); try done; [by apply of_request_in|].
  exists db'. split; [|done]. unfold _record.
  rewrite (stateful_run _ _ _ _ _ (pg_event m db (with_status q s h c f) type i co at_ Hrep Hid')).
  change (event_in m (with_status q s h c f) type i co at_) with (event_in m q type i co at_).
  rewrite (event_in_same m r q) by done. exact Er.
Qed.

Lemma execute_agrees m db i id co clk :
  represents m db → timely clk → case_present m (ExecuteDeletion i id co clk) →
  NoDup (event_keys (events (execute_deletion i id co clk m).2)) →
  let a := execute_deletion i id co clk m in
  let b := execute_deletion i id co clk db in
  agree (ARequest <$> a.1, a.2) (ARequest <$> b.1, b.2).
Proof using Hsession.
  intros Hrep Hclk Hcase Hnd. cbv zeta. cbn [case_present] in Hcase.
  destruct (authorize i DATA_DELETE) as [[]|err] eqn:Ha;
    [|unfold execute_deletion; rewrite !(denied_run _ _ _ _ _ Ha); by split].
  pose proof (rep_memory _ _ Hrep) as Hm. pose proof (execute_ok m i id co clk Hm) as Hm'.
  destruct (pg_request Hsession m db Hrep (tenant_of i) id) as (o & Eo & Ho).
  assert (∀ f : option DeletionRequest → stateful database DeletionRequest,
    (get_request (tenant_of i) id ≫= f) db = f o db) as Eg
    by (intros f; exact (stateful_run _ f _ _ _ Eo)).
  assert (∀ f : unit → stateful database DeletionRequest,
    (lift (authorize i DATA_DELETE) ≫= f) db = f tt db) as El
    by (intros f; apply stateful_run; unfold lift; by rewrite Ha).
  destruct (_requests m !! (tenant_of i, id)) as [r|] eqn:Hl.
  2: { destruct o; [done|]. unfold execute_deletion. fold (tenant_of i). rewrite El. cbv zeta. rewrite Eg.
       rewrite (stateful_run (lift (authorize i DATA_DELETE)) _ m tt m) by (unfold lift; by rewrite Ha).
       rewrite (stateful_run _ _ m None m) by (cbn; by rewrite <-Hl). by split. }
  destruct o as [q|]; [|done]. cbn in Ho.
  rewrite (execute_spec m i id co clk r) in Hnd, Hm' |- * by done.
  destruct (requests_ok m Hm _ _ _ Hl) as [(Ht & Hid & Hdel) Hs _ _].
  destruct (same_key r q Ho) as (Eqt & Eqi & Eqd & Eqs & _).
  destruct (Hclk 0) as [u0 Hu0]. destruct (Hclk 1) as [u1 Hu1]. destruct (Hclk 2) as [u2 Hu2].
  unfold execute_deletion. fold (tenant_of i). rewrite El. cbv zeta. rewrite Eg.
  rewrite (stateful_run _ _ db q db) by done. rewrite Eqs, Eqd.
  destruct (del_decision r) as [d|] eqn:Hd.
  2: { rewrite (bool_decide_true (del_status r = COMPLETED)) by by apply Hs. by split. }
  rewrite (bool_decide_false (del_status r = COMPLETED)) by (intros Hc; by apply Hs in Hc).
  rewrite (stateful_run _ _ db d db) by done.
  rewrite (stateful_run _ _ _ _ _ (pg_hold m db Hrep (tenant_of i) d)).
  rewrite <-Hid in Hl. case_bool_decide as Hh.
  - destruct (record_agrees m db r q BLOCKED_BY_HOLD true None false "data.deletion-blocked" i co (clk 0)
      PNone u0) as (db' & Er & Hrep'); try done.
    { by rewrite Hd. }
    { by apply (fresh_of_NoDup _ _ []). }
    rewrite Er. split; [|done]. cbn. by apply next_same.
  - specialize (Hcase r d eq_refl Hd Hh).
    set (e1 := event_in m r "data.deletion-executing" i co (clk 0)).
    set (r1 := next r EXECUTING false None false e1). set (m1 := store_request r1 e1 m).
    set (e2 := event_in m1 r1 "data.deletion-completed" i co (clk 2)).
    change (executed m r d i co clk) with
      (next r1 COMPLETED false (Some (clk 1)) true e2,
       finish m1 (next r1 COMPLETED false (Some (clk 1)) true e2) d e2) in Hnd, Hm' |- *.
    assert (NoDup (event_keys ((events m ++ [e1]) ++ [e2]))) as Hnd2 by exact Hnd.
    destruct (record_agrees m db r q EXECUTING false None false "data.deletion-executing" i co (clk 0)
      PNone u0) as (db1 & Er1 & Hrep1); try done.
    { by rewrite Hd. }
    { apply (fresh_of_NoDup _ _ [e2]). by rewrite <-app_assoc in Hnd2. }
    rewrite (stateful_run _ _ _ _ _ Er1).
    set (q1 := next q EXECUTING false None false e1).
    assert (same_request r1 q1) as Hs1 by by apply next_same.
    assert (_requests m1 !! (del_tenant r1, request_id r1) = Some r1) as Hl1 by (cbn; by rewrite lookup_insert_eq).
    assert (is_delete_id (request_id q1)) as Hid1 by (cbn; by rewrite Eqi, Hid).
    destruct (complete_case Hsession m1 db1 r1 q1 d (clk 1) e2 (PStr u1) u2) as (db2 & Er2 & Hrep2); try done.
    { cbn. by rewrite Ht. }
    { cbn. by rewrite Ht. }
    { cbn. unfold timestamptz. by rewrite Hu1. }
    { apply of_request_in. cbn. by rewrite Hid. }
    { by apply (fresh_of_NoDup _ _ []). }
    { cbn [le_previous e2 event_in build_event].
      destruct (requests_ok m1 (rep_memory _ _ Hrep1) _ _ _ Hl1) as [_ _ He1 _].
      cbn [del_tenant r1 next with_event with_status] in He1. by rewrite Ht in He1. }
    erewrite (catch_Ok _ _ _ db1 _ db2); [split; [cbn; by apply next_same|exact Hrep2]|].
    rewrite (stateful_run _ _ _ _ _ (pg_event m1 db1 (with_status q1 COMPLETED false (Some (clk 1)) true)
      "data.deletion-completed" i co (clk 2) Hrep1 Hid1)).
    change (event_in m1 (with_status q1 COMPLETED false (Some (clk 1)) true) "data.deletion-completed" i co (clk 2))
      with (event_in m1 q1 "data.deletion-completed" i co (clk 2)).
    rewrite (event_in_same m1 r1 q1) by done. exact Er2.
Qed.


(** The event of a hold, which both sides build alike. *)
Definition hold_event_in (m : Memory) (i : Identity) (d type rs co at_ : string) : LifecycleEvent :=
  build_event (tenant_of i) (hold_id_of (tenant_of i) d) (_digest secret "case" (tenant_of i) d)
    type rs co (_digest secret "actor" (tenant_of i) (identity_actor i)) at_
    (mem_last_event (tenant_of i) (hold_id_of (tenant_of i) d) m).

Lemma pg_hold_event_run m db i d type rs co at_ :
  represents m db →
  _hold_event secret i d (hold_id_of (tenant_of i) d) type rs co at_ db =
    (Ok (hold_event_in m i d type rs co at_), db).
Proof using Type.
  intros Hrep. unfold _hold_event. fold (tenant_of i). cbv zeta.
  destruct (pg_hold_event m db Hrep (tenant_of i) (hold_id_of (tenant_of i) d) eq_refl) as [E _].
  assert (last_hold_event (tenant_of i) (hold_id_of (tenant_of i) d) db =
    (Ok (mem_last_event (tenant_of i) (hold_id_of (tenant_of i) d) m), db)) as E' by exact E.
  by rewrite (stateful_run _ _ _ _ _ E').
Qed.

Lemma hold_tip m db i d type rs co at_ :
  represents m db →
  _assert_hold_event_tip (hold_event_in m i d type rs co at_) db = (Ok tt, db) ∧
  hold_link (tenant_of i) (hold_event_in m i d type rs co at_) m = true.
Proof using Type.
  intros Hrep. split; [|by apply bool_decide_eq_true].
  destruct (pg_hold_event m db Hrep (tenant_of i) (hold_id_of (tenant_of i) d) eq_refl) as (_ & o & E & Eo).
  unfold _assert_hold_event_tip.
  change (le_tenant (hold_event_in m i d type rs co at_)) with (tenant_of i).
  change (le_request (hold_event_in m i d type rs co at_)) with (hold_id_of (tenant_of i) d).
  rewrite (stateful_run _ _ _ _ _ E). rewrite Eo. unfold guard_with. by rewrite bool_decide_true.
Qed.

(** The row an event of a hold adds, and the relation after it. *)
Lemma hold_event_recorded m db db1 m' e u :
  represents m db → consistent schema db1 = true →
  (∀ tb, tb ≠ "legal_holds" → table tb db1 = table tb db) →
  memory_ok m' → _requests m' = _requests m → _cases m' = _cases m → events m' = events m ++ [e] →
  of_request e = false → fresh_event (events m) e → session_time (le_occurred_at e) = Some u →
  (∀ t d, (t, d) ∈ _holds m' ↔ held_in_tables db1 t d) →
  ∃ db', _append_hold_event e db1 = (Ok tt, db') ∧ represents m' db'.
Proof using Type.
  intros Hrep Hc1 Hrest Hm' Er Ecs Ee Hof Hfr Hu Hh.
  destruct (append_hold_event_run db1 (filter (λ e, of_request e = false) (events m)) e u) as
    (row & Erow & Ea & Hc'); [done| | |done|].
  { rewrite Hrest by done. apply Hrep. }
  { intros e' [_ He']%list_elem_of_filter. by apply Hfr. }
  eexists. split; [exact Ea|].
  assert (∀ tb, tb ≠ "legal_hold_audit_events" →
    table tb (<["legal_hold_audit_events" := table "legal_hold_audit_events" db1 ++ [row]]> db1) = table tb db1)
    as Hrest' by (intros tb Hne; by rewrite table_insert_ne).
  apply (represents_holds m db _ _ [e] [row]); try done.
  - by constructor.
  - by constructor.
  - by rewrite Hrest', Hrest.
  - by rewrite Hrest', Hrest.
  - by rewrite table_insert_eq, Hrest.
  - intros h run. rewrite !Hrest', !Hrest by done. apply (rep_handoffs _ _ Hrep).
  - intros t d. unfold decision_stored. rewrite Hrest', Hrest by done.
    unfold mem_cases. rewrite Ecs. apply (rep_cases _ _ Hrep).
  - intros t d. unfold held_in_tables. rewrite Hrest' by done. apply Hh.
Qed.

Lemma place_agrees m db i d rs co clk :
  represents m db → timely clk →
  NoDup (event_keys (events (place_legal_hold secret i d rs co clk m).2)) →
  let a := place_legal_hold secret i d rs co clk m in
  let b := place_legal_hold secret i d rs co clk db in
  agree ((λ _, ADone) <$> a.1, a.2) ((λ _, ADone) <$> b.1, b.2).
Proof using Hsession.
  intros Hrep Hclk Hnd. cbv zeta. pose proof (rep_memory _ _ Hrep) as Hm.
  destruct (authorize i LEGAL_HOLD_MANAGE) as [[]|err] eqn:Ha;
    [|unfold place_legal_hold; rewrite !(denied_run _ _ _ _ _ Ha); by split].
  pose proof (place_hold_ok secret m i d rs co clk Hm) as Hm'.
  assert (∀ S B (f : unit → stateful S B) (s : S), (lift (authorize i LEGAL_HOLD_MANAGE) ≫= f) s = f tt s) as El
    by (intros S B f s; apply stateful_run; unfold lift; by rewrite Ha).
  unfold place_legal_hold in Hnd, Hm' |- *. fold (tenant_of i) in Hnd, Hm' |- *.
  rewrite El in Hnd, Hm' |- *. rewrite El. cbv zeta in Hnd, Hm' |- *.
  rewrite (stateful_run _ _ _ _ _ (pg_case m db Hrep (tenant_of i) d)).
  rewrite (stateful_run _ _ m (bool_decide (d ∈ mem_cases m (tenant_of i))) m) in Hnd, Hm' |- * by done.
  case_bool_decide as Hcase; [|by split].
  rewrite (stateful_run _ _ m tt m) in Hnd, Hm' |- * by done.
  rewrite (stateful_run _ _ db tt db) by done.
  rewrite (stateful_run _ _ _ _ _ (pg_hold_event_run m db i d "data.legal-hold-placed" rs co (clk 0) Hrep)).
  rewrite (stateful_run _ _ _ _ _ (hold_event_spec secret m i d "data.legal-hold-placed" rs co (clk 0)))
    in Hnd, Hm' |- *.
  fold (hold_event_in m i d "data.legal-hold-placed" rs co (clk 0)) in Hnd, Hm' |- *.
  set (e := hold_event_in m i d "data.legal-hold-placed" rs co (clk 0)) in *.
  destruct (hold_tip m db i d "data.legal-hold-placed" rs co (clk 0) Hrep) as [Htip Hlink].
  destruct (Hclk 0) as [u Hu]. fold e in Htip, Hlink.
  destruct (fetchone_is_Some db "legal_holds" (active_on (tenant_of i) d)) as (o & Eo & Ho).
  fold (held_in_tables db (tenant_of i) d) in Ho. rewrite <-(rep_holds _ _ Hrep) in Ho.
  destruct (decide ((tenant_of i, d) ∈ _holds m)) as [Hh|Hh].
  - assert (mem_set_hold (tenant_of i) d e m = (Ok false, m)) as Em
      by (unfold mem_set_hold; by rewrite bool_decide_true).
    rewrite (stateful_run _ _ m false m) by exact Em.
    destruct o as [x|]; [|by apply Ho in Hh as [? ?]].
    rewrite (stateful_run _ _ db false db); [by split|]. apply atomic_Ok.
    by rewrite (stateful_run _ _ _ _ _ Eo).
  - assert (mem_set_hold (tenant_of i) d e m = (Ok true,
      mkMemory (_cases m) (_requests m) (_idempotency m) ({[(tenant_of i, d)]} ∪ _holds m) (events m ++ [e]))) as Em
      by (unfold mem_set_hold; rewrite bool_decide_false by done; by rewrite Hlink).
    assert (set_hold (tenant_of i) d (hold_id_of (tenant_of i) d)
      (_digest secret "actor" (tenant_of i) (identity_actor i)) rs (le_occurred_at e) e m = _) as Em' by exact Em.
    rewrite (stateful_run _ _ _ _ _ Em') in Hnd, Hm' |- *. clear Em Em'.
    destruct o as [x|]; [by destruct Hh; apply Ho|].
    destruct (upsert_run (tenant_of i) d (hold_id_of (tenant_of i) d)
      (_digest secret "actor" (tenant_of i) (identity_actor i)) rs (clk 0) db u) as (db1 & Eup & Hc1 & Hrest & Hheld);
      [apply Hrep|by apply (rep_cases _ _ Hrep)|by rewrite <-(rep_holds _ _ Hrep)|done|].
    destruct (hold_event_recorded m db db1 _ e u Hrep Hc1 Hrest Hm') as (db2 & Ea & Hrep2); try done.
    { by apply (fresh_of_NoDup _ _ []). }
    { intros t' d'. rewrite Hheld, <-(rep_holds _ _ Hrep). cbn. set_solver. }
    rewrite (stateful_run _ _ db true db2); [by split|]. apply atomic_Ok.
    rewrite (stateful_run _ _ _ _ _ Eo). rewrite (stateful_run _ _ _ _ _ Htip).
    rewrite (stateful_run _ _ _ _ _ Eup). by rewrite (stateful_run _ _ _ _ _ Ea).
Qed.

Lemma release_agrees m db i d co clk :
  represents m db → timely clk →
  NoDup (event_keys (events (release_legal_hold secret i d co clk m).2)) →
  let a := release_legal_hold secret i d co clk m in
  let b := release_legal_hold secret i d co clk db in
  agree (AReleased <$> a.1, a.2) (AReleased <$> b.1, b.2).
Proof using Hsession.
  intros Hrep Hclk Hnd. cbv zeta. pose proof (rep_memory _ _ Hrep) as Hm.
  destruct (authorize i LEGAL_HOLD_MANAGE) as [[]|err] eqn:Ha;
    [|unfold release_legal_hold; rewrite !(denied_run _ _ _ _ _ Ha); by split].
  pose proof (release_hold_ok secret m i d co clk Hm) as Hm'.
  assert (∀ S B (f : unit → stateful S B) (s : S), (lift (authorize i LEGAL_HOLD_MANAGE) ≫= f) s = f tt s) as El
    by (intros S B f s; apply stateful_run; unfold lift; by rewrite Ha).
  unfold release_legal_hold in Hnd, Hm' |- *. fold (tenant_of i) in Hnd, Hm' |- *.
  rewrite El in Hnd, Hm' |- *. rewrite El. cbv zeta in Hnd, Hm' |- *.
  rewrite (stateful_run _ _ _ _ _ (pg_hold_event_run m db i d "data.legal-hold-released"
    "LEGAL_HOLD_RELEASED" co (clk 0) Hrep)).
  rewrite (stateful_run _ _ _ _ _ (hold_event_spec secret m i d "data.legal-hold-released"
    "LEGAL_HOLD_RELEASED" co (clk 0))) in Hnd, Hm' |- *.
  fold (hold_event_in m i d "data.legal-hold-released" "LEGAL_HOLD_RELEASED" co (clk 0)) in Hnd, Hm' |- *.
  destruct (hold_tip m db i d "data.legal-hold-released" "LEGAL_HOLD_RELEASED" co (clk 0) Hrep) as [Htip Hlink].
  set (e := hold_event_in m i d "data.legal-hold-released" "LEGAL_HOLD_RELEASED" co (clk 0)) in *.
  destruct (Hclk 0) as [u Hu].
  destruct (fetchone_is_Some db "legal_holds" (active_on (tenant_of i) d)) as (o & Eo & Ho).
  fold (held_in_tables db (tenant_of i) d) in Ho. rewrite <-(rep_holds _ _ Hrep) in Ho.
  destruct (decide ((tenant_of i, d) ∈ _holds m)) as [Hh|Hh].
  - assert (mem_release_hold (tenant_of i) d e m = (Ok true,
      mkMemory (_cases m) (_requests m) (_idempotency m) (_holds m ∖ {[(tenant_of i, d)]}) (events m ++ [e]))) as Em
      by (unfold mem_release_hold; rewrite bool_decide_false by (intros Hn; by apply Hn); by rewrite Hlink).
    assert (release_hold (tenant_of i) d (_digest secret "actor" (tenant_of i) (identity_actor i))
      (le_occurred_at e) e m = _) as Em' by exact Em.
    rewrite Em' in Hnd, Hm' |- *. clear Em Em'.
    destruct o as [x|]; [|by apply Ho in Hh as [? ?]].
    apply (rep_holds _ _ Hrep) in Hh as Hheld0.
    assert (decision_stored db (tenant_of i) d) as Hst.
    { destruct Hheld0 as (x' & Hx & Hx2). apply active_on_spec in Hx2 as (E1 & E2 & _).
      destruct (parent_row (of_decision "legal_holds") x' db (rep_consistent _ _ Hrep)) as (p & Hp & Href%refers_spec);
        [by in_schema|done|]. destruct Href as (F1 & _ & F2 & _). exists p. split; [done|].
      apply keyed_spec. by rewrite <-F1, <-F2. }
    destruct (release_run (tenant_of i) d (_digest secret "actor" (tenant_of i) (identity_actor i)) u db)
      as (db1 & Eup & Hc1 & Hrest & Hheld); [apply Hrep|done|done|].
    destruct (hold_event_recorded m db db1 _ e u Hrep Hc1 Hrest Hm') as (db2 & Ea & Hrep2); try done.
    { by apply (fresh_of_NoDup _ _ []). }
    { intros t' d'. rewrite Hheld, <-(rep_holds _ _ Hrep). cbn. set_solver. }
    assert (release_hold (tenant_of i) d (_digest secret "actor" (tenant_of i) (identity_actor i))
      (le_occurred_at e) e db = (Ok true, db2)) as ->; [|by split]. apply atomic_Ok.
    rewrite (stateful_run _ _ _ _ _ Eo). rewrite (stateful_run _ _ _ _ _ Htip).
    rewrite (stateful_run (lift (timestamptz (le_occurred_at e))) _ db (PStr u) db)
      by (unfold lift, timestamptz; cbn; by rewrite Hu).
    rewrite (stateful_run _ _ _ _ _ Eup). cbn [Nat.ltb Nat.leb]. by rewrite (stateful_run _ _ _ _ _ Ea).
  - assert (mem_release_hold (tenant_of i) d e m = (Ok false, m)) as Em
      by (unfold mem_release_hold; by rewrite bool_decide_true).
    assert (release_hold (tenant_of i) d (_digest secret "actor" (tenant_of i) (identity_actor i))
      (le_occurred_at e) e m = (Ok false, m)) as Em' by exact Em.
    rewrite Em' in Hnd, Hm' |- *. destruct o as [x|]; [by destruct Hh; apply Ho|].
    assert (release_hold (tenant_of i) d (_digest secret "actor" (tenant_of i) (identity_actor i))
      (le_occurred_at e) e db = (Ok false, db)) as ->; [|by split]. apply atomic_Ok.
    by rewrite (stateful_run _ _ _ _ _ Eo).
Qed.

(** ** Whole runs *)

Lemma reply_agrees m db c :
  represents m db → timely_call c → case_present m c →
  NoDup (event_keys (events (perform secret m c))) →
  (reply secret add_case c m).2 = perform secret m c ∧
  agree (reply secret add_case c m) (reply secret pg_add_case c db).
Proof using Hsession.
  intros Hrep Ht Hc Hnd. destruct c as [t d|i d rs k co clk|i id co clk|i d rs co clk|i d co clk]; cbn [perform timely_call] in *.
  - split; [done|]. split; [done|]. by apply add_agrees.
  - pose proof (request_agrees m db i d rs k co clk Hrep Ht Hnd) as Ha. cbv zeta in Ha.
    revert Ha. clear. cbn [reply]. unfold mbind, stateful_bind.
    destruct (request_deletion secret i d rs k co clk m) as [[r|e] m1];
      destruct (request_deletion secret i d rs k co clk db) as [[q|e'] db1]; intros Ha; (split; [reflexivity|exact Ha]).
  - pose proof (execute_agrees m db i id co clk Hrep Ht Hc Hnd) as Ha. cbv zeta in Ha.
    revert Ha. clear. cbn [reply]. unfold mbind, stateful_bind.
    destruct (execute_deletion i id co clk m) as [[r|e] m1];
      destruct (execute_deletion i id co clk db) as [[q|e'] db1]; intros Ha; (split; [reflexivity|exact Ha]).
  - pose proof (place_agrees m db i d rs co clk Hrep Ht Hnd) as Ha. cbv zeta in Ha.
    revert Ha. clear. cbn [reply]. unfold mbind, stateful_bind.
    destruct (place_legal_hold secret i d rs co clk m) as [[r|e] m1];
      destruct (place_legal_hold secret i d rs co clk db) as [[q|e'] db1]; intros Ha; (split; [reflexivity|exact Ha]).
  - pose proof (release_agrees m db i d co clk Hrep Ht Hnd) as Ha. cbv zeta in Ha.
    revert Ha. clear. cbn [reply]. unfold mbind, stateful_bind.
    destruct (release_legal_hold secret i d co clk m) as [[r|e] m1];
      destruct (release_legal_hold secret i d co clk db) as [[q|e'] db1]; intros Ha; (split; [reflexivity|exact Ha]).
Qed.

Lemma replies_agree m db calls :
  represents m db → orderly m calls → NoDup (event_keys (events (perform_all secret m calls))) →
  Forall2 same_answer (replies secret add_case calls m).1 (replies secret pg_add_case calls db).1 ∧
  (replies secret add_case calls m).2 = perform_all secret m calls ∧
  represents (perform_all secret m calls) (replies secret pg_add_case calls db).2.
Proof using Hsession.
  revert m db. induction calls as [|c calls IH]; intros m db Hrep Ho Hnd;
    [split_and!; [constructor|done|exact Hrep]|].
  cbn [orderly] in Ho. cbn [replies]. destruct Ho as (Ht & Hc & Ho).
  destruct (reply_agrees m db c Hrep Ht Hc) as [E [Ha Hrep1]].
  { eapply NoDup_grows; [apply perform_all_grows|exact Hnd]. }
  destruct (reply secret add_case c m) as [a m1]. destruct (reply secret pg_add_case c db) as [b db1].
  cbn [fst snd] in *. subst m1. destruct (IH (perform secret m c) db1 Hrep1 Ho Hnd) as (HF & E2 & Hrep2).
  destruct (replies secret add_case calls (perform secret m c)) as [l m2].
  destruct (replies secret pg_add_case calls db1) as [l' db2]. cbn [fst snd] in *.
  split_and!; [by constructor|done|done].
Qed.

(** A database with cases and their data but no request, hold or event of a deletion. *)
Definition starts (cases : gmap string (gset string)) (db : database) : Prop :=
  consistent schema db = true ∧ own_handoffs db ∧
  (∀ t, t ∈ ["deletion_requests"; "lifecycle_audit_events"; "legal_holds"; "legal_hold_audit_events"] →
     table t db = []) ∧
  (∀ t d, d ∈ mem_cases (mkMemory cases ∅ ∅ ∅ []) t ↔ decision_stored db t d).

Lemma starts_represents cases db : starts cases db → represents (mkMemory cases ∅ ∅ ∅ []) db.
Proof using Type.
  intros (Hc & Ho & He & Hd).
  assert (table "deletion_requests" db = [] ∧ table "lifecycle_audit_events" db = [] ∧
    table "legal_holds" db = [] ∧ table "legal_hold_audit_events" db = []) as (E1 & E2 & E3 & E4)
    by (split_and!; apply He; by in_schema).
  split; try done.
  - intros t d. cbn. unfold held_in_tables. rewrite E3. split; [by intros ?%elem_of_empty|].
    by intros (r & ?%elem_of_nil & _).
  - intros row Hr. rewrite E1 in Hr. by apply elem_of_nil in Hr.
  - by rewrite E2.
  - by rewrite E4.
Qed.

(** C10: the repository in PostgreSQL refines the one in memory. From a database without requests,
    holds or events, every sequence of calls of the service (new cases, requests and executions of
    deletions, holds placed and released, by any identities) gets from both repositories the same
    answers and the same errors, one by one, up to the spelling of the times that are read back,
    and leaves the tables representing the memory. The run must give no two events one
    identifier, read times PostgreSQL accepts, and find the cases it deletes. *)
Theorem repositories_agree cases db calls :
  let m := mkMemory cases ∅ ∅ ∅ [] in
  starts cases db → orderly m calls → NoDup (event_keys (events (perform_all secret m calls))) →
  Forall2 same_answer (replies secret add_case calls m).1 (replies secret pg_add_case calls db).1 ∧
  represents (perform_all secret m calls) (replies secret pg_add_case calls db).2.
Proof using Hsession.
  intros m Hs Ho Hnd. destruct (replies_agree m db calls) as (HF & _ & Hr); [|done..].
  by apply starts_represents.
Qed.

End agreement.

(** ** An instance *)

(** Two stored cases of one tenant; identifiers and digests with SHA-256. *)
Definition two_cases : database := list_to_map
  [("decisions", [owned "t1" [("decision_id", "d1")]; owned "t1" [("decision_id", "d2")]])].
Definition sample_cases : gmap string (gset string) := {["t1" := {["d1"; "d2"]}]}.
Definition plain_hmac : Hmac := λ _ m, m.

Definition memory_run (calls : list call) : list (result response) * Memory :=
  replies (H := Sha256.sha256) (H0 := plain_hmac) "s" add_case calls (mkMemory sample_cases ∅ ∅ ∅ []).
Definition tables_run (calls : list call) : list (result response) * database :=
  replies (H := Sha256.sha256) (H0 := plain_hmac) (H1 := @postgres_repository sample_session sample_jsonb)
    "s" pg_add_case calls two_cases.

(** A case is held, its deletion is refused, the hold is released and the deletion executed; the
    other case is untouched. *)
Definition deletion_id (calls : list call) : string :=
  match (memory_run calls).1 with
  | Ok (ARequest r) :: _ => request_id r
  | _ => ""
  end.
Definition asks (d k co : string) : call := RequestDeletion sample_admin d "PILOT_END" k co ticks.
Definition executes (d k co : string) : call :=
  ExecuteDeletion sample_admin (deletion_id [asks d k "c"]) co ticks.
Definition held_then_deleted : list call :=
  [PlaceHold sample_admin "d1" "LITIGATION" "c0" ticks; asks "d1" "k1" "c1"; executes "d1" "k1" "c2";
   ReleaseHold sample_admin "d1" "c3" ticks; executes "d1" "k1" "c4"].

Lemma two_cases_start : starts sample_cases two_cases.
Proof.
  split_and!.
  - vm_compute. reflexivity.
  - intros h run Hh. vm_compute in Hh. by apply elem_of_nil in Hh.
  - intros t Ht. elem_cases Ht; subst; vm_compute; reflexivity.
  - intros t d. unfold decision_stored. change (table "decisions" two_cases) with
      [owned "t1" [("decision_id", "d1")]; owned "t1" [("decision_id", "d2")]].
    unfold mem_cases, sample_cases. cbn [_cases]. split.
    + destruct (decide (t = "t1")) as [->|Ht]; [|rewrite lookup_singleton_ne by done; by intros ?%elem_of_empty].
      rewrite lookup_singleton_eq. intros Hd. cbn [default from_option] in Hd. unfold id in Hd.
      apply elem_of_union in Hd as [->%elem_of_singleton| ->%elem_of_singleton];
        [exists (owned "t1" [("decision_id", "d1")])|exists (owned "t1" [("decision_id", "d2")])];
        (split; [repeat constructor|vm_compute; reflexivity]).
    + intros (r & Hr & E). unfold keyed, of_tenant in E. apply andb_true_iff in E as [E1 E2].
      elem_cases Hr; subst r; apply bool_decide_eq_true in E1, E2; cbn in E1, E2; injection E1 as <-; injection E2 as <-;
        vm_compute; reflexivity.
Qed.

Lemma repositories_agree_witness :
  Forall2 (same_answer (H1 := sample_session)) (memory_run held_then_deleted).1 (tables_run held_then_deleted).1 ∧
  table "decisions" (tables_run held_then_deleted).2 = [owned "t1" [("decision_id", "d2")]].
Proof.
  split; [|vm_compute; reflexivity].
  unfold memory_run, tables_run.
  refine (proj1 (repositories_agree (H := Sha256.sha256) (H0 := plain_hmac) (H1 := sample_session) (H2 := sample_jsonb)
    "s" (λ t s _, eq_refl) sample_cases two_cases held_then_deleted two_cases_start _ _)).
  - cbn [orderly held_then_deleted asks executes timely_call]. split_and!; try by eexists.
    all: try exact I.
    all: intros r d Hr Hd _; vm_compute in Hr; injection Hr as <-; injection Hd as <-; vm_compute; reflexivity.
  - apply (bool_decide_unpack _). vm_compute. reflexivity.
Defined.

(** Two requests for the deletion of one case, both executed, and the second one again later. *)
Definition two_deletions : list call :=
  [asks "d1" "k1" "c1"; asks "d1" "k2" "c2"; executes "d1" "k1" "c3"; executes "d1" "k2" "c4";
   ExecuteDeletion sample_admin (deletion_id [asks "d1" "k2" "c"]) "c5" (λ n, pretty (n + 20))].

Definition outcome (a : result response) : result (option DeletionStatus) :=
  match a with
  | Ok (ARequest r) => Ok (Some (del_status r))
  | Ok _ => Ok None
  | Raise e => Raise e
  end.

(** Where the two repositories part: the case of the second request is gone when it is executed.
    In memory it completes; in PostgreSQL every execution fails and leaves it EXECUTING. *)
Theorem second_deletion_sticks :
  map outcome (memory_run two_deletions).1 =
    [Ok (Some REQUESTED); Ok (Some REQUESTED); Ok (Some COMPLETED); Ok (Some COMPLETED);
     Ok (Some COMPLETED)] ∧
  map outcome (tables_run two_deletions).1 =
    [Ok (Some REQUESTED); Ok (Some REQUESTED); Ok (Some COMPLETED);
     raise KeyError "CASE_NOT_FOUND"; raise KeyError "CASE_NOT_FOUND"] ∧
  map (λ r, text_of (col "status" r)) (table "deletion_requests" (tables_run two_deletions).2) =
    ["COMPLETED"; "EXECUTING"].
Proof. vm_compute. auto. Qed.
