(* ===== verification/Research.v ===== *)
(** * Research runs

    [web_research/contracts.py], [web_research/lifecycle.py], [web_research/audit.py] and
    [web_research/selection.py]: the data of a research run, the states it goes through, the
    hash-chained ledger every state change and egress decision is appended to, and the choice
    of the sources to extract. *)

From S2P Require Import Prelude PyVal Json Sha256 AuditChain Identity PyDecimal.
From stdpp Require Import options.

(** ** [contracts.py] *)

Inductive ResearchStatus :=
  | CREATED | SEARCHING | SOURCES_DISCOVERED | EXTRACTING | EVIDENCE_COMPILED | COMPLETED
  | PARTIALLY_COMPLETED | FAILED | CANCELLED.

#[export] Instance research_status_eq_dec : EqDecision ResearchStatus.
Proof. solve_decision. Defined.

Definition research_status_value (s : ResearchStatus) : string :=
  match s with
  | CREATED => "CREATED" | SEARCHING => "SEARCHING" | SOURCES_DISCOVERED => "SOURCES_DISCOVERED"
  | EXTRACTING => "EXTRACTING" | EVIDENCE_COMPILED => "EVIDENCE_COMPILED"
  | COMPLETED => "COMPLETED" | PARTIALLY_COMPLETED => "PARTIALLY_COMPLETED"
  | FAILED => "FAILED" | CANCELLED => "CANCELLED"
  end.

Record FreshnessPolicy := mkFreshness { maximum_age_days : Z; prefer_recent : bool }.

(** [FreshnessPolicy.__post_init__] *)
Definition freshness_policy (p : FreshnessPolicy) : result FreshnessPolicy :=
  _ ← require ((1 <=? maximum_age_days p)%Z && (maximum_age_days p <=? 3650)%Z)
        ValueError "INVALID_FRESHNESS_POLICY";
  Ok p.

Record ResearchRequest := mkResearchRequest {
  decision_file_id : string;
  rq_claim_refs : list string;
  query : string;
  locale : string;
  preferred_languages : list string;
  max_search_results : Z;
  max_sources_to_extract : Z;
  allowed_domains : list string;
  blocked_domains : list string;
  freshness : FreshnessPolicy;
  research_policy : string;
  force_refresh : bool;
  rq_schema_version : string
}.

#[export] Instance freshness_eq_dec : EqDecision FreshnessPolicy.
Proof. solve_decision. Defined.
#[export] Instance research_request_eq_dec : EqDecision ResearchRequest.
Proof. solve_decision. Defined.

Definition is_alpha (c : ascii) : bool :=
  let n := Ascii.nat_of_ascii c in
  (((65 <=? n) && (n <=? 90)) || ((97 <=? n) && (n <=? 122)))%nat.

(** [_ID_PATTERN.fullmatch] *)
Definition research_id_char (c : ascii) : bool :=
  is_alnum c || Ascii.eqb c "." || Ascii.eqb c "_" || Ascii.eqb c ":" || Ascii.eqb c "-".
Definition _ID_PATTERN (s : string) : bool :=
  match s with
  | String c rest => is_alnum c && str_forallb research_id_char rest && (String.length rest <=? 255)%nat
  | EmptyString => false
  end.

(** The pieces between the hyphens. *)
Fixpoint split_hyphens (acc s : string) : list string :=
  match s with
  | EmptyString => [acc]
  | String c s => if Ascii.eqb c "-" then acc :: split_hyphens "" s
                  else split_hyphens (acc +:+ String c EmptyString) s
  end.

Definition language_part (f : ascii → bool) (low high : nat) (s : string) : bool :=
  (low <=? String.length s)%nat && (String.length s <=? high)%nat && str_forallb f s.

(** [_LANGUAGE_PATTERN.fullmatch] *)
Definition _LANGUAGE_PATTERN (s : string) : bool :=
  match split_hyphens "" s with
  | primary :: rest => language_part is_alpha 2 3 primary && forallb (language_part is_alnum 2 8) rest
  | [] => false
  end.

(** [len(s.split())] on code points. *)
Fixpoint count_words (inside : bool) (l : list string) : nat :=
  match l with
  | [] => 0
  | c :: l => if is_space c then count_words false l
              else (if inside then 0 else 1) + count_words true l
  end.

(** [ResearchRequest.__post_init__], whose [freshness] has passed its own. *)
Definition research_request (r : ResearchRequest) : result ResearchRequest :=
  _ ← require (rq_schema_version r =? "0.4.0") ValueError "UNSUPPORTED_RESEARCH_SCHEMA";
  _ ← require (_ID_PATTERN (decision_file_id r)) ValueError "INVALID_DECISION_FILE_ID";
  _ ← require (negb (bool_decide (rq_claim_refs r = [])) && bool_decide (NoDup (rq_claim_refs r)))
        ValueError "INVALID_CLAIM_REFS";
  let q := str_strip (query r) in
  _ ← require (negb (q =? "")) ValueError "QUERY_REQUIRED";
  _ ← require ((str_len q <=? 400)%nat && (count_words false (code_points q) <=? 50)%nat)
        ValueError "QUERY_TOO_LONG";
  _ ← require (_LANGUAGE_PATTERN (locale r)) ValueError "INVALID_LOCALE";
  _ ← require ((1 <=? length (preferred_languages r))%nat && (length (preferred_languages r) <=? 5)%nat &&
               forallb _LANGUAGE_PATTERN (preferred_languages r))
        ValueError "INVALID_PREFERRED_LANGUAGES";
  _ ← require ((1 <=? max_search_results r)%Z && (max_search_results r <=? 20)%Z)
        ValueError "INVALID_SEARCH_LIMIT";
  _ ← require ((1 <=? max_sources_to_extract r)%Z &&
               (max_sources_to_extract r <=? Z.min (max_search_results r) 10)%Z)
        ValueError "INVALID_EXTRACTION_LIMIT";
  _ ← require ((length (allowed_domains r) <=? 50)%nat && (length (blocked_domains r) <=? 50)%nat)
        ValueError "TOO_MANY_DOMAIN_RULES";
  _ ← require (str_in (research_policy r) ["standard"; "high-assurance"])
        ValueError "INVALID_RESEARCH_POLICY";
  Ok r.

Record SearchQuery := mkSearchQuery {
  sq_query : string; sq_locale : string; sq_languages : list string; sq_count : Z;
  sq_freshness : FreshnessPolicy; sq_allowed : list string; sq_blocked : list string
}.

Record SearchResult := mkSearchResult {
  res_url : string; res_title : string; res_snippet : string; res_rank : Z;
  res_published_at : option string; res_citation_kind : string; res_artifact_type : string
}.

Record SearchResponse := mkSearchResponse {
  resp_provider_id : string; resp_provider_version : string; resp_searched_at : string;
  resp_results : list SearchResult; resp_summary : string; resp_request_id : option string
}.

Record SourceCandidate := mkCandidate {
  source_id : string; original_url : string; canonical_url : string; domain : string;
  src_title : string; src_snippet : string; rank : Z; searched_at : string;
  search_provider : string; search_provider_version : string; published_at : option string;
  src_status : string; src_reasons : list string; citation_kind : string; artifact_type : string
}.

(** The assignments [source.status = …; source.reason_codes = …; source.artifact_type = …]. *)
Definition mark_source (status : string) (reasons : list string) (artifact : string) (s : SourceCandidate) :
    SourceCandidate :=
  mkCandidate (source_id s) (original_url s) (canonical_url s) (domain s) (src_title s) (src_snippet s)
    (rank s) (searched_at s) (search_provider s) (search_provider_version s) (published_at s)
    status reasons (citation_kind s) artifact.
Definition set_source (status : string) (reasons : list string) (s : SourceCandidate) : SourceCandidate :=
  mark_source status reasons (artifact_type s) s.

Record ExtractionRequest := mkExtractionRequest {
  ex_source_id : string; ex_url : string; ex_locale : string; ex_max_bytes : Z; ex_ttl : Z
}.

Record ExtractedContent := mkExtracted {
  markdown : string; content_title : string; content_url : string; content_retrieved_at : string;
  content_mime : string; content_status : Z; content_language : string; content_provider_id : string;
  content_version : string; content_request_id : option string
}.

(** [retry_after_seconds] is a float, kept as its [repr]. *)
Record ProviderError := mkProviderError {
  pe_provider : string; pe_reason : string; retryable : bool; pe_status : option Z;
  retry_after_seconds : option string
}.

Record ResearchError := mkResearchError {
  err_reason : string; err_provider : option ProviderError; err_source : option string
}.

(** [ExtractionResponse], whose [__post_init__] asks for exactly one of the two. *)
Inductive ExtractionResponse :=
  | Extracted (content : ExtractedContent)
  | NotExtracted (error : ProviderError).

Record ContentRisk := mkRisk {
  injection_suspected : bool; risk_reasons : list string; secret_redacted : bool;
  active_content_removed : bool
}.

Record SourceSnapshot := mkSnapshot {
  snapshot_id : string; snap_source : string; snap_original_url : string; snap_url : string;
  snap_domain : string; snap_title : string; retrieved_at : string; expires_at : string;
  content_hash : string; http_status : Z; mime_type : string; format : string; text : string;
  language : string; snap_provider : string; snap_provider_version : string; snap_risk : ContentRisk;
  snap_artifact : string
}.

Record Provenance := mkProvenance {
  pv_rank : Z; pv_query : string; pv_search : string; pv_search_version : string;
  pv_content : string; pv_content_version : string; pv_policy : string
}.

(** The two scores are floats, kept as their [repr]. *)
Record EvidenceAssessment := mkAssessment {
  freshness_status : string; source_type : string; authority_score : string;
  relevance_score : string; conflict_status : string; usable_for_decision : bool;
  requires_human_review : bool; as_reasons : list string
}.

Record EvidenceCandidate := mkEvidenceCandidate {
  cand_id : string; cand_tenant : string; cand_run : string; cand_decision : string;
  cand_claims : list string; cand_source : string; cand_snapshot : string; cand_hash : string;
  assessment : EvidenceAssessment; provenance : Provenance; cand_risk : ContentRisk;
  cand_artifact : string
}.

Record ResearchAttempt := mkAttempt {
  attempt_id : string; att_provider : string; operation : string; att_status : string;
  att_occurred_at : string; att_source : option string; cost_units : Z; att_reason : option string
}.

Record ResearchAuditEvent := mkResearchEvent {
  re_id : string; re_type : string; re_occurred_at : string; re_tenant : string; re_actor : string;
  re_from : ResearchStatus; re_to : ResearchStatus; re_reasons : list string;
  re_correlation : string; re_payload_hash : string; re_previous : option string;
  re_schema : string; re_decision : option string; re_profile : option string;
  re_policy : option string; re_provider : option string; re_connector : option string;
  re_host : option string; re_location : option string; re_evidence_id : option string;
  re_evidence_status : option string
}.

Record ResearchRun := mkRun {
  research_run_id : string; run_tenant : string; run_actor : string; request : ResearchRequest;
  expected_document_hash : string; semantic_fingerprint : string; run_status : ResearchStatus;
  run_created_at : string; run_updated_at : string; run_correlation : string;
  sources : list SourceCandidate; snapshots : list SourceSnapshot;
  run_evidence : list EvidenceCandidate; attempts : list ResearchAttempt;
  errors : list ResearchError; run_events : list ResearchAuditEvent;
  provider_cost_units : Z; compiled_decision_file_id : option string;
  search_summary : option string; search_request_id : option string
}.

(** The attribute assignments of the orchestrator. *)
Definition run_set_status (s : ResearchStatus) (at_ : string) (r : ResearchRun) : ResearchRun :=
  mkRun (research_run_id r) (run_tenant r) (run_actor r) (request r) (expected_document_hash r)
    (semantic_fingerprint r) s (run_created_at r) at_ (run_correlation r) (sources r) (snapshots r)
    (run_evidence r) (attempts r) (errors r) (run_events r) (provider_cost_units r)
    (compiled_decision_file_id r) (search_summary r) (search_request_id r).
Definition run_add_event (e : ResearchAuditEvent) (r : ResearchRun) : ResearchRun :=
  mkRun (research_run_id r) (run_tenant r) (run_actor r) (request r) (expected_document_hash r)
    (semantic_fingerprint r) (run_status r) (run_created_at r) (run_updated_at r) (run_correlation r)
    (sources r) (snapshots r) (run_evidence r) (attempts r) (errors r) (run_events r ++ [e])
    (provider_cost_units r) (compiled_decision_file_id r) (search_summary r) (search_request_id r).
Definition run_set_actor (actor correlation : string) (r : ResearchRun) : ResearchRun :=
  mkRun (research_run_id r) (run_tenant r) actor (request r) (expected_document_hash r)
    (semantic_fingerprint r) (run_status r) (run_created_at r) (run_updated_at r) correlation
    (sources r) (snapshots r) (run_evidence r) (attempts r) (errors r) (run_events r)
    (provider_cost_units r) (compiled_decision_file_id r) (search_summary r) (search_request_id r).
Definition run_set_sources (l : list SourceCandidate) (r : ResearchRun) : ResearchRun :=
  mkRun (research_run_id r) (run_tenant r) (run_actor r) (request r) (expected_document_hash r)
    (semantic_fingerprint r) (run_status r) (run_created_at r) (run_updated_at r) (run_correlation r)
    l (snapshots r) (run_evidence r) (attempts r) (errors r) (run_events r)
    (provider_cost_units r) (compiled_decision_file_id r) (search_summary r) (search_request_id r).
Definition run_set_evidence (snaps : list SourceSnapshot) (evs : list EvidenceCandidate) (r : ResearchRun) :
    ResearchRun :=
  mkRun (research_run_id r) (run_tenant r) (run_actor r) (request r) (expected_document_hash r)
    (semantic_fingerprint r) (run_status r) (run_created_at r) (run_updated_at r) (run_correlation r)
    (sources r) snaps evs (attempts r) (errors r) (run_events r)
    (provider_cost_units r) (compiled_decision_file_id r) (search_summary r) (search_request_id r).
Definition run_set_attempts (l : list ResearchAttempt) (used : Z) (r : ResearchRun) : ResearchRun :=
  mkRun (research_run_id r) (run_tenant r) (run_actor r) (request r) (expected_document_hash r)
    (semantic_fingerprint r) (run_status r) (run_created_at r) (run_updated_at r) (run_correlation r)
    (sources r) (snapshots r) (run_evidence r) l (errors r) (run_events r)
    used (compiled_decision_file_id r) (search_summary r) (search_request_id r).
Definition run_add_error (e : ResearchError) (r : ResearchRun) : ResearchRun :=
  mkRun (research_run_id r) (run_tenant r) (run_actor r) (request r) (expected_document_hash r)
    (semantic_fingerprint r) (run_status r) (run_created_at r) (run_updated_at r) (run_correlation r)
    (sources r) (snapshots r) (run_evidence r) (attempts r) (errors r ++ [e]) (run_events r)
    (provider_cost_units r) (compiled_decision_file_id r) (search_summary r) (search_request_id r).
Definition run_set_compiled (hash : string) (id : option string) (r : ResearchRun) : ResearchRun :=
  mkRun (research_run_id r) (run_tenant r) (run_actor r) (request r) hash
    (semantic_fingerprint r) (run_status r) (run_created_at r) (run_updated_at r) (run_correlation r)
    (sources r) (snapshots r) (run_evidence r) (attempts r) (errors r) (run_events r)
    (provider_cost_units r) id (search_summary r) (search_request_id r).
Definition run_set_summary (summary request_id : option string) (r : ResearchRun) : ResearchRun :=
  mkRun (research_run_id r) (run_tenant r) (run_actor r) (request r) (expected_document_hash r)
    (semantic_fingerprint r) (run_status r) (run_created_at r) (run_updated_at r) (run_correlation r)
    (sources r) (snapshots r) (run_evidence r) (attempts r) (errors r) (run_events r)
    (provider_cost_units r) (compiled_decision_file_id r) summary request_id.

(** ** [lifecycle.py] *)

Definition research_allowed : list (ResearchStatus * ResearchStatus) :=
  [(CREATED, SEARCHING); (SEARCHING, SOURCES_DISCOVERED); (SOURCES_DISCOVERED, EXTRACTING);
   (EXTRACTING, EVIDENCE_COMPILED); (EVIDENCE_COMPILED, COMPLETED); (SEARCHING, FAILED);
   (SOURCES_DISCOVERED, FAILED); (EXTRACTING, FAILED); (EVIDENCE_COMPILED, FAILED);
   (EXTRACTING, PARTIALLY_COMPLETED); (EVIDENCE_COMPILED, PARTIALLY_COMPLETED)].
Definition research_retry : list (ResearchStatus * ResearchStatus) :=
  [(FAILED, SEARCHING); (FAILED, EXTRACTING); (PARTIALLY_COMPLETED, EXTRACTING)].
Definition research_cancellable : list ResearchStatus :=
  [CREATED; SEARCHING; SOURCES_DISCOVERED; EXTRACTING; EVIDENCE_COMPILED; FAILED; PARTIALLY_COMPLETED].

Definition research_transition (source target : ResearchStatus) (retry : bool) : result ResearchStatus :=
  if bool_decide (target = CANCELLED) && bool_decide (source ∈ research_cancellable) then Ok target
  else if bool_decide ((source, target) ∈ research_retry) then
    _ ← require retry ResearchTransitionRejected "RETRY_REQUIRED"; Ok target
  else
    _ ← require (bool_decide ((source, target) ∈ research_allowed))
          ResearchTransitionRejected "RESEARCH_TRANSITION_NOT_ALLOWED";
    Ok target.

(** ** [production/egress.py], the decisions the ledger records *)

Record EgressDecision := mkEgressDecision {
  eg_decision : string; eg_occurred_at : string; eg_tenant : string; eg_actor : string;
  eg_correlation : string; eg_profile : string; eg_policy : string; eg_provider : string;
  eg_connector : string; eg_host : string; eg_location : option string;
  eg_evidence_id : option string; eg_evidence_status : option string; eg_reason : string
}.

(** ** [audit.py] *)

Definition text_json (o : option string) : pyval :=
  match o with Some s => PStr s | None => PNone end.

(** [codec.to_data] of an event: its fields in order. *)
Definition research_event_json (e : ResearchAuditEvent) : pyval :=
  PDict [("event_id", PStr (re_id e)); ("event_type", PStr (re_type e));
         ("occurred_at", PStr (re_occurred_at e)); ("tenant_id", PStr (re_tenant e));
         ("actor_id", PStr (re_actor e)); ("from_status", PStr (research_status_value (re_from e)));
         ("to_status", PStr (research_status_value (re_to e)));
         ("reason_codes", PList (map PStr (re_reasons e)));
         ("correlation_id", PStr (re_correlation e)); ("payload_hash", PStr (re_payload_hash e));
         ("previous_event_hash", text_json (re_previous e)); ("schema_version", PStr (re_schema e));
         ("decision", text_json (re_decision e)); ("operating_profile", text_json (re_profile e));
         ("policy_version", text_json (re_policy e)); ("provider", text_json (re_provider e));
         ("connector", text_json (re_connector e)); ("target_host", text_json (re_host e));
         ("requested_processing_location", text_json (re_location e));
         ("evidence_id", text_json (re_evidence_id e));
         ("evidence_status", text_json (re_evidence_status e))].

Section audit.
Context `{HashAlg}.

(** [_hash(to_data(previous)) if previous else None] *)
Definition research_link (l : list ResearchAuditEvent) : option string :=
  payload_hash ∘ research_event_json <$> last l.

Definition transition_audit (run : ResearchRun) (target : ResearchStatus) (occurred_at actor : string)
    (reasons : list string) (payload : pyval) : ResearchAuditEvent :=
  mkResearchEvent
    (research_run_id run +:+ ":research-audit:" +:+ pretty (S (length (run_events run))))
    "research.status-transitioned" occurred_at (run_tenant run) actor (run_status run) target
    reasons (run_correlation run) (payload_hash payload) (research_link (run_events run))
    "research-audit-v1" None None None None None None None None None.

(** [apply_transition]; the event it returns is the last of the run. *)
Definition apply_transition (target : ResearchStatus) (occurred_at actor : string) (reasons : list string)
    (payload : pyval) (retry : bool) (run : ResearchRun) : result ResearchRun :=
  _ ← research_transition (run_status run) target retry;
  Ok (run_add_event (transition_audit run target occurred_at actor reasons payload)
        (run_set_status target occurred_at run)).

Definition egress_payload (d : EgressDecision) : pyval :=
  PDict [("decision", PStr (eg_decision d)); ("tenant_id", PStr (eg_tenant d));
         ("provider", PStr (eg_provider d)); ("connector", PStr (eg_connector d));
         ("target_host", PStr (eg_host d));
         ("requested_processing_location", text_json (eg_location d));
         ("evidence_id", text_json (eg_evidence_id d));
         ("evidence_status", text_json (eg_evidence_status d)); ("reason_code", PStr (eg_reason d))].

Definition egress_audit (run : ResearchRun) (d : EgressDecision) : ResearchAuditEvent :=
  mkResearchEvent (research_run_id run +:+ ":egress:" +:+ pretty (S (length (run_events run))))
    "research.egress-decision" (eg_occurred_at d) (eg_tenant d) (eg_actor d) (run_status run)
    (run_status run) [eg_reason d] (eg_correlation d) (payload_hash (egress_payload d))
    (research_link (run_events run)) "research-egress-decision-v1" (Some (eg_decision d))
    (Some (eg_profile d)) (Some (eg_policy d)) (Some (eg_provider d)) (Some (eg_connector d))
    (Some (eg_host d)) (eg_location d) (eg_evidence_id d) (eg_evidence_status d).

(** [append_egress_decision] *)
Definition append_egress_decision (d : EgressDecision) (run : ResearchRun) : ResearchRun :=
  run_add_event (egress_audit run d) run.
End audit.

(** ** [selection.py] *)

(** The key [(item.rank, item.source_id)]; [sorted] is stable. *)
Definition selection_leb (x y : nat * SourceCandidate) : bool :=
  (rank x.2 <? rank y.2)%Z ||
  (rank x.2 =? rank y.2)%Z && String.leb (source_id x.2) (source_id y.2).

(** [SourceSelectionPolicy.select]: the objects it returns are those of the run's list, so each
    comes with its position there. *)
Definition select (l : list SourceCandidate) (limit : Z) (statuses : list string) :
    list (nat * SourceCandidate) :=
  take (Z.to_nat limit)
    (py_sorted selection_leb (filter (λ x, src_status x.2 ∈ statuses) (enumerate 0 l))).
