(* ===== verification/ResearchCodec.v ===== *)
(** * Research runs as JSON

    [web_research/codec.py]: the value a run is stored as and the run that is read from it. A
    record is read from the items of a dictionary, as the dataclass constructors do: a missing
    or an unknown field is refused. The dataclasses keep a value of another type than the field
    declares; the records of the model are typed, and such a value is refused ([untyped]). *)

From S2P Require Import Prelude PyVal JsonNumber Json JsonLoads Research.
From stdpp Require Import options.

Definition untyped {A} : result A := raise TypeError "untyped".

(** ** Fields *)

Definition as_str (v : pyval) : result string := match v with PStr s => Ok s | _ => untyped end.
Definition as_opt_str (v : pyval) : result (option string) :=
  match v with PNone => Ok None | PStr s => Ok (Some s) | _ => untyped end.
Definition as_bool (v : pyval) : result bool := match v with PBool b => Ok b | _ => untyped end.
Definition as_Z (v : pyval) : result Z := match v with PInt z => Ok z | _ => untyped end.
Definition as_opt_Z (v : pyval) : result (option Z) :=
  match v with PNone => Ok None | PInt z => Ok (Some z) | _ => untyped end.
Definition as_float (v : pyval) : result string := match v with PFloat t => Ok t | _ => untyped end.
Definition as_opt_float (v : pyval) : result (option string) :=
  match v with PNone => Ok None | PFloat t => Ok (Some t) | _ => untyped end.

(** [tuple(v)] of strings *)
Definition as_tuple (v : pyval) : result (list string) := l ← py_iter v; mapM as_str l.

(** [int(v)] and [bool(v)] *)
Definition to_int (v : pyval) : result Z := match as_int v with Some z => Ok z | None => untyped end.
Definition to_bool (v : pyval) : bool := truthy v.

(** [raw.get(k, d)] *)
Definition get (v : pyval) (k : string) (d : pyval) : result pyval := py_get v k d.

Definition str_data (l : list string) : pyval := PList (map PStr l).
Definition opt_data {A} (f : A → pyval) (o : option A) : pyval :=
  match o with Some x => f x | None => PNone end.

(** The call [C( **item )]: the fields of the class, those without a default first. *)
Definition kwargs (required optional : list string) (v : pyval) : result (list (string * pyval)) :=
  match v with
  | PDict d =>
      _ ← require (forallb (λ kv, str_in kv.1 (required ++ optional)) d) TypeError "unexpected keyword";
      _ ← require (forallb (λ k, bool_decide (is_Some (assoc k d))) required) TypeError "missing argument";
      Ok d
  | _ => raise TypeError "argument after ** must be a mapping"
  end.

Definition field {A} (read : pyval → result A) (d : list (string * pyval)) (k : string) (dflt : pyval) : result A :=
  read (default dflt (assoc k d)).

(** ** [to_data], by dataclass *)

Definition freshness_data (p : FreshnessPolicy) : pyval :=
  PDict [("maximum_age_days", PInt (maximum_age_days p)); ("prefer_recent", PBool (prefer_recent p))].

Definition request_data (r : ResearchRequest) : pyval :=
  PDict [("decision_file_id", PStr (decision_file_id r)); ("claim_refs", str_data (rq_claim_refs r));
         ("query", PStr (query r)); ("locale", PStr (locale r));
         ("preferred_languages", str_data (preferred_languages r));
         ("max_search_results", PInt (max_search_results r));
         ("max_sources_to_extract", PInt (max_sources_to_extract r));
         ("allowed_domains", str_data (allowed_domains r)); ("blocked_domains", str_data (blocked_domains r));
         ("freshness", freshness_data (freshness r)); ("research_policy", PStr (research_policy r));
         ("force_refresh", PBool (force_refresh r)); ("schema_version", PStr (rq_schema_version r))].

Definition source_data (s : SourceCandidate) : pyval :=
  PDict [("source_id", PStr (source_id s)); ("original_url", PStr (original_url s));
         ("canonical_url", PStr (canonical_url s)); ("domain", PStr (domain s));
         ("title", PStr (src_title s)); ("snippet", PStr (src_snippet s)); ("rank", PInt (rank s));
         ("searched_at", PStr (searched_at s)); ("search_provider", PStr (search_provider s));
         ("search_provider_version", PStr (search_provider_version s));
         ("published_at", opt_data PStr (published_at s)); ("status", PStr (src_status s));
         ("reason_codes", str_data (src_reasons s)); ("citation_kind", PStr (citation_kind s));
         ("artifact_type", PStr (artifact_type s))].

Definition risk_data (r : ContentRisk) : pyval :=
  PDict [("prompt_injection_suspected", PBool (injection_suspected r));
         ("risk_reasons", str_data (risk_reasons r)); ("secret_redacted", PBool (secret_redacted r));
         ("active_content_removed", PBool (active_content_removed r))].

Definition snapshot_data (s : SourceSnapshot) : pyval :=
  PDict [("snapshot_id", PStr (snapshot_id s)); ("source_id", PStr (snap_source s));
         ("original_url", PStr (snap_original_url s)); ("canonical_url", PStr (snap_url s));
         ("domain", PStr (snap_domain s)); ("title", PStr (snap_title s));
         ("retrieved_at", PStr (retrieved_at s)); ("expires_at", PStr (expires_at s));
         ("content_hash", PStr (content_hash s)); ("http_status", PInt (http_status s));
         ("mime_type", PStr (mime_type s)); ("format", PStr (format s)); ("text", PStr (text s));
         ("language", PStr (language s)); ("content_provider", PStr (snap_provider s));
         ("content_provider_version", PStr (snap_provider_version s)); ("risk", risk_data (snap_risk s));
         ("artifact_type", PStr (snap_artifact s))].

Definition assessment_data (a : EvidenceAssessment) : pyval :=
  PDict [("freshness_status", PStr (freshness_status a)); ("source_type", PStr (source_type a));
         ("authority_score", PFloat (authority_score a)); ("relevance_score", PFloat (relevance_score a));
         ("conflict_status", PStr (conflict_status a)); ("usable_for_decision", PBool (usable_for_decision a));
         ("requires_human_review", PBool (requires_human_review a)); ("reason_codes", str_data (as_reasons a))].

Definition provenance_data (p : Provenance) : pyval :=
  PDict [("search_result_rank", PInt (pv_rank p)); ("search_query", PStr (pv_query p));
         ("search_provider", PStr (pv_search p)); ("search_provider_version", PStr (pv_search_version p));
         ("content_provider", PStr (pv_content p)); ("content_provider_version", PStr (pv_content_version p));
         ("policy_version", PStr (pv_policy p))].

Definition evidence_data (e : EvidenceCandidate) : pyval :=
  PDict [("evidence_id", PStr (cand_id e)); ("tenant_id", PStr (cand_tenant e));
         ("research_run_id", PStr (cand_run e)); ("decision_file_id", PStr (cand_decision e));
         ("claim_refs", str_data (cand_claims e)); ("source_id", PStr (cand_source e));
         ("snapshot_id", PStr (cand_snapshot e)); ("content_hash", PStr (cand_hash e));
         ("assessment", assessment_data (assessment e)); ("provenance", provenance_data (provenance e));
         ("risk", risk_data (cand_risk e)); ("artifact_type", PStr (cand_artifact e))].

Definition attempt_data (a : ResearchAttempt) : pyval :=
  PDict [("attempt_id", PStr (attempt_id a)); ("provider_id", PStr (att_provider a));
         ("operation", PStr (operation a)); ("status", PStr (att_status a));
         ("occurred_at", PStr (att_occurred_at a)); ("source_id", opt_data PStr (att_source a));
         ("cost_units", PInt (cost_units a)); ("reason_code", opt_data PStr (att_reason a))].

Definition provider_error_data (e : ProviderError) : pyval :=
  PDict [("provider_id", PStr (pe_provider e)); ("reason_code", PStr (pe_reason e));
         ("retryable", PBool (retryable e)); ("status_code", opt_data PInt (pe_status e));
         ("retry_after_seconds", opt_data PFloat (retry_after_seconds e))].

Definition error_data (e : ResearchError) : pyval :=
  PDict [("reason_code", PStr (err_reason e)); ("provider", opt_data provider_error_data (err_provider e));
         ("source_id", opt_data PStr (err_source e))].

Definition run_data (r : ResearchRun) : pyval :=
  PDict [("research_run_id", PStr (research_run_id r)); ("tenant_id", PStr (run_tenant r));
         ("actor_id", PStr (run_actor r)); ("request", request_data (request r));
         ("expected_document_hash", PStr (expected_document_hash r));
         ("semantic_fingerprint", PStr (semantic_fingerprint r));
         ("status", PStr (research_status_value (run_status r)));
         ("created_at", PStr (run_created_at r)); ("updated_at", PStr (run_updated_at r));
         ("correlation_id", PStr (run_correlation r)); ("sources", PList (map source_data (sources r)));
         ("snapshots", PList (map snapshot_data (snapshots r)));
         ("evidence", PList (map evidence_data (run_evidence r)));
         ("attempts", PList (map attempt_data (attempts r))); ("errors", PList (map error_data (errors r)));
         ("audit_events", PList (map research_event_json (run_events r)));
         ("provider_cost_units", PInt (provider_cost_units r));
         ("compiled_decision_file_id", opt_data PStr (compiled_decision_file_id r));
         ("search_summary", opt_data PStr (search_summary r));
         ("search_provider_request_id", opt_data PStr (search_request_id r))].

(** ** [run_from_data] *)

(** [ResearchStatus(value)] *)
Definition research_statuses : list ResearchStatus :=
  [CREATED; SEARCHING; SOURCES_DISCOVERED; EXTRACTING; EVIDENCE_COMPILED; COMPLETED;
   PARTIALLY_COMPLETED; FAILED; CANCELLED].
Definition research_status_of (s : string) : result ResearchStatus :=
  or_raise (List.find (λ x, research_status_value x =? s) research_statuses) ValueError s.

(** [item[k]] of a dictionary held in an item, replaced by [f] of it. *)
Definition replaced {A} (f : pyval → result A) (item : pyval) (k : string) : result A :=
  v ← py_item item k; f v.

Definition freshness_from (v : pyval) : result FreshnessPolicy :=
  days ← replaced to_int v "maximum_age_days";
  recent ← py_item v "prefer_recent";
  freshness_policy (mkFreshness days (to_bool recent)).

Definition item_str (v : pyval) (k : string) : result string := x ← py_item v k; Ok (py_str x).

Definition request_from (v : pyval) : result ResearchRequest :=
  f ← py_item v "freshness";
  id ← item_str v "decision_file_id";
  claims ← replaced as_tuple v "claim_refs";
  query ← item_str v "query";
  locale ← item_str v "locale";
  languages ← replaced as_tuple v "preferred_languages";
  results ← replaced to_int v "max_search_results";
  extract ← replaced to_int v "max_sources_to_extract";
  allowed ← replaced as_tuple v "allowed_domains";
  blocked ← replaced as_tuple v "blocked_domains";
  f ← freshness_from f;
  policy ← item_str v "research_policy";
  refresh ← py_item v "force_refresh";
  version ← item_str v "schema_version";
  research_request (mkResearchRequest id claims query locale languages results extract allowed blocked
    f policy (to_bool refresh) version).

Definition source_from (v : pyval) : result SourceCandidate :=
  reasons ← replaced as_tuple v "reason_codes";
  d ← kwargs ["source_id"; "original_url"; "canonical_url"; "domain"; "title"; "snippet"; "rank";
              "searched_at"; "search_provider"; "search_provider_version"]
             ["published_at"; "status"; "reason_codes"; "citation_kind"; "artifact_type"] v;
  id ← field as_str d "source_id" PNone; original ← field as_str d "original_url" PNone;
  url ← field as_str d "canonical_url" PNone; domain ← field as_str d "domain" PNone;
  title ← field as_str d "title" PNone; snippet ← field as_str d "snippet" PNone;
  rank ← field as_Z d "rank" PNone; searched ← field as_str d "searched_at" PNone;
  provider ← field as_str d "search_provider" PNone;
  version ← field as_str d "search_provider_version" PNone;
  published ← field as_opt_str d "published_at" PNone;
  status ← field as_str d "status" (PStr "DISCOVERED");
  kind ← field as_str d "citation_kind" (PStr "CITED");
  artifact ← field as_str d "artifact_type" (PStr "SEARCH_RESULT");
  Ok (mkCandidate id original url domain title snippet rank searched provider version published status
        reasons kind artifact).

Definition risk_from (v : pyval) : result ContentRisk :=
  reasons ← replaced as_tuple v "risk_reasons";
  d ← kwargs [] ["prompt_injection_suspected"; "risk_reasons"; "secret_redacted"; "active_content_removed"] v;
  suspected ← field as_bool d "prompt_injection_suspected" (PBool false);
  redacted ← field as_bool d "secret_redacted" (PBool false);
  removed ← field as_bool d "active_content_removed" (PBool false);
  Ok (mkRisk suspected reasons redacted removed).

Definition snapshot_from (v : pyval) : result SourceSnapshot :=
  risk ← replaced risk_from v "risk";
  d ← kwargs ["snapshot_id"; "source_id"; "original_url"; "canonical_url"; "domain"; "title"; "retrieved_at";
              "expires_at"; "content_hash"; "http_status"; "mime_type"; "format"; "text"; "language";
              "content_provider"; "content_provider_version"; "risk"] ["artifact_type"] v;
  id ← field as_str d "snapshot_id" PNone; source ← field as_str d "source_id" PNone;
  original ← field as_str d "original_url" PNone; url ← field as_str d "canonical_url" PNone;
  domain ← field as_str d "domain" PNone; title ← field as_str d "title" PNone;
  retrieved ← field as_str d "retrieved_at" PNone; expires ← field as_str d "expires_at" PNone;
  hash ← field as_str d "content_hash" PNone; status ← field as_Z d "http_status" PNone;
  mime ← field as_str d "mime_type" PNone; format ← field as_str d "format" PNone;
  text ← field as_str d "text" PNone; language ← field as_str d "language" PNone;
  provider ← field as_str d "content_provider" PNone;
  version ← field as_str d "content_provider_version" PNone;
  artifact ← field as_str d "artifact_type" (PStr "FETCHED_CONTENT");
  Ok (mkSnapshot id source original url domain title retrieved expires hash status mime format text language
        provider version risk artifact).

Definition assessment_from (v : pyval) : result EvidenceAssessment :=
  reasons ← replaced as_tuple v "reason_codes";
  d ← kwargs ["freshness_status"; "source_type"; "authority_score"; "relevance_score"; "conflict_status";
              "usable_for_decision"; "requires_human_review"; "reason_codes"] [] v;
  fresh ← field as_str d "freshness_status" PNone; type ← field as_str d "source_type" PNone;
  authority ← field as_float d "authority_score" PNone; relevance ← field as_float d "relevance_score" PNone;
  conflict ← field as_str d "conflict_status" PNone; usable ← field as_bool d "usable_for_decision" PNone;
  review ← field as_bool d "requires_human_review" PNone;
  Ok (mkAssessment fresh type authority relevance conflict usable review reasons).

Definition provenance_from (v : pyval) : result Provenance :=
  d ← kwargs ["search_result_rank"; "search_query"; "search_provider"; "search_provider_version";
              "content_provider"; "content_provider_version"; "policy_version"] [] v;
  rank ← field as_Z d "search_result_rank" PNone; query ← field as_str d "search_query" PNone;
  search ← field as_str d "search_provider" PNone;
  search_version ← field as_str d "search_provider_version" PNone;
  content ← field as_str d "content_provider" PNone;
  content_version ← field as_str d "content_provider_version" PNone;
  policy ← field as_str d "policy_version" PNone;
  Ok (mkProvenance rank query search search_version content content_version policy).

Definition evidence_from (v : pyval) : result EvidenceCandidate :=
  claims ← replaced as_tuple v "claim_refs";
  assessment ← replaced assessment_from v "assessment";
  provenance ← replaced provenance_from v "provenance";
  risk ← replaced risk_from v "risk";
  d ← kwargs ["evidence_id"; "tenant_id"; "research_run_id"; "decision_file_id"; "claim_refs"; "source_id";
              "snapshot_id"; "content_hash"; "assessment"; "provenance"; "risk"] ["artifact_type"] v;
  id ← field as_str d "evidence_id" PNone; tenant ← field as_str d "tenant_id" PNone;
  run ← field as_str d "research_run_id" PNone; decision ← field as_str d "decision_file_id" PNone;
  source ← field as_str d "source_id" PNone; snapshot ← field as_str d "snapshot_id" PNone;
  hash ← field as_str d "content_hash" PNone;
  artifact ← field as_str d "artifact_type" (PStr "DERIVED_CLAIM");
  Ok (mkEvidenceCandidate id tenant run decision claims source snapshot hash assessment provenance risk artifact).

Definition attempt_from (v : pyval) : result ResearchAttempt :=
  d ← kwargs ["attempt_id"; "provider_id"; "operation"; "status"; "occurred_at"]
             ["source_id"; "cost_units"; "reason_code"] v;
  id ← field as_str d "attempt_id" PNone; provider ← field as_str d "provider_id" PNone;
  operation ← field as_str d "operation" PNone; status ← field as_str d "status" PNone;
  occurred ← field as_str d "occurred_at" PNone; source ← field as_opt_str d "source_id" PNone;
  cost ← field as_Z d "cost_units" (PInt 1); reason ← field as_opt_str d "reason_code" PNone;
  Ok (mkAttempt id provider operation status occurred source cost reason).

Definition provider_error_from (v : pyval) : result ProviderError :=
  d ← kwargs ["provider_id"; "reason_code"; "retryable"] ["status_code"; "retry_after_seconds"] v;
  provider ← field as_str d "provider_id" PNone; reason ← field as_str d "reason_code" PNone;
  retryable ← field as_bool d "retryable" PNone; status ← field as_opt_Z d "status_code" PNone;
  after ← field as_opt_float d "retry_after_seconds" PNone;
  Ok (mkProviderError provider reason retryable status after).

Definition error_from (v : pyval) : result ResearchError :=
  reason ← replaced as_str v "reason_code";
  p ← get v "provider" PNone;
  provider ← (if truthy p then e ← provider_error_from p; Ok (Some e) else Ok None);
  source ← get v "source_id" PNone;
  source ← as_opt_str source;
  Ok (mkResearchError reason provider source).

(** An optional text of an event, read with [item.get]. *)
Definition event_text (v : pyval) (k : string) : result (option string) := x ← get v k PNone; as_opt_str x.

Definition event_from (v : pyval) : result ResearchAuditEvent :=
  source ← replaced as_str v "from_status"; source ← research_status_of source;
  target ← replaced as_str v "to_status"; target ← research_status_of target;
  reasons ← replaced as_tuple v "reason_codes";
  schema ← get v "schema_version" (PStr "research-audit-v1"); schema ← as_str schema;
  decision ← event_text v "decision"; profile ← event_text v "operating_profile";
  policy ← event_text v "policy_version"; provider ← event_text v "provider";
  connector ← event_text v "connector"; host ← event_text v "target_host";
  location ← event_text v "requested_processing_location"; evidence ← event_text v "evidence_id";
  evidence_status ← event_text v "evidence_status";
  d ← kwargs ["event_id"; "event_type"; "occurred_at"; "tenant_id"; "actor_id"; "from_status"; "to_status";
              "reason_codes"; "correlation_id"; "payload_hash"; "previous_event_hash"]
             ["schema_version"; "decision"; "operating_profile"; "policy_version"; "provider"; "connector";
              "target_host"; "requested_processing_location"; "evidence_id"; "evidence_status"] v;
  id ← field as_str d "event_id" PNone; type ← field as_str d "event_type" PNone;
  occurred ← field as_str d "occurred_at" PNone; tenant ← field as_str d "tenant_id" PNone;
  actor ← field as_str d "actor_id" PNone; correlation ← field as_str d "correlation_id" PNone;
  hash ← field as_str d "payload_hash" PNone; previous ← field as_opt_str d "previous_event_hash" PNone;
  Ok (mkResearchEvent id type occurred tenant actor source target reasons correlation hash previous schema
        decision profile policy provider connector host location evidence evidence_status).

(** [[f(item) for item in raw.get(k, [])]] *)
Definition items_from {A} (f : pyval → result A) (v : pyval) (k : string) : result (list A) :=
  x ← get v k (PList []); l ← py_iter x; mapM f l.

Definition run_from_data (raw : pyval) : result ResearchRun :=
  request_raw ← py_item raw "request";
  request ← request_from request_raw;
  sources ← items_from source_from raw "sources";
  snapshots ← items_from snapshot_from raw "snapshots";
  evidence ← items_from evidence_from raw "evidence";
  attempts ← items_from attempt_from raw "attempts";
  errors ← items_from error_from raw "errors";
  events ← items_from event_from raw "audit_events";
  id ← item_str raw "research_run_id"; tenant ← item_str raw "tenant_id"; actor ← item_str raw "actor_id";
  hash ← item_str raw "expected_document_hash"; fingerprint ← item_str raw "semantic_fingerprint";
  status ← item_str raw "status"; status ← research_status_of status;
  created ← item_str raw "created_at"; updated ← item_str raw "updated_at";
  correlation ← item_str raw "correlation_id";
  units ← get raw "provider_cost_units" (PInt 0); units ← to_int units;
  compiled ← get raw "compiled_decision_file_id" PNone; compiled ← as_opt_str compiled;
  summary ← get raw "search_summary" PNone; summary ← as_opt_str summary;
  request_id ← get raw "search_provider_request_id" PNone; request_id ← as_opt_str request_id;
  Ok (mkRun id tenant actor request hash fingerprint status created updated correlation sources snapshots
        evidence attempts errors events units compiled summary request_id).

(** What the repository writes of a run, and what it reads back ([repository.py]). *)
Definition _serialize (r : ResearchRun) : string := canonical_json (run_data r).

Definition _deserialize `{FloatText} (text : string) : result ResearchRun :=
  v ← loads text; run_from_data v.
