(* ===== verification/IntakeCodec.v ===== *)
(** * Intakes as JSON

    [intake/codec.py]: the dictionaries the parts of an intake are stored and sent as, and the
    verification report read back from one. [to_dict] passes the dataclass through
    [json.dumps] and [json.loads], which turn tuples into lists and members of enumerations into
    their values, and drops the confirming identity where there is none.

    Two fields of the dataclasses are constant in every value the program makes and are not
    fields of the model: [schema_version] is ["0.3.0"], [uncertainty] is [None]. *)

From S2P Require Import Prelude PyVal Json Sha256 PyTime AuditChain Document Identity PyDecimal Intake.
From S2P Require ResearchCodec.
From stdpp Require Import options.

Definition verification_status_value (s : VerificationStatus) : string :=
  match s with
  | UNRESOLVED => "UNRESOLVED" | VERIFIED => "VERIFIED" | HUMAN_CONFIRMED => "HUMAN_CONFIRMED"
  | REJECTED => "REJECTED"
  end.

(** ** [to_dict], by dataclass *)

Definition source_dict (s : SourceReference) : pyval :=
  PDict [("source_id", PStr (source_id s)); ("start", PInt (source_start s)); ("end", PInt (source_end s));
         ("content_hash", PStr (source_hash s))].

Definition fact_dict (c : CandidateFact) : pyval :=
  PDict ([("fact_id", PStr (fact_id c)); ("fact_type", PStr (fact_type_value (fact_type c)));
          ("raw_value", PStr (raw_value c)); ("normalized_value", opt_json (normalized_value c));
          ("source", source_dict (source c)); ("method", PStr (extraction_method c));
          ("method_version", PStr (method_version c)); ("extraction_confidence", extraction_confidence c);
          ("verification_status", PStr (verification_status_value (verification_status c)));
          ("unit", opt_json (unit_of c)); ("currency", opt_json (currency c));
          ("conflict_refs", strs_json (conflict_refs c));
          ("confirmation_required", PBool (confirmation_required c))] ++
         opt_field "confirmed_by_actor_id" (confirmed_by_actor_id c) ++
         opt_field "confirmed_by_role" (confirmed_by_role c)).

Definition conflict_dict (c : IntakeConflict) : pyval :=
  PDict [("conflict_id", PStr (intake_conflict_id c)); ("fact_type", PStr (fact_type_value (conflict_type c)));
         ("fact_refs", strs_json (fact_refs c)); ("reason_code", PStr (conflict_reason c))].

Definition requirement_dict (r : VerificationRequirement) : pyval :=
  PDict [("requirement_id", PStr (vr_id r)); ("fact_type", PStr (fact_type_value (vr_type r)));
         ("reason_code", PStr (vr_reason r)); ("mandatory", PBool (vr_mandatory r))].

Definition extraction_dict (e : ExtractionReport) : pyval :=
  PDict [("schema_version", PStr "0.3.0"); ("intake_id", PStr (ex_intake e)); ("method", PStr (ex_method e));
         ("method_version", PStr (ex_version e)); ("locale", PStr (ex_locale e));
         ("candidates", PList (map fact_dict (ex_candidates e)));
         ("conflicts", PList (map conflict_dict (ex_conflicts e)));
         ("requirements", PList (map requirement_dict (ex_requirements e)))].

Definition finding_dict (f : DerivedFinding) : pyval :=
  PDict [("finding_id", PStr (finding_id f)); ("rule_id", PStr (rule_id f));
         ("fact_refs", strs_json (finding_refs f)); ("policy_ref", opt_json (policy_ref f));
         ("calculation", PStr (calculation f)); ("result_code", PStr (result_code f)); ("uncertainty", PNone)].

Definition confirmation_dict (c : HumanConfirmation) : pyval :=
  PDict [("confirmation_id", PStr (confirmation_id c)); ("fact_id", PStr (confirmed_fact c));
         ("action", PStr (action c)); ("actor_id", PStr (confirming_actor c));
         ("old_value", opt_json (old_value c)); ("new_value", opt_json (new_value c));
         ("reason", PStr (confirmation_reason c)); ("occurred_at", PStr (confirmed_at c))].

Definition verification_dict (r : VerificationReport) : pyval :=
  PDict [("schema_version", PStr "0.3.0"); ("intake_id", PStr (report_intake r));
         ("candidates", PList (map fact_dict (candidates r)));
         ("findings", PList (map finding_dict (report_findings r)));
         ("unresolved_requirement_refs", strs_json (unresolved_requirement_refs r));
         ("ready", PBool (ready r)); ("reason_codes", strs_json (report_reasons r))].

(** ** [verification_from_dict] *)

(** [FactType(value)] and [VerificationStatus(value)] *)
Definition fact_types : list FactType :=
  [AMOUNT; DISCOUNT_PERCENT; DISCOUNT_LIMIT_PERCENT; MARGIN_PERCENT; MIN_MARGIN_PERCENT;
   PAYMENT_TERM_DAYS; DURATION_MONTHS; DATE; EVIDENCE_DATE; POLICY_CLAIM; EXCEPTION_CLAIM;
   APPROVAL_CLAIM; SELF_APPROVAL_CLAIM; ROLE_CLAIM; UNTRUSTED_INSTRUCTION].
Definition fact_type_of (v : pyval) : result FactType :=
  or_raise (List.find (λ t, py_eq v (PStr (fact_type_value t))) fact_types) ValueError "FactType".
Definition verification_status_of (v : pyval) : result VerificationStatus :=
  or_raise (List.find (λ s, py_eq v (PStr (verification_status_value s)))
              [UNRESOLVED; VERIFIED; HUMAN_CONFIRMED; REJECTED]) ValueError "VerificationStatus".

(** [item[k]] and [item.get(k, d)] read at the type of the field *)
Definition item {A} (read : pyval → result A) (v : pyval) (k : string) : result A :=
  x ← py_item v k; read x.
Definition item_or {A} (read : pyval → result A) (v : pyval) (k : string) (d : pyval) : result A :=
  x ← py_get v k d; read x.

(** [SourceReference( **item["source"])] *)
Definition source_from_dict (v : pyval) : result SourceReference :=
  d ← ResearchCodec.kwargs ["source_id"; "start"; "end"; "content_hash"] [] v;
  id ← ResearchCodec.field ResearchCodec.as_str d "source_id" PNone;
  first ← ResearchCodec.field ResearchCodec.as_Z d "start" PNone;
  last ← ResearchCodec.field ResearchCodec.as_Z d "end" PNone;
  hash ← ResearchCodec.field ResearchCodec.as_str d "content_hash" PNone;
  Ok (mkSource id first last hash).

Definition fact_from_dict (v : pyval) : result CandidateFact :=
  id ← item ResearchCodec.as_str v "fact_id";
  type ← item fact_type_of v "fact_type";
  raw ← item ResearchCodec.as_str v "raw_value";
  normalized ← item_or ResearchCodec.as_opt_str v "normalized_value" PNone;
  source ← item source_from_dict v "source";
  method ← item ResearchCodec.as_str v "method";
  version ← item ResearchCodec.as_str v "method_version";
  confidence ← py_item v "extraction_confidence";
  status ← item verification_status_of v "verification_status";
  unit ← item_or ResearchCodec.as_opt_str v "unit" PNone;
  currency ← item_or ResearchCodec.as_opt_str v "currency" PNone;
  refs ← item_or ResearchCodec.as_tuple v "conflict_refs" (PList []);
  required ← item_or ResearchCodec.as_bool v "confirmation_required" (PBool true);
  actor ← item_or ResearchCodec.as_opt_str v "confirmed_by_actor_id" PNone;
  role ← item_or ResearchCodec.as_opt_str v "confirmed_by_role" PNone;
  Ok (mkFact id type raw normalized source method version confidence status unit currency refs required actor role).

(** The model has no other uncertainty than [None]. *)
Definition as_none (v : pyval) : result unit := if is_none v then Ok tt else ResearchCodec.untyped.

Definition finding_from_dict (v : pyval) : result DerivedFinding :=
  id ← item ResearchCodec.as_str v "finding_id";
  rule ← item ResearchCodec.as_str v "rule_id";
  refs ← item ResearchCodec.as_tuple v "fact_refs";
  policy ← item_or ResearchCodec.as_opt_str v "policy_ref" PNone;
  calculation ← item ResearchCodec.as_str v "calculation";
  code ← item ResearchCodec.as_str v "result_code";
  _ ← item_or as_none v "uncertainty" PNone;
  Ok (mkDerived id rule refs policy calculation code).

Definition verification_from_dict (v : pyval) : result VerificationReport :=
  facts ← (l ← item py_iter v "candidates"; mapM fact_from_dict l);
  findings ← (l ← item py_iter v "findings"; mapM finding_from_dict l);
  _ ← item ResearchCodec.as_str v "schema_version";
  intake ← item ResearchCodec.as_str v "intake_id";
  refs ← item ResearchCodec.as_tuple v "unresolved_requirement_refs";
  is_ready ← item ResearchCodec.as_bool v "ready";
  reasons ← item ResearchCodec.as_tuple v "reason_codes";
  Ok (mkReport intake facts findings refs is_ready reasons).

(** ** Reading back *)

Lemma as_tuple_strs l : ResearchCodec.as_tuple (strs_json l) = Ok l.
Proof.
  unfold ResearchCodec.as_tuple, strs_json. cbn. apply mapM_map, Forall_forall. done.
Qed.

Lemma as_opt_str_opt o : ResearchCodec.as_opt_str (opt_json o) = Ok o.
Proof. by destruct o. Qed.

Lemma fact_type_of_value t : fact_type_of (PStr (fact_type_value t)) = Ok t.
Proof. by destruct t. Qed.

Lemma verification_status_of_value s : verification_status_of (PStr (verification_status_value s)) = Ok s.
Proof. by destruct s. Qed.

Lemma source_from_source s : source_from_dict (source_dict s) = Ok s.
Proof. by destruct s. Qed.

Lemma fact_from_fact c : fact_from_dict (fact_dict c) = Ok c.
Proof.
  destruct c as [id t raw norm src method version conf status unit cur refs required actor role].
  unfold fact_from_dict, fact_dict, item, item_or, py_item, py_get, opt_field.
  destruct actor, role; cbn -[ResearchCodec.as_tuple fact_type_of verification_status_of source_from_dict strs_json
    fact_type_value verification_status_value source_dict opt_json ResearchCodec.as_opt_str ResearchCodec.as_bool];
    rewrite fact_type_of_value; cbn -[ResearchCodec.as_tuple verification_status_of source_from_dict strs_json
    verification_status_value source_dict opt_json ResearchCodec.as_opt_str];
    rewrite !as_opt_str_opt, source_from_source, verification_status_of_value; cbn -[ResearchCodec.as_tuple strs_json];
    rewrite as_tuple_strs; done.
Qed.

Lemma finding_from_finding f : finding_from_dict (finding_dict f) = Ok f.
Proof.
  destruct f. unfold finding_from_dict, finding_dict, item, item_or, py_item, py_get.
  cbn -[ResearchCodec.as_tuple strs_json opt_json ResearchCodec.as_opt_str].
  rewrite as_tuple_strs. cbn -[ResearchCodec.as_opt_str opt_json]. by rewrite as_opt_str_opt.
Qed.

Lemma verification_from_verification r : verification_from_dict (verification_dict r) = Ok r.
Proof.
  destruct r. unfold verification_from_dict, verification_dict, item, py_item.
  cbn -[ResearchCodec.as_tuple strs_json mapM fact_from_dict finding_from_dict].
  rewrite (mapM_map fact_from_dict fact_dict) by (apply Forall_forall; intros ? _; apply fact_from_fact).
  cbn -[ResearchCodec.as_tuple strs_json mapM finding_from_dict].
  rewrite (mapM_map finding_from_dict finding_dict) by (apply Forall_forall; intros ? _; apply finding_from_finding).
  cbn -[ResearchCodec.as_tuple strs_json]. by rewrite !as_tuple_strs.
Qed.
