(* ===== verification/IntakeStore.v ===== *)
(** * The intake API and its store

    [intake/repository.py] and [api/routes/intakes.py]: the tables of the intakes and the requests
    that read and change them. As in [DecisionStore], a record in the store is the text
    [json.dumps] writes and [json.loads] reads back; the model keeps the record, and
    [IntakeCodec.verification_from_verification] is what the routes rely on when they read its
    verification report. The decisions the intakes are compiled to are those of [DecisionStore]. *)

From S2P Require Import Prelude PyVal Json Sha256 PyTime AuditChain Document Identity PyDecimal SecurityEvents DecisionStore Intake IntakeCodec.
From stdpp Require Import options.

(** ** The tables *)

(** An event of the trail of an intake, as [intake_audit_event] builds it. *)
Notation intake_event := (list (string * pyval)).

Record IntakeRecord := mkIntake {
  ir_id : string; ir_status : IntakeStatus; ir_raw : string; ir_raw_hash : string; ir_locale : string;
  ir_created : string; ir_updated : string; contract_ready : bool; ir_extraction : ExtractionReport;
  ir_verification : VerificationReport; ir_confirmations : list HumanConfirmation;
  ir_findings : list DerivedFinding; ir_events : list intake_event; compiled_decision_id : option string
}.

Definition record_json (r : IntakeRecord) : pyval :=
  PDict [("schema_version", PStr "0.3.0"); ("intake_id", PStr (ir_id r));
         ("status", PStr (intake_status_value (ir_status r))); ("raw_input", PStr (ir_raw r));
         ("raw_input_hash", PStr (ir_raw_hash r)); ("locale", PStr (ir_locale r));
         ("created_at", PStr (ir_created r)); ("updated_at", PStr (ir_updated r));
         ("contract_ready", PBool (contract_ready r)); ("extraction", extraction_dict (ir_extraction r));
         ("verification", verification_dict (ir_verification r));
         ("confirmations", PList (map confirmation_dict (ir_confirmations r)));
         ("findings", PList (map finding_dict (ir_findings r)));
         ("audit_events", PList (map PDict (ir_events r)));
         ("compiled_decision_id", opt_json (compiled_decision_id r))].

Record IntakeTables := mkIntakeTables {
  intake_records : gmap row_key IntakeRecord;
  intake_facts : gmap (row_key * string) CandidateFact;
  intake_confirmations : gmap (row_key * string) HumanConfirmation;
  intake_audit_events : list (row_key * (nat * intake_event));
  intake_idempotency : gmap operation_key (string * pyval)
}.
Definition empty_intakes : IntakeTables := mkIntakeTables ∅ ∅ ∅ [] ∅.

(** [IntakeIdempotencyWrite] *)
Record IntakeWrite := mkIntakeWrite {
  iw_actor : string; iw_operation : string; iw_key : string; iw_hash : string; iw_response : pyval
}.
Definition intake_write_key (tenant : string) (w : IntakeWrite) : operation_key :=
  (tenant, iw_actor w, iw_operation w, iw_key w).

(** ** [SqliteIntakeRepository] *)

Definition put_record (k : row_key) (r : IntakeRecord) (t : IntakeTables) : IntakeTables :=
  mkIntakeTables (<[k := r]> (intake_records t)) (intake_facts t) (intake_confirmations t)
    (intake_audit_events t) (intake_idempotency t).

Definition put_fact (k : row_key) (c : CandidateFact) (t : IntakeTables) : IntakeTables :=
  mkIntakeTables (intake_records t) (<[(k, fact_id c) := c]> (intake_facts t)) (intake_confirmations t)
    (intake_audit_events t) (intake_idempotency t).

(** [ON CONFLICT DO NOTHING]; the row refers to a fact of the intake. *)
Definition insert_confirmation (k : row_key) (c : HumanConfirmation) (t : IntakeTables) : result IntakeTables :=
  match intake_confirmations t !! (k, confirmation_id c) with
  | Some _ => Ok t
  | None =>
      _ ← require (bool_decide (is_Some (intake_facts t !! (k, confirmed_fact c)))) IntegrityError "FOREIGN KEY";
      Ok (mkIntakeTables (intake_records t) (intake_facts t)
            (<[(k, confirmation_id c) := c]> (intake_confirmations t)) (intake_audit_events t) (intake_idempotency t))
  end.

(** The events of an intake with their numbers, in the order they were inserted. *)
Definition rows_of_intake (k : row_key) (t : IntakeTables) : list (nat * intake_event) :=
  snd <$> filter (λ row, row.1 = k) (intake_audit_events t).

(** [COALESCE(MAX(sequence), 0)] *)
Definition current_sequence (k : row_key) (t : IntakeTables) : nat :=
  foldr (λ row n, Nat.max row.1 n) 0 (rows_of_intake k t).

Definition same_event_id (e : intake_event) (row : nat * intake_event) : bool :=
  bool_decide (assoc "event_id" row.2 = assoc "event_id" e).

(** [ON CONFLICT DO NOTHING]; the number is above every number in use. *)
Definition insert_event (k : row_key) (n : nat) (e : intake_event) (t : IntakeTables) : IntakeTables :=
  if existsb (same_event_id e) (rows_of_intake k t) then t
  else mkIntakeTables (intake_records t) (intake_facts t) (intake_confirmations t)
         (intake_audit_events t ++ [(k, (n, e))]) (intake_idempotency t).

(** [store_idempotency] *)
Definition store_idempotency (tenant : string) (w : IntakeWrite) (t : IntakeTables) : result IntakeTables :=
  _ ← require (bool_decide (intake_idempotency t !! intake_write_key tenant w = None)) IntegrityError "intake_idempotency";
  Ok (mkIntakeTables (intake_records t) (intake_facts t) (intake_confirmations t) (intake_audit_events t)
        (<[intake_write_key tenant w := (iw_hash w, iw_response w)]> (intake_idempotency t))).

(** [save_operation], one transaction *)
Definition save_operation (tenant intake_id : string) (record : IntakeRecord) (facts : list CandidateFact)
    (confirmation : option HumanConfirmation) (events : list intake_event) (w : IntakeWrite) (t : IntakeTables) :
    result IntakeTables :=
  let k := (tenant, intake_id) in
  _ ← require (ir_id record =? intake_id) ValueError "INTAKE_ID_MISMATCH";
  let t := put_record k record t in
  let t := foldl (λ t c, put_fact k c t) t facts in
  t ← match confirmation with Some c => insert_confirmation k c t | None => Ok t end;
  let current := current_sequence k t in
  let t := foldl (λ t x, insert_event k (current + x.1) x.2 t) t (enumerate 1 events) in
  store_idempotency tenant w t.

Definition get_intake_idempotency (tenant actor operation key hash : string) (t : IntakeTables) : result (option pyval) :=
  match intake_idempotency t !! (tenant, actor, operation, key) with
  | None => Ok None
  | Some (h, response) =>
      _ ← require (h =? hash) IntakeIdempotencyConflict "IDEMPOTENCY_KEY_REUSED"; Ok (Some response)
  end.

(** [list_audit]: [ORDER BY sequence] *)
Definition list_intake_audit (k : row_key) (t : IntakeTables) : list intake_event :=
  snd <$> py_sorted (λ x y : nat * intake_event, (x.1 <=? y.1)%nat) (rows_of_intake k t).

(** ** The application *)

Record IntakeApp := mkIntakeApp { decision_api : App; intakes : IntakeTables }.

Definition on_decisions {A} (m : stateful App A) : stateful IntakeApp A :=
  zoom decision_api (λ d a, mkIntakeApp d (intakes a)) m.

(** A transaction on the tables of the intakes. *)
Definition on_intakes (f : IntakeTables → result IntakeTables) : stateful IntakeApp unit :=
  zoom intakes (λ t a, mkIntakeApp (decision_api a) t) (transaction (λ t, t ← f t; Ok (tt, t))).

(** [DecisionRepository.create_decision] without an idempotency record *)
Definition insert_decision (tenant : string) (document : Document) (events : list AuditEvent) (db : Database) :
    result Database :=
  let k := (tenant, decision_id document) in
  _ ← require (bool_decide (decisions db !! k = None)) IntegrityError "decisions";
  insert_events k events (set_decision k document db).

(** ** [api/routes/intakes.py] *)

Record IntakeRequestBody := mkIntakeBody { body_intake : string; body_raw_input : string; body_locale : string }.
Record IntakeConfirmationBody := mkConfirmationBody {
  body_fact : string; body_action : string; body_new_value : option string; body_reason : string
}.

(** [body.model_dump()] *)
Definition intake_body_json (b : IntakeRequestBody) : pyval :=
  PDict [("schema_version", PStr "0.3.0"); ("intake_id", PStr (body_intake b));
         ("raw_input", PStr (body_raw_input b)); ("locale", PStr (body_locale b))].
Definition confirmation_body_json (b : IntakeConfirmationBody) : pyval :=
  PDict [("fact_id", PStr (body_fact b)); ("action", PStr (body_action b));
         ("new_value", opt_json (body_new_value b)); ("reason", PStr (body_reason b))].

(** [Extractor.extract(raw_input, locale=..., intake_id=...)], the protocol of [intake/extractor.py] *)
Class Extractor := extract : string → string → string → result ExtractionReport.

(** What the application gives the routes besides its tables: the trusted policies and today's date. *)
Record Policies := mkPolicies { get_active : string → option PolicyContext; reference_date : Z * Z * Z }.

Section routes.
Context `{HashAlg} `{CaseMapping} `{Extractor}.

Definition create_operation (b : IntakeRequestBody) : string := "intake:create:" +:+ body_intake b.
Definition confirm_operation (id : string) (b : IntakeConfirmationBody) : string :=
  "intake:confirm:" +:+ id +:+ ":" +:+ body_fact b.
Definition compile_operation (id : string) : string := "intake:compile:" +:+ id.

(** [get_idempotency] of the route, whose conflict is an answer. *)
Definition find_replay (identity : Identity) (operation key digest : string) : stateful IntakeApp (option pyval) := λ a,
  match get_intake_idempotency (tenant_name identity) (identity_actor identity) operation key digest (intakes a) with
  | Ok replay => (Ok replay, a)
  | Raise _ => (conflict ["IDEMPOTENCY_KEY_REUSED"], a)
  end.

(** [_begin] *)
Definition _begin (identity : Identity) (operation : string) (key : option string) (payload : pyval) :
    stateful IntakeApp (string * string * option pyval) :=
  key ← lift (require_idempotency_key key);
  replay ← find_replay identity operation key (payload_hash payload);
  mret (key, payload_hash payload, replay).

(** [_finish] *)
Definition _finish (identity : Identity) (operation key digest : string) (response : pyval) : stateful IntakeApp unit :=
  on_intakes (store_idempotency (tenant_name identity)
    (mkIntakeWrite (identity_actor identity) operation key digest response)).

(** [_intakes(request).get(identity.tenant, intake_id)] *)
Definition find_intake (identity : Identity) (id : string) : stateful IntakeApp (option IntakeRecord) :=
  gets (λ a, intake_records (intakes a) !! (tenant_name identity, id)).

Definition readiness (is_ready : bool) : IntakeStatus := if is_ready then READY else NEEDS_CONFIRMATION.

(** The two events of a new intake. *)
Definition extracted_event (i : Identity) (b : IntakeRequestBody) (at_ : string) (e : ExtractionReport) : intake_event :=
  intake_audit_event (body_intake b) 1 "intake.extracted" at_ (identity_actor i) RECEIVED EXTRACTED
    ["RAW_INPUT_EXTRACTED"] (extraction_dict e) None.
Definition status_event (i : Identity) (b : IntakeRequestBody) (at_ : string) (e : ExtractionReport)
    (v : VerificationReport) : intake_event :=
  intake_audit_event (body_intake b) 2 "intake.readiness-determined" at_ (identity_actor i) EXTRACTED
    (readiness (ready v)) (if bool_decide (report_reasons v = []) then ["INTAKE_READY"] else report_reasons v)
    (verification_dict v) (Some (extracted_event i b at_ e)).

(** The record of a new intake. *)
Definition new_record (i : Identity) (b : IntakeRequestBody) (at_ : string) (e : ExtractionReport)
    (v : VerificationReport) : IntakeRecord :=
  mkIntake (body_intake b) (readiness (ready v)) (body_raw_input b) (payload_hash (PStr (body_raw_input b)))
    (body_locale b) at_ at_ (ready v) e v [] (report_findings v)
    [extracted_event i b at_ e; status_event i b at_ e v] None.

(** What [create_intake] does once it is no replay. *)
Definition create_fresh (q : Request) (p : Policies) (i : Identity) (b : IntakeRequestBody) (key digest : string) :
    stateful IntakeApp pyval :=
  existing ← find_intake i (body_intake b);
  match existing with
  | Some r =>
      _ ← lift (if ir_raw r =? body_raw_input b then Ok tt else conflict ["INTAKE_ALREADY_EXISTS"]);
      _ ← _finish i (create_operation b) key digest (record_json r);
      mret (record_json r)
  | None =>
      e ← lift (extract (body_raw_input b) (body_locale b) (body_intake b));
      v ← lift (verify (get_active p) (reference_date p) (tenant_name i) e);
      let at_ := isoformat (clock q 0) in
      _ ← lift (next_status RECEIVED EXTRACTED false);
      _ ← lift (next_status EXTRACTED (readiness (ready v)) (ready v));
      let r := new_record i b at_ e v in
      _ ← on_intakes (save_operation (tenant_name i) (body_intake b) r (candidates v) None (ir_events r)
            (mkIntakeWrite (identity_actor i) (create_operation b) key digest (record_json r)));
      mret (record_json r)
  end.

(** [POST /v1/intakes] *)
Definition create_intake (q : Request) (p : Policies) (i : Identity) (key : option string) (b : IntakeRequestBody) :
    stateful IntakeApp pyval :=
  _ ← on_decisions (require_permission q i INTAKE_CREATE);
  '(key, digest, replay) ← _begin i (create_operation b) key (intake_body_json b);
  match replay with Some r => mret r | None => create_fresh q p i b key digest end.

(** [GET /v1/intakes/{intake_id}] *)
Definition get_intake (q : Request) (i : Identity) (id : string) : stateful IntakeApp pyval :=
  _ ← on_decisions (require_permission q i INTAKE_READ);
  record ← find_intake i id;
  match record with Some r => mret (record_json r) | None => lift not_found end.

(** [except ... as error: raise ApiError(409, "CONFLICT", {"reason_code": str(error)})] *)
Definition as_conflict {A} (c : exn_class) (m : result A) : result A :=
  match m with
  | Raise e => if bool_decide (exn_cls e = c) then conflict (exn_args e) else Raise e
  | r => r
  end.

(** The confirmed report: the human's decision, then every derived result again. *)
Definition confirmed_report (p : Policies) (i : Identity) (r : IntakeRecord) (b : IntakeConfirmationBody) (at_ : string) :
    result (VerificationReport * HumanConfirmation) :=
  report ← verification_from_dict (verification_dict (ir_verification r));
  '(updated, confirmation) ← confirm_fact report (body_fact b) (body_action b) (body_new_value b) (body_reason b) at_ i;
  updated ← reverify (get_active p) (reference_date p) (tenant_name i) updated;
  Ok (updated, confirmation).

Definition confirmation_event (i : Identity) (id : string) (r : IntakeRecord) (b : IntakeConfirmationBody)
    (v : VerificationReport) (c : HumanConfirmation) : intake_event :=
  intake_audit_event id (S (length (ir_events r))) ("intake.fact-" +:+ lower_ascii (body_action b)) (confirmed_at c)
    (identity_actor i) (ir_status r) (readiness (ready v)) ["FACT_HUMAN_CONFIRMED"] (confirmation_dict c)
    (last (ir_events r)).

(** The record with the confirmation. *)
Definition confirmed_record (r : IntakeRecord) (v : VerificationReport) (c : HumanConfirmation) (e : intake_event) :
    IntakeRecord :=
  mkIntake (ir_id r) (readiness (ready v)) (ir_raw r) (ir_raw_hash r) (ir_locale r) (ir_created r) (confirmed_at c)
    (ready v) (ir_extraction r) v
    (if existsb (λ x, confirmation_id x =? confirmation_id c) (ir_confirmations r) then ir_confirmations r
     else ir_confirmations r ++ [c])
    (report_findings v) (ir_events r ++ [e]) (compiled_decision_id r).

Definition confirm_fresh (q : Request) (p : Policies) (i : Identity) (id : string) (b : IntakeConfirmationBody)
    (key digest : string) : stateful IntakeApp pyval :=
  existing ← find_intake i id;
  match existing with
  | None => lift not_found
  | Some r =>
      '(v, c) ← lift (as_conflict ConfirmationRejected (confirmed_report p i r b (isoformat (clock q 0))));
      let target := readiness (ready v) in
      _ ← lift (if bool_decide (target = ir_status r) then Ok target
                else as_conflict IntakeTransitionRejected (next_status (ir_status r) target (ready v)));
      let e := confirmation_event i id r b v c in
      let r := confirmed_record r v c e in
      _ ← on_intakes (save_operation (tenant_name i) id r (candidates v) (Some c) [e]
            (mkIntakeWrite (identity_actor i) (confirm_operation id b) key digest (record_json r)));
      mret (record_json r)
  end.

(** [POST /v1/intakes/{intake_id}/confirmations] *)
Definition add_confirmation (q : Request) (p : Policies) (i : Identity) (key : option string) (id : string)
    (b : IntakeConfirmationBody) : stateful IntakeApp pyval :=
  _ ← on_decisions (require_permission q i INTAKE_CONFIRM);
  '(key, digest, replay) ← _begin i (confirm_operation id b) key (confirmation_body_json b);
  match replay with Some r => mret r | None => confirm_fresh q p i id b key digest end.

(** [_decisions(request).get_decision(identity.tenant, decision_id)] *)
Definition stored_decision (i : Identity) (id : string) : stateful IntakeApp (option Document) :=
  gets (λ a, decisions (database (decision_api a)) !! (tenant_name i, id)).

(** The decision the record is linked to, where it is still stored. *)
Definition linked_decision (i : Identity) (r : IntakeRecord) : stateful IntakeApp (option Document) :=
  match truthy_text (compiled_decision_id r) with
  | Some d => stored_decision i d
  | None => mret None
  end.

(** The compilation of the record's report, when the record is READY. *)
Definition compiled_decision (q : Request) (policy : PolicyContext) (r : IntakeRecord) : result Document :=
  _ ← require (bool_decide (ir_status r = READY)) CompilationRejected "NEEDS_CONFIRMATION";
  _ ← next_status (ir_status r) COMPILED true;
  report ← verification_from_dict (verification_dict (ir_verification r));
  compile (clock q 0) report policy "system:intake-compiler" (ir_status r).

Definition intake_compiled_event (i : Identity) (id : string) (r : IntakeRecord) (d : Document) : intake_event :=
  intake_audit_event id (S (length (ir_events r))) "intake.compiled" (created_at d) (identity_actor i) READY COMPILED
    ["VERIFIED_INTAKE_COMPILED"] (PDict [("decision_id", PStr (decision_id d))]) (last (ir_events r)).

Definition compiled_record (r : IntakeRecord) (d : Document) (e : intake_event) : IntakeRecord :=
  mkIntake (ir_id r) COMPILED (ir_raw r) (ir_raw_hash r) (ir_locale r) (ir_created r) (created_at d)
    (contract_ready r) (ir_extraction r) (ir_verification r) (ir_confirmations r) (ir_findings r)
    (ir_events r ++ [e]) (Some (decision_id d)).

(** The compilation of a record that is linked to no stored decision. *)
Definition compile_record (q : Request) (policy : PolicyContext) (i : Identity) (id : string) (r : IntakeRecord)
    (key digest : string) : stateful IntakeApp pyval :=
  d ← lift (as_conflict CompilationRejected (compiled_decision q policy r));
  existing ← stored_decision i (decision_id d);
  d ← match existing with
      | None => _ ← on_decisions (transact (insert_decision (tenant_name i) d (audit_events d))); mret d
      | Some d' => mret d'
      end;
  let e := intake_compiled_event i id r d in
  _ ← on_intakes (save_operation (tenant_name i) id (compiled_record r d e) [] None [e]
        (mkIntakeWrite (identity_actor i) (compile_operation id) key digest (document_json d)));
  mret (document_json d).

Definition compile_fresh (q : Request) (p : Policies) (i : Identity) (id : string) (key digest : string) :
    stateful IntakeApp pyval :=
  existing ← find_intake i id;
  match existing with
  | None => lift not_found
  | Some r =>
      policy ← lift (match get_active p (tenant_name i) with
                     | Some policy => Ok policy
                     | None => conflict ["TRUSTED_POLICY_UNAVAILABLE"]
                     end);
      linked ← linked_decision i r;
      match linked with
      | Some d =>
          _ ← _finish i (compile_operation id) key digest (document_json d);
          mret (document_json d)
      | None => compile_record q policy i id r key digest
      end
  end.

(** [POST /v1/intakes/{intake_id}/compile] *)
Definition compile_intake (q : Request) (p : Policies) (i : Identity) (key : option string) (id : string) :
    stateful IntakeApp pyval :=
  _ ← on_decisions (require_permission q i INTAKE_COMPILE);
  '(key, digest, replay) ← _begin i (compile_operation id) key (PDict []);
  match replay with Some r => mret r | None => compile_fresh q p i id key digest end.

(** [GET /v1/intakes/{intake_id}/audit] *)
Definition get_intake_audit (q : Request) (i : Identity) (id : string) : stateful IntakeApp pyval :=
  _ ← on_decisions (require_permission q i AUDIT_READ);
  record ← find_intake i id;
  match record with
  | None => lift not_found
  | Some _ => items ← gets (λ a, list_intake_audit (tenant_name i, id) (intakes a));
              mret (PDict [("items", PList (map PDict items))])
  end.

(** *** A request that changes the store *)

Inductive IntakeCommand :=
  | CreateIntake (b : IntakeRequestBody)
  | AddConfirmation (id : string) (b : IntakeConfirmationBody)
  | CompileIntake (id : string).

Definition command_permission (c : IntakeCommand) : Permission :=
  match c with CreateIntake _ => INTAKE_CREATE | AddConfirmation _ _ => INTAKE_CONFIRM | CompileIntake _ => INTAKE_COMPILE end.
Definition command_operation (c : IntakeCommand) : string :=
  match c with
  | CreateIntake b => create_operation b
  | AddConfirmation id b => confirm_operation id b
  | CompileIntake id => compile_operation id
  end.
Definition command_payload (c : IntakeCommand) : pyval :=
  match c with
  | CreateIntake b => intake_body_json b
  | AddConfirmation _ b => confirmation_body_json b
  | CompileIntake _ => PDict []
  end.
Definition run_fresh (q : Request) (p : Policies) (i : Identity) (c : IntakeCommand) (key digest : string) :
    stateful IntakeApp pyval :=
  match c with
  | CreateIntake b => create_fresh q p i b key digest
  | AddConfirmation id b => confirm_fresh q p i id b key digest
  | CompileIntake id => compile_fresh q p i id key digest
  end.
Definition run_intake (q : Request) (p : Policies) (i : Identity) (key : option string) (c : IntakeCommand) :
    stateful IntakeApp pyval :=
  match c with
  | CreateIntake b => create_intake q p i key b
  | AddConfirmation id b => add_confirmation q p i key id b
  | CompileIntake id => compile_intake q p i key id
  end.
End routes.
