(* ===== verification/IntakeStoreProps.v ===== *)
(** * What the intake API keeps

    Theorems over [IntakeStore]: requests take effect exactly once, the record of an intake, its
    trail and its rows of the audit table agree in every reachable store, and a decision is
    compiled from a ready intake only. *)

From S2P Require Import Prelude PyVal Json Sha256 PyTime AuditChain Document DecisionFile Identity PyDecimal Samples SecurityEvents DecisionStore DecisionStoreProps Intake IntakeProps IntakeCodec IntakeStore.
From stdpp Require Import options.
#[local] Set Default Proof Using "Type*".

(** ** Pieces *)

(** The tables of both stores. *)
Definition store (a : IntakeApp) : IntakeTables * Database := (intakes a, database (decision_api a)).

Lemma on_decisions_Ok {A} (m : stateful App A) a x a' :
  on_decisions m a = (Ok x, a') ↔
  ∃ d, m (decision_api a) = (Ok x, d) ∧ a' = mkIntakeApp d (intakes a).
Proof. unfold on_decisions, zoom. destruct (m (decision_api a)) as [r d]. naive_solver. Qed.

Lemma on_intakes_run f a :
  on_intakes f a = match f (intakes a) with
                   | Ok t => (Ok tt, mkIntakeApp (decision_api a) t)
                   | Raise e => (Raise e, a)
                   end.
Proof. unfold on_intakes, zoom, transaction. destruct (f (intakes a)) as [t|e]; cbn; [done|]. by destruct a. Qed.

Lemma on_intakes_Ok f a u a' :
  on_intakes f a = (Ok u, a') ↔ ∃ t, f (intakes a) = Ok t ∧ a' = mkIntakeApp (decision_api a) t.
Proof. rewrite on_intakes_run. destruct (f (intakes a)); destruct u; naive_solver. Qed.

(** A computation that keeps the tables of both stores. *)
Definition quiet_intake {A} (m : stateful IntakeApp A) : Prop := ∀ a, store (m a).2 = store a.

Lemma permission_quiet q i perm : quiet_intake (on_decisions (require_permission q i perm)).
Proof.
  intros a. pose proof (require_permission_quiet q i perm (decision_api a)) as Hq.
  unfold on_decisions, zoom. destruct (require_permission q i perm (decision_api a)) as [r d]. unfold store. cbn in *.
  by rewrite Hq.
Qed.

Section api.
Context `{HashAlg} `{CaseMapping} `{Extractor}.

Lemma run_intake_shape q p i key c :
  run_intake q p i key c =
    (_ ← on_decisions (require_permission q i (command_permission c));
     '(key, digest, replay) ← _begin i (command_operation c) key (command_payload c);
     match replay with Some r => mret r | None => run_fresh q p i c key digest end).
Proof. by destruct c. Qed.

Definition intake_key (i : Identity) (key : string) (c : IntakeCommand) : operation_key :=
  (tenant_name i, identity_actor i, command_operation c, key).
Definition intake_hash (c : IntakeCommand) : string := payload_hash (command_payload c).

Lemma begin_Ok i c key a k digest replay a' :
  _begin i (command_operation c) key (command_payload c) a = (Ok (k, digest, replay), a') →
  a' = a ∧ key = Some k ∧ digest = intake_hash c ∧
  match replay with
  | Some r => intake_idempotency (intakes a) !! intake_key i k c = Some (intake_hash c, r)
  | None => intake_idempotency (intakes a) !! intake_key i k c = None
  end.
Proof.
  unfold _begin. intros E. apply stateful_bind_Ok in E as (k' & a1 & Hk & E).
  unfold lift in Hk. injection Hk as Hk%require_key_Ok <-.
  apply stateful_bind_Ok in E as (replay' & a1 & Hr & E). injection E as -> <- -> ->.
  unfold find_replay, get_intake_idempotency in Hr. unfold intake_key, intake_hash.
  destruct (intake_idempotency (intakes a) !! _) as [[h r]|] eqn:El.
  - destruct (h =? payload_hash (command_payload c)) eqn:Eh; cbn in Hr; [|done].
    injection Hr as <- <-. apply String.eqb_eq in Eh as ->. done.
  - by injection Hr as <- <-.
Qed.

(** A successful request: the replay of a kept answer, or a first run. *)
Lemma run_intake_Ok q p i key c a r a' :
  run_intake q p i key c a = (Ok r, a') →
  permits i (command_permission c) = true ∧ ∃ k, key = Some k ∧
  ((intake_idempotency (intakes a) !! intake_key i k c = Some (intake_hash c, r) ∧ store a' = store a) ∨
   (intake_idempotency (intakes a) !! intake_key i k c = None ∧
    ∃ a1, store a1 = store a ∧ run_fresh q p i c k (intake_hash c) a1 = (Ok r, a'))).
Proof.
  rewrite run_intake_shape. intros E. apply stateful_bind_Ok in E as (u & a1 & Hp & E).
  pose proof (permission_quiet q i (command_permission c) a) as Hq. rewrite Hp in Hq. cbn in Hq.
  apply on_decisions_Ok in Hp as (d & Hp%require_permission_Ok & ->). split; [tauto|].
  apply stateful_bind_Ok in E as ([[k digest] replay] & a2 & Hb & E).
  apply begin_Ok in Hb as (-> & -> & -> & Hr). exists k. split; [done|]. cbn [intakes] in Hr.
  destruct replay as [r'|].
  - injection E as -> <-. by left.
  - right. split; [done|]. by eexists.
Qed.

(** A request that fails before its first run changes nothing. *)
Lemma run_intake_Raise q p i key c a e a' :
  run_intake q p i key c a = (Raise e, a') →
  store a' = store a ∨ ∃ k a1, store a1 = store a ∧
    intake_idempotency (intakes a) !! intake_key i k c = None ∧ run_fresh q p i c k (intake_hash c) a1 = (Raise e, a').
Proof.
  rewrite run_intake_shape. unfold mbind, stateful_bind. intros E.
  pose proof (permission_quiet q i (command_permission c) a) as Hq.
  destruct (on_decisions (require_permission q i (command_permission c)) a) as [[u|e1] a1];
    [|injection E as _ <-; by left].
  cbn in Hq. destruct (_begin i (command_operation c) key (command_payload c) a1) as [[[[k digest] replay]|e1] a2] eqn:Eb.
  - apply begin_Ok in Eb as (-> & -> & -> & Hr). destruct replay as [r|]; [done|]. right. exists k, a1.
    split; [done|]. split; [|done]. unfold store in Hq. congruence.
  - injection E as _ <-. left. rewrite <-Hq. unfold _begin, mbind, stateful_bind, lift, find_replay in Eb.
    destruct (require_idempotency_key key); [|by injection Eb as _ <-].
    destruct (get_intake_idempotency _ _ _ _ _ _); [done|]. by injection Eb as _ <-.
Qed.

(** ** What a first run answers and writes *)

(** The rows of an intake a request writes, besides the answer it keeps. *)
Record intake_rows := mkIntakeRows {
  row_record : IntakeRecord; row_facts : list CandidateFact; row_confirmation : option HumanConfirmation;
  row_events : list intake_event
}.

Definition target_intake (c : IntakeCommand) : string :=
  match c with CreateIntake b => body_intake b | AddConfirmation id _ => id | CompileIntake id => id end.

(** No decision is linked to the record. *)
Definition unlinked (i : Identity) (db : Database) (r : IntakeRecord) : Prop :=
  match truthy_text (compiled_decision_id r) with
  | Some n => decisions db !! (tenant_name i, n) = None
  | None => True
  end.

Inductive first_answer (q : Request) (p : Policies) (i : Identity) (t : IntakeTables) (db : Database) :
    IntakeCommand → option intake_rows → option Document → pyval → Prop :=
  | first_again b r :
      intake_records t !! (tenant_name i, body_intake b) = Some r → ir_raw r = body_raw_input b →
      first_answer q p i t db (CreateIntake b) None None (record_json r)
  | first_create b e v r :
      intake_records t !! (tenant_name i, body_intake b) = None →
      extract (body_raw_input b) (body_locale b) (body_intake b) = Ok e →
      verify (get_active p) (reference_date p) (tenant_name i) e = Ok v →
      r = new_record i b (isoformat (clock q 0)) e v →
      first_answer q p i t db (CreateIntake b) (Some (mkIntakeRows r (candidates v) None (ir_events r))) None (record_json r)
  | first_confirm id b r v c e r' :
      intake_records t !! (tenant_name i, id) = Some r →
      confirmed_report p i r b (isoformat (clock q 0)) = Ok (v, c) →
      readiness (ready v) = ir_status r ∨ (∃ s, next_status (ir_status r) (readiness (ready v)) (ready v) = Ok s) →
      e = confirmation_event i id r b v c → r' = confirmed_record r v c e →
      first_answer q p i t db (AddConfirmation id b) (Some (mkIntakeRows r' (candidates v) (Some c) [e])) None (record_json r')
  | first_linked id r policy n d :
      intake_records t !! (tenant_name i, id) = Some r → get_active p (tenant_name i) = Some policy →
      truthy_text (compiled_decision_id r) = Some n → decisions db !! (tenant_name i, n) = Some d →
      first_answer q p i t db (CompileIntake id) None None (document_json d)
  | first_compiled id r policy d e :
      intake_records t !! (tenant_name i, id) = Some r → get_active p (tenant_name i) = Some policy →
      unlinked i db r → compiled_decision q policy r = Ok d →
      decisions db !! (tenant_name i, decision_id d) = None → e = intake_compiled_event i id r d →
      first_answer q p i t db (CompileIntake id) (Some (mkIntakeRows (compiled_record r d e) [] None [e])) (Some d) (document_json d)
  | first_adopted id r policy d d' e :
      intake_records t !! (tenant_name i, id) = Some r → get_active p (tenant_name i) = Some policy →
      unlinked i db r → compiled_decision q policy r = Ok d →
      decisions db !! (tenant_name i, decision_id d) = Some d' → e = intake_compiled_event i id r d' →
      first_answer q p i t db (CompileIntake id) (Some (mkIntakeRows (compiled_record r d' e) [] None [e])) None (document_json d').

Definition intake_write_of (i : Identity) (k : string) (c : IntakeCommand) (r : pyval) : IntakeWrite :=
  mkIntakeWrite (identity_actor i) (command_operation c) k (intake_hash c) r.

(** The tables after a first run. *)
Definition stored (i : Identity) (k : string) (c : IntakeCommand) (w : option intake_rows) (r : pyval)
    (t t' : IntakeTables) : Prop :=
  match w with
  | Some w => save_operation (tenant_name i) (target_intake c) (row_record w) (row_facts w) (row_confirmation w)
                (row_events w) (intake_write_of i k c r) t = Ok t'
  | None => store_idempotency (tenant_name i) (intake_write_of i k c r) t = Ok t'
  end.
Definition created (i : Identity) (d : option Document) (db db' : Database) : Prop :=
  match d with
  | Some d => insert_decision (tenant_name i) d (audit_events d) db = Ok db'
  | None => db' = db
  end.

Definition first_run (q : Request) (p : Policies) (i : Identity) (k : string) (c : IntakeCommand) (r : pyval)
    (s s' : IntakeTables * Database) : Prop :=
  ∃ w d, first_answer q p i s.1 s.2 c w d r ∧ stored i k c w r s.1 s'.1 ∧ created i d s.2 s'.2.

Lemma as_conflict_Ok {A} c (m : result A) x : as_conflict c m = Ok x ↔ m = Ok x.
Proof. unfold as_conflict, conflict, api_error. destruct m; [done|]. case_bool_decide; naive_solver. Qed.

Lemma create_fresh_Ok q p i b k a r a' :
  create_fresh q p i b k (intake_hash (CreateIntake b)) a = (Ok r, a') →
  first_run q p i k (CreateIntake b) r (store a) (store a').
Proof.
  unfold create_fresh. intros E. apply stateful_bind_Ok in E as (existing & a1 & Hf & E). injection Hf as <- <-.
  destruct (intake_records (intakes a) !! _) as [x|] eqn:Ex.
  - apply stateful_bind_Ok in E as (u & a1 & Hc & E). injection Hc as Hc <-.
    destruct (ir_raw x =? body_raw_input b) eqn:Eraw; [|done]. apply String.eqb_eq in Eraw.
    apply stateful_bind_Ok in E as (u' & a1 & Hs & E). injection E as <- <-.
    unfold _finish in Hs. apply on_intakes_Ok in Hs as (t & Ht & ->). exists None, None.
    split_and!; [by econstructor|done|done].
  - apply stateful_bind_Ok in E as (e & a1 & He & E). injection He as He <-.
    apply stateful_bind_Ok in E as (v & a1 & Hv & E). injection Hv as Hv <-. cbv zeta in E.
    apply stateful_bind_Ok in E as (u1 & a1 & Hn & E). injection Hn as _ <-.
    apply stateful_bind_Ok in E as (u2 & a1 & Hn & E). injection Hn as _ <-.
    apply stateful_bind_Ok in E as (u3 & a1 & Hs & E). injection E as <- <-.
    apply on_intakes_Ok in Hs as (t & Ht & ->). eexists (Some _), None.
    split_and!; [by eapply first_create|exact Ht|done].
Qed.

Lemma confirm_fresh_Ok q p i id b k a r a' :
  confirm_fresh q p i id b k (intake_hash (AddConfirmation id b)) a = (Ok r, a') →
  first_run q p i k (AddConfirmation id b) r (store a) (store a').
Proof.
  unfold confirm_fresh. intros E. apply stateful_bind_Ok in E as (existing & a1 & Hf & E). injection Hf as <- <-.
  destruct (intake_records (intakes a) !! _) as [x|] eqn:Ex; [|done].
  apply stateful_bind_Ok in E as ([v c] & a1 & Hv & E). injection Hv as Hv%as_conflict_Ok <-. cbv zeta in E.
  apply stateful_bind_Ok in E as (u1 & a1 & Hn & E). injection Hn as Hn <-.
  apply stateful_bind_Ok in E as (u3 & a1 & Hs & E). injection E as <- <-.
  apply on_intakes_Ok in Hs as (t & Ht & ->). eexists (Some _), None.
  split_and!; [eapply first_confirm; [exact Ex|exact Hv| |done|done]|exact Ht|done].
  case_bool_decide; [by left|]. apply as_conflict_Ok in Hn. right. by eexists.
Qed.

Lemma compile_fresh_Ok q p i id k a r a' :
  compile_fresh q p i id k (intake_hash (CompileIntake id)) a = (Ok r, a') →
  first_run q p i k (CompileIntake id) r (store a) (store a').
Proof.
  unfold compile_fresh. intros E. apply stateful_bind_Ok in E as (existing & a1 & Hf & E). injection Hf as <- <-.
  destruct (intake_records (intakes a) !! _) as [x|] eqn:Ex; [|done].
  apply stateful_bind_Ok in E as (policy & a1 & Hp & E). injection Hp as Hp <-.
  destruct (get_active p (tenant_name i)) as [pol|] eqn:Epol; [|done]. injection Hp as ->.
  apply stateful_bind_Ok in E as (linked & a1 & Hl & E).
  assert (a1 = a ∧ match truthy_text (compiled_decision_id x) with
    | Some n => linked = decisions (database (decision_api a)) !! (tenant_name i, n)
    | None => linked = None end) as [-> Hlink].
  { unfold linked_decision in Hl. destruct (truthy_text _); injection Hl as <- <-; done. }
  destruct linked as [d|].
  - destruct (truthy_text (compiled_decision_id x)) as [n|] eqn:En; [|done].
    apply stateful_bind_Ok in E as (u & a1 & Hs & E). injection E as <- <-.
    unfold _finish in Hs. apply on_intakes_Ok in Hs as (t & Ht & ->). exists None, None.
    split_and!; [by eapply first_linked|exact Ht|done].
  - assert (unlinked i (database (decision_api a)) x) as Hun by (unfold unlinked; by destruct (truthy_text _)).
    unfold compile_record in E. apply stateful_bind_Ok in E as (d & a1 & Hd & E). injection Hd as Hd%as_conflict_Ok <-.
    apply stateful_bind_Ok in E as (ex & a1 & Hex & E). injection Hex as <- <-.
    apply stateful_bind_Ok in E as (d' & a1 & Hd' & E). cbv zeta in E.
    apply stateful_bind_Ok in E as (u & a2 & Hs & E). injection E as <- <-.
    apply on_intakes_Ok in Hs as (t & Ht & ->).
    destruct (decisions (database (decision_api a)) !! _) as [d0|] eqn:Ed0.
    + injection Hd' as <- <-. eexists (Some _), None.
      split_and!; [by eapply first_adopted|exact Ht|done].
    + apply stateful_bind_Ok in Hd' as (u1 & a2 & Hi & Hd'). injection Hd' as <- <-.
      apply on_decisions_Ok in Hi as (api & Hi & ->). apply transact_Ok in Hi as (_ & db & Hi & ->).
      eexists (Some _), (Some _). split_and!; [by eapply first_compiled|exact Ht|exact Hi].
Qed.

Lemma run_fresh_Ok q p i c k a r a' :
  run_fresh q p i c k (intake_hash c) a = (Ok r, a') → first_run q p i k c r (store a) (store a').
Proof. destruct c; [apply create_fresh_Ok|apply confirm_fresh_Ok|apply compile_fresh_Ok]. Qed.
End api.

(** ** What a transaction leaves *)

Lemma foldl_keeps {A B C} (f : A → B → A) (g : A → C) l a :
  (∀ a b, g (f a b) = g a) → g (foldl f a l) = g a.
Proof. intros Hf. revert a. induction l as [|b l IH]; intros a; cbn; [done|]. by rewrite IH. Qed.

Lemma insert_event_records k n e t : intake_records (insert_event k n e t) = intake_records t.
Proof. unfold insert_event. by destruct (existsb _ _). Qed.
Lemma insert_event_idempotency k n e t : intake_idempotency (insert_event k n e t) = intake_idempotency t.
Proof. unfold insert_event. by destruct (existsb _ _). Qed.

Lemma insert_event_rows k k' n e t :
  rows_of_intake k' (insert_event k n e t) =
    rows_of_intake k' t ++
    (if decide (k = k') then (if existsb (same_event_id e) (rows_of_intake k t) then [] else [(n, e)]) else []).
Proof.
  unfold insert_event. destruct (existsb _ _) eqn:Ex; [case_decide; by rewrite app_nil_r|].
  unfold rows_of_intake. cbn. rewrite filter_app, fmap_app. f_equal. rewrite filter_cons, filter_nil. cbn.
  by case_decide.
Qed.

(** The event has its number in its identifier. *)
Definition numbered (id : string) (n : nat) (e : intake_event) : Prop :=
  assoc "event_id" e = Some (PStr (id +:+ ":intake-audit:" +:+ pretty n)).

Lemma numbered_inj id n m e e' : numbered id n e → numbered id m e' → assoc "event_id" e = assoc "event_id" e' → n = m.
Proof.
  unfold numbered. intros -> -> [= E]. apply str_app_inj_l, (str_app_inj_l ":intake-audit:") in E. by apply (inj pretty) in E.
Qed.

(** The events number [n], [n+1], ... *)
Definition numbered_from (id : string) (n : nat) (l : list intake_event) : Prop :=
  ∀ j e, l !! j = Some e → numbered id (n + j) e.

Lemma numbered_cons id n e l : numbered_from id n (e :: l) ↔ numbered id n e ∧ numbered_from id (S n) l.
Proof.
  unfold numbered_from. split.
  - intros Hl. split; [specialize (Hl 0 e eq_refl); by rewrite Nat.add_0_r in Hl|].
    intros j x Hj. specialize (Hl (S j) x Hj). by rewrite Nat.add_succ_r in Hl.
  - intros [He Hl] [|j] x Hj; cbn in Hj; [injection Hj as <-; by rewrite Nat.add_0_r|].
    rewrite Nat.add_succ_r. by apply Hl.
Qed.

Lemma numbered_app id n l m :
  numbered_from id n (l ++ m) ↔ numbered_from id n l ∧ numbered_from id (n + length l) m.
Proof.
  revert n. induction l as [|e l IH]; intros n; cbn; [rewrite Nat.add_0_r; split; [by split|tauto]|].
  rewrite !numbered_cons, IH, <-Nat.add_succ_comm. tauto.
Qed.

Lemma enumerate_elem {A} n (l : list A) x : x ∈ enumerate n l → ∃ j, l !! j = Some x.2 ∧ x.1 = n + j.
Proof.
  revert n. induction l as [|y l IH]; intros n; cbn; [by intros ?%elem_of_nil|].
  intros [->|Hx]%elem_of_cons; [exists 0; cbn; split; [done|lia]|].
  apply IH in Hx as (j & Hj & ->). exists (S j). split; [done|lia].
Qed.

Lemma enumerate_app {A} n (l m : list A) : enumerate n (l ++ m) = enumerate n l ++ enumerate (n + length l) m.
Proof.
  revert n. induction l as [|x l IH]; intros n; cbn; [by rewrite Nat.add_0_r|].
  by rewrite IH, <-Nat.add_succ_comm.
Qed.

Lemma current_sequence_enumerate {A} (l : list A) n :
  l ≠ [] → foldr (λ row m, Nat.max row.1 m) 0 (enumerate (S n) l) = n + length l.
Proof.
  revert n. induction l as [|x l IH]; intros n Hl; [done|]. cbn.
  destruct l as [|y l]; [cbn; lia|]. rewrite IH by done. cbn. lia.
Qed.

Lemma current_sequence_rows k t l : rows_of_intake k t = enumerate 1 l → current_sequence k t = length l.
Proof.
  unfold current_sequence. intros ->. destruct l as [|x l]; [done|].
  by rewrite (current_sequence_enumerate _ 0).
Qed.

(** The new events are appended, each under its number. *)
Lemma insert_events_rows id k (l evs : list intake_event) t base :
  rows_of_intake k t = enumerate 1 l → numbered_from id 1 (l ++ evs) →
  ∀ j, length l = base + j →
  rows_of_intake k (foldl (λ t x, insert_event k (base + x.1) x.2 t) t (enumerate (S j) evs)) = enumerate 1 (l ++ evs).
Proof.
  revert l t. induction evs as [|e evs IH]; intros l t Hr Hn j Hj; cbn; [by rewrite app_nil_r|].
  assert (existsb (same_event_id e) (enumerate 1 l) = false) as Hex.
  { apply existsb_false_Forall, Forall_forall. intros [m x] (i & Hi & Em)%enumerate_elem. cbn in *. subst.
    apply bool_decide_eq_false. cbn. intros Eid.
    apply numbered_app in Hn as [Hl [He _]%numbered_cons]. apply Hl in Hi as Hx.
    pose proof (numbered_inj _ _ _ _ _ Hx He Eid). apply lookup_lt_Some in Hi. lia. }
  rewrite (cons_middle e l evs), (assoc_L (++)). apply (IH (l ++ [e])).
  - rewrite insert_event_rows, decide_True, Hr, Hex, enumerate_app by done. cbn. do 3 f_equal. lia.
  - by rewrite <-(assoc_L (++)).
  - rewrite length_app. cbn. lia.
Qed.

Lemma insert_events_other k k' xs base t :
  k ≠ k' → rows_of_intake k' (foldl (λ t x, insert_event k (base + x.1) x.2 t) t xs) = rows_of_intake k' t.
Proof.
  intros Hne. apply (foldl_keeps _ (rows_of_intake k')). intros t' x.
  rewrite insert_event_rows, decide_False by done. apply app_nil_r.
Qed.

Lemma store_idempotency_Ok tenant w t t' :
  store_idempotency tenant w t = Ok t' ↔
  intake_idempotency t !! intake_write_key tenant w = None ∧
  t' = mkIntakeTables (intake_records t) (intake_facts t) (intake_confirmations t) (intake_audit_events t)
         (<[intake_write_key tenant w := (iw_hash w, iw_response w)]> (intake_idempotency t)).
Proof.
  unfold store_idempotency. split.
  - intros E. inv_ok. by bool_prop.
  - intros [Hn ->]. by rewrite Hn.
Qed.

Lemma insert_confirmation_Ok k c t t' :
  insert_confirmation k c t = Ok t' →
  intake_records t' = intake_records t ∧ intake_audit_events t' = intake_audit_events t ∧
  intake_idempotency t' = intake_idempotency t.
Proof. unfold insert_confirmation. destruct (_ !! _); intros E; inv_ok; done. Qed.

(** The table after [save_operation], as far as the theorems look at it. *)
Lemma save_operation_Ok tenant id rec facts conf evs w t t' :
  save_operation tenant id rec facts conf evs w t = Ok t' →
  ir_id rec = id ∧ intake_idempotency t !! intake_write_key tenant w = None ∧
  intake_records t' = <[(tenant, id) := rec]> (intake_records t) ∧
  intake_idempotency t' = <[intake_write_key tenant w := (iw_hash w, iw_response w)]> (intake_idempotency t) ∧
  (∀ k, k ≠ (tenant, id) → rows_of_intake k t' = rows_of_intake k t) ∧
  (∀ l, rows_of_intake (tenant, id) t = enumerate 1 l → numbered_from id 1 (l ++ evs) →
     rows_of_intake (tenant, id) t' = enumerate 1 (l ++ evs)).
Proof.
  unfold save_operation. intros E. apply bind_Ok in E as (u & Hid%require_Ok & E). apply String.eqb_eq in Hid.
  cbv zeta in E. apply bind_Ok in E as (t1 & Hc & E).
  set (t0 := foldl (λ t c, put_fact (tenant, id) c t) (put_record (tenant, id) rec t) facts) in *.
  assert (intake_records t0 = <[(tenant, id) := rec]> (intake_records t) ∧ intake_audit_events t0 = intake_audit_events t ∧
    intake_idempotency t0 = intake_idempotency t) as (R0 & A0 & I0).
  { unfold t0. by rewrite !(foldl_keeps _ _). }
  assert (intake_records t1 = intake_records t0 ∧ intake_audit_events t1 = intake_audit_events t0 ∧
    intake_idempotency t1 = intake_idempotency t0) as (R1 & A1 & I1)
    by (destruct conf; [by apply insert_confirmation_Ok in Hc|by injection Hc as ->]).
  assert (∀ k, rows_of_intake k t1 = rows_of_intake k t) as Hrows by (intros k; unfold rows_of_intake; congruence).
  apply store_idempotency_Ok in E as [Hn ->]. cbn [intake_records intake_idempotency].
  rewrite !(foldl_keeps _ intake_records), !(foldl_keeps _ intake_idempotency) in * by
    (intros; (apply insert_event_records || apply insert_event_idempotency)).
  split_and!; [done|congruence|congruence|congruence| |].
  - intros k Hk. unfold rows_of_intake at 1. cbn [intake_audit_events]. rewrite <-Hrows.
    by apply insert_events_other.
  - intros l Hl Hnum. unfold rows_of_intake at 1. cbn [intake_audit_events].
    rewrite <-Hrows in Hl. rewrite (current_sequence_rows _ _ _ Hl).
    by apply (insert_events_rows id).
Qed.

(** The identifier is the only other thing it checks, where there is no confirmation. *)
Lemma save_operation_total tenant id rec facts evs w t :
  ir_id rec = id → intake_idempotency t !! intake_write_key tenant w = None →
  ∃ t', save_operation tenant id rec facts None evs w t = Ok t'.
Proof.
  intros <- Hn. unfold save_operation. rewrite String.eqb_refl. cbn [require mbind result_bind].
  eexists. apply store_idempotency_Ok. split; [|reflexivity].
  rewrite (foldl_keeps _ intake_idempotency) by (intros; apply insert_event_idempotency).
  by rewrite (foldl_keeps _ intake_idempotency).
Qed.

(** ** The trail of an intake *)

Section trail.
Context `{HashAlg}.

(** Events each of which continues the one before: its number, its link, and its source state. *)
Inductive intake_trail (id : string) : list intake_event → IntakeStatus → Prop :=
  | trail_start : intake_trail id [] RECEIVED
  | trail_next events s s' type at_ actor reasons payload :
      intake_trail id events s →
      (s' = s ∧ s ∈ [NEEDS_CONFIRMATION; READY]) ∨ (∃ b, next_status s s' b = Ok s') →
      intake_trail id
        (events ++ [intake_audit_event id (S (length events)) type at_ actor s s' reasons payload (last events)]) s'.

Lemma trail_numbered id events s : intake_trail id events s → numbered_from id 1 events.
Proof.
  induction 1 as [|events s s' type at_ actor reasons payload Ht IH Hs]; [by intros j e|].
  apply numbered_app. split; [done|]. apply numbered_cons. split; [done|by intros j e].
Qed.

Lemma trail_nonempty id events s e : intake_trail id events s → e ∈ events → e ≠ [].
Proof.
  induction 1 as [|events s s' type at_ actor reasons payload Ht IH Hs]; [by intros ?%elem_of_nil|].
  intros [?| ->%list_elem_of_singleton]%elem_of_app; [auto|done].
Qed.

Lemma trail_linked id events s : intake_trail id events s → chained (map PDict events).
Proof.
  induction 1 as [|events s s' type at_ actor reasons payload Ht IH Hs]; [done|].
  rewrite map_app. apply chained_snoc. split; [done|].
  assert (last (map PDict events) = PDict <$> last events) as -> by (exact (fmap_last PDict events)).
  destruct (last events) as [e|] eqn:El; [|done]. cbn.
  apply last_Some_elem_of in El. pose proof (trail_nonempty _ _ _ _ Ht El). by destruct e.
Qed.

Lemma intake_status_value_inj s s' : intake_status_value s = intake_status_value s' → s = s'.
Proof. by destruct s, s'. Qed.

Lemma compiled_is_final s b : next_status COMPILED s b ≠ Ok s.
Proof. by destruct s, b. Qed.

(** COMPILED is reached by the last event only. *)
Lemma trail_compiled_last id events s j e :
  intake_trail id events s → events !! j = Some e → assoc "to_status" e = Some (PStr "COMPILED") →
  S j = length events ∧ s = COMPILED.
Proof.
  intros Ht. revert j. induction Ht as [|events s s' type at_ actor reasons payload Ht IH Hs]; intros j Hj He; [done|].
  rewrite length_app. cbn [length]. apply lookup_app_Some in Hj as [Hj|[Hlen Hj]].
  - destruct (IH _ Hj He) as [_ ->]. exfalso. destruct Hs as [[-> Hin]|[b Hb]]; [set_solver|by apply compiled_is_final in Hb].
  - apply list_lookup_singleton_Some in Hj as [Hj <-]. cbn in He. injection He as He.
    apply (intake_status_value_inj s' COMPILED) in He. split; [lia|done].
Qed.
End trail.

(** ** The invariant of the store *)

Section invariant.
Context `{HashAlg} `{CaseMapping} `{Extractor}.

(** What the state of an intake means. *)
Definition status_means (r : IntakeRecord) : Prop :=
  match ir_status r with
  | NEEDS_CONFIRMATION => ready (ir_verification r) = false ∧ compiled_decision_id r = None
  | READY => ready (ir_verification r) = true ∧ compiled_decision_id r = None
  | COMPILED => ready (ir_verification r) = true ∧ is_Some (compiled_decision_id r)
  | _ => False
  end.

Record record_ok (k : row_key) (r : IntakeRecord) : Prop := {
  rec_id : ir_id r = k.2;
  rec_trail : intake_trail k.2 (ir_events r) (ir_status r);
  rec_status : status_means r;
  rec_ready : contract_ready r = ready (ir_verification r);
  rec_findings : ir_findings r = report_findings (ir_verification r)
}.

Record tables_ok (t : IntakeTables) : Prop := {
  tab_records : ∀ k r, intake_records t !! k = Some r → record_ok k r;
  tab_rows : ∀ k r, intake_records t !! k = Some r → rows_of_intake k t = enumerate 1 (ir_events r);
  tab_absent : ∀ k, intake_records t !! k = None → rows_of_intake k t = []
}.

Lemma empty_tables_ok : tables_ok empty_intakes.
Proof. split; cbn; [intros ??|intros ??|intros ?]; rewrite ?lookup_empty; done. Qed.

Lemma readiness_means (r : IntakeRecord) v :
  ir_status r = readiness (ready v) → ir_verification r = v → compiled_decision_id r = None → status_means r.
Proof. unfold status_means, readiness. intros -> -> ->. by destruct (ready v). Qed.

Lemma readiness_open b : readiness b ∈ [NEEDS_CONFIRMATION; READY].
Proof. destruct b; set_solver. Qed.

Lemma new_record_ok t i b at_ e v : record_ok (t, body_intake b) (new_record i b at_ e v).
Proof.
  split; try done; [|by eapply readiness_means].
  cbn [snd ir_events ir_status new_record].
  apply (trail_next _ [extracted_event i b at_ e] EXTRACTED).
  - apply (trail_next _ [] RECEIVED EXTRACTED); [constructor|]. right. by exists false.
  - right. exists (ready v). by destruct (ready v).
Qed.

Lemma compiled_takes_nothing s b :
  s = COMPILED → readiness b = s ∨ (∃ s', next_status s (readiness b) b = Ok s') → False.
Proof. intros ->. destruct b; intros [?|[s' ?]]; done. Qed.

(** A record that is not COMPILED takes the confirmation. *)
Lemma confirmed_record_ok k i r b v c :
  record_ok k r →
  readiness (ready v) = ir_status r ∨ (∃ s, next_status (ir_status r) (readiness (ready v)) (ready v) = Ok s) →
  record_ok k (confirmed_record r v c (confirmation_event i k.2 r b v c)).
Proof.
  intros [Hid Ht Hs Hr Hf] Hn. split; try done.
  - cbn [ir_events ir_status confirmed_record]. apply trail_next; [done|]. destruct Hn as [Hn|[s Hn]].
    + left. split; [done|]. rewrite <-Hn. apply readiness_open.
    + right. exists (ready v). unfold next_status in *.
      destruct (bool_decide (readiness (ready v) = INTAKE_REJECTED) && _); [done|].
      apply bind_Ok in Hn as (u & Hallowed & Hn). apply bind_Ok in Hn as (u' & Hopen & _).
      by rewrite Hallowed, Hopen.
  - eapply readiness_means; [done..|]. cbn. unfold status_means in Hs.
    destruct (ir_status r) eqn:Es; try tauto. by apply compiled_takes_nothing in Hn.
Qed.

Lemma compiled_decision_Ok q policy r d :
  compiled_decision q policy r = Ok d →
  ir_status r = READY ∧ compile (clock q 0) (ir_verification r) policy "system:intake-compiler" READY = Ok d.
Proof.
  unfold compiled_decision. intros E. apply bind_Ok in E as (u & Hs%require_Ok & E).
  apply bool_decide_eq_true in Hs. rewrite Hs in E. apply bind_Ok in E as (s & _ & E).
  rewrite verification_from_verification in E. done.
Qed.

Lemma compiled_record_ok k i r d :
  record_ok k r → ir_status r = READY → record_ok k (compiled_record r d (intake_compiled_event i k.2 r d)).
Proof.
  intros [Hid Ht Hs Hr Hf] Hready. split; try done.
  - cbn [ir_events ir_status compiled_record]. apply trail_next; [by rewrite <-Hready|]. right. by exists true.
  - unfold status_means in *. rewrite Hready in Hs. cbn. split; [tauto|done].
Qed.

(** What a first run writes keeps the invariant of the intakes. *)
Lemma first_answer_rows q p i t db c w d r :
  tables_ok t → first_answer q p i t db c (Some w) d r →
  let k := (tenant_name i, target_intake c) in
  record_ok k (row_record w) ∧
  ir_events (row_record w) = match intake_records t !! k with Some r => ir_events r | None => [] end ++ row_events w.
Proof.
  intros Hok Ha. inversion Ha; subst; cbn [target_intake row_record row_events].
  - match goal with E : intake_records t !! _ = None |- _ => rewrite E end. split; [apply new_record_ok|done].
  - match goal with E : intake_records t !! _ = Some _ |- _ => rewrite E; apply (tab_records _ Hok) in E end.
    split; [by apply (confirmed_record_ok (tenant_name i, id))|done].
  - match goal with E : intake_records t !! _ = Some _ |- _ => rewrite E; apply (tab_records _ Hok) in E end.
    split; [|done]. apply (compiled_record_ok (tenant_name i, id)); [done|].
    match goal with E : compiled_decision _ _ _ = Ok _ |- _ => by apply compiled_decision_Ok in E as [? _] end.
  - match goal with E : intake_records t !! _ = Some _ |- _ => rewrite E; apply (tab_records _ Hok) in E end.
    split; [|done]. apply (compiled_record_ok (tenant_name i, id)); [done|].
    match goal with E : compiled_decision _ _ _ = Ok _ |- _ => by apply compiled_decision_Ok in E as [? _] end.
Qed.

Lemma stored_ok q p i k c w d r t t' db :
  tables_ok t → first_answer q p i t db c w d r → stored i k c w r t t' → tables_ok t'.
Proof.
  intros Hok Ha Hs. destruct w as [w|]; cbn [stored] in Hs.
  - pose proof (first_answer_rows _ _ _ _ _ _ _ _ _ Hok Ha) as [Hr He]. cbv zeta in *.
    apply save_operation_Ok in Hs as (_ & _ & R & _ & Hother & Hrows).
    set (key := (tenant_name i, target_intake c)) in *.
    assert (rows_of_intake key t' = enumerate 1 (ir_events (row_record w))) as Hkey.
    { rewrite He. apply Hrows; [|rewrite <-He; eapply trail_numbered, (rec_trail _ _ Hr)].
      destruct (intake_records t !! key) as [r0|] eqn:E; [by apply (tab_rows _ Hok)|by apply (tab_absent _ Hok)]. }
    split; intros k'; rewrite R; intros *.
    + intros [[<- <-]|[_ Hl]]%lookup_insert_Some; [done|by apply (tab_records _ Hok)].
    + intros [[<- <-]|[Hne Hl]]%lookup_insert_Some; [done|]. rewrite Hother by done. by apply (tab_rows _ Hok).
    + intros [Hl Hne]%lookup_insert_None. rewrite Hother by done. by apply (tab_absent _ Hok).
  - apply store_idempotency_Ok in Hs as [_ ->]. by destruct Hok.
Qed.

(** The rows of the decisions stay the last events of their trails. *)
Lemma created_ok i d db db' : store_ok db → created i d db db' → store_ok db'.
Proof.
  destruct d as [d|]; cbn [created]; [|by intros ? ->]. intros [Hk Hr Ha]. unfold insert_decision. intros E.
  apply bind_Ok in E as (u & Hn%require_Ok & E). apply bool_decide_eq_true in Hn.
  apply insert_events_Ok in E as ->. set (key := (tenant_name i, decision_id d)) in *. cbn.
  assert (∀ k, rows_of (mkDatabase (<[key:=d]> (decisions db)) (reports db)
    (audit_rows db ++ ((key,.) <$> audit_events d)) (idempotency db)) k =
    rows_of db k ++ if decide (key = k) then audit_events d else []) as Hrows.
  { intros k. unfold rows_of. cbn. rewrite filter_app, fmap_app. f_equal.
    induction (audit_events d) as [|e l IH]; [by case_decide|].
    rewrite fmap_cons, filter_cons. cbn [fst]. case_decide; [rewrite fmap_cons, IH|exact IH]. done. }
  split.
  - intros t id x Hl. cbn in Hl. apply lookup_insert_Some in Hl as [[[= _ <-] <-]|[_ Hl]]; [done|by eapply Hk].
  - intros k x Hl. cbn in Hl. rewrite Hrows. apply lookup_insert_Some in Hl as [[<- <-]|[Hne Hl]].
    + rewrite (Ha _ Hn), decide_True by done. exists 0. split; [lia|done].
    + rewrite decide_False, app_nil_r by done. by apply Hr.
  - intros k Hl. cbn in Hl. apply lookup_insert_None in Hl as [Hl Hne].
    rewrite Hrows, decide_False, app_nil_r by done. by apply Ha.
Qed.
End invariant.

(** ** Sequences of requests to both APIs *)

Section serving.
Context `{HashAlg} `{CaseMapping} `{Extractor} `{ContractValidator}.

(** A request to the decision API or to the intake API. *)
Definition api_request : Type := request + (Request * Policies * Identity * option string * IntakeCommand).
Definition run_api (a : IntakeApp) (x : api_request) : IntakeApp :=
  match x with
  | inl x => mkIntakeApp (run_request (decision_api a) x) (intakes a)
  | inr (q, p, i, key, c) => (run_intake q p i key c a).2
  end.
Definition run_apis (a : IntakeApp) (xs : list api_request) : IntakeApp := foldl run_api a xs.

Definition whole_ok (a : IntakeApp) : Prop := tables_ok (intakes a) ∧ store_ok (database (decision_api a)).
Definition new_app : IntakeApp := mkIntakeApp (mkApp empty_database []) empty_intakes.

(** A first run that fails leaves both stores as they were. *)
Lemma run_fresh_Raise q p i c k a e a' :
  tables_ok (intakes a) → intake_idempotency (intakes a) !! intake_key i k c = None →
  run_fresh q p i c k (intake_hash c) a = (Raise e, a') → store a' = store a.
Proof.
  intros Hok Hn. destruct c as [b|id b|id]; cbn [run_fresh].
  - unfold create_fresh, mbind, stateful_bind, find_intake, gets, lift. intros E.
    destruct (intake_records _ !! _) as [r|].
    + destruct (_ =? _); [|by injection E as _ <-]. unfold _finish in E. rewrite on_intakes_run in E.
      destruct (store_idempotency _ _ _); [done|by injection E as _ <-].
    + destruct (extract _ _ _) as [x|]; [|by injection E as _ <-]. destruct (verify _ _ _ _) as [v|]; [|by injection E as _ <-].
      destruct (next_status RECEIVED _ _); [|by injection E as _ <-]. destruct (next_status EXTRACTED _ _); [|by injection E as _ <-].
      rewrite on_intakes_run in E. destruct (save_operation _ _ _ _ _ _ _ _); [done|by injection E as _ <-].
  - unfold confirm_fresh, mbind, stateful_bind, find_intake, gets, lift. intros E.
    destruct (intake_records _ !! _) as [r|]; [|by injection E as _ <-].
    destruct (as_conflict _ _) as [[v c]|]; [|by injection E as _ <-].
    destruct (if bool_decide _ then _ else _); [|by injection E as _ <-].
    rewrite on_intakes_run in E. destruct (save_operation _ _ _ _ _ _ _ _); [done|by injection E as _ <-].
  - unfold compile_fresh, mbind, stateful_bind, find_intake, gets, lift. intros E.
    destruct (intake_records (intakes a) !! (tenant_name i, id)) as [r|] eqn:Er; [|by injection E as _ <-].
    destruct (get_active p _) as [policy|]; [|by injection E as _ <-].
    destruct (linked_decision i r a) as [[linked|] a1] eqn:El; unfold linked_decision in El;
      [|destruct (truthy_text _); discriminate El].
    assert (a1 = a) as -> by (by destruct (truthy_text _); injection El as _ <-).
    destruct linked as [d|].
    + unfold _finish in E. rewrite on_intakes_run in E.
      destruct (store_idempotency _ _ _); [done|by injection E as _ <-].
    + unfold compile_record, mbind, stateful_bind, lift, stored_decision, gets in E.
      destruct (as_conflict _ _) as [d|]; [|by injection E as _ <-].
      pose proof (rec_id _ _ (tab_records _ Hok _ _ Er)) as Hid. cbn [snd] in Hid.
      assert (∀ x evs w a2, intakes a2 = intakes a → ir_id x = id → intake_write_key (tenant_name i) w = intake_key i k (CompileIntake id) →
        ∃ t, on_intakes (save_operation (tenant_name i) id x [] None evs w) a2 = (Ok tt, t)) as Hsave.
      { intros x evs w a2 Ha2 Hx Hw. rewrite on_intakes_run, Ha2.
        destruct (save_operation_total (tenant_name i) id x [] evs w (intakes a) Hx) as [t' ->]; [by rewrite Hw|].
        by eexists. }
      destruct (decisions _ !! _) as [d'|].
      * cbv beta iota delta [mret stateful_ret] in E.
        match type of E with context [on_intakes (save_operation _ _ ?x _ _ ?evs ?w) ?a2] =>
          destruct (Hsave x evs w a2 eq_refl Hid eq_refl) as [t' Ht] end.
        rewrite Ht in E. done.
      * unfold on_decisions, zoom, transact in E.
        destruct (insert_decision _ _ _ _) as [db|e'] eqn:Ei; [|injection E as _ <-; by destruct a as [[??]?]].
        cbv beta iota delta [mret stateful_ret] in E.
        match type of E with context [on_intakes (save_operation _ _ ?x _ _ ?evs ?w) ?a2] =>
          destruct (Hsave x evs w a2 eq_refl Hid eq_refl) as [t' Ht] end.
        rewrite Ht in E. done.
Qed.

Lemma run_intake_ok q p i key c a : whole_ok a → whole_ok (run_intake q p i key c a).2.
Proof.
  intros [Ht Hd]. unfold whole_ok. destruct (run_intake q p i key c a) as [[r|e] a'] eqn:E; cbn [snd].
  - apply run_intake_Ok in E as (_ & k & _ & [[_ Hs]|(Hn & a1 & Ha1 & E)]).
    + unfold store in Hs. injection Hs as -> ->. done.
    + apply run_fresh_Ok in E as (w & d & Hf & Hs & Hc). unfold store in Ha1. injection Ha1 as Ha1 Ha2. cbn in *.
      rewrite Ha1, Ha2 in *. split; [by eapply stored_ok|by eapply created_ok].
  - apply run_intake_Raise in E as [Hs|(k & a1 & Ha1 & Hn & E)].
    + unfold store in Hs. injection Hs as -> ->. done.
    + unfold store in Ha1. injection Ha1 as Ha1 Ha2. rewrite <-Ha1 in Ht, Hn. rewrite <-Ha2 in Hd.
      apply run_fresh_Raise in E; [|done..]. unfold store in E. injection E as -> ->. done.
Qed.

Lemma run_api_ok x a : whole_ok a → whole_ok (run_api a x).
Proof.
  destruct x as [x|[[[[q p] i] key] c]]; [|apply run_intake_ok].
  intros [Ht Hd]. split; [done|]. by apply (run_requests_ok [x]).
Qed.

Lemma run_apis_ok xs a : whole_ok a → whole_ok (run_apis a xs).
Proof. revert a. induction xs as [|x xs IH]; intros a Ha; [done|]. by apply IH, run_api_ok. Qed.

Lemma new_app_ok : whole_ok new_app.
Proof. split; [apply empty_tables_ok|apply empty_ok]. Qed.

(** The store after any sequence of requests, from the start. *)
Definition served (xs : list api_request) : IntakeApp := run_apis new_app xs.

Lemma served_ok xs : whole_ok (served xs).
Proof. apply run_apis_ok, new_app_ok. Qed.

(** ** One step at a time *)

(** A request leaves the tables alone or writes what its first run answers. *)
Lemma run_intake_cases q p i key c a :
  whole_ok a →
  store (run_intake q p i key c a).2 = store a ∨
  ∃ k r w d, intake_idempotency (intakes a) !! intake_key i k c = None ∧
    first_answer q p i (intakes a) (database (decision_api a)) c w d r ∧
    stored i k c w r (intakes a) (intakes (run_intake q p i key c a).2) ∧
    created i d (database (decision_api a)) (database (decision_api (run_intake q p i key c a).2)).
Proof.
  intros [Ht _]. destruct (run_intake q p i key c a) as [[r|e] a'] eqn:E; cbn [snd].
  - apply run_intake_Ok in E as (_ & k & _ & [[_ Hs]|(Hn & a1 & Ha1 & E)]); [by left|right].
    apply run_fresh_Ok in E as (w & d & Hf & Hs & Hc). unfold store in Ha1. injection Ha1 as Ha1 Ha2. cbn in *.
    rewrite Ha1, Ha2 in *. by exists k, r, w, d.
  - left. apply run_intake_Raise in E as [Hs|(k & a1 & Ha1 & Hn & E)]; [done|]. rewrite <-Ha1.
    unfold store in Ha1. injection Ha1 as Ha1 _. rewrite <-Ha1 in Ht, Hn. by eapply run_fresh_Raise.
Qed.

(** Kept answers stay, trails only grow, and a COMPILED record stays as it is. *)
Record intakes_grow (t t' : IntakeTables) : Prop := {
  grow_answers : ∀ k v, intake_idempotency t !! k = Some v → intake_idempotency t' !! k = Some v;
  grow_records : ∀ k r, intake_records t !! k = Some r →
    ∃ r' tail, intake_records t' !! k = Some r' ∧ ir_events r' = ir_events r ++ tail ∧
      (ir_status r = COMPILED → r' = r)
}.

#[export] Instance intakes_grow_preorder : PreOrder intakes_grow.
Proof.
  split.
  - intros t. split; [done|]. intros k r Hr. exists r, []. by rewrite app_nil_r.
  - intros x y z [A1 R1] [A2 R2]. split; [auto|]. intros k r Hr.
    destruct (R1 _ _ Hr) as (r1 & t1 & H1' & E1 & C1). destruct (R2 _ _ H1') as (r2 & t2 & H2' & E2 & C2).
    exists r2, (t1 ++ t2). rewrite (assoc_L (++)), <-E1. split_and!; [done..|].
    intros Hc. rewrite (C2 ltac:(by rewrite (C1 Hc))). by apply C1.
Qed.

Lemma first_answer_grows q p i k c w d r t t' db :
  tables_ok t → first_answer q p i t db c w d r → stored i k c w r t t' → intakes_grow t t'.
Proof.
  intros Hok Ha Hs. destruct w as [w|]; cbn [stored] in Hs.
  - pose proof (first_answer_rows _ _ _ _ _ _ _ _ _ Hok Ha) as [_ He]. cbv zeta in He.
    apply save_operation_Ok in Hs as (_ & Hn & R & I & _). split.
    + intros k' v Hk'. rewrite I, lookup_insert_ne; [done|]. intros <-. congruence.
    + intros k' r' Hr'. rewrite R. destruct (decide ((tenant_name i, target_intake c) = k')) as [<-|Hne].
      * rewrite lookup_insert_eq. exists (row_record w), (row_events w). rewrite He, Hr'.
        split_and!; [done..|]. intros Hc. exfalso.
        pose proof (rec_status _ _ (tab_records _ Hok _ _ Hr')) as Hm. unfold status_means in Hm. rewrite Hc in Hm.
        inversion Ha; subst; cbn [target_intake] in Hr'; simplify_eq.
        -- match goal with Hx : _ ∨ _ |- _ => by eapply compiled_takes_nothing in Hx end.
        -- match goal with Hx : compiled_decision _ _ _ = Ok _ |- _ => apply compiled_decision_Ok in Hx as [Hx _] end. congruence.
        -- match goal with Hx : compiled_decision _ _ _ = Ok _ |- _ => apply compiled_decision_Ok in Hx as [Hx _] end. congruence.
      * rewrite lookup_insert_ne by done. exists r', []. by rewrite app_nil_r.
  - apply store_idempotency_Ok in Hs as [Hn ->]. split; cbn.
    + intros k' v Hk'. rewrite lookup_insert_ne; [done|]. intros <-. congruence.
    + intros k' r' Hr'. exists r', []. by rewrite app_nil_r.
Qed.

Lemma run_api_grows x a : whole_ok a → intakes_grow (intakes a) (intakes (run_api a x)).
Proof.
  intros Ha. destruct x as [x|[[[[q p] i] key] c]]; [done|]. cbn [run_api].
  destruct (run_intake_cases q p i key c a Ha) as [Hs|(k & r & w & d & _ & Hf & Hs & _)].
  - unfold store in Hs. injection Hs as -> _. done.
  - by eapply first_answer_grows; [apply Ha|..].
Qed.

Lemma run_apis_grow xs a : whole_ok a → intakes_grow (intakes a) (intakes (run_apis a xs)).
Proof.
  revert a. induction xs as [|x xs IH]; intros a Ha; [done|]. cbn [run_apis foldl].
  etrans; [by apply run_api_grows|]. by apply IH, run_api_ok.
Qed.

(** ** The properties *)

(** Intake requests take effect exactly once: in any store the two APIs reach, a request that
    fails changes nothing in the intakes or the decisions; and once a request has answered under
    an idempotency key, whatever requests to either API follow, a request of the same actor
    under the same key and operation that answers gives the same answer, changes nothing, and
    had the same payload digest. *)
Theorem intake_requests_exactly_once history q p i key c :
  (∀ e a', run_intake q p i key c (served history) = (Raise e, a') → store a' = store (served history)) ∧
  (∀ r a', run_intake q p i key c (served history) = (Ok r, a') →
     ∀ xs q2 p2 c2 r2 a2, command_operation c2 = command_operation c →
       run_intake q2 p2 i key c2 (run_apis a' xs) = (Ok r2, a2) →
       r2 = r ∧ store a2 = store (run_apis a' xs) ∧ intake_hash c2 = intake_hash c).
Proof.
  pose proof (served_ok history) as Hok. split.
  - intros e a' E. pose proof (run_intake_cases q p i key c _ Hok) as Hc. rewrite E in Hc.
    apply run_intake_Raise in E as [Hs|(k & a1 & Ha1 & Hn & E)]; [done|]. rewrite <-Ha1.
    unfold store in Ha1. injection Ha1 as Ha1 _. destruct Hok as [Hok _]. rewrite <-Ha1 in Hok, Hn. by eapply run_fresh_Raise.
  - intros r a' E xs q2 p2 c2 r2 a2 Hop E2.
    assert (whole_ok a') as Hok' by (pose proof (run_intake_ok q p i key c _ Hok) as Hx; by rewrite E in Hx).
    apply run_intake_Ok in E as (_ & k & -> & Ha).
    assert (intake_idempotency (intakes a') !! intake_key i k c = Some (intake_hash c, r)) as Hk.
    { destruct Ha as [[Hk Hs]|(Hn & a1 & Ha1 & E)].
      - unfold store in Hs. injection Hs as -> _. done.
      - apply run_fresh_Ok in E as (w & d & _ & Hs & _). cbn [store fst] in Hs. destruct w as [w|]; cbn [stored] in Hs.
        + apply save_operation_Ok in Hs as (_ & _ & _ & -> & _). apply lookup_insert_eq.
        + apply store_idempotency_Ok in Hs as [_ ->]. apply lookup_insert_eq. }
    apply (grow_answers _ _ (run_apis_grow xs a' Hok')) in Hk.
    apply run_intake_Ok in E2 as (_ & k2 & [= <-] & Ha2). unfold intake_key in *. rewrite Hop, Hk in Ha2.
    destruct Ha2 as [[Hk2%(inj Some) Hs]|[Hn _]]; [|done]. apply pair_equal_spec in Hk2 as [Hh Hr]. done.
Qed.

Lemma sorted_enumerate n (l : list intake_event) :
  py_sorted (λ x y : nat * intake_event, (x.1 <=? y.1)%nat) (enumerate n l) = enumerate n l.
Proof.
  revert n. induction l as [|e l IH]; intros n; [done|]. cbn. unfold py_sorted in IH. rewrite IH.
  destruct l as [|e' l]; [done|]. cbn. by rewrite (proj2 (Nat.leb_le n (S n))) by lia.
Qed.

(** Every intake in any store the two APIs reach is consistent: it lies under its own
    identifier; its trail is a hash chain of allowed transitions whose events are numbered from
    1, ends in its state, and is exactly what the audit table lists; NEEDS_CONFIRMATION, READY
    and COMPILED say of its report that it is not ready, ready, and ready and compiled; only the
    last event reaches COMPILED. Whatever requests follow, its trail only grows, and once
    COMPILED it never changes. *)
Theorem intake_store_consistent xs ys k r :
  intake_records (intakes (served xs)) !! k = Some r →
  ir_id r = k.2 ∧ intake_trail k.2 (ir_events r) (ir_status r) ∧
  chained (map PDict (ir_events r)) ∧ numbered_from k.2 1 (ir_events r) ∧
  list_intake_audit k (intakes (served xs)) = ir_events r ∧ status_means r ∧
  contract_ready r = ready (ir_verification r) ∧ ir_findings r = report_findings (ir_verification r) ∧
  (∀ j e, ir_events r !! j = Some e → assoc "to_status" e = Some (PStr "COMPILED") →
     S j = length (ir_events r) ∧ ir_status r = COMPILED) ∧
  ∃ r' tail, intake_records (intakes (run_apis (served xs) ys)) !! k = Some r' ∧
    ir_events r' = ir_events r ++ tail ∧ (ir_status r = COMPILED → r' = r).
Proof.
  intros Hr. pose proof (served_ok xs) as Hok. destruct (tab_records _ (proj1 Hok) _ _ Hr) as [Hid Ht Hm Hc Hf].
  split_and!; try done.
  - by eapply trail_linked.
  - by eapply trail_numbered.
  - unfold list_intake_audit. rewrite (tab_rows _ (proj1 Hok) _ _ Hr), sorted_enumerate. apply enumerate_snd.
  - intros j e. by eapply trail_compiled_last.
  - by apply (grow_records _ _ (run_apis_grow ys _ Hok)).
Qed.

End serving.

(** ** Concrete runs *)

(** Three facts are read from every text. *)
Definition offer_extractor : Extractor := λ _ locale id,
  Ok (mkExtraction id "deterministic" "1" locale offer_facts [] []).
Definition offer_policies : Policies := mkPolicies registry today.
Definition offer_body : IntakeRequestBody := mkIntakeBody "i1" "an offer" "en".
Definition victor_identity : Identity := mkIdentity "victor" sample_tenant VALIDATOR HUMAN None [] {[VALIDATOR]} None [].

Definition offer_request (i : Identity) (key : string) (c : IntakeCommand) : api_request :=
  inr (a_request, offer_policies, i, Some key, c).
Notation served_offer := (served (H := constant_alg) (H0 := ascii_mapping) (H1 := offer_extractor) (H2 := accept_all)).
Notation run_offer := (run_intake (H := constant_alg) (H0 := ascii_mapping) (H1 := offer_extractor)).

Definition offer_created : list api_request := [offer_request alice_identity "k1" (CreateIntake offer_body)].

(** A run that answers, as an equation. *)
Lemma run_offer_Ok i key c a :
  is_ok (run_offer a_request offer_policies i (Some key) c a).1 = true →
  ∃ r, run_offer a_request offer_policies i (Some key) c a =
    (Ok r, (run_offer a_request offer_policies i (Some key) c a).2).
Proof. destruct (run_offer _ _ _ _ _ a) as [[r|e] a']; [by exists r|done]. Qed.

Lemma intake_requests_exactly_once_witness :
  ∃ r, (run_offer a_request offer_policies victor_identity (Some "k2") (CompileIntake "i1") (served_offer offer_created)).1 = Ok r ∧
    ∀ r2 a2, run_offer a_request offer_policies victor_identity (Some "k2") (CompileIntake "i1")
        (run_offer a_request offer_policies victor_identity (Some "k2") (CompileIntake "i1") (served_offer offer_created)).2
        = (Ok r2, a2) → r2 = r.
Proof.
  destruct (run_offer_Ok victor_identity "k2" (CompileIntake "i1") (served_offer offer_created)) as [r E];
    [vm_compute; reflexivity|].
  exists r. split; [by rewrite E|]. intros r2 a2 E2.
  destruct (intake_requests_exactly_once (H := constant_alg) (H0 := ascii_mapping) (H1 := offer_extractor) (H2 := accept_all)
    offer_created a_request offer_policies victor_identity (Some "k2") (CompileIntake "i1")) as [_ Hs].
  apply (Hs r _ E [] a_request offer_policies (CompileIntake "i1") r2 a2); [reflexivity|exact E2].
Defined.

Definition offer_compiled : list api_request :=
  offer_created ++ [offer_request victor_identity "k2" (CompileIntake "i1")].

Lemma intake_store_consistent_witness :
  ∃ r, intake_records (intakes (served_offer offer_compiled)) !! ("t1", "i1") = Some r ∧
    ir_status r = COMPILED ∧ length (ir_events r) = 3 ∧
    list_intake_audit ("t1", "i1") (intakes (served_offer offer_compiled)) = ir_events r.
Proof.
  destruct (intake_records (intakes (served_offer offer_compiled)) !! ("t1", "i1")) as [r|] eqn:Er;
    [|vm_compute in Er; discriminate Er].
  exists r. split; [reflexivity|].
  assert ((λ r, (ir_status r, length (ir_events r))) <$>
    intake_records (intakes (served_offer offer_compiled)) !! ("t1", "i1") = Some (COMPILED, 3)) as Hl
    by (vm_compute; reflexivity).
  rewrite Er in Hl. cbn in Hl. injection Hl as Hs Hl. split; [exact Hs|]. split; [exact Hl|].
  apply (intake_store_consistent (H := constant_alg) (H0 := ascii_mapping) (H1 := offer_extractor) (H2 := accept_all)
    offer_compiled [] ("t1", "i1") r Er).
Defined.


(** A decision that somebody stored under the identifier of the compilation is taken for it: the
    intake is COMPILED to a file none of whose claims comes from the intake. *)
Definition planted_case : Document :=
  mkDocument "0.2.0" "i1-decision" "planted" "x" "u" "DRAFT" "BASIC" "2026-01-01T00:00:00Z" "2026-01-01T00:00:00Z"
    alice alice alice None [] [] [] [] [] [] [] [] [] [] None [] [].

Lemma foreign_decision_adopted :
  let a := served_offer (inl (a_request, alice_identity, Some "k0", Create planted_case) :: offer_created) in
  let a' := (run_offer a_request offer_policies victor_identity (Some "k2") (CompileIntake "i1") a).2 in
  (λ r, (ir_status r, compiled_decision_id r)) <$> intake_records (intakes a') !! ("t1", "i1") =
    Some (COMPILED, Some "i1-decision") ∧
  (λ d, (title d, claims d)) <$> decisions (database (decision_api a')) !! ("t1", "i1-decision") = Some ("planted", []).
Proof. vm_compute. split; reflexivity. Qed.

(** A corrected value that is no number is not refused: the verification that follows raises
    InvalidOperation, which no handler takes. *)
Definition disputed_facts : list CandidateFact :=
  offer_facts ++ [mkFact "i1:fact:4" DURATION_MONTHS "36 or 40 months" None (mkSource "raw-input" 10 25 "h")
    "deterministic" "1" (PFloat "0.9") UNRESOLVED None None [] true None None].
Definition disputed_extractor : Extractor := λ _ locale id,
  Ok (mkExtraction id "deterministic" "1" locale disputed_facts [] []).

Lemma corrected_value_unchecked :
  let run := run_intake (H := constant_alg) (H0 := ascii_mapping) (H1 := disputed_extractor) in
  let a := (run a_request offer_policies alice_identity (Some "k1") (CreateIntake offer_body) new_app).2 in
  exn_cls <$> (match (run a_request offer_policies victor_identity (Some "k2")
      (AddConfirmation "i1" (mkConfirmationBody "i1:fact:4" "CORRECT" (Some "forty") "checked")) a).1 with
     | Raise e => Some e | Ok _ => None end) = Some InvalidOperation.
Proof. vm_compute. reflexivity. Qed.
