(* ===== verification/ResearchCodecProps.v ===== *)
(** * What is stored of a research run is read back

    Every record is recovered from the value it is stored as, whatever the order its keys were
    written in, and a run from the text the repository keeps. *)

From S2P Require Import Prelude PyVal JsonNumber Json JsonLoads Research ResearchCodec.
From stdpp Require Import options.

(** ** A dictionary whose keys were sorted *)

Definition sorted_items (d : list (string * pyval)) : list (string * pyval) :=
  py_sorted key_leb (map (λ kv, (kv.1, normalize_keys kv.2)) d).

Fixpoint distinct (l : list string) : bool :=
  match l with [] => true | k :: l => negb (str_in k l) && distinct l end.

Lemma distinct_NoDup l : distinct l = true ↔ NoDup l.
Proof.
  induction l as [|k l IH]; [split; [constructor|done]|]. cbn [distinct].
  rewrite andb_true_iff, negb_true_iff, str_in_false, IH, NoDup_cons. done.
Qed.

Lemma assoc_perm {A} k (d e : list (string * A)) : NoDup d.*1 → d ≡ₚ e → assoc k d = assoc k e.
Proof.
  intros Hd Hp. induction Hp as [|[k1 x] d e Hp IH|[k1 x] [k2 y] d|d e f Hp1 IH1 Hp2 IH2]; cbn in *; [done|..].
  - apply NoDup_cons in Hd as [_ Hd]. by rewrite IH.
  - apply NoDup_cons in Hd as [Hne _].
    destruct (String.eqb_spec k k1) as [E1|], (String.eqb_spec k k2) as [E2|]; try done.
    destruct Hne. rewrite <-E1, <-E2. left.
  - rewrite IH1 by done. apply IH2. by rewrite <-Hp1.
Qed.

Lemma assoc_map {A B} (f : A → B) k d : assoc k (map (λ kv, (kv.1, f kv.2)) d) = f <$> assoc k d.
Proof. induction d as [|[k' x] d IH]; [done|]. cbn. by destruct (k =? k'). Qed.

Section items.
Context (d : list (string * pyval)) (Hd : distinct d.*1 = true).

Lemma assoc_sorted k : assoc k (sorted_items d) = normalize_keys <$> assoc k d.
Proof using Hd.
  rewrite <-(assoc_map normalize_keys). symmetry. apply assoc_perm; [|symmetry; apply py_sorted_perm].
  rewrite <-list_fmap_compose. by apply distinct_NoDup.
Qed.

Lemma item_sorted k :
  py_item (PDict (sorted_items d)) k = or_raise (normalize_keys <$> assoc k d) KeyError k.
Proof using Hd. cbn. by rewrite assoc_sorted. Qed.

Lemma get_sorted k dflt :
  get (PDict (sorted_items d)) k dflt = Ok (default dflt (normalize_keys <$> assoc k d)).
Proof using Hd. unfold get. cbn. rewrite assoc_sorted. by destruct (assoc k d). Qed.

Lemma replaced_sorted {A} (f : pyval → result A) k :
  replaced f (PDict (sorted_items d)) k = or_raise (normalize_keys <$> assoc k d) KeyError k ≫= f.
Proof using Hd. unfold replaced. by rewrite item_sorted. Qed.

Lemma field_sorted {A} (f : pyval → result A) k dflt :
  field f (sorted_items d) k dflt = f (default dflt (normalize_keys <$> assoc k d)).
Proof using Hd. unfold field. by rewrite assoc_sorted. Qed.

Lemma kwargs_sorted required optional :
  is_ok (kwargs required optional (PDict d)) = true →
  kwargs required optional (PDict (sorted_items d)) = Ok (sorted_items d).
Proof using Hd.
  unfold kwargs. intros H.
  assert (forallb (λ kv : string * pyval, str_in kv.1 (required ++ optional)) (sorted_items d) = true) as ->.
  { rewrite forallb_true_Forall. unfold sorted_items. rewrite py_sorted_perm.
    destruct (forallb (λ kv : string * pyval, str_in kv.1 _) d) eqn:E; [|done].
    rewrite forallb_true_Forall in E. rewrite Forall_map. done. }
  assert (forallb (λ k, bool_decide (is_Some (assoc k (sorted_items d)))) required = true) as ->; [|done].
  destruct (forallb (λ k, bool_decide (is_Some (assoc k d))) required) eqn:E.
  - rewrite forallb_true_Forall in *. eapply Forall_impl; [exact E|]. intros k Hk.
    rewrite bool_decide_eq_true in *. rewrite assoc_sorted, fmap_is_Some. done.
  - by destruct (forallb _ d).
Qed.
End items.

(** ** Values that are stored as they are *)

Lemma normalize_items d : normalize_keys (PDict d) = PDict (sorted_items d).
Proof. done. Qed.

Lemma str_data_sorted l : normalize_keys (str_data l) = str_data l.
Proof. unfold str_data. cbn. by rewrite map_map. Qed.

Lemma opt_data_sorted {A} (f : A → pyval) o :
  (∀ x, normalize_keys (f x) = f x) → normalize_keys (opt_data f o) = opt_data f o.
Proof. by destruct o; cbn. Qed.

Lemma as_tuple_data l : as_tuple (str_data l) = Ok l.
Proof. unfold as_tuple, str_data. cbn. apply mapM_map. by apply Forall_forall. Qed.

Lemma as_opt_str_data o : as_opt_str (opt_data PStr o) = Ok o.
Proof. by destruct o. Qed.
Lemma as_opt_Z_data o : as_opt_Z (opt_data PInt o) = Ok o.
Proof. by destruct o. Qed.
Lemma as_opt_float_data o : as_opt_float (opt_data PFloat o) = Ok o.
Proof. by destruct o. Qed.

#[local] Opaque as_tuple str_data opt_data as_opt_str as_opt_Z as_opt_float sorted_items.

(** Look every field up in the record that was stored. *)
Ltac read_fields :=
  rewrite ?normalize_items;
  repeat first
    [ rewrite !item_sorted by reflexivity | rewrite !replaced_sorted by reflexivity
    | rewrite kwargs_sorted by reflexivity
    | rewrite !field_sorted by reflexivity | rewrite !get_sorted by reflexivity
    | rewrite str_data_sorted | rewrite as_tuple_data
    | rewrite opt_data_sorted by done | rewrite as_opt_str_data | rewrite as_opt_Z_data
    | rewrite as_opt_float_data
    | progress cbn [assoc String.eqb Ascii.eqb Bool.eqb or_raise mbind result_bind fmap option_fmap
        option_map default id as_str as_Z as_bool as_float normalize_keys py_str] ].

Lemma source_roundtrip s : source_from (normalize_keys (source_data s)) = Ok s.
Proof. destruct s. unfold source_from, source_data. by read_fields. Qed.

Lemma risk_roundtrip r : risk_from (normalize_keys (risk_data r)) = Ok r.
Proof. destruct r. unfold risk_from, risk_data. by read_fields. Qed.

Lemma assessment_roundtrip a : assessment_from (normalize_keys (assessment_data a)) = Ok a.
Proof. destruct a. unfold assessment_from, assessment_data. by read_fields. Qed.

Lemma provenance_roundtrip p : provenance_from (normalize_keys (provenance_data p)) = Ok p.
Proof. destruct p. unfold provenance_from, provenance_data. by read_fields. Qed.

Lemma attempt_roundtrip a : attempt_from (normalize_keys (attempt_data a)) = Ok a.
Proof. destruct a. unfold attempt_from, attempt_data. by read_fields. Qed.

Lemma provider_error_roundtrip e : provider_error_from (normalize_keys (provider_error_data e)) = Ok e.
Proof. destruct e. unfold provider_error_from, provider_error_data. by read_fields. Qed.

#[local] Opaque risk_from risk_data assessment_from assessment_data provenance_from provenance_data.

Lemma snapshot_roundtrip s : snapshot_from (normalize_keys (snapshot_data s)) = Ok s.
Proof.
  destruct s. unfold snapshot_from, snapshot_data. read_fields. rewrite risk_roundtrip. by read_fields.
Qed.

Lemma evidence_roundtrip e : evidence_from (normalize_keys (evidence_data e)) = Ok e.
Proof.
  destruct e. unfold evidence_from, evidence_data.
  by repeat (read_fields; first [rewrite assessment_roundtrip | rewrite provenance_roundtrip | rewrite risk_roundtrip]).
Qed.

#[local] Opaque provider_error_from.

Lemma error_roundtrip e : error_from (normalize_keys (error_data e)) = Ok e.
Proof.
  destruct e as [reason [p|] source]; unfold error_from, error_data;
    cbn [err_reason err_provider err_source].
  - change (opt_data provider_error_data (Some p)) with (provider_error_data p). read_fields.
    change (truthy (normalize_keys (provider_error_data p))) with true. cbv iota.
    rewrite provider_error_roundtrip. by read_fields.
  - change (opt_data provider_error_data None) with PNone. read_fields.
    change (truthy PNone) with false. cbv iota. by read_fields.
Qed.

Lemma status_roundtrip x : research_status_of (research_status_value x) = Ok x.
Proof. by destruct x. Qed.

Lemma str_data_list l : str_data l = PList (map PStr l).
Proof. done. Qed.

Lemma text_json_data o : text_json o = opt_data PStr o.
Proof. by destruct o. Qed.

Lemma event_text_sorted d k o :
  distinct d.*1 = true → assoc k d = Some (opt_data PStr o) → event_text (PDict (sorted_items d)) k = Ok o.
Proof.
  intros Hd E. unfold event_text. rewrite get_sorted by done. rewrite E. cbn.
  rewrite opt_data_sorted by done. apply as_opt_str_data.
Qed.

#[local] Opaque event_text.

Lemma event_roundtrip e : event_from (normalize_keys (research_event_json e)) = Ok e.
Proof.
  destruct e. unfold event_from, research_event_json. rewrite !text_json_data.
  rewrite <-str_data_list. read_fields. rewrite status_roundtrip. read_fields. rewrite status_roundtrip. read_fields.
  repeat (erewrite event_text_sorted by reflexivity; cbn [mbind result_bind]). by read_fields.
Qed.

(** ** The request, which is validated again when it is read *)

Lemma freshness_roundtrip p : freshness_from (normalize_keys (freshness_data p)) = freshness_policy p.
Proof. destruct p. unfold freshness_from, freshness_data. by read_fields. Qed.

#[local] Opaque freshness_from freshness_data.

(** A request that passed the checks of its constructor. *)
Definition checked_request (r : ResearchRequest) : Prop :=
  freshness_policy (freshness r) = Ok (freshness r) ∧ research_request r = Ok r.

Lemma request_roundtrip r :
  checked_request r → request_from (normalize_keys (request_data r)) = Ok r.
Proof.
  intros [Hf Hr]. unfold request_from, request_data, item_str. read_fields.
  rewrite freshness_roundtrip, Hf. read_fields. by destruct r.
Qed.

(** ** A run *)

Lemma items_sorted {A} (f : pyval → result A) (g : A → pyval) d k l :
  (∀ x, f (normalize_keys (g x)) = Ok x) → distinct d.*1 = true →
  assoc k d = Some (PList (map g l)) → items_from f (PDict (sorted_items d)) k = Ok l.
Proof.
  intros Hf Hd E. unfold items_from. rewrite get_sorted by done. rewrite E. cbn.
  rewrite map_map. apply (mapM_map f (λ x, normalize_keys (g x))). by apply Forall_forall.
Qed.

#[local] Opaque items_from request_from request_data research_request.

Lemma run_roundtrip r :
  checked_request (request r) → run_from_data (normalize_keys (run_data r)) = Ok r.
Proof.
  intros Hr. unfold run_from_data, run_data, item_str. rewrite normalize_items.
  rewrite (λ d H, item_sorted d H "request") by reflexivity.
  cbn [assoc String.eqb Ascii.eqb Bool.eqb or_raise fmap option_fmap option_map mbind result_bind].
  rewrite request_roundtrip by done. cbn [mbind result_bind].
  rewrite (items_sorted _ _ _ _ _ source_roundtrip) by reflexivity.
  rewrite (items_sorted _ _ _ _ _ snapshot_roundtrip) by reflexivity.
  rewrite (items_sorted _ _ _ _ _ evidence_roundtrip) by reflexivity.
  rewrite (items_sorted _ _ _ _ _ attempt_roundtrip) by reflexivity.
  rewrite (items_sorted _ _ _ _ _ error_roundtrip) by reflexivity.
  rewrite (items_sorted _ _ _ _ _ event_roundtrip) by reflexivity.
  cbn [mbind result_bind]. read_fields. rewrite status_roundtrip. read_fields. by destruct r.
Qed.

(** C40: a research run survives storage: the text the repository writes of a run whose request
    passed validation is read back as the same run, for every run whose numbers the interpreter
    can print; no part of the run, its ledger included, depends on the order of keys or on
    escaping. *)
Theorem stored_run_roundtrip `{FloatText} r :
  checked_request (request r) → readable (run_data r) = true → _deserialize (_serialize r) = Ok r.
Proof.
  intros Hr Hd. unfold _deserialize, _serialize. rewrite loads_canonical_json by done.
  by apply run_roundtrip.
Qed.

(** ** A concrete run *)

Definition stored_request : ResearchRequest :=
  mkResearchRequest "d1" ["c1"] "grain prices" "en" ["en"; "de-AT"] 5 2 ["example.org"] []
    (mkFreshness 365 true) "standard" false "0.4.0".

Definition stored_run : ResearchRun :=
  let source := mkCandidate "s1" "https://example.org/A" "https://example.org/a" "example.org" "Prices" "" 1
    "2026-03-01T12:00:00+00:00" "openai" "1" (Some "2026-02-01") "EXTRACTED" [] "CITED" "SEARCH_RESULT" in
  let risk := mkRisk true ["PROMPT_INJECTION_SUSPECTED"] false false in
  let snapshot := mkSnapshot "s1:snapshot:1" "s1" "https://example.org/A" "https://example.org/a" "example.org"
    "Prices" "2026-03-01T12:00:00+00:00" "2026-03-02T12:00:00+00:00" "sha256:1" 200 "text/plain" "markdown"
    ("12 é" +:+ String bs (String dq EmptyString)) "en" "firecrawl" "2" risk "FETCHED_CONTENT" in
  let evidence := mkEvidenceCandidate "research-1" "t1" "run-1" "d1" ["c1"] "s1" "s1:snapshot:1" "sha256:1"
    (mkAssessment "FRESH" "OFFICIAL" "0.9" "1.0" "NONE" false true ["PROMPT_INJECTION_SUSPECTED"])
    (mkProvenance 1 "grain prices" "openai" "1" "firecrawl" "2" "evidence-policy-v1") risk "DERIVED_CLAIM" in
  let attempt := mkAttempt "a1" "openai" "SEARCH" "FAILED" "2026-03-01T12:00:00+00:00" None 1 (Some "RATE_LIMITED") in
  let error := mkResearchError "RATE_LIMITED" (Some (mkProviderError "openai" "RATE_LIMITED" true (Some 429%Z) (Some "1.5"))) None in
  let event := mkResearchEvent "run-1:research-audit:1" "research.status-transitioned"
    "2026-03-01T12:00:00+00:00" "t1" "ann" CREATED SEARCHING ["STARTED"] "corr" "sha256:2" None
    "research-audit-v1" None None None None None None None None None in
  mkRun "run-1" "t1" "ann" stored_request "sha256:0" "sha256:f" SEARCHING "2026-03-01T12:00:00+00:00"
    "2026-03-01T12:00:01+00:00" "corr" [source] [snapshot] [evidence] [attempt] [error] [event] 1 None
    (Some "summary") None.

Definition exact_floats : FloatText := {| float_repr t := t; float_micros _ := 0%Z |}.

Lemma stored_run_roundtrip_witness :
  _deserialize (H := exact_floats) (_serialize stored_run) = Ok stored_run.
Proof. apply (stored_run_roundtrip (H := exact_floats)); [by split|reflexivity]. Defined.
