(* ===== verification/ResearchEvidence.v ===== *)
(** * Evidence of a research run

    [web_research/evidence_policy.py], [web_research/conflicts.py] and the compiler of
    [web_research/compiler.py]: what a fetched page is worth, which pages contradict each other,
    and the evidence a run hands to a decision. *)

From S2P Require Import Prelude PyVal Identity PyDecimal PyTime Research.
From stdpp Require Import options.

(** [str.casefold] *)
Class CaseFolding := casefold : string → string.

(** [casefold] on ASCII text, an instance. *)
Definition ascii_casefold : CaseFolding := fix go s :=
  match s with
  | EmptyString => EmptyString
  | String c s =>
      let n := Ascii.nat_of_ascii c in
      String (if ((65 <=? n) && (n <=? 90))%nat then Ascii.ascii_of_nat (n + 32) else c) (go s)
  end.

(** ** [evidence_policy.py] *)

Record EvidencePolicy := mkEvidencePolicy {
  primary_domains : list string;
  secondary_domains : list string;
  supported_languages : list string;
  minimum_content_characters : nat
}.

(** The arguments' defaults *)
Definition default_evidence_policy : EvidencePolicy := mkEvidencePolicy [] [] ["de"; "en"] 200.

Definition blocking_reasons : list string :=
  ["PROVENANCE_MISSING"; "CONTENT_TOO_SHORT"; "LOGIN_PAGE"; "PAYWALL_DETECTED";
   "UNSUPPORTED_CONTENT_LANGUAGE"; "PROMPT_INJECTION_SUSPECTED"].

(** [t.astimezone(timezone.utc)] in microseconds; a naive [t] has been given the zone UTC. *)
Definition utc_micros (t : datetime) : result Z :=
  let m := (local_micros t - default 0 (utcoffset t))%Z in
  _ ← require ((86400000000 <=? m)%Z && (m <? 3652060 * 86400000000)%Z) OverflowError
        "date value out of range";
  Ok m.

Definition day_micros : Z := 86400000000.

(** The freshness of a source, with the reason it adds. *)
Definition freshness_of (published : option string) (maximum_age : Z) (now : datetime) :
    result (string * list string) :=
  match published with
  | None | Some "" => Ok ("UNKNOWN", [])
  | Some text =>
      match fromisoformat (replace_Z text) with
      | Raise _ => Ok ("UNKNOWN", ["PUBLICATION_DATE_INVALID"])
      | Ok t =>
          current ← utc_micros now;
          then_ ← utc_micros t;
          if ((current - then_) / day_micros <=? maximum_age)%Z then Ok ("CURRENT", [])
          else Ok ("STALE", ["CONTENT_OUTDATED"])
      end
  end.

(** [round(max(0.2, 1.0 - (max(rank, 1) - 1) * 0.08), 2)] in hundredths, and its [repr]. *)
Definition relevance_hundredths (r : Z) : Z := Z.max 20 (100 - (Z.max r 1 - 1) * 8).
Definition hundredths_repr (h : Z) : string :=
  if (h =? 100)%Z then "1.0"
  else if (h mod 10 =? 0)%Z then "0." +:+ pretty (h / 10)%Z
  else "0." +:+ pretty h.

Section evidence.
Context `{CaseFolding}.

(** The reasons [assess] collects before the freshness of the source. *)
Definition content_reasons (p : EvidencePolicy) (snapshot : SourceSnapshot) (source : SourceCandidate) :
    list string :=
  let when (b : bool) (code : string) := if b then [code] else [] in
  let lowered := casefold (text snapshot) in
  let any := existsb (λ item, str_contains item lowered) in
  when (existsb (String.eqb "") [search_provider source; search_provider_version source;
          snap_provider snapshot; snap_provider_version snapshot; content_hash snapshot])
    "PROVENANCE_MISSING" ++
  when (str_len (str_strip (text snapshot)) <? minimum_content_characters p)%nat "CONTENT_TOO_SHORT" ++
  when (any ["sign in to continue"; "log in to continue"]) "LOGIN_PAGE" ++
  when (any ["subscribe to continue"; "paywall"]) "PAYWALL_DETECTED" ++
  when (negb (str_in (hd "" (split_hyphens "" (casefold (language snapshot))))
               (map casefold (supported_languages p)))) "UNSUPPORTED_CONTENT_LANGUAGE" ++
  when (injection_suspected (snap_risk snapshot)) "PROMPT_INJECTION_SUSPECTED".

(** [EvidencePolicy.assess] *)
Definition assess_source (p : EvidencePolicy) (snapshot : SourceSnapshot) (source : SourceCandidate)
    (maximum_age : Z) (now : datetime) : result EvidenceAssessment :=
  let before := content_reasons p snapshot source in
  '(fresh, dated) ← freshness_of (published_at source) maximum_age now;
  let reasons := before ++ dated in
  let '(type, authority) :=
    if str_in (domain source) (primary_domains p) then ("PRIMARY", "0.9")
    else if str_in (domain source) (secondary_domains p) then ("SECONDARY", "0.6")
    else ("UNKNOWN", "0.2") in
  let usable := negb (existsb (λ r, str_in r blocking_reasons) reasons) in
  let reasons :=
    if usable && bool_decide (reasons = []) then ["EXTERNAL_EVIDENCE_UNVERIFIED"] else reasons in
  Ok (mkAssessment fresh type authority (hundredths_repr (relevance_hundredths (rank source)))
        "NOT_CHECKED" usable true (fromkeys reasons)).

(** ** [conflicts.py] *)

Definition _NEGATION_PAIRS : list (string * string) :=
  [(" is required", " is not required"); (" must ", " must not "); (" shall ", " shall not ");
   (" is allowed", " is prohibited")].
Definition _STOP_WORDS : list string := ["a"; "an"; "and"; "is"; "not"; "the"; "to"; "must"; "shall"].

Definition is_word_char (c : ascii) : bool :=
  let n := Ascii.nat_of_ascii c in
  (((48 <=? n) && (n <=? 57)) || ((97 <=? n) && (n <=? 122)))%nat.

(** [_WORDS.findall]; [word] is the match under way. *)
Fixpoint find_words (word s : string) : list string :=
  let flush := if word =? "" then [] else [word] in
  match s with
  | EmptyString => flush
  | String c s => if is_word_char c then find_words (word +:+ String c EmptyString) s
                  else flush ++ find_words "" s
  end.

Definition _core (value : string) : list string :=
  fromkeys (filter (λ w, w ∉ _STOP_WORDS) (find_words "" (casefold value))).

(** The quotient of two integers is at least [0.5] as a float exactly when it is. *)
Definition _contradicts (left right : string) : bool :=
  let l := " " +:+ casefold left +:+ " " in
  let r := " " +:+ casefold right +:+ " " in
  let explicit := existsb (λ '(positive, negative),
    (str_contains positive l && str_contains negative r) ||
    (str_contains negative l && str_contains positive r)) _NEGATION_PAIRS in
  explicit &&
  (let overlap := length (filter (λ w, w ∈ _core right) (_core left)) in
   negb (Nat.eqb overlap 0) &&
   (Nat.max 1 (Nat.min (length (_core left)) (length (_core right))) <=? 2 * overlap)%nat).

(** [{item.snapshot_id: item for item in run.snapshots}.get(id)], the last one wins. *)
Definition last_snapshot (l : list SourceSnapshot) (id : string) : option SourceSnapshot :=
  List.find (λ s, snapshot_id s =? id) (rev l).

Definition shares_claim (x y : EvidenceCandidate) : bool :=
  existsb (λ c, str_in c (cand_claims y)) (cand_claims x).

Definition conflicting_pair (snaps : list SourceSnapshot) (x y : EvidenceCandidate) : bool :=
  shares_claim x y &&
  match last_snapshot snaps (cand_snapshot x), last_snapshot snaps (cand_snapshot y) with
  | Some sx, Some sy => _contradicts (text sx) (text sy)
  | _, _ => false
  end.

(** The identifiers of the evidence in conflict with another one. *)
Fixpoint conflicting_ids (snaps : list SourceSnapshot) (l : list EvidenceCandidate) : list string :=
  match l with
  | [] => []
  | x :: l =>
      concat (map (λ y, if conflicting_pair snaps x y then [cand_id x; cand_id y] else []) l) ++
      conflicting_ids snaps l
  end.

Definition mark_conflict (ids : list string) (e : EvidenceCandidate) : EvidenceCandidate :=
  if str_in (cand_id e) ids then
    let a := assessment e in
    mkEvidenceCandidate (cand_id e) (cand_tenant e) (cand_run e) (cand_decision e) (cand_claims e)
      (cand_source e) (cand_snapshot e) (cand_hash e)
      (mkAssessment (freshness_status a) (source_type a) (authority_score a) (relevance_score a)
        "CONFLICTING" (usable_for_decision a) true
        (fromkeys (as_reasons a ++ ["CONFLICTING_EVIDENCE"])))
      (provenance e) (cand_risk e) (cand_artifact e)
  else e.

(** [mark_conflicting_evidence] *)
Definition mark_conflicting_evidence (run : ResearchRun) : ResearchRun :=
  match conflicting_ids (snapshots run) (run_evidence run) with
  | [] => run
  | ids =>
      let from := map cand_source (filter (λ e, cand_id e ∈ ids) (run_evidence run)) in
      run_set_sources
        (map (λ s, if str_in (source_id s) from
                   then set_source "REVIEW_REQUIRED" (fromkeys (src_reasons s ++ ["CONFLICTING_EVIDENCE"])) s
                   else s) (sources run))
        (run_set_evidence (snapshots run) (map (mark_conflict ids) (run_evidence run)) run)
  end.
End evidence.

(** ** [compiler.py], [ResearchEvidenceCompiler] *)

Record DecisionEvidence := mkDecisionEvidence {
  de_id : string; de_run : string; de_claims : list string; de_source_ref : string;
  de_status : string; de_observed_at : string; de_hash : string; de_correlation : option string
}.

Definition compiled_status (a : EvidenceAssessment) : string :=
  if conflict_status a =? "CONFLICTING" then "CONFLICTING"
  else if freshness_status a =? "STALE" then "OUTDATED"
  else "UNVERIFIED".

(** The candidate's evidence; [next] without a match raises [StopIteration]. *)
Definition compile_candidate (run : ResearchRun) (c : EvidenceCandidate) : result (list DecisionEvidence) :=
  if negb (usable_for_decision (assessment c)) then Ok []
  else if injection_suspected (cand_risk c) then Ok []
  else
    snapshot ← or_raise (List.find (λ s, snapshot_id s =? cand_snapshot c) (snapshots run)) StopIteration "";
    Ok [mkDecisionEvidence (cand_id c) (research_run_id run) (cand_claims c)
          ("research:" +:+ research_run_id run +:+ ":" +:+ cand_id c)
          (compiled_status (assessment c)) (retrieved_at snapshot) (cand_hash c)
          (Some (run_correlation run))].

Definition compile_run (run : ResearchRun) : result (list DecisionEvidence) :=
  concatM (compile_candidate run) (run_evidence run).
