(* ===== verification/ResearchStore.v ===== *)
(** * The research repository

    [web_research/repository.py] and its migration: the tables of the research runs, with the
    constraints the database enforces. A run in the store is the text [json.dumps] writes of
    [codec.to_data] and [codec.run_from_data] reads back; the model keeps the run. Every method
    is one transaction: an exception leaves the tables as they were. *)

From S2P Require Import Prelude PyVal Json Sha256 AuditChain Research.
From stdpp Require Import options.

(** ** The tables *)

Notation run_key := (string * string)%type.
Notation item_key := (string * string * string)%type.
Notation research_operation := (string * string * string * string)%type.

(** A row of [research_runs]: the columns an update leaves alone, and the run. *)
Record RunRow := mkRunRow { row_decision : string; row_fingerprint : string; run_json : ResearchRun }.

(** A row of [research_source_snapshots]: its columns, and the snapshot. *)
Record SnapshotRow := mkSnapshotRow {
  sn_source : string; sn_url : string; sn_hash : string; sn_expires : string;
  snapshot_json : SourceSnapshot
}.

Record IdempotencyRow := mkIdempotencyRow {
  i_hash : string; i_status : Z; i_response : pyval
}.

Record ResearchTables := mkTables {
  research_runs : list (run_key * RunRow);
  source_rows : gmap item_key SourceCandidate;
  snapshot_rows : gmap item_key SnapshotRow;
  evidence_rows : gmap item_key EvidenceCandidate;
  attempt_rows : gmap item_key ResearchAttempt;
  audit_rows : gmap item_key (nat * ResearchAuditEvent);
  idempotency_rows : gmap research_operation IdempotencyRow;
  budget_usage : gmap run_key Z;
  research_handoffs : gmap (string * string * string * string) string
}.

Definition empty_tables : ResearchTables := mkTables [] ∅ ∅ ∅ ∅ ∅ ∅ ∅ ∅.

Definition set_items (t : ResearchTables) (srcs : gmap item_key SourceCandidate)
    (snaps : gmap item_key SnapshotRow) (evs : gmap item_key EvidenceCandidate)
    (atts : gmap item_key ResearchAttempt) (audits : gmap item_key (nat * ResearchAuditEvent)) :
    ResearchTables :=
  mkTables (research_runs t) srcs snaps evs atts audits (idempotency_rows t) (budget_usage t)
    (research_handoffs t).
Definition set_runs (l : list (run_key * RunRow)) (t : ResearchTables) : ResearchTables :=
  mkTables l (source_rows t) (snapshot_rows t) (evidence_rows t) (attempt_rows t) (audit_rows t)
    (idempotency_rows t) (budget_usage t) (research_handoffs t).
Definition set_budget (m : gmap run_key Z) (t : ResearchTables) : ResearchTables :=
  mkTables (research_runs t) (source_rows t) (snapshot_rows t) (evidence_rows t) (attempt_rows t)
    (audit_rows t) (idempotency_rows t) m (research_handoffs t).
Definition set_idempotency (m : gmap research_operation IdempotencyRow) (t : ResearchTables) :
    ResearchTables :=
  mkTables (research_runs t) (source_rows t) (snapshot_rows t) (evidence_rows t) (attempt_rows t)
    (audit_rows t) m (budget_usage t) (research_handoffs t).
Definition add_handoff (k : string * string * string * string) (hash : string) (t : ResearchTables) :
    ResearchTables :=
  mkTables (research_runs t) (source_rows t) (snapshot_rows t) (evidence_rows t) (attempt_rows t)
    (audit_rows t) (idempotency_rows t) (budget_usage t) (<[k := hash]> (research_handoffs t)).

(** ** Reading *)

Definition find_run (t : ResearchTables) (k : run_key) : option RunRow :=
  snd <$> List.find (λ r, bool_decide (r.1 = k)) (research_runs t).

(** [get] *)
Definition get_run (tenant id : string) (t : ResearchTables) : option ResearchRun :=
  run_json <$> find_run t (tenant, id).

(** [_assert_tenant] *)
Definition _assert_tenant (tenant : string) (run : ResearchRun) : result unit :=
  require (tenant =? run_tenant run) ValueError "TENANT_MISMATCH".

(** The run a repeated request converges to: the one with its fingerprint, or else the first of
    the same decision with the same request at the same hash of the document. *)
Definition fingerprint_match (tenant : string) (run : ResearchRun) (r : run_key * RunRow) : bool :=
  (r.1.1 =? tenant) && (row_fingerprint r.2 =? semantic_fingerprint run).
Definition prior_match (tenant : string) (run : ResearchRun) (r : run_key * RunRow) : bool :=
  (r.1.1 =? tenant) && (row_decision r.2 =? decision_file_id (request run)) &&
  bool_decide (request (run_json r.2) = request run) &&
  (expected_document_hash (run_json r.2) =? expected_document_hash run).
Definition prior_run (tenant : string) (run : ResearchRun) (t : ResearchTables) : option ResearchRun :=
  match List.find (fingerprint_match tenant run) (research_runs t) with
  | Some r => Some (run_json r.2)
  | None => (λ r, run_json r.2) <$> List.find (prior_match tenant run) (research_runs t)
  end.

(** [create_or_get] *)
Definition create_or_get (tenant : string) (run : ResearchRun) (t : ResearchTables) :
    result (ResearchRun * ResearchTables) :=
  _ ← _assert_tenant tenant run;
  match prior_run tenant run t with
  | Some prior => Ok (prior, t)
  | None =>
      let k := (tenant, research_run_id run) in
      _ ← require (bool_decide (find_run t k = None)) IntegrityError "research_runs";
      _ ← require (bool_decide (budget_usage t !! k = None)) IntegrityError "research_budget_usage";
      let row := mkRunRow (decision_file_id (request run)) (semantic_fingerprint run) run in
      Ok (run, set_budget (<[k := 0%Z]> (budget_usage t)) (set_runs (research_runs t ++ [(k, row)]) t))
  end.

(** ** [save] *)

Definition update_run (k : run_key) (run : ResearchRun) (l : list (run_key * RunRow)) :
    list (run_key * RunRow) :=
  map (λ r, if bool_decide (r.1 = k)
            then (r.1, mkRunRow (row_decision r.2) (row_fingerprint r.2) run) else r) l.

(** Rows of the same run with this content. *)
Definition hash_taken {A} (hash : A → string) (k : run_key) (h : string) (m : gmap item_key A) : bool :=
  existsb (λ r, bool_decide (r.1.1 = k) && (hash r.2 =? h)) (map_to_list m).

Definition save_source (k : run_key) (s : SourceCandidate) (t : ResearchTables) : result ResearchTables :=
  Ok (set_items t (<[(k, source_id s) := s]> (source_rows t)) (snapshot_rows t) (evidence_rows t)
        (attempt_rows t) (audit_rows t)).

Definition save_snapshot (k : run_key) (s : SourceSnapshot) (t : ResearchTables) : result ResearchTables :=
  let put row := set_items t (source_rows t) (<[(k, snapshot_id s) := row]> (snapshot_rows t))
                   (evidence_rows t) (attempt_rows t) (audit_rows t) in
  match snapshot_rows t !! (k, snapshot_id s) with
  | Some row => Ok (put (mkSnapshotRow (sn_source row) (sn_url row) (sn_hash row) (expires_at s) s))
  | None =>
      _ ← require (negb (hash_taken sn_hash k (content_hash s) (snapshot_rows t)))
            IntegrityError "research_source_snapshots";
      _ ← require (bool_decide (is_Some (source_rows t !! (k, snap_source s)))) IntegrityError "FOREIGN KEY";
      Ok (put (mkSnapshotRow (snap_source s) (snap_url s) (content_hash s) (expires_at s) s))
  end.

Definition save_evidence (k : run_key) (e : EvidenceCandidate) (t : ResearchTables) :
    result ResearchTables :=
  let put := set_items t (source_rows t) (snapshot_rows t) (<[(k, cand_id e) := e]> (evidence_rows t))
               (attempt_rows t) (audit_rows t) in
  match evidence_rows t !! (k, cand_id e) with
  | Some _ => Ok put
  | None =>
      _ ← require (negb (hash_taken cand_hash k (cand_hash e) (evidence_rows t)))
            IntegrityError "research_evidence_candidates";
      _ ← require (bool_decide (is_Some (source_rows t !! (k, cand_source e))) &&
                   bool_decide (is_Some (snapshot_rows t !! (k, cand_snapshot e))))
            IntegrityError "FOREIGN KEY";
      Ok put
  end.

(** [ON CONFLICT … DO NOTHING]: the first row of an attempt stays. *)
Definition save_attempt (k : run_key) (a : ResearchAttempt) (t : ResearchTables) : result ResearchTables :=
  match attempt_rows t !! (k, attempt_id a) with
  | Some _ => Ok t
  | None => Ok (set_items t (source_rows t) (snapshot_rows t) (evidence_rows t)
                  (<[(k, attempt_id a) := a]> (attempt_rows t)) (audit_rows t))
  end.

Definition sequence_taken (k : run_key) (n : nat) (m : gmap item_key (nat * ResearchAuditEvent)) : bool :=
  existsb (λ r, bool_decide (r.1.1 = k) && Nat.eqb r.2.1 n) (map_to_list m).

Definition save_event (k : run_key) (x : nat * ResearchAuditEvent) (t : ResearchTables) :
    result ResearchTables :=
  match audit_rows t !! (k, re_id x.2) with
  | Some (_, e) =>
      _ ← require (canonical_json (research_event_json e) =? canonical_json (research_event_json x.2))
            ValueError "AUDIT_EVENT_CONFLICT";
      Ok t
  | None =>
      _ ← require (negb (sequence_taken k x.1 (audit_rows t))) IntegrityError "research_audit_events";
      Ok (set_items t (source_rows t) (snapshot_rows t) (evidence_rows t) (attempt_rows t)
            (<[(k, re_id x.2) := x]> (audit_rows t)))
  end.

Fixpoint foldM {A S} (f : A → S → result S) (l : list A) (s : S) : result S :=
  match l with
  | [] => Ok s
  | x :: l => s ← f x s; foldM f l s
  end.

Definition save (tenant : string) (run : ResearchRun) (t : ResearchTables) : result ResearchTables :=
  _ ← _assert_tenant tenant run;
  let k := (tenant, research_run_id run) in
  _ ← require (bool_decide (is_Some (find_run t k))) KeyError "RESEARCH_RUN_NOT_FOUND";
  t ← foldM (save_source k) (sources run) (set_runs (update_run k run (research_runs t)) t);
  t ← foldM (save_snapshot k) (snapshots run) t;
  t ← foldM (save_evidence k) (run_evidence run) t;
  t ← foldM (save_attempt k) (attempts run) t;
  foldM (save_event k) (enumerate 1 (run_events run)) t.

(** ** Lists, snapshots and budget *)

(** [_validate_page] *)
Definition _validate_page (limit offset : Z) : result unit :=
  require ((1 <=? limit)%Z && (limit <=? 100)%Z && (0 <=? offset)%Z) ValueError "INVALID_PAGE_LIMIT".

(** The rows of a run in the order of their identifiers. *)
Definition rows_of {A} (k : run_key) (m : gmap item_key A) : list (string * A) :=
  py_sorted (λ x y, String.leb x.1 y.1)
    (map (λ r, (r.1.2, r.2)) (filter (λ r, r.1.1 = k) (map_to_list m))).
Definition page {A} (limit offset : Z) (l : list A) : list A := take (Z.to_nat limit) (drop (Z.to_nat offset) l).

Definition list_sources (tenant id : string) (limit offset : Z) (t : ResearchTables) :
    result (list SourceCandidate) :=
  _ ← _validate_page limit offset; Ok (page limit offset (rows_of (tenant, id) (source_rows t)).*2).
Definition list_evidence (tenant id : string) (limit offset : Z) (t : ResearchTables) :
    result (list EvidenceCandidate) :=
  _ ← _validate_page limit offset; Ok (page limit offset (rows_of (tenant, id) (evidence_rows t)).*2).
Definition list_run_audit (tenant id : string) (t : ResearchTables) : list ResearchAuditEvent :=
  snd <$> py_sorted (λ x y, (x.1 <=? y.1)%nat) (rows_of (tenant, id) (audit_rows t)).*2.

(** [get_snapshot], the row that expires last; which one of several is not specified by the
    query, the model takes the first of the table. *)
Definition snapshot_live (tenant url current : string) (r : item_key * SnapshotRow) : bool :=
  (r.1.1.1 =? tenant) && (sn_url r.2 =? url) && negb (String.leb (sn_expires r.2) current).
Definition get_snapshot (tenant url current : string) (t : ResearchTables) : option SourceSnapshot :=
  head (map (λ r, snapshot_json r.2)
    (py_sorted (λ x y, String.leb (sn_expires y.2) (sn_expires x.2))
       (filter (snapshot_live tenant url current) (map_to_list (snapshot_rows t))))).

(** [reserve_budget] *)
Definition reserve_budget (tenant id : string) (limit : Z) (t : ResearchTables) :
    result (Z * ResearchTables) :=
  used ← or_raise (budget_usage t !! (tenant, id)) KeyError "RESEARCH_RUN_NOT_FOUND";
  _ ← require (used <? limit)%Z ValueError "BUDGET_EXCEEDED";
  Ok ((used + 1)%Z, set_budget (<[(tenant, id) := (used + 1)%Z]> (budget_usage t)) t).

(** ** Idempotency keys *)

Definition IDEMPOTENCY_IN_PROGRESS_STATUS : Z := 102.
Definition IDEMPOTENCY_IN_PROGRESS_RESPONSE : pyval := PDict [("state", PStr "IN_PROGRESS")].

Definition store_idempotency (k : research_operation) (hash : string) (status : Z) (response : pyval)
    (t : ResearchTables) : result ResearchTables :=
  _ ← require (bool_decide (idempotency_rows t !! k = None)) IntegrityError "research_idempotency";
  Ok (set_idempotency (<[k := mkIdempotencyRow hash status response]> (idempotency_rows t)) t).

(** [None]: the key is the caller's; a pair: the stored response. *)
Definition reserve_idempotency (k : research_operation) (hash : string) (t : ResearchTables) :
    result (option (Z * pyval) * ResearchTables) :=
  match idempotency_rows t !! k with
  | None =>
      Ok (None, set_idempotency (<[k := mkIdempotencyRow hash IDEMPOTENCY_IN_PROGRESS_STATUS
                                          IDEMPOTENCY_IN_PROGRESS_RESPONSE]> (idempotency_rows t)) t)
  | Some row =>
      _ ← require (i_hash row =? hash) ResearchIdempotencyConflict "IDEMPOTENCY_KEY_REUSED";
      _ ← require (negb (i_status row =? IDEMPOTENCY_IN_PROGRESS_STATUS)%Z)
            ResearchIdempotencyInProgress "IDEMPOTENCY_REQUEST_IN_PROGRESS";
      Ok (Some (i_status row, i_response row), t)
  end.

Definition reserved (k : research_operation) (hash : string) (t : ResearchTables) : bool :=
  match idempotency_rows t !! k with
  | Some row => (i_hash row =? hash) && (i_status row =? IDEMPOTENCY_IN_PROGRESS_STATUS)%Z
  | None => false
  end.

Definition complete_idempotency (k : research_operation) (hash : string) (status : Z) (response : pyval)
    (t : ResearchTables) : result ResearchTables :=
  _ ← require (reserved k hash t) RuntimeError "IDEMPOTENCY_COMPLETION_FAILED";
  Ok (set_idempotency (<[k := mkIdempotencyRow hash status response]> (idempotency_rows t)) t).

Definition release_idempotency (k : research_operation) (hash : string) (t : ResearchTables) :
    ResearchTables :=
  if reserved k hash t then set_idempotency (delete k (idempotency_rows t)) t else t.

Definition get_research_idempotency (k : research_operation) (hash : string) (t : ResearchTables) :
    result (option (Z * pyval)) :=
  match idempotency_rows t !! k with
  | None => Ok None
  | Some row =>
      _ ← require (i_hash row =? hash) ResearchIdempotencyConflict "IDEMPOTENCY_KEY_REUSED";
      Ok (Some (i_status row, i_response row))
  end.
