(* ===== verification/Handoff.v ===== *)
(** * The handoff of research evidence to a decision

    [web_research/compiler.py], [SqliteDecisionEvidenceHandoff.attach]: the evidence a research
    run compiled is attached to the decision's document, in the store the decision API uses. *)

From S2P Require Import Prelude PyVal Json Sha256 AuditChain Document DecisionFile DecisionStore Intake Research ResearchEvidence ResearchStore.
From stdpp Require Import options.

(** The tables of the decisions and those of the research runs, in one database. *)
Record Store := mkStore { decision_db : Database; research_db : ResearchTables }.

Definition HANDOFF {A} (reason : string) : result A := raise DecisionEvidenceHandoffRejected reason.

(** [sorted(evidence, key=lambda x: x.evidence_id)] *)
Definition sort_evidence (l : list DecisionEvidence) : list DecisionEvidence :=
  py_sorted (λ x y, String.leb (de_id x) (de_id y)) l.

Definition handoff_payload (l : list DecisionEvidence) : pyval :=
  PList (map (λ e, PList [PStr (de_id e); PStr (de_hash e); PStr (de_status e)]) (sort_evidence l)).

(** [max(item.observed_at for item in evidence)]; texts compare by code points. *)
Definition str_max (s t : string) : string := if String.leb s t then t else s.
Definition latest (l : list DecisionEvidence) : string :=
  match map de_observed_at l with [] => "" | t :: l => foldl str_max t l end.

Definition compiler_service : Actor := mkActor "system:research-compiler" "GENERATOR" "SERVICE".

Definition attached_item (e : DecisionEvidence) : Evidence :=
  mkEvidence (de_id e) (de_claims e) (de_source_ref e) (de_status e) (Some (de_observed_at e))
    (Some (de_hash e)).

(** The items the document does not have yet. *)
Definition new_items (d : Document) (l : list DecisionEvidence) : list Evidence :=
  map attached_item (filter (λ e, de_id e ∉ map evidence_id (evidence d)) l).

Section handoff.
Context `{HashAlg}.

Definition handoff_id (l : list DecisionEvidence) : string :=
  String.substring 0 24 (hexdigest (ascii_json (handoff_payload l))).

Definition handoff_event (tenant id correlation : string) (l : list DecisionEvidence) (d : Document) :
    AuditEvent :=
  mkEvent (id +:+ ":research-handoff:" +:+ handoff_id l) "research.evidence-attached" (latest l)
    compiler_service (Some "DRAFT") "DRAFT" ["EXTERNAL_EVIDENCE_ATTACHED_UNVERIFIED"]
    (payload_hash (handoff_payload l)) (previous_link (Document.audit_events d))
    (Some tenant) (Some correlation) (Some "api").

Definition attached_document (tenant id correlation : string) (l : list DecisionEvidence) (d : Document) :
    Document :=
  mkDocument (schema_version d) (Document.decision_id d) (title d) (doc_description d) (use_case d)
    (status d) (assurance_level d) (created_at d) (latest l) (created_by d) (requested_by d)
    (current_owner d) (canonical_action d) (claims d) (evidence d ++ new_items d l) (assumptions d)
    (constraints d) (policies d) (risks d) (conflicts d) (validation_results d)
    (review_requirements d) (approvals d) (decision_outcome d) (outcome_reasons d)
    (Document.audit_events d ++ [handoff_event tenant id correlation l d]).

(** The run and the correlation all the items share. *)
Definition single_run (l : list DecisionEvidence) : result string :=
  match fromkeys (map de_run l) with [r] => Ok r | _ => HANDOFF "MIXED_RESEARCH_RUNS" end.
Definition single_correlation (l : list DecisionEvidence) : result string :=
  match fromkeys (map de_correlation l) with
  | [Some c] => Ok c
  | _ => HANDOFF "CORRELATION_CONTEXT_REQUIRED"
  end.

Definition knows_claims (d : Document) (l : list DecisionEvidence) : bool :=
  forallb (λ e, forallb (λ c, str_in c (map claim_id (claims d))) (de_claims e)) l.

(** [attach], one transaction. The text the [UPDATE] compares with is the one the same
    transaction has read, so it always matches; [research_handoffs] refers to the run. *)
Definition attach `{ContractValidator} (tenant id expected : string) (l : list DecisionEvidence) (s : Store) :
    result (Document * Store) :=
  match l with
  | [] => HANDOFF "NO_USABLE_EVIDENCE"
  | _ =>
    run_id ← single_run l;
    correlation ← single_correlation l;
    let k := (tenant, id) in
    document ← or_raise (decisions (decision_db s) !! k) DecisionEvidenceHandoffRejected "DECISION_NOT_FOUND";
    let row := (tenant, run_id, id, handoff_id l) in
    if bool_decide (is_Some (research_handoffs (research_db s) !! row)) then Ok (document, s)
    else
      _ ← require (payload_hash (document_json document) =? expected)
            DecisionEvidenceHandoffRejected "DECISION_DOCUMENT_CHANGED";
      _ ← require (status document =? "DRAFT") DecisionEvidenceHandoffRejected "DECISION_NOT_DRAFT";
      _ ← require (knows_claims document l) DecisionEvidenceHandoffRejected "CLAIM_REFERENCE_NOT_FOUND";
      let updated := attached_document tenant id correlation l document in
      _ ← check_document updated;
      db ← _insert_audit k (handoff_event tenant id correlation l document)
             (set_decision k updated (decision_db s));
      _ ← require (bool_decide (is_Some (find_run (research_db s) (tenant, run_id))))
            IntegrityError "FOREIGN KEY";
      Ok (updated, mkStore db (add_handoff row (payload_hash (document_json updated)) (research_db s)))
  end.
End handoff.

