(* ===== verification/CircuitBreaker.v ===== *)
(** * The circuit breaker of the research providers

    [web_research/circuit_breaker.py]: per tenant and provider, the consecutive retryable
    failures and the instant until which calls are refused. Instants are the readings of
    [time.monotonic], as integers. *)

From S2P Require Import Prelude PyVal Identity.
From stdpp Require Import options.

Notation circuit_key := (string * string)%type.

Record CircuitState := mkCircuit { failures : Z; opened_until : Z }.

Record CircuitPolicy := mkCircuitPolicy { failure_threshold : Z; recovery_seconds : Z }.

(** [InMemoryProviderCircuitBreaker.__init__]; [second] is how many units a second has. *)
Definition circuit_policy (second : Z) (p : CircuitPolicy) : result CircuitPolicy :=
  _ ← require ((1 <=? failure_threshold p)%Z && (failure_threshold p <=? 100)%Z &&
               (second <=? recovery_seconds p)%Z && (recovery_seconds p <=? 3600 * second)%Z)
        ValueError "INVALID_CIRCUIT_BREAKER_POLICY";
  Ok p.

Notation Circuits := (gmap circuit_key CircuitState).

(** [_key] *)
Definition _key (tenant provider : string) : result circuit_key :=
  _ ← require (negb (str_blank tenant) && negb (str_blank provider)) ValueError "INVALID_CIRCUIT_CONTEXT";
  Ok (tenant, provider).

Definition before_call (p : CircuitPolicy) (tenant provider : string) (now : Z) : stateful Circuits unit :=
  k ← lift (_key tenant provider);
  s ← gets (lookup k);
  match s with
  | None => mret tt
  | Some s =>
      _ ← guard_with (negb (now <? opened_until s)%Z) ProviderCircuitOpen "PROVIDER_CIRCUIT_OPEN";
      if (opened_until s =? 0)%Z then mret tt
      else modify (<[k := mkCircuit (failure_threshold p - 1) 0]>)
  end.

Definition record_success (tenant provider : string) : stateful Circuits unit :=
  k ← lift (_key tenant provider);
  modify (delete k).

Definition record_failure (p : CircuitPolicy) (tenant provider : string) (is_retryable : bool) (now : Z) :
    stateful Circuits unit :=
  k ← lift (_key tenant provider);
  if negb is_retryable then modify (delete k)
  else modify (λ m,
    let s := default (mkCircuit 0 0) (m !! k) in
    let n := (failures s + 1)%Z in
    <[k := mkCircuit n (if (failure_threshold p <=? n)%Z then (now + recovery_seconds p)%Z
                        else opened_until s)]> m).
