(* ===== verification/UrlPolicy.v ===== *)
(** * Which URLs research may fetch

    [web_research/url_policy.py]: only https, no credentials, the default port, a host that
    resolves to public addresses and passes the domain rules; and the canonical form of the
    URL. The functions of [urllib.parse], [ipaddress] and the [idna] codec that the policy
    calls are a class, the answer of the resolver is an argument. *)

From S2P Require Import Prelude PyVal Identity PyDecimal ResearchEvidence.
From stdpp Require Import options.

(** [urlsplit(value)] and the properties of its result; [port] raises [ValueError]. *)
Record SplitUrl := mkSplit {
  scheme : string; username : option string; password : option string;
  hostname : option string; port : result (option Z); url_path : string; url_query : string;
  netloc : string; url_fragment : string
}.

Record IpAddress := mkIp {
  ip_text : string; ip_version : Z; is_global : bool; is_private : bool; is_loopback : bool;
  is_link_local : bool; is_reserved : bool; is_multicast : bool; is_unspecified : bool
}.

Class UrlLibrary := {
  urlsplit : string → result SplitUrl;
  urlunsplit : string → string → string → string → string → string;
  ip_address : string → option IpAddress;
  ip_network : string → bool;   (** [ip_network(s, strict=True)] accepts [s]. *)
  idna : string → option string;
  parse_qsl : string → list (string * string);
  urlencode : list (string * string) → string
}.

Record SafeUrl := mkSafeUrl { safe_original : string; safe_url : string; safe_domain : string }.

Definition str_endswith (suffix s : string) : bool :=
  let n := String.length s in let m := String.length suffix in
  (m <=? n)%nat && (String.substring (n - m) m s =? suffix).

(** [s.rstrip(".")] *)
Fixpoint drop_dots (l : list string) : list string :=
  match l with c :: l' => if c =? "." then drop_dots l' else l | [] => [] end.
Definition rstrip_dots (s : string) : string := str_join "" (rev (drop_dots (rev (code_points s)))).

(** ** [posixpath.normpath] *)
Fixpoint split_slashes (acc s : string) : list string :=
  match s with
  | EmptyString => [acc]
  | String c s => if Ascii.eqb c "/" then acc :: split_slashes "" s
                  else split_slashes (acc +:+ String c EmptyString) s
  end.

(** The components kept, the last one first. *)
Fixpoint normal_components (rooted : bool) (kept l : list string) : list string :=
  match l with
  | [] => kept
  | c :: l =>
      if str_in c [""; "."] then normal_components rooted kept l
      else if negb (c =? "..") || (negb rooted && bool_decide (kept = [])) ||
              match kept with k :: _ => k =? ".." | [] => false end
      then normal_components rooted (c :: kept) l
      else normal_components rooted (tl kept) l
  end.

Definition normpath (path : string) : string :=
  if path =? "" then "."
  else
    let rooted := str_startswith "/" path in
    let root := if str_startswith "//" path && negb (str_startswith "///" path) then "//"
                else if rooted then "/" else "" in
    let p := root +:+ str_join "/" (rev (normal_components rooted [] (split_slashes "" path))) in
    if p =? "" then "." else p.

Section policy.
Context `{CaseFolding} `{UrlLibrary}.

Definition normalize_domain (value : string) : result string :=
  let candidate := casefold (rstrip_dots (str_strip value)) in
  _ ← require (negb ((candidate =? "") || str_contains "/" candidate || str_contains "@" candidate))
        ValueError "INVALID_DOMAIN";
  or_raise (idna candidate) ValueError "INVALID_DOMAIN".

Definition _matches (domain rule : string) : bool :=
  (domain =? rule) || str_endswith ("." +:+ rule) domain.

Definition _is_public (value : string) : bool :=
  match ip_address value with
  | None => false
  | Some a =>
      is_global a && negb (is_private a || is_loopback a || is_link_local a || is_reserved a ||
                           is_multicast a || is_unspecified a)
  end.

(** [PublicUrlPolicy]: its rules, normalized by the constructor and by [for_domains]. *)
Record PublicUrlPolicy := mkUrlPolicy { _allowed : list string; _blocked : list string }.

Definition for_domains (allowed blocked : list string) : result PublicUrlPolicy :=
  allowed ← mapM normalize_domain allowed;
  blocked ← mapM normalize_domain blocked;
  Ok (mkUrlPolicy allowed blocked).

Definition REJECT {A} (reason : string) : result A := raise UrlPolicyRejected reason.

(** The [except ValueError] around [normalize_domain(parsed.hostname)] and [parsed.port]. *)
Definition host_and_port (host : string) (port : result (option Z)) : result (string * option Z) :=
  match (d ← normalize_domain host; p ← port; Ok (d, p)) with
  | Raise e => if is_value_error (exn_cls e) then REJECT "URL_NOT_PUBLIC" else Raise e
  | r => r
  end.

(** The addresses of a domain: itself when it is one, the resolver's answer otherwise. *)
Definition addresses (resolve : string → result (list string)) (domain : string) : result (list string) :=
  match ip_address domain with Some a => Ok [ip_text a] | None => resolve domain end.

(** The checks of [validate]; the domain when they pass. *)
Definition admit_url (p : PublicUrlPolicy) (resolve : string → result (list string)) (parsed : SplitUrl) :
    result string :=
  _ ← require (casefold (scheme parsed) =? "https") UrlPolicyRejected "URL_SCHEME_NOT_ALLOWED";
  _ ← require (bool_decide (username parsed = None) && bool_decide (password parsed = None))
        UrlPolicyRejected "URL_CREDENTIALS_NOT_ALLOWED";
  host ← match hostname parsed with
         | None | Some "" => REJECT "URL_NOT_PUBLIC"
         | Some h => Ok h
         end;
  '(domain, port) ← host_and_port host (port parsed);
  _ ← require (bool_decide (port = None) || bool_decide (port = Some 443%Z))
        UrlPolicyRejected "URL_PORT_NOT_ALLOWED";
  _ ← require (negb (str_in domain ["localhost"; "localhost.localdomain"] ||
                     str_endswith ".localhost" domain)) UrlPolicyRejected "URL_NOT_PUBLIC";
  _ ← require (negb (existsb (_matches domain) (_blocked p))) UrlPolicyRejected "SOURCE_BLOCKED";
  _ ← require (bool_decide (_allowed p = []) || existsb (_matches domain) (_allowed p))
        UrlPolicyRejected "SOURCE_NOT_ALLOWED";
  literal ← addresses resolve domain;
  _ ← require (negb (bool_decide (literal = [])) && forallb _is_public literal)
        UrlPolicyRejected "URL_NOT_PUBLIC";
  Ok domain.

Definition canonical_path (path : string) : string :=
  let p := normpath (if path =? "" then "/" else path) in
  let p := if str_endswith "/" path && negb (str_endswith "/" p) then p +:+ "/" else p in
  if str_startswith "/" p then p else "/" +:+ p.

Definition pair_leb (x y : string * string) : bool :=
  if x.1 =? y.1 then String.leb x.2 y.2 else String.leb x.1 y.1.

Definition canonical_query (query : string) : string :=
  urlencode (py_sorted pair_leb (filter (λ kv,
    str_startswith "utm_" (casefold kv.1) = false ∧ casefold kv.1 ∉ ["gclid"; "fbclid"]) (parse_qsl query))).

(** [urlunsplit(("https", netloc, path, query, ""))] *)
Definition canonical_of (parsed : SplitUrl) (domain : string) : string :=
  let netloc := match ip_address domain with
                | Some a => if (ip_version a =? 6)%Z then "[" +:+ domain +:+ "]" else domain
                | None => domain
                end in
  let query := canonical_query (url_query parsed) in
  "https://" +:+ netloc +:+ canonical_path (url_path parsed) +:+
    (if query =? "" then "" else "?" +:+ query).

(** [validate] *)
Definition validate_url (p : PublicUrlPolicy) (resolve : string → result (list string)) (value : string) :
    result SafeUrl :=
  parsed ← urlsplit value;
  domain ← admit_url p resolve parsed;
  Ok (mkSafeUrl value (canonical_of parsed domain) domain).
End policy.
