(* ===== verification/Config.v ===== *)
(** * The configuration of a deployment

    [production/contracts.py], [provenance/config.py] and [production/config.py]: what a
    configuration is made of, what each of its parts refuses, and how it is read from JSON. Only
    a configuration that satisfies the residency policy of its operating mode is accepted for
    staging and production. *)

From S2P Require Import Prelude PyVal JsonNumber JsonLoads Identity PyTime PyDecimal ResearchEvidence Jobs UrlPolicy.
From stdpp Require Import options.

(** ** Values of the configuration file *)

(** [int(s)]: an optional sign, digits with single underscores between them. *)
Fixpoint int_text (after_digit : bool) (s : string) : bool :=
  match s with
  | EmptyString => after_digit
  | String c s => if num_digit c then int_text true s
                  else Ascii.eqb c "_" && after_digit && int_text false s
  end.
Definition int_of_str (s : string) : result Z :=
  let '(neg, t) := read_sign (str_strip s) in
  _ ← require (int_text false t) ValueError "invalid literal for int()";
  let z := dec_val 0 (without_underscores t) in
  Ok (if neg then - z else z)%Z.

(** [int(v)]; a float is read from its [repr], which is exact below [2^53]. *)
Definition py_int (v : pyval) : result Z :=
  match v with
  | PInt z => Ok z
  | PBool b => Ok (if b then 1 else 0)%Z
  | PStr s => int_of_str s
  | PFloat t => d ← decimal_of_str t; decimal_int d
  | _ => raise TypeError "int() argument"
  end.

(** [raw.get(key)] on the items of a mapping *)
Definition mapping := list (string * pyval).
Definition lookup_or (raw : mapping) (key : string) (dflt : pyval) : pyval := default dflt (assoc key raw).

Definition invalid {A} (key : string) : result A := raise ValueError ("INVALID_CONFIG_VALUE:" +:+ key).

Definition _required (raw : mapping) (key : string) : result string :=
  match lookup_or raw key PNone with
  | PStr s => Ok s
  | _ => raise ValueError ("CONFIG_VALUE_REQUIRED:" +:+ key)
  end.

Definition _required_nonempty (raw : mapping) (key : string) : result string :=
  v ← _required raw key;
  let v := str_strip v in
  if v =? "" then invalid key else Ok v.

Definition _optional (raw : mapping) (key : string) : result (option string) :=
  match lookup_or raw key PNone with PNone => Ok None | PStr s => Ok (Some s) | _ => invalid key end.

Definition _optional_string (raw : mapping) (key : string) : result (option string) :=
  match lookup_or raw key PNone with
  | PNone => Ok None
  | PStr s => if str_blank s then invalid key else Ok (Some (str_strip s))
  | _ => invalid key
  end.

(** A list whose members are all strings. *)
Fixpoint strings (l : list pyval) : option (list string) :=
  match l with
  | [] => Some []
  | PStr s :: l => r ← strings l; Some (s :: r)
  | _ => None
  end.
Definition string_list (v : pyval) : option (list string) :=
  match v with PList l => strings l | _ => None end.

Definition _string_tuple (raw : mapping) (key : string) : result (list string) :=
  match string_list (lookup_or raw key PNone) with
  | None => invalid key
  | Some l =>
      let l := map str_strip l in
      if existsb (λ s, s =? "") l || negb (bool_decide (NoDup l)) then invalid key else Ok l
  end.

Definition _boolean (raw : mapping) (key : string) (dflt : bool) : result bool :=
  match lookup_or raw key (PBool dflt) with PBool b => Ok b | _ => invalid key end.

Definition _required_mapping (raw : mapping) (key : string) : result mapping :=
  match lookup_or raw key PNone with PDict d => Ok d | _ => invalid key end.

(** [set(raw).difference(fields)] is empty. *)
Definition known_fields (fields : list string) (raw : mapping) : bool :=
  forallb (λ kv, str_in kv.1 fields) raw.

(** ** [contracts.py] *)

Inductive EnvironmentProfile := DEVELOPMENT | TEST | STAGING | PRODUCTION.
Inductive OperatingMode := DEVELOPMENT_PROVIDER_INTEGRATION | LOCAL | EU_MANAGED | CONTROLLED_PILOT.
Inductive DatabaseBackend := SQLITE | POSTGRESQL.
Inductive AuthenticationMode := STATIC | OIDC.
Inductive SecretProviderMode := ENVIRONMENT | EXTERNAL.

#[export] Instance profile_eq_dec : EqDecision EnvironmentProfile.
Proof. solve_decision. Defined.
#[export] Instance operating_mode_eq_dec : EqDecision OperatingMode.
Proof. solve_decision. Defined.
#[export] Instance backend_eq_dec : EqDecision DatabaseBackend.
Proof. solve_decision. Defined.
#[export] Instance authentication_eq_dec : EqDecision AuthenticationMode.
Proof. solve_decision. Defined.
#[export] Instance secret_mode_eq_dec : EqDecision SecretProviderMode.
Proof. solve_decision. Defined.

Definition profile_value (p : EnvironmentProfile) : string :=
  match p with DEVELOPMENT => "development" | TEST => "test" | STAGING => "staging" | PRODUCTION => "production" end.

(** A member of an enumeration by its value. *)
Definition enum_of {A} (members : list (string * A)) (value : string) : result A :=
  or_raise (assoc value members) ValueError value.

Definition environment_profile : string → result EnvironmentProfile := enum_of
  [("development", DEVELOPMENT); ("test", TEST); ("staging", STAGING); ("production", PRODUCTION)].
Definition operating_mode_of : string → result OperatingMode := enum_of
  [("development-provider-integration", DEVELOPMENT_PROVIDER_INTEGRATION); ("local", LOCAL);
   ("eu-managed", EU_MANAGED); ("controlled-pilot", CONTROLLED_PILOT)].
Definition database_backend_of : string → result DatabaseBackend := enum_of
  [("sqlite", SQLITE); ("postgresql", POSTGRESQL)].
Definition authentication_mode_of : string → result AuthenticationMode := enum_of
  [("static", STATIC); ("oidc", OIDC)].
Definition secret_provider_of : string → result SecretProviderMode := enum_of
  [("environment", ENVIRONMENT); ("external", EXTERNAL)].

(** [SecretReference]; [_ID] is the pattern of identifiers. *)
Definition _ID (s : string) : bool :=
  match s with
  | String c rest =>
      is_alnum c && str_forallb (λ c, is_alnum c || Ascii.eqb c "." || Ascii.eqb c "_" ||
                                      Ascii.eqb c ":" || Ascii.eqb c "-") rest &&
      (String.length rest <=? 255)%nat
  | EmptyString => false
  end.
Definition secret_reference (name : string) : result string :=
  _ ← require (_ID name) ValueError "INVALID_SECRET_REFERENCE"; Ok name.

Record OidcPolicy := mkOidcPolicy {
  issuer : string; audience : string; algorithms : list string; tenant_claim : string;
  actor_id_claim : string; role_claim : string; actor_kind_claim : string;
  organization_claim : option string; groups_claim : option string; clock_skew_seconds : Z;
  authorized_parties : list string; required_scopes : list string; allow_insecure_loopback : bool
}.

Record OidcRuntimeConfig := mkOidcConfig { oidc_policy : OidcPolicy; jwks_uri : string }.

(** [bool(value)] of an optional text *)
Definition text_truthy (o : option string) : bool :=
  match o with Some s => negb (s =? "") | None => false end.

Section oidc.
Context `{UrlLibrary}.

Definition is_loopback_http (u : SplitUrl) : bool :=
  (scheme u =? "http") && match hostname u with Some h => str_in h ["127.0.0.1"; "::1"; "localhost"] | None => false end.

(** [OidcPolicy.__post_init__] *)
Definition oidc_policy_of (p : OidcPolicy) : result OidcPolicy :=
  u ← urlsplit (issuer p);
  _ ← require (negb ((negb (scheme u =? "https") && negb (allow_insecure_loopback p && is_loopback_http u)) ||
                     negb (text_truthy (hostname u)) || negb (bool_decide (username u = None)) ||
                     negb (bool_decide (password u = None)) || negb (url_query u =? "") ||
                     negb (url_fragment u =? "") || str_blank (audience p)))
        ValueError "INVALID_OIDC_TRUST_CONFIGURATION";
  _ ← require (negb (bool_decide (algorithms p = [])) && forallb (λ a, str_in a ["RS256"; "ES256"]) (algorithms p))
        ValueError "INVALID_OIDC_ALGORITHM_ALLOWLIST";
  _ ← require (negb (existsb str_blank [tenant_claim p; actor_id_claim p; role_claim p; actor_kind_claim p]))
        ValueError "INVALID_OIDC_CLAIM_MAPPING";
  _ ← require ((0 <=? clock_skew_seconds p)%Z && (clock_skew_seconds p <=? 120)%Z)
        ValueError "INVALID_OIDC_CLOCK_SKEW";
  _ ← require (negb (existsb (λ s, str_blank s || (256 <? str_len s)%nat) (authorized_parties p)))
        ValueError "INVALID_OIDC_AUTHORIZED_PARTY";
  _ ← require (negb (existsb (λ s, str_blank s || (128 <? str_len s)%nat) (required_scopes p)))
        ValueError "INVALID_OIDC_REQUIRED_SCOPE";
  Ok p.

(** [(scheme, hostname, port)]: evaluating the port of either may raise. *)
Definition same_origin (u v : SplitUrl) : result bool :=
  p ← port u; q ← port v;
  Ok ((scheme u =? scheme v) && bool_decide (hostname u = hostname v) && bool_decide (p = q)).

(** [OidcRuntimeConfig.__post_init__] *)
Definition oidc_runtime_config (c : OidcRuntimeConfig) : result OidcRuntimeConfig :=
  u ← urlsplit (jwks_uri c);
  i ← urlsplit (issuer (oidc_policy c));
  if (negb (scheme u =? "https") && negb (allow_insecure_loopback (oidc_policy c) && is_loopback_http u)) ||
     negb (text_truthy (hostname u)) || negb (bool_decide (username u = None)) ||
     negb (bool_decide (password u = None)) || negb (url_query u =? "") || negb (url_fragment u =? "")
  then raise ValueError "INVALID_OIDC_JWKS_URI"
  else
    same ← same_origin u i;
    _ ← require same ValueError "INVALID_OIDC_JWKS_URI";
    Ok c.
End oidc.

(** ** [provenance/config.py] *)

Inductive SigningMode := SIGNING_DEVELOPMENT | SIGNING_CONTROLLED_PILOT | PRODUCTION_ADAPTER.
Definition signing_mode : string → result SigningMode := enum_of
  [("development", SIGNING_DEVELOPMENT); ("controlled-pilot", SIGNING_CONTROLLED_PILOT);
   ("production-adapter", PRODUCTION_ADAPTER)].

Record SigningSettings := mkSigning { signing_mode_of : SigningMode; key_id : string; key_reference : string }.

(** [PurePosixPath] and [PureWindowsPath]: whether a path is absolute, and its parts. *)
Class PurePaths := {
  posix_is_absolute : string → bool; posix_parts : string → list string;
  windows_is_absolute : string → bool; windows_parts : string → list string
}.

Section signing.
Context `{PurePaths}.

Definition signing_settings (value : mapping) : result SigningSettings :=
  _ ← require (known_fields ["mode"; "key_id"; "key_reference"] value &&
               forallb (λ k, bool_decide (is_Some (assoc k value))) ["mode"; "key_id"; "key_reference"])
        ValueError "INVALID_SIGNING_CONFIGURATION";
  mode ← match signing_mode (py_str (lookup_or value "mode" PNone)) with
         | Ok m => Ok m | Raise _ => raise ValueError "INVALID_SIGNING_MODE" end;
  match lookup_or value "key_id" PNone, lookup_or value "key_reference" PNone with
  | PStr key, PStr reference =>
      _ ← require ((1 <=? str_len key)%nat && (str_len key <=? 128)%nat &&
                   (1 <=? str_len reference)%nat && (str_len reference <=? 512)%nat)
            ValueError "INVALID_SIGNING_CONFIGURATION";
      _ ← match mode with
          | SIGNING_DEVELOPMENT =>
              require (str_startswith ".secrets/" reference) ValueError "DEVELOPMENT_SIGNING_REFERENCE_REQUIRED"
          | SIGNING_CONTROLLED_PILOT =>
              require ((posix_is_absolute reference || windows_is_absolute reference) &&
                       negb (str_in ".secrets" (posix_parts reference ++ windows_parts reference)))
                ValueError "PILOT_SECRET_REFERENCE_REQUIRED"
          | PRODUCTION_ADAPTER =>
              require (existsb (λ p, str_startswith p reference) ["kms-ref://"; "hsm-ref://"; "vault-ref://"])
                ValueError "EXTERNAL_SIGNING_REFERENCE_REQUIRED"
          end;
      Ok (mkSigning mode key reference)
  | _, _ => raise ValueError "INVALID_SIGNING_CONFIGURATION"
  end.
End signing.

(** ** [production/config.py] *)

Definition _EU_COUNTRY_CODES : list string :=
  ["AT"; "BE"; "BG"; "CY"; "CZ"; "DE"; "DK"; "EE"; "ES"; "FI"; "FR"; "GR"; "HR"; "HU"; "IE"; "IT"; "LT";
   "LU"; "LV"; "MT"; "NL"; "PL"; "PT"; "RO"; "SE"; "SI"; "SK"].
Definition _RESIDENCY_FIELDS : list string :=
  ["storage_locations"; "processing_locations"; "backup_locations"; "support_access_locations";
   "external_processing_locations"; "evidence_refs"].
Definition _PROVIDER_EGRESS_FIELDS : list string :=
  ["provider"; "service"; "host"; "processing_location"; "confirmed_processing_locations"; "tenant_ids";
   "attestation"].
Definition _ATTESTATION_FIELDS : list string :=
  ["evidence_id"; "evidence_type"; "evidence_ref"; "issuer"; "issued_at"; "valid_from"; "expires_at";
   "verification_status"; "verified_at"; "verified_by"; "document_hash"].
Definition _EVIDENCE_TYPES : list string :=
  ["DPA"; "SIGNED_PROVIDER_ATTESTATION"; "TECHNICAL_PROVIDER_CONFIGURATION"; "OPERATOR_SELF_DECLARATION"].
Definition _VERIFICATION_STATUSES : list string := ["VERIFIED"; "UNVERIFIED"; "EXPIRED"; "REVOKED"].
Definition _CONTROLLED_PILOT_FIELDS : list string :=
  ["public_base_url"; "oidc_redirect_uri"; "post_logout_redirect_uri"; "allowed_hosts"; "trusted_proxy_cidrs";
   "audit_persistence"; "backup_configuration_ref"; "lifecycle_pseudonymization_secret";
   "session_pepper_secret"; "session_envelope_key_secret"; "export_signing"; "retention_days"; "pilot_tenant";
   "health_path"; "readiness_path"].
Definition placeholders : list string := ["example"; "default"; "placeholder"; "changeme"].

Record ControlledPilotConfig := mkPilot {
  public_base_url : string; oidc_redirect_uri : string; post_logout_redirect_uri : string;
  allowed_hosts : list string; trusted_proxy_cidrs : list string; audit_persistence : bool;
  backup_configuration_ref : string; lifecycle_pseudonymization_secret : string;
  session_pepper_secret : string; session_envelope_key_secret : string;
  export_signing : SigningSettings; retention_days : Z; pilot_tenant : string;
  health_path : string; readiness_path : string
}.

Record DataResidencyPolicy := mkResidency {
  storage_locations : list string; processing_locations : list string; backup_locations : list string;
  support_access_locations : list string; external_processing_locations : list string;
  evidence_refs : list string
}.

Record ProviderAttestation := mkAttestation {
  evidence_id : string; evidence_type : string; evidence_ref : string; att_issuer : string;
  issued_at : string; valid_from : string; att_expires_at : string; verification_status : string;
  verified_at : option string; verified_by : option string; document_hash : option string
}.

Record ProviderEgress := mkEgress {
  provider : string; service : string; host : string; processing_location : string;
  confirmed_processing_locations : list string; tenant_ids : list string;
  attestation : ProviderAttestation
}.

Record RuntimeConfig := mkConfig {
  profile : EnvironmentProfile; operating_mode : option OperatingMode;
  data_residency : option DataResidencyPolicy; database_backend : DatabaseBackend;
  authentication_mode : AuthenticationMode; secret_provider : SecretProviderMode;
  database_dsn_secret : string; worker_database_dsn_secret : string;
  oidc : option OidcRuntimeConfig; egress_allowed_hosts : list string;
  provider_egress : list ProviderEgress; controlled_pilot : option ControlledPilotConfig;
  worker_policy : JobPolicy
}.

(** [s.upper()] *)
Class Uppercase := str_upper : string → string.

(** [DataResidencyPolicy.validate_for] *)
Definition validate_for (r : DataResidencyPolicy) (mode : OperatingMode) : result unit :=
  let required := [storage_locations r; processing_locations r; backup_locations r; support_access_locations r] in
  let bound_to (l : list string) := forallb (λ x, bool_decide (x = l)) required in
  _ ← require (forallb (λ l, negb (bool_decide (l = []))) required) ValueError "DATA_LOCATION_REQUIRED";
  match mode with
  | DEVELOPMENT_PROVIDER_INTEGRATION =>
      _ ← require (bound_to ["local-development"]) ValueError "DEVELOPMENT_DATA_BOUNDARY_REQUIRED";
      require (bool_decide (external_processing_locations r = ["external-unspecified"]))
        ValueError "DEVELOPMENT_EXTERNAL_LOCATION_REQUIRED"
  | LOCAL =>
      _ ← require (bound_to ["local"]) ValueError "LOCAL_DATA_BOUNDARY_REQUIRED";
      require (forallb (λ l, l =? "local") (external_processing_locations r))
        ValueError "LOCAL_PROVIDER_PROCESSING_REQUIRED"
  | _ =>
      _ ← require (forallb (λ l, str_in l _EU_COUNTRY_CODES)
                     (concat required ++ external_processing_locations r)) ValueError "EU_DATA_LOCATION_REQUIRED";
      _ ← require (negb (bool_decide (evidence_refs r = []))) ValueError "EU_RESIDENCY_EVIDENCE_REQUIRED";
      require (forallb (str_startswith "https://") (evidence_refs r))
        ValueError "INVALID_RESIDENCY_EVIDENCE_REFERENCE"
  end.

Section config.
Context `{CaseFolding} `{Uppercase} `{UrlLibrary} `{PurePaths}.

Definition host_key (h : string) : string := rstrip_dots (casefold h).

(** [ControlledPilotConfig.__post_init__], which normalizes the hosts. *)
Definition controlled_pilot_config (c : ControlledPilotConfig) : result ControlledPilotConfig :=
  base ← urlsplit (public_base_url c);
  redirect ← urlsplit (oidc_redirect_uri c);
  logout ← urlsplit (post_logout_redirect_uri c);
  let parsed := [base; redirect; logout] in
  _ ← require (forallb (λ u, (scheme u =? "https") && text_truthy (hostname u)) parsed)
        ValueError "PILOT_HTTPS_REQUIRED";
  _ ← require (negb (existsb (λ u, str_in (default "" (hostname u)) ["localhost"; "127.0.0.1"; "::1"]) parsed))
        ValueError "PILOT_LOOPBACK_FORBIDDEN";
  _ ← require (negb (existsb (λ u, text_truthy (username u) || text_truthy (password u) ||
                                   negb (url_fragment u =? "")) parsed)) ValueError "INVALID_PILOT_PUBLIC_URL";
  let hosts := map host_key (allowed_hosts c) in
  _ ← require (negb (bool_decide (hosts = [])) && negb (existsb (λ h, h =? "") hosts))
        ValueError "PILOT_ALLOWED_HOSTS_REQUIRED";
  _ ← require (match hostname base with Some h => str_in (host_key h) hosts | None => false end)
        ValueError "PILOT_PUBLIC_HOST_NOT_ALLOWED";
  _ ← require (bool_decide (hostname redirect = hostname base) && bool_decide (hostname logout = hostname base))
        ValueError "PILOT_REDIRECT_HOST_MISMATCH";
  _ ← require (negb (bool_decide (trusted_proxy_cidrs c = []))) ValueError "PILOT_TRUSTED_PROXY_REQUIRED";
  _ ← require (forallb ip_network (trusted_proxy_cidrs c)) ValueError "INVALID_PILOT_TRUSTED_PROXY";
  _ ← require (audit_persistence c) ValueError "PILOT_AUDIT_PERSISTENCE_REQUIRED";
  let backup := casefold (str_strip (backup_configuration_ref c)) in
  _ ← require (negb ((backup =? "") || str_in backup placeholders)) ValueError "PILOT_BACKUP_CONFIGURATION_REQUIRED";
  _ ← require ((1 <=? retention_days c)%Z && (retention_days c <=? 3650)%Z) ValueError "PILOT_RETENTION_REQUIRED";
  _ ← require (negb (str_blank (pilot_tenant c))) ValueError "PILOT_TENANT_REQUIRED";
  _ ← require ((health_path c =? "/health/live") && (readiness_path c =? "/health/ready"))
        ValueError "PILOT_HEALTH_PROBES_REQUIRED";
  Ok (mkPilot (public_base_url c) (oidc_redirect_uri c) (post_logout_redirect_uri c) hosts
        (trusted_proxy_cidrs c) (audit_persistence c) (backup_configuration_ref c)
        (lifecycle_pseudonymization_secret c) (session_pepper_secret c) (session_envelope_key_secret c)
        (export_signing c) (retention_days c) (pilot_tenant c) (health_path c) (readiness_path c)).

(** [set(l) == set(m)] *)
Definition same_set (l m : list string) : bool :=
  forallb (λ x, str_in x m) l && forallb (λ x, str_in x l) m.

(** The location of a provider of an accepted configuration. *)
Definition provider_location (mode : OperatingMode) (r : DataResidencyPolicy) (e : ProviderEgress) : result unit :=
  _ ← require (negb (bool_decide (mode = LOCAL)) || (processing_location e =? "local"))
        ValueError "LOCAL_PROVIDER_PROCESSING_REQUIRED";
  _ ← require (negb (bool_decide (mode = EU_MANAGED)) || str_in (processing_location e) _EU_COUNTRY_CODES)
        ValueError "EU_PROVIDER_PROCESSING_REQUIRED";
  require (str_in (processing_location e) (external_processing_locations r))
    ValueError "PROVIDER_PROCESSING_LOCATION_UNDECLARED".

Fixpoint all_ok {A} (f : A → result unit) (l : list A) : result unit :=
  match l with [] => Ok tt | x :: l => _ ← f x; all_ok f l end.

(** [RuntimeConfig.__post_init__] *)
Definition is_deployed (p : EnvironmentProfile) : bool :=
  match p with STAGING | PRODUCTION => true | _ => false end.

Definition validate_deployed (c : RuntimeConfig) : result unit :=
  mode ← or_raise (operating_mode c) ValueError "OPERATING_MODE_REQUIRED";
  residency ← or_raise (data_residency c) ValueError "DATA_RESIDENCY_POLICY_REQUIRED";
  _ ← require (negb (bool_decide (mode = DEVELOPMENT_PROVIDER_INTEGRATION)))
        ValueError "DEVELOPMENT_PROVIDER_PROFILE_FORBIDDEN";
  _ ← validate_for residency mode;
  _ ← require (bool_decide (database_backend c = POSTGRESQL)) ValueError "PRODUCTION_REQUIRES_POSTGRESQL";
  oidc ← match authentication_mode c, oidc c with
         | OIDC, Some o => Ok o | _, _ => raise ValueError "PRODUCTION_REQUIRES_OIDC" end;
  let p := oidc_policy oidc in
  _ ← require (negb (allow_insecure_loopback p)) ValueError "PRODUCTION_OIDC_HTTPS_REQUIRED";
  _ ← require (negb (bool_decide (authorized_parties p = []))) ValueError "OIDC_AUTHORIZED_PARTIES_REQUIRED";
  _ ← require (negb (bool_decide (required_scopes p = []))) ValueError "OIDC_REQUIRED_SCOPES_REQUIRED";
  _ ← require (bool_decide (secret_provider c = EXTERNAL)) ValueError "EXTERNAL_SECRET_PROVIDER_REQUIRED";
  _ ← require (negb (bool_decide (egress_allowed_hosts c = []))) ValueError "EGRESS_ALLOWLIST_REQUIRED";
  _ ← require (negb (bool_decide (provider_egress c = []))) ValueError "PROVIDER_EGRESS_REQUIRED";
  let hosts := map host (provider_egress c) in
  _ ← require (bool_decide (NoDup hosts)) ValueError "DUPLICATE_PROVIDER_EGRESS_HOST";
  _ ← require (same_set hosts (map host_key (egress_allowed_hosts c))) ValueError "PROVIDER_EGRESS_ALLOWLIST_MISMATCH";
  all_ok (provider_location mode residency) (provider_egress c).

Definition validate_undeployed (c : RuntimeConfig) : result unit :=
  match operating_mode c, data_residency c with
  | None, None => Ok tt
  | mode, residency =>
      _ ← require (bool_decide (mode = Some DEVELOPMENT_PROVIDER_INTEGRATION))
            ValueError "DEVELOPMENT_PROVIDER_PROFILE_REQUIRED";
      residency ← or_raise residency ValueError "DATA_RESIDENCY_POLICY_REQUIRED";
      _ ← validate_for residency DEVELOPMENT_PROVIDER_INTEGRATION;
      _ ← require (same_set (map host (provider_egress c)) (map host_key (egress_allowed_hosts c)))
            ValueError "PROVIDER_EGRESS_ALLOWLIST_MISMATCH";
      require (forallb (λ e, processing_location e =? "external-unspecified") (provider_egress c))
        ValueError "DEVELOPMENT_EXTERNAL_LOCATION_REQUIRED"
  end.

Definition runtime_config (c : RuntimeConfig) : result RuntimeConfig :=
  _ ← (if bool_decide (operating_mode c = Some CONTROLLED_PILOT)
       then require (bool_decide (is_Some (controlled_pilot c))) ValueError "CONTROLLED_PILOT_CONFIGURATION_REQUIRED"
       else require (bool_decide (controlled_pilot c = None)) ValueError "CONTROLLED_PILOT_PROFILE_REQUIRED");
  _ ← (if is_deployed (profile c) then validate_deployed c else validate_undeployed c);
  Ok c.

(** ** Reading a configuration *)

Definition _locations (raw : mapping) (key : string) : result (list string) :=
  l ← _string_tuple raw key;
  Ok (map (λ v, if str_in v ["local"; "local-development"; "external-unspecified"] then v else str_upper v) l).

Definition _residency_policy (raw : pyval) : result DataResidencyPolicy :=
  match raw with
  | PDict raw =>
      _ ← require (known_fields _RESIDENCY_FIELDS raw) ValueError "UNKNOWN_DATA_RESIDENCY_FIELD";
      storage ← _locations raw "storage_locations";
      processing ← _locations raw "processing_locations";
      backup ← _locations raw "backup_locations";
      support ← _locations raw "support_access_locations";
      external ← _locations raw "external_processing_locations";
      refs ← _string_tuple raw "evidence_refs";
      Ok (mkResidency storage processing backup support external refs)
  | _ => raise ValueError "INVALID_DATA_RESIDENCY_POLICY"
  end.

Definition _attestation (raw : mapping) : result ProviderAttestation :=
  type ← _required_nonempty raw "evidence_type";
  _ ← require (str_in type _EVIDENCE_TYPES) ValueError "INVALID_PROVIDER_EVIDENCE_TYPE";
  status ← _required_nonempty raw "verification_status";
  _ ← require (str_in status _VERIFICATION_STATUSES) ValueError "INVALID_PROVIDER_VERIFICATION_STATUS";
  ref ← _required_nonempty raw "evidence_ref";
  issuer ← _required_nonempty raw "issuer";
  issued ← _required_nonempty raw "issued_at";
  from ← _required_nonempty raw "valid_from";
  expires ← _required_nonempty raw "expires_at";
  id ← _required_nonempty raw "evidence_id";
  verified ← _optional_string raw "verified_at";
  by_ ← _optional_string raw "verified_by";
  hash ← _optional_string raw "document_hash";
  Ok (mkAttestation id type ref issuer issued from expires status verified by_ hash).

(** One item of [_provider_egress]. *)
Definition egress_item (raw : pyval) : result ProviderEgress :=
  match raw with
  | PDict item =>
      _ ← require (known_fields _PROVIDER_EGRESS_FIELDS item) ValueError "UNKNOWN_PROVIDER_EGRESS_FIELD";
      match lookup_or item "attestation" PNone with
      | PDict attestation =>
          _ ← require (known_fields _ATTESTATION_FIELDS attestation) ValueError "UNKNOWN_PROVIDER_ATTESTATION_FIELD";
          host ← _required_nonempty item "host";
          location ← _required_nonempty item "processing_location";
          confirmed ← _locations item "confirmed_processing_locations";
          provider ← _required_nonempty item "provider";
          service ← _required_nonempty item "service";
          tenants ← _string_tuple item "tenant_ids";
          _ ← require (negb (bool_decide (tenants = []))) ValueError "PROVIDER_TENANT_SCOPE_REQUIRED";
          attestation ← _attestation attestation;
          Ok (mkEgress provider service (host_key host)
                (if str_in location ["local"; "external-unspecified"] then location else str_upper location)
                confirmed tenants attestation)
      | _ => raise ValueError "PROVIDER_ATTESTATION_REQUIRED"
      end
  | _ => raise ValueError "INVALID_PROVIDER_EGRESS"
  end.

Definition _provider_egress (raw : pyval) : result (list ProviderEgress) :=
  match raw with PList l => mapM egress_item l | _ => raise ValueError "INVALID_PROVIDER_EGRESS" end.

Definition _pilot_secret_reference (raw : mapping) (key : string) : result string :=
  value ← _required_nonempty raw key;
  _ ← require (negb (str_in (casefold value) placeholders)) ValueError "PILOT_SECRET_REFERENCE_REQUIRED";
  match secret_reference value with Ok r => Ok r | Raise _ => raise ValueError "PILOT_SECRET_REFERENCE_REQUIRED" end.

Definition _controlled_pilot_config (raw : pyval) : result ControlledPilotConfig :=
  match raw with
  | PDict raw =>
      _ ← require (known_fields _CONTROLLED_PILOT_FIELDS raw) ValueError "UNKNOWN_CONTROLLED_PILOT_FIELD";
      audit ← match lookup_or raw "audit_persistence" PNone with
              | PBool b => Ok b | _ => raise ValueError "PILOT_AUDIT_PERSISTENCE_REQUIRED" end;
      base ← _required_nonempty raw "public_base_url";
      redirect ← _required_nonempty raw "oidc_redirect_uri";
      logout ← _required_nonempty raw "post_logout_redirect_uri";
      hosts ← _string_tuple raw "allowed_hosts";
      proxies ← _string_tuple raw "trusted_proxy_cidrs";
      backup ← _required_nonempty raw "backup_configuration_ref";
      pseudonymization ← _pilot_secret_reference raw "lifecycle_pseudonymization_secret";
      pepper ← _pilot_secret_reference raw "session_pepper_secret";
      envelope ← _pilot_secret_reference raw "session_envelope_key_secret";
      signing ← _required_mapping raw "export_signing";
      signing ← signing_settings signing;
      days ← py_int (lookup_or raw "retention_days" (PInt 0));
      tenant ← _required raw "pilot_tenant";
      health ← _required raw "health_path";
      readiness ← _required raw "readiness_path";
      controlled_pilot_config (mkPilot base redirect logout hosts proxies audit backup pseudonymization pepper
        envelope signing days tenant health readiness)
  | _ => raise ValueError "INVALID_CONTROLLED_PILOT_CONFIGURATION"
  end.

(** The keys no configuration may have, at any depth of its objects. *)
Definition forbidden_keys : list string := ["password"; "api_key"; "token"; "secret_value"; "database_dsn"].

Fixpoint has_literal_secret (v : pyval) : bool :=
  match v with
  | PDict d => existsb (λ kv, str_in (casefold kv.1) forbidden_keys || has_literal_secret kv.2) d
  | _ => false
  end.
Definition _reject_literal_secrets (raw : mapping) : result unit :=
  require (negb (has_literal_secret (PDict raw))) ValueError "LITERAL_SECRET_FORBIDDEN".

Definition oidc_config (raw : pyval) : result (option OidcRuntimeConfig) :=
  match raw with
  | PNone => Ok None
  | PDict raw =>
      algorithms ← or_raise (string_list (lookup_or raw "algorithms" PNone)) ValueError
                     "INVALID_OIDC_ALGORITHM_ALLOWLIST";
      issuer ← _required raw "issuer";
      audience ← _required raw "audience";
      let claim key dflt := py_str (lookup_or raw key (PStr dflt)) in
      organization ← _optional raw "organization_claim";
      groups ← _optional raw "groups_claim";
      skew ← py_int (lookup_or raw "clock_skew_seconds" (PInt 30));
      parties ← _string_tuple raw "authorized_parties";
      scopes ← _string_tuple raw "required_scopes";
      loopback ← _boolean raw "allow_insecure_loopback" false;
      policy ← oidc_policy_of (mkOidcPolicy issuer audience algorithms (claim "tenant_claim" "tenant_id")
                 (claim "actor_id_claim" "sub") (claim "role_claim" "role")
                 (claim "actor_kind_claim" "actor_kind") organization groups skew parties scopes loopback);
      jwks ← _required raw "jwks_uri";
      c ← oidc_runtime_config (mkOidcConfig policy jwks);
      Ok (Some c)
  | _ => raise ValueError "INVALID_OIDC_CONFIGURATION"
  end.

Definition worker_config (worker : mapping) : result JobPolicy :=
  attempts ← py_int (lookup_or worker "max_attempts" (PInt 5));
  lease ← py_int (lookup_or worker "lease_seconds" (PInt 60));
  base ← py_int (lookup_or worker "base_backoff_seconds" (PInt 5));
  maximum ← py_int (lookup_or worker "maximum_backoff_seconds" (PInt 300));
  job_policy (mkPolicy attempts lease base maximum).

(** A part that may be absent. *)
Definition optional_part {A} (read : pyval → result A) (v : pyval) : result (option A) :=
  match v with PNone => Ok None | v => x ← read v; Ok (Some x) end.

Definition from_mapping (raw : mapping) : result RuntimeConfig :=
  _ ← _reject_literal_secrets raw;
  profile ← (v ← _required raw "profile"; environment_profile v);
  mode ← match lookup_or raw "operating_mode" PNone with
         | PStr s => m ← operating_mode_of s; Ok (Some m) | _ => Ok None end;
  residency ← optional_part _residency_policy (lookup_or raw "data_residency" PNone);
  backend ← (v ← _required raw "database_backend"; database_backend_of v);
  auth ← (v ← _required raw "authentication_mode"; authentication_mode_of v);
  oidc ← oidc_config (lookup_or raw "oidc" PNone);
  worker ← match lookup_or raw "worker" (PDict []) with
           | PDict d => Ok d | _ => raise ValueError "INVALID_WORKER_CONFIGURATION" end;
  hosts ← or_raise (string_list (lookup_or raw "egress_allowed_hosts" (PList []))) ValueError
            "INVALID_EGRESS_ALLOWLIST";
  pilot ← optional_part _controlled_pilot_config (lookup_or raw "controlled_pilot" PNone);
  secrets ← (v ← _required raw "secret_provider"; secret_provider_of v);
  dsn ← (v ← _required raw "database_dsn_secret"; secret_reference v);
  worker_dsn ← (v ← _required raw "worker_database_dsn_secret"; secret_reference v);
  egress ← _provider_egress (lookup_or raw "provider_egress" (PList []));
  worker ← worker_config worker;
  runtime_config (mkConfig profile mode residency backend auth secrets dsn worker_dsn oidc hosts egress pilot worker).

(** [load_config] on the text of the file, [None] when it cannot be read. *)
Definition overrides : list (string * string) :=
  [("DA_PROFILE", "profile"); ("DA_DATABASE_BACKEND", "database_backend");
   ("DA_AUTHENTICATION_MODE", "authentication_mode"); ("DA_SECRET_PROVIDER", "secret_provider")].
Definition override (environment : list (string * string)) (raw : mapping) : mapping :=
  foldl (λ raw o, match assoc o.1 environment with
                  | Some v => assoc_set o.2 (PStr v) raw | None => raw end) raw overrides.

Definition load_config `{FloatText} (text : option string) (environment : list (string * string)) :
    result RuntimeConfig :=
  raw ← match text with
        | None => raise ValueError "CONFIGURATION_UNAVAILABLE"
        | Some text =>
            match loads text with
            | Raise e => if bool_decide (exn_cls e = JSONDecodeError)
                         then raise ValueError "CONFIGURATION_UNAVAILABLE" else Raise e
            | Ok v => Ok v
            end
        end;
  match raw with
  | PDict raw => from_mapping (override environment raw)
  | _ => raise ValueError "INVALID_CONFIGURATION"
  end.

(** [validate_provider_urls]: the providers at run time are the declared ones. *)
Fixpoint provider_hosts (declared : list string) (urls : list string) : result (list string) :=
  match urls with
  | [] => Ok []
  | url :: urls =>
      u ← match urlsplit url with Ok u => Ok u | Raise _ => raise ValueError "PROVIDER_EGRESS_UNDECLARED" end;
      let h := host_key (default "" (hostname u)) in
      _ ← require (negb (h =? "") && str_in h declared) ValueError "PROVIDER_EGRESS_UNDECLARED";
      r ← provider_hosts declared urls;
      Ok (h :: r)
  end.
Definition validate_provider_urls (c : RuntimeConfig) (urls : list string) : result unit :=
  let declared := map host (provider_egress c) in
  actual ← provider_hosts declared urls;
  require (same_set actual declared) ValueError "PROVIDER_EGRESS_RUNTIME_MISMATCH".
End config.
