(* ===== verification/Egress.v ===== *)
(** * Request-time egress control

    [production/egress.py]: the allowlist of hosts and the guard every call of a provider passes.
    The guard decides from the configuration, the clock and the context of the request, hands
    its decision to the caller's ledger, and lets the call through only when the decision is
    ALLOWED and was recorded. *)

From S2P Require Import Prelude PyVal JsonNumber Identity PyTime PyDecimal ResearchEvidence Research UrlPolicy Config.
From stdpp Require Import options.

(** ** [_HOST.fullmatch] *)

Definition lower_char (c : ascii) : bool :=
  let n := Ascii.nat_of_ascii c in (97 <=? n)%nat && (n <=? 122)%nat.
Definition label_char (c : ascii) : bool := lower_char c || num_digit c.

Fixpoint split_dots (acc s : string) : list string :=
  match s with
  | EmptyString => [acc]
  | String c s => if Ascii.eqb c "." then acc :: split_dots "" s
                  else split_dots (acc +:+ String c EmptyString) s
  end.

(** The last character of a text that starts with [c]. *)
Fixpoint last_char (c : ascii) (s : string) : ascii :=
  match s with EmptyString => c | String d s => last_char d s end.

Definition host_label (s : string) : bool :=
  match s with
  | EmptyString => false
  | String c r =>
      label_char c && label_char (last_char c r) && (String.length s <=? 63)%nat &&
      str_forallb (λ d, label_char d || Ascii.eqb d "-") s
  end.
Definition top_label (s : string) : bool :=
  (2 <=? String.length s)%nat && (String.length s <=? 63)%nat && str_forallb lower_char s.

(** At least two labels; the last one consists of letters. *)
Definition _HOST (s : string) : bool :=
  (1 <=? str_len s)%nat && (str_len s <=? 253)%nat &&
  match rev (split_dots "" s) with
  | top :: (_ :: _) as labels => top_label top && forallb host_label labels
  | _ => false
  end.

(** What the caller of the guard is. *)
Record EgressRequestContext := mkRequestContext { rc_tenant : string; rc_actor : string; rc_correlation : string }.

Section egress.
Context `{CaseFolding} `{Uppercase} `{UrlLibrary} `{PurePaths}.

Definition _valid_public_hostname (h : string) : bool :=
  match ip_address h with
  | Some _ => false
  | None => _HOST h && negb (h =? "localhost") && negb (str_endswith ".local" h)
  end.

(** [HttpsEgressAllowlist.__init__] *)
Definition egress_allowlist (hosts : list string) : result (list string) :=
  let normalized := py_sorted String.leb (fromkeys (map host_key hosts)) in
  _ ← require (negb (bool_decide (normalized = [])) && forallb _valid_public_hostname normalized)
        ValueError "INVALID_EGRESS_ALLOWLIST";
  Ok normalized.

Definition REJECTED {A} (reason : string) : result A := raise EgressRejected reason.

(** The parts of a URL that the allowlist looks at: [urlsplit] and [port] may raise. *)
Definition split_with_port (url : string) : result (SplitUrl * option Z) :=
  match (u ← urlsplit url; p ← port u; Ok (u, p)) with Ok x => Ok x | Raise _ => REJECTED "EGRESS_REJECTED" end.

(** [HttpsEgressAllowlist.validate] *)
Definition allowlist_validate (hosts : list string) (url : string) : result string :=
  '(u, port) ← split_with_port url;
  let h := host_key (default "" (hostname u)) in
  _ ← require ((scheme u =? "https") && negb (h =? "") && str_in h hosts && bool_decide (username u = None) &&
               bool_decide (password u = None) && (bool_decide (port = None) || bool_decide (port = Some 443%Z)) &&
               _valid_public_hostname h) EgressRejected "EGRESS_REJECTED";
  Ok (urlunsplit "https" (casefold (netloc u)) (if url_path u =? "" then "/" else url_path u) (url_query u) "").

(** [_host] *)
Definition _host (url : string) : string :=
  match urlsplit url with Ok u => host_key (default "" (hostname u)) | Raise _ => "" end.

(** [_parse_time], in microseconds of UTC *)
Definition _parse_time (value : string) : result Z :=
  t ← fromisoformat (replace_Z value);
  _ ← require (bool_decide (is_Some (utcoffset t))) ValueError "NAIVE_TIMESTAMP";
  utc_micros t.

(** ** [ResidencyEgressGuard] *)

(** What the guard reads: the supplier's answer ([None] when it raises), and the clock, in UTC. *)
Record Guard := mkGuard {
  config_supplier : option RuntimeConfig; guard_clock : datetime; expected_profile : option EnvironmentProfile
}.

Definition policy_version : string := "residency-policy-v1".

(** A decision: what it says, why, the URL it lets through, and the provider entry it is about
    once that is known. *)
Record verdict := mkVerdict {
  verdict_url : option string; verdict_reason : string; verdict_entry : option ProviderEgress
}.
Definition blocked (reason : string) : verdict := mkVerdict None reason None.

(** The checks on the attestation of a provider, outside the development boundary. *)
Definition attested (now : Z) (e : ProviderEgress) : result (option string) :=
  let a := attestation e in
  let BLOCK reason : result (option string) := Ok (Some reason) in
  if evidence_type a =? "OPERATOR_SELF_DECLARATION" then BLOCK "EGRESS_EVIDENCE_UNVERIFIED"
  else if negb (verification_status a =? "VERIFIED") then
    BLOCK (if verification_status a =? "EXPIRED" then "EGRESS_EVIDENCE_EXPIRED" else "EGRESS_EVIDENCE_UNVERIFIED")
  else if negb (text_truthy (verified_at a) && text_truthy (verified_by a)) then BLOCK "EGRESS_EVIDENCE_UNVERIFIED"
  else
    match (issued ← _parse_time (issued_at a); from ← _parse_time (valid_from a);
           expires ← _parse_time (att_expires_at a); verified ← _parse_time (default "" (verified_at a));
           Ok (issued, from, expires, verified)) with
    | Raise e => if is_value_error (exn_cls e) then BLOCK "EGRESS_EVIDENCE_UNVERIFIED" else Raise e
    | Ok (issued, from, expires, verified) =>
        if (expires <=? now)%Z then BLOCK "EGRESS_EVIDENCE_EXPIRED"
        else if (now <? issued)%Z || (now <? from)%Z || (now <? verified)%Z || (expires <=? from)%Z
        then BLOCK "EGRESS_EVIDENCE_UNVERIFIED"
        else if negb (str_in (evidence_type a) ["DPA"; "SIGNED_PROVIDER_ATTESTATION";
                                                "TECHNICAL_PROVIDER_CONFIGURATION"])
        then BLOCK "EGRESS_EVIDENCE_UNVERIFIED"
        else if bool_decide (confirmed_processing_locations e = []) then BLOCK "EGRESS_EVIDENCE_MISSING"
        else if negb (str_in (processing_location e) (confirmed_processing_locations e))
        then BLOCK "EGRESS_LOCATION_NOT_ALLOWED"
        else if negb (str_startswith "https://" (evidence_ref a)) || (att_issuer a =? "")
        then BLOCK "EGRESS_EVIDENCE_UNVERIFIED"
        else Ok None
    end.

(** The body of [authorize] up to the call of [decide]. *)
Definition judge (g : Guard) (now : Z) (tenant provider_name connector url : string) : result verdict :=
  match config_supplier g with
  | None => Ok (blocked "EGRESS_CONFIGURATION_CHANGED")
  | Some config =>
      if match expected_profile g with Some p => negb (bool_decide (profile config = p)) | None => false end
      then Ok (blocked "EGRESS_CONFIGURATION_CHANGED")
      else
        match operating_mode config, data_residency config with
        | Some mode, Some residency =>
            match validate_for residency mode with
            | Raise _ => Ok (blocked "EGRESS_CONFIGURATION_CHANGED")
            | Ok _ =>
                match (hosts ← egress_allowlist (egress_allowed_hosts config);
                       _ ← tenant_context tenant;
                       allowlist_validate hosts url) with
                | Raise _ => Ok (blocked "EGRESS_HOST_MISMATCH")
                | Ok normalized =>
                    match List.find (λ e, (host e =? _host url) && (provider e =? provider_name))
                            (provider_egress config) with
                    | None => Ok (blocked "EGRESS_HOST_MISMATCH")
                    | Some e =>
                        let BLOCK reason := mkVerdict None reason (Some e) in
                        if negb (service e =? connector) then Ok (blocked "EGRESS_HOST_MISMATCH")
                        else if negb (str_in "*" (tenant_ids e)) && negb (str_in tenant (tenant_ids e))
                        then Ok (BLOCK "EGRESS_TENANT_MISMATCH")
                        else if negb (str_in (processing_location e) (external_processing_locations residency))
                        then Ok (BLOCK "EGRESS_LOCATION_NOT_ALLOWED")
                        else if bool_decide (profile config = DEVELOPMENT) &&
                                bool_decide (mode = DEVELOPMENT_PROVIDER_INTEGRATION)
                        then
                          if negb (processing_location e =? "external-unspecified") ||
                             negb (evidence_type (attestation e) =? "OPERATOR_SELF_DECLARATION") ||
                             negb (verification_status (attestation e) =? "UNVERIFIED")
                          then Ok (BLOCK "EGRESS_CONFIGURATION_CHANGED")
                          else Ok (mkVerdict (Some normalized) "EGRESS_ALLOWED_DEVELOPMENT" (Some e))
                        else
                          r ← attested now e;
                          Ok (match r with
                              | Some reason => BLOCK reason
                              | None => mkVerdict (Some normalized) "EGRESS_ALLOWED" (Some e)
                              end)
                    end
                end
            end
        | _, _ => Ok (blocked "EGRESS_RESIDENCY_POLICY_MISSING")
        end
  end.

(** The event [decide] builds. *)
Definition egress_event (g : Guard) (c : EgressRequestContext) (provider_name connector url : string) (v : verdict) :
    EgressDecision :=
  mkEgressDecision (if bool_decide (is_Some (verdict_url v)) then "ALLOWED" else "BLOCKED")
    (isoformat (guard_clock g)) (rc_tenant c) (rc_actor c) (rc_correlation c)
    (match config_supplier g with Some config => profile_value (profile config) | None => "unknown" end)
    policy_version provider_name connector (_host url) (processing_location <$> verdict_entry v)
    ((evidence_id ∘ attestation) <$> verdict_entry v) ((verification_status ∘ attestation) <$> verdict_entry v)
    (verdict_reason v).

(** [authorize]: the event handed to [record_decision], and what follows when that has returned
    ([true]) or raised ([false]). *)
Definition authorize_egress (g : Guard) (c : EgressRequestContext) (provider_name connector url : string) :
    result (EgressDecision * (bool → result string)) :=
  now ← utc_micros (guard_clock g);
  v ← judge g now (rc_tenant c) provider_name connector url;
  Ok (egress_event g c provider_name connector url v,
      λ recorded : bool,
        if recorded then
          match verdict_url v with Some url => Ok url | None => REJECTED (verdict_reason v) end
        else REJECTED "EGRESS_AUDIT_FAILED").

(** [authorize_current]: the context of the calling task, if any. *)
Definition authorize_current (g : Guard) (c : option EgressRequestContext) (provider_name connector url : string) :
    result (EgressDecision * (bool → result string)) :=
  match c with
  | None => REJECTED "EGRESS_CONTEXT_REQUIRED"
  | Some c => authorize_egress g c provider_name connector url
  end.
End egress.
