(* ===== verification/Oidc.v ===== *)
(** * Authentication by OpenID Connect

    [oidc/jwks.py], [oidc/authenticator.py], [oidc/mfa.py] and [oidc/factory.py]: the cache of
    verification keys, the check of an access token and the identity made of its claims, the
    policy of multi-factor authentication, and the choice of an authenticator.

    PyJWT is the class [Jwt]. The HTTP client and the monotonic clock are streams: the state
    counts how many answers and readings were used. The clock counts in seconds, as the
    comparison with [_expires_at] does; the rounding of floats is not modelled. *)

From S2P Require Import Prelude PyVal Identity PyDecimal ResearchEvidence Research UrlPolicy Config Egress.
From stdpp Require Import options.

(** ** PyJWT and the HTTP client *)

(** A response of the client, with what [raise_for_status()] and [json()] do on it. *)
Record Response := mkResponse {
  status_code : Z; raise_for_status : result unit; response_json : result pyval
}.

Definition is_http_error (c : exn_class) : bool :=
  match c with HTTPError | TimeoutException | NetworkError | HTTPStatusError => true | _ => false end.
Definition is_pyjwt_error (c : exn_class) : bool :=
  match c with
  | PyJWTError | ExpiredSignatureError | InvalidIssuerError | InvalidAudienceError => true
  | _ => false
  end.

Class Jwt := {
  Key : Type;
  get_unverified_header : string → result mapping;
  (** [PyJWK.from_dict]: the algorithm of the key and its material. *)
  from_dict : mapping → result (string * Key);
  (** [jwt.decode(token, key, algorithms, audience, issuer, leeway, options)] *)
  decode : string → Key → list string → string → string → Z → mapping → result mapping
}.

(** ** [jwks.py] *)

(** [CachedJwksProvider]: its configuration and its cache, with the answers and the readings used. *)
Record JwksProvider := mkProvider {
  provider_uri : string; cache_ttl_seconds : Z; maximum_keys : Z
}.
Record JwksCache `{Jwt} := mkCache {
  cached_keys : gmap string (string * Key); expires_at : Z; fetches : nat; readings : nat
}.

Section trusted.
Context `{UrlLibrary}.

(** [CachedJwksProvider.__init__] *)
Definition trusted_url (allow_insecure_loopback : bool) (value : string) : result bool :=
  u ← urlsplit value;
  Ok ((scheme u =? "https") || (allow_insecure_loopback && is_loopback_http u)).

Definition jwks_provider (issuer jwks_uri : string) (ttl limit : Z) (allow_insecure_loopback : bool) :
    result JwksProvider :=
  trusted_issuer ← trusted_url allow_insecure_loopback issuer;
  trusted ← (if (trusted_issuer : bool) then trusted_url allow_insecure_loopback jwks_uri else Ok false);
  _ ← require trusted ValueError "OIDC_HTTPS_REQUIRED";
  _ ← require ((30 <=? ttl)%Z && (ttl <=? 86400)%Z) ValueError "INVALID_JWKS_CACHE_TTL";
  _ ← require ((1 <=? limit)%Z && (limit <=? 100)%Z) ValueError "INVALID_JWKS_KEY_LIMIT";
  Ok (mkProvider jwks_uri ttl limit).
End trusted.

Section oidc.
Context `{Jwt} (fetch : nat → result Response) (clock : nat → Z).

Definition empty_cache : JwksCache := mkCache _ ∅ 0 0 0.

(** [self._clock()] *)
Definition read_clock : stateful JwksCache Z := λ s,
  (Ok (clock (readings s)), mkCache _ (cached_keys s) (expires_at s) (fetches s) (S (readings s))).

(** [response = client.get(...); response.raise_for_status(); response.json()] *)
Definition fetched (n : nat) : result pyval :=
  r ← fetch n; _ ← raise_for_status r; response_json r.

Definition fetch_document : stateful JwksCache pyval := λ s,
  (rescue (fetched (fetches s))
     (λ e, if is_http_error (exn_cls e) || is_value_error (exn_cls e)
           then Some (Exn JwksResolutionError ["JWKS_UNAVAILABLE"]) else None),
   mkCache _ (cached_keys s) (expires_at s) (S (fetches s)) (readings s)).

(** The loop of [_refresh] over the keys of the document. *)
Definition jwk_entry (parsed : gmap string (string * Key)) (raw : pyval) :
    result (gmap string (string * Key)) :=
  match raw with
  | PDict d =>
      if negb (py_eq (lookup_or d "use" (PStr "sig")) (PStr "sig")) then Ok parsed
      else match lookup_or d "kid" PNone with
           | PStr kid =>
               _ ← require (negb (kid =? "") && bool_decide (parsed !! kid = None))
                     JwksResolutionError "INVALID_JWKS_KEY_ID";
               let kty := lookup_or d "kty" PNone in
               _ ← require (hashable kty) TypeError "unhashable";
               _ ← require (py_eq kty (PStr "RSA") || py_eq kty (PStr "EC"))
                     JwksResolutionError "INVALID_JWKS_KEY_USE";
               key ← from_dict d;
               Ok (<[kid := key]> parsed)
           | _ => raise JwksResolutionError "INVALID_JWKS_KEY_ID"
           end
  | _ => raise JwksResolutionError "INVALID_JWKS_KEY"
  end.

Fixpoint jwk_entries (parsed : gmap string (string * Key)) (l : list pyval) :
    result (gmap string (string * Key)) :=
  match l with
  | [] => Ok parsed
  | raw :: l => parsed ← jwk_entry parsed raw; jwk_entries parsed l
  end.

(** From the document to the keys. *)
Definition parse_jwks (limit : Z) (payload : pyval) : result (gmap string (string * Key)) :=
  match payload with
  | PDict d =>
      match lookup_or d "keys" PNone with
      | PList raw_keys =>
          let n := Z.of_nat (length raw_keys) in
          _ ← require ((1 <=? n)%Z && (n <=? limit)%Z) JwksResolutionError "INVALID_JWKS_KEY_COUNT";
          parsed ← rescue (jwk_entries ∅ raw_keys)
            (λ e, if bool_decide (exn_cls e ∈ [KeyError; TypeError]) || is_value_error (exn_cls e)
                  then Some (Exn JwksResolutionError ["INVALID_JWKS_KEY"]) else None);
          _ ← require (bool_decide (parsed ≠ ∅)) JwksResolutionError "INVALID_JWKS_KEY_COUNT";
          Ok parsed
      | _ => raise JwksResolutionError "INVALID_JWKS_DOCUMENT"
      end
  | _ => raise JwksResolutionError "INVALID_JWKS_DOCUMENT"
  end.

Definition _refresh (p : JwksProvider) : stateful JwksCache unit :=
  payload ← fetch_document;
  parsed ← lift (parse_jwks (maximum_keys p) payload);
  now ← read_clock;
  modify (λ s, mkCache _ parsed (now + cache_ttl_seconds p) (fetches s) (readings s)).

(** [CachedJwksProvider.get]; the lock makes it one step. *)
Definition get_key (p : JwksProvider) (kid algorithm : string) : stateful JwksCache Key :=
  _ ← guard_with (negb (kid =? "") && (str_len kid <=? 256)%nat) JwksResolutionError "INVALID_KEY_ID";
  now ← read_clock;
  expiry ← gets expires_at;
  _ ← (if (expiry <=? now)%Z then _refresh p else mret tt);
  cached ← gets (λ s, cached_keys s !! kid);
  key ← match cached with
        | Some key => mret (Some key)
        | None => _ ← _refresh p; gets (λ s, cached_keys s !! kid)
        end;
  match key with
  | Some (name, material) =>
      _ ← guard_with (name =? algorithm) JwksResolutionError "OIDC_KEY_NOT_FOUND";
      mret material
  | None => lift (raise JwksResolutionError "OIDC_KEY_NOT_FOUND")
  end.

(** ** [authenticator.py] *)

(** [AuthenticationFailed()] and [AuthenticationFailed(code)] *)
Definition failed {A} (code : string) : result A := raise AuthenticationFailed code.
Definition AUTH_TOKEN_INVALID : string := "AUTH_TOKEN_INVALID".

Definition KEYCLOAK_ROLE_MAP : list (string * Role) :=
  [("da_admin", SYSTEM_ADMINISTRATOR); ("tenant_admin", TENANT_ADMIN); ("decision_author", GENERATOR);
   ("decision_reviewer", VALIDATOR); ("decision_approver", APPROVER); ("auditor", AUDITOR);
   ("research_operator", RESEARCH_OPERATOR); ("readonly", READONLY)].

Definition _PRIMARY_ROLE_ORDER : list Role :=
  [APPROVER; VALIDATOR; GENERATOR; TENANT_ADMIN; RESEARCH_OPERATOR; AUDITOR; READONLY;
   SYSTEM_ADMINISTRATOR; REVIEWER].

(** [OidcAuthenticator._claim]: a dotted name is a path. *)
Fixpoint claim_path (value : pyval) (parts : list string) : result pyval :=
  match parts with
  | [] => Ok value
  | part :: parts =>
      match value with
      | PDict d => match assoc part d with
                   | Some v => claim_path v parts
                   | None => failed AUTH_TOKEN_INVALID
                   end
      | _ => failed AUTH_TOKEN_INVALID
      end
  end.
Definition _claim (claims : mapping) (name : string) : result pyval :=
  claim_path (PDict claims) (split_dots "" name).

(** A text that is not blank and has at most 256 characters. *)
Definition claim_text (v : pyval) : result string :=
  match v with
  | PStr s => _ ← require (negb (str_blank s) && (str_len s <=? 256)%nat) AuthenticationFailed AUTH_TOKEN_INVALID; Ok s
  | _ => failed AUTH_TOKEN_INVALID
  end.

Definition _required_claim (claims : mapping) (name : string) : result string :=
  v ← _claim claims name; claim_text v.

(** [name is None or name not in claims] *)
Definition claim_absent (claims : mapping) (name : option string) : bool :=
  match name with Some n => bool_decide (assoc n claims = None) | None => true end.

Definition _optional_claim (claims : mapping) (name : option string) : result (option string) :=
  if claim_absent claims name then Ok None
  else v ← _claim claims (default "" name); s ← claim_text v; Ok (Some s).

(** Every item is a text that is not blank. *)
Fixpoint claim_texts (l : list pyval) : option (list string) :=
  match l with
  | [] => Some []
  | PStr s :: l => if str_blank s then None else match claim_texts l with Some r => Some (s :: r) | None => None end
  | _ => None
  end.

Definition _groups (claims : mapping) (name : option string) : result (list string) :=
  if claim_absent claims name then Ok []
  else
    v ← _claim claims (default "" name);
    match v with
    | PList l =>
        _ ← require (length l <=? 100)%nat AuthenticationFailed AUTH_TOKEN_INVALID;
        or_raise (claim_texts l) AuthenticationFailed AUTH_TOKEN_INVALID
    | _ => failed AUTH_TOKEN_INVALID
    end.

Definition AUTH_ROLE_REQUIRED : string := "AUTH_ROLE_REQUIRED".

(** The texts the role claim lists. *)
Definition raw_roles (v : pyval) : result (list string) :=
  match (match v with PStr s => PList [PStr s] | _ => v end) with
  | PList l =>
      _ ← require ((1 <=? length l)%nat && (length l <=? 100)%nat) AuthenticationFailed AUTH_ROLE_REQUIRED;
      or_raise (claim_texts l) AuthenticationFailed AUTH_ROLE_REQUIRED
  | _ => failed AUTH_ROLE_REQUIRED
  end.

Definition mapped_roles (l : list string) : gset Role :=
  list_to_set (omap (λ item, assoc item KEYCLOAK_ROLE_MAP) l).

Definition _roles (claims : mapping) (name : string) : result (gset Role) :=
  v ← _claim claims name;
  items ← raw_roles v;
  let mapped := mapped_roles items in
  _ ← require (bool_decide (mapped ≠ ∅)) AuthenticationFailed AUTH_ROLE_REQUIRED;
  Ok mapped.

(** [next((item for item in _PRIMARY_ROLE_ORDER if item in roles), None)] *)
Definition primary_role (roles : gset Role) : option Role :=
  List.find (λ r, bool_decide (r ∈ roles)) _PRIMARY_ROLE_ORDER.

(** [ActorKind(value)] *)
Definition actor_kind : string → result ActorKind :=
  enum_of [("HUMAN", HUMAN); ("AGENT", AGENT); ("SERVICE", SERVICE)].

(** [value.split()]: the words between white space. *)
Fixpoint words_from (word : string) (l : list string) : list string :=
  match l with
  | [] => if word =? "" then [] else [word]
  | c :: l => if is_space c then (if word =? "" then words_from "" l else word :: words_from "" l)
              else words_from (word +:+ c) l
  end.
Definition str_split (s : string) : list string := words_from "" (code_points s).

Definition _map_claims (policy : OidcPolicy) (claims : mapping) : result Identity :=
  actor_id ← _required_claim claims (actor_id_claim policy);
  tenant ← _required_claim claims (tenant_claim policy);
  roles ← _roles claims (role_claim policy);
  role ← or_raise (primary_role roles) AuthenticationFailed AUTH_ROLE_REQUIRED;
  kind_text ← _required_claim claims (actor_kind_claim policy);
  kind ← actor_kind kind_text;
  organization ← _optional_claim claims (organization_claim policy);
  group_list ← _groups claims (groups_claim policy);
  client ← _required_claim claims "azp";
  _ ← require (bool_decide (authorized_parties policy = []) || str_in client (authorized_parties policy))
        AuthenticationFailed AUTH_TOKEN_INVALID;
  scope_value ← _required_claim claims "scope";
  let scope_set := fromkeys (str_split scope_value) in
  _ ← require (forallb (λ s, str_in s scope_set) (required_scopes policy)) AuthenticationFailed AUTH_TOKEN_INVALID;
  t ← tenant_context tenant;
  make_identity (mkIdentity actor_id t role kind organization group_list roles (Some client) scope_set).

(** The options of [jwt.decode]. *)
Definition verification_options : mapping :=
  [("require", PList [PStr "iss"; PStr "aud"; PStr "sub"; PStr "iat"; PStr "exp"]);
   ("verify_signature", PBool true); ("verify_aud", PBool true); ("verify_iss", PBool true);
   ("verify_exp", PBool true); ("verify_iat", PBool true); ("verify_nbf", PBool true)].

(** The algorithm and the key the header names, when the algorithm is allowed. *)
Definition named_key (allowed : list string) (header : mapping) : option (string * string) :=
  match lookup_or header "alg" PNone, lookup_or header "kid" PNone with
  | PStr algorithm, PStr kid => if str_in algorithm allowed then Some (algorithm, kid) else None
  | _, _ => None
  end.

(** The body of the [try] statement of [authenticate]. *)
Definition verify_token (policy : OidcPolicy) (p : JwksProvider) (token : string) : stateful JwksCache Identity :=
  _ ← guard_with (negb (token =? "") && (str_len token <=? 16384)%nat) AuthenticationFailed AUTH_TOKEN_INVALID;
  header ← lift (get_unverified_header token);
  '(algorithm, kid) ← lift (or_raise (named_key (algorithms policy) header) AuthenticationFailed AUTH_TOKEN_INVALID);
  key ← get_key p kid algorithm;
  claims ← lift (decode token key (algorithms policy) (audience policy) (issuer policy)
                   (clock_skew_seconds policy) verification_options);
  lift (_map_claims policy claims).

(** Its handlers. *)
Definition authentication_failure (e : exn) : option exn :=
  match exn_cls e with
  | AuthenticationFailed => None
  | ExpiredSignatureError => Some (Exn AuthenticationFailed ["AUTH_TOKEN_EXPIRED"])
  | InvalidIssuerError => Some (Exn AuthenticationFailed ["AUTH_ISSUER_MISMATCH"])
  | InvalidAudienceError => Some (Exn AuthenticationFailed ["AUTH_AUDIENCE_MISMATCH"])
  | PyJWTError | TypeError => Some (Exn AuthenticationFailed [AUTH_TOKEN_INVALID])
  | c => if is_value_error c then Some (Exn AuthenticationFailed [AUTH_TOKEN_INVALID]) else None
  end.

(** [OidcAuthenticator.authenticate] *)
Definition oidc_authenticate (policy : OidcPolicy) (p : JwksProvider) (token : string) : stateful JwksCache Identity :=
  λ s, let '(r, s') := verify_token policy p token s in (rescue r authentication_failure, s').

End oidc.

(** ** [mfa.py] *)

(** [authenticated_at]: an aware time is its instant, in microseconds; a naive one has none. *)
Record MfaEvidence := mkMfaEvidence {
  acr : string; amr : list string; authenticated_at : option Z; mfa_policy_version : string
}.
Record MfaPolicy := mkMfaPolicy {
  mfa_version : string; required_roles : list string; allowed_acr : list string;
  allowed_methods : list string; max_auth_age : Z
}.

(** [set(l).intersection(m)] is not empty. *)
Definition meets (l m : list string) : bool := existsb (λ s, str_in s m) l.

(** What [require] accepts of the evidence at [now]. *)
Definition mfa_satisfied (p : MfaPolicy) (e : MfaEvidence) (now : Z) : bool :=
  str_in (acr e) (allowed_acr p) && meets (amr e) (allowed_methods p) &&
  (mfa_policy_version e =? mfa_version p) &&
  match authenticated_at e with
  | Some t => (now - t <=? max_auth_age p)%Z && (t <=? now)%Z
  | None => false
  end.

(** [MfaPolicy.require] *)
Definition mfa_require (p : MfaPolicy) (roles : list string) (evidence : option MfaEvidence) (now : Z) : result unit :=
  if negb (meets roles (required_roles p)) then Ok tt
  else require (match evidence with Some e => mfa_satisfied p e now | None => false end) MfaRequired "MFA_REQUIRED".

(** [datetime.fromtimestamp(seconds, tz=utc)]: the years 1 to 9999 *)
Definition fromtimestamp (seconds : Z) : result Z :=
  _ ← require ((- 2^63 <=? seconds)%Z && (seconds <? 2^63)%Z) OverflowError "timestamp out of range";
  _ ← require ((-62135596800 <=? seconds)%Z && (seconds <=? 253402300799)%Z) ValueError "year is out of range";
  Ok (seconds * 1000000)%Z.

Fixpoint nonempty_texts (l : list pyval) : option (list string) :=
  match l with
  | [] => Some []
  | PStr s :: l => if s =? "" then None else match nonempty_texts l with Some r => Some (s :: r) | None => None end
  | _ => None
  end.

Definition evidence_from_validated_claims (claims : mapping) (policy_version : string) : result (option MfaEvidence) :=
  match lookup_or claims "acr" PNone, lookup_or claims "amr" PNone, as_int (lookup_or claims "auth_time" PNone) with
  | PStr a, PList methods, Some seconds =>
      match nonempty_texts methods with
      | None => Ok None
      | Some l => t ← fromtimestamp seconds; Ok (Some (mkMfaEvidence a l (Some t) policy_version))
      end
  | _, _, _ => Ok None
  end.

(** ** [factory.py] *)

Inductive Authenticator :=
  | StaticTokenAuthenticator (identities : list (string * Identity))
  | OidcAuthenticator (policy : OidcPolicy) (keys : JwksProvider).

Section factory.
Context `{UrlLibrary}.

(** [create_authenticator]; [client] says whether an HTTP client was given. *)
Definition create_authenticator (profile : EnvironmentProfile) (mode : AuthenticationMode)
    (static_identities : option (list (string * Identity))) (policy : option OidcPolicy)
    (uri : option string) (client : bool) : result Authenticator :=
  _ ← require (negb (bool_decide (profile = PRODUCTION) && negb (bool_decide (mode = OIDC))))
        ValueError "PRODUCTION_REQUIRES_OIDC";
  match mode with
  | STATIC =>
      match static_identities with
      | Some ((_ :: _) as identities) => Ok (StaticTokenAuthenticator identities)
      | _ => raise ValueError "STATIC_IDENTITIES_REQUIRED"
      end
  | OIDC =>
      match policy, uri, client with
      | Some q, Some u, true =>
          keys ← jwks_provider (issuer q) u 300 20 (allow_insecure_loopback q);
          Ok (OidcAuthenticator q keys)
      | _, _, _ => raise ValueError "OIDC_TRUST_INPUT_REQUIRED"
      end
  end.
End factory.
