(* ===== verification/Sessions.v ===== *)
(** * Login transactions and browser sessions of the pilot's user interface

    [pilot_ui/session.py] and [pilot_ui/session_postgresql.py]. The clocks, the random tokens
    and the clock of the database are streams, and every store counts what it has used. The lock
    of a store makes each of its operations one step.

    [BrowserSessionStore] is the interface of the application; [MemorySessions] and
    [TableSessions] are the two stores behind it. Fernet and the keyed hash are the class
    [SessionCrypto]; a deadline is counted in the unit of the clock it is compared with. *)

From S2P Require Import Prelude Hmac PyVal Sha256 Identity PyDecimal Config Oidc.
From stdpp Require Import options.

(** ** [session.py]: tokens and login transactions *)

Record SensitiveToken := mkToken { token_value : string }.

(** [SensitiveToken.__post_init__] *)
Definition sensitive_token (value : string) : result SensitiveToken :=
  _ ← require (negb (value =? "") && (str_len value <=? 16384)%nat) BrowserOidcError "OIDC_TOKEN_INVALID";
  Ok (mkToken value).

Record LoginTransaction := mkLogin {
  state : string; nonce : string; code_verifier : string; return_path : string; login_expires_at : Z;
  browser_binding_hash : string
}.

(** [LoginTransactionStore]: its limits, and its transactions with the readings and draws used. *)
Record LoginLimits := mkLoginLimits { login_ttl : Z; login_capacity : Z; allowed_return_paths : list string }.
Record LoginStore := mkLogins {
  login_values : gmap string LoginTransaction; login_readings : nat; login_draws : nat
}.

(** [LoginTransactionStore.__init__] *)
Definition login_limits (ttl_seconds capacity : Z) (paths : list string) : result LoginLimits :=
  _ ← require ((30 <=? ttl_seconds) && (ttl_seconds <=? 600) && (1 <=? capacity) && (capacity <=? 10000))%Z
        ValueError "INVALID_LOGIN_TRANSACTION_LIMIT";
  Ok (mkLoginLimits ttl_seconds capacity paths).
Definition empty_logins : LoginStore := mkLogins ∅ 0 0.

Section logins.
(** [clock n] is the [n]-th reading, [token n b] the [n]-th draw, of [b] bytes. *)
Context `{HashAlg} (clock : nat → Z) (token : nat → nat → string).

Definition login_clock : stateful LoginStore Z := λ s,
  (Ok (clock (login_readings s)), mkLogins (login_values s) (S (login_readings s)) (login_draws s)).
Definition login_token (bytes : nat) : stateful LoginStore string := λ s,
  (Ok (token (login_draws s) bytes), mkLogins (login_values s) (login_readings s) (S (login_draws s))).
Definition set_logins (f : gmap string LoginTransaction → gmap string LoginTransaction) : stateful LoginStore unit :=
  modify (λ s, mkLogins (f (login_values s)) (login_readings s) (login_draws s)).

(** [_browser_binding_hash] *)
Definition _browser_binding_hash (value : string) : result string :=
  _ ← require (negb (value =? "") && (str_len value <=? 256)%nat) BrowserOidcError "OIDC_BROWSER_BINDING_INVALID";
  Ok (hexdigest value).

(** [LoginTransactionStore._prune] *)
Definition pending (now : Z) (t : LoginTransaction) : Prop := (now < login_expires_at t)%Z.
#[export] Instance pending_dec now t : Decision (pending now t).
Proof. unfold pending. apply _. Defined.
Definition prune_logins : stateful LoginStore unit :=
  now ← login_clock; set_logins (filter (λ kv, pending now kv.2)).

(** [LoginTransactionStore.create] *)
Definition create_login (l : LoginLimits) (path binding : string) : stateful LoginStore LoginTransaction :=
  _ ← guard_with (str_in path (allowed_return_paths l)) BrowserOidcError "OIDC_RETURN_PATH_INVALID";
  binding_hash ← lift (_browser_binding_hash binding);
  _ ← prune_logins;
  n ← gets (λ s, size (login_values s));
  _ ← guard_with (Z.of_nat n <? login_capacity l)%Z BrowserOidcError "OIDC_LOGIN_CAPACITY_EXCEEDED";
  st ← login_token 32;
  no ← login_token 32;
  verifier ← login_token 64;
  now ← login_clock;
  let transaction := mkLogin st no verifier path (now + login_ttl l) binding_hash in
  _ ← set_logins (<[st := transaction]>);
  mret transaction.

(** [LoginTransactionStore.consume]; the two digests that are compared are ASCII. *)
Definition consume_login (st binding : string) : stateful LoginStore LoginTransaction :=
  _ ← guard_with (negb (st =? "") && (str_len st <=? 256)%nat) BrowserOidcError "OIDC_STATE_INVALID";
  binding_hash ← lift (_browser_binding_hash binding);
  _ ← prune_logins;
  found ← gets (λ s, login_values s !! st);
  match found with
  | Some transaction =>
      if browser_binding_hash transaction =? binding_hash then
        _ ← set_logins (delete st);
        now ← login_clock;
        _ ← guard_with (now <? login_expires_at transaction)%Z BrowserOidcError "OIDC_STATE_INVALID";
        mret transaction
      else lift (raise BrowserOidcError "OIDC_STATE_INVALID")
  | None => lift (raise BrowserOidcError "OIDC_STATE_INVALID")
  end.
End logins.

(** ** [session.py]: sessions *)

Record BrowserSession := mkSession {
  session_id : string; csrf_token : string; access_token : SensitiveToken; session_identity : mapping;
  session_expires_at : Z
}.

Definition identity_required : list string := ["actor_id"; "tenant_id"; "actor_kind"; "roles"].
Definition identity_optional : list string := ["acr"; "amr"; "authenticated_at"; "mfa_policy_version"].

(** A text that is not empty, a list of such texts that is not empty *)
Definition nonempty_text (v : pyval) : option string :=
  match v with PStr s => if s =? "" then None else Some s | _ => None end.
Definition nonempty_list (v : pyval) : option (list string) :=
  match v with PList ((_ :: _) as l) => nonempty_texts l | _ => None end.

Definition identity_invalid {A} : result A := raise BrowserOidcError "OIDC_IDENTITY_INVALID".
Definition valid_or {A} (o : option A) : result A := or_raise o BrowserOidcError "OIDC_IDENTITY_INVALID".

(** [_safe_identity] *)
Definition _safe_identity (identity : mapping) : result mapping :=
  let get k := lookup_or identity k PNone in
  let has k := bool_decide (is_Some (assoc k identity)) in
  _ ← require (forallb has identity_required && known_fields (identity_required ++ identity_optional) identity)
        BrowserOidcError "OIDC_IDENTITY_INVALID";
  actor ← valid_or (nonempty_text (get "actor_id"));
  tenant ← valid_or (nonempty_text (get "tenant_id"));
  _ ← require (hashable (get "actor_kind")) TypeError "unhashable type";
  kind ← valid_or (match get "actor_kind" with
                   | PStr k => if str_in k ["HUMAN"; "AGENT"; "SERVICE"] then Some k else None
                   | _ => None
                   end);
  roles ← valid_or (nonempty_list (get "roles"));
  let safe := [("actor_id", PStr actor); ("tenant_id", PStr tenant); ("actor_kind", PStr kind);
               ("roles", PList (map PStr roles))] in
  if existsb has identity_optional then
    a ← valid_or (nonempty_text (get "acr"));
    methods ← valid_or (nonempty_list (get "amr"));
    at_ ← valid_or (nonempty_text (get "authenticated_at"));
    version ← valid_or (nonempty_text (get "mfa_policy_version"));
    Ok (safe ++ [("acr", PStr a); ("amr", PList (map PStr methods)); ("authenticated_at", PStr at_);
                 ("mfa_policy_version", PStr version)])
  else Ok safe.

(** [BrowserSessionStore], the interface *)
Class BrowserSessionStore (S : Type) := {
  store_create : SensitiveToken → mapping → Z → stateful S BrowserSession;
  store_get : option string → stateful S (option BrowserSession);
  store_destroy : option string → stateful S unit
}.

(** ** [SessionStore] *)
Module MemorySessions.
Record Limits := mkLimits { ttl : Z; capacity : Z }.
Record Store := mkStore { values : gmap string BrowserSession; readings : nat; draws : nat }.

(** [SessionStore.__init__] *)
Definition limits (ttl_seconds capacity : Z) : result Limits :=
  _ ← require ((30 <=? ttl_seconds) && (ttl_seconds <=? 1800) && (1 <=? capacity) && (capacity <=? 100000))%Z
        ValueError "INVALID_SESSION_LIMIT";
  Ok (mkLimits ttl_seconds capacity).
Definition empty : Store := mkStore ∅ 0 0.

Section store.
Context (clock : nat → Z) (token : nat → nat → string) (l : Limits).

Definition read_clock : stateful Store Z := λ s, (Ok (clock (readings s)), mkStore (values s) (S (readings s)) (draws s)).
Definition draw (bytes : nat) : stateful Store string := λ s,
  (Ok (token (draws s) bytes), mkStore (values s) (readings s) (S (draws s))).
Definition set_values (f : gmap string BrowserSession → gmap string BrowserSession) : stateful Store unit :=
  modify (λ s, mkStore (f (values s)) (readings s) (draws s)).

Definition live (now : Z) (x : BrowserSession) : Prop := (now < session_expires_at x)%Z.
#[export] Instance live_dec now x : Decision (live now x).
Proof. unfold live. apply _. Defined.
Definition _prune : stateful Store unit := now ← read_clock; set_values (filter (λ kv, live now kv.2)).

Definition create (tok : SensitiveToken) (identity : mapping) (token_expires_in : Z) : stateful Store BrowserSession :=
  _ ← guard_with (0 <? token_expires_in)%Z BrowserOidcError "OIDC_TOKEN_EXPIRED";
  safe ← lift (_safe_identity identity);
  _ ← _prune;
  n ← gets (λ s, size (values s));
  _ ← guard_with (Z.of_nat n <? capacity l)%Z BrowserOidcError "OIDC_SESSION_CAPACITY_EXCEEDED";
  id ← draw 32;
  csrf ← draw 32;
  now ← read_clock;
  let session := mkSession id csrf tok safe (now + Z.min (ttl l) token_expires_in) in
  _ ← set_values (<[id := session]>);
  mret session.

Definition get (id : option string) : stateful Store (option BrowserSession) :=
  match id with
  | Some i => if (256 <? str_len i)%nat then mret None else _ ← _prune; gets (λ s, values s !! i)
  | None => mret None
  end.

Definition destroy (id : option string) : stateful Store unit :=
  match id with Some i => set_values (delete i) | None => mret tt end.

Definition memory_store : BrowserSessionStore Store :=
  {| store_create := create; store_get := get; store_destroy := destroy |}.
End store.
End MemorySessions.

(** ** [PostgresSessionStore]

    The table [browser_sessions] and its functions are those of the migration
    [004_deployment_evidence_v0_9.sql]. Every connection is opened for the tenant or the digest
    its statement names, so row-level security hides no row of the statement. The deadline is an
    instant, in microseconds. *)

(** [hmac.new(pepper, value, sha256).hexdigest()] and the Fernet key; an encryption also depends
    on the time and on a random vector. *)
Class SessionCrypto := {
  session_hmac : string → string;
  fernet_encrypt : nat → string → string;
  fernet_decrypt : string → result string
}.
(** Fernet's round trip. *)
Class FernetRoundTrip `{SessionCrypto} : Prop :=
  decrypt_encrypt : ∀ n s, fernet_decrypt (fernet_encrypt n s) = Ok s.

Module TableSessions.
Record Row := mkRow {
  row_tenant : string; row_actor : string; identity_json : mapping; row_csrf : string;
  token_ciphertext : string; row_expires_at : Z; revoked : bool
}.
Record Settings := mkSettings { ttl : Z; required_mfa_policy_version : option string }.

(** The table, and the readings, draws and encryptions used. *)
Record Store := mkStore { rows : gmap string Row; readings : nat; draws : nat; encryptions : nat }.

(** [PostgresSessionStore.__init__], but for the envelope key *)
Definition settings (pepper : string) (ttl_seconds : Z) (version : option string) : result Settings :=
  _ ← require ((32 <=? String.length pepper)%nat && (30 <=? ttl_seconds)%Z && (ttl_seconds <=? 1800)%Z)
        ValueError "INVALID_SHARED_SESSION_CONFIGURATION";
  Ok (mkSettings ttl_seconds version).
Definition empty : Store := mkStore ∅ 0 0 0.

Section store.
Context `{SessionCrypto} (clock db_clock : nat → Z) (token : nat → nat → string) (c : Settings).

Definition read_clock (k : nat → Z) : stateful Store Z := λ s,
  (Ok (k (readings s)), mkStore (rows s) (S (readings s)) (draws s) (encryptions s)).
Definition draw (bytes : nat) : stateful Store string := λ s,
  (Ok (token (draws s) bytes), mkStore (rows s) (readings s) (S (draws s)) (encryptions s)).
Definition encrypt (text : string) : stateful Store string := λ s,
  (Ok (fernet_encrypt (encryptions s) text), mkStore (rows s) (readings s) (draws s) (S (encryptions s))).
Definition set_rows (f : gmap string Row → gmap string Row) : stateful Store unit :=
  modify (λ s, mkStore (f (rows s)) (readings s) (draws s) (encryptions s)).

Definition _digest (value : string) : string := "sha256:" +:+ session_hmac value.

(** [da_create_browser_session], on a connection of the tenant [current] *)
Definition da_create (current digest : string) (r : Row) (t : gmap string Row) : result (unit * gmap string Row) :=
  if row_tenant r =? current then
    _ ← require (bool_decide (t !! digest = None)) IntegrityError "browser_sessions_pkey"; Ok (tt, <[digest := r]> t)
  else Ok (tt, t).

(** [da_get_browser_session] *)
Definition da_get (now : Z) (digest : string) (t : gmap string Row) : option Row :=
  match t !! digest with
  | Some r => if negb (revoked r) && (now <? row_expires_at r)%Z then Some r else None
  | None => None
  end.

Definition revoke (r : Row) : Row :=
  mkRow (row_tenant r) (row_actor r) (identity_json r) (row_csrf r) (token_ciphertext r) (row_expires_at r) true.
(** [da_revoke_browser_session] and [da_revoke_actor_sessions] *)
Definition da_revoke (digest : string) (t : gmap string Row) : gmap string Row := alter revoke digest t.
Definition da_revoke_actor (current tenant actor : string) (t : gmap string Row) : gmap string Row :=
  fmap (λ r, if (row_tenant r =? tenant) && (row_actor r =? actor) && (tenant =? current) then revoke r else r) t.

Definition text_of (identity : mapping) (k : string) : string := py_str (lookup_or identity k PNone).

(** [create] *)
Definition create (tok : SensitiveToken) (identity : mapping) (token_expires_in : Z) : stateful Store BrowserSession :=
  _ ← guard_with (0 <? token_expires_in)%Z BrowserOidcError "OIDC_TOKEN_EXPIRED";
  safe ← lift (_safe_identity identity);
  id ← draw 32;
  csrf ← draw 32;
  now ← read_clock clock;
  let expires := (now + 1000000 * Z.min (ttl c) token_expires_in)%Z in
  encrypted ← encrypt (token_value tok);
  tenant ← lift (tenant_context (text_of safe "tenant_id"));
  _ ← zoom rows (λ t s, mkStore t (readings s) (draws s) (encryptions s))
        (transaction (da_create (tenant_id tenant) (_digest id)
           (mkRow (text_of safe "tenant_id") (text_of safe "actor_id") safe csrf encrypted expires false)));
  mret (mkSession id csrf tok safe expires).

(** [destroy] *)
Definition destroy (id : option string) : stateful Store unit :=
  match id with
  | Some i => if (256 <? str_len i)%nat then mret tt else set_rows (da_revoke (_digest i))
  | None => mret tt
  end.

(** The statements of the [try] statement of [get]. *)
Definition row_contents (r : Row) : result (string * mapping) :=
  tok ← fernet_decrypt (token_ciphertext r); safe ← _safe_identity (identity_json r); Ok (tok, safe).
Definition session_invalid (e : exn) : option exn :=
  if bool_decide (exn_cls e ∈ [InvalidToken; UnicodeDecodeError; JSONDecodeError; BrowserOidcError])
  then Some (Exn BrowserOidcError ["OIDC_SESSION_INVALID"]) else None.

Definition critical_roles : list string := ["SYSTEM_ADMINISTRATOR"; "TENANT_ADMIN"; "APPROVER"; "AUDITOR"].
Definition lacks_mfa (safe : mapping) : bool :=
  match required_mfa_policy_version c, lookup_or safe "roles" PNone with
  | Some version, PList roles =>
      existsb (λ r, str_in (py_str r) critical_roles) roles &&
      negb (py_eq (lookup_or safe "mfa_policy_version" PNone) (PStr version))
  | _, _ => false
  end.

(** [get] *)
Definition get (id : option string) : stateful Store (option BrowserSession) :=
  match id with
  | None => mret None
  | Some i =>
      if (256 <? str_len i)%nat then mret None
      else
        db_now ← read_clock db_clock;
        row ← gets (λ s, da_get db_now (_digest i) (rows s));
        match row with
        | None => mret None
        | Some r =>
            '(tok, safe) ← lift (rescue (row_contents r) session_invalid);
            now ← read_clock clock;
            if (row_expires_at r <=? now)%Z then _ ← destroy (Some i); mret None
            else if lacks_mfa safe then _ ← destroy (Some i); mret None
            else
              t ← lift (sensitive_token tok);
              mret (Some (mkSession i (row_csrf r) t safe (row_expires_at r)))
        end
  end.

(** [revoke_actor] *)
Definition revoke_actor (tenant actor : string) : stateful Store unit :=
  t ← lift (tenant_context tenant); set_rows (da_revoke_actor (tenant_id t) tenant actor).

Definition table_store : BrowserSessionStore Store :=
  {| store_create := create; store_get := get; store_destroy := destroy |}.
End store.
End TableSessions.
