(* ===== verification/BrowserOidc.v ===== *)
(** * The OpenID Connect client of the pilot's user interface

    [pilot_ui/oidc.py]: the authorization request with its PKCE challenge, the exchange of a code
    at the token endpoint, and the check of the identity token against the login transaction.

    The HTTP client is a stream of answers, and the log keeps the forms that were posted. *)

From S2P Require Import Prelude Hmac PyVal Sha256 Identity PyDecimal ResearchEvidence UrlPolicy Config Oidc Sessions.
From stdpp Require Import options.

Record TokenSet := mkTokens {
  tokens_access : SensitiveToken; expires_in : Z; authentication_claims : mapping
}.

(** [_PKCE_VERIFIER.fullmatch] *)
Definition is_verifier_char (c : ascii) : bool :=
  is_alnum c || Ascii.eqb c "." || Ascii.eqb c "_" || Ascii.eqb c "~" || Ascii.eqb c "-".
Definition _PKCE_VERIFIER (s : string) : bool :=
  str_forallb is_verifier_char s && (43 <=? String.length s)%nat && (String.length s <=? 128)%nat.

(** [base64.urlsafe_b64encode(b).decode().rstrip("=")] *)
Definition b64_char (z : Z) : ascii :=
  Ascii.ascii_of_nat (Z.to_nat
    (if z <? 26 then 65 + z else if z <? 52 then 71 + z else if z <? 62 then z - 4 else if z =? 62 then 45 else 95)%Z).
Definition b64_chars (l : list Z) : string := String.string_of_list_ascii (map (λ z, b64_char (Z.land z 63)) l).
Fixpoint b64_unpadded (l : list Z) : string :=
  match l with
  | a :: b :: c :: l =>
      b64_chars [Z.shiftr a 2; Z.lor (Z.shiftl a 4) (Z.shiftr b 4); Z.lor (Z.shiftl b 2) (Z.shiftr c 6); c] +:+ b64_unpadded l
  | [a; b] => b64_chars [Z.shiftr a 2; Z.lor (Z.shiftl a 4) (Z.shiftr b 4); Z.shiftl b 2]
  | [a] => b64_chars [Z.shiftr a 2; Z.shiftl a 4]
  | [] => ""
  end.

(** [hashlib.sha256(b).digest()], the bytes of the hexadecimal digest *)
Definition hex_val (c : ascii) : Z :=
  let n := Z.of_nat (Ascii.nat_of_ascii c) in if (n <? 58)%Z then (n - 48)%Z else (n - 87)%Z.
Fixpoint unhex (s : string) : list Z :=
  match s with String a (String b s) => (16 * hex_val a + hex_val b)%Z :: unhex s | _ => [] end.

Definition pkce_challenge `{HashAlg} (verifier : string) : string := b64_unpadded (unhex (hexdigest verifier)).

(** [OidcBrowserClient]: its configuration, and what it keeps. *)
Record BrowserClient := mkBrowserClient {
  browser_issuer : string; browser_client_id : string; authorization_endpoint : string; token_endpoint : string;
  redirect_uri : string; browser_keys : JwksProvider; browser_algorithms : list string
}.
Record BrowserState `{Jwt} := mkBrowser { key_cache : JwksCache; posted : list (list (string * string)) }.

(** [issuer.rstrip("/")] *)
Definition rstrip_slashes (s : string) : string :=
  str_join "" (rev ((fix drop (l : list string) := match l with c :: l' => if c =? "/" then drop l' else l | [] => [] end)
                      (rev (code_points s)))).

(** [OidcBrowserClient.__init__] *)
Definition host_of `{UrlLibrary} (url : string) : result (option string) := u ← urlsplit url; Ok (hostname u).
Definition https_endpoint `{UrlLibrary} (url : string) : result unit :=
  u ← urlsplit url;
  require ((scheme u =? "https") && match hostname u with Some h => negb (h =? "") | None => false end)
    ValueError "BROWSER_OIDC_HTTPS_REQUIRED".
Definition browser_client `{UrlLibrary} (issuer client_id authorization token redirect : string) (keys : JwksProvider)
    (algorithms : list string) : result BrowserClient :=
  _ ← require (negb (str_blank client_id) && negb (bool_decide (algorithms = []))) ValueError
        "INVALID_BROWSER_OIDC_CONFIGURATION";
  trusted ← host_of issuer;
  _ ← https_endpoint authorization; _ ← https_endpoint token; _ ← https_endpoint redirect;
  a ← host_of authorization;
  _ ← require (bool_decide (a = trusted)) ValueError "BROWSER_OIDC_ISSUER_MISMATCH";
  t ← host_of token;
  _ ← require (bool_decide (t = trusted)) ValueError "BROWSER_OIDC_ISSUER_MISMATCH";
  Ok (mkBrowserClient (rstrip_slashes issuer) client_id authorization token redirect keys algorithms).

Section client.
Context `{Jwt} (fetch : nat → result Response) (clock : nat → Z) (post : nat → result Response).

Definition empty_browser : BrowserState := mkBrowser _ empty_cache [].

(** [authorization_url] *)
Definition authorization_url `{HashAlg} `{UrlLibrary} (c : BrowserClient) (t : LoginTransaction) : result string :=
  _ ← require (_PKCE_VERIFIER (code_verifier t)) BrowserOidcError "OIDC_PKCE_VERIFIER_INVALID";
  Ok (authorization_endpoint c +:+ "?" +:+ urlencode
        [("client_id", browser_client_id c); ("redirect_uri", redirect_uri c); ("response_type", "code");
         ("scope", "openid da.api"); ("code_challenge", pkce_challenge (code_verifier t));
         ("code_challenge_method", "S256"); ("state", state t); ("nonce", nonce t)]).

(** ** The identity token *)

Definition id_token_options : mapping :=
  [("require", PList [PStr "iss"; PStr "aud"; PStr "sub"; PStr "iat"; PStr "exp"; PStr "nonce"]);
   ("verify_signature", PBool true); ("verify_aud", PBool true); ("verify_iss", PBool true);
   ("verify_exp", PBool true); ("verify_iat", PBool true)].

(** [{key: claims[key] for key in ("acr", "amr", "auth_time") if key in claims}] *)
Definition authentication_part (claims : mapping) : mapping :=
  omap (λ k, v ← assoc k claims; Some (k, v)) ["acr"; "amr"; "auth_time"].

(** The body of the [try] statement of [_validate_id_token]. *)
Definition checked_claims (c : BrowserClient) (token expected_nonce : string) : stateful JwksCache mapping :=
  header ← lift (get_unverified_header token);
  '(algorithm, kid) ← lift (or_raise (named_key (browser_algorithms c) header) BrowserOidcError "OIDC_ID_TOKEN_INVALID");
  key ← get_key fetch clock (browser_keys c) kid algorithm;
  claims ← lift (decode token key (browser_algorithms c) (browser_client_id c) (browser_issuer c) 0 id_token_options);
  match lookup_or claims "nonce" PNone with
  | PStr n =>
      same ← lift (compare_digest n expected_nonce);
      _ ← guard_with same BrowserOidcError "OIDC_NONCE_INVALID";
      mret (authentication_part claims)
  | _ => lift (raise BrowserOidcError "OIDC_NONCE_INVALID")
  end.

(** Its handlers. *)
Definition id_token_failure (e : exn) : option exn :=
  match exn_cls e with
  | BrowserOidcError => None
  | JwksResolutionError =>
      let reason := default "" (head (exn_args e)) in
      Some (Exn BrowserOidcError [if (reason =? "JWKS_UNAVAILABLE") || str_startswith "INVALID_JWKS_" reason
                                  then "OIDC_PROVIDER_UNAVAILABLE" else "OIDC_ID_TOKEN_INVALID"])
  | TypeError => Some (Exn BrowserOidcError ["OIDC_ID_TOKEN_INVALID"])
  | cls => if is_pyjwt_error cls || is_value_error cls then Some (Exn BrowserOidcError ["OIDC_ID_TOKEN_INVALID"]) else None
  end.

Definition _validate_id_token (c : BrowserClient) (token expected_nonce : string) : stateful JwksCache mapping := λ s,
  let '(r, s') := checked_claims c token expected_nonce s in (rescue r id_token_failure, s').

(** ** The exchange of a code *)

Definition token_form (c : BrowserClient) (code : string) (t : LoginTransaction) : list (string * string) :=
  [("grant_type", "authorization_code"); ("client_id", browser_client_id c); ("redirect_uri", redirect_uri c);
   ("code", code); ("code_verifier", code_verifier t)].

(** The [try] statement around the request: [raise_for_status] alone raises [HTTPStatusError]. *)
Definition exchange_failure (status : Z) (e : exn) : option exn :=
  match exn_cls e with
  | TimeoutException | NetworkError => Some (Exn BrowserOidcError ["OIDC_PROVIDER_UNAVAILABLE"])
  | HTTPStatusError =>
      Some (Exn BrowserOidcError [if (500 <=? status)%Z then "OIDC_PROVIDER_UNAVAILABLE" else "OIDC_CODE_EXCHANGE_FAILED"])
  | cls => if is_http_error cls || is_value_error cls then Some (Exn BrowserOidcError ["OIDC_CODE_EXCHANGE_FAILED"]) else None
  end.
Definition token_response (r : result Response) : result pyval :=
  match r with
  | Raise e => rescue (Raise e) (exchange_failure 0)
  | Ok r => rescue (_ ← raise_for_status r; response_json r) (exchange_failure (status_code r))
  end.

Definition post_form (form : list (string * string)) : stateful BrowserState pyval := λ s,
  (token_response (post (length (posted s))), mkBrowser _ (key_cache s) (posted s ++ [form])).

(** The fields of the answer: two tokens and a lifetime of a second to an hour. *)
Definition token_fields (payload : pyval) : result (string * string * Z) :=
  match payload with
  | PDict d =>
      match lookup_or d "access_token" PNone, lookup_or d "id_token" PNone, as_int (lookup_or d "expires_in" PNone) with
      | PStr access, PStr id, Some n =>
          _ ← require ((1 <=? n) && (n <=? 3600))%Z BrowserOidcError "OIDC_TOKEN_INVALID"; Ok (access, id, n)
      | _, _, _ => raise BrowserOidcError "OIDC_TOKEN_INVALID"
      end
  | _ => raise BrowserOidcError "OIDC_TOKEN_INVALID"
  end.

(** [exchange] *)
Definition exchange (c : BrowserClient) (code : string) (t : LoginTransaction) : stateful BrowserState TokenSet :=
  _ ← guard_with (negb (code =? "") && (str_len code <=? 4096)%nat) BrowserOidcError "OIDC_CODE_INVALID";
  _ ← guard_with (_PKCE_VERIFIER (code_verifier t)) BrowserOidcError "OIDC_PKCE_VERIFIER_INVALID";
  payload ← post_form (token_form c code t);
  '(access, id, n) ← lift (token_fields payload);
  claims ← zoom key_cache (λ k s, mkBrowser _ k (posted s)) (_validate_id_token c id (nonce t));
  tok ← lift (sensitive_token access);
  mret (mkTokens tok n claims).
End client.
