(* ===== verification/Events.v ===== *)
(** * The registry of event types

    [events/registry.py]: the envelope of a versioned event, the event types the registry knows
    in each version and each member of an export, and the migration of an envelope from version
    0.9.0 to 1.0.0. *)

From S2P Require Import Prelude PyVal JsonNumber Json Sha256 PyTime Config.
From stdpp Require Import options.

Definition EVENT_ERROR {A} (code : string) : result A := raise EventVersionError code.

(** [_text] *)
Definition _text (value : pyval) (code : string) : result string :=
  match value with
  | PStr s => if (s =? "") || (256 <? str_len s)%nat then EVENT_ERROR code else Ok s
  | _ => EVENT_ERROR code
  end.

(** [text.replace("+00:00", "Z")] *)
Fixpoint zulu (s : string) : string :=
  match s with
  | EmptyString => EmptyString
  | String a s1 =>
      match s1 with
      | String b (String c (String d (String e (String f r)))) =>
          if (String a (String b (String c (String d (String e (String f EmptyString))))) =? "+00:00")
          then String "Z" (zulu r) else String a (zulu s1)
      | _ => String a (zulu s1)
      end
  end.

Record EventEnvelope := mkEnvelope {
  event_type : string; ev_schema_version : string; event_id : string; ev_occurred_at : datetime;
  ev_tenant_id : string; ev_actor_id : string; ev_correlation_id : string; source_component : string;
  ev_payload : mapping
}.

(** [EventEnvelope.as_dict] *)
Definition envelope_dict (e : EventEnvelope) : mapping :=
  [("event_type", PStr (event_type e)); ("schema_version", PStr (ev_schema_version e));
   ("event_id", PStr (event_id e)); ("timestamp", PStr (zulu (isoformat (ev_occurred_at e))));
   ("tenant_id", PStr (ev_tenant_id e)); ("actor_id", PStr (ev_actor_id e));
   ("correlation_id", PStr (ev_correlation_id e)); ("source_component", PStr (source_component e));
   ("payload", PDict (ev_payload e))].

Record MigrationResult := mkMigration {
  migrated : EventEnvelope; source_version : string; target_version : string; original_hash : string
}.

(** ** [EventRegistry] *)

Definition _CURRENT : string := "1.0.0".
Definition _LEGACY : string := "0.9.0".
Definition _SUPPORTED_TYPES : list string :=
  ["deployment.evidence-created"; "deployment.pilot-accepted"; "export.signed"; "export.verification-failed";
   "recovery.test-completed"; "session.revoked"].
Definition _LEGACY_EXPORT_TYPES : list (string * list string) :=
  [("audit/decision-events.json",
    ["decision.received"; "decision.created"; "decision.evaluated"; "evidence.validated"; "finding.created";
     "governance.decided"; "review.requested"; "status.transitioned"]);
   ("audit/intake-events.json",
    ["intake.extracted"; "intake.readiness-determined"; "intake.fact-confirmed"; "intake.fact-corrected";
     "intake.compiled"; "intake.ready"]);
   ("audit/research-events.json",
    ["research.status-transitioned"; "research.egress-decision"; "research.evidence-attached"]);
   ("audit/lifecycle-events.json",
    ["data.deletion-blocked"; "data.deletion-completed"; "data.deletion-executing"; "data.deletion-requested";
     "data.legal-hold-placed"; "data.legal-hold-released"])].
(** [None] is one of the versions. *)
Definition _LEGACY_EXPORT_VERSIONS : list string :=
  ["0.3.0"; "0.8.0"; "research-audit-v1"; "research-egress-decision-v1"].

Definition envelope_fields (source : string) : list string :=
  ["event_type"; "schema_version"; "event_id"; "timestamp"; "tenant_id"; "actor_id"; "correlation_id"; source;
   "payload"].

(** [set(value) == fields] *)
Definition has_exactly (fields : list string) (value : mapping) : bool :=
  known_fields fields value && forallb (λ k, bool_decide (is_Some (assoc k value))) fields.

Definition event_timestamp (value : pyval) : result datetime :=
  match (s ← _text value "EVENT_TIMESTAMP_INVALID"; fromisoformat (replace_Z s)) with
  | Raise e => if is_value_error (exn_cls e) then EVENT_ERROR "EVENT_TIMESTAMP_INVALID" else Raise e
  | Ok t => if bool_decide (is_Some (utcoffset t)) then Ok t else EVENT_ERROR "EVENT_TIMESTAMP_INVALID"
  end.

(** [parse] *)
Definition parse (value : mapping) : result EventEnvelope :=
  let item k := lookup_or value k PNone in
  _ ← require (py_eq (item "schema_version") (PStr _CURRENT)) EventVersionError "EVENT_VERSION_UNSUPPORTED";
  payload ← match has_exactly (envelope_fields "source_component") value, item "payload" with
            | true, PDict d => Ok d
            | _, _ => EVENT_ERROR "EVENT_ENVELOPE_INVALID"
            end;
  occurred ← event_timestamp (item "timestamp");
  type ← _text (item "event_type") "EVENT_TYPE_INVALID";
  _ ← require (str_in type _SUPPORTED_TYPES) EventVersionError "EVENT_TYPE_UNSUPPORTED";
  id ← _text (item "event_id") "EVENT_ID_INVALID";
  tenant ← _text (item "tenant_id") "EVENT_TENANT_INVALID";
  actor ← _text (item "actor_id") "EVENT_ACTOR_INVALID";
  correlation ← _text (item "correlation_id") "EVENT_CORRELATION_INVALID";
  source ← _text (item "source_component") "EVENT_SOURCE_INVALID";
  Ok (mkEnvelope type _CURRENT id occurred tenant actor correlation source payload).

(** [value in frozenset(...)] of a version: an unhashable value has no place in a set. *)
Definition legacy_version (v : pyval) : result bool :=
  _ ← require (hashable v) TypeError "unhashable type";
  Ok match v with PNone => true | PStr s => str_in s _LEGACY_EXPORT_VERSIONS | _ => false end.

(** [validate_export_event] *)
Definition validate_export_event (member : string) (value : mapping) : result unit :=
  let version := lookup_or value "schema_version" PNone in
  if py_eq version (PStr _CURRENT) then _ ← parse value; Ok tt
  else
    legacy ← legacy_version version;
    require (legacy && match lookup_or value "event_type" PNone with
                       | PStr type => str_in type (default [] (assoc member _LEGACY_EXPORT_TYPES))
                       | _ => false
                       end) EventVersionError "EXPORT_EVENT_VERSION_OR_TYPE_UNSUPPORTED".

(** [json.dumps] with [ensure_ascii]: every character outside the printable ASCII range is escaped
    by its UTF-16 units. *)
Definition code_point (c : string) : N :=
  match String.list_ascii_of_string c with
  | [] => 0
  | b :: l =>
      let n := Ascii.N_of_ascii b in
      let first := if (n <? 128)%N then n else if (n <? 224)%N then (n - 192)%N
                   else if (n <? 240)%N then (n - 224)%N else (n - 240)%N in
      foldl (λ acc b, acc * 64 + (Ascii.N_of_ascii b - 128))%N first l
  end.
Definition hex4_app (u : N) (k : string) : string :=
  let digit d := hex_digit (N.to_nat (u / d mod 16)) in
  String bs (String "u" (String (digit 4096%N) (String (digit 256%N) (String (digit 16%N) (String (digit 1%N) k))))).
Definition ascii_escape (c k : string) : string :=
  let u := code_point c in
  if (u <? 127)%N then c +:+ k
  else if (u <? 65536)%N then hex4_app u k
  else hex4_app (55296 + (u - 65536) / 1024)%N (hex4_app (56320 + (u - 65536) mod 1024)%N k).
Definition canonical_ascii (v : pyval) : string := foldr ascii_escape "" (code_points (canonical_json v)).

(** [migrate]: [source] becomes [source_component], at the end of the dictionary. *)
Definition drop_key (k : string) (d : mapping) : mapping := filter (λ kv, kv.1 ≠ k) d.

Definition migrate `{HashAlg} (value : mapping) (target : string) : result MigrationResult :=
  _ ← require (py_eq (lookup_or value "schema_version" PNone) (PStr _LEGACY) && (target =? _CURRENT))
        EventVersionError "EVENT_MIGRATION_UNSUPPORTED";
  _ ← require (has_exactly (envelope_fields "source") value) EventVersionError "EVENT_MIGRATION_DATA_LOSS";
  let moved := drop_key "source" (assoc_set "schema_version" (PStr target) value) in
  e ← parse (assoc_set "source_component" (lookup_or value "source" PNone) moved);
  Ok (mkMigration e _LEGACY _CURRENT ("sha256:" +:+ hexdigest (canonical_ascii (PDict value)))).
