(* ===== verification/Export.v ===== *)
(** * Pilot exports

    [export/service.py], [export/signing.py] and [export/validator.py]: the archive built from a
    snapshot of a decision, its signed manifest, and the offline validation of an archive. An
    archive is the list of its entries; the ZIP format, the schema validator and Ed25519 are
    parameters. *)

From S2P Require Import Prelude PyVal JsonNumber Json JsonLoads Sha256 PyTime AuditChain Identity ResearchEvidence Config Events.
From stdpp Require Import options.

(** An entry: its name, its declared size and what reading it gives. *)
Record Entry := mkEntry { filename : string; file_size : Z; content : result string }.

(** The ZIP format: the archive of a list of members, and the entries of an archive. *)
Class ZipFile := {
  zip_write : list (string * string) → string;
  zip_entries : string → result (list Entry)
}.

(** [json.loads] of bytes decodes them first. *)
Class BytesText := decode_bytes : string → result string.

(** Base64 and the key format are part of the signature library: a signature is its text. *)
Class Ed25519 := verify_signature : string → string → string → bool.

(** The errors of the schema [pilot-export.schema.json] or its v0.9 form. *)
Class ManifestSchema := manifest_valid : string → pyval → bool.

Definition EXPORT_MEMBERS : list string :=
  ["decision/decision-file.json"; "decision/assurance-report.json"; "intake/intake-records.json";
   "research/research-runs.json"; "research/sources.json"; "research/evidence.json";
   "audit/decision-events.json"; "audit/intake-events.json"; "audit/research-events.json";
   "audit/lifecycle-events.json"].

Definition audit_members : list string :=
  ["audit/decision-events.json"; "audit/intake-events.json"; "audit/research-events.json";
   "audit/lifecycle-events.json"].

(** ** [signing.py] *)

(** [_utc], in microseconds *)
Definition _utc (t : datetime) : result Z :=
  _ ← require (bool_decide (is_Some (utcoffset t))) ValueError "SIGNING_TIME_MUST_BE_AWARE";
  utc_micros t.

Record SignatureEnvelope := mkSignature {
  format_version : string; algorithm : string; sig_key_id : string; signed_at : string; signature : string
}.
Definition signature_dict (e : SignatureEnvelope) : pyval :=
  PDict [("format_version", PStr (format_version e)); ("algorithm", PStr (algorithm e));
         ("key_id", PStr (sig_key_id e)); ("signed_at", PStr (signed_at e)); ("signature", PStr (signature e))].

Record VerificationKey := mkKey {
  vk_id : string; public_key_pem : string; not_before : datetime; not_after : datetime;
  revoked_at : option datetime
}.

(** [VerificationKey.usable_at] *)
Definition usable_at (k : VerificationKey) (t : datetime) : result bool :=
  instant ← _utc t;
  before ← _utc (not_before k);
  if (instant <? before)%Z then Ok false
  else
    after ← _utc (not_after k);
    if (after <? instant)%Z then Ok false
    else match revoked_at k with
         | None => Ok true
         | Some r => revoked ← _utc r; Ok (instant <? revoked)%Z
         end.

(** [_signing_input] *)
Definition _signing_input (e : SignatureEnvelope) (payload : string) : string :=
  canonical_json (PDict [("algorithm", PStr (algorithm e)); ("format_version", PStr (format_version e));
                         ("key_id", PStr (sig_key_id e)); ("signed_at", PStr (signed_at e))])
    +:+ "." +:+ payload.

(** A signer: its key and what the private key makes of a message. *)
Record Signer := mkSigner { signer_key_id : string; private_sign : string → string }.

(** [Ed25519Signer.__init__] *)
Definition ed25519_signer (s : Signer) : result Signer :=
  _ ← require (negb (signer_key_id s =? "") && (str_len (signer_key_id s) <=? 128)%nat)
        ValueError "INVALID_SIGNING_KEY_ID"; Ok s.

(** [sign], at the time the clock of the signer reads, in UTC *)
Definition sign (s : Signer) (clock : datetime) (payload : string) : SignatureEnvelope :=
  let unsigned := mkSignature "1.0.0" "EdDSA" (signer_key_id s) (zulu (isoformat clock)) "" in
  mkSignature (format_version unsigned) (algorithm unsigned) (sig_key_id unsigned) (signed_at unsigned)
    (private_sign s (_signing_input unsigned payload)).

(** [verify_ed25519] *)
Definition verify_ed25519 `{Ed25519} (pem payload signature : string) (e : SignatureEnvelope) : bool :=
  verify_signature pem signature (_signing_input e payload).

(** ** [service.py] *)

Definition _SENSITIVE_KEYS : list string :=
  ["access_token"; "refresh_token"; "id_token"; "authorization"; "password"; "secret"; "api_key"; "prompt";
   "code_verifier"].

(** [key.casefold().replace("-", "_")] *)
Fixpoint underscored (s : string) : string :=
  match s with
  | EmptyString => EmptyString
  | String c s => String (if Ascii.eqb c "-" then "_"%char else c) (underscored s)
  end.

Section export.
Context `{HashAlg} `{CaseFolding} `{ZipFile}.

Definition sensitive_key (k : string) : bool :=
  let n := underscored (casefold k) in str_in n _SENSITIVE_KEYS || UrlPolicy.str_endswith "_secret" n.

Fixpoint _contains_sensitive_field (v : pyval) : bool :=
  match v with
  | PDict d => existsb (λ kv, sensitive_key kv.1 || _contains_sensitive_field kv.2) d
  | PList l => existsb _contains_sensitive_field l
  | _ => false
  end.

Fixpoint validate_events (member : string) (l : list pyval) : result unit :=
  match l with
  | [] => Ok tt
  | PDict e :: l => _ ← validate_export_event member e; validate_events member l
  | _ :: _ => EVENT_ERROR "EVENT_ENVELOPE_INVALID"
  end.

Definition is_dict (v : pyval) : bool := match v with PDict _ => true | _ => false end.

(** [_validate_export_events] *)
Fixpoint validate_members (members : list string) (snapshot : mapping) : result unit :=
  match members with
  | [] => Ok tt
  | m :: members =>
      v ← or_raise (assoc m snapshot) KeyError m;
      l ← match v with PList l => Ok l | _ => EVENT_ERROR "EVENT_ENVELOPE_INVALID" end;
      _ ← require (forallb is_dict l) EventVersionError "EVENT_ENVELOPE_INVALID";
      _ ← validate_events m l;
      validate_members members snapshot
  end.
Definition _validate_export_events (snapshot : mapping) : result unit :=
  validate_members (filter (λ m, str_startswith "audit/" m = true) EXPORT_MEMBERS) snapshot.

(** The service, with the metadata of the build. *)
Record ExportService := mkService {
  version : string; commit_sha : string; policy_versions : mapping; signer : option Signer;
  event_schema_version : string
}.

(** [PilotExportService.__init__] *)
Definition export_service (s : ExportService) : result ExportService :=
  _ ← require (negb (str_blank (version s)) &&
               (Nat.eqb (str_len (commit_sha s)) 40 || Nat.eqb (str_len (commit_sha s)) 64))
        ValueError "INVALID_EXPORT_BUILD_METADATA"; Ok s.

Definition REFUSE {A} (reason : string) : result A := raise ExportRejected reason.

(** [{name: _canonical_json(snapshot[name]) for name in EXPORT_MEMBERS}] *)
Definition member_bytes (snapshot : mapping) (name : string) : string * string :=
  (name, canonical_json (lookup_or snapshot name PNone)).

Definition member_record (m : string * string) : pyval :=
  PDict [("path", PStr m.1); ("sha256", PStr (hexdigest m.2)); ("bytes", PInt (Z.of_nat (String.length m.2)))].

Definition manifest_of (s : ExportService) (tenant decision_id generated_at : string)
    (members : list (string * string)) : pyval :=
  let seed := canonical_json (PDict [("tenant", PStr tenant); ("case", PStr decision_id);
                                     ("generated_at", PStr generated_at); ("commit", PStr (commit_sha s))]) in
  let signed := bool_decide (is_Some (signer s)) in
  PDict ([("schema_version", PStr (if signed then "0.9.0" else "0.8.0"));
          ("export_id", PStr ("export-" +:+ String.substring 0 24 (hexdigest seed)));
          ("case_ref", PStr decision_id); ("generated_at", PStr generated_at);
          ("software", PDict [("version", PStr (version s)); ("commit_sha", PStr (commit_sha s))]);
          ("policy_versions", PDict (policy_versions s)); ("members", PList (map member_record members))] ++
         (if signed then [("tenant_id", PStr tenant); ("decision_id", PStr decision_id);
                          ("event_schema_version", PStr (event_schema_version s))] else [])).

(** What [build] writes, in order *)
Definition archive_members (s : ExportService) (signing_clock : datetime) (manifest : string)
    (members : list (string * string)) : list (string * string) :=
  ("manifest.json", manifest) ::
  match signer s with
  | Some k => [("signature.json", canonical_json (signature_dict (sign k signing_clock manifest)))]
  | None => []
  end ++ members.

(** [build]: [snapshot] is what the repository answers, the clocks are the service's and the
    signer's, in UTC. *)
Definition build (s : ExportService) (identity : Identity) (decision_id : string)
    (snapshot : option mapping) (clock signing_clock : datetime) : result string :=
  _ ← authorize identity PILOT_EXPORT;
  snapshot ← match snapshot with Some d => Ok d | None => REFUSE "CASE_NOT_FOUND" end;
  _ ← require (has_exactly EXPORT_MEMBERS snapshot) ExportRejected "INCOMPLETE_EXPORT_SNAPSHOT";
  _ ← require (negb (_contains_sensitive_field (PDict snapshot))) ExportRejected "SENSITIVE_EXPORT_FIELD";
  _ ← match signer s with
      | None => Ok tt
      | Some _ =>
          match _validate_export_events snapshot with
          | Raise e => if bool_decide (exn_cls e = EventVersionError)
                       then REFUSE "EXPORT_EVENT_VERSION_OR_TYPE_UNSUPPORTED" else Raise e
          | Ok u => Ok u
          end
      end;
  let members := map (member_bytes snapshot) EXPORT_MEMBERS in
  let generated_at := zulu (isoformat clock) in
  let manifest := canonical_json (manifest_of s (tenant_id (identity_tenant identity)) decision_id generated_at members) in
  Ok (zip_write (archive_members s signing_clock manifest members)).
End export.
