(* ===== verification/ExportValidator.v ===== *)
(** * The offline validator of an export

    [export/validator.py]: what makes an archive acceptable. The archive's bytes come from
    anywhere; an error of [json.loads] or of the checks is [ExportValidationError], the other
    exceptions leave [validate_export] as they are raised. *)

From S2P Require Import Prelude Hmac PyVal JsonNumber Json JsonLoads Sha256 PyTime AuditChain Config UrlPolicy Events Export.
From stdpp Require Import options.

Definition MAX_ARCHIVE_BYTES : Z := 20 * 1024 * 1024.
Definition MAX_UNCOMPRESSED_BYTES : Z := 40 * 1024 * 1024.

Record ValidationReport := mkReport {
  valid : bool; case_ref : string; member_count : nat; export_id : string; provenance_status : string;
  rep_tenant_id : option string; rep_key_id : option string
}.

Definition REJECT {A} (code : string) : result A := raise ExportValidationError code.

(** [except classes: raise ExportValidationError(code)] *)
Definition or_reject {A} (classes : list exn_class) (code : string) (m : result A) : result A :=
  match m with
  | Ok a => Ok a
  | Raise e => if bool_decide (exn_cls e ∈ classes) then REJECT code else Raise e
  end.

(** [_safe_path] *)
Definition _safe_path (name : string) : bool :=
  negb (str_contains "\" name || str_startswith "/" name || str_contains ":" name) &&
  (negb (name =? "") && negb (str_in ".." (split_slashes "" name))).

(** [_constant_equal] *)
Definition _constant_equal (left : pyval) (right : string) : result bool :=
  match left with
  | PStr l => _ ← require (is_ascii l && is_ascii right) TypeError "compare_digest"; Ok (l =? right)
  | _ => Ok false
  end.

(** [text.rsplit(marker, 1)[0]], when the marker occurs *)
Fixpoint before_last (marker s : string) : option string :=
  match s with
  | EmptyString => None
  | String c r => match before_last marker r with
                  | Some t => Some (String c t)
                  | None => if str_startswith marker s then Some "" else None
                  end
  end.

Definition markers_of (name : string) : list string :=
  if name =? "audit/intake-events.json" then [":intake-audit:"]
  else if name =? "audit/research-events.json" then [":research-audit:"; ":egress:"] else [].

Fixpoint first_stream (markers : list string) (event_id : string) : option string :=
  match markers with
  | [] => None
  | m :: markers => match before_last m event_id with
                    | Some (String c s) => Some (String c s)
                    | _ => first_stream markers event_id
                    end
  end.

(** [_audit_stream] *)
Definition _audit_stream (name : string) (event : mapping) : result string :=
  if name =? "audit/decision-events.json" then Ok "decision"
  else match lookup_or event "event_id" PNone with
       | PStr event_id => or_raise (first_stream (markers_of name) event_id) ExportValidationError
                            "INVALID_EXPORT_AUDIT_CHAIN"
       | _ => REJECT "INVALID_EXPORT_AUDIT_CHAIN"
       end.

Section validator.
Context `{HashAlg}.

(** [_prefixed_hash] *)
Definition _prefixed_hash (v : pyval) : string := "sha256:" +:+ hexdigest (canonical_json v).

(** The first event of a stream has no previous one, the others link to the last of it. *)
Fixpoint check_streams (stream_of : mapping → result string) (previous : list (string * string))
    (events : list mapping) : result unit :=
  match events with
  | [] => Ok tt
  | e :: events =>
      stream ← stream_of e;
      _ ← require (py_eq (lookup_or e "previous_event_hash" PNone)
                         (match assoc stream previous with Some h => PStr h | None => PNone end))
            ExportValidationError "INVALID_EXPORT_AUDIT_CHAIN";
      check_streams stream_of (assoc_set stream (_prefixed_hash (PDict e)) previous) events
  end.

(** [isinstance(events, list)] of dictionaries *)
Definition dicts_of (v : pyval) : result (list mapping) :=
  match v with
  | PList l => mapM (λ x, match x with PDict d => Ok d | _ => REJECT "INVALID_EXPORT_AUDIT_CHAIN" end) l
  | _ => REJECT "INVALID_EXPORT_AUDIT_CHAIN"
  end.

Fixpoint check_lifecycle (previous : list (string * string)) (events : list mapping) : result unit :=
  match events with
  | [] => Ok tt
  | e :: events =>
      match lookup_or e "request_id" PNone, lookup_or e "event_hash" PNone with
      | PStr request_id, PStr event_hash =>
          _ ← require (py_eq (lookup_or e "previous_event_hash" PNone)
                             (match assoc request_id previous with Some h => PStr h | None => PNone end))
                ExportValidationError "INVALID_EXPORT_AUDIT_CHAIN";
          equal ← _constant_equal (PStr event_hash)
                    (_prefixed_hash (PDict (filter (λ kv, kv.1 ∉ ["schema_version"; "event_hash"]) e)));
          _ ← require equal ExportValidationError "INVALID_EXPORT_AUDIT_CHAIN";
          check_lifecycle (assoc_set request_id event_hash previous) events
      | _, _ => REJECT "INVALID_EXPORT_AUDIT_CHAIN"
      end
  end.

Definition linked_members : list string :=
  ["audit/decision-events.json"; "audit/intake-events.json"; "audit/research-events.json"].

Fixpoint check_linked (names : list string) (members : mapping) : result unit :=
  match names with
  | [] => Ok tt
  | name :: names =>
      v ← or_raise (assoc name members) KeyError name;
      events ← dicts_of v;
      _ ← check_streams (_audit_stream name) [] events;
      check_linked names members
  end.

(** [_validate_audit_chains] *)
Definition _validate_audit_chains (members : mapping) : result unit :=
  _ ← check_linked linked_members members;
  v ← or_raise (assoc "audit/lifecycle-events.json" members) KeyError "audit/lifecycle-events.json";
  lifecycle ← dicts_of v;
  check_lifecycle [] lifecycle.

(** [_validate_export_event_versions] *)
Fixpoint check_versions (names : list string) (members : mapping) : result unit :=
  match names with
  | [] => Ok tt
  | name :: names =>
      v ← or_raise (assoc name members) KeyError name;
      l ← match v with PList l => Ok l | _ => EVENT_ERROR "EVENT_ENVELOPE_INVALID" end;
      _ ← validate_events name l;
      check_versions names members
  end.
Definition _validate_export_event_versions (members : mapping) : result unit :=
  check_versions audit_members members.

Context `{FloatText} `{BytesText} `{Ed25519} `{ManifestSchema} `{ZipFile}.

Definition json_of (bytes : string) : result pyval := text ← decode_bytes bytes; loads text.

(** [set(v) == names]: the elements of a list, the keys of a dictionary. *)
Definition set_is (names : list string) (v : pyval) : result bool :=
  l ← py_iter v;
  _ ← require (forallb hashable l) TypeError "unhashable type";
  Ok (forallb (λ x, match x with PStr s => str_in s names | _ => false end) l &&
      forallb (λ n, existsb (pyval_eqb (PStr n)) l) names).

Definition signature_fields : list string := ["format_version"; "algorithm"; "key_id"; "signed_at"; "signature"].

(** [t <= u] *)
Definition datetime_le (t u : datetime) : result bool := b ← datetime_lt u t; Ok (negb b).

Definition timestamp_of (v : pyval) : result datetime := fromisoformat (replace_Z (py_str v)).

(** The key was usable when the envelope says it signed, and is not revoked at the time of the
    verification. *)
Definition check_key (key : VerificationKey) (at_ : pyval) (verification_time : datetime) : result unit :=
  signed ← match timestamp_of at_ with
           | Raise e => if is_value_error (exn_cls e) then REJECT "EXPORT_SIGNATURE_INVALID" else Raise e
           | Ok t => Ok t
           end;
  _ ← require (bool_decide (is_Some (utcoffset signed))) ExportValidationError "EXPORT_SIGNING_KEY_UNUSABLE";
  usable ← usable_at key signed;
  _ ← require usable ExportValidationError "EXPORT_SIGNING_KEY_UNUSABLE";
  revoked ← match revoked_at key with None => Ok false | Some r => datetime_le r verification_time end;
  require (negb revoked) ExportValidationError "EXPORT_SIGNING_KEY_UNUSABLE".

(** [_validate_signature] *)
Definition _validate_signature (raw manifest_bytes : string) (resolver : option (string → option VerificationKey))
    (verification_time : datetime) : result string :=
  envelope ← or_reject [JSONDecodeError; UnicodeDecodeError] "EXPORT_SIGNATURE_INVALID" (json_of raw);
  fields ← set_is signature_fields envelope;
  _ ← require fields ExportValidationError "EXPORT_SIGNATURE_INVALID";
  format ← py_get envelope "format_version" PNone;
  _ ← require (py_eq format (PStr "1.0.0")) ExportValidationError "EXPORT_SIGNATURE_VERSION_UNSUPPORTED";
  alg ← py_get envelope "algorithm" PNone;
  _ ← require (py_eq alg (PStr "EdDSA")) ExportValidationError "EXPORT_SIGNATURE_ALGORITHM_UNSUPPORTED";
  key_id ← py_get envelope "key_id" PNone;
  text ← py_get envelope "signature" PNone;
  match key_id, text, resolver with
  | PStr key_id, PStr text, Some resolve =>
      key ← or_raise (resolve key_id) ExportValidationError "EXPORT_SIGNING_KEY_UNKNOWN";
      at_ ← py_item envelope "signed_at";
      _ ← check_key key at_ verification_time;
      let e := mkSignature (py_str format) (py_str alg) key_id (py_str at_) text in
      _ ← require (verify_ed25519 (public_key_pem key) manifest_bytes text e)
            ExportValidationError "EXPORT_SIGNATURE_INVALID";
      Ok key_id
  | _, _, _ => REJECT "EXPORT_SIGNING_KEY_UNKNOWN"
  end.

(** [archive.read(name)] *)
Definition read_entry (entries : list Entry) (name : string) : result string :=
  match list_find (λ e, filename e = name) entries with
  | Some (_, e) => content e
  | None => raise KeyError name
  end.

Definition schema_file (version : string) : string :=
  if version =? "0.9.0" then "pilot-export-v0.9.schema.json" else "pilot-export.schema.json".

(** [_validate_manifest] *)
Definition _validate_manifest (manifest : pyval) (version : string) : result unit :=
  require (manifest_valid (schema_file version) manifest) ExportValidationError "INVALID_EXPORT_MANIFEST".

(** [{item["path"]: item for item in declared}]; [None] when a path is no string. *)
Fixpoint by_path (items : list pyval) (acc : mapping) : result (option mapping) :=
  match items with
  | [] => Ok (Some acc)
  | item :: items =>
      path ← py_item item "path";
      _ ← require (hashable path) TypeError "unhashable type";
      match path with
      | PStr p => by_path items (assoc_set p item acc)
      | _ => _ ← by_path items acc; Ok None
      end
  end.

(** A member, checked against its declaration *)
Definition read_member (entries : list Entry) (declared : mapping) (name : string) : result (string * pyval) :=
  payload ← read_entry entries name;
  declaration ← or_raise (assoc name declared) KeyError name;
  size ← py_item declaration "bytes";
  _ ← require (py_eq size (PInt (Z.of_nat (String.length payload)))) ExportValidationError
        "EXPORT_CHECKSUM_MISMATCH";
  digest ← py_item declaration "sha256";
  equal ← _constant_equal digest (hexdigest payload);
  _ ← require equal ExportValidationError "EXPORT_CHECKSUM_MISMATCH";
  v ← or_reject [JSONDecodeError; UnicodeDecodeError] "INVALID_EXPORT_MEMBER" (json_of payload);
  Ok (name, v).

Definition expected_names (signed : bool) : list string :=
  "manifest.json" :: EXPORT_MEMBERS ++ (if signed then ["signature.json"] else []).

Definition manifest_version (manifest : pyval) : result string :=
  version ← py_get manifest "schema_version" PNone;
  _ ← require (hashable version) TypeError "unhashable type";
  match version with
  | PStr v => if str_in v ["0.8.0"; "0.9.0"] then Ok v else REJECT "EXPORT_VERSION_UNSUPPORTED"
  | _ => REJECT "EXPORT_VERSION_UNSUPPORTED"
  end.

(** The declarations of the manifest, one for each member *)
Definition declarations (manifest : pyval) : result (list pyval * mapping) :=
  declared ← py_item manifest "members";
  items ← match declared with PList l => Ok l | _ => REJECT "INVALID_EXPORT_MANIFEST" end;
  paths ← by_path items [];
  match paths with
  | Some d => _ ← require (same_set d.*1 EXPORT_MEMBERS && Nat.eqb (length d) (length items))
                    ExportValidationError "EXPORT_MEMBER_SET_MISMATCH"; Ok (items, d)
  | None => REJECT "EXPORT_MEMBER_SET_MISMATCH"
  end.

(** What the signature of a 0.9.0 export adds: the status, the tenant and the key *)
Definition provenance (entries : list Entry) (version manifest_bytes : string) (manifest : pyval)
    (resolver : option (string → option VerificationKey)) (expected_tenant : option string)
    (verification_time : datetime) : result (string * option string * option string) :=
  if negb (version =? "0.9.0") then Ok ("LEGACY_UNSIGNED", None, None)
  else
    tenant ← py_item manifest "tenant_id";
    let tenant := py_str tenant in
    _ ← match expected_tenant with
        | None => Ok tt
        | Some t => equal ← _constant_equal (PStr tenant) t;
                    require equal ExportValidationError "EXPORT_TENANT_MISMATCH"
        end;
    raw ← read_entry entries "signature.json";
    key ← _validate_signature raw manifest_bytes resolver verification_time;
    Ok ("SIGNED_VALID", Some tenant, Some key).

Definition check_names (names : list string) (signed : bool) : result unit :=
  if same_set names (expected_names signed) then Ok tt
  else if signed && negb (str_in "signature.json" names) then REJECT "EXPORT_SIGNATURE_MISSING"
  else REJECT "EXPORT_MEMBER_SET_MISMATCH".

(** The body of [with archive:] *)
Definition validate_entries (entries : list Entry) (resolver : option (string → option VerificationKey))
    (expected_tenant : option string) (verification_time : datetime) : result ValidationReport :=
  let names := map filename entries in
  _ ← require (bool_decide (NoDup names)) ExportValidationError "DUPLICATE_EXPORT_MEMBER";
  _ ← require (forallb _safe_path names) ExportValidationError "EXPORT_PATH_REJECTED";
  '(manifest_bytes, manifest) ← or_reject [KeyError; JSONDecodeError; UnicodeDecodeError] "INVALID_EXPORT_MANIFEST"
      (b ← read_entry entries "manifest.json"; m ← json_of b; Ok (b, m));
  version ← manifest_version manifest;
  _ ← check_names names (version =? "0.9.0");
  _ ← require (foldr (λ e n, file_size e + n) 0 entries <=? MAX_UNCOMPRESSED_BYTES)%Z
        ExportValidationError "EXPORT_SIZE_REJECTED";
  _ ← _validate_manifest manifest version;
  '(items, declared) ← declarations manifest;
  members ← mapM (read_member entries declared) EXPORT_MEMBERS;
  _ ← _validate_audit_chains members;
  _ ← (if version =? "0.9.0"
       then or_reject [EventVersionError] "EXPORT_EVENT_VERSION_OR_TYPE_UNSUPPORTED"
              (_validate_export_event_versions members)
       else Ok tt);
  '(status, tenant, key) ←
    provenance entries version manifest_bytes manifest resolver expected_tenant verification_time;
  ref ← py_item manifest "case_ref";
  id ← py_item manifest "export_id";
  Ok (mkReport true (py_str ref) (length items) (py_str id) status tenant key).

(** [validate_export] *)
Definition validate_export (content : string) (resolver : option (string → option VerificationKey))
    (expected_tenant : option string) (verification_time : datetime) : result ValidationReport :=
  _ ← require (negb (content =? "") && (Z.of_nat (String.length content) <=? MAX_ARCHIVE_BYTES)%Z)
        ExportValidationError "EXPORT_SIZE_REJECTED";
  entries ← or_reject [BadZipFile] "INVALID_EXPORT_ARCHIVE" (zip_entries content);
  validate_entries entries resolver expected_tenant verification_time.

(** ** [_load_key_registry], on what reading the file gives *)
Definition REGISTRY {A} : result A := REJECT "INVALID_VERIFICATION_KEY_REGISTRY".

Definition registry_fields : list string := ["key_id"; "public_key_pem"; "not_before"; "not_after"; "revoked_at"].

Definition registry_key (keys : list (string * VerificationKey)) (item : mapping) : result VerificationKey :=
  let at_ k := lookup_or item k PNone in
  let key_id := py_str (at_ "key_id") in
  before ← timestamp_of (at_ "not_before");
  after ← timestamp_of (at_ "not_after");
  revoked ← match at_ "revoked_at" with PNone => Ok None | v => t ← timestamp_of v; Ok (Some t) end;
  _ ← require (bool_decide (assoc key_id keys = None) && bool_decide (is_Some (utcoffset before)) &&
               bool_decide (is_Some (utcoffset after))) ValueError "";
  Ok (mkKey key_id (py_str (at_ "public_key_pem")) before after revoked).

Fixpoint registry_keys (keys : list (string * VerificationKey)) (items : list pyval) :
    result (list (string * VerificationKey)) :=
  match items with
  | [] => Ok keys
  | PDict item :: items =>
      _ ← require (has_exactly registry_fields item) ExportValidationError "INVALID_VERIFICATION_KEY_REGISTRY";
      key ← match registry_key keys item with
            | Raise e => if is_value_error (exn_cls e) || bool_decide (exn_cls e = TypeError) then REGISTRY
                         else Raise e
            | Ok k => Ok k
            end;
      registry_keys (assoc_set (vk_id key) key keys) items
  | _ :: _ => REGISTRY
  end.

Definition _load_key_registry (text : result string) : result (list (string * VerificationKey)) :=
  raw ← or_reject [OSError; JSONDecodeError; UnicodeDecodeError] "INVALID_VERIFICATION_KEY_REGISTRY"
          (t ← text; loads t);
  match raw with
  | PDict d =>
      match has_exactly ["schema_version"; "keys"] d && py_eq (lookup_or d "schema_version" PNone) (PStr "1.0.0"),
            lookup_or d "keys" PNone with
      | true, PList items => registry_keys [] items
      | _, _ => REGISTRY
      end
  | _ => REGISTRY
  end.

(** [InMemoryVerificationKeyResolver.resolve] *)
Definition resolve (keys : list (string * VerificationKey)) (key_id : string) : option VerificationKey :=
  assoc key_id keys.
End validator.
