(* ===== verification/PilotUi.v ===== *)
(** * The pilot's user interface

    [pilot_ui/app.py] and [pilot_ui/api_client.py]: the boundary every request passes, login and
    callback, the session, and the proxy to the API. Routing, cookies on the wire and metrics are
    FastAPI's and the operator's: a request comes with its route and its parts, a reply is a
    record. The API behind the proxy is a stream of answers, and the log keeps the calls. *)

From S2P Require Import Prelude Hmac PyVal JsonLoads Sha256 PyTime Identity PyDecimal ResearchEvidence UrlPolicy Config Export ExportValidator Oidc Sessions BrowserOidc.
From stdpp Require Import options.

(** ** Requests and replies *)

(** Header names are in lower case, as Starlette compares them; [ui_host] is [request.url.hostname]. *)
Record UiRequest := mkUiRequest {
  ui_method : string; ui_host : option string; ui_headers : list (string * string);
  ui_cookies : list (string * string); ui_client : option string; ui_query : string; ui_body : string
}.
Definition header (r : UiRequest) (name : string) : option string := assoc name (ui_headers r).

Inductive Content :=
  | ErrorJson (code : string) | SessionJson (identity : mapping) (csrf : string) | Upstream (bytes : string)
  | RedirectTo (url : string) | StatusJson (status : string) | NoContent | ShellHtml.
(** A cookie that is set, or deleted. *)
Record Cookie := mkCookie { cookie_name : string; cookie_value : option string; max_age : Z }.
Record Reply := mkReply {
  reply_status : Z; content : Content; reply_cookies : list Cookie; reply_headers : list (string * string)
}.

Definition SESSION_COOKIE : string := "__Host-da_session".
Definition LOGIN_COOKIE : string := "__Host-da_login".
Definition MAX_BODY_BYTES : Z := 1048576.

Definition is_token_char (c : ascii) : bool :=
  is_alnum c || Ascii.eqb c "." || Ascii.eqb c "_" || Ascii.eqb c ":" || Ascii.eqb c "-".

(** [_CORRELATION.fullmatch] *)
Definition _CORRELATION (s : string) : bool :=
  match s with
  | String c rest => is_alnum c && str_forallb is_token_char rest && (String.length rest <=? 127)%nat
  | EmptyString => false
  end.

(** ** The allowed paths

    A pattern of [_PATHS] is the list of its segments: a text, an identifier, one of several
    texts, or at the end nothing or one of several texts. *)
Inductive Segment := Lit (s : string) | Token | OneOf (l : list string) | OptOneOf (l : list string).

Fixpoint match_segments (p : list Segment) (l : list string) : bool :=
  match p, l with
  | [], [] => true
  | [OptOneOf _], [] => true
  | Lit s :: p, x :: l => (x =? s) && match_segments p l
  | Token :: p, x :: l => negb (x =? "") && str_forallb is_token_char x && match_segments p l
  | OneOf o :: p, x :: l | OptOneOf o :: p, x :: l => str_in x o && match_segments p l
  | _, _ => false
  end.

Definition _PATHS : list (string * list Segment) :=
  [("GET", [Lit "v1"; Lit "session"]);
   ("GET", [Lit "v1"; Lit "decisions"]);
   ("POST", [Lit "v1"; Lit "intakes"]);
   ("GET", [Lit "v1"; Lit "intakes"; Token]);
   ("POST", [Lit "v1"; Lit "intakes"; Token; OneOf ["confirmations"; "compile"]]);
   ("POST", [Lit "v1"; Lit "research-runs"]);
   ("GET", [Lit "v1"; Lit "research-runs"; Token; OptOneOf ["audit"; "sources"; "evidence"]]);
   ("POST", [Lit "v1"; Lit "research-runs"; Token; OneOf ["retry"; "cancel"; "handoff"]]);
   ("GET", [Lit "v1"; Lit "decisions"; Token; OptOneOf ["report"; "audit"; "export"]]);
   ("POST", [Lit "v1"; Lit "decisions"; Token; OneOf ["evaluate"; "transitions"; "deletion-requests"]]);
   ("PUT", [Lit "v1"; Lit "decisions"; Token; Lit "legal-hold"]);
   ("DELETE", [Lit "v1"; Lit "decisions"; Token; Lit "legal-hold"]);
   ("POST", [Lit "v1"; Lit "deletion-requests"; Token; Lit "execute"])].

(** [_allowed_path]; the path starts with a slash. *)
Definition _allowed_path (method path : string) : bool :=
  match split_slashes "" path with
  | "" :: segments => existsb (λ mp, (mp.1 =? method) && match_segments mp.2 segments) _PATHS
  | _ => false
  end.

(** ** Identity overrides *)

(** [inspect] *)
Fixpoint inspect (v : pyval) : bool :=
  match v with
  | PDict d =>
      existsb (λ kv, str_in kv.1 ["tenant"; "tenant_id"; "actor_id"]) d || existsb (λ kv, inspect kv.2) d
  | PList l => existsb inspect l
  | _ => false
  end.

(** [_has_identity_override] *)
Definition _has_identity_override `{FloatText} `{BytesText} (body : string) : result bool :=
  match json_of body with
  | Ok v => Ok (inspect v)
  | Raise e => if bool_decide (exn_cls e ∈ [JSONDecodeError; UnicodeDecodeError]) then Ok false else Raise e
  end.

(** ** [api_client.py] *)

Record ApiCall := mkApiCall {
  call_method : string; call_url : string; call_headers : list (string * string); call_body : string
}.
Record ApiResponse := mkApiResponse {
  api_status : Z; api_headers : list (string * string); api_content : string; api_json : result pyval
}.

(** [HttpPilotApiClient.request]: what is sent. *)
Definition bearer (tok : SensitiveToken) : string := "Bearer " +:+ token_value tok.
Definition api_call (base_url : string) (tok : SensitiveToken) (method path query body locale correlation : string)
    (idempotency_key : option string) : ApiCall :=
  mkApiCall method (base_url +:+ path +:+ (if query =? "" then "" else "?" +:+ query))
    ([("Authorization", bearer tok); ("Accept-Language", locale); ("X-Correlation-ID", correlation);
      ("Accept", "application/json, application/zip")] ++
     (if body =? "" then [] else [("Content-Type", "application/json")]) ++
     match idempotency_key with Some k => if k =? "" then [] else [("Idempotency-Key", k)] | None => [] end)
    body.

(** ** The application *)

(** [address in network], for the networks [ip_network] accepts. *)
Class Networks := in_network : IpAddress → string → bool.

Record UiSettings := mkUiSettings {
  allowed_hosts : list string; trusted_proxy_cidrs : list string; post_logout_redirect_uri : string;
  session_ttl_seconds : Z; oidc_end_session_endpoint : option string; oidc_client_id : string;
  mfa_policy : option MfaPolicy
}.

(** [PilotUiSettings.__post_init__] *)
Definition ui_settings `{UrlLibrary} `{CaseFolding} (u : UiSettings) : result UiSettings :=
  _ ← require (negb (bool_decide (allowed_hosts u = [])) && negb (bool_decide (trusted_proxy_cidrs u = [])))
        ValueError "INCOMPLETE_PILOT_UI_SETTINGS";
  _ ← require (forallb ip_network (trusted_proxy_cidrs u)) ValueError "INVALID_PILOT_PROXY_NETWORK";
  logout ← urlsplit (post_logout_redirect_uri u);
  _ ← require ((scheme logout =? "https") &&
               match hostname logout with Some h => str_in (rstrip_dots (casefold h)) (allowed_hosts u) | None => false end)
        ValueError "INVALID_PILOT_LOGOUT_REDIRECT";
  match oidc_end_session_endpoint u with
  | Some e =>
      parts ← urlsplit e;
      _ ← require ((scheme parts =? "https") && bool_decide (is_Some (hostname parts)))
            ValueError "INVALID_PILOT_END_SESSION_ENDPOINT";
      Ok u
  | None => Ok u
  end.

(** What the application keeps: its stores, what the OIDC client keeps, the calls of the API, and
    the draws and readings of the clock used. *)
Record Ui `{Jwt} (S : Type) := mkUi {
  ui_logins : LoginStore; ui_sessions : S; ui_browser : BrowserState; ui_calls : list ApiCall;
  ui_draws : nat; ui_readings : nat
}.
Arguments mkUi {_ _} _ _ _ _ _ _.
Arguments ui_logins {_ _} _.
Arguments ui_sessions {_ _} _.
Arguments ui_browser {_ _} _.
Arguments ui_calls {_ _} _.
Arguments ui_draws {_ _} _.
Arguments ui_readings {_ _} _.

(** The route FastAPI chose, with its parameters. *)
Inductive Route :=
  | Live | Login (return_path : string) | Callback (code st : string) | Logout | EndSession | BffSession
  | Proxy (api_path : string) | Shell.

(** [datetime.fromtimestamp(seconds, tz=utc)] from its microseconds, through the days since the
    year one *)
Definition civil (days : Z) : Z * Z * Z :=
  (let z := days + 306 in
   let era := z / 146097 in
   let doe := z mod 146097 in
   let yoe := (doe - doe / 1460 + doe / 36524 - doe / 146096) / 365 in
   let doy := doe - (365 * yoe + yoe / 4 - yoe / 100) in
   let mp := (5 * doy + 2) / 153 in
   let m := if mp <? 10 then mp + 3 else mp - 9 in
   (yoe + 400 * era + (if m <=? 2 then 1 else 0), m, doy - (153 * mp + 2) / 5 + 1))%Z.
Definition utc_datetime (micros : Z) : datetime :=
  (let s := micros / 1000000 in
   let '(y, m, d) := civil (719162 + s / 86400) in
   let t := s mod 86400 in
   DateTime y m d (t / 3600) (t / 60 mod 60) (t mod 60) (micros mod 1000000) (Some 0))%Z.

Section ui.
Context `{HashAlg} `{FloatText} `{BytesText} `{UrlLibrary} `{CaseFolding} `{Networks} `{Jwt}.
Context {Sessions : Type} `{BrowserSessionStore Sessions}.
(** The streams: the keys and the tokens of the issuer, the answers of the API, the clocks and the
    random tokens. *)
Context (fetch post : nat → result Response) (upstream : nat → result ApiResponse)
  (login_time key_time wall_time : nat → Z) (login_token ui_token : nat → nat → string).
(** The configuration. *)
Context (settings : UiSettings) (limits : LoginLimits) (client : BrowserClient) (base_url : string).

Notation App := (Ui Sessions).

Definition with_logins {A} (m : stateful LoginStore A) : stateful App A :=
  zoom ui_logins (λ l u, mkUi l (ui_sessions u) (ui_browser u) (ui_calls u) (ui_draws u) (ui_readings u)) m.
Definition with_sessions {A} (m : stateful Sessions A) : stateful App A :=
  zoom ui_sessions (λ s u, mkUi (ui_logins u) s (ui_browser u) (ui_calls u) (ui_draws u) (ui_readings u)) m.
Definition with_browser {A} (m : stateful BrowserState A) : stateful App A :=
  zoom ui_browser (λ b u, mkUi (ui_logins u) (ui_sessions u) b (ui_calls u) (ui_draws u) (ui_readings u)) m.

(** [secrets.token_urlsafe(32)] and [datetime.now(timezone.utc)] *)
Definition draw_binding : stateful App string := λ u,
  (Ok (ui_token (ui_draws u) 32),
   mkUi (ui_logins u) (ui_sessions u) (ui_browser u) (ui_calls u) (S (ui_draws u)) (ui_readings u)).
Definition now_utc : stateful App Z := λ u,
  (Ok (wall_time (ui_readings u)),
   mkUi (ui_logins u) (ui_sessions u) (ui_browser u) (ui_calls u) (ui_draws u) (S (ui_readings u))).

(** [HttpPilotApiClient.request] and [session] *)
Definition request_api (c : ApiCall) : stateful App ApiResponse := λ u,
  (rescue (upstream (length (ui_calls u)))
     (λ e, if is_http_error (exn_cls e) then Some (Exn PilotApiError ["PILOT_API_UNAVAILABLE"]) else None),
   mkUi (ui_logins u) (ui_sessions u) (ui_browser u) (ui_calls u ++ [c]) (ui_draws u) (ui_readings u)).

Definition identity_answer (a : ApiResponse) : result mapping :=
  _ ← require (api_status a =? 200)%Z BrowserOidcError "OIDC_API_IDENTITY_REJECTED";
  v ← rescue (api_json a) (λ e, if is_value_error (exn_cls e)
                                then Some (Exn BrowserOidcError ["OIDC_API_IDENTITY_REJECTED"]) else None);
  match v with PDict d => Ok d | _ => raise BrowserOidcError "OIDC_API_IDENTITY_REJECTED" end.

Definition session_call (tok : SensitiveToken) (correlation : string) : ApiCall :=
  api_call base_url tok "GET" "/v1/session" "" "" "en" correlation None.
Definition api_session (tok : SensitiveToken) (correlation : string) : stateful App mapping :=
  a ← request_api (session_call tok correlation); lift (identity_answer a).

(** [raise _HttpError(status, code)] *)
Definition http_error {A} (status code : string) : result A := Raise (Exn UiHttpError [status; code]).

(** [_require_session] and [_require_csrf] *)
Definition _require_session (r : UiRequest) : stateful App BrowserSession :=
  found ← with_sessions (store_get (assoc SESSION_COOKIE (ui_cookies r)));
  match found with Some s => mret s | None => lift (http_error "401" "AUTHENTICATION_REQUIRED") end.

Definition _require_csrf (r : UiRequest) (s : BrowserSession) : result unit :=
  let supplied := default "" (header r "x-csrf-token") in
  if supplied =? "" then http_error "403" "CSRF_REJECTED"
  else same ← compare_digest supplied (csrf_token s); if (same : bool) then Ok tt else http_error "403" "CSRF_REJECTED".

Definition reply (status : Z) (c : Content) : Reply := mkReply status c [] [].

(** [login] *)
Definition login (path : string) : stateful App Reply :=
  browser_binding ← draw_binding;
  transaction ← with_logins (create_login login_time login_token limits path browser_binding);
  url ← lift (authorization_url client transaction);
  mret (mkReply 303 (RedirectTo url) [mkCookie LOGIN_COOKIE (Some browser_binding) 180] []).

(** [all(isinstance(role, str))] *)
Definition role_texts (v : pyval) : option (list string) :=
  match v with
  | PList l => (fix go l := match l with
                            | [] => Some []
                            | PStr s :: l => match go l with Some r => Some (s :: r) | None => None end
                            | _ => None
                            end) l
  | _ => None
  end.

(** [{**identity, "acr": ...}] *)
Definition with_evidence_of (identity : mapping) (e : MfaEvidence) : mapping :=
  assoc_update identity
    [("acr", PStr (acr e)); ("amr", PList (map PStr (amr e)));
     ("authenticated_at", PStr (isoformat (utc_datetime (default 0%Z (authenticated_at e)))));
     ("mfa_policy_version", PStr (mfa_policy_version e))].

(** The multi-factor step of the callback. *)
Definition mfa_step (claims identity : mapping) : stateful App mapping :=
  match mfa_policy settings with
  | None => mret identity
  | Some p =>
      roles ← lift (or_raise (role_texts (lookup_or identity "roles" PNone)) BrowserOidcError "OIDC_IDENTITY_INVALID");
      evidence ← lift (evidence_from_validated_claims claims (mfa_version p));
      now ← now_utc;
      _ ← lift (rescue (mfa_require p roles evidence now)
                  (λ e, if bool_decide (exn_cls e = MfaRequired) then Some (Exn BrowserOidcError ["OIDC_MFA_REQUIRED"]) else None));
      mret (match evidence with Some e => with_evidence_of identity e | None => identity end)
  end.

(** [callback] *)
Definition callback (r : UiRequest) (correlation code st : string) : stateful App Reply :=
  transaction ← with_logins (consume_login login_time st (default "" (assoc LOGIN_COOKIE (ui_cookies r))));
  tokens ← with_browser (exchange fetch key_time post client code transaction);
  identity ← api_session (tokens_access tokens) correlation;
  identity ← mfa_step (authentication_claims tokens) identity;
  session ← with_sessions (store_create (tokens_access tokens) identity (expires_in tokens));
  mret (mkReply 303 (RedirectTo (return_path transaction))
          [mkCookie LOGIN_COOKIE None 0;
           mkCookie SESSION_COOKIE (Some (session_id session)) (Z.min (session_ttl_seconds settings) (expires_in tokens))] []).

(** [logout] *)
Definition logout (r : UiRequest) : stateful App Reply :=
  session ← _require_session r;
  _ ← lift (_require_csrf r session);
  _ ← with_sessions (store_destroy (Some (session_id session)));
  mret (mkReply 204 NoContent [mkCookie SESSION_COOKIE None 0] []).

(** [end_session] *)
Definition end_session : Reply :=
  reply 303 (RedirectTo match oidc_end_session_endpoint settings with
                        | None => post_logout_redirect_uri settings
                        | Some e => e +:+ "?" +:+ urlencode [("client_id", oidc_client_id settings);
                                      ("post_logout_redirect_uri", post_logout_redirect_uri settings)]
                        end).

(** [bff_session] *)
Definition bff_session (r : UiRequest) : stateful App Reply :=
  session ← _require_session r;
  mret (reply 200 (SessionJson (session_identity session) (csrf_token session))).

(** [proxy] *)
Definition forwarded_headers (a : ApiResponse) : list (string * string) :=
  omap (λ k, v ← assoc k (api_headers a); Some (k, v)) ["content-type"; "content-disposition"].
Definition query_override (query : string) : bool :=
  existsb (λ kv, str_in kv.1 ["tenant"; "tenant_id"; "actor"; "actor_id"]) (parse_qsl query).

Definition proxy_call (r : UiRequest) (session : BrowserSession) (path correlation : string) : ApiCall :=
  api_call base_url (access_token session) (ui_method r) path (ui_query r) (ui_body r)
    (default "en" (header r "accept-language")) correlation (header r "idempotency-key").

Definition forward (r : UiRequest) (session : BrowserSession) (path correlation : string) : stateful App Reply :=
  a ← request_api (proxy_call r session path correlation);
  mret (mkReply (api_status a) (Upstream (api_content a)) [] (forwarded_headers a)).

Definition proxy (r : UiRequest) (correlation api_path : string) : stateful App Reply :=
  session ← _require_session r;
  let path := "/" +:+ api_path in
  if negb (_allowed_path (ui_method r) path) then mret (reply 404 (ErrorJson "NOT_FOUND"))
  else if query_override (ui_query r) then mret (reply 422 (ErrorJson "IDENTITY_OVERRIDE_REJECTED"))
  else if str_in (ui_method r) ["GET"; "HEAD"] then forward r session path correlation
  else
    _ ← lift (_require_csrf r session);
    override ← lift (if ui_body r =? "" then Ok false else _has_identity_override (ui_body r));
    if (override : bool) then mret (reply 422 (ErrorJson "IDENTITY_OVERRIDE_REJECTED"))
    else forward r session path correlation.

(** ** The routes and the boundary *)

Definition dispatch (r : UiRequest) (correlation : string) (route : Route) : stateful App Reply :=
  match route with
  | Live => mret (reply 200 (StatusJson "ok"))
  | Login path => login path
  | Callback code st => callback r correlation code st
  | Logout => logout r
  | EndSession => mret end_session
  | BffSession => bff_session r
  | Proxy path => proxy r correlation path
  | Shell => mret (reply 200 ShellHtml)
  end.

(** The exception handlers. *)
Definition error_reply (e : exn) : option Reply :=
  match exn_cls e, exn_args e with
  | BrowserOidcError, _ => Some (reply 400 (ErrorJson "AUTHENTICATION_FAILED"))
  | PilotApiError, _ => Some (reply 503 (ErrorJson "PILOT_API_UNAVAILABLE"))
  | UiHttpError, [status; code] => Some (reply (if status =? "401" then 401 else 403) (ErrorJson code))
  | _, _ => None
  end.

Definition answer (r : UiRequest) (correlation : string) (route : Route) : stateful App Reply :=
  handle (dispatch r correlation route) (λ e, mret <$> error_reply e).

(** [_untrusted_forwarded] *)
Definition _untrusted_forwarded (r : UiRequest) : bool :=
  existsb (λ n, bool_decide (is_Some (header r n))) ["forwarded"; "x-forwarded-host"; "x-forwarded-proto"] &&
  match ui_client r with
  | None => true
  | Some host =>
      match ip_address host with
      | None => true
      | Some a => negb (existsb (in_network a) (trusted_proxy_cidrs settings))
      end
  end.

(** The declared length is over the limit, or no number. *)
Definition too_large (r : UiRequest) : bool :=
  match header r "content-length" with
  | None => false
  | Some n => match int_of_str n with Ok z => (MAX_BODY_BYTES <? z)%Z | Raise _ => true end
  end.

(** [_security_headers] *)
Definition security_headers (correlation : string) : list (string * string) :=
  [("X-Correlation-ID", correlation);
   ("Strict-Transport-Security", "max-age=31536000; includeSubDomains");
   ("Content-Security-Policy",
    "default-src 'self'; script-src 'self'; style-src 'self'; img-src 'self' data:; connect-src 'self'; frame-ancestors 'none'; base-uri 'none'; form-action 'self'");
   ("X-Content-Type-Options", "nosniff"); ("X-Frame-Options", "DENY"); ("Referrer-Policy", "no-referrer");
   ("Permissions-Policy", "camera=(), microphone=(), geolocation=()"); ("Cache-Control", "no-store")].
Definition secured (correlation : string) (p : Reply) : Reply :=
  mkReply (reply_status p) (content p) (reply_cookies p) (assoc_update (reply_headers p) (security_headers correlation)).

Definition correlation_of (fresh : string) (r : UiRequest) : string :=
  let c := default "" (header r "x-correlation-id") in if _CORRELATION c then c else fresh.

(** What the boundary refuses before the route is run. *)
Definition refused (r : UiRequest) : option Reply :=
  if negb (str_in (rstrip_dots (casefold (default "" (ui_host r))))
                  (map (λ h, rstrip_dots (casefold h)) (allowed_hosts settings)))
  then Some (reply 400 (ErrorJson "HOST_REJECTED"))
  else if _untrusted_forwarded r then Some (reply 400 (ErrorJson "FORWARDED_HEADER_REJECTED"))
  else if too_large r || (MAX_BODY_BYTES <? Z.of_nat (String.length (ui_body r)))%Z
  then Some (reply 413 (ErrorJson "PAYLOAD_TOO_LARGE"))
  else None.

(** [security_boundary]; [fresh] is the identifier [uuid.uuid4()] would give. *)
Definition serve_ui (fresh : string) (r : UiRequest) (route : Route) : stateful App Reply :=
  let correlation := correlation_of fresh r in
  p ← match refused r with Some p => mret p | None => answer r correlation route end;
  mret (secured correlation p).
End ui.
