(* ===== verification/Deployment.v ===== *)
(** * Deployment evidence and pilot acceptance

    [deployment/evidence.py] and [deployment/postgresql.py]: the bundle of evidence about a
    deployment, the gate that examines it together with the artifacts it names, the acceptance of
    a pilot by an independent reviewer, the check of TLS evidence, and the reader of bundles.

    The resolver of artifacts is a function from digests to bytes, the log of acceptances a class
    ([AcceptanceAudit]) with the in-memory list and the PostgreSQL table as instances. *)

From S2P Require Import Prelude Hmac PyVal JsonNumber Json JsonLoads Sha256 PyTime Identity PyDecimal ResearchEvidence UrlPolicy Config Events Export ExportValidator.
From S2P Require ResearchCodec.
From stdpp Require Import options.

(** ** Evidence *)

Definition is_hex (c : ascii) : bool :=
  let n := Ascii.nat_of_ascii c in
  ((48 <=? n)%nat && (n <=? 57)%nat) || ((97 <=? n)%nat && (n <=? 102)%nat).

(** [_DIGEST.fullmatch] and [_COMMIT.fullmatch] *)
Definition _DIGEST (s : string) : bool :=
  match drop_prefix "sha256:" s with
  | Some h => str_forallb is_hex h && Nat.eqb (String.length h) 64
  | None => false
  end.
Definition _COMMIT (s : string) : bool :=
  str_forallb is_hex s && (40 <=? String.length s)%nat && (String.length s <=? 64)%nat.

(** In the order [sorted] gives. *)
Definition REQUIRED_EVIDENCE : list string :=
  ["ALERT_TEST_EVIDENCE"; "DATABASE_MIGRATION_EVIDENCE"; "EDGE_CONFIGURATION_EVIDENCE";
   "INDEPENDENT_REVIEW_EVIDENCE"; "MFA_POLICY_EVIDENCE"; "MONITORING_EVIDENCE";
   "MULTI_INSTANCE_EVIDENCE"; "OIDC_REDIRECT_EVIDENCE"; "PUBLIC_HOST_EVIDENCE"; "RECOVERY_EVIDENCE";
   "RETENTION_LEGAL_HOLD_EVIDENCE"; "SIGNED_EXPORT_EVIDENCE"; "TLS_CERTIFICATE_EVIDENCE"].

Inductive EvidenceStatus := INCOMPLETE | TECHNICALLY_VERIFIED | PILOT_REVIEW_REQUIRED | PILOT_ACCEPTED | BLOCKED.
#[export] Instance EvidenceStatus_eq_dec : EqDecision EvidenceStatus.
Proof. solve_decision. Defined.
Definition evidence_status_value (s : EvidenceStatus) : string :=
  match s with
  | INCOMPLETE => "INCOMPLETE" | TECHNICALLY_VERIFIED => "TECHNICALLY_VERIFIED"
  | PILOT_REVIEW_REQUIRED => "PILOT_REVIEW_REQUIRED" | PILOT_ACCEPTED => "PILOT_ACCEPTED" | BLOCKED => "BLOCKED"
  end.

Record EvidenceItem := mkItem {
  kind : string; verified : bool; item_observed_at : datetime; item_digest : string; item_source : string;
  item_deployment : string; item_tenant : string; item_commit : string
}.

Definition aware (t : datetime) : bool := bool_decide (is_Some (utcoffset t)).

(** [EvidenceItem.__post_init__] *)
Definition evidence_item (e : EvidenceItem) : result EvidenceItem :=
  _ ← require (str_in (kind e) REQUIRED_EVIDENCE && _DIGEST (item_digest e)) ValueError "INVALID_EVIDENCE_DIGEST";
  _ ← require (str_in (item_source e) ["MEASURED"; "REPOSITORY"; "SELF_DECLARED"]) ValueError "INVALID_EVIDENCE_SOURCE";
  _ ← require (aware (item_observed_at e)) ValueError "INVALID_EVIDENCE_TIME";
  _ ← require (negb (item_deployment e =? "") && negb (item_tenant e =? "") && _COMMIT (item_commit e))
        ValueError "UNBOUND_DEPLOYMENT_EVIDENCE";
  Ok e.

(** [t.isoformat().replace("+00:00", "Z")] *)
Definition time_text (t : datetime) : string := zulu (isoformat t).

(** [EvidenceItem.as_dict] *)
Definition item_dict (e : EvidenceItem) : pyval :=
  PDict [("kind", PStr (kind e)); ("verified", PBool (verified e)); ("observed_at", PStr (time_text (item_observed_at e)));
         ("digest", PStr (item_digest e)); ("source", PStr (item_source e)); ("deployment_id", PStr (item_deployment e));
         ("tenant_id", PStr (item_tenant e)); ("commit_sha", PStr (item_commit e))].

Record DeploymentBundle := mkBundle {
  bundle_schema : string; bundle_deployment : string; bundle_tenant : string; profile : string;
  bundle_commit : string; image_digests : list (string * string); sbom_checksums : list (string * string);
  config_checksums : list (string * string); bundle_evidence : list EvidenceItem;
  provider_residency_status : string; open_risks : list string; creator : string; bundle_created_at : datetime
}.

(** [DeploymentBundle.__post_init__] *)
Definition digests_valid (l : list (string * string)) : bool :=
  negb (bool_decide (l = [])) && forallb (λ kv, _DIGEST kv.2) l.
Definition deployment_bundle (b : DeploymentBundle) : result DeploymentBundle :=
  _ ← require ((bundle_schema b =? "1.0.0") && negb (bundle_deployment b =? "") && negb (bundle_tenant b =? "") &&
               (profile b =? "controlled-pilot") && _COMMIT (bundle_commit b) && negb (creator b =? "") &&
               aware (bundle_created_at b)) ValueError "INVALID_DEPLOYMENT_BUNDLE";
  _ ← require (forallb digests_valid [image_digests b; sbom_checksums b; config_checksums b])
        ValueError "INVALID_DEPLOYMENT_DIGEST";
  _ ← require (bool_decide (NoDup (map kind (bundle_evidence b)))) ValueError "DUPLICATE_DEPLOYMENT_EVIDENCE";
  _ ← require (str_in (provider_residency_status b) ["VERIFIED"; "ACCESS_BLOCKED"])
        ValueError "INVALID_PROVIDER_RESIDENCY_STATUS";
  _ ← require (negb (bool_decide (open_risks b = [])) && negb (existsb str_blank (open_risks b)))
        ValueError "UNDOCUMENTED_DEPLOYMENT_RISK";
  Ok b.

(** [with_evidence] and [with_created_at]: [replace] runs the checks again. *)
Definition with_evidence (b : DeploymentBundle) (l : list EvidenceItem) : result DeploymentBundle :=
  deployment_bundle (mkBundle (bundle_schema b) (bundle_deployment b) (bundle_tenant b) (profile b) (bundle_commit b)
    (image_digests b) (sbom_checksums b) (config_checksums b) l (provider_residency_status b) (open_risks b)
    (creator b) (bundle_created_at b)).
Definition with_created_at (b : DeploymentBundle) (t : datetime) : result DeploymentBundle :=
  deployment_bundle (mkBundle (bundle_schema b) (bundle_deployment b) (bundle_tenant b) (profile b) (bundle_commit b)
    (image_digests b) (sbom_checksums b) (config_checksums b) (bundle_evidence b) (provider_residency_status b)
    (open_risks b) (creator b) t).

(** [DeploymentBundle.as_dict] *)
Definition texts_dict (l : list (string * string)) : pyval := PDict (map (λ kv, (kv.1, PStr kv.2)) l).
Definition bundle_dict (b : DeploymentBundle) (s : EvidenceStatus) : result pyval :=
  _ ← require (negb (bool_decide (s = PILOT_ACCEPTED))) ValueError "ACCEPTANCE_RECORD_REQUIRED";
  Ok (PDict [("schema_version", PStr (bundle_schema b)); ("deployment_id", PStr (bundle_deployment b));
             ("tenant_id", PStr (bundle_tenant b)); ("profile", PStr (profile b));
             ("commit_sha", PStr (bundle_commit b)); ("image_digests", texts_dict (image_digests b));
             ("sbom_checksums", texts_dict (sbom_checksums b)); ("config_checksums", texts_dict (config_checksums b));
             ("evidence", PList (map item_dict (bundle_evidence b)));
             ("provider_residency_status", PStr (provider_residency_status b));
             ("open_risks", PList (map PStr (open_risks b))); ("creator", PStr (creator b));
             ("created_at", PStr (time_text (bundle_created_at b))); ("status", PStr (evidence_status_value s))]).

(** ** The payload of an artifact *)

(** [_parse_time] *)
Definition evidence_time (v : pyval) : result datetime :=
  match timestamp_of v with
  | Raise e => if is_value_error (exn_cls e) then raise ValueError "INVALID_EVIDENCE_TIME" else Raise e
  | Ok t => _ ← require (aware t) ValueError "INVALID_EVIDENCE_TIME"; Ok t
  end.

Section payload.
Context (value : mapping).
Let get (k : string) : pyval := lookup_or value k PNone.

Definition payload_text (k : string) : bool := match get k with PStr s => negb (s =? "") | _ => false end.
Definition payload_truth (k : string) : bool := match get k with PBool true => true | _ => false end.
Definition payload_digest_ok (k : string) : bool := match get k with PStr s => _DIGEST s | _ => false end.
Definition payload_is (k s : string) : bool := py_eq (get k) (PStr s).

(** [_integer_at_least]: a boolean is no integer here. *)
Definition _integer_at_least (v : pyval) (minimum : Z) : bool :=
  match v with PInt z => (minimum <=? z)%Z | _ => false end.

(** [_nonempty_text_list] *)
Definition _nonempty_text_list (v : pyval) : bool :=
  match v with
  | PList l =>
      (1 <=? length l)%nat && (length l <=? 128)%nat &&
      forallb (λ x, match x with PStr s => negb (s =? "") && (str_len s <=? 256)%nat | _ => false end) l
  | _ => false
  end.

(** [_public_addresses] *)
Definition _public_addresses `{UrlLibrary} (v : pyval) : bool :=
  _nonempty_text_list v &&
  match v with
  | PList l => forallb (λ x, match x with
                             | PStr s => match ip_address s with Some a => is_global a | None => false end
                             | _ => false
                             end) l
  | _ => false
  end.

(** The kinds with a table entry: the fields of the payload, and the check. *)
Definition payload_checks `{UrlLibrary} (item : EvidenceItem) : list (string * (list string * bool)) :=
  [("PUBLIC_HOST_EVIDENCE",
     (["schema_version"; "hostname"; "resolved_addresses"; "public_only"],
      payload_text "hostname" && payload_truth "public_only" && _public_addresses (get "resolved_addresses")));
   ("EDGE_CONFIGURATION_EVIDENCE",
     (["schema_version"; "config_sha256"; "host_allowlist_valid"; "tls_redirect_valid"; "validation_tool"],
      payload_digest_ok "config_sha256" && payload_truth "host_allowlist_valid" && payload_truth "tls_redirect_valid" &&
      payload_text "validation_tool"));
   ("OIDC_REDIRECT_EVIDENCE",
     (["schema_version"; "issuer"; "redirect_uri"; "exact_match"; "pkce_required"],
      payload_text "issuer" && payload_text "redirect_uri" && payload_truth "exact_match" && payload_truth "pkce_required"));
   ("MFA_POLICY_EVIDENCE",
     (["schema_version"; "policy_version"; "methods"; "flow_tested"],
      payload_text "policy_version" && _nonempty_text_list (get "methods") && payload_truth "flow_tested"));
   ("DATABASE_MIGRATION_EVIDENCE",
     (["schema_version"; "database_schema_version"; "forced_rls_tables"; "application_role_tested";
       "migration_role_tested"],
      payload_is "database_schema_version" "004" && _integer_at_least (get "forced_rls_tables") 28 &&
      payload_truth "application_role_tested" && payload_truth "migration_role_tested"));
   ("RECOVERY_EVIDENCE",
     (["schema_version"; "status"; "commit_sha"; "report_sha256"; "source_database"; "restore_database";
       "observed_rpo_seconds"; "observed_rto_seconds"; "integrity_verified"],
      payload_is "status" "PASS" && payload_is "commit_sha" (item_commit item) && payload_digest_ok "report_sha256" &&
      payload_text "source_database" && payload_text "restore_database" &&
      negb (py_eq (get "source_database") (get "restore_database")) &&
      _integer_at_least (get "observed_rpo_seconds") 0 && _integer_at_least (get "observed_rto_seconds") 0 &&
      payload_truth "integrity_verified"));
   ("MONITORING_EVIDENCE",
     (["schema_version"; "scrape_endpoint"; "metric_names"; "scrape_success"],
      payload_text "scrape_endpoint" && _nonempty_text_list (get "metric_names") && payload_truth "scrape_success"));
   ("ALERT_TEST_EVIDENCE",
     (["schema_version"; "alert_name"; "receiver"; "triggered"; "notification_received"],
      payload_text "alert_name" && payload_text "receiver" && payload_truth "triggered" &&
      payload_truth "notification_received"));
   ("MULTI_INSTANCE_EVIDENCE",
     (["schema_version"; "instance_count"; "shared_session_verified"; "cross_instance_revoke_verified";
       "tenant_isolation_verified"],
      _integer_at_least (get "instance_count") 2 && payload_truth "shared_session_verified" &&
      payload_truth "cross_instance_revoke_verified" && payload_truth "tenant_isolation_verified"));
   ("SIGNED_EXPORT_EVIDENCE",
     (["schema_version"; "export_sha256"; "algorithm"; "key_id"; "offline_verified"],
      payload_digest_ok "export_sha256" && payload_is "algorithm" "EdDSA" && payload_text "key_id" &&
      payload_truth "offline_verified"));
   ("RETENTION_LEGAL_HOLD_EVIDENCE",
     (["schema_version"; "retention_policy_version"; "deletion_verified"; "legal_hold_block_verified";
       "restore_resurrection_blocked"],
      payload_text "retention_policy_version" && payload_truth "deletion_verified" &&
      payload_truth "legal_hold_block_verified" && payload_truth "restore_resurrection_blocked"));
   ("INDEPENDENT_REVIEW_EVIDENCE",
     (["schema_version"; "reviewer_id"; "reviewed_commit_sha"; "result"; "actor_independent"],
      payload_text "reviewer_id" && payload_is "reviewed_commit_sha" (item_commit item) && payload_is "result" "PASS" &&
      payload_truth "actor_independent"))].

Definition tls_fields : list string :=
  ["schema_version"; "host"; "certificate_sha256"; "not_before"; "not_after"; "chain_verified"; "minimum_tls"].

(** The branch of TLS evidence: the time of the observation lies in the certificate's validity. *)
Definition tls_payload (item : EvidenceItem) : result bool :=
  if has_exactly tls_fields value && (payload_text "host" && payload_digest_ok "certificate_sha256" && payload_truth "chain_verified")
  then
    match (a ← evidence_time (get "not_before"); b ← evidence_time (get "not_after"); Ok (a, b)) with
    | Raise e => if is_value_error (exn_cls e) then Ok false else Raise e
    | Ok (a, b) =>
        started ← datetime_le a (item_observed_at item);
        inside ← (if (started : bool) then datetime_le (item_observed_at item) b else Ok false);
        if (inside : bool) then
          _ ← require (hashable (get "minimum_tls")) TypeError "unhashable type";
          Ok (payload_is "minimum_tls" "1.2" || payload_is "minimum_tls" "1.3")
        else Ok false
    end
  else Ok false.

(** [_payload_matches] of a dictionary *)
Definition dict_payload_matches `{UrlLibrary} (item : EvidenceItem) : result bool :=
  if negb (payload_is "schema_version" "1.0.0") then Ok false
  else if kind item =? "TLS_CERTIFICATE_EVIDENCE" then tls_payload item
  else Ok match assoc (kind item) (payload_checks item) with
          | Some (fields, passed) => has_exactly fields value && passed
          | None => false
          end.
End payload.

Section deployment.
Context `{HashAlg} `{FloatText} `{BytesText} `{UrlLibrary} `{CaseFolding}.

(** [_payload_matches] *)
Definition _payload_matches (item : EvidenceItem) (v : pyval) : result bool :=
  match v with PDict d => dict_payload_matches d item | _ => Ok false end.

(** [_constant_digest]; both digests are ASCII. *)
Definition _constant_digest (content expected : string) : bool := "sha256:" +:+ hexdigest content =? expected.

Definition artifact_fields : list string :=
  ["kind"; "deployment_id"; "tenant_id"; "commit_sha"; "verified"; "observed_at"; "source"; "payload"].

Definition binding_matches (item : EvidenceItem) (raw : mapping) : bool :=
  let says k s := py_eq (lookup_or raw k PNone) (PStr s) in
  says "kind" (kind item) && says "deployment_id" (item_deployment item) && says "tenant_id" (item_tenant item) &&
  says "commit_sha" (item_commit item) &&
  match lookup_or raw "verified" PNone with PBool b => Bool.eqb b (verified item) | _ => false end &&
  says "observed_at" (time_text (item_observed_at item)) && says "source" (item_source item).

(** [_artifact_matches] *)
Definition _artifact_matches (item : EvidenceItem) (artifact : string) : result bool :=
  if (2000000 <? Z.of_nat (String.length artifact))%Z || negb (_constant_digest artifact (item_digest item)) then Ok false
  else
    match json_of artifact with
    | Raise e => if bool_decide (exn_cls e ∈ [JSONDecodeError; UnicodeDecodeError]) then Ok false else Raise e
    | Ok (PDict raw) =>
        if has_exactly artifact_fields raw && binding_matches item raw
        then _payload_matches item (lookup_or raw "payload" PNone) else Ok false
    | Ok _ => Ok false
    end.

(** ** [PilotAcceptanceGate] *)

Record GateResult := mkGate { gate_status : EvidenceStatus; gate_reasons : list string }.
Record Gate := mkGateOf { max_age : Z; resolve : string → option string }.

(** [{item.kind: item for item in bundle.evidence}] *)
Definition by_kind (l : list EvidenceItem) : list (string * EvidenceItem) :=
  foldl (λ d item, assoc_set (kind item) item d) [] l.

(** The loop over the artifacts: does it find one that is not resolved? *)
Fixpoint unresolved_artifact (g : Gate) (l : list EvidenceItem) : result bool :=
  match l with
  | [] => Ok false
  | item :: l =>
      matches ← match resolve g (item_digest item) with
                | Some artifact => _artifact_matches item artifact
                | None => Ok false
                end;
      if (matches : bool) then unresolved_artifact g l else Ok true
  end.

(** An [any] over the instants of the items, which stops at the first that answers. *)
Fixpoint any_observed (test : Z → bool) (l : list EvidenceItem) : result bool :=
  match l with
  | [] => Ok false
  | item :: l => t ← utc_micros (item_observed_at item); if test t then Ok true else any_observed test l
  end.

Definition bound_to (b : DeploymentBundle) (item : EvidenceItem) : bool :=
  (item_deployment item =? bundle_deployment b) && (item_tenant item =? bundle_tenant b) &&
  (item_commit item =? bundle_commit b).

(** [if b: reasons.append(reason)] *)
Definition because (b : bool) (reason : string) : list string := if b then [reason] else [].

Definition missing_evidence (items : list EvidenceItem) : list string :=
  filter (λ k, k ∉ map kind items) REQUIRED_EVIDENCE.

(** [evaluate]; [now] is the instant it is called at. *)
Definition evaluate (g : Gate) (b : DeploymentBundle) (now : Z) : result GateResult :=
  let items := map snd (by_kind (bundle_evidence b)) in
  let missing := missing_evidence items in
  unresolved ← unresolved_artifact g items;
  stale ← any_observed (λ t, (max_age g <? now - t)%Z) items;
  future ← any_observed (λ t, (now <? t)%Z) items;
  created ← utc_micros (bundle_created_at b);
  let reasons :=
    because (negb (bool_decide (missing = []))) ("MISSING_EVIDENCE:" +:+ str_join "," missing) ++
    because (existsb (λ e, negb (verified e)) items) "UNVERIFIED_EVIDENCE" ++
    because (existsb (λ e, item_source e =? "SELF_DECLARED") items) "SELF_DECLARED_EVIDENCE" ++
    because (existsb (λ e, negb (bound_to b e)) items) "EVIDENCE_BINDING_MISMATCH" ++
    because unresolved "EVIDENCE_ARTIFACT_UNRESOLVED" ++
    because stale "STALE_REQUIRED_EVIDENCE" ++ because future "FUTURE_REQUIRED_EVIDENCE" ++
    because (max_age g <? now - created)%Z "STALE_DEPLOYMENT_EVIDENCE" ++
    because (now <? created)%Z "FUTURE_DEPLOYMENT_EVIDENCE" in
  Ok (mkGate (if bool_decide (reasons = []) then PILOT_REVIEW_REQUIRED else BLOCKED) reasons).

(** ** [PilotAcceptanceTransition] *)

Record AcceptanceRecord := mkAcceptance {
  acc_status : EvidenceStatus; acc_deployment : string; acc_creator : string; acc_reviewer : string;
  acc_event_id : string
}.

Definition acceptance_event_id (b : DeploymentBundle) (reviewer correlation : string) : string :=
  "pilot-accepted-" +:+ String.substring 0 24 (hexdigest (bundle_deployment b +:+ ":" +:+ reviewer +:+ ":" +:+ correlation)).

Definition acceptance_event (b : DeploymentBundle) (reviewer correlation : string) (now : datetime) : EventEnvelope :=
  mkEnvelope "deployment.pilot-accepted" "1.0.0" (acceptance_event_id b reviewer correlation) now (bundle_tenant b)
    reviewer correlation "deployment-evidence"
    [("deployment_id", PStr (bundle_deployment b)); ("commit_sha", PStr (bundle_commit b)); ("creator", PStr (creator b))].

(** [AcceptanceAuditPort]: a log that an event is appended to, or that refuses it. *)
Class AcceptanceAudit (Log : Type) := {
  accepted_events : Log → list EventEnvelope;
  append_acceptance : EventEnvelope → stateful Log unit
}.

(** [accept]; [now] is the reading of the clock, in UTC. *)
Definition accept {Log : Type} `{AcceptanceAudit Log} (b : DeploymentBundle) (technical : GateResult) (reviewer : Identity)
    (correlation : string) (now : datetime) : stateful Log AcceptanceRecord :=
  _ ← guard_with (bool_decide (gate_status technical = PILOT_REVIEW_REQUIRED)) ValueError "TECHNICAL_EVIDENCE_GATE_REQUIRED";
  _ ← guard_with (bool_decide (identity_kind reviewer = HUMAN) && bool_decide (REVIEWER ∈ identity_roles reviewer))
        ValueError "PILOT_REVIEWER_REQUIRED";
  _ ← guard_with (tenant_id (identity_tenant reviewer) =? bundle_tenant b) ValueError "ACCEPTANCE_TENANT_MISMATCH";
  same ← lift (compare_digest (creator b) (identity_actor reviewer));
  _ ← guard_with (negb same) ValueError "ACCEPTANCE_ACTOR_INDEPENDENCE_REQUIRED";
  _ ← guard_with (negb (str_blank correlation)) ValueError "ACCEPTANCE_CORRELATION_REQUIRED";
  _ ← append_acceptance (acceptance_event b (identity_actor reviewer) correlation now);
  mret (mkAcceptance PILOT_ACCEPTED (bundle_deployment b) (creator b) (identity_actor reviewer)
          (acceptance_event_id b (identity_actor reviewer) correlation)).

(** [InMemoryAcceptanceAudit] *)
#[export] Instance in_memory_audit : AcceptanceAudit (list EventEnvelope) := {|
  accepted_events := λ l, l;
  append_acceptance := λ e, modify (λ l, l ++ [e])
|}.

(** [PostgresAcceptanceAudit]: the registry parses the event, the key of the row is its tenant and
    its identifier. *)
Definition same_event_key (e f : EventEnvelope) : bool :=
  (ev_tenant_id e =? ev_tenant_id f) && (Events.event_id e =? Events.event_id f).
Definition postgres_append (e : EventEnvelope) (rows : list EventEnvelope) : result (unit * list EventEnvelope) :=
  _ ← parse (envelope_dict e);
  _ ← require (negb (existsb (same_event_key e) rows)) IntegrityError "deployment_acceptance_events";
  Ok (tt, rows ++ [e]).

Record AcceptanceTable := mkAcceptanceTable { acceptance_rows : list EventEnvelope }.
#[export] Instance postgres_audit : AcceptanceAudit AcceptanceTable := {|
  accepted_events := acceptance_rows;
  append_acceptance := λ e, zoom acceptance_rows (λ l _, mkAcceptanceTable l) (transaction (postgres_append e))
|}.

(** ** [TlsEvidence] *)

Record TlsEvidence := mkTls {
  tls_host : string; certificate_hosts : list string; tls_not_before : datetime; tls_not_after : datetime;
  chain_verified : bool; minimum_tls : string; tls_source : string
}.

(** [host.partition(".")]: the label before the first dot and what follows it. *)
Fixpoint partition_dot (s : string) : string * option string :=
  match s with
  | EmptyString => ("", None)
  | String c s => if Ascii.eqb c "." then ("", Some s)
                  else let '(l, r) := partition_dot s in (String c l, r)
  end.

Fixpoint count_char (c : ascii) (s : string) : nat :=
  match s with EmptyString => 0 | String d s => (if Ascii.eqb c d then 1 else 0) + count_char c s end.

(** [_certificate_name_matches] *)
Definition _certificate_name_matches (host name : string) : result bool :=
  if Nat.eqb (count_char "*" name) 0 then compare_digest host name
  else match drop_prefix "*." name with
       | Some suffix =>
           if negb (Nat.eqb (count_char "*" name) 1) then Ok false
           else match partition_dot host with
                | (String _ _, Some remainder) => compare_digest remainder suffix
                | _ => Ok false
                end
       | None => Ok false
       end.

Fixpoint any_name_matches (host : string) (names : list string) : result bool :=
  match names with
  | [] => Ok false
  | n :: names => b ← _certificate_name_matches host n; if (b : bool) then Ok true else any_name_matches host names
  end.

Definition host_name (s : string) : string := rstrip_dots (casefold s).

(** [TlsEvidence.verify]; [now] is aware. *)
Definition tls_verify (e : TlsEvidence) (expected : string) (now : datetime) : result unit :=
  same ← compare_digest (host_name (tls_host e)) (host_name expected);
  _ ← require same ValueError "TLS_HOST_MISMATCH";
  named ← any_name_matches (host_name expected) (map host_name (certificate_hosts e));
  _ ← require named ValueError "TLS_CERTIFICATE_HOST_MISMATCH";
  _ ← require (aware (tls_not_before e) && aware (tls_not_after e)) ValueError "TLS_CERTIFICATE_EXPIRED";
  started ← datetime_le (tls_not_before e) now;
  inside ← (if (started : bool) then datetime_le now (tls_not_after e) else Ok false);
  _ ← require inside ValueError "TLS_CERTIFICATE_EXPIRED";
  _ ← require (chain_verified e) ValueError "TLS_CHAIN_UNVERIFIED";
  require (str_in (minimum_tls e) ["1.2"; "1.3"] && (tls_source e =? "MEASURED")) ValueError "TLS_EVIDENCE_UNVERIFIED".

(** ** [load_deployment_bundle] *)

(** The schema validator applied to [deployment-evidence.schema.json] finds no error. *)
Class EvidenceSchema := evidence_schema_valid : pyval → bool.
Context `{EvidenceSchema}.

Definition forbidden_evidence_keys : list string :=
  ["password"; "token"; "private_key"; "secret"; "api_key"; "authorization"].

(** [_contains_sensitive_key] *)
Fixpoint _contains_sensitive_key (v : pyval) : bool :=
  match v with
  | PDict d => existsb (λ kv, str_in (casefold kv.1) forbidden_evidence_keys || _contains_sensitive_key kv.2) d
  | PList l => existsb _contains_sensitive_key l
  | _ => false
  end.

(** [str(raw[k])] *)
Definition text_of (raw : pyval) (k : string) : result string := v ← py_item raw k; Ok (py_str v).

(** [EvidenceItem(...)] of one entry *)
Definition item_of (raw : pyval) : result EvidenceItem :=
  k ← text_of raw "kind";
  v ← py_item raw "verified";
  o ← py_item raw "observed_at";
  t ← evidence_time o;
  d ← text_of raw "digest";
  s ← text_of raw "source";
  dep ← text_of raw "deployment_id";
  ten ← text_of raw "tenant_id";
  com ← text_of raw "commit_sha";
  evidence_item (mkItem k (truthy v) t d s dep ten com).

(** [dict(raw[k])]; the schema has made the value an object of texts. *)
Definition texts_of (raw : pyval) (k : string) : result (list (string * string)) :=
  v ← py_item raw k;
  match v with
  | PDict d => mapM (λ kv, s ← ResearchCodec.as_str kv.2; Ok (kv.1, s)) d
  | _ => ResearchCodec.untyped
  end.

Definition bundle_of (raw : pyval) : result DeploymentBundle :=
  evidence ← py_item raw "evidence";
  l ← py_iter evidence;
  items ← mapM item_of l;
  schema ← text_of raw "schema_version";
  deployment ← text_of raw "deployment_id";
  tenant ← text_of raw "tenant_id";
  prof ← text_of raw "profile";
  commit ← text_of raw "commit_sha";
  images ← texts_of raw "image_digests";
  sboms ← texts_of raw "sbom_checksums";
  configs ← texts_of raw "config_checksums";
  residency ← text_of raw "provider_residency_status";
  risks_value ← py_item raw "open_risks";
  risks ← ResearchCodec.as_tuple risks_value;
  author ← text_of raw "creator";
  created ← py_item raw "created_at";
  t ← evidence_time created;
  deployment_bundle (mkBundle schema deployment tenant prof commit images sboms configs items residency risks author t).

Definition load_deployment_bundle (content : string) : result DeploymentBundle :=
  _ ← require (negb (content =? "") && (Z.of_nat (String.length content) <=? 2000000)%Z)
        ValueError "DEPLOYMENT_BUNDLE_SIZE_REJECTED";
  raw ← match json_of content with
        | Raise e => if bool_decide (exn_cls e ∈ [JSONDecodeError; UnicodeDecodeError])
                     then raise ValueError "INVALID_DEPLOYMENT_BUNDLE" else Raise e
        | Ok v => Ok v
        end;
  _ ← require (evidence_schema_valid raw) ValueError "INVALID_DEPLOYMENT_BUNDLE";
  _ ← require (negb (_contains_sensitive_key raw)) ValueError "SENSITIVE_DEPLOYMENT_EVIDENCE";
  bundle_of raw.
End deployment.
