(* ===== verification/Orchestrator.v ===== *)
(** * The research orchestrator

    [web_research/orchestrator.py] and [web_research/idempotency.py]: a research run from its
    proposal over the search, the extraction of the selected sources and the compilation of
    their evidence to the handoff, with retries, budgets, the circuit breaker and cancellation.

    The world is what the orchestrator reads and changes: the database, the circuit breaker,
    and the [ResearchRun] object it holds, whose sources the loop changes in place (a source is
    its position in the run's list). What comes from outside, the clock, the cancellation check,
    the resolver and the two providers, answers by the number of the question; [calls] lists the
    provider calls made. A provider is a script: it may have egress decisions recorded, whose
    failure it sees, before it answers. *)

From S2P Require Import Prelude PyVal Json JsonLoads Sha256 PyTime AuditChain Identity PyDecimal Document DecisionStore Research ResearchEvidence ResearchStore Handoff CircuitBreaker UrlPolicy.
From stdpp Require Import options.

(** ** The outside *)

Inductive outcome_of (A : Type) :=
  | Answered (a : A)
  | RequestFailed (e : ProviderError)   (** [ProviderRequestFailed] *)
  | Crashed.                            (** any other exception *)
Arguments Answered {A} _. Arguments RequestFailed {A} _. Arguments Crashed {A}.

Inductive script (A : Type) :=
  | Answer (o : outcome_of A)
  | Decide (d : EgressDecision) (k : bool → script A).
Arguments Answer {A} _. Arguments Decide {A} _ _.

Record EgressContext := mkContext { ctx_tenant : string; ctx_actor : string; ctx_correlation : string }.

Record Outside := mkOutside {
  clock_at : nat → datetime;
  monotonic_at : nat → Z;
  cancelled_at : nat → bool;
  resolve_at : nat → string → result (list string);
  search_at : nat → EgressContext → SearchQuery → script SearchResponse;
  extract_at : nat → EgressContext → ExtractionRequest → script ExtractionResponse
}.

(** [EvidenceNormalizer.normalize] *)
Class Normalizer := normalize : SourceCandidate → ExtractedContent → result SourceSnapshot.
(** [unicodedata.normalize("NFKC", s)] and [uuid.uuid5(uuid.NAMESPACE_URL, s)] *)
Class Naming := { nfkc : string → string; uuid5_url : string → string }.

(** ** [ResearchPolicy] *)
Record ResearchPolicy := mkResearchPolicy {
  research_policy_version : string; provider_configuration_version : string;
  provider_budget : Z; cache_ttl_seconds : Z; max_content_bytes : Z;
  max_attempts_per_operation : Z; configured_search_results : Z; configured_extractions : Z
}.

(** [ResearchPolicy.__post_init__] *)
Definition make_research_policy (p : ResearchPolicy) : result ResearchPolicy :=
  _ ← require ((1 <=? provider_budget p)%Z && (provider_budget p <=? 10000)%Z)
        ValueError "INVALID_PROVIDER_BUDGET";
  _ ← require ((1 <=? max_attempts_per_operation p)%Z && (max_attempts_per_operation p <=? 5)%Z)
        ValueError "INVALID_PROVIDER_ATTEMPT_LIMIT";
  _ ← require ((1 <=? configured_search_results p)%Z && (configured_search_results p <=? 20)%Z)
        ValueError "INVALID_CONFIGURED_SEARCH_LIMIT";
  _ ← require ((1 <=? configured_extractions p)%Z &&
               (configured_extractions p <=? Z.min (configured_search_results p) 10)%Z)
        ValueError "INVALID_CONFIGURED_EXTRACTION_LIMIT";
  Ok p.

(** What an orchestrator is made of; without a circuit policy the breaker does nothing. *)
Record Setup := mkSetup {
  policy : ResearchPolicy;
  search_id : string;
  extractor_id : string;
  evidence_policy : EvidencePolicy;
  circuit : option CircuitPolicy
}.

(** ** The world *)
Record World := mkWorld {
  store : Store; circuits : Circuits; ticks : nat; run : ResearchRun;
  calls : list (run_key * string * option string)
}.

Definition set_store (s : Store) (w : World) : World := mkWorld s (circuits w) (ticks w) (run w) (calls w).
Definition set_research (t : ResearchTables) (w : World) : World :=
  set_store (mkStore (decision_db (store w)) t) w.
Definition set_circuits (c : Circuits) (w : World) : World := mkWorld (store w) c (ticks w) (run w) (calls w).
Definition set_run (r : ResearchRun) (w : World) : World :=
  mkWorld (store w) (circuits w) (ticks w) r (calls w).

Notation orchestration := (stateful World).

Definition change_run (f : ResearchRun → ResearchRun) : orchestration unit :=
  modify (λ w, set_run (f (run w)) w).
Definition the_run : orchestration ResearchRun := gets run.

(** The number of the next question to the outside. *)
Definition question : orchestration nat := λ w,
  (Ok (ticks w), mkWorld (store w) (circuits w) (S (ticks w)) (run w) (calls w)).

(** A transaction of the research repository. *)
Definition repository {A} (f : ResearchTables → result (A * ResearchTables)) : orchestration A :=
  zoom (λ w, research_db (store w)) set_research (transaction f).

Definition save_run (tenant : string) : orchestration unit :=
  r ← the_run;
  repository (λ t, t ← save tenant r t; Ok (tt, t)).

(** ** [idempotency.py] *)

Definition strs (l : list string) : pyval := PList (map PStr l).
Definition sorted_strs (l : list string) : pyval := strs (py_sorted String.leb l).

(** The words of [s.split()]. *)
Fixpoint split_words (word : string) (l : list string) : list string :=
  let flush := if word =? "" then [] else [word] in
  match l with
  | [] => flush
  | c :: l => if is_space c then flush ++ split_words "" l else split_words (word +:+ c) l
  end.

Section orchestrator.
Context `{HashAlg} `{ContractValidator} `{CaseFolding} `{UrlLibrary} `{Normalizer} `{Naming} `{FloatText}.

Definition normalize_query (value : string) : string :=
  str_join " " (split_words "" (code_points (casefold (nfkc value)))).

Definition fingerprint_payload (tenant : string) (r : ResearchRequest) (version policy_version provider_version : string)
    (refresh : option string) (allowed blocked : list string) : pyval :=
  PDict [("tenant_id", PStr tenant); ("decision_file_id", PStr (decision_file_id r));
         ("decision_file_version_hash", PStr version); ("claim_refs", sorted_strs (rq_claim_refs r));
         ("query", PStr (normalize_query (query r))); ("locale", PStr (casefold (locale r)));
         ("preferred_languages", sorted_strs (map casefold (preferred_languages r)));
         ("allowed_domains", sorted_strs allowed); ("blocked_domains", sorted_strs blocked);
         ("freshness", PDict [("maximum_age_days", PInt (maximum_age_days (freshness r)));
                              ("prefer_recent", PBool (prefer_recent (freshness r)))]);
         ("max_search_results", PInt (max_search_results r));
         ("max_sources_to_extract", PInt (max_sources_to_extract r));
         ("research_policy", PStr (research_policy r));
         ("research_policy_version", PStr policy_version);
         ("provider_configuration_version", PStr provider_version);
         ("refresh_generation", if force_refresh r then text_json refresh else PNone)].

(** [semantic_fingerprint]; the domains are normalized one by one, which may raise. *)
Definition semantic_fingerprint_of (tenant : string) (r : ResearchRequest)
    (version policy_version provider_version : string) (refresh : option string) : result string :=
  allowed ← mapM normalize_domain (allowed_domains r);
  blocked ← mapM normalize_domain (blocked_domains r);
  Ok (payload_hash (fingerprint_payload tenant r version policy_version provider_version refresh
        allowed blocked)).

Context (outside : Outside) (setup : Setup).

(** ** The outside, asked *)

Definition now : orchestration datetime := n ← question; mret (clock_at outside n).
(** [_time] *)
Definition _time : orchestration string := t ← now; mret (isoformat t).

(** [_ensure_active] *)
Definition _ensure_active : orchestration unit :=
  n ← question;
  guard_with (negb (cancelled_at outside n)) ResearchExecutionCancelled "RESEARCH_EXECUTION_CANCELLED".

(** The circuit breaker. *)
Definition circuit_before (tenant provider : string) : orchestration unit :=
  match circuit setup with
  | None => mret tt
  | Some p => n ← question; zoom circuits set_circuits (before_call p tenant provider (monotonic_at outside n))
  end.
Definition circuit_success (tenant provider : string) : orchestration unit :=
  match circuit setup with
  | None => mret tt
  | Some _ => zoom circuits set_circuits (record_success tenant provider)
  end.
Definition circuit_failure (tenant provider : string) (is_retryable : bool) : orchestration unit :=
  match circuit setup with
  | None => mret tt
  | Some p =>
      n ← question;
      zoom circuits set_circuits (record_failure p tenant provider is_retryable (monotonic_at outside n))
  end.

(** [except ProviderCircuitOpen] *)
Definition unless_open (m : orchestration bool) : exn → option (orchestration bool) := λ e,
  if bool_decide (exn_cls e = ProviderCircuitOpen) then Some m else None.

(** [_record_egress_decision]; the caller learns whether it raised. *)
Definition record_egress (tenant : string) (d : EgressDecision) : orchestration bool :=
  handle (_ ← change_run (append_egress_decision d); _ ← save_run tenant; mret true)
    (λ _, Some (mret false)).

Fixpoint run_script {A} (tenant : string) (s : script A) : orchestration (outcome_of A) :=
  match s with
  | Answer o => mret o
  | Decide d k => recorded ← record_egress tenant d; run_script tenant (k recorded)
  end.

(** The log of the provider calls. *)
Definition log_call (tenant operation : string) (source : option string) : orchestration unit :=
  modify (λ w, mkWorld (store w) (circuits w) (ticks w) (run w)
                 (calls w ++ [((tenant, research_run_id (run w)), operation, source)])).

Definition egress_context (tenant actor : string) (r : ResearchRun) : EgressContext :=
  mkContext tenant actor (run_correlation r).

(** ** Attempts, errors and the end of a run *)

(** [_can_attempt] *)
Definition attempts_used (r : ResearchRun) (op : string) (source : option string) : Z :=
  Z.of_nat (length (filter (λ a, operation a = op ∧ att_source a = source) (attempts r))).
Definition _can_attempt (r : ResearchRun) (op : string) (source : option string) : bool :=
  (attempts_used r op source <? max_attempts_per_operation (policy setup))%Z.

Definition provider_of (op : string) : string := if op =? "search" then search_id setup else extractor_id setup.

(** [_reserve] *)
Definition _reserve (tenant op : string) (source : option string) : orchestration unit :=
  r ← the_run;
  used ← repository (reserve_budget tenant (research_run_id r) (provider_budget (policy setup)));
  at_ ← _time;
  change_run (λ r, run_set_attempts
    (attempts r ++ [mkAttempt (research_run_id r +:+ ":attempt:" +:+ pretty (S (length (attempts r))))
                      (provider_of op) op "STARTED" at_ source 1 None]) used r).

(** [run.attempts[-1] = replace(run.attempts[-1], …)] *)
Definition with_last_attempt (status : string) (reason : ResearchAttempt → option string) (r : ResearchRun) :
    ResearchRun :=
  match rev (attempts r) with
  | [] => r
  | a :: l =>
      run_set_attempts (rev l ++ [mkAttempt (attempt_id a) (att_provider a) (operation a) status
        (att_occurred_at a) (att_source a) (cost_units a) (reason a)]) (provider_cost_units r) r
  end.
(** [_succeed_attempt], [_fail_attempt]: there always is an attempt, the one just reserved. *)
Definition _succeed_attempt : orchestration unit := change_run (with_last_attempt "SUCCEEDED" att_reason).
Definition _fail_attempt (e : ProviderError) : orchestration unit :=
  change_run (with_last_attempt "FAILED" (λ _, Some (pe_reason e))).

(** [_record_error] *)
Definition _record_error (e : ProviderError) (source : option string) : orchestration unit :=
  change_run (run_add_error (mkResearchError (pe_reason e) (Some e) source)).

(** [apply_transition] on the run, at the time of the clock. *)
Definition move (target : ResearchStatus) (actor : string) (reasons : list string)
    (payload : ResearchRun → pyval) (is_retry : bool) : orchestration unit :=
  at_ ← _time;
  r ← the_run;
  r ← lift (apply_transition target at_ actor reasons (payload r) is_retry r);
  modify (set_run r).

(** [_fail_run] *)
Definition _fail_run (tenant actor reason : string) : orchestration unit :=
  _ ← move FAILED actor [reason] (λ r, PDict [("errors", PInt (Z.of_nat (length (errors r))))]) false;
  save_run tenant.

Definition provider_error (provider reason : string) (is_retryable : bool) : ProviderError :=
  mkProviderError provider reason is_retryable None None.

(** [except ValueError as budget_failure: if str(budget_failure) != "BUDGET_EXCEEDED": raise] *)
Definition if_budget_exceeded {A} (k : orchestration A) : exn → option (orchestration A) := λ e,
  if is_value_error (exn_cls e) && bool_decide (exn_args e = ["BUDGET_EXCEEDED"]) then Some k else None.

(** ** The search *)

(** A provider failed: the run fails with its error. *)
Definition surrender (tenant actor : string) (e : ProviderError) : orchestration bool :=
  _ ← _record_error e None; _ ← _fail_run tenant actor (pe_reason e); mret false.

(** [_source_id] *)
Definition _source_id (run_id url : string) : string :=
  run_id +:+ ":source:" +:+ String.substring 0 16 (hexdigest url).

(** What [_store_discovery] makes of one result, given the URLs seen. *)
Definition discovered (run_id : string) (response : SearchResponse) (res : SearchResult)
    (url domain id_of status : string) (reasons : list string) : SourceCandidate :=
  mkCandidate (_source_id run_id id_of) (res_url res) url domain (res_title res) (res_snippet res)
    (res_rank res) (resp_searched_at response) (resp_provider_id response)
    (resp_provider_version response) (res_published_at res) status reasons (res_citation_kind res)
    "SEARCH_RESULT".

Definition add_source (s : SourceCandidate) : orchestration unit :=
  change_run (λ r, run_set_sources (sources r ++ [s]) r).

Fixpoint discover_results (p : PublicUrlPolicy) (response : SearchResponse) (seen : list string)
    (l : list SearchResult) : orchestration unit :=
  match l with
  | [] => mret tt
  | res :: l =>
      n ← question;
      r ← the_run;
      match validate_url p (resolve_at outside n) (res_url res) with
      | Raise e =>
          if bool_decide (exn_cls e = UrlPolicyRejected) then
            _ ← add_source (discovered (research_run_id r) response res (res_url res) "" (res_url res)
                  "BLOCKED" [str_join "" (exn_args e)]);
            discover_results p response seen l
          else lift (Raise e)
      | Ok safe =>
          if str_in (safe_url safe) seen then discover_results p response seen l
          else
            _ ← add_source (discovered (research_run_id r) response res (safe_url safe)
                  (safe_domain safe) (safe_url safe) "DISCOVERED" []);
            discover_results p response (safe_url safe :: seen) l
      end
  end.

(** [_store_discovery] *)
Definition _store_discovery (response : SearchResponse) : orchestration unit :=
  _ ← change_run (run_set_summary (if resp_summary response =? "" then None else Some (resp_summary response))
        (resp_request_id response));
  r ← the_run;
  p ← lift (for_domains (allowed_domains (request r)) (blocked_domains (request r)));
  discover_results p response [] (take (Z.to_nat (max_search_results (request r))) (resp_results response)).

Definition search_query (r : ResearchRequest) : SearchQuery :=
  mkSearchQuery (query r) (locale r) (preferred_languages r) (max_search_results r) (freshness r)
    (allowed_domains r) (blocked_domains r).

(** The [try] around the provider call; a cancellation seen inside it is an exception like any
    other, and is looked for again by the caller. *)
Definition ask {A} (tenant op : string) (source : option string) (provider : nat → orchestration (script A)) :
    orchestration (outcome_of A) :=
  handle
    (_ ← _ensure_active;
     n ← question;
     s ← provider n;
     _ ← log_call tenant op source;
     run_script tenant s)
    (λ _, Some (mret Crashed)).

(** [_discover] *)
Definition _discover (tenant actor : string) : orchestration bool :=
  _ ← _ensure_active;
  r ← the_run;
  if negb (_can_attempt r "search" None) then
    surrender tenant actor (provider_error (search_id setup) "RETRY_LIMIT_EXCEEDED" false)
  else
  go ← handle (_ ← circuit_before tenant (search_id setup); mret true)
         (unless_open (surrender tenant actor (provider_error (search_id setup) "PROVIDER_CIRCUIT_OPEN" true)));
  if negb go then mret false else
  go ← handle (_ ← _ensure_active; _ ← _reserve tenant "search" None; mret true)
         (if_budget_exceeded (surrender tenant actor (provider_error "research-budget" "BUDGET_EXCEEDED" false)));
  if negb go then mret false else
  answer ← ask tenant "search" None (λ n,
    r ← the_run; mret (search_at outside n (egress_context tenant actor r) (search_query (request r))));
  _ ← _ensure_active;
  match answer with
  | RequestFailed e =>
      _ ← circuit_failure tenant (search_id setup) (retryable e);
      _ ← _fail_attempt e;
      surrender tenant actor e
  | Crashed =>
      let e := provider_error (search_id setup) "PROVIDER_UNAVAILABLE" true in
      _ ← circuit_failure tenant (search_id setup) true;
      _ ← _fail_attempt e;
      surrender tenant actor e
  | Answered response =>
      _ ← circuit_success tenant (search_id setup);
      _ ← _succeed_attempt;
      _ ← _store_discovery response;
      _ ← move SOURCES_DISCOVERED actor ["SOURCES_DISCOVERED"]
            (λ r, PDict [("count", PInt (Z.of_nat (length (sources r))))]) false;
      _ ← save_run tenant;
      mret true
  end.

(** [_start_extraction] *)
Definition _start_extraction (tenant actor : string) (is_retry : bool) : orchestration unit :=
  _ ← move EXTRACTING actor [if is_retry then "RESEARCH_RETRY_STARTED" else "EXTRACTION_STARTED"]
        (λ r, PDict [("limit", PInt (max_sources_to_extract (request r)))]) is_retry;
  save_run tenant.

(** ** The extraction *)

Definition change_source (i : nat) (f : SourceCandidate → SourceCandidate) : orchestration unit :=
  change_run (λ r, run_set_sources (alter f i (sources r)) r).

(** [_mark_citation_only] *)
Definition _mark_citation_only (i : nat) (reason : string) : orchestration unit :=
  change_source i (set_source "CITATION_ONLY" ["SEARCH_CITATION_ONLY"; reason]).

(** A source that could not be fetched stays as a citation. *)
Definition cite (i : nat) (s : SourceCandidate) (e : ProviderError) : orchestration (option SourceSnapshot) :=
  _ ← _mark_citation_only i (pe_reason e);
  _ ← _record_error e (Some (source_id s));
  mret None.

(** [replace(cached, …)] *)
Definition reuse_snapshot (s : SourceCandidate) (c : SourceSnapshot) : SourceSnapshot :=
  mkSnapshot (source_id s +:+ ":snapshot:" +:+ String.substring 7 16 (content_hash c)) (source_id s)
    (original_url s) (canonical_url s) (domain s) (snap_title c) (retrieved_at c) (expires_at c)
    (content_hash c) (http_status c) (mime_type c) (format c) (text c) (language c) (snap_provider c)
    (snap_provider_version c) (snap_risk c) (snap_artifact c).

Definition extraction_request (r : ResearchRequest) (s : SourceCandidate) : ExtractionRequest :=
  mkExtractionRequest (source_id s) (canonical_url s) (locale r) (max_content_bytes (policy setup))
    (cache_ttl_seconds (policy setup)).

(** The [try] around [policy.validate] and [normalize]. *)
Definition accept_content (p : PublicUrlPolicy) (resolve : string → result (list string)) (s : SourceCandidate)
    (c : ExtractedContent) : result SourceSnapshot :=
  final ← validate_url p resolve (content_url c);
  _ ← require (safe_domain final =? domain s) UrlPolicyRejected "CROSS_DOMAIN_REDIRECT";
  normalize s c.

Definition rejects_content (e : exn) : bool :=
  bool_decide (exn_cls e ∈ [UrlPolicyRejected; EvidenceNormalizationRejected]).

(** The provider's answer for source [s]. *)
Definition receive (tenant : string) (p : PublicUrlPolicy) (i : nat) (s : SourceCandidate)
    (answer : outcome_of ExtractionResponse) : orchestration (option SourceSnapshot) :=
  match answer with
  | RequestFailed _ | Crashed =>
      let e := provider_error (extractor_id setup) "PROVIDER_UNAVAILABLE" true in
      _ ← circuit_failure tenant (extractor_id setup) true;
      _ ← _fail_attempt e;
      cite i s e
  | Answered (NotExtracted e) =>
      _ ← circuit_failure tenant (extractor_id setup) (retryable e);
      _ ← _fail_attempt e;
      cite i s e
  | Answered (Extracted content) =>
      n ← question;
      match accept_content p (resolve_at outside n) s content with
      | Raise e =>
          if rejects_content e then
            let e := provider_error "normalizer" (str_join "" (exn_args e)) false in
            _ ← _mark_citation_only i (pe_reason e);
            _ ← _fail_attempt e;
            _ ← _record_error e (Some (source_id s));
            mret None
          else lift (Raise e)
      | Ok snapshot =>
          _ ← circuit_success tenant (extractor_id setup);
          _ ← _succeed_attempt;
          mret (Some snapshot)
      end
  end.

Definition cached_snapshot (tenant : string) (s : SourceCandidate) : orchestration (option SourceSnapshot) :=
  r ← the_run;
  if force_refresh (request r) then mret None
  else
    at_ ← _time;
    repository (λ t, Ok (get_snapshot tenant (canonical_url s) at_ t, t)).

(** [_obtain_snapshot] for the source at position [i]. *)
Definition _obtain_snapshot (tenant actor : string) (p : PublicUrlPolicy) (i : nat) (s : SourceCandidate) :
    orchestration (option SourceSnapshot) :=
  _ ← _ensure_active;
  _ ← change_source i (mark_source "SELECTED" ["SOURCE_SELECTED"] "SELECTED_SOURCE");
  cached ← cached_snapshot tenant s;
  match cached with
  | Some c => mret (Some (reuse_snapshot s c))
  | None =>
    r ← the_run;
    if negb (_can_attempt r "extract" (Some (source_id s))) then
      cite i s (provider_error (extractor_id setup) "RETRY_LIMIT_EXCEEDED" false)
    else
    go ← handle (_ ← circuit_before tenant (extractor_id setup); mret true)
           (unless_open (_ ← cite i s (provider_error (extractor_id setup) "PROVIDER_CIRCUIT_OPEN" true);
                         mret false));
    if negb go then mret None else
    go ← handle (_ ← _ensure_active; _ ← _reserve tenant "extract" (Some (source_id s)); mret true)
           (if_budget_exceeded (_ ← cite i s (provider_error "research-budget" "BUDGET_EXCEEDED" false);
                                mret false));
    if negb go then mret None else
    answer ← ask tenant "extract" (Some (source_id s)) (λ n,
      r ← the_run;
      mret (extract_at outside n (egress_context tenant actor r) (extraction_request (request r) s)));
    _ ← _ensure_active;
    receive tenant p i s answer
  end.

(** The evidence candidate of a snapshot. *)
Definition evidence_key (r : ResearchRun) (hash : string) : string :=
  "research-" +:+ String.substring 0 24 (hexdigest (research_run_id r +:+ ":" +:+ hash)).
Definition candidate_of (tenant : string) (r : ResearchRun) (s : SourceCandidate) (c : SourceSnapshot)
    (a : EvidenceAssessment) : EvidenceCandidate :=
  mkEvidenceCandidate (evidence_key r (content_hash c)) tenant (research_run_id r)
    (decision_file_id (request r)) (rq_claim_refs (request r)) (source_id s) (snapshot_id c)
    (content_hash c) a
    (mkProvenance (rank s) (query (request r)) (search_provider s) (search_provider_version s)
       (snap_provider c) (snap_provider_version c) "evidence-policy-v1")
    (snap_risk c) "DERIVED_CLAIM".

Definition add_snapshot (c : SourceSnapshot) (r : ResearchRun) : ResearchRun :=
  run_set_evidence (snapshots r ++ [c]) (run_evidence r) r.
Definition add_candidate (e : EvidenceCandidate) (r : ResearchRun) : ResearchRun :=
  if existsb (λ x, cand_id x =? cand_id e) (run_evidence r) then r
  else run_set_evidence (snapshots r) (run_evidence r ++ [e]) r.

(** The body of the loop; the hashes seen are those of the run's snapshots. *)
Definition extract_source (tenant actor : string) (p : PublicUrlPolicy) (x : nat * SourceCandidate) :
    orchestration unit :=
  let '(i, s) := x in
  _ ← _ensure_active;
  got ← _obtain_snapshot tenant actor p i s;
  match got with
  | None => mret tt
  | Some c =>
      _ ← _ensure_active;
      r ← the_run;
      if str_in (content_hash c) (map content_hash (snapshots r)) then
        change_source i (set_source "DUPLICATE_CONTENT" ["CONTENT_DUPLICATE"])
      else
        _ ← change_run (add_snapshot c);
        t ← now;
        a ← lift (assess_source (evidence_policy setup) c s (maximum_age_days (freshness (request r))) t);
        _ ← change_run (λ r, add_candidate (candidate_of tenant r s c a) r);
        change_source i (λ x, set_source (if usable_for_decision a then "EXTRACTED" else "REVIEW_REQUIRED")
                                (src_reasons x) x)
  end.

(** Sources past the limit. *)
Definition skip_unselected (selected : list string) (s : SourceCandidate) : SourceCandidate :=
  if (src_status s =? "DISCOVERED") && negb (str_in (source_id s) selected)
  then set_source "SKIPPED_LIMIT" ["SOURCE_LIMIT_REACHED"] s else s.

(** ** The end of a run *)

Definition handoff_reasons : list string :=
  ["DECISION_DOCUMENT_CHANGED"; "DECISION_NOT_DRAFT"; "CLAIM_REFERENCE_NOT_FOUND"; "DECISION_NOT_FOUND"].
Definition handoff_reason (e : exn) : string :=
  let r := str_join "" (exn_args e) in if str_in r handoff_reasons then r else "EVIDENCE_HANDOFF_REJECTED".

(** [self._handoff.attach(…)] and the assignments that follow. *)
Definition hand_over (tenant : string) (compiled : list DecisionEvidence) : orchestration unit :=
  r ← the_run;
  updated ← zoom store set_store
    (transaction (attach tenant (decision_file_id (request r)) (expected_document_hash r) compiled));
  change_run (run_set_compiled (payload_hash (document_json updated)) (Some (decision_file_id (request r)))).

(** [StopIteration] leaves a coroutine as [RuntimeError]. *)
Definition in_coroutine {A} (m : result A) : result A :=
  match m with
  | Raise e => if bool_decide (exn_cls e = StopIteration)
               then raise RuntimeError "coroutine raised StopIteration" else Raise e
  | r => r
  end.

Definition partial_statuses : list string :=
  ["BLOCKED"; "FAILED"; "REJECTED"; "REVIEW_REQUIRED"; "CITATION_ONLY"].

Definition finish (tenant : string) : orchestration unit := save_run tenant.

(** The evidence is compiled, marked and handed over. *)
Definition compile_and_finish (tenant actor : string) : orchestration unit :=
  _ ← move EVIDENCE_COMPILED actor ["EVIDENCE_CANDIDATES_COMPILED"]
        (λ r, PDict [("count", PInt (Z.of_nat (length (run_evidence r))))]) false;
  _ ← change_run mark_conflicting_evidence;
  r ← the_run;
  compiled ← lift (in_coroutine (compile_run r));
  handoff_failed ←
    (match compiled with
     | [] => mret false
     | _ =>
         _ ← _ensure_active;
         handle (_ ← hand_over tenant compiled; mret false)
           (λ e, if is_value_error (exn_cls e) then
                   Some (_ ← change_run (run_add_error (mkResearchError (handoff_reason e) None None));
                         mret true)
                 else None)
     end);
  _ ← _ensure_active;
  r ← the_run;
  let partial := handoff_failed || existsb (λ s, str_in (src_status s) partial_statuses) (sources r) in
  _ ← move (if partial then PARTIALLY_COMPLETED else COMPLETED) actor
        [if partial then "RESEARCH_PARTIALLY_COMPLETED" else "RESEARCH_COMPLETED"]
        (λ r, PDict [("evidence", PInt (Z.of_nat (length (run_evidence r))));
                     ("handoff", PInt (Z.of_nat (length compiled)))]) false;
  finish tenant.

Definition citations (r : ResearchRun) : nat :=
  length (filter (λ s, src_status s = "CITATION_ONLY") (sources r)).

(** [_extract_and_finalize] *)
Definition _extract_and_finalize (tenant actor : string) (retry_only : bool) : orchestration unit :=
  _ ← _ensure_active;
  r ← the_run;
  p ← lift (for_domains (allowed_domains (request r)) (blocked_domains (request r)));
  let chosen := select (sources r) (max_sources_to_extract (request r))
                  (if retry_only then ["FAILED"; "CITATION_ONLY"] else ["DISCOVERED"]) in
  _ ← (if retry_only then mret tt
       else change_run (λ r, run_set_sources
              (map (skip_unselected (map (λ x, source_id x.2) chosen)) (sources r)) r));
  _ ← for_each (extract_source tenant actor p) chosen;
  _ ← _ensure_active;
  r ← the_run;
  if bool_decide (length (snapshots r) = 0%nat) then
    if (0 <? citations r)%nat then
      _ ← move PARTIALLY_COMPLETED actor ["SEARCH_CITATIONS_ONLY"]
            (λ r, PDict [("citations", PInt (Z.of_nat (citations r)))]) false;
      finish tenant
    else _fail_run tenant actor "NO_CONTENT_EXTRACTED"
  else compile_and_finish tenant actor.

(** ** The operations *)

(** [propose] *)
Definition propose (tenant actor : string) (r : ResearchRequest) (expected correlation : string)
    (refresh : option string) : orchestration ResearchRun :=
  _ ← guard_with (max_search_results r <=? configured_search_results (policy setup))%Z
        ValueError "SEARCH_LIMIT_EXCEEDS_CONFIGURATION";
  _ ← guard_with (max_sources_to_extract r <=? configured_extractions (policy setup))%Z
        ValueError "EXTRACTION_LIMIT_EXCEEDS_CONFIGURATION";
  fingerprint ← lift (semantic_fingerprint_of tenant r expected (research_policy_version (policy setup))
                  (provider_configuration_version (policy setup)) refresh);
  at_ ← _time;
  mret (mkRun ("research-" +:+ uuid5_url fingerprint) tenant actor r expected fingerprint CREATED at_ at_
          correlation [] [] [] [] [] [] 0 None None None).

(** [prepare] *)
Definition prepare (tenant actor : string) (r : ResearchRequest) (expected correlation : string)
    (refresh : option string) : orchestration ResearchRun :=
  proposed ← propose tenant actor r expected correlation refresh;
  repository (create_or_get tenant proposed).

(** The end of [execute] and [retry]: search, then extract. *)
Definition search_and_extract (tenant actor : string) : orchestration unit :=
  found ← _discover tenant actor;
  if negb found then mret tt
  else
    _ ← _ensure_active;
    _ ← _start_extraction tenant actor false;
    _extract_and_finalize tenant actor false.

(** [execute]; the run it returns is the one of the world. *)
Definition execute (tenant actor : string) (r : ResearchRequest) (expected correlation : string)
    (refresh : option string) : orchestration ResearchRun :=
  _ ← _ensure_active;
  prepared ← prepare tenant actor r expected correlation refresh;
  _ ← modify (set_run prepared);
  if negb (bool_decide (length (run_events prepared) = 0%nat)) || negb (bool_decide (run_status prepared = CREATED))
  then mret prepared
  else
    _ ← _ensure_active;
    _ ← move SEARCHING actor ["SEARCH_STARTED"] (λ _, PDict [("query_hash", PStr (hexdigest (query r)))]) false;
    _ ← save_run tenant;
    _ ← search_and_extract tenant actor;
    the_run.

(** [_required] *)
Definition _required (tenant id : string) : orchestration ResearchRun :=
  r ← repository (λ t, Ok (get_run tenant id t, t));
  lift (or_raise r KeyError "RESEARCH_RUN_NOT_FOUND").

Definition retry_after (e : ResearchError) : option string := err_provider e ≫= retry_after_seconds.

(** [_enforce_retry_window]; a timestamp without a zone is in UTC. *)
Definition retry_at (r : ResearchRun) : result (option Z) :=
  match list_find is_Some (map retry_after (rev (errors r))),
        List.find (λ a, att_status a =? "FAILED") (rev (attempts r)) with
  | Some (_, Some wait), Some a =>
      t ← fromisoformat (replace_Z (att_occurred_at a));
      m ← utc_micros t;
      let wait := float_micros wait in
      _ ← require ((86400000000 <=? m + wait)%Z && (m + wait <? 3652060 * 86400000000)%Z)
            OverflowError "date value out of range";
      Ok (Some (m + wait)%Z)
  | _, _ => Ok None
  end.

Definition _enforce_retry_window (r : ResearchRun) : orchestration unit :=
  at_ ← lift (retry_at r);
  match at_ with
  | None => mret tt
  | Some at_ =>
      t ← now;
      m ← lift (utc_micros t);
      guard_with (negb (m <? at_)%Z) ValueError "PROVIDER_RETRY_AFTER_ACTIVE"
  end.

(** [validate_retry] *)
Definition validate_retry (tenant id : string) : orchestration ResearchRun :=
  r ← _required tenant id;
  _ ← guard_with (bool_decide (run_status r ∈ [FAILED; PARTIALLY_COMPLETED])) ResearchTransitionRejected
        ("RESEARCH_TRANSITION_NOT_ALLOWED:" +:+ research_status_value (run_status r) +:+ ":RETRY");
  _ ← _enforce_retry_window r;
  mret r.

(** [retry] *)
Definition retry (tenant actor id correlation : string) : orchestration ResearchRun :=
  _ ← _ensure_active;
  r ← validate_retry tenant id;
  _ ← modify (set_run (run_set_actor actor correlation r));
  _ ← (if bool_decide (length (sources r) = 0%nat) then
         _ ← move SEARCHING actor ["RESEARCH_RETRY_STARTED"] (λ _, PDict [("phase", PStr "search")]) true;
         _ ← save_run tenant;
         search_and_extract tenant actor
       else
         _ ← _start_extraction tenant actor true;
         _extract_and_finalize tenant actor true);
  the_run.

(** [cancel] *)
Definition cancel (tenant actor id correlation : string) : orchestration ResearchRun :=
  r ← _required tenant id;
  _ ← modify (set_run r);
  if bool_decide (run_status r = CANCELLED) then mret r
  else
    _ ← change_run (run_set_actor actor correlation);
    _ ← move CANCELLED actor ["RESEARCH_CANCELLED"] (λ _, PDict [("run_id", PStr id)]) false;
    _ ← save_run tenant;
    the_run.

(** [handoff] *)
Definition handoff (tenant actor id correlation : string) : orchestration ResearchRun :=
  r ← _required tenant id;
  _ ← modify (set_run r);
  if bool_decide (is_Some (compiled_decision_file_id r)) then mret r
  else
    _ ← guard_with (bool_decide (run_status r ∈ [EVIDENCE_COMPILED; COMPLETED; PARTIALLY_COMPLETED]))
          ValueError "RESEARCH_NOT_READY_FOR_HANDOFF";
    compiled ← lift (compile_run r);
    _ ← guard_with (negb (bool_decide (length compiled = 0%nat))) ValueError "NO_USABLE_EVIDENCE";
    _ ← change_run (run_set_actor actor correlation);
    _ ← hand_over tenant compiled;
    _ ← save_run tenant;
    the_run.
End orchestrator.
