(* ===== verification/I18n.v ===== *)
(** * Messages of the two languages

    [i18n.py]: the catalogue of the messages a front end shows for a code, the choice of a
    language and the text of a code. *)

From S2P Require Import Prelude PyVal PyDecimal Intake.
From stdpp Require Import options.

Definition SUPPORTED_LOCALES : list string := ["en"; "de"].
Definition FALLBACK_LOCALE : string := "en".

Definition english : list (string * string) :=
  [
   ("UNAUTHENTICATED", "Authentication required.");
   ("FORBIDDEN", "You are not authorized to perform this action.");
   ("NOT_FOUND", "Not found.");
   ("INVALID_REQUEST", "The request is invalid.");
   ("CONFLICT", "The request conflicts with the current state.");
   ("INTERNAL_ERROR", "The operation failed.");
   ("PILOT_EXPORT_UNAVAILABLE", "The signed export is temporarily unavailable.");
   ("PAYLOAD_TOO_LARGE", "The request body is too large.");
   ("NEEDS_CONFIRMATION", "Required intake information still needs confirmation.");
   ("TRUSTED_POLICY_UNAVAILABLE", "No trusted tenant policy is available.");
   ("INTAKE_CONTRACT_INVALID", "The intake contract is invalid.");
   ("UNSUPPORTED_MEDIA_TYPE", "The request must use a JSON content type.");
   ("SOURCE_BLOCKED", "The source is blocked by policy.");
   ("URL_NOT_PUBLIC", "The source URL is not public.");
   ("CONTENT_TOO_SHORT", "The extracted content is too short.");
   ("CONTENT_TOO_LARGE", "The extracted content is too large.");
   ("MIME_TYPE_UNSUPPORTED", "The source content type is not supported.");
   ("PROVENANCE_MISSING", "Required source provenance is missing.");
   ("PROMPT_INJECTION_SUSPECTED", "The source requires review for unsafe instructions.");
   ("EXTRACTION_TIMEOUT", "Source extraction timed out.");
   ("CONFLICTING_EVIDENCE", "The evidence contains an explicit conflict.");
   ("PROVIDER_NOT_CONFIGURED", "The research provider is not configured.");
   ("PROVIDER_RATE_LIMITED", "The research provider rate limit was reached.");
   ("BUDGET_EXCEEDED", "The research provider budget was reached.");
   ("RESEARCH_CANCELLED", "The research run was cancelled.")].
Definition german : list (string * string) :=
  [
   ("UNAUTHENTICATED", "Authentifizierung erforderlich.");
   ("FORBIDDEN", "Sie sind für diese Aktion nicht berechtigt.");
   ("NOT_FOUND", "Nicht gefunden.");
   ("INVALID_REQUEST", "Die Anfrage ist ungültig.");
   ("CONFLICT", "Die Anfrage widerspricht dem aktuellen Zustand.");
   ("INTERNAL_ERROR", "Der Vorgang ist fehlgeschlagen.");
   ("PILOT_EXPORT_UNAVAILABLE", "Der signierte Export ist vorÃ¼bergehend nicht verfÃ¼gbar.");
   ("PAYLOAD_TOO_LARGE", "Der Anfrageinhalt ist zu groß.");
   ("NEEDS_CONFIRMATION", "Erforderliche Intake-Angaben müssen noch bestätigt werden.");
   ("TRUSTED_POLICY_UNAVAILABLE", "Für den Mandanten ist keine vertrauenswürdige Policy verfügbar.");
   ("INTAKE_CONTRACT_INVALID", "Der Intake-Vertrag ist ungültig.");
   ("UNSUPPORTED_MEDIA_TYPE", "Die Anfrage muss einen JSON-Inhaltstyp verwenden.");
   ("SOURCE_BLOCKED", "Die Quelle ist durch die Richtlinie gesperrt.");
   ("URL_NOT_PUBLIC", "Die Quell-URL ist nicht öffentlich erreichbar.");
   ("CONTENT_TOO_SHORT", "Der extrahierte Inhalt ist zu kurz.");
   ("CONTENT_TOO_LARGE", "Der extrahierte Inhalt ist zu groß.");
   ("MIME_TYPE_UNSUPPORTED", "Der Inhaltstyp der Quelle wird nicht unterstützt.");
   ("PROVENANCE_MISSING", "Erforderliche Herkunftsangaben fehlen.");
   ("PROMPT_INJECTION_SUSPECTED", "Die Quelle erfordert eine Prüfung auf unsichere Anweisungen.");
   ("EXTRACTION_TIMEOUT", "Die Quellenextraktion hat das Zeitlimit überschritten.");
   ("CONFLICTING_EVIDENCE", "Die Evidenz enthält einen ausdrücklichen Widerspruch.");
   ("PROVIDER_NOT_CONFIGURED", "Der Rechercheanbieter ist nicht konfiguriert.");
   ("PROVIDER_RATE_LIMITED", "Das Anfragelimit des Rechercheanbieters wurde erreicht.");
   ("BUDGET_EXCEEDED", "Das Budget für Rechercheanbieter wurde erreicht.");
   ("RESEARCH_CANCELLED", "Der Recherchelauf wurde abgebrochen.")].
Definition TRANSLATIONS : list (string * list (string * string)) := [("en", english); ("de", german)].

(** [s.split(c, 1)[0]] *)
Fixpoint before_char (c : ascii) (s : string) : string :=
  match s with
  | EmptyString => ""
  | String d s => if Ascii.eqb d c then "" else String d (before_char c s)
  end.
(** [s.split(c)] *)
Fixpoint split_char (c : ascii) (acc s : string) : list string :=
  match s with
  | EmptyString => [acc]
  | String d s => if Ascii.eqb d c then acc :: split_char c "" s else split_char c (acc +:+ String d EmptyString) s
  end.

Section i18n.
Context `{CaseMapping}.

Definition language_of (item : string) : string :=
  before_char "-" (str_lower (str_strip (before_char ";" item))).

Definition select_locale (accept_language : option string) : string :=
  match accept_language with
  | None | Some "" => FALLBACK_LOCALE
  | Some l => default FALLBACK_LOCALE
                (List.find (λ x, str_in x SUPPORTED_LOCALES) (map language_of (split_char "," "" l)))
  end.

Definition localize (code locale : string) : string :=
  let fallback := default [] (assoc FALLBACK_LOCALE TRANSLATIONS) in
  let catalog := default fallback (assoc locale TRANSLATIONS) in
  default (default code (assoc code fallback)) (assoc code catalog).
End i18n.
