(* ===== verification/ResearchService.v ===== *)
(** * Submitting research

    [web_research/service.py] with the transaction it hands a proposed run to,
    [PostgresJobRepository.submit]: the run, its budget row, its job and the job's first event are
    stored together; and [api/worker_runtime.py], which does the work of a claimed job. What the
    front ends of research share is a [Desk]: the world of the orchestrator and the tables of the
    job queue. *)

From S2P Require Import Prelude PyVal Json JsonLoads Sha256 PyTime AuditChain Identity Jobs Document DecisionStore Research ResearchEvidence ResearchStore Handoff CircuitBreaker UrlPolicy Orchestrator.
From stdpp Require Import options.

(** What PostgreSQL reads in a text it stores in a TIMESTAMPTZ column, in microseconds. *)
Class Timestamptz := instant : string → option Z.

Record Desk := mkDesk { world : World; queue : Jobs.Tables }.

Definition on_world {A} (m : orchestration A) : stateful Desk A :=
  zoom world (λ w d, mkDesk w (queue d)) m.

(** A transaction of the job repository. *)
Definition on_queue {A} (f : Jobs.Tables → result (A * Jobs.Tables)) : stateful Desk A :=
  zoom queue (λ q d, mkDesk (world d) q) (transaction f).

(** A transaction on the tables of the runs and of the jobs. *)
Definition both_tables (d : Desk) : ResearchTables * Jobs.Tables :=
  (research_db (store (world d)), queue d).
Definition set_both (p : ResearchTables * Jobs.Tables) (d : Desk) : Desk :=
  mkDesk (set_research p.1 (world d)) p.2.

(** [SubmittedResearch] *)
Record Submitted := mkSubmitted { sub_run : ResearchRun; sub_job : Jobs.ResearchJob; replayed : bool }.

(** [INSERT INTO research_runs … ON CONFLICT (tenant_id, semantic_fingerprint) DO NOTHING] *)
Definition insert_run (tenant : string) (run : ResearchRun) (t : ResearchTables) :
    result (bool * ResearchTables) :=
  match List.find (fingerprint_match tenant run) (research_runs t) with
  | Some _ => Ok (false, t)
  | None =>
      let k := (tenant, research_run_id run) in
      _ ← require (bool_decide (find_run t k = None)) IntegrityError "research_runs";
      let row := mkRunRow (decision_file_id (request run)) (semantic_fingerprint run) run in
      Ok (true, set_runs (research_runs t ++ [(k, row)]) t)
  end.

Definition insert_budget (tenant id : string) (t : ResearchTables) : result ResearchTables :=
  _ ← require (bool_decide (budget_usage t !! (tenant, id) = None)) IntegrityError "research_budget_usage";
  Ok (set_budget (<[(tenant, id) := 0%Z]> (budget_usage t)) t).

(** The job, for the run that is stored. *)
Definition job_for (run_id : string) (j : Jobs.ResearchJob) : Jobs.ResearchJob :=
  Jobs.mkJob (job_id j) (job_tenant j) run_id (Jobs.correlation_id j) (payload_digest j) (job_status j)
    (attempt_count j) (available_at j) (Jobs.created_at j) (Jobs.updated_at j) (lease_token_hash j)
    (lease_expires_at j) (last_error_code j).

(** [PostgresJobRepository.submit] *)
Definition submit_both (tenant : string) (run : ResearchRun) (job : Jobs.ResearchJob)
    (p : ResearchTables * Jobs.Tables) : result (Submitted * (ResearchTables * Jobs.Tables)) :=
  let '(t, q) := p in
  _ ← require ((tenant =? run_tenant run) && (tenant =? job_tenant job)) ValueError "TENANT_MISMATCH";
  _ ← require ((research_run_id run =? Jobs.research_run_id job) && bool_decide (job_status job = QUEUED))
        ValueError "INVALID_RESEARCH_JOB_SUBMISSION";
  '(inserted_run, t) ← insert_run tenant run t;
  row ← or_raise (List.find (fingerprint_match tenant run) (research_runs t)) RuntimeError
          "RESEARCH_SUBMISSION_CONVERGENCE_FAILED";
  let stored_run := run_json row.2 in
  t ← (if inserted_run : bool then insert_budget tenant (research_run_id stored_run) t else Ok t);
  '(inserted_job, q) ← insert_job q (job_for (research_run_id stored_run) job);
  stored_job ← or_raise (job_of_run q tenant (research_run_id stored_run)) RuntimeError
                 "JOB_SUBMISSION_CONVERGENCE_FAILED";
  _ ← require (payload_digest stored_job =? payload_digest job) JobConflict "JOB_PAYLOAD_CONFLICT";
  let q := if inserted_job : bool
           then Jobs._append_event q stored_job "JOB_QUEUED" (Jobs.updated_at job) None None else q in
  Ok (mkSubmitted stored_run stored_job (negb inserted_run || negb inserted_job), (t, q)).

Section service.
Context `{HashAlg} `{ContractValidator} `{CaseFolding} `{UrlLibrary} `{Normalizer} `{Naming} `{FloatText} `{Timestamptz}.
Context (outside : Outside) (setup : Setup).

Definition column_instant (t : string) : result Z := or_raise (instant t) DataError "invalid timestamp".

(** ["job-" + str(uuid.uuid5(uuid.NAMESPACE_URL, run_id))] *)
Definition job_name (run_id : string) : string := "job-" +:+ uuid5_url run_id.

(** The times of a run are texts of [datetime.isoformat]; the model reads them when the job is
    made, the database when it is stored. *)
Definition proposed_job (tenant expected correlation : string) (run : ResearchRun) :
    result Jobs.ResearchJob :=
  created ← column_instant (run_created_at run);
  updated ← column_instant (run_updated_at run);
  research_job (Jobs.mkJob (job_name (research_run_id run)) tenant (research_run_id run) correlation
    expected QUEUED 0 created created updated None None None).

(** [ResearchSubmissionService.submit], with the atomic submitter the runtime gives it. *)
Definition submit (tenant actor : string) (r : ResearchRequest) (expected correlation : string)
    (refresh : option string) : stateful Desk Submitted :=
  run ← on_world (propose outside setup tenant actor r expected correlation refresh);
  job ← lift (proposed_job tenant expected correlation run);
  zoom both_tables set_both (transaction (submit_both tenant run job)).

(** ** [worker_runtime.py] *)

(** [process]; the orchestrator asks the job's cancellation through [outside]. *)
Definition process (job : Jobs.ResearchJob) : stateful Desk bool :=
  found ← on_world (repository (λ t, Ok (get_run (job_tenant job) (Jobs.research_run_id job) t, t)));
  research ← lift (or_raise found RuntimeError "RESEARCH_RUN_NOT_FOUND");
  cancelled ← gets (λ d, is_cancelled (job_tenant job) (job_id job) (queue d));
  if cancelled : bool then mret false
  else
    handle
      (r ← on_world
         (if bool_decide (run_status research = CREATED) then
            execute outside setup (job_tenant job) (run_actor research) (request research)
              (expected_document_hash research) (Jobs.correlation_id job) None
          else
            retry outside setup (job_tenant job) (run_actor research) (research_run_id research)
              (Jobs.correlation_id job));
       mret (bool_decide (run_status r = PARTIALLY_COMPLETED)))
      (λ e, if bool_decide (exn_cls e = ResearchExecutionCancelled) then Some (mret false) else None).

(** [ResearchWorker.run_once] with this processor, which raises neither of the two job errors:
    any other exception leaves [run_once], and the loop [run_worker] around it. [during] is what
    others do to the queue until the processor has ended, [lease_lost] whether a heartbeat failed,
    [later] the reading of the clock after it. *)
Definition work_once (policy : JobPolicy) (worker token : string) (now later : Z)
    (during : Jobs.Tables → Jobs.Tables) (lease_lost : bool) : stateful Desk bool :=
  claimed ← on_queue (claim policy worker token now);
  match claimed with
  | None => mret false
  | Some (job, lease) =>
      if bool_decide (job_status job = Jobs.CANCELLED) then mret true else
      cancelled ← gets (λ d, is_cancelled (job_tenant job) (job_id job) (queue d));
      if cancelled : bool then mret true
      else
        partial ← process job;
        _ ← modify (λ d, mkDesk (world d) (during (queue d)));
        cancelled ← gets (λ d, is_cancelled (job_tenant job) (job_id job) (queue d));
        if lease_lost || cancelled : bool then mret true
        else
          _ ← on_queue (complete (job_tenant job) (job_id job) lease partial later);
          mret true
  end.
End service.
