(* ===== verification/Mcp.v ===== *)
(** * The MCP server of research

    [mcp/]: five tools over the services of research. [contracts.py] and [policy.py] bound what a
    caller may ask; [service.py] checks the permission, keeps every tool that changes something
    under an idempotency key, and turns failures into coded errors; [server.py] answers every
    call; [auth.py] carries the identity through the claims of the access token. Every call draws
    one correlation identifier, its argument [correlation]. A response is the JSON object
    [model_dump] makes of it; a stored one is read back as it was written. *)

From S2P Require Import Prelude PyVal Json JsonLoads Sha256 PyTime PyDecimal AuditChain Identity Intake I18n Jobs Document DecisionStore Research ResearchEvidence ResearchStore Handoff CircuitBreaker UrlPolicy Orchestrator ResearchService.
From stdpp Require Import options.

(** ** [contracts.py] *)

Definition MCP_SCHEMA_VERSION : string := "0.5.0".

Inductive ResearchMode := QUICK | VERIFIED | DEEP.
Definition mode_value (m : ResearchMode) : string :=
  match m with QUICK => "QUICK" | VERIFIED => "VERIFIED" | DEEP => "DEEP" end.

Inductive ResearchResultKind :=
  | RESEARCH_ANSWER | EVIDENCE_BUNDLE | EVIDENCE_BUNDLE_WITH_CONFLICT_ANALYSIS.
Definition kind_text (k : ResearchResultKind) : string :=
  match k with
  | RESEARCH_ANSWER => "RESEARCH_ANSWER"
  | EVIDENCE_BUNDLE => "EVIDENCE_BUNDLE"
  | EVIDENCE_BUNDLE_WITH_CONFLICT_ANALYSIS => "EVIDENCE_BUNDLE_WITH_CONFLICT_ANALYSIS"
  end.

Record ResearchStartInput := mkStart {
  st_decision : option string; st_case : option string; st_claims : list string; st_query : string;
  st_locale : string; st_languages : list string; st_mode : ResearchMode; st_age : Z;
  st_allowed : list string; st_blocked : list string; st_results : option Z;
  st_extractions : option Z; st_key : string
}.

Definition text_within (low high : nat) (s : string) : bool :=
  (low <=? str_len s)%nat && (str_len s <=? high)%nat.
Definition items_within {A} (low high : nat) (l : list A) : bool :=
  (low <=? length l)%nat && (length l <=? high)%nat.
Definition option_within (low high : Z) (o : option Z) : bool :=
  match o with None => true | Some n => (low <=? n)%Z && (n <=? high)%Z end.
Definition option_text_within (low high : nat) (o : option string) : bool :=
  match o with None => true | Some s => text_within low high s end.

(** The fields of [ResearchStartInput] and its validator; pydantic's error is a [ValueError]. *)
Definition start_input (i : ResearchStartInput) : result ResearchStartInput :=
  _ ← require (option_text_within 1 256 (st_decision i) && option_text_within 1 256 (st_case i) &&
               items_within 1 100 (st_claims i) && text_within 1 400 (st_query i) &&
               text_within 2 35 (st_locale i) && items_within 1 5 (st_languages i) &&
               (1 <=? st_age i)%Z && (st_age i <=? 3650)%Z && items_within 0 50 (st_allowed i) &&
               items_within 0 50 (st_blocked i) && option_within 1 20 (st_results i) &&
               option_within 1 10 (st_extractions i) && text_within 1 128 (st_key i))
        ValueError "ResearchStartInput";
  _ ← require (negb (bool_decide (st_decision i = None ↔ st_case i = None)))
        ValueError "EXACTLY_ONE_RESEARCH_TARGET_REQUIRED";
  _ ← require (bool_decide (NoDup (st_claims i))) ValueError "INVALID_CLAIM_REFS";
  _ ← require (match st_results i, st_extractions i with
               | Some n, Some m => (m <=? n)%Z
               | _, _ => true
               end) ValueError "INVALID_EXTRACTION_LIMIT";
  Ok i.

(** [target_id] *)
Definition target_id (i : ResearchStartInput) : string :=
  match st_decision i with Some d => d | None => default "" (st_case i) end.

Definition int_json (o : option Z) : pyval := match o with None => PNone | Some n => PInt n end.

(** [request.model_dump(mode="json")] *)
Definition start_json (i : ResearchStartInput) : pyval := PDict
  [("schema_version", PStr MCP_SCHEMA_VERSION); ("decision_file_id", text_json (st_decision i));
   ("case_id", text_json (st_case i)); ("claim_refs", strs (st_claims i)); ("query", PStr (st_query i));
   ("locale", PStr (st_locale i)); ("preferred_languages", strs (st_languages i));
   ("mode", PStr (mode_value (st_mode i))); ("maximum_age_days", PInt (st_age i));
   ("allowed_domains", strs (st_allowed i)); ("blocked_domains", strs (st_blocked i));
   ("max_search_results", int_json (st_results i));
   ("max_sources_to_extract", int_json (st_extractions i)); ("idempotency_key", PStr (st_key i))].

Record ResearchMutationInput := mkMutation { mu_run : string; mu_locale : string; mu_key : string }.

Definition mutation_input (i : ResearchMutationInput) : result ResearchMutationInput :=
  _ ← require (text_within 1 256 (mu_run i) && text_within 2 35 (mu_locale i) && text_within 1 128 (mu_key i))
        ValueError "ResearchMutationInput";
  Ok i.

Definition mutation_json (i : ResearchMutationInput) : pyval := PDict
  [("schema_version", PStr MCP_SCHEMA_VERSION); ("research_run_id", PStr (mu_run i));
   ("locale", PStr (mu_locale i)); ("idempotency_key", PStr (mu_key i))].

(** [ResearchSourceView], [ResearchEvidenceView] *)
Definition source_view (s : SourceCandidate) : pyval := PDict
  [("source_id", PStr (source_id s)); ("canonical_url", PStr (canonical_url s));
   ("domain", PStr (domain s)); ("title", PStr (src_title s)); ("rank", PInt (rank s));
   ("extraction_status", PStr (src_status s)); ("reason_codes", strs (src_reasons s))].
Definition evidence_view (e : EvidenceCandidate) : pyval :=
  let a := assessment e in PDict
  [("evidence_id", PStr (cand_id e)); ("claim_refs", strs (cand_claims e));
   ("source_id", PStr (cand_source e)); ("snapshot_id", PStr (cand_snapshot e));
   ("content_hash", PStr (cand_hash e)); ("freshness_status", PStr (freshness_status a));
   ("conflict_status", PStr (conflict_status a));
   ("usable_for_decision", PBool (usable_for_decision a));
   ("requires_human_review", PBool (requires_human_review a));
   ("prompt_injection_suspected", PBool (injection_suspected (cand_risk e)));
   ("reason_codes", strs (as_reasons a))].

(** ** [policy.py] *)

Record McpResearchPolicy := mkMcpPolicy {
  server_max_search_results : Z; server_max_sources_to_extract : Z
}.

Definition mcp_policy (p : McpResearchPolicy) : result McpResearchPolicy :=
  _ ← require ((1 <=? server_max_search_results p)%Z && (server_max_search_results p <=? 20)%Z)
        ValueError "INVALID_CONFIGURED_SEARCH_LIMIT";
  _ ← require ((1 <=? server_max_sources_to_extract p)%Z &&
               (server_max_sources_to_extract p <=? Z.min (server_max_search_results p) 10)%Z)
        ValueError "INVALID_CONFIGURED_EXTRACTION_LIMIT";
  Ok p.

Record EffectiveResearchLimits := mkLimits {
  eff_search : Z; eff_extract : Z; result_kind : ResearchResultKind
}.

(** What a mode allows. *)
Definition mode_limits (m : ResearchMode) : Z * Z * ResearchResultKind :=
  match m with
  | QUICK => (5%Z, 2%Z, RESEARCH_ANSWER)
  | VERIFIED => (10%Z, 5%Z, EVIDENCE_BUNDLE)
  | DEEP => (20%Z, 10%Z, EVIDENCE_BUNDLE_WITH_CONFLICT_ANALYSIS)
  end.

(** [requested or fallback] *)
Definition or_limit (requested : option Z) (fallback : Z) : Z :=
  match requested with Some n => if (n =? 0)%Z then fallback else n | None => fallback end.

Definition effective_limits (p : McpResearchPolicy) (m : ResearchMode) (results extractions : option Z) :
    EffectiveResearchLimits :=
  let '(mode_search, mode_extract, kind) := mode_limits m in
  let search := Z.min (or_limit results mode_search) mode_search in
  let search := Z.min search (server_max_search_results p) in
  let extract := Z.min (or_limit extractions mode_extract) mode_extract in
  let extract := Z.min (Z.min extract (server_max_sources_to_extract p)) search in
  mkLimits search extract kind.

(** ** [service.py] *)

(** [str.isalnum] *)
Class Alphanumeric := str_isalnum : string → bool.

(** [str(error)]; that of a [KeyError] is the [repr] of its argument, in quotes. *)
Definition exn_text (e : exn) : string :=
  let text := str_join "" (exn_args e) in
  if bool_decide (exn_cls e = KeyError) then "'" +:+ text +:+ "'" else text.

Definition without_underscores (s : string) : string :=
  String.string_of_list_ascii (List.filter (λ c, negb (Ascii.eqb c "_")) (String.list_ascii_of_string s)).

(** [_safe_reason] *)
Definition _safe_reason `{Alphanumeric} (e : exn) : string :=
  let value := exn_text e in
  if negb (value =? "") && (str_len value <=? 128)%nat && str_isalnum (without_underscores value)
  then value else "OPERATION_REJECTED".

(** [McpApplicationError] *)
Definition mcp_error {A} (code : string) (reason : list string) : result A :=
  Raise (Exn McpApplicationError (code :: reason)).

(** What the view of a run shows of the call that made it. *)
Record CallView := mkCallView {
  v_mode : option ResearchMode; v_kind : option ResearchResultKind; v_job : option Jobs.ResearchJob
}.
Definition plain_view : CallView := mkCallView None None None.

(** [_success] *)
Definition conflicting (e : EvidenceCandidate) : bool := conflict_status (assessment e) =? "CONFLICTING".
Definition run_view (r : ResearchRun) (v : CallView) : pyval :=
  let conflicts := filter (λ e, conflicting e = true) (run_evidence r) in PDict
  [("research_run_id", PStr (research_run_id r));
   ("decision_file_id", PStr (decision_file_id (request r)));
   ("status", PStr (research_status_value (run_status r)));
   ("mode", text_json (mode_value <$> v_mode v)); ("result_kind", text_json (kind_text <$> v_kind v));
   ("created_at", PStr (run_created_at r)); ("updated_at", PStr (run_updated_at r));
   ("correlation_id", PStr (run_correlation r)); ("audit_event_ids", strs (map re_id (run_events r)));
   ("source_count", PInt (Z.of_nat (length (sources r))));
   ("evidence_count", PInt (Z.of_nat (length (run_evidence r))));
   ("provider_cost_units", PInt (provider_cost_units r));
   ("compiled_decision_file_id", text_json (compiled_decision_file_id r));
   ("requires_human_review", PBool (negb (bool_decide (conflicts = [])) ||
      existsb (λ e, requires_human_review (assessment e)) (run_evidence r)));
   ("sources", PList (map source_view (sources r)));
   ("evidence_bundle_draft", PList (map evidence_view (run_evidence r)));
   ("conflict_evidence_ids", strs (map cand_id conflicts));
   ("error_codes", strs (map err_reason (errors r)));
   ("job_id", text_json (job_id <$> v_job v));
   ("job_status", text_json ((λ j, job_status_value (job_status j)) <$> v_job v))].

Definition tool_response (ok : bool) (correlation : string) (value error : pyval) : pyval := PDict
  [("schema_version", PStr MCP_SCHEMA_VERSION); ("ok", PBool ok); ("correlation_id", PStr correlation);
   ("result", value); ("error", error)].

Definition _success (r : ResearchRun) (v : CallView) : pyval :=
  tool_response true (run_correlation r) (run_view r v) PNone.

(** The call is under this key, for the request with this digest. *)
Definition call_key (i : Identity) (operation key : string) : research_operation :=
  (tenant_name i, identity_actor i, operation, key).

(** Which of the optional services the server has. *)
Record Server := mkServer { has_submission : bool; has_jobs : bool; limits : McpResearchPolicy }.

Section service.
Context `{HashAlg} `{ContractValidator} `{CaseFolding} `{UrlLibrary} `{Normalizer} `{Naming} `{FloatText} `{Timestamptz} `{Alphanumeric}.
Context (outside : Outside) (setup : Setup) (server : Server).

Definition mcp_require (i : Identity) (p : Permission) : stateful Desk unit :=
  lift (match authorize i p with Ok _ => Ok tt | Raise _ => mcp_error "FORBIDDEN" [] end).

(** [_required] *)
Definition mcp_required (i : Identity) (id : string) : stateful Desk ResearchRun :=
  r ← on_world (repository (λ t, Ok (get_run (tenant_name i) id t, t)));
  match r with Some r => mret r | None => lift (mcp_error "NOT_FOUND" []) end.

(** [_begin] *)
Definition _begin (k : research_operation) (digest : string) : stateful Desk (option pyval) :=
  replay ← handle (on_world (repository (reserve_idempotency k digest))) (λ e,
    if bool_decide (exn_cls e = ResearchIdempotencyConflict) then
      Some (lift (mcp_error "CONFLICT" ["IDEMPOTENCY_KEY_REUSED"]))
    else if bool_decide (exn_cls e = ResearchIdempotencyInProgress) then
      Some (lift (mcp_error "CONFLICT" ["IDEMPOTENCY_REQUEST_IN_PROGRESS"]))
    else None);
  mret (snd <$> replay).

(** [_finish], [_release] *)
Definition _finish (k : research_operation) (digest : string) (response : pyval) : stateful Desk unit :=
  on_world (repository (λ t, t ← complete_idempotency k digest 200 response t; Ok (tt, t))).
Definition _release (k : research_operation) (digest : string) : stateful Desk unit :=
  on_world (repository (λ t, Ok (tt, release_idempotency k digest t))).

(** The body of a tool under its key: an exception frees the key, and one that [caught] names
    is reported with [code]. *)
Definition under_key {A} (k : research_operation) (digest code : string) (caught : exn_class → bool)
    (m : stateful Desk A) : stateful Desk A :=
  handle m (λ e, Some (
    _ ← _release k digest;
    lift (if caught (exn_cls e) then mcp_error code [_safe_reason e] else Raise e))).

Definition finished (k : research_operation) (digest : string) (response : pyval) : stateful Desk pyval :=
  _ ← _finish k digest response; mret response.

Definition start_document (i : Identity) (target : string) : stateful Desk Document := λ d,
  match decisions (decision_db (store (world d))) !! (tenant_name i, target) with
  | Some document => (Ok document, d)
  | None => (mcp_error "NOT_FOUND" [], d)
  end.

Definition start_contract (i : ResearchStartInput) (l : EffectiveResearchLimits) : ResearchRequest :=
  mkResearchRequest (target_id i) (st_claims i) (st_query i) (st_locale i) (st_languages i)
    (eff_search l) (eff_extract l) (st_allowed i) (st_blocked i) (mkFreshness (st_age i) true)
    (match st_mode i with QUICK => "standard" | _ => "high-assurance" end) false "0.4.0".

(** The run of [start], and the job that will do the work when there is a queue. *)
Definition start_run (i : Identity) (contract : ResearchRequest) (expected correlation : string) :
    stateful Desk (ResearchRun * option Jobs.ResearchJob) :=
  if has_submission server then
    s ← submit outside setup (tenant_name i) (identity_actor i) contract expected correlation None;
    mret (sub_run s, Some (sub_job s))
  else
    r ← on_world (execute outside setup (tenant_name i) (identity_actor i) contract expected correlation None);
    mret (r, None).

(** [start]; the contract is made after the key is taken and outside the [try]. *)
Definition start (i : Identity) (input : ResearchStartInput) (correlation : string) : stateful Desk pyval :=
  _ ← mcp_require i RESEARCH_CREATE;
  let digest := payload_hash (start_json input) in
  document ← start_document i (target_id input);
  _ ← (if status document =? "DRAFT" then mret tt
       else lift (mcp_error "CONFLICT" ["DECISION_NOT_DRAFT"]));
  _ ← (if forallb (λ c, str_in c (map claim_id (claims document))) (st_claims input) then mret tt
       else lift (mcp_error "INVALID_REQUEST" ["CLAIM_REFERENCE_NOT_FOUND"]));
  let l := effective_limits (limits server) (st_mode input) (st_results input) (st_extractions input) in
  let k := call_key i "mcp:research_start" (st_key input) in
  replay ← _begin k digest;
  match replay with
  | Some response => mret response
  | None =>
      contract ← lift (research_request (start_contract input l));
      '(r, job) ← under_key k digest "INVALID_REQUEST" is_value_error
                    (start_run i contract (payload_hash (document_json document)) correlation);
      finished k digest (_success r (mkCallView (Some (st_mode input)) (Some (result_kind l)) job))
  end.

(** [get] *)
Definition get (i : Identity) (id : string) : stateful Desk pyval :=
  _ ← mcp_require i RESEARCH_READ;
  r ← mcp_required i id;
  mret (_success r plain_view).

(** [_mutation_begin] and what follows it in every tool on a run. *)
Definition mutation (i : Identity) (input : ResearchMutationInput) (action : string)
    (caught : exn_class → bool) (body : stateful Desk (ResearchRun * option Jobs.ResearchJob)) :
    stateful Desk pyval :=
  _ ← mcp_required i (mu_run input);
  let k := call_key i ("mcp:" +:+ action +:+ ":" +:+ mu_run input) (mu_key input) in
  let digest := payload_hash (mutation_json input) in
  replay ← _begin k digest;
  match replay with
  | Some response => mret response
  | None =>
      '(r, job) ← under_key k digest "CONFLICT" caught body;
      finished k digest (_success r (mkCallView None None job))
  end.

Definition is_key_or_value_error (c : exn_class) : bool := bool_decide (c = KeyError) || is_value_error c.

Definition requeue_run (i : Identity) (id correlation : string) :
    stateful Desk (ResearchRun * option Jobs.ResearchJob) :=
  r ← on_world (validate_retry outside (tenant_name i) id);
  now ← on_world (_time outside);
  at_ ← lift (column_instant now);
  job ← on_queue (Jobs.requeue (tenant_name i) (job_name (research_run_id r)) correlation at_);
  mret (r, Some job).

Definition inline {A} (m : orchestration A) : stateful Desk (A * option Jobs.ResearchJob) :=
  r ← on_world m; mret (r, None).

(** [retry] *)
Definition mcp_retry (i : Identity) (input : ResearchMutationInput) (correlation : string) :
    stateful Desk pyval :=
  _ ← mcp_require i RESEARCH_RETRY;
  if has_jobs server then
    mutation i input "research_retry" is_key_or_value_error (requeue_run i (mu_run input) correlation)
  else
    mutation i input "research_retry" is_value_error
      (inline (retry outside setup (tenant_name i) (identity_actor i) (mu_run input) correlation)).

(** The run is cancelled, and its job if it has one that is not finished. *)
Definition cancel_run (i : Identity) (id correlation : string) :
    stateful Desk (ResearchRun * option Jobs.ResearchJob) :=
  r ← on_world (cancel outside (tenant_name i) (identity_actor i) id correlation);
  _ ← (if has_jobs server then
         handle (at_ ← lift (column_instant (run_updated_at r));
                 _ ← on_queue (Jobs.cancel (tenant_name i) (job_name (research_run_id r)) at_);
                 mret tt)
           (λ e, if is_key_or_value_error (exn_cls e) then Some (mret tt) else None)
       else mret tt);
  mret (r, None).

(** [cancel] *)
Definition mcp_cancel (i : Identity) (input : ResearchMutationInput) (correlation : string) :
    stateful Desk pyval :=
  _ ← mcp_require i RESEARCH_CANCEL;
  mutation i input "research_cancel" is_value_error (cancel_run i (mu_run input) correlation).

(** [handoff] *)
Definition mcp_handoff (i : Identity) (input : ResearchMutationInput) (correlation : string) :
    stateful Desk pyval :=
  _ ← mcp_require i RESEARCH_HANDOFF;
  mutation i input "research_handoff" is_value_error
    (inline (handoff (tenant_name i) (identity_actor i) (mu_run input) correlation)).

(** ** [auth.py] *)

Notation claims_of := (list (string * pyval)) (only parsing).

(** The claims [verify_token] puts in the access token. *)
Definition token_claims (i : Identity) : claims_of :=
  [("actor_id", PStr (identity_actor i)); ("tenant_id", PStr (tenant_name i));
   ("role", PStr (role_value (identity_role i))); ("kind", PStr (kind_value (identity_kind i)));
   ("organization_id", text_json (organization_id i)); ("groups", strs (groups i))].

Definition verify_token (authenticate : string → result Identity) (token : string) :
    result (option claims_of) :=
  match authenticate token with
  | Ok i => Ok (Some (token_claims i))
  | Raise e => if is_value_error (exn_cls e) then Ok None else Raise e
  end.

Definition parse_kind (s : string) : option ActorKind :=
  List.find (λ k, kind_value k =? s) [HUMAN; AGENT; SERVICE].

Definition claimed_groups (v : pyval) : result (list string) :=
  match v with
  | PList l => mapM (λ v, match v with PStr s => Ok s | _ => raise ValueError "INVALID_GROUPS" end) l
  | _ => raise ValueError "INVALID_GROUPS"
  end.

(** The body of the [try] of [current_identity]. *)
Definition identity_from (c : claims_of) : result Identity :=
  group_list ← claimed_groups (default (PList []) (assoc "groups" c));
  organization ← match assoc "organization_id" c with
                 | None | Some PNone => Ok None
                 | Some (PStr s) => Ok (Some s)
                 | _ => raise ValueError "INVALID_ORGANIZATION"
                 end;
  actor ← or_raise (assoc "actor_id" c) KeyError "actor_id";
  tenant ← or_raise (assoc "tenant_id" c) KeyError "tenant_id";
  t ← tenant_context (py_str tenant);
  role ← or_raise (assoc "role" c) KeyError "role";
  role ← or_raise (parse_role (py_str role)) ValueError "Role";
  kind ← or_raise (assoc "kind" c) KeyError "kind";
  kind ← or_raise (parse_kind (py_str kind)) ValueError "ActorKind";
  make_identity (mkIdentity (py_str actor) t role kind organization group_list ∅ None []).

Definition current_identity (claims : option claims_of) : result Identity :=
  match claims with
  | None => mcp_error "UNAUTHENTICATED" []
  | Some c =>
      match identity_from c with
      | Raise e => if is_key_or_value_error (exn_cls e) || bool_decide (exn_cls e = TypeError)
                   then mcp_error "UNAUTHENTICATED" [] else Raise e
      | r => r
      end
  end.

(** ** [server.py] *)

Inductive tool :=
  | ResearchStart (input : ResearchStartInput)
  | ResearchGet (id locale : string)
  | ResearchRetry (input : ResearchMutationInput)
  | ResearchCancel (input : ResearchMutationInput)
  | ResearchHandoff (input : ResearchMutationInput).

Definition tool_locale (t : tool) : string :=
  match t with
  | ResearchStart i => st_locale i
  | ResearchGet _ l => l
  | ResearchRetry i | ResearchCancel i | ResearchHandoff i => mu_locale i
  end.

Definition perform_tool (i : Identity) (t : tool) (correlation : string) : stateful Desk pyval :=
  match t with
  | ResearchStart input => start i input correlation
  | ResearchGet id _ => get i id
  | ResearchRetry input => mcp_retry i input correlation
  | ResearchCancel input => mcp_cancel i input correlation
  | ResearchHandoff input => mcp_handoff i input correlation
  end.

(** [error_response] *)
Definition error_response `{CaseMapping} (code : string) (reason : option string) (locale correlation : string) :
    pyval :=
  tool_response false correlation PNone (PDict
    [("code", PStr code); ("message", PStr (localize code (select_locale (Some locale))));
     ("reason_code", text_json reason)]).

(** [_guard], [_guard_async]; [failure] is the correlation identifier of an error. *)
Definition guarded `{CaseMapping} (locale failure : string) (m : stateful Desk pyval) : stateful Desk pyval :=
  handle m (λ e, Some (mret (
    match bool_decide (exn_cls e = McpApplicationError), exn_args e with
    | true, code :: reason => error_response code (head reason) locale failure
    | _, _ => error_response "INTERNAL_ERROR" None locale failure
    end))).

Definition call_tool `{CaseMapping} (claims : option claims_of) (t : tool) (correlation failure : string) :
    stateful Desk pyval :=
  guarded (tool_locale t) failure
    (i ← lift (current_identity claims); perform_tool i t correlation).
End service.
