(* ===== verification/ResearchApi.v ===== *)
(** * The routes of research

    [api/routes/research.py] and [api/research_schemas.py]: a research run is started, read,
    retried and cancelled over HTTP. The state is the [Desk] with the log of the security events
    every permission check writes. *)

From S2P Require Import Prelude PyVal Json JsonLoads Sha256 PyTime AuditChain Identity SecurityEvents Jobs Document DecisionStore Research ResearchCodec ResearchEvidence ResearchStore Handoff CircuitBreaker UrlPolicy Orchestrator ResearchService Mcp.
From stdpp Require Import options.

Record Front := mkFront { security : list SecurityEvent; desk : Desk }.

(** The part of the state the dependencies of the routes see. *)
Definition the_app (f : Front) : App := mkApp (decision_db (store (world (desk f)))) (security f).
Definition set_app (a : App) (f : Front) : Front :=
  let w := world (desk f) in
  mkFront (security_log a)
    (mkDesk (set_store (mkStore (database a) (research_db (store w))) w) (queue (desk f))).
Definition on_app {A} (m : stateful App A) : stateful Front A := zoom the_app set_app m.
Definition on_desk {A} (m : stateful Desk A) : stateful Front A :=
  zoom desk (λ d f, mkFront (security f) d) m.

(** ** [research_schemas.py] *)

Record ResearchRequestBody := mkResearchBody { rb_request : ResearchRequest; rb_generation : option string }.

(** The fields of the body and its validator. *)
Definition research_body (b : ResearchRequestBody) : result ResearchRequestBody :=
  let r := rb_request b in
  _ ← require ((rq_schema_version r =? "0.4.0") && text_within 1 256 (decision_file_id r) &&
               items_within 1 100 (rq_claim_refs r) && text_within 1 400 (query r) &&
               text_within 2 35 (locale r) && items_within 1 5 (preferred_languages r) &&
               (1 <=? max_search_results r)%Z && (max_search_results r <=? 20)%Z &&
               (1 <=? max_sources_to_extract r)%Z && (max_sources_to_extract r <=? 10)%Z &&
               items_within 0 50 (allowed_domains r) && items_within 0 50 (blocked_domains r) &&
               (1 <=? maximum_age_days (freshness r))%Z && (maximum_age_days (freshness r) <=? 3650)%Z &&
               str_in (research_policy r) ["standard"; "high-assurance"] &&
               option_text_within 1 128 (rb_generation b))
        ValueError "ResearchRequestBody";
  _ ← require (max_sources_to_extract r <=? max_search_results r)%Z ValueError "INVALID_EXTRACTION_LIMIT";
  _ ← require (bool_decide (NoDup (rq_claim_refs r))) ValueError "INVALID_CLAIM_REFS";
  _ ← require (bool_decide (force_refresh r = true ↔ is_Some (rb_generation b)))
        ValueError "INVALID_REFRESH_GENERATION";
  Ok b.

(** [body.model_dump(mode="json")] *)
Definition research_body_json (b : ResearchRequestBody) : pyval :=
  let r := rb_request b in PDict
  [("schema_version", PStr (rq_schema_version r)); ("decision_file_id", PStr (decision_file_id r));
   ("claim_refs", strs (rq_claim_refs r)); ("query", PStr (query r)); ("locale", PStr (locale r));
   ("preferred_languages", strs (preferred_languages r));
   ("max_search_results", PInt (max_search_results r));
   ("max_sources_to_extract", PInt (max_sources_to_extract r));
   ("allowed_domains", strs (allowed_domains r)); ("blocked_domains", strs (blocked_domains r));
   ("freshness", PDict [("maximum_age_days", PInt (maximum_age_days (freshness r)));
                        ("prefer_recent", PBool (prefer_recent (freshness r)))]);
   ("research_policy", PStr (research_policy r)); ("force_refresh", PBool (force_refresh r));
   ("refresh_generation", text_json (rb_generation b))].

(** ** The answers *)

Definition error_summary (e : ResearchError) : pyval := PDict
  [("reason_code", PStr (err_reason e)); ("source_id", text_json (err_source e));
   ("provider_id", text_json (pe_provider <$> err_provider e));
   ("retryable", PBool (match err_provider e with Some p => retryable p | None => false end));
   ("status_code", int_json (err_provider e ≫= pe_status))].

(** [_summary], with the job when there is one. *)
Definition _summary (r : ResearchRun) (job : option Jobs.ResearchJob) : pyval := PDict (
  [("schema_version", PStr "0.4.0"); ("research_run_id", PStr (research_run_id r));
   ("decision_file_id", PStr (decision_file_id (request r)));
   ("status", PStr (research_status_value (run_status r))); ("created_at", PStr (run_created_at r));
   ("updated_at", PStr (run_updated_at r)); ("correlation_id", PStr (run_correlation r));
   ("source_count", PInt (Z.of_nat (length (sources r))));
   ("evidence_count", PInt (Z.of_nat (length (run_evidence r))));
   ("provider_cost_units", PInt (provider_cost_units r));
   ("compiled_decision_file_id", text_json (compiled_decision_file_id r));
   ("errors", PList (map error_summary (errors r)))] ++
  match job with
  | Some j => [("job_id", PStr (job_id j)); ("job_status", PStr (job_status_value (job_status j)))]
  | None => []
  end).

Section routes.
Context `{HashAlg} `{ContractValidator} `{CaseFolding} `{UrlLibrary} `{Normalizer} `{Naming} `{FloatText} `{Timestamptz}.
Context (outside : Outside) (setup : Setup) (submission : bool).

Definition api_require (q : Request) (i : Identity) (p : Permission) : stateful Front unit :=
  on_app (require_permission q i p).

(** [_required] *)
Definition api_required (i : Identity) (id : string) : stateful Front ResearchRun :=
  r ← on_desk (on_world (repository (λ t, Ok (get_run (tenant_name i) id t, t))));
  match r with Some r => mret r | None => lift not_found end.

(** [_begin] *)
Definition api_begin (i : Identity) (operation : string) (key : option string) (payload : pyval) :
    stateful Front (research_operation * string * option Response) :=
  key ← lift (require_idempotency_key key);
  let k := call_key i operation key in
  let digest := payload_hash payload in
  replay ← handle
    (on_desk (on_world (repository (λ t, r ← get_research_idempotency k digest t; Ok (r, t)))))
    (λ e, if bool_decide (exn_cls e = ResearchIdempotencyConflict)
          then Some (lift (conflict ["IDEMPOTENCY_KEY_REUSED"])) else None);
  mret (k, digest, (λ r, mkResponse r.1 r.2) <$> replay).

(** [_finish] *)
Definition api_finish (k : research_operation) (digest : string) (r : Response) : stateful Front unit :=
  on_desk (on_world (repository (λ t,
    t ← ResearchStore.store_idempotency k digest (status_code r) (body r) t; Ok (tt, t)))).

(** [except ValueError as error: raise ApiError(status, code, {"reason_code": str(error)})] *)
Definition or_api_error {A} (status code : string) (m : stateful Front A) : stateful Front A :=
  handle m (λ e, if is_value_error (exn_cls e) then Some (lift (api_error status [code; exn_text e])) else None).

(** The body of the [try] of [create_research_run]. *)
Definition create_run (q : Request) (i : Identity) (b : ResearchRequestBody) (d : Document) :
    stateful Front (ResearchRun * option Jobs.ResearchJob) :=
  contract ← lift (research_request (rb_request b));
  let expected := payload_hash (document_json d) in
  if submission then
    s ← on_desk (submit outside setup (tenant_name i) (identity_actor i) contract expected
                   (DecisionStore.correlation_id q) (rb_generation b));
    mret (sub_run s, Some (sub_job s))
  else
    r ← on_desk (on_world (execute outside setup (tenant_name i) (identity_actor i) contract expected
                   (DecisionStore.correlation_id q) (rb_generation b)));
    mret (r, None).

(** [POST /v1/research-runs] *)
Definition create_research_run (q : Request) (i : Identity) (key : option string) (b : ResearchRequestBody) :
    stateful Front Response :=
  _ ← api_require q i RESEARCH_CREATE;
  _ ← (if force_refresh (rb_request b) then api_require q i RESEARCH_FORCE_REFRESH else mret tt);
  '(k, digest, replay) ← api_begin i "research:create" key (research_body_json b);
  match replay with
  | Some r => mret r
  | None =>
      d ← on_app (find_document i (decision_file_id (rb_request b)));
      _ ← lift (if status d =? "DRAFT" then Ok tt else conflict ["DECISION_NOT_DRAFT"]);
      _ ← lift (if forallb (λ c, str_in c (map claim_id (claims d))) (rq_claim_refs (rb_request b)) then Ok tt
                else api_error "422" ["INVALID_REQUEST"; "CLAIM_REFERENCE_NOT_FOUND"]);
      '(r, job) ← or_api_error "422" "INVALID_REQUEST" (create_run q i b d);
      let response := mkResponse (if submission then 202 else 201) (_summary r job) in
      _ ← api_finish k digest response;
      mret response
  end.

(** [GET /v1/research-runs/{research_run_id}] and its lists *)
Definition get_research_run (q : Request) (i : Identity) (id : string) : stateful Front pyval :=
  _ ← api_require q i RESEARCH_READ;
  r ← api_required i id;
  mret (_summary r None).

Definition page_of (items : list pyval) (limit offset : Z) : pyval :=
  PDict [("items", PList items); ("limit", PInt limit); ("offset", PInt offset)].

(** The bounds FastAPI puts on the two query parameters. *)
Definition page_within (limit offset : Z) : result unit :=
  if (1 <=? limit)%Z && (limit <=? 100)%Z && (0 <=? offset)%Z then Ok tt
  else api_error "422" ["INVALID_REQUEST"].

Definition get_research_sources (q : Request) (i : Identity) (id : string) (limit offset : Z) :
    stateful Front pyval :=
  _ ← lift (page_within limit offset);
  _ ← api_require q i RESEARCH_READ;
  _ ← api_required i id;
  l ← on_desk (on_world (repository (λ t, l ← list_sources (tenant_name i) id limit offset t; Ok (l, t))));
  mret (page_of (map source_data l) limit offset).

Definition get_research_evidence (q : Request) (i : Identity) (id : string) (limit offset : Z) :
    stateful Front pyval :=
  _ ← lift (page_within limit offset);
  _ ← api_require q i RESEARCH_READ;
  _ ← api_required i id;
  l ← on_desk (on_world (repository (λ t, l ← list_evidence (tenant_name i) id limit offset t; Ok (l, t))));
  mret (page_of (map evidence_data l) limit offset).

Definition get_research_audit (q : Request) (i : Identity) (id : string) : stateful Front pyval :=
  _ ← api_require q i RESEARCH_AUDIT_READ;
  _ ← api_required i id;
  l ← on_desk (on_world (repository (λ t, Ok (list_run_audit (tenant_name i) id t, t))));
  mret (PDict [("items", PList (map research_event_json l))]).

(** The two actions on a run. *)
Inductive action := RetryRun | CancelRun.
Definition action_name (a : action) : string := match a with RetryRun => "retry" | CancelRun => "cancel" end.

(** [_action] *)
Definition _action (a : action) (q : Request) (i : Identity) (key : option string) (id : string) :
    stateful Front Response :=
  _ ← api_require q i (match a with RetryRun => RESEARCH_RETRY | CancelRun => RESEARCH_CANCEL end);
  _ ← api_required i id;
  '(k, digest, replay) ← api_begin i ("research:" +:+ action_name a +:+ ":" +:+ id) key (PDict []);
  match replay with
  | Some r => mret r
  | None =>
      r ← or_api_error "409" "CONFLICT" (on_desk (on_world
            (match a with
             | RetryRun => retry outside setup (tenant_name i) (identity_actor i) id (DecisionStore.correlation_id q)
             | CancelRun => cancel outside (tenant_name i) (identity_actor i) id (DecisionStore.correlation_id q)
             end)));
      let response := mkResponse 200 (_summary r None) in
      _ ← api_finish k digest response;
      mret response
  end.
End routes.
