(* ===== verification/ResearchProps.v ===== *)
(** * What the ledger of a research run guarantees

    The ledger is a chain, its events follow the lifecycle from [CREATED], and the status of the
    run is the one they lead to: [run_ok], kept by everything the orchestrator does to a run. *)

From S2P Require Import Prelude PyVal Json Sha256 AuditChain Research ResearchEvidence ResearchStore.
From stdpp Require Import options.

(** ** The lifecycle as a step relation *)

Inductive event_step : ResearchStatus → ResearchAuditEvent → ResearchStatus → Prop :=
  | step_transition e is_retry :
      re_type e = "research.status-transitioned" →
      research_transition (re_from e) (re_to e) is_retry = Ok (re_to e) →
      event_step (re_from e) e (re_to e)
  | step_egress e :
      re_type e = "research.egress-decision" → re_to e = re_from e →
      event_step (re_from e) e (re_from e).

Inductive ledger_path : ResearchStatus → list ResearchAuditEvent → ResearchStatus → Prop :=
  | path_nil s : ledger_path s [] s
  | path_snoc s t u l e : ledger_path s l t → event_step t e u → ledger_path s (l ++ [e]) u.

Section ledger.
Context `{HashAlg}.

Record run_ok (r : ResearchRun) : Prop := mkRunOk {
  ledger_chained : chained (map research_event_json (run_events r));
  ledger_follows : ledger_path CREATED (run_events r) (run_status r)
}.

Lemma research_link_json (l : list ResearchAuditEvent) :
  link (last (map research_event_json l)) = text_json (research_link l).
Proof. unfold research_link. rewrite fmap_last. by destruct (last l). Qed.

Lemma run_ok_snoc r e u :
  run_ok r → re_previous e = research_link (run_events r) → event_step (run_status r) e u →
  chained (map research_event_json (run_events r ++ [e])) ∧
  ledger_path CREATED (run_events r ++ [e]) u.
Proof.
  intros [Hc Hf] Hp He. split; [|by econstructor].
  rewrite map_app. cbn. rewrite chained_snoc. split; [done|].
  rewrite research_link_json. cbn. by rewrite Hp.
Qed.

Lemma research_transition_target s t b u : research_transition s t b = Ok u → u = t.
Proof. unfold research_transition. repeat case_match; intros; inv_ok; done. Qed.

Lemma apply_transition_inv target at_ actor reasons payload is_retry r r' :
  apply_transition target at_ actor reasons payload is_retry r = Ok r' →
  research_transition (run_status r) target is_retry = Ok target ∧
  r' = run_add_event (transition_audit r target at_ actor reasons payload) (run_set_status target at_ r).
Proof.
  unfold apply_transition. intros ?. inv_ok. split; [|done].
  match goal with H : research_transition _ _ _ = Ok _ |- _ =>
    by rewrite H, (research_transition_target _ _ _ _ H) end.
Qed.

Lemma apply_transition_ok target at_ actor reasons payload is_retry r r' :
  run_ok r → apply_transition target at_ actor reasons payload is_retry r = Ok r' → run_ok r'.
Proof.
  intros Hr (Ht & ->)%apply_transition_inv.
  destruct (run_ok_snoc r (transition_audit r target at_ actor reasons payload) target Hr) as [Hc Hf];
    [done|by eapply (step_transition (transition_audit r target at_ actor reasons payload))|].
  by split.
Qed.

Lemma append_egress_ok d r : run_ok r → run_ok (append_egress_decision d r).
Proof.
  intros Hr.
  destruct (run_ok_snoc r (egress_audit r d) (run_status r) Hr) as [Hc Hf];
    [done|by apply (step_egress (egress_audit r d))|].
  by split.
Qed.

(** Changes of the other fields *)
Lemma run_ok_same r r' :
  run_events r' = run_events r → run_status r' = run_status r → run_ok r → run_ok r'.
Proof. intros E1 E2 [Hc Hf]. split; by rewrite ?E1, ?E2. Qed.

Lemma run_ok_fresh r : run_events r = [] → run_status r = CREATED → run_ok r.
Proof. intros E1 E2. split; rewrite ?E1, ?E2; [done|constructor]. Qed.

Lemma mark_conflicting_same `{CaseFolding} r :
  run_events (mark_conflicting_evidence r) = run_events r ∧
  run_status (mark_conflicting_evidence r) = run_status r.
Proof. unfold mark_conflicting_evidence. by case_match. Qed.
End ledger.

(** ** The tables *)

(** Every stored run satisfies [P]. *)
Definition all_runs (P : ResearchRun → Prop) (t : ResearchTables) : Prop :=
  Forall (λ x, P (run_json x.2)) (research_runs t).

Section tables.
Context (P : ResearchRun → Prop).

Lemma find_run_elem t k row : find_run t k = Some row → (k, row) ∈ research_runs t.
Proof.
  unfold find_run. intros (x & Hx & ->)%fmap_Some.
  apply List.find_some in Hx as [Hin Hk%bool_decide_eq_true]. subst.
  apply list_elem_of_In in Hin. by destruct x.
Qed.

Lemma get_run_all t tenant id r : all_runs P t → get_run tenant id t = Some r → P r.
Proof.
  unfold get_run. intros Ht (row & Hrow & ->)%fmap_Some.
  apply find_run_elem in Hrow. unfold all_runs in Ht. rewrite Forall_forall in Ht.
  exact (Ht _ Hrow).
Qed.

Lemma prior_run_all t tenant r r' : all_runs P t → prior_run tenant r t = Some r' → P r'.
Proof.
  unfold prior_run, all_runs. rewrite Forall_forall. intros Ht.
  assert (∀ f x, List.find f (research_runs t) = Some x → P (run_json x.2)) as Hf.
  { intros f x [Hin%list_elem_of_In _]%List.find_some. exact (Ht _ Hin). }
  destruct (List.find (fingerprint_match tenant r) (research_runs t)) as [x|] eqn:E;
    [intros [= <-]; by eapply Hf|].
  intros (x & Hx & ->)%fmap_Some. by eapply Hf.
Qed.

Lemma create_or_get_all tenant r t r' t' :
  all_runs P t → P r → create_or_get tenant r t = Ok (r', t') → all_runs P t' ∧ P r'.
Proof.
  unfold create_or_get. intros Ht Hr ?. inv_ok.
  destruct (prior_run tenant r t) as [p|] eqn:E; inv_ok.
  - split; [done|]. by eapply prior_run_all.
  - split; [|done]. apply Forall_app. split; [done|]. by constructor.
Qed.

Lemma foldM_keeps {A} (Q : ResearchTables → Prop) (f : A → ResearchTables → result ResearchTables) l t t' :
  (∀ x s s', Q s → f x s = Ok s' → Q s') → Q t → foldM f l t = Ok t' → Q t'.
Proof.
  intros Hf. revert t. induction l as [|x l IH]; cbn; intros t Ht ?; inv_ok; [done|].
  eapply IH; [|done]. by eapply Hf.
Qed.
End tables.

(** What [save] leaves alone: it writes the run's row and its items. *)
Record items_only (t t' : ResearchTables) : Prop := mkItemsOnly {
  same_runs : research_runs t' = research_runs t;
  same_idempotency : idempotency_rows t' = idempotency_rows t;
  same_budget : budget_usage t' = budget_usage t;
  same_handoffs : research_handoffs t' = research_handoffs t
}.
#[export] Instance items_only_preorder : PreOrder items_only.
Proof. split; [by split|]. intros x y z [] []. split; congruence. Qed.

Ltac save_item := intros; repeat case_match; inv_ok; done.

Lemma save_source_items k x t t' : save_source k x t = Ok t' → items_only t t'.
Proof. unfold save_source. save_item. Qed.
Lemma save_snapshot_items k x t t' : save_snapshot k x t = Ok t' → items_only t t'.
Proof. unfold save_snapshot. save_item. Qed.
Lemma save_evidence_items k x t t' : save_evidence k x t = Ok t' → items_only t t'.
Proof. unfold save_evidence. save_item. Qed.
Lemma save_attempt_items k x t t' : save_attempt k x t = Ok t' → items_only t t'.
Proof. unfold save_attempt. save_item. Qed.
Lemma save_event_items k x t t' : save_event k x t = Ok t' → items_only t t'.
Proof. unfold save_event. save_item. Qed.

Lemma foldM_items {A} (f : A → ResearchTables → result ResearchTables) l t t' :
  (∀ x s s', f x s = Ok s' → items_only s s') → foldM f l t = Ok t' → items_only t t'.
Proof.
  intros Hf. apply (foldM_keeps (items_only t)); [|done].
  intros x s s' Hs Hx. etrans; [done|]. by eapply Hf.
Qed.

Lemma save_inv tenant r t t' :
  save tenant r t = Ok t' →
  tenant = run_tenant r ∧ is_Some (find_run t (tenant, research_run_id r)) ∧
  items_only (set_runs (update_run (tenant, research_run_id r) r (research_runs t)) t) t'.
Proof.
  unfold save, _assert_tenant. intros ?. inv_ok. bool_prop. split_and!; [done..|].
  repeat match goal with
  | H : foldM _ _ _ = Ok _ |- _ =>
      apply foldM_items in H;
        [|first [exact (save_source_items _)|exact (save_snapshot_items _)|exact (save_evidence_items _)
                |exact (save_attempt_items _)|exact (save_event_items _)]]
  end.
  repeat (etrans; [eassumption|]). done.
Qed.

Lemma update_run_all (P : ResearchRun → Prop) k r l :
  P r → Forall (λ x : run_key * RunRow, P (run_json x.2)) l →
  Forall (λ x, P (run_json x.2)) (update_run k r l).
Proof.
  intros Hr Hl. unfold update_run. rewrite Forall_fmap. apply (Forall_impl _ _ _ Hl). intros x Hx.
  cbn. by case_bool_decide.
Qed.

Lemma save_all P tenant r t t' : all_runs P t → P r → save tenant r t = Ok t' → all_runs P t'.
Proof.
  intros Ht Hr (_ & _ & [E _ _ _])%save_inv. unfold all_runs. rewrite E.
  by apply update_run_all.
Qed.
