(* ===== verification/ResearchSamples.v ===== *)
(** * A concrete research run

    Providers, a URL library and a store to run the orchestrator on: the inputs at which the
    witnesses apply its theorems. *)

From S2P Require Import Prelude PyVal Json JsonLoads Sha256 PyTime AuditChain Document DecisionFile Samples DecisionStore Research ResearchEvidence ResearchStore Handoff CircuitBreaker UrlPolicy Orchestrator.
From stdpp Require Import options.

Definition midday : datetime := DateTime 2026 3 1 12 0 0 0 (Some 0%Z).

(** Hosts under [https://example.org]. *)
Definition sample_urls : UrlLibrary := {|
  urlsplit s := Ok (mkSplit (if str_startswith "https://" s then "https" else "http") None None
                      (Some "example.org") (Ok None) "/a" "" "example.org" "");
  urlunsplit s n p q f := s +:+ "://" +:+ n +:+ p;
  ip_address s := if s =? "93.184.216.34"
                  then Some (mkIp s 4 true false false false false false false) else None;
  idna s := Some s;
  ip_network _ := true;
  parse_qsl _ := [];
  urlencode _ := ""
|}.
Definition sample_naming : Naming := {| nfkc s := s; uuid5_url _ := "1" |}.

Definition sample_snapshot (s : SourceCandidate) (c : ExtractedContent) : SourceSnapshot :=
  mkSnapshot (source_id s +:+ ":snapshot:1") (source_id s) (original_url s) (content_url c) (domain s)
    (content_title c) (content_retrieved_at c) "2026-03-02T12:00:00+00:00" "sha256:1" 200 "text/plain"
    "markdown" (markdown c) (content_language c) (content_provider_id c) (content_version c)
    (mkRisk false [] false false) "FETCHED_CONTENT".
Definition sample_normalizer : Normalizer := λ s c, Ok (sample_snapshot s c).

Definition sample_floats : FloatText := {| float_repr t := t; float_micros _ := 1000000%Z |}.

#[local] Existing Instances ascii_casefold constant_alg accept_all sample_urls sample_naming sample_normalizer sample_floats.

Definition sample_request : ResearchRequest :=
  mkResearchRequest "d1" ["c1"] "is it so" "en" ["en"] 5 2 [] [] (mkFreshness 365 true) "standard" false "0.4.0".

Definition sample_decision (c : EgressContext) : EgressDecision :=
  mkEgressDecision "ALLOWED" "2026-03-01T12:00:00+00:00" (ctx_tenant c) (ctx_actor c) (ctx_correlation c)
    "test" "residency-policy-v1" "search" "search" "example.org" None None None "EGRESS_ALLOWED".

Definition sample_response : SearchResponse :=
  mkSearchResponse "search" "1" "2026-03-01T12:00:00+00:00"
    [mkSearchResult "https://example.org/a" "t" "s" 1 None "CITED" "SEARCH_RESULT"] "" None.

Definition sample_content : ExtractedContent :=
  mkExtracted "long enough" "t" "https://example.org/a" "2026-03-01T12:00:00+00:00" "text/plain" 200 "en"
    "extract" "1" None.

(** Providers that answer, and an outside that interrupts nothing; [stop] is the number of the
    question from which the run is cancelled. *)
Definition sample_outside (stop : nat) : Outside := {|
  clock_at _ := midday;
  monotonic_at n := Z.of_nat n;
  cancelled_at n := (stop <=? n)%nat;
  resolve_at _ _ := Ok ["93.184.216.34"];
  search_at _ c _ := Decide (sample_decision c) (λ _, Answer (Answered sample_response));
  extract_at _ _ _ := Answer (Answered (Extracted sample_content))
|}.

Definition sample_setup : Setup :=
  mkSetup (mkResearchPolicy "research-policy-v1" "providers-v1" 3 86400 1000000 2 10 5) "search" "extract"
    (mkEvidencePolicy [] [] ["en"] 5) (Some (mkCircuitPolicy 3 30)).

Definition blank_run : ResearchRun :=
  mkRun "" "" "" sample_request "" "" CREATED "" "" "" [] [] [] [] [] [] 0 None None None.

Definition sample_database : Database := mkDatabase {[("t1", "d1") := draft_case]} ∅ [] ∅.
Definition sample_world : World := mkWorld (mkStore sample_database empty_tables) ∅ 0 blank_run [].

(** The run of the sample request against the draft case. *)
Definition sample_execute (stop : nat) : result ResearchRun * World :=
  execute (sample_outside stop) sample_setup "t1" "ann" sample_request
    (payload_hash (document_json draft_case)) "corr-1" None sample_world.

Example sample_completes :
  succeeds_with (sample_execute 1000).1 (λ r, bool_decide (run_status r = COMPLETED) &&
    bool_decide (compiled_decision_file_id r = Some "d1")) = true.
Proof. vm_compute. reflexivity. Qed.
