(* ===== verification/OrchestratorFacts.v ===== *)
(** * One induction over the orchestrator

    What every operation of the orchestrator keeps is proved once, for any [discipline]: an
    invariant [I] of the world, a predicate [J] that holds between the reservation of a unit of
    the budget and the provider call it pays for, and what is known of a run just read from the
    store, closed under the primitive steps. *)

From S2P Require Import Prelude PyVal Json JsonLoads Sha256 PyTime AuditChain Document DecisionStore Research ResearchEvidence ResearchStore ResearchProps Handoff CircuitBreaker UrlPolicy Orchestrator.
From stdpp Require Import options.

(** The evidence a handoff may attach. *)
Definition conservative (e : DecisionEvidence) : Prop :=
  de_status e ∈ ["UNVERIFIED"; "CONFLICTING"; "OUTDATED"].

Lemma compile_run_conservative r l : compile_run r = Ok l → Forall conservative l.
Proof.
  intros (yss & Hf & ->)%concatM_Ok. apply Forall_concat.
  induction Hf as [|c ys cs yss Hc _ IH]; constructor; [|done].
  unfold compile_candidate in Hc. repeat case_match; inv_ok; [constructor..|].
  constructor; [|constructor]. unfold conservative, compiled_status. cbn.
  repeat case_match; set_solver.
Qed.

(** The changes of the run that touch neither its identity nor its ledger. *)
Definition inert (f : ResearchRun → ResearchRun) : Prop := ∀ r,
  run_tenant (f r) = run_tenant r ∧ research_run_id (f r) = research_run_id r ∧
  run_events (f r) = run_events r ∧ run_status (f r) = run_status r.

Section discipline.
Context `{HashAlg} `{ContractValidator} `{CaseFolding} `{UrlLibrary} `{Normalizer} `{Naming} `{FloatText}.
Context (outside : Outside) (setup : Setup).

Record discipline (I : World → Prop) (J : string → World → Prop) (Pr : World → ResearchRun → Prop) : Prop := {
  asks w : I w → I (question w).2;
  asks_reserved tenant w : J tenant w → J tenant (question w).2;
  weakens tenant w : J tenant w → I w;
  trips w c : I w → I (set_circuits c w);
  changes f w : inert f → I w → I (set_run (f (run w)) w);
  changes_reserved tenant f w : inert f → J tenant w → J tenant (set_run (f (run w)) w);
  moves target at_ actor reasons payload b w r : I w →
    apply_transition target at_ actor reasons payload b (run w) = Ok r → I (set_run r w);
  decides d w : I w → I (set_run (append_egress_decision d (run w)) w);
  saves tenant w t : I w → save tenant (run w) (research_db (store w)) = Ok t → I (set_research t w);
  reserves tenant w used t : I w →
    reserve_budget tenant (research_run_id (run w)) (provider_budget (policy setup))
      (research_db (store w)) = Ok (used, t) → J tenant (set_research t w);
  pays tenant op source w : J tenant w → I (log_call tenant op source w).2;
  loads w tenant id r : I w → get_run tenant id (research_db (store w)) = Some r → Pr w r;
  waits w r : Pr w r → Pr (question w).2 r;
  holds w r : I w → Pr w r → I (set_run r w);
  renames w r actor correlation : Pr w r → Pr w (run_set_actor actor correlation r);
  creates tenant w r r' t : I w → run_events r = [] → run_status r = CREATED →
    create_or_get tenant r (research_db (store w)) = Ok (r', t) →
    I (set_research t w) ∧ Pr (set_research t w) r';
  hands tenant id expected l w d s : I w → Forall conservative l →
    attach tenant id expected l (store w) = Ok (d, s) → I (set_store s w)
}.

Context (I : World → Prop) (J : string → World → Prop) (Pr : World → ResearchRun → Prop)
        (D : discipline I J Pr).

Lemma same_research w : set_research (research_db (store w)) w = w.
Proof. by destruct w as [[] ? ? ? ?]. Qed.
Lemma same_store w : set_store (store w) w = w.
Proof. by destruct w. Qed.
Lemma same_circuits w : set_circuits (circuits w) w = w.
Proof. by destruct w. Qed.

Lemma question_keeps : keeps I question.
Proof using D. intros w Hw. exact (asks _ _ _ D w Hw). Qed.
Lemma question_reserved tenant : triple (J tenant) question (λ _, J tenant) I.
Proof using D. intros w Hw. exact (asks_reserved _ _ _ D tenant w Hw). Qed.
Lemma the_run_keeps P E : triple P the_run (λ _, P) E.
Proof. by apply triple_gets. Qed.
Lemma change_run_keeps f : inert f → keeps I (change_run f).
Proof using D. intros Hf. apply triple_modify. intros w. by apply (changes _ _ _ D). Qed.
Lemma lift_keeps {A} (m : result A) : keeps I (lift m).
Proof. by apply triple_lift. Qed.
Lemma guard_keeps b c msg : keeps I (guard_with b c msg).
Proof. by apply triple_guard. Qed.
Lemma ret_keeps {A} (a : A) : keeps I (mret a).
Proof. by apply triple_ret. Qed.

Hint Resolve question_keeps the_run_keeps change_run_keeps lift_keeps guard_keeps ret_keeps : discipline.

(** Step through a program whose parts keep [I]. *)
Ltac keep :=
  repeat (cbv zeta beta; match goal with
  | |- triple _ (mbind _ _) _ _ => apply (triple_bind I _ _ (λ _, I)); [|intros ?]
  | |- triple _ (if ?b then _ else _) _ _ => destruct b
  | |- triple _ (match ?x with _ => _ end) _ _ => destruct x
  | |- _ => solve [auto with discipline]
  end).

Lemma now_keeps : keeps I (now outside).
Proof using D. unfold now. keep. Qed.
Hint Resolve now_keeps : discipline.
Lemma time_keeps : keeps I (_time outside).
Proof using D. unfold _time. keep. Qed.
Lemma ensure_active_keeps : keeps I (_ensure_active outside).
Proof using D. unfold _ensure_active. keep. Qed.
Hint Resolve time_keeps ensure_active_keeps : discipline.

Lemma circuits_keeps {A} (m : stateful Circuits A) : keeps I (zoom circuits set_circuits m).
Proof using D.
  intros w Hw. unfold zoom. destruct (m (circuits w)) as [[a|e] c]; by apply (trips _ _ _ D).
Qed.
Hint Resolve circuits_keeps : discipline.
Lemma circuit_before_keeps tenant provider : keeps I (circuit_before outside setup tenant provider).
Proof using D. unfold circuit_before. keep. Qed.
Lemma circuit_success_keeps tenant provider : keeps I (circuit_success setup tenant provider).
Proof using D. unfold circuit_success. keep. Qed.
Lemma circuit_failure_keeps tenant provider b : keeps I (circuit_failure outside setup tenant provider b).
Proof using D. unfold circuit_failure. keep. Qed.
Hint Resolve circuit_before_keeps circuit_success_keeps circuit_failure_keeps : discipline.

(** A query of the repository *)
Lemma query_keeps {A} (f : ResearchTables → A) : keeps I (repository (λ t, Ok (f t, t))).
Proof.
  apply triple_transaction; [|intros w; by rewrite same_research].
  intros w a t Hw ?. inv_ok. by rewrite same_research.
Qed.
Hint Resolve query_keeps : discipline.

Lemma save_run_eq tenant w :
  save_run tenant w = match save tenant (run w) (research_db (store w)) with
                      | Ok t => (Ok tt, set_research t w)
                      | Raise e => (Raise e, w)
                      end.
Proof.
  unfold save_run, the_run, gets, mbind, stateful_bind, repository, zoom, transaction.
  unfold result_bind. cbv beta.
  destruct (save tenant (run w) (research_db (store w))); [done|by rewrite same_research].
Qed.
Lemma save_run_keeps tenant : keeps I (save_run tenant).
Proof using D.
  intros w Hw. rewrite save_run_eq.
  destruct (save tenant (run w) (research_db (store w))) as [t|e] eqn:E; [|done].
  by eapply (saves _ _ _ D).
Qed.

Lemma move_keeps target actor reasons payload b : keeps I (move outside target actor reasons payload b).
Proof using D.
  unfold move. apply (triple_bind I _ _ (λ _, I)); [apply time_keeps|]. intros at_ w Hw.
  unfold the_run, gets, lift, modify, mbind, stateful_bind.
  destruct (apply_transition target at_ actor reasons (payload (run w)) b (run w)) as [r|e] eqn:E; [|done].
  by eapply (moves _ _ _ D).
Qed.
Hint Resolve save_run_keeps move_keeps : discipline.

Lemma fail_run_keeps tenant actor reason : keeps I (_fail_run outside tenant actor reason).
Proof using D. unfold _fail_run. keep. Qed.
Lemma record_error_keeps e source : keeps I (_record_error e source).
Proof using D. by apply change_run_keeps. Qed.
Hint Resolve fail_run_keeps record_error_keeps : discipline.
Lemma surrender_keeps tenant actor e : keeps I (surrender outside tenant actor e).
Proof using D. unfold surrender. keep. Qed.
Hint Resolve surrender_keeps : discipline.

Lemma record_egress_keeps tenant d : keeps I (record_egress tenant d).
Proof using D.
  unfold record_egress. apply triple_handle; [|by intros e k [= <-]; apply triple_ret].
  apply (triple_bind I _ _ (λ _, I)); [|intros ?; keep].
  apply triple_modify. intros w. apply (decides _ _ _ D).
Qed.
Lemma run_script_keeps {A} tenant (s : script A) : keeps I (run_script tenant s).
Proof using D.
  induction s as [o|d k IH]; cbn; [keep|].
  apply (triple_bind I _ _ (λ _, I)); [apply record_egress_keeps|intros b; apply IH].
Qed.

(** ** A unit is reserved, then a provider is called *)
Lemma reserve_reserves tenant op source :
  triple I (_reserve outside setup tenant op source) (λ _, J tenant) I.
Proof using D.
  unfold _reserve. apply (triple_bind _ _ _ (λ r w, I w ∧ r = run w)); [by apply triple_gets|].
  intros r. apply (triple_bind _ _ _ (λ _, J tenant)).
  { apply triple_transaction; [|intros w [Hw _]; by rewrite same_research].
    intros w used t [Hw ->]. by apply (reserves _ _ _ D). }
  intros used. unfold _time, now.
  apply (triple_bind _ _ _ (λ _, J tenant)).
  { apply (triple_bind _ _ _ (λ _, J tenant)); [|intros t; by apply triple_ret].
    apply (triple_bind _ _ _ (λ _, J tenant)); [apply question_reserved|intros n; by apply triple_ret]. }
  intros at_.
  apply triple_modify. intros w. by apply (changes_reserved _ _ _ D).
Qed.

Lemma ask_pays {A} tenant op source (provider : nat → orchestration (script A)) :
  (∀ n, triple (J tenant) (provider n) (λ _, J tenant) I) →
  triple (J tenant) (ask outside tenant op source provider) (λ _, I) I.
Proof using D.
  intros Hp. unfold ask. apply triple_handle; [|by intros e k [= <-]; apply triple_ret].
  apply (triple_bind _ _ _ (λ _, J tenant)).
  { unfold _ensure_active. eapply triple_bind; [apply question_reserved|]. intros n.
    apply triple_guard; [done|]. intros w. apply (weakens _ _ _ D). }
  intros ?. eapply triple_bind; [apply question_reserved|]. intros n.
  eapply triple_bind; [apply Hp|]. intros s.
  apply (triple_bind _ _ _ (λ _, I)).
  { intros w Hw. by apply (pays _ _ _ D). }
  intros ?. apply run_script_keeps.
Qed.

(** Reserve, call the provider, and go on with its answer. *)
Lemma reserve_and_ask {A B} tenant op source (refuse : orchestration bool) (stop : B)
    (provider : nat → orchestration (script A)) (continue : outcome_of A → orchestration B) :
  keeps I refuse → (∀ s b s', refuse s = (Ok b, s') → b = false) →
  (∀ n, triple (J tenant) (provider n) (λ _, J tenant) I) → (∀ o, keeps I (continue o)) →
  keeps I (go ← handle (_ ← _ensure_active outside; _ ← _reserve outside setup tenant op source; mret true)
                  (if_budget_exceeded refuse);
           if negb go then mret stop else
           answer ← ask outside tenant op source provider;
           _ ← _ensure_active outside;
           continue answer).
Proof using D.
  intros Hr Hrf Hp Hc.
  apply (triple_bind _ _ _ (λ go w, if go : bool then J tenant w else I w)).
  - apply triple_handle.
    + apply (triple_bind I _ _ (λ _, I)); [keep|]. intros ?.
      eapply triple_bind; [apply reserve_reserves|]. intros ?. by apply triple_ret.
    + unfold if_budget_exceeded. intros e k Hk. case_match; [|done]. injection Hk as <-.
      intros w Hw. specialize (Hr w Hw). destruct (refuse w) as [[b|e'] w'] eqn:E; [|done].
      by rewrite (Hrf _ _ _ E).
  - intros [|]; cbn [negb]; [|by apply triple_ret].
    eapply triple_bind; [by apply ask_pays|]. intros o. keep.
Qed.
(** ** The search *)
Hint Extern 1 (inert _) => (intros ?; split_and!; reflexivity) : discipline.

Lemma last_attempt_inert status reason : inert (with_last_attempt status reason).
Proof. intros r. unfold with_last_attempt. by case_match. Qed.
Lemma add_candidate_inert g : inert (λ r, add_candidate (g r) r).
Proof. intros r. unfold add_candidate. by case_match. Qed.
Lemma mark_conflicting_inert : inert mark_conflicting_evidence.
Proof. intros r. unfold mark_conflicting_evidence. by case_match. Qed.
Hint Resolve last_attempt_inert add_candidate_inert mark_conflicting_inert : discipline.

Lemma succeed_attempt_keeps : keeps I _succeed_attempt.
Proof using D. unfold _succeed_attempt. keep. Qed.
Lemma fail_attempt_keeps e : keeps I (_fail_attempt e).
Proof using D. unfold _fail_attempt. keep. Qed.
Lemma add_source_keeps s : keeps I (add_source s).
Proof using D. by apply change_run_keeps. Qed.
Hint Resolve succeed_attempt_keeps fail_attempt_keeps add_source_keeps : discipline.

Lemma discover_results_keeps p response seen l : keeps I (discover_results outside p response seen l).
Proof using D.
  revert seen. induction l as [|res l IH]; intros seen; cbn [discover_results]; [keep|].
  apply (triple_bind I _ _ (λ _, I)); [keep|intros n].
  apply (triple_bind I _ _ (λ _, I)); [keep|intros r].
  destruct (validate_url p (resolve_at outside n) (res_url res)) as [safe|e].
  - destruct (str_in (safe_url safe) seen); [apply IH|].
    apply (triple_bind I _ _ (λ _, I)); [keep|intros ?; apply IH].
  - destruct (bool_decide _); [|keep].
    apply (triple_bind I _ _ (λ _, I)); [keep|intros ?; apply IH].
Qed.
Hint Resolve discover_results_keeps : discipline.
Lemma store_discovery_keeps response : keeps I (_store_discovery outside response).
Proof using D. unfold _store_discovery. keep. Qed.
Hint Resolve store_discovery_keeps : discipline.

Lemma surrender_false tenant actor e s b s' : surrender outside tenant actor e s = (Ok b, s') → b = false.
Proof.
  unfold surrender. rewrite stateful_bind_Ok. intros (? & s1 & _ & E). revert E.
  rewrite stateful_bind_Ok. by intros (? & s2 & _ & [= <- _]).
Qed.

Lemma unless_open_keeps (m n : orchestration bool) :
  keeps I m → keeps I n → keeps I (handle m (unless_open n)).
Proof.
  intros Hm Hn. apply triple_handle; [done|]. unfold unless_open. intros e k Hk.
  case_match; by simplify_eq.
Qed.

Lemma discover_keeps tenant actor : keeps I (_discover outside setup tenant actor).
Proof using D.
  unfold _discover. apply (triple_bind I _ _ (λ _, I)); [keep|intros ?].
  apply (triple_bind I _ _ (λ _, I)); [keep|intros r]. destruct (negb _); [keep|].
  apply (triple_bind I _ _ (λ _, I)); [apply unless_open_keeps; keep|intros go].
  destruct (negb go); [keep|].
  apply reserve_and_ask; [keep|apply surrender_false| |intros o; keep].
  intros n. apply (triple_bind _ _ _ (λ _, J tenant)); [apply the_run_keeps|intros r'].
  by apply triple_ret.
Qed.

Lemma start_extraction_keeps tenant actor b : keeps I (_start_extraction outside tenant actor b).
Proof using D. unfold _start_extraction. keep. Qed.
Hint Resolve discover_keeps start_extraction_keeps : discipline.

(** ** The extraction *)
Lemma change_source_keeps i f : keeps I (change_source i f).
Proof using D. by apply change_run_keeps. Qed.
Hint Resolve change_source_keeps : discipline.
Lemma mark_citation_keeps i reason : keeps I (_mark_citation_only i reason).
Proof using D. apply change_source_keeps. Qed.
Hint Resolve mark_citation_keeps : discipline.
Lemma cite_keeps i s e : keeps I (cite i s e).
Proof using D. unfold cite. keep. Qed.
Hint Resolve cite_keeps : discipline.
Lemma receive_keeps tenant p i s answer : keeps I (receive outside setup tenant p i s answer).
Proof using D. unfold receive. keep. Qed.
Lemma cached_snapshot_keeps tenant s : keeps I (cached_snapshot outside tenant s).
Proof using D. unfold cached_snapshot. keep. Qed.
Hint Resolve receive_keeps cached_snapshot_keeps : discipline.

Lemma refusal_keeps i s e : keeps I (_ ← cite i s e; mret false : orchestration bool).
Proof using D. keep. Qed.
Lemma refusal_false i s e w b w' :
  (_ ← cite i s e; mret false : orchestration bool) w = (Ok b, w') → b = false.
Proof. rewrite stateful_bind_Ok. by intros (? & w1 & _ & [= <- _]). Qed.

Lemma obtain_snapshot_keeps tenant actor p i s : keeps I (_obtain_snapshot outside setup tenant actor p i s).
Proof using D.
  unfold _obtain_snapshot. do 2 (apply (triple_bind I _ _ (λ _, I)); [keep|intros ?]).
  apply (triple_bind I _ _ (λ _, I)); [keep|intros cached]. destruct cached; [keep|].
  apply (triple_bind I _ _ (λ _, I)); [keep|intros r]. destruct (negb _); [keep|].
  apply (triple_bind I _ _ (λ _, I)).
  { apply unless_open_keeps; [keep|apply refusal_keeps]. }
  intros go. destruct (negb go); [keep|].
  apply reserve_and_ask; [apply refusal_keeps|apply refusal_false| |intros o; keep].
  intros n. apply (triple_bind _ _ _ (λ _, J tenant)); [apply the_run_keeps|intros r'].
  by apply triple_ret.
Qed.
Hint Resolve obtain_snapshot_keeps : discipline.

Lemma extract_source_keeps tenant actor p x : keeps I (extract_source outside setup tenant actor p x).
Proof using D. destruct x as [i s]. unfold extract_source. keep. Qed.

(** ** The end of a run *)
Lemma hand_over_keeps tenant l : Forall conservative l → keeps I (hand_over tenant l).
Proof using D.
  intros Hl. unfold hand_over. apply (triple_bind I _ _ (λ _, I)); [keep|intros r].
  apply (triple_bind I _ _ (λ _, I)); [|intros d; keep].
  apply triple_transaction; [|intros w; by rewrite same_store].
  intros w d s Hw E. by eapply (hands _ _ _ D).
Qed.

Lemma in_coroutine_Ok {A} (m : result A) a : in_coroutine m = Ok a → m = Ok a.
Proof. unfold in_coroutine. repeat case_match; intros; by simplify_eq. Qed.

Lemma compile_and_finish_keeps tenant actor : keeps I (compile_and_finish outside tenant actor).
Proof using D.
  unfold compile_and_finish, finish. do 2 (apply (triple_bind I _ _ (λ _, I)); [keep|intros ?]).
  apply (triple_bind I _ _ (λ _, I)); [keep|intros r].
  apply (triple_bind I _ _ (λ l w, I w ∧ Forall conservative l)).
  { apply triple_lift; [|done]. intros l w Hl%in_coroutine_Ok%compile_run_conservative Hw. done. }
  intros l w [Hw Hl]. revert w Hw.
  match goal with |- ∀ w, I w → match ?m w with _ => _ end => change (keeps I m) end.
  apply (triple_bind I _ _ (λ _, I)); [|intros failed; keep].
  destruct l as [|e l]; [keep|]. apply (triple_bind I _ _ (λ _, I)); [keep|intros ?].
  apply triple_handle.
  - apply (triple_bind I _ _ (λ _, I)); [by apply hand_over_keeps|intros ?; keep].
  - intros x k Hk. destruct (is_value_error _); [|done]. injection Hk as <-. keep.
Qed.
Hint Resolve extract_source_keeps compile_and_finish_keeps : discipline.

Lemma extract_and_finalize_keeps tenant actor b : keeps I (_extract_and_finalize outside setup tenant actor b).
Proof using D.
  unfold _extract_and_finalize, finish. do 2 (apply (triple_bind I _ _ (λ _, I)); [keep|intros ?]).
  apply (triple_bind I _ _ (λ _, I)); [keep|intros p].
  apply (triple_bind I _ _ (λ _, I)); [keep|intros ?].
  apply (triple_bind I _ _ (λ _, I)); [|intros ?; keep].
  apply triple_for_each. intros x _. apply extract_source_keeps.
Qed.
Hint Resolve extract_and_finalize_keeps : discipline.

(** ** The operations *)
Lemma search_and_extract_keeps tenant actor : keeps I (search_and_extract outside setup tenant actor).
Proof using D. unfold search_and_extract. keep. Qed.
Hint Resolve search_and_extract_keeps : discipline.

(** A run has just been read. *)
Definition loaded (r : ResearchRun) (w : World) : Prop := I w ∧ Pr w r.

Lemma set_run_keeps r : triple (loaded r) (modify (set_run r)) (λ _, I) I.
Proof using D. apply triple_modify. intros w [Hw Hr]. by apply (holds _ _ _ D). Qed.

Lemma question_loaded r : triple (loaded r) question (λ _, loaded r) I.
Proof using D.
  intros w [Hw Hr]. split; [by apply (asks _ _ _ D)|by apply (waits _ _ _ D)].
Qed.

Lemma prepare_keeps tenant actor r expected correlation refresh :
  triple I (prepare outside setup tenant actor r expected correlation refresh) loaded I.
Proof using D.
  unfold prepare.
  apply (triple_bind I _ _ (λ r w, I w ∧ (run_events r = [] ∧ run_status r = CREATED))).
  - unfold propose. do 2 (apply (triple_bind I _ _ (λ _, I)); [keep|intros ?]).
    do 2 (apply (triple_bind I _ _ (λ _, I)); [keep|intros ?]).
    by apply triple_ret.
  - intros proposed. apply triple_transaction; [|intros w [Hw _]; by rewrite same_research].
    intros w r' t [Hw [He Hs]] E. by apply (creates _ _ _ D tenant w proposed r' t).
Qed.

Lemma orchestrate_keeps tenant actor r expected correlation refresh :
  keeps I (execute outside setup tenant actor r expected correlation refresh).
Proof using D.
  unfold execute. apply (triple_bind I _ _ (λ _, I)); [keep|intros ?].
  eapply triple_bind; [apply prepare_keeps|]. intros p.
  apply (triple_bind _ _ _ (λ _, I)); [apply set_run_keeps|intros ?]. keep.
Qed.

Lemma required_keeps tenant id : triple I (_required tenant id) loaded I.
Proof using D.
  unfold _required.
  apply (triple_bind I _ _ (λ o w, I w ∧ ∀ r, o = Some r → Pr w r)).
  - apply triple_transaction; [|intros w; by rewrite same_research].
    intros w o t Hw ?. inv_ok. rewrite same_research. split; [done|]. intros r Hr.
    by eapply (loads _ _ _ D).
  - intros o. apply triple_lift; [|by intros w []]. intros r w Hr [Hw Ho]. inv_ok. by split; auto.
Qed.

Lemma retry_window_loaded r r' : triple (loaded r) (_enforce_retry_window outside r') (λ _, loaded r) I.
Proof using D.
  unfold _enforce_retry_window.
  assert (∀ {A} (m : result A), triple (loaded r) (lift m) (λ _, loaded r) I) as Hlift.
  { intros A m. by apply triple_lift; [|intros w []]. }
  eapply triple_bind; [apply Hlift|]. intros [at_|]; [|by apply triple_ret].
  apply (triple_bind _ _ _ (λ _, loaded r)).
  { unfold now. eapply triple_bind; [apply question_loaded|]. intros n. by apply triple_ret. }
  intros t. eapply triple_bind; [apply Hlift|]. intros m. apply Hlift.
Qed.

Lemma validate_retry_keeps tenant id : triple I (validate_retry outside tenant id) loaded I.
Proof using D.
  unfold validate_retry. eapply triple_bind; [apply required_keeps|]. intros r.
  apply (triple_bind _ _ _ (λ _, loaded r)); [by apply triple_guard; [|intros w []]|intros ?].
  apply (triple_bind _ _ _ (λ _, loaded r)); [apply retry_window_loaded|intros ?].
  by apply triple_ret.
Qed.

Lemma retry_keeps tenant actor id correlation : keeps I (retry outside setup tenant actor id correlation).
Proof using D.
  unfold retry. apply (triple_bind I _ _ (λ _, I)); [keep|intros ?].
  eapply triple_bind; [apply validate_retry_keeps|]. intros r.
  apply (triple_bind _ _ _ (λ _, I)).
  { apply triple_modify. intros w [Hw Hr]. apply (holds _ _ _ D); [done|]. by apply (renames _ _ _ D). }
  intros ?. keep.
Qed.

Lemma cancel_keeps tenant actor id correlation : keeps I (cancel outside tenant actor id correlation).
Proof using D.
  unfold cancel. eapply triple_bind; [apply required_keeps|]. intros r.
  apply (triple_bind _ _ _ (λ _, I)); [apply set_run_keeps|intros ?]. keep.
Qed.

Lemma handoff_keeps tenant actor id correlation : keeps I (handoff tenant actor id correlation).
Proof using D.
  unfold handoff. eapply triple_bind; [apply required_keeps|]. intros r.
  apply (triple_bind _ _ _ (λ _, I)); [apply set_run_keeps|intros ?]. destruct (bool_decide _); [keep|].
  apply (triple_bind I _ _ (λ _, I)); [keep|intros ?].
  apply (triple_bind I _ _ (λ l w, I w ∧ Forall conservative l)).
  { apply triple_lift; [|done]. by intros l w Hl%compile_run_conservative Hw. }
  intros l w [Hw Hl]. revert w Hw.
  match goal with |- ∀ w, I w → match ?m w with _ => _ end => change (keeps I m) end.
  do 2 (apply (triple_bind I _ _ (λ _, I)); [keep|intros ?]).
  apply (triple_bind I _ _ (λ _, I)); [by apply hand_over_keeps|intros ?]. keep.
Qed.
End discipline.

