(* ===== verification/OrchestratorProps.v ===== *)
(** * What research guarantees

    For every sequence of research operations, whatever the providers, the clock and the
    cancellations do and wherever an operation is interrupted: the ledgers of the runs only
    grow and follow the lifecycle, the budget bounds the calls to the providers, and the
    decisions gain nothing but evidence that asks for a review. *)

From S2P Require Import Prelude PyVal Json JsonLoads Sha256 PyTime AuditChain Document DecisionFile Samples DecisionStore Research ResearchEvidence ResearchStore ResearchProps Handoff CircuitBreaker UrlPolicy Orchestrator ResearchSamples OrchestratorFacts.
From stdpp Require Import options.

(** ** Ledgers that only grow *)

Definition extends (r r' : ResearchRun) : Prop := ∃ es,
  run_events r' = run_events r ++ es ∧ ledger_path (run_status r) es (run_status r').

Lemma ledger_path_app s l t m u : ledger_path s l t → ledger_path t m u → ledger_path s (l ++ m) u.
Proof.
  intros Hl Hm. induction Hm as [|s' t' u l' e Hm IH He]; [by rewrite app_nil_r|].
  rewrite app_assoc. econstructor; [by apply IH|done].
Qed.

#[export] Instance extends_preorder : PreOrder extends.
Proof.
  split.
  - intros r. exists []. rewrite app_nil_r. split; [done|constructor].
  - intros x y z (es & E1 & P1) (fs & E2 & P2). exists (es ++ fs). split.
    + by rewrite E2, E1, app_assoc.
    + by eapply ledger_path_app.
Qed.

Lemma run_extends_same r r' : run_events r' = run_events r → run_status r' = run_status r → extends r r'.
Proof. intros E1 E2. exists []. rewrite app_nil_r, E2. split; [done|constructor]. Qed.

Lemma ledger_path_one s e u : event_step s e u → ledger_path s [e] u.
Proof. intros He. change [e] with ([] ++ [e]). econstructor; [constructor|done]. Qed.

(** The statuses no transition leaves. *)
Definition terminal (s : ResearchStatus) : Prop := s = COMPLETED ∨ s = CANCELLED.

Lemma terminal_path s l u : ledger_path s l u → terminal s → u = s.
Proof.
  intros Hl Hs. induction Hl as [|s t u l e Hl IH He]; [done|].
  specialize (IH Hs). subst t. inversion He as [? b ? Ht|]; subst; [|done].
  exfalso. destruct Hs as [E|E]; rewrite E in Ht; by destruct (re_to e), b.
Qed.

Definition key_of (r : ResearchRun) : run_key := (run_tenant r, research_run_id r).

(** Rows under the key of their run, one per key. *)
Record keyed (t : ResearchTables) : Prop := mkKeyed {
  keys_distinct : NoDup (research_runs t).*1;
  keys_match : Forall (λ x, x.1 = key_of (run_json x.2)) (research_runs t)
}.

Section rows.
Implicit Types (l : list (run_key * RunRow)) (k : run_key).

Lemma find_fst_update k r l :
  (update_run k r l).*1 = l.*1.
Proof. unfold update_run. rewrite <-list_fmap_compose. apply list_fmap_ext. intros i x _. cbn. by case_bool_decide. Qed.

Lemma find_run_find t k row :
  find_run t k = Some row ↔ List.find (λ r, bool_decide (r.1 = k)) (research_runs t) = Some (k, row).
Proof.
  unfold find_run. split.
  - intros (x & Hx & ->)%fmap_Some. pose proof Hx as [_ Hk%bool_decide_eq_true]%List.find_some.
    subst. by destruct x.
  - by intros ->.
Qed.

Lemma find_run_update t k r k' :
  find_run (set_runs (update_run k r (research_runs t)) t) k' =
    (λ row, if bool_decide (k' = k) then mkRunRow (row_decision row) (row_fingerprint row) r else row) <$>
      find_run t k'.
Proof.
  unfold find_run, update_run. cbn [research_runs set_runs]. induction (research_runs t) as [|[k2 row] l IH]; [done|].
  cbn. repeat case_bool_decide; cbn; repeat case_bool_decide; cbn; simplify_eq; try done.
Qed.

Lemma find_run_snoc t k row k' :
  find_run (set_runs (research_runs t ++ [(k, row)]) t) k' =
    match find_run t k' with Some x => Some x | None => if bool_decide (k = k') then Some row else None end.
Proof.
  unfold find_run. cbn [research_runs set_runs]. induction (research_runs t) as [|[k2 x] l IH]; cbn.
  - by case_bool_decide.
  - destruct (bool_decide (k2 = k')); [done|apply IH].
Qed.

Lemma find_run_runs t t' k : research_runs t' = research_runs t → find_run t' k = find_run t k.
Proof. unfold find_run. by intros ->. Qed.

Lemma elem_find_run t k row : keyed t → (k, row) ∈ research_runs t → find_run t k = Some row.
Proof.
  intros [Hnd _] Hin. unfold find_run. induction (research_runs t) as [|[k2 x] l IH]; [set_solver|].
  cbn in *. apply NoDup_cons in Hnd as [Hn Hnd]. case_bool_decide as E.
  - subst. apply elem_of_cons in Hin as [[= ->]|Hin]; [done|].
    destruct Hn. apply list_elem_of_fmap. by exists (k, row).
  - apply elem_of_cons in Hin as [Hin|Hin]; [congruence|]. by apply IH.
Qed.

Lemma find_run_key t k row : keyed t → find_run t k = Some row → k = key_of (run_json row).
Proof.
  intros [_ Hm] Hf%find_run_elem. rewrite Forall_forall in Hm. exact (Hm _ Hf).
Qed.
End rows.

Section ledgers.
Context `{HashAlg} `{ContractValidator} `{CaseFolding} `{UrlLibrary} `{Normalizer} `{Naming} `{FloatText}.

(** The run in the orchestrator's hands is at least as far as its row. *)
Definition ahead (t : ResearchTables) (r : ResearchRun) : Prop :=
  run_ok r ∧ ∀ row, find_run t (key_of r) = Some row → extends (run_json row) r.

Record consistent (w : World) : Prop := mkConsistent {
  rows_keyed : keyed (research_db (store w));
  rows_ok : all_runs run_ok (research_db (store w));
  run_ahead : ahead (research_db (store w)) (run w)
}.

(** No row disappears, and the ledger of each only grows. *)
Definition grown (t t' : ResearchTables) : Prop := ∀ k row, find_run t k = Some row →
  ∃ row', find_run t' k = Some row' ∧ extends (run_json row) (run_json row').

#[export] Instance grown_preorder : PreOrder grown.
Proof.
  split; [intros t k row ?; by exists row|].
  intros x y z Hxy Hyz k row (row' & E & He)%Hxy. apply Hyz in E as (row2 & E2 & He2).
  exists row2. split; [done|by etrans].
Qed.

Lemma grown_runs t t' : research_runs t' = research_runs t → grown t t'.
Proof. intros E k row Hr. exists row. rewrite (find_run_runs _ _ _ E). by split. Qed.

Lemma keyed_runs t t' : research_runs t' = research_runs t → keyed t → keyed t'.
Proof. intros E [Hd Hm]. split; by rewrite E. Qed.

Lemma ahead_later t t' r : research_runs t' = research_runs t → ahead t r → ahead t' r.
Proof. intros E [Hok Ha]. split; [done|]. intros row Hr. apply Ha. by rewrite <-(find_run_runs _ _ _ E). Qed.

Lemma ahead_step t r r' :
  key_of r' = key_of r → run_ok r' → extends r r' → ahead t r → ahead t r'.
Proof.
  intros Ek Hok He [_ Ha]. split; [done|]. rewrite Ek. intros row Hr. etrans; [by apply Ha|done].
Qed.

Lemma save_step tenant r t t' :
  keyed t → all_runs run_ok t → ahead t r → save tenant r t = Ok t' →
  keyed t' ∧ all_runs run_ok t' ∧ ahead t' r ∧ grown t t'.
Proof.
  intros Hk Hall [Hok Ha] Hs. pose proof (save_all _ _ _ _ _ Hall Hok Hs) as Hall'.
  apply save_inv in Hs as (-> & _ & [E _ _ _]). cbn [research_runs set_runs] in E.
  assert (∀ k, find_run t' k = find_run (set_runs (update_run (key_of r) r (research_runs t)) t) k) as Hf.
  { intros k. by apply find_run_runs. }
  split_and!; [|done| |].
  - destruct Hk as [Hnd Hm]. split; rewrite E; [by rewrite find_fst_update|].
    unfold update_run. rewrite Forall_fmap. apply (Forall_impl _ _ _ Hm). intros x Hx. cbn.
    by case_bool_decide.
  - split; [done|]. intros row. rewrite Hf, find_run_update, bool_decide_true by done.
    intros (x & _ & ->)%fmap_Some. done.
  - intros k row Hr. rewrite Hf, find_run_update, Hr. cbn. case_bool_decide as Ek; eexists; (split; [done|]); cbn.
    + apply Ha. by rewrite <-Ek.
    + done.
Qed.

Lemma create_step tenant r t r' t' :
  keyed t → all_runs run_ok t → run_events r = [] → run_status r = CREATED →
  create_or_get tenant r t = Ok (r', t') →
  keyed t' ∧ all_runs run_ok t' ∧ ahead t' r' ∧ grown t t'.
Proof.
  intros Hk Hall He Hs. unfold create_or_get, _assert_tenant.
  intros (? & Htn%require_Ok%String.eqb_eq & Hc)%bind_Ok.
  destruct (prior_run tenant r t) as [p|] eqn:E; [injection Hc as -> <-|].
  - split_and!; [done..| |done]. split; [by eapply prior_run_all|].
    assert (∃ k row, (k, row) ∈ research_runs t ∧ run_json row = r') as (k & row & Hin & <-).
    { unfold prior_run in E. destruct (List.find (fingerprint_match tenant r) (research_runs t)) as [y|] eqn:Ef.
      - injection E as <-. apply List.find_some in Ef as [Hin%list_elem_of_In _].
        destruct y. by do 2 eexists.
      - apply fmap_Some in E as (y & [Hin%list_elem_of_In _]%List.find_some & ->).
        destruct y. by do 2 eexists. }
    pose proof (elem_find_run _ _ _ Hk Hin) as Hf. pose proof (find_run_key _ _ _ Hk Hf) as ->.
    intros row' Hr. rewrite Hf in Hr. by injection Hr as <-.
  - apply bind_Ok in Hc as (? & Hnone%require_Ok%bool_decide_eq_true & Hc).
    apply bind_Ok in Hc as (? & _ & Hc). injection Hc as <- <-.
    set (k := (tenant, research_run_id r)) in *.
    assert (key_of r = k) as Ekey by (unfold key_of, k; by subst).
    set (row := mkRunRow _ _ _).
    assert (∀ t2, research_runs t2 = research_runs t ++ [(k, row)] →
      ∀ k', find_run t2 k' = match find_run t k' with Some x => Some x
                             | None => if bool_decide (k = k') then Some row else None end) as Hf.
    { intros t2 E2 k'. rewrite <-find_run_snoc. by apply find_run_runs. }
    split_and!.
    + destruct Hk as [Hnd Hm]. split; cbn.
      * rewrite fmap_app. cbn. apply NoDup_app. split_and!; [done| |repeat constructor; set_solver].
        intros k' Hk' ->%list_elem_of_singleton. apply list_elem_of_fmap in Hk' as ([k2 y] & -> & Hin).
        cbn in Hnone. assert (find_run t k2 = Some y) as Hx by (by apply elem_find_run; [split|]).
        congruence.
      * apply Forall_app. split; [done|]. by constructor.
    + apply Forall_app. split; [done|]. constructor; [|done]. by apply run_ok_fresh.
    + split; [by apply run_ok_fresh|]. intros row'. rewrite Hf, Ekey, Hnone, bool_decide_true by done.
      by intros [= <-].
    + intros k1 y Hx. exists y. rewrite Hf, Hx by done. by split.
Qed.

Lemma create_rows tenant r t r' t' k row :
  create_or_get tenant r t = Ok (r', t') → find_run t' k = Some row →
  find_run t k = Some row ∨ run_json row = r.
Proof.
  unfold create_or_get, _assert_tenant. intros (? & _ & Hc)%bind_Ok Hr.
  destruct (prior_run tenant r t) as [p|] eqn:E; [injection Hc as _ <-; by left|].
  apply bind_Ok in Hc as (? & _ & Hc). apply bind_Ok in Hc as (? & _ & Hc). injection Hc as _ <-.
  change (find_run (set_runs (research_runs t ++ [((tenant, research_run_id r),
    mkRunRow (decision_file_id (request r)) (semantic_fingerprint r) r)]) t) k = Some row) in Hr.
  rewrite find_run_snoc in Hr. destruct (find_run t k) as [y|]; [by left|].
  case_bool_decide; [|done]. injection Hr as <-. by right.
Qed.

Lemma extends_fresh r r' :
  run_events r = [] → run_status r = CREATED → run_ok r' → extends r r'.
Proof. intros E1 E2 [_ Hf]. exists (run_events r'). by rewrite E1, E2. Qed.

Lemma attach_runs tenant id expected l s d s' :
  attach tenant id expected l s = Ok (d, s') →
  research_runs (research_db s') = research_runs (research_db s).
Proof. unfold attach. destruct l; [done|]. intros ?. inv_ok. case_bool_decide; inv_ok; done. Qed.

Definition growing (w0 w : World) : Prop :=
  consistent w ∧ grown (research_db (store w0)) (research_db (store w)).

Lemma ahead_inert t f r : inert f → ahead t r → ahead t (f r).
Proof.
  intros Hf Ha. destruct (Hf r) as (E1 & E2 & E3 & E4).
  apply (ahead_step t r); [by unfold key_of; rewrite E1, E2|by apply (run_ok_same r); [..|apply Ha]
                          |by apply run_extends_same|done].
Qed.

Lemma growing_tables w0 w t r :
  growing w0 w → research_runs t = research_runs (research_db (store w)) → ahead t r →
  growing w0 (set_run r (set_research t w)).
Proof.
  intros [[Hk Hall _] Hg] E Ha. split.
  - split; cbn; [by eapply keyed_runs|by unfold all_runs; rewrite E|done].
  - cbn. etrans; [done|by apply grown_runs].
Qed.

Lemma growing_same w0 w w' : growing w0 w → store w' = store w → run w' = run w → growing w0 w'.
Proof. intros [[? ? ?] ?] E1 E2. split; [split|]; by rewrite ?E1, ?E2. Qed.

Lemma ledger_discipline setup w0 :
  discipline setup (growing w0) (λ _, growing w0) (λ w, ahead (research_db (store w))).
Proof.
  assert (∀ w r, growing w0 w → ahead (research_db (store w)) r → growing w0 (set_run r w)) as Hset.
  { intros w r [[Hk Hall _] Hg] Ha. by split. }
  assert (∀ w, growing w0 w → ahead (research_db (store w)) (run w)) as Hahead by by intros w [[] _].
  split; try done.
  - intros w Hw. by apply (growing_same _ w).
  - intros _ w Hw. by apply (growing_same _ w).
  - intros w c Hw. by apply (growing_same _ w).
  - intros f w Hf Hw. apply Hset; [done|]. apply ahead_inert; auto.
  - intros _ f w Hf Hw. apply Hset; [done|]. apply ahead_inert; auto.
  - intros target at_ actor reasons payload b w r Hw Hm. apply Hset; [done|].
    pose proof (Hahead w Hw) as Ha. pose proof (apply_transition_ok _ _ _ _ _ _ _ _ (proj1 Ha) Hm) as Hok.
    apply apply_transition_inv in Hm as [Ht ->].
    apply (ahead_step _ (run w)); [done|done| |done]. eexists. split; [done|].
    apply ledger_path_one. by eapply (step_transition (transition_audit _ _ _ _ _ _)).
  - intros d w Hw. apply Hset; [done|]. pose proof (Hahead w Hw) as Ha.
    apply (ahead_step _ (run w)); [done|apply append_egress_ok, Ha| |done]. eexists. split; [done|].
    apply ledger_path_one. by apply (step_egress (egress_audit (run w) d)).
  - intros tenant w t [[Hk Hall Ha] Hg] Hs.
    destruct (save_step _ _ _ _ Hk Hall Ha Hs) as (? & ? & ? & ?). split; [by split|by etrans].
  - intros tenant w used t Hw Hr. unfold reserve_budget in Hr. inv_ok.
    apply (growing_tables w0 w _ (run w) Hw); [done|]. by apply (ahead_later (research_db (store w))); [|auto].
  - intros tenant op source w Hw. by apply (growing_same _ w).
  - intros w tenant id r [[Hk Hall _] _] Hr. unfold get_run in Hr.
    apply fmap_Some in Hr as (row & Hr & ->). split.
    + eapply (get_run_all run_ok); [done|]. unfold get_run. by rewrite Hr.
    + intros row' Hr'. rewrite <-(find_run_key _ _ _ Hk Hr), Hr in Hr'. by injection Hr' as <-.
  - intros w r actor correlation. by apply (ahead_inert _ (run_set_actor actor correlation)).
  - intros tenant w r r' t [[Hk Hall Ha] Hg] He Hs Hc.
    destruct (create_step _ _ _ _ _ Hk Hall He Hs Hc) as (Hk' & Hall' & Ha' & Hg').
    split; [|done]. split; [|by etrans]. split; [done|done|]. cbn.
    split; [apply Ha|]. intros row Hr. destruct (create_rows _ _ _ _ _ _ _ Hc Hr) as [Hr'| ->].
    + by apply Ha.
    + by apply extends_fresh; [..|apply Ha].
  - intros tenant id expected l w d s [[Hk Hall Ha] Hg] _ Hs.
    pose proof (attach_runs _ _ _ _ _ _ _ Hs) as E. split; [|by etrans; [|by apply grown_runs]].
    split; cbn; [by eapply keyed_runs|by unfold all_runs; rewrite E|by eapply ahead_later].
Qed.
End ledgers.

(** ** The budget *)

Section budget.
Context `{HashAlg} `{ContractValidator} `{CaseFolding} `{UrlLibrary} `{Normalizer} `{Naming} `{FloatText}.
Context (setup : Setup).

Definition calls_of (w : World) (k : run_key) : Z := Z.of_nat (length (filter (λ c, c.1.1 = k) (calls w))).
Definition used (t : ResearchTables) (k : run_key) : Z := default 0%Z (budget_usage t !! k).

Definition within_budget (w : World) : Prop := ∀ k,
  (calls_of w k <= used (research_db (store w)) k <= provider_budget (policy setup))%Z.
(** A unit is reserved that no call has used yet. *)
Definition reserved_call (tenant : string) (w : World) : Prop :=
  within_budget w ∧
  (calls_of w (tenant, research_run_id (run w)) + 1 ≤
     used (research_db (store w)) (tenant, research_run_id (run w)))%Z.

Lemma within_same w w' :
  within_budget w → budget_usage (research_db (store w')) = budget_usage (research_db (store w)) →
  calls w' = calls w → within_budget w'.
Proof. intros Hw E1 E2 k. specialize (Hw k). unfold calls_of, used in *. by rewrite E1, E2. Qed.

Lemma create_used tenant r t r' t' k : create_or_get tenant r t = Ok (r', t') → used t' k = used t k.
Proof.
  unfold create_or_get, _assert_tenant. intros (? & _ & Hc)%bind_Ok.
  destruct (prior_run tenant r t) as [p|]; [by injection Hc as _ <-|].
  apply bind_Ok in Hc as (? & _ & Hc). apply bind_Ok in Hc as (? & Hn%require_Ok%bool_decide_eq_true & Hc).
  injection Hc as _ <-. unfold used. cbn.
  destruct (decide ((tenant, research_run_id r) = k)) as [<-|Hk].
  - by rewrite lookup_insert_eq, Hn.
  - by rewrite lookup_insert_ne.
Qed.

Lemma attach_budget tenant id expected l s d s' :
  attach tenant id expected l s = Ok (d, s') →
  budget_usage (research_db s') = budget_usage (research_db s).
Proof. unfold attach. destruct l; [done|]. intros ?. inv_ok. case_bool_decide; inv_ok; done. Qed.

Lemma budget_discipline : discipline setup within_budget reserved_call (λ _ _, True).
Proof using Type*.
  split; try done.
  - by intros tenant w [Hw _].
  - intros tenant f w Hf [Hw Hr]. split; [by apply (within_same w)|].
    destruct (Hf (run w)) as (_ & E & _). unfold calls_of in *. cbn. by rewrite E.
  - intros tenant w t Hw (_ & _ & [_ _ E _])%save_inv. by apply (within_same w).
  - intros tenant w n t Hw Hr. unfold reserve_budget in Hr.
    apply bind_Ok in Hr as (u & Hu%or_raise_Ok & Hr).
    apply bind_Ok in Hr as (? & Hlt%require_Ok%Z.ltb_lt & Hr). injection Hr as _ <-.
    set (k := (tenant, research_run_id (run w))) in *.
    assert (used (research_db (store w)) k = u) as Hk by (unfold used; by rewrite Hu).
    split.
    + intros k'. specialize (Hw k'). unfold used in *. cbn. unfold calls_of in *. cbn.
      destruct (decide (k = k')) as [<-|Hne].
      * rewrite lookup_insert_eq. rewrite Hu in Hw. cbn in *. lia.
      * by rewrite lookup_insert_ne.
    + specialize (Hw k). unfold used in *. cbn. unfold calls_of in *. cbn. fold k.
      rewrite lookup_insert_eq. rewrite Hu in Hw. cbn in *. lia.
  - intros tenant op source w [Hw Hr] k. specialize (Hw k). unfold calls_of in *. cbn.
    rewrite filter_app, length_app, filter_cons, filter_nil.
    case_decide as E; cbn in *; [rewrite <-E in *|]; lia.
  - intros tenant w r r' t Hw _ _ Hc. split; [|done]. intros k. cbn. rewrite (create_used _ _ _ _ _ k Hc).
    apply Hw.
  - intros tenant id expected l w d s Hw _ E%attach_budget. by apply (within_same w).
Qed.
End budget.

(** ** The decisions *)

(** What research may do to a document: attach evidence that asks for a review to a draft. *)
Record only_attached (d d' : Document) : Prop := mkOnlyAttached {
  same_status : status d' = status d;
  same_outcome : decision_outcome d' = decision_outcome d;
  same_approvals : approvals d' = approvals d;
  same_requirements : review_requirements d' = review_requirements d;
  same_action : canonical_action d' = canonical_action d;
  same_claims : claims d' = claims d;
  same_constraints : constraints d' = constraints d;
  same_policies : policies d' = policies d;
  same_conflicts : conflicts d' = conflicts d;
  same_creator : created_by d' = created_by d ∧ requested_by d' = requested_by d;
  more_evidence : ∃ l, evidence d' = evidence d ++ l ∧
    Forall (λ e, evidence_status e ∈ ["UNVERIFIED"; "CONFLICTING"; "OUTDATED"]) l;
  more_events : ∃ l, Document.audit_events d' = Document.audit_events d ++ l ∧
    Forall (λ e, event_type e = "research.evidence-attached") l;
  drafts_only : d' = d ∨ status d = "DRAFT"
}.

#[export] Instance only_attached_preorder : PreOrder only_attached.
Proof.
  split.
  - intros d. split; try done; [exists []|exists []|by left]; by rewrite app_nil_r.
  - intros x y z [] []. split; try congruence.
    + naive_solver congruence.
    + destruct more_evidence0 as (l & E & Hl), more_evidence1 as (m & E' & Hm).
      exists (l ++ m). by rewrite E', E, app_assoc, Forall_app.
    + destruct more_events0 as (l & E & Hl), more_events1 as (m & E' & Hm).
      exists (l ++ m). by rewrite E', E, app_assoc, Forall_app.
    + destruct drafts_only0 as [->|]; [done|by right].
Qed.

(** The decisions of a database, under research. *)
Record research_only (db db' : Database) : Prop := mkResearchOnly {
  documents_extended : ∀ k d, decisions db !! k = Some d → ∃ d', decisions db' !! k = Some d' ∧ only_attached d d';
  nothing_created : ∀ k d', decisions db' !! k = Some d' → is_Some (decisions db !! k);
  same_reports : reports db' = reports db;
  same_idempotency : idempotency db' = idempotency db
}.

#[export] Instance research_only_preorder : PreOrder research_only.
Proof.
  split.
  - intros db. split; try done; intros k d Hd; by exists d.
  - intros x y z [D1 N1 R1 I1] [D2 N2 R2 I2]. split; [| |by rewrite R2|by rewrite I2].
    + intros k d (d1 & E1 & H1)%D1. apply D2 in E1 as (d2 & E2 & H2). exists d2. split; [done|by etrans].
    + intros k d2 (d1 & E1)%N2. by apply N1 in E1.
Qed.

Section decisions.
Context `{HashAlg} `{ContractValidator} `{CaseFolding} `{UrlLibrary} `{Normalizer} `{Naming} `{FloatText}.

Lemma attach_inv tenant id expected l s d s' :
  attach tenant id expected l s = Ok (d, s') →
  (decisions (decision_db s) !! (tenant, id) = Some d ∧ s' = s ∧ ∃ run_id, single_run l = Ok run_id ∧
     is_Some (research_handoffs (research_db s) !! (tenant, run_id, id, handoff_id l))) ∨
  ∃ d0 run_id correlation, decisions (decision_db s) !! (tenant, id) = Some d0 ∧
    status d0 = "DRAFT" ∧ payload_hash (document_json d0) = expected ∧ knows_claims d0 l = true ∧
    single_run l = Ok run_id ∧ single_correlation l = Ok correlation ∧
    d = attached_document tenant id correlation l d0 ∧ check_document d = Ok tt ∧
    decision_db s' = mkDatabase (<[(tenant, id) := d]> (decisions (decision_db s))) (reports (decision_db s))
      (DecisionStore.audit_rows (decision_db s) ++ [((tenant, id), handoff_event tenant id correlation l d0)])
      (idempotency (decision_db s)) ∧
    research_db s' = add_handoff (tenant, run_id, id, handoff_id l) (payload_hash (document_json d)) (research_db s).
Proof.
  unfold attach. destruct l as [|e l]; [done|]. intros (run_id & Hr & E)%bind_Ok.
  apply bind_Ok in E as (correlation & Hcor & E). apply bind_Ok in E as (d0 & Hd%or_raise_Ok & E).
  destruct (bool_decide (is_Some _)) eqn:Eh; [left; injection E as -> ->; split_and!; [done..|];
    exists run_id; split; [done|by apply bool_decide_eq_true in Eh]|right].
  apply bind_Ok in E as (? & Hh%require_Ok%String.eqb_eq & E).
  apply bind_Ok in E as (? & Hs%require_Ok%String.eqb_eq & E).
  apply bind_Ok in E as (? & Hk%require_Ok & E). apply bind_Ok in E as ([] & Hc & E).
  apply bind_Ok in E as (db & Hdb & E). apply bind_Ok in E as (? & _ & E). injection E as <- <-.
  unfold _insert_audit in Hdb. apply bind_Ok in Hdb as (? & _ & Hdb). injection Hdb as <-.
  exists d0, run_id, correlation. by split_and!.
Qed.

Lemma attached_conservative tenant id correlation l d :
  Forall conservative l → status d = "DRAFT" → only_attached d (attached_document tenant id correlation l d).
Proof.
  intros Hl Hs. split; try done; [| |by right].
  - exists (new_items d l). split; [done|]. unfold new_items. rewrite Forall_fmap.
    apply Forall_forall. intros e [_ He]%list_elem_of_filter. rewrite Forall_forall in Hl. exact (Hl e He).
  - eexists. split; [done|]. by constructor.
Qed.

Lemma attach_research_only tenant id expected l s d s' :
  Forall conservative l → attach tenant id expected l s = Ok (d, s') →
  research_only (decision_db s) (decision_db s').
Proof.
  intros Hl [(_ & -> & _)|(d0 & run_id & correlation & Hd & Hs & _ & _ & _ & _ & -> & _ & E & _)]%attach_inv; [done|].
  rewrite E. split; cbn; [| |done..].
  - intros k d Hk. destruct (decide ((tenant, id) = k)) as [<-|Hne].
    + exists (attached_document tenant id correlation l d0). rewrite lookup_insert_eq. split; [done|].
      rewrite Hd in Hk. injection Hk as <-. by apply attached_conservative.
    + exists d. by rewrite lookup_insert_ne.
  - intros k d'. destruct (decide ((tenant, id) = k)) as [<-|Hne]; [by rewrite Hd|by rewrite lookup_insert_ne].
Qed.

Lemma decision_discipline setup db :
  discipline setup (λ w, research_only db (decision_db (store w)))
    (λ _ w, research_only db (decision_db (store w))) (λ _ _, True).
Proof.
  split; try done. intros tenant id expected l w d s Hw Hl Ha. etrans; [done|].
  by eapply attach_research_only.
Qed.
End decisions.

(** ** Every sequence of operations *)

Inductive operation :=
  | Execute (tenant actor : string) (r : ResearchRequest) (expected correlation : string) (refresh : option string)
  | Retry (tenant actor id correlation : string)
  | Cancel (tenant actor id correlation : string)
  | HandOff (tenant actor id correlation : string).

Section reachability.
Context `{HashAlg} `{ContractValidator} `{CaseFolding} `{UrlLibrary} `{Normalizer} `{Naming} `{FloatText}.

Definition perform (outside : Outside) (setup : Setup) (o : operation) : orchestration ResearchRun :=
  match o with
  | Execute tenant actor r expected correlation refresh =>
      execute outside setup tenant actor r expected correlation refresh
  | Retry tenant actor id correlation => retry outside setup tenant actor id correlation
  | Cancel tenant actor id correlation => cancel outside tenant actor id correlation
  | HandOff tenant actor id correlation => handoff tenant actor id correlation
  end.

(** The worlds a store without runs develops into, operation by operation, completed or not,
    while the decisions change in any way. *)
Inductive reachable (setup : Setup) : World → Prop :=
  | reach_start db c n r : run_events r = [] → run_status r = CREATED →
      reachable setup (mkWorld (mkStore db empty_tables) c n r [])
  | reach_operation outside o w : reachable setup w → reachable setup (perform outside setup o w).2
  | reach_decisions db w : reachable setup w →
      reachable setup (set_store (mkStore db (research_db (store w))) w).

Lemma perform_keeps outside setup I J Pr o :
  discipline setup I J Pr → keeps I (perform outside setup o).
Proof.
  intros D. destruct o.
  - by apply (orchestrate_keeps outside setup I J Pr D).
  - by apply (retry_keeps outside setup I J Pr D).
  - by apply (cancel_keeps outside setup I J Pr D).
  - by apply (handoff_keeps setup I J Pr D).
Qed.

Lemma keeps_after {A} I (m : orchestration A) w : keeps I m → I w → I (m w).2.
Proof. intros Hm Hw. specialize (Hm w Hw). by destruct (m w) as [[a|e] w']. Qed.

Lemma perform_after outside setup I J Pr o w :
  discipline setup I J Pr → I w → I (perform outside setup o w).2.
Proof. intros D. apply keeps_after. by eapply perform_keeps. Qed.

Lemma perform_grows outside setup o w : consistent w → growing w (perform outside setup o w).2.
Proof.
  intros Hw. eapply (perform_after outside setup (growing w)); [apply ledger_discipline|]. by split.
Qed.

Lemma reachable_consistent setup w : reachable setup w → consistent w.
Proof.
  induction 1 as [db c n r He Hs|outside o w _ IH|db w _ [Hk Hr Ha]]; [|by apply perform_grows|by split].
  split; cbn; [split; constructor|constructor|]. split; [by apply run_ok_fresh|done].
Qed.

(** C26: the ledger of a research run is complete and only grows: in every store that operations
    have led to, each stored run's events form a hash chain that follows the lifecycle from
    CREATED to the run's status; any further operation, interrupted anywhere, keeps the run and
    extends its ledger by events the lifecycle allows; and a run that is completed or cancelled
    stays so. *)
Theorem ledgers_only_grow setup w outside o k row :
  reachable setup w → find_run (research_db (store w)) k = Some row →
  k = key_of (run_json row) ∧ run_ok (run_json row) ∧
  ∃ row', find_run (research_db (store (perform outside setup o w).2)) k = Some row' ∧
    run_ok (run_json row') ∧ extends (run_json row) (run_json row') ∧
    (terminal (run_status (run_json row)) → run_status (run_json row') = run_status (run_json row)).
Proof.
  intros Hw%reachable_consistent Hk. pose proof Hw as [Hkeyed Hok _].
  assert (∀ t row, all_runs run_ok t → find_run t k = Some row → run_ok (run_json row)) as Hrow.
  { intros t x Ht Hx. apply (get_run_all run_ok t k.1 k.2); [done|]. unfold get_run.
    rewrite <-surjective_pairing. by rewrite Hx. }
  split_and!; [by apply (find_run_key (research_db (store w)))|by eapply Hrow|].
  destruct (perform_grows outside setup o w Hw) as [[_ Hok' _] Hg].
  destruct (Hg k row Hk) as (row' & Hk' & He). exists row'. split_and!; [done|by eapply Hrow|done|].
  intros Ht. destruct He as (es & _ & Hp). by eapply terminal_path.
Qed.

(** C27: the budget of a run bounds its calls to the search and extraction providers: whatever
    fails, is retried or is interrupted, the providers have never been called more often for a
    run than its configured budget, since a unit is durably reserved before each call. *)
Theorem provider_calls_bounded setup w k :
  make_research_policy (policy setup) = Ok (policy setup) → reachable setup w →
  (calls_of w k <= used (research_db (store w)) k <= provider_budget (policy setup))%Z.
Proof.
  intros Hp Hw. unfold make_research_policy in Hp.
  apply bind_Ok in Hp as (? & [Hb%Z.leb_le _]%require_Ok%andb_true_iff & _).
  revert k. induction Hw as [db c n r _ _|outside o w _ IH|db w _ IH].
  - intros k. unfold used, calls_of. cbn. rewrite lookup_empty. cbn. lia.
  - by eapply (perform_after outside setup (within_budget setup)); [apply budget_discipline|].
  - intros k. exact (IH k).
Qed.

(** C28: research never decides: whatever a research operation does to the decisions, it
    creates none, leaves their status, outcome, approvals, claims, policies and reports as they
    are, and changes a document only while it is a draft, by appending evidence that is
    unverified, conflicting or outdated and the events that say so. *)
Theorem research_never_decides outside setup o w :
  research_only (decision_db (store w)) (decision_db (store (perform outside setup o w).2)).
Proof.
  by eapply (perform_after outside setup (λ w', research_only (decision_db (store w)) (decision_db (store w')))
    _ _ o w (decision_discipline setup _)).
Qed.
End reachability.

(** *** At the sample run *)
Section samples.
#[local] Existing Instances ascii_casefold constant_alg accept_all sample_urls sample_naming sample_normalizer sample_floats.

Definition sample_operation : operation :=
  Execute "t1" "ann" sample_request (payload_hash (document_json draft_case)) "corr-1" None.
Definition executed (stop : nat) : World := (perform (sample_outside stop) sample_setup sample_operation sample_world).2.

Lemma executed_reachable stop : reachable sample_setup (executed stop).
Proof. apply reach_operation. by apply reach_start. Qed.
End samples.

Definition sample_run_key : run_key := ("t1", "research-1").

(** A run cancelled during its extraction, and the cancellation that follows. *)
Lemma ledgers_only_grow_witness :
  ∃ row row', find_run (research_db (store (executed 16))) sample_run_key = Some row ∧
    run_status (run_json row) = EXTRACTING ∧ run_status (run_json row') = CANCELLED ∧
    run_ok (H := constant_alg) (run_json row') ∧ extends (run_json row) (run_json row').
Proof.
  destruct (find_run (research_db (store (executed 16))) sample_run_key) as [row|] eqn:E;
    [|vm_compute in E; discriminate E].
  destruct (ledgers_only_grow (H := constant_alg) (H0 := accept_all) (H1 := ascii_casefold)
    (H2 := sample_urls) (H3 := sample_normalizer) (H4 := sample_naming) (H5 := sample_floats) sample_setup (executed 16)
    (sample_outside 1000) (Cancel "t1" "ann" "research-1" "corr-2") sample_run_key row
    (executed_reachable 16) E) as (_ & _ & row' & E' & Hok & He & _).
  exists row, row'. split_and!; [done| | |done|done].
  - vm_compute in E. injection E as <-. reflexivity.
  - vm_compute in E'. injection E' as <-. reflexivity.
Defined.

Lemma provider_calls_bounded_witness :
  make_research_policy (policy sample_setup) = Ok (policy sample_setup) ∧
  calls_of (executed 1000) sample_run_key = 2%Z ∧
  (calls_of (executed 1000) sample_run_key <= 3)%Z.
Proof.
  split_and!; [reflexivity|vm_compute; reflexivity|].
  refine (Z.le_trans _ _ _ (proj1 _) (proj2 (provider_calls_bounded (H := constant_alg) (H0 := accept_all)
    (H1 := ascii_casefold) (H2 := sample_urls) (H3 := sample_normalizer) (H4 := sample_naming) (H5 := sample_floats)
    sample_setup (executed 1000) sample_run_key eq_refl (executed_reachable 1000)))).
  exact (provider_calls_bounded (H := constant_alg) (H0 := accept_all)
    (H1 := ascii_casefold) (H2 := sample_urls) (H3 := sample_normalizer) (H4 := sample_naming) (H5 := sample_floats)
    sample_setup (executed 1000) sample_run_key eq_refl (executed_reachable 1000)).
Defined.
