(* ===== verification/ResearchFrontProps.v ===== *)
(** * Properties of the front ends of research

    What a call of the MCP server leaves under its idempotency key, that a tool stays within the
    authority of the token and never decides, that a submission stores a run with its job or
    nothing, and what a worker makes of a job. *)

From S2P Require Import Prelude PyVal Json JsonLoads Sha256 PyTime PyDecimal AuditChain Identity SecurityEvents Intake I18n Jobs JobProps Document Samples DecisionStore Research ResearchEvidence ResearchStore Handoff CircuitBreaker UrlPolicy Orchestrator ResearchProps ResearchSamples OrchestratorFacts OrchestratorProps ResearchService Mcp ResearchApi.
From stdpp Require Import options.

(** ** Parts of the state *)

(** The answers under the idempotency keys. *)
Definition rows (d : Desk) : gmap research_operation IdempotencyRow :=
  idempotency_rows (research_db (store (world d))).

Lemma zoom_keeps {S T A} (get : T → S) (set : S → T → T) (m : stateful S A) (I : S → Prop) (J : T → Prop) :
  (∀ t, J t → I (get t)) → (∀ s t, J t → I s → J (set s t)) → keeps I m → keeps J (zoom get set m).
Proof.
  intros Hget Hset Hm t Ht. unfold zoom. specialize (Hm (get t) (Hget t Ht)).
  destruct (m (get t)) as [[a|e] s]; by apply Hset.
Qed.

Lemma on_world_keeps {A} (m : orchestration A) (I : World → Prop) :
  keeps I m → keeps (λ d, I (world d)) (on_world m).
Proof. by apply zoom_keeps. Qed.

Lemma on_queue_keeps {A} (f : Jobs.Tables → result (A * Jobs.Tables)) (I : World → Prop) :
  keeps (λ d, I (world d)) (on_queue f).
Proof. apply (zoom_keeps _ _ _ (λ _, True)); [done..|]. intros q _. unfold transaction. by destruct (f q) as [[]|]. Qed.

(** Walk through a body whose calls the database [front] knows. *)
Create HintDb front.
Ltac walk I :=
  repeat (cbv zeta beta; match goal with
  | |- triple _ (mbind _ _) _ _ => apply (triple_bind I _ _ (λ _, I)); [|intros ?]
  | |- triple _ (handle _ _) _ _ => apply (triple_handle I); [|intros ? ? ?]
  | |- triple _ (if ?b then _ else _) _ _ => destruct b
  | |- triple _ (match ?x with _ => _ end) _ _ => destruct x
  | |- triple _ (mret _) _ _ => by apply triple_ret
  | |- triple _ (lift _) _ _ => by apply triple_lift
  | |- triple _ (gets _) _ _ => by apply triple_gets
  | H : Some _ = Some _ |- _ => injection H as <-
  | H : None = Some _ |- _ => discriminate H
  | H : (if ?b then _ else _) = Some _ |- _ => destruct b
  | |- _ => solve [auto with front]
  end).

Section front.
Context `{HashAlg} `{ContractValidator} `{CaseFolding} `{UrlLibrary} `{Normalizer} `{Naming} `{FloatText} `{Timestamptz}.

(** ** Operations of the orchestrator leave the answers alone *)

Lemma answers_discipline setup m :
  discipline setup (λ w, idempotency_rows (research_db (store w)) = m)
    (λ _ w, idempotency_rows (research_db (store w)) = m) (λ _ _, True).
Proof.
  split; try done.
  - intros tenant w t <- (_ & _ & [_ E _ _])%save_inv. cbn in *. by rewrite E.
  - intros tenant w used t <- Hr. unfold reserve_budget in Hr. inv_ok. done.
  - intros tenant w r r' t <- _ _ Hc. split; [|done]. unfold create_or_get in Hc. inv_ok.
    destruct (prior_run _ _ _); inv_ok; done.
  - intros tenant id expected l w d s <- _ [(_ & -> & _)|(d0 & run_id & co & _ & _ & _ & _ & _ & _ & _ & _ & _ & E)]%attach_inv;
      [done|]. cbn. by rewrite E.
Qed.

(** ** The transaction of a submission *)

Lemma submit_both_inv tenant r j t q s t' q' :
  submit_both tenant r j (t, q) = Ok (s, (t', q')) →
  tenant = run_tenant r ∧ (tenant = job_tenant j ∧ job_status j = QUEUED) ∧
  ∃ ins row t1 insj q1 sj, insert_run tenant r t = Ok (ins, t1) ∧
    List.find (fingerprint_match tenant r) (research_runs t1) = Some row ∧
    t' = (if ins : bool then set_budget (<[(tenant, research_run_id (run_json row.2)) := 0%Z]> (budget_usage t1)) t1
          else t1) ∧
    insert_job q (job_for (research_run_id (run_json row.2)) j) = Ok (insj, q1) ∧
    job_of_run q1 tenant (research_run_id (run_json row.2)) = Some sj ∧
    payload_digest sj = payload_digest j ∧
    s = mkSubmitted (run_json row.2) sj (negb ins || negb insj) ∧
    q' = (if insj : bool then Jobs._append_event q1 sj "JOB_QUEUED" (Jobs.updated_at j) None None else q1).
Proof.
  unfold submit_both. intros E.
  apply bind_Ok in E as (_ & [E1%String.eqb_eq E2%String.eqb_eq]%require_Ok%andb_true_iff & E).
  apply bind_Ok in E as (_ & [_ E3%bool_decide_eq_true]%require_Ok%andb_true_iff & E).
  apply bind_Ok in E as ([ins t1] & Hi & E). apply bind_Ok in E as (row & Hr%or_raise_Ok & E).
  apply bind_Ok in E as (t2 & Hb & E). apply bind_Ok in E as ([insj q1] & Hj & E).
  apply bind_Ok in E as (sj & Hs%or_raise_Ok & E). apply bind_Ok in E as (_ & Hp%require_Ok%String.eqb_eq & E).
  injection E as <- <- <-. split_and!; [done..|]. exists ins, row, t1, insj, q1, sj. split_and!; try done.
  destruct ins; [|by injection Hb]. unfold insert_budget in Hb. apply bind_Ok in Hb as (? & _ & Hb). by injection Hb.
Qed.

(** What every operation of the orchestrator keeps, the tools keep. *)
Section tools.
Context `{Alphanumeric} (outside : Outside) (setup : Setup) (server : Server).
Context (I : World → Prop) (J : string → World → Prop) (Pr : World → ResearchRun → Prop)
        (D : discipline setup I J Pr).

Definition on_desk_I (d : Desk) : Prop := I (world d).

Lemma perform_world o : keeps on_desk_I (on_world (perform outside setup o)).
Proof using D H H0 H1 H2 H3 H4 H5 H6. apply on_world_keeps. by eapply perform_keeps. Qed.

Lemma inline_keeps o : keeps on_desk_I (inline (perform outside setup o)).
Proof using D H H0 H1 H2 H3 H4 H5 H6. unfold inline. walk on_desk_I. apply perform_world. Qed.

Lemma validate_retry_world tenant id : keeps on_desk_I (on_world (validate_retry outside tenant id)).
Proof using D H H0 H1 H2 H3 H4 H5 H6.
  apply on_world_keeps. eapply triple_post; [by eapply validate_retry_keeps|]. by intros r w [].
Qed.

Lemma time_world : keeps on_desk_I (on_world (_time outside)).
Proof using D H H0 H1 H2 H3 H4 H5 H6. apply on_world_keeps. by eapply time_keeps. Qed.

Lemma query_world {A} (f : ResearchTables → A) : keeps on_desk_I (on_world (repository (λ t, Ok (f t, t)))).
Proof using Type. apply on_world_keeps, query_keeps. Qed.

#[local] Hint Resolve inline_keeps validate_retry_world time_world query_world perform_world : front.
#[local] Hint Extern 1 (triple _ (on_queue _) _ _) => apply on_queue_keeps : front.

Lemma requeue_keeps i id correlation : keeps on_desk_I (requeue_run outside i id correlation).
Proof using D H H0 H1 H2 H3 H4 H5 H6. unfold requeue_run. walk on_desk_I. Qed.

Lemma cancel_run_keeps i id correlation : keeps on_desk_I (cancel_run outside server i id correlation).
Proof using All.
  unfold cancel_run.
  apply (triple_bind on_desk_I _ _ (λ _, on_desk_I)); [apply (perform_world (Cancel _ _ _ _))|intros r].
  walk on_desk_I.
Qed.

(** A submission writes runs, budgets and jobs only. *)
Context (answers_only : ∀ w t, I w → idempotency_rows t = idempotency_rows (research_db (store w)) →
          I (set_research t w)).

Lemma submit_both_answers tenant r j p s p' :
  submit_both tenant r j p = Ok (s, p') → idempotency_rows p'.1 = idempotency_rows p.1.
Proof using Type.
  destruct p as [t q], p' as [t' q'].
  intros (_ & _ & ins & row & t1 & insj & q1 & sj & Hi & _ & Ht & _)%submit_both_inv. cbn.
  rewrite Ht. unfold insert_run in Hi. destruct (List.find _ _); inv_ok; done.
Qed.

Lemma submit_keeps tenant actor r expected correlation refresh :
  keeps on_desk_I (submit outside setup tenant actor r expected correlation refresh).
Proof using D H H0 H1 H2 H3 H4 H5 H6 answers_only.
  unfold submit. apply (triple_bind on_desk_I _ _ (λ _, on_desk_I)).
  { apply on_world_keeps. unfold propose.
    do 2 (apply (triple_bind I _ _ (λ _, I)); [by apply triple_guard|intros ?]).
    apply (triple_bind I _ _ (λ _, I)); [by apply triple_lift|intros ?].
    apply (triple_bind I _ _ (λ _, I)); [by eapply time_keeps|intros ?]. by apply triple_ret. }
  intros run. apply (triple_bind on_desk_I _ _ (λ _, on_desk_I)); [by apply triple_lift|intros job].
  apply triple_transaction; [|by intros [w q]; unfold on_desk_I, set_both, both_tables; cbn; rewrite same_research].
  intros d a p' Hd E%submit_both_answers. by apply answers_only.
Qed.

Lemma start_run_keeps i contract expected correlation :
  keeps on_desk_I (start_run outside setup server i contract expected correlation).
Proof using All.
  unfold start_run. destruct (has_submission server).
  - apply (triple_bind on_desk_I _ _ (λ _, on_desk_I)); [apply submit_keeps|intros ?]. by apply triple_ret.
  - apply (triple_bind on_desk_I _ _ (λ _, on_desk_I)); [apply (perform_world (Execute _ _ _ _ _ _))|intros ?].
    by apply triple_ret.
Qed.
End tools.

(** ** What a tool leaves under its key *)
Section keys.
Context `{Alphanumeric} (outside : Outside) (setup : Setup) (server : Server).

Definition in_progress (digest : string) : IdempotencyRow :=
  mkIdempotencyRow digest IDEMPOTENCY_IN_PROGRESS_STATUS IDEMPOTENCY_IN_PROGRESS_RESPONSE.
Definition answered (digest : string) (response : pyval) : IdempotencyRow := mkIdempotencyRow digest 200 response.

(** The state with other answers. *)
Definition set_rows (m : gmap research_operation IdempotencyRow) (d : Desk) : Desk :=
  mkDesk (set_research (set_idempotency m (research_db (store (world d)))) (world d)) (queue d).

Lemma set_rows_rows m d : rows (set_rows m d) = m.
Proof. done. Qed.

Lemma free_run k digest d :
  _release k digest d = (Ok tt, if reserved k digest (research_db (store (world d))) then set_rows (delete k (rows d)) d else d).
Proof.
  unfold _release, on_world, repository, zoom, transaction, release_idempotency. destruct d as [w q]. cbn.
  by destruct (reserved k digest _); [|rewrite same_research].
Qed.

Lemma finish_run k digest response d :
  rows d !! k = Some (in_progress digest) →
  finished k digest response d = (Ok response, set_rows (<[k := answered digest response]> (rows d)) d).
Proof.
  intros E. unfold rows in E. unfold finished, _finish, on_world, repository, zoom, transaction, complete_idempotency, reserved.
  unfold mbind, stateful_bind. rewrite E. cbn. by rewrite String.eqb_refl.
Qed.

(** What a taken key answers. *)
Definition taken_answer (digest : string) (row : IdempotencyRow) : result pyval :=
  if negb (i_hash row =? digest) then mcp_error "CONFLICT" ["IDEMPOTENCY_KEY_REUSED"]
  else if (i_status row =? IDEMPOTENCY_IN_PROGRESS_STATUS)%Z
  then mcp_error "CONFLICT" ["IDEMPOTENCY_REQUEST_IN_PROGRESS"]
  else Ok (i_response row).

Lemma begin_taken k digest row d :
  rows d !! k = Some row →
  _begin k digest d = (match taken_answer digest row with Ok r => Ok (Some r) | Raise e => Raise e end, d).
Proof.
  intros E. unfold rows in E. destruct d as [w q]. cbn in E.
  unfold _begin, taken_answer, handle, on_world, repository, zoom, transaction, reserve_idempotency.
  unfold mbind, stateful_bind. cbn -[IDEMPOTENCY_IN_PROGRESS_STATUS]. rewrite E. unfold require, raise.
  destruct (i_hash row =? digest); [|cbn; by rewrite same_research].
  destruct (i_status row =? IDEMPOTENCY_IN_PROGRESS_STATUS)%Z; cbn; by rewrite same_research.
Qed.

Lemma begin_free k digest d :
  rows d !! k = None → _begin k digest d = (Ok None, set_rows (<[k := in_progress digest]> (rows d)) d).
Proof.
  intros E. unfold rows in E.
  unfold _begin, handle, on_world, repository, zoom, transaction, reserve_idempotency, mbind, stateful_bind.
  by rewrite E.
Qed.

(** The work under a reserved key: the key is freed when it fails. *)
Lemma under_key_settles {A} k digest code caught (m : stateful Desk A) d :
  keeps (λ d', rows d' = rows d) m → rows d !! k = Some (in_progress digest) →
  match under_key k digest code caught m d with
  | (Ok _, d') => rows d' = rows d
  | (Raise _, d') => rows d' = delete k (rows d)
  end.
Proof.
  intros Hm Hk. unfold under_key, handle. specialize (Hm d eq_refl).
  destruct (m d) as [[a|e] d1]; [done|].
  unfold mbind at 1, stateful_bind at 1. rewrite free_run.
  assert (reserved k digest (research_db (store (world d1))) = true) as ->.
  { unfold reserved. change (idempotency_rows _) with (rows d1). rewrite Hm, Hk. cbn. by rewrite String.eqb_refl. }
  cbn. rewrite Hm. by destruct (caught (exn_cls e)).
Qed.

(** A call under key [k]: a taken key answers at once; a free one has the answer afterwards when
    the call succeeds, and is free again when it fails, unless its contract was refused. *)
Definition settles (k : research_operation) (digest : string) (refused : bool) (d : Desk)
    (r : result pyval * Desk) : Prop :=
  match rows d !! k with
  | Some row => r = (taken_answer digest row, d)
  | None =>
      (∀ k', k' ≠ k → rows r.2 !! k' = rows d !! k') ∧
      match r.1 with
      | Ok response => rows r.2 !! k = Some (answered digest response)
      | Raise _ => rows r.2 !! k = if refused then Some (in_progress digest) else None
      end
  end.

Lemma keyed_settles {A C} k digest code caught (contract : result C) (body : C → stateful Desk A)
    (answer : A → stateful Desk pyval) d :
  (∀ c m, keeps (λ d', rows d' = m) (body c)) → (∀ a, ∃ response, answer a = finished k digest response) →
  settles k digest (match contract with Ok _ => false | Raise _ => true end) d
    ((replay ← _begin k digest;
      match replay with
      | Some response => mret response
      | None => c ← lift contract; a ← under_key k digest code caught (body c); answer a
      end) d).
Proof.
  intros Hbody Hanswer. unfold settles. destruct (rows d !! k) as [row|] eqn:Ek.
  - pose proof (begin_taken _ digest _ _ Ek) as Eb. destruct (taken_answer digest row) as [a|e].
    + by rewrite (stateful_run _ _ _ _ _ Eb).
    + by rewrite (stateful_run_Raise _ _ _ _ _ Eb).
  - rewrite (stateful_run _ _ _ _ _ (begin_free _ digest _ Ek)).
    set (d1 := set_rows _ d). assert (rows d1 = <[k := in_progress digest]> (rows d)) as E1 by done.
    assert (rows d1 !! k = Some (in_progress digest)) as Ek1 by (by rewrite E1, lookup_insert_eq).
    destruct contract as [c|e].
    2:{ split; [|exact Ek1]. intros k' Hk. change (rows d1 !! k' = rows d !! k'). by rewrite E1, lookup_insert_ne. }
    unfold mbind at 1, stateful_bind at 1, lift.
    pose proof (under_key_settles k digest code caught (body c) d1 (Hbody c (rows d1)) Ek1) as Hu.
    unfold mbind, stateful_bind.
    destruct (under_key k digest code caught (body c) d1) as [[a|e] d2].
    + destruct (Hanswer a) as [response ->]. rewrite finish_run by (by rewrite Hu). cbn [fst snd].
      rewrite set_rows_rows, Hu, E1. split; [|by rewrite lookup_insert_eq].
      intros k' Hk. by rewrite !lookup_insert_ne.
    + cbn [fst snd]. rewrite Hu, E1. split; [|by rewrite lookup_delete_eq].
      intros k' Hk. by rewrite lookup_delete_ne, lookup_insert_ne.
Qed.

(** ** The tools *)

Definition tool_permission (t : tool) : Permission :=
  match t with
  | ResearchStart _ => RESEARCH_CREATE | ResearchGet _ _ => RESEARCH_READ
  | ResearchRetry _ => RESEARCH_RETRY | ResearchCancel _ => RESEARCH_CANCEL
  | ResearchHandoff _ => RESEARCH_HANDOFF
  end.

Definition mutation_operation (action : string) (input : ResearchMutationInput) : string :=
  "mcp:" +:+ action +:+ ":" +:+ mu_run input.

(** The key of a call that changes something, and the digest of its request. *)
Definition tool_key (i : Identity) (t : tool) : option (research_operation * string) :=
  let under action input := Some (call_key i (mutation_operation action input) (mu_key input),
                               payload_hash (mutation_json input)) in
  match t with
  | ResearchStart input => Some (call_key i "mcp:research_start" (st_key input), payload_hash (start_json input))
  | ResearchGet _ _ => None
  | ResearchRetry input => under "research_retry" input
  | ResearchCancel input => under "research_cancel" input
  | ResearchHandoff input => under "research_handoff" input
  end.

Definition run_exists (i : Identity) (id : string) (d : Desk) : bool :=
  bool_decide (is_Some (get_run (tenant_name i) id (research_db (store (world d))))).

(** What is asked before the key: the permission, and the target of the call. *)
Definition admitted (i : Identity) (t : tool) (d : Desk) : bool :=
  permits i (tool_permission t) &&
  match t with
  | ResearchStart input =>
      match decisions (decision_db (store (world d))) !! (tenant_name i, target_id input) with
      | Some document => (status document =? "DRAFT") &&
          forallb (λ c, str_in c (map claim_id (claims document))) (st_claims input)
      | None => false
      end
  | ResearchGet id _ => run_exists i id d
  | ResearchRetry input | ResearchCancel input | ResearchHandoff input => run_exists i (mu_run input) d
  end.

(** The request of the tool is one that [ResearchRequest] refuses. *)
Definition contract_refused (t : tool) : bool :=
  match t with
  | ResearchStart input =>
      match research_request (start_contract input
              (effective_limits (limits server) (st_mode input) (st_results input) (st_extractions input))) with
      | Ok _ => false
      | Raise _ => true
      end
  | _ => false
  end.

Lemma require_run i p d :
  mcp_require i p d = (if permits i p then Ok tt else mcp_error "FORBIDDEN" [], d).
Proof. unfold mcp_require, authorize, lift. by destruct (permits i p). Qed.

Lemma required_run i id d :
  mcp_required i id d =
    (match get_run (tenant_name i) id (research_db (store (world d))) with
     | Some r => Ok r | None => mcp_error "NOT_FOUND" [] end, d).
Proof.
  destruct d as [w q]. unfold mcp_required, on_world, repository, zoom, transaction, mbind, stateful_bind. cbn.
  rewrite same_research. by destruct (get_run _ _ _).
Qed.

Definition coded (e : exn) : Prop := exn_cls e = McpApplicationError.

Lemma mutation_cases i input action caught body d :
  (∀ m, keeps (λ d', rows d' = m) body) →
  if run_exists i (mu_run input) d then
    settles (call_key i (mutation_operation action input) (mu_key input)) (payload_hash (mutation_json input))
      false d (mutation i input action caught body d)
  else ∃ e, coded e ∧ mutation i input action caught body d = (Raise e, d).
Proof.
  intros Hbody. unfold mutation, run_exists. pose proof (required_run i (mu_run input) d) as Er.
  destruct (get_run _ _ _) as [r|]; cbn.
  - rewrite (stateful_run _ _ _ _ _ Er).
    apply (keyed_settles _ _ "CONFLICT" caught (Ok tt) (λ _, body)); [auto|].
    intros [r' job]. by eexists.
  - eexists. split; [|by apply (stateful_run_Raise _ _ _ _ _ Er)]. done.
Qed.

Lemma permitted i p (b : bool) k digest refused d (m : stateful Desk pyval) :
  (if b then settles k digest refused d (m d) else ∃ e, coded e ∧ m d = (Raise e, d)) →
  if permits i p && b then settles k digest refused d ((mcp_require i p ≫= λ _, m) d)
  else ∃ e, coded e ∧ (mcp_require i p ≫= λ _, m) d = (Raise e, d).
Proof.
  intros Hm. pose proof (require_run i p d) as Ep. destruct (permits i p); cbn [andb].
  - by rewrite (stateful_run _ _ _ _ _ Ep).
  - eexists. split; [|by apply (stateful_run_Raise _ _ _ _ _ Ep)]. done.
Qed.

Definition rows_are (m : gmap research_operation IdempotencyRow) (w : World) : Prop :=
  idempotency_rows (research_db (store w)) = m.

Lemma inline_rows o m : keeps (λ d, rows d = m) (inline (perform outside setup o)).
Proof using All. by apply (inline_keeps outside setup (rows_are m) (λ _, rows_are m) (λ _ _, True)), answers_discipline. Qed.

Lemma start_rows i contract expected correlation m :
  keeps (λ d, rows d = m) (start_run outside setup server i contract expected correlation).
Proof using All.
  apply (start_run_keeps outside setup server (rows_are m) (λ _, rows_are m) (λ _ _, True));
    [apply answers_discipline|]. unfold rows_are. by intros w t <- E.
Qed.

Lemma start_cases i input correlation d :
  let k := call_key i "mcp:research_start" (st_key input) in
  if admitted i (ResearchStart input) d then
    settles k (payload_hash (start_json input)) (contract_refused (ResearchStart input)) d
      (start outside setup server i input correlation d)
  else ∃ e, coded e ∧ start outside setup server i input correlation d = (Raise e, d).
Proof using All.
  cbv zeta. unfold start, admitted, contract_refused, tool_permission.
  pose proof (require_run i RESEARCH_CREATE d) as Ep. destruct (permits i RESEARCH_CREATE); cbn [andb].
  2:{ eexists. split; [|by apply (stateful_run_Raise _ _ _ _ _ Ep)]. done. }
  rewrite (stateful_run _ _ _ _ _ Ep).
  pose proof (eq_refl (start_document i (target_id input) d)) as Ed. unfold start_document at 2 in Ed.
  destruct (decisions _ !! _) as [document|].
  2:{ eexists. split; [|by apply (stateful_run_Raise _ _ _ _ _ Ed)]. done. }
  rewrite (stateful_run _ _ _ _ _ Ed). destruct (status document =? "DRAFT"); cbn [andb].
  2:{ by eexists (Exn _ _). }
  destruct (forallb _ _); [|by eexists (Exn _ _)].
  apply (keyed_settles _ _ "INVALID_REQUEST" is_value_error); [intros c m; apply start_rows|].
  intros [r job]. by eexists.
Qed.

(** C29: every tool of the MCP server settles its idempotency key. A call that is not admitted (the
    permission, the run, the draft, its claims) is refused with a coded error and changes nothing.
    A key that is taken answers at once and changes nothing: with the stored response when the
    request is the same and done, with a conflict when it is another request or still in
    progress. Under a free key a call that succeeds leaves its response there, one that fails,
    wherever in the services that is, leaves the key free, and no other key changes. There is one
    exception: a start whose request [ResearchRequest] refuses keeps its key in progress. *)
Theorem mcp_calls_settle_their_key i t correlation d k digest :
  tool_key i t = Some (k, digest) →
  if admitted i t d then settles k digest (contract_refused t) d (perform_tool outside setup server i t correlation d)
  else ∃ e, coded e ∧ perform_tool outside setup server i t correlation d = (Raise e, d).
Proof using All.
  intros Hk. destruct t as [input|id l|input|input|input]; cbn [tool_key] in Hk; simplify_eq; cbn [perform_tool].
  - apply start_cases.
  - apply permitted. destruct (has_jobs server); apply mutation_cases; intros m.
    + by apply (requeue_keeps outside setup (rows_are m) (λ _, rows_are m) (λ _ _, True)), answers_discipline.
    + apply (inline_rows (Retry _ _ _ _)).
  - apply permitted. apply mutation_cases; intros m. by apply (cancel_run_keeps outside setup server (rows_are m) (λ _, rows_are m) (λ _ _, True)), answers_discipline.
  - apply permitted. apply mutation_cases; intros m. apply (inline_rows (HandOff _ _ _ _)).
Qed.

(** ** The authority of a token *)

Lemma claimed_groups_strs l : claimed_groups (strs l) = Ok l.
Proof. cbn. induction l as [|x l IH]; [done|]. cbn. cbn in IH. by rewrite IH. Qed.

Lemma parse_kind_value k : parse_kind (kind_value k) = Some k.
Proof. by destruct k. Qed.

(** The identity a tool sees is the authenticated one, with its primary role only. *)
Lemma token_identity i j :
  current_identity (Some (token_claims i)) = Ok j →
  identity_actor j = identity_actor i ∧ tenant_name j = tenant_name i ∧
  identity_roles j = {[identity_role i]}.
Proof.
  unfold current_identity. destruct (identity_from _) as [j'|e] eqn:E; [|by case_match].
  intros [= <-]. unfold identity_from, token_claims in E. cbn [assoc] in E.
  cbn -[claimed_groups make_identity tenant_context parse_role parse_kind] in E.
  assert (parse_role (role_value (identity_role i)) = Some (identity_role i)) as Er by (by destruct (identity_role i)).
  rewrite claimed_groups_strs, Er, parse_kind_value in E. cbn -[make_identity tenant_context] in E.
  apply bind_Ok in E as (o & _ & E). apply bind_Ok in E as (t & Ht & E).
  unfold tenant_context in Ht. inv_ok. unfold make_identity in E. cbn in E. inv_ok. done.
Qed.

(** No call of a transaction on the research tables touches the decisions. *)
Definition undecided (db : Database) (d : Desk) : Prop := research_only db (decision_db (store (world d))).

Lemma repository_undecided {A} db (f : ResearchTables → result (A * ResearchTables)) :
  keeps (undecided db) (on_world (repository f)).
Proof.
  apply (on_world_keeps _ (λ w, research_only db (decision_db (store w)))).
  apply triple_transaction; [done|]. by intros w; rewrite same_research.
Qed.
Lemma start_document_undecided db i target : keeps (undecided db) (start_document i target).
Proof. intros d Hd. unfold start_document. by destruct (_ !! _). Qed.
#[local] Hint Resolve repository_undecided start_document_undecided : front.

Definition only_research (db : Database) (w : World) : Prop := research_only db (decision_db (store w)).

Lemma bodies_undecided db :
  (∀ o, keeps (undecided db) (inline (perform outside setup o))) ∧
  (∀ i contract expected correlation,
     keeps (undecided db) (start_run outside setup server i contract expected correlation)) ∧
  (∀ i id correlation, keeps (undecided db) (requeue_run outside i id correlation)) ∧
  (∀ i id correlation, keeps (undecided db) (cancel_run outside server i id correlation)).
Proof using All.
  pose proof (decision_discipline setup db) as D.
  split_and!; intros.
  - by apply (inline_keeps outside setup (only_research db) _ _ D).
  - by apply (start_run_keeps outside setup server (only_research db) _ _ D).
  - by apply (requeue_keeps outside setup (only_research db) _ _ D).
  - by apply (cancel_run_keeps outside setup server (only_research db) _ _ D).
Qed.

Lemma mutation_undecided db i input action caught body :
  keeps (undecided db) body → keeps (undecided db) (mutation i input action caught body).
Proof using All.
  intros Hb. unfold mutation, mcp_required, _begin, under_key, finished, _finish, _release.
  walk (undecided db).
Qed.

Lemma perform_tool_undecided db i t correlation :
  keeps (undecided db) (perform_tool outside setup server i t correlation).
Proof using All.
  destruct (bodies_undecided db) as (Hi & Hs & Hr & Hc).
  destruct t as [input|id l|input|input|input]; cbn [perform_tool].
  - unfold start, mcp_require, _begin, under_key, finished, _finish, _release.
    walk (undecided db).
  - unfold get, mcp_require, mcp_required. walk (undecided db).
  - unfold mcp_retry, mcp_require. walk (undecided db); apply mutation_undecided; [apply Hr|apply (Hi (Retry _ _ _ _))].
  - unfold mcp_cancel, mcp_require. walk (undecided db). apply mutation_undecided, Hc.
  - unfold mcp_handoff, mcp_require. walk (undecided db). apply mutation_undecided, (Hi (HandOff _ _ _ _)).
Qed.

Lemma perform_tool_refused i t correlation d :
  permits i (tool_permission t) = false →
  perform_tool outside setup server i t correlation d = (mcp_error "FORBIDDEN" [], d).
Proof.
  intros Hp. assert (mcp_require i (tool_permission t) d = (mcp_error "FORBIDDEN" [], d)) as E
    by (by rewrite require_run, Hp).
  destruct t; cbn [perform_tool tool_permission] in *; by apply (stateful_run_Raise _ _ _ _ _ E).
Qed.

Lemma get_unchanged i id correlation locale d :
  (perform_tool outside setup server i (ResearchGet id locale) correlation d).2 = d.
Proof.
  cbn [perform_tool]. unfold get. pose proof (require_run i RESEARCH_READ d) as Ep.
  destruct (permits i RESEARCH_READ); [|by rewrite (stateful_run_Raise _ _ _ _ _ Ep)].
  rewrite (stateful_run _ _ _ _ _ Ep). pose proof (required_run i id d) as Er.
  destruct (get_run _ _ _); [by rewrite (stateful_run _ _ _ _ _ Er)|by rewrite (stateful_run_Raise _ _ _ _ _ Er)].
Qed.

(** C30: a tool stays within the authority of the token it is called with, and never decides.
    Whatever the token and the tool, every call is answered; the decisions are left as research
    may leave them (drafts with more evidence to review, no status, outcome, approval or claim
    changed); and if anything changed at all, the token was accepted, the tool is not
    [research_get], and the authenticated identity has, by its primary role alone, the permission
    of the tool. *)
Theorem tools_within_authority `{CaseMapping} authenticate token claims t correlation failure d :
  (∀ i, authenticate token = Ok i → make_identity i = Ok i) →
  verify_token authenticate token = Ok claims →
  let r := call_tool outside setup server claims t correlation failure d in
  (∃ response, r.1 = Ok response) ∧ undecided (decision_db (store (world d))) r.2 ∧
  (r.2 ≠ d → ∃ i, authenticate token = Ok i ∧ permits i (tool_permission t) = true ∧
     tool_permission t ∈ ROLE_PERMISSIONS (identity_role i) ∧ tool_permission t ≠ RESEARCH_READ).
Proof using All.
  intros Hi Hv. cbv zeta. unfold call_tool, guarded.
  set (m := lift (current_identity claims) ≫= λ i, perform_tool outside setup server i t correlation).
  set (I := undecided (decision_db (store (world d)))).
  assert (keeps I m) as Hm.
  { apply (triple_bind I _ _ (λ _, I)); [by apply triple_lift|]. intros i. apply perform_tool_undecided. }
  assert ((m d).2 = (handle m (λ e, Some (mret
    (match bool_decide (exn_cls e = McpApplicationError), exn_args e with
     | true, code :: reason => error_response code (head reason) (tool_locale t) failure
     | _, _ => error_response "INTERNAL_ERROR" None (tool_locale t) failure
     end))) d).2) as E by (unfold handle; by destruct (m d) as [[a|e] d']).
  rewrite <-E. split; [|split].
  - unfold handle. destruct (m d) as [[a|e] d']; by eexists.
  - assert (I d) as Hd by (unfold I, undecided; reflexivity). specialize (Hm d Hd). by destruct (m d) as [[a|e] d'].
  - intros Hne. unfold verify_token in Hv. destruct (authenticate token) as [i|e] eqn:Ea.
    2:{ destruct (is_value_error _); [injection Hv as <-|discriminate Hv]. done. }
    exists i. split; [done|]. injection Hv as <-. subst m. revert Hne. unfold mbind, stateful_bind, lift.
    destruct (current_identity _) as [j|e] eqn:Ej; [|done]. intros Hne.
    apply token_identity in Ej as (_ & _ & Hroles).
    destruct (permits j (tool_permission t)) eqn:Ep; [|by rewrite perform_tool_refused in Hne].
    apply permits_spec in Ep as (role & Hr & Hp). rewrite Hroles in Hr. apply elem_of_singleton in Hr as ->.
    specialize (Hi i eq_refl). apply make_identity_roles in Hi as (_ & Hrole & _).
    split_and!; [|done|].
    + apply permits_spec. by exists (identity_role i).
    + destruct t; try done. by rewrite get_unchanged in Hne.
Qed.
End keys.

(** ** Submissions *)
Section submissions.
Context (setup : Setup).

(** What [propose] checks before it reads the clock, with the fingerprint it computes. *)
Definition proposal (tenant : string) (r : ResearchRequest) (expected : string) (refresh : option string) :
    result string :=
  _ ← require (max_search_results r <=? configured_search_results (policy setup))%Z
        ValueError "SEARCH_LIMIT_EXCEEDS_CONFIGURATION";
  _ ← require (max_sources_to_extract r <=? configured_extractions (policy setup))%Z
        ValueError "EXTRACTION_LIMIT_EXCEEDS_CONFIGURATION";
  semantic_fingerprint_of tenant r expected (research_policy_version (policy setup))
    (provider_configuration_version (policy setup)) refresh.

Definition proposed (tenant actor : string) (r : ResearchRequest) (expected correlation fingerprint at_ : string) :
    ResearchRun :=
  mkRun ("research-" +:+ uuid5_url fingerprint) tenant actor r expected fingerprint CREATED at_ at_
    correlation [] [] [] [] [] [] 0 None None None.

Lemma propose_run outside tenant actor r expected correlation refresh w :
  propose outside setup tenant actor r expected correlation refresh w =
    match proposal tenant r expected refresh with
    | Ok f => (Ok (proposed tenant actor r expected correlation f (isoformat (clock_at outside (ticks w)))),
               (question w).2)
    | Raise e => (Raise e, w)
    end.
Proof.
  unfold propose, proposal, guard_with, lift, mbind, stateful_bind, result_bind.
  destruct (require _ _ _) as [[]|e]; [|done]. destruct (require _ _ _) as [[]|e]; [|done].
  by destruct (semantic_fingerprint_of _ _ _ _ _ _).
Qed.

(** [ON CONFLICT DO NOTHING], and the row that is there afterwards. *)
Lemma insert_job_run q j b q' :
  insert_job q j = Ok (b, q') →
  jobs q ⊆ jobs q' ∧
  if b then job_of_run q' (job_tenant j) (Jobs.research_run_id j) = Some j
  else q' = q ∧ is_Some (job_of_run q (job_tenant j) (Jobs.research_run_id j)).
Proof.
  unfold insert_job. destruct (job_of_run q _ _) as [j0|] eqn:E; intros Hi.
  { injection Hi as <- <-. by split; [|eauto]. }
  apply bind_Ok in Hi as (_ & Hn%require_Ok%bool_decide_eq_true & Hi). injection Hi as <- <-. split.
  { cbn. by apply insert_subseteq. }
  unfold job_of_run. cbn [set_jobs jobs].
  destruct (List.find _ (map_to_list (<[job_key j:=j]> (jobs q)))) as [[k j']|] eqn:Ef; cbn.
  - apply find_some in Ef as [Hin Hm]. apply list_elem_of_In, elem_of_map_to_list in Hin.
    destruct (decide (k = job_key j)) as [->|Hk]; [rewrite lookup_insert_eq in Hin; congruence|].
    rewrite lookup_insert_ne in Hin by done. exfalso.
    unfold job_of_run in E. destruct (List.find _ (map_to_list (jobs q))) as [x|] eqn:Ex; [done|].
    apply elem_of_map_to_list, list_elem_of_In in Hin. pose proof (find_none _ _ Ex _ Hin) as Hx.
    cbn in Hm, Hx. congruence.
  - exfalso. assert ((job_key j, j) ∈ map_to_list (<[job_key j:=j]> (jobs q))) as Hin
      by (apply elem_of_map_to_list, lookup_insert_eq).
    apply list_elem_of_In in Hin. pose proof (find_none _ _ Ef _ Hin) as Hx. cbn in Hx.
    by rewrite !String.eqb_refl in Hx.
Qed.

Lemma find_snoc {A} (f : A → bool) l x : List.find f l = None → List.find f (l ++ [x]) = if f x then Some x else None.
Proof.
  induction l as [|y l IH]; cbn; [done|]. destruct (f y); [done|exact IH].
Qed.

Lemma insert_run_spec tenant r t ins t1 :
  insert_run tenant r t = Ok (ins, t1) →
  research_runs t `prefix_of` research_runs t1 ∧
  (ins = true → ∃ row, research_runs t1 = research_runs t ++ [row] ∧ run_json row.2 = r ∧
     List.find (fingerprint_match tenant r) (research_runs t) = None).
Proof.
  unfold insert_run. destruct (List.find _ _) eqn:E; intros Hi; [by injection Hi as <- <-|].
  apply bind_Ok in Hi as (_ & _ & Hi). injection Hi as <- <-. cbn. split; [by eexists|].
  intros _. by eexists.
Qed.

(** The job of a submission, whose times are those of its run. *)
Definition queued_job (tenant expected correlation id : string) (created updated : Z) : Jobs.ResearchJob :=
  Jobs.mkJob (job_name id) tenant id correlation expected QUEUED 0 created created updated None None None.

Lemma proposed_job_Ok tenant expected correlation r j :
  proposed_job tenant expected correlation r = Ok j ↔
  ∃ created updated, instant (run_created_at r) = Some created ∧ instant (run_updated_at r) = Some updated ∧
    j = queued_job tenant expected correlation (research_run_id r) created updated ∧
    forallb id_matches [job_name (research_run_id r); tenant; research_run_id r; correlation] = true ∧
    str_startswith "sha256:" expected && Nat.eqb (str_len expected) 71 = true.
Proof.
  unfold proposed_job, column_instant, research_job. split.
  - intros E. inv_ok. by eexists _, _.
  - intros (c & u & -> & -> & -> & E1 & E2). cbn [or_raise mbind result_bind].
    unfold queued_job. cbn [job_id job_tenant Jobs.research_run_id Jobs.correlation_id payload_digest attempt_count
      lease_token_hash lease_expires_at]. rewrite E1, E2. reflexivity.
Qed.

(** A second submission finds what the first one stored. *)
Lemma submit_both_again tenant r r' j j' t q s t' q' :
  submit_both tenant r j (t, q) = Ok (s, (t', q')) →
  semantic_fingerprint r' = semantic_fingerprint r → run_tenant r' = tenant → job_tenant j' = tenant →
  research_run_id r' = Jobs.research_run_id j' → job_status j' = QUEUED → payload_digest j' = payload_digest j →
  submit_both tenant r' j' (t', q') = Ok (mkSubmitted (sub_run s) (sub_job s) true, (t', q')).
Proof.
  intros (_ & _ & ins & row & t1 & insj & q1 & sj & Hi & Hf & -> & Hj & Hs & Hp & -> & ->)%submit_both_inv
    Efp Et Ejt Eid Est Ep.
  set (t2 := if ins then _ else t1). set (q2 := if insj : bool then _ else q1).
  assert (research_runs t2 = research_runs t1) as Er by (subst t2; by destruct ins).
  assert (fingerprint_match tenant r' = fingerprint_match tenant r) as Em by (unfold fingerprint_match; by rewrite Efp).
  assert (∀ id, job_of_run q2 tenant id = job_of_run q1 tenant id) as Eq by (subst q2; by destruct insj).
  unfold submit_both, insert_run, insert_job. rewrite Et, Ejt, Est, Eid, !String.eqb_refl. cbn.
  rewrite Em, Er, Hf. cbn. rewrite Er, Hf. cbn. rewrite Ejt, Eq, Hs. cbn. rewrite Eq, Hs. cbn.
  by rewrite Hp, Ep, String.eqb_refl.
Qed.

Lemma submit_run outside tenant actor r expected correlation refresh d :
  submit outside setup tenant actor r expected correlation refresh d =
    match proposal tenant r expected refresh with
    | Raise e => (Raise e, d)
    | Ok f =>
        let w1 := (question (world d)).2 in
        let d1 := mkDesk w1 (queue d) in
        let at_ := isoformat (clock_at outside (ticks (world d))) in
        let r1 := proposed tenant actor r expected correlation f at_ in
        match proposed_job tenant expected correlation r1 with
        | Raise e => (Raise e, d1)
        | Ok j =>
            match submit_both tenant r1 j (both_tables d) with
            | Ok (s, p) => (Ok s, set_both p d1)
            | Raise e => (Raise e, d1)
            end
        end
    end.
Proof.
  unfold submit. set (m := on_world (propose _ _ _ _ _ _ _ _)).
  assert (m d = (λ x, (x.1, mkDesk x.2 (queue d))) (propose outside setup tenant actor r expected correlation refresh (world d)))
    as Em by (subst m; unfold on_world, zoom; by destruct (propose _ _ _ _ _ _ _ _ _)).
  rewrite propose_run in Em. destruct (proposal _ _ _ _) as [f|e]; cbn in Em;
    [rewrite (stateful_run _ _ _ _ _ Em)|rewrite (stateful_run_Raise _ _ _ _ _ Em); by destruct d].
  cbv zeta. unfold mbind, stateful_bind, lift. destruct (proposed_job _ _ _ _) as [j|e]; [|done].
  unfold zoom, transaction. change (both_tables (mkDesk _ _)) with (both_tables d).
  destruct (submit_both _ _ _ _) as [[s p]|e]; [done|].
  unfold set_both, both_tables. cbn. by destruct (world d) as [[]].
Qed.

(** C31: a submission is one transaction, and a repeated one converges. When it fails the tables
    of the runs and of the jobs are as before. When it succeeds it has called no provider and
    changed no decision, nothing that was stored is lost, its run is stored under the request's
    fingerprint with exactly one job, which carries the hash of the decision document, and a new
    run is created, queued and not yet charged. The same submission made again, at any later
    time, finds that run and that job and stores nothing. *)
Theorem submission_is_one_transaction outside tenant actor r expected correlation refresh d :
  (∀ t, is_Some (instant (isoformat t))) →
  match submit outside setup tenant actor r expected correlation refresh d with
  | (Raise _, d') => both_tables d' = both_tables d
  | (Ok s, d') =>
      calls (world d') = calls (world d) ∧ decision_db (store (world d')) = decision_db (store (world d)) ∧
      research_runs (both_tables d).1 `prefix_of` research_runs (both_tables d').1 ∧
      jobs (queue d) ⊆ jobs (queue d') ∧
      (∃ row f, row ∈ research_runs (both_tables d').1 ∧ run_json row.2 = sub_run s ∧
         proposal tenant r expected refresh = Ok f ∧ row.1.1 = tenant ∧ row_fingerprint row.2 = f) ∧
      job_of_run (queue d') tenant (research_run_id (sub_run s)) = Some (sub_job s) ∧
      payload_digest (sub_job s) = expected ∧
      (replayed s = false → run_status (sub_run s) = CREATED ∧ job_status (sub_job s) = QUEUED ∧
         budget_usage (both_tables d').1 !! (tenant, research_run_id (sub_run s)) = Some 0%Z) ∧
      (∀ later, ∃ d'', submit later setup tenant actor r expected correlation refresh d' =
         (Ok (mkSubmitted (sub_run s) (sub_job s) true), d'') ∧ both_tables d'' = both_tables d')
  end.
Proof.
  intros Hinstant. rewrite submit_run. destruct (proposal tenant r expected refresh) as [f|e] eqn:Ef; [|done].
  cbv zeta. set (r1 := proposed _ _ _ _ _ _ _).
  destruct (proposed_job tenant expected correlation r1) as [j|e] eqn:Ej; [|done].
  destruct (submit_both tenant r1 j (both_tables d)) as [[s [t' q']]|e] eqn:Es; [|done].
  apply proposed_job_Ok in Ej as (c & u & _ & _ & -> & Hid & Hpay).
  set (w1 := (question (world d)).2) in *.
  change (both_tables (set_both (t', q') _)) with (t', q').
  pose proof Es as (_ & _ & ins & row & t1 & insj & q1 & sj & Hi & Hf & Et & Hj & Hs & Hp & -> & Eq)%submit_both_inv.
  pose proof (insert_run_spec _ _ _ _ _ Hi) as [Hpre Hnew]. pose proof (insert_job_run _ _ _ _ Hj) as [Hsub Hins].
  assert (research_runs t' = research_runs t1) as Er by (rewrite Et; by destruct ins).
  assert (jobs q' = jobs q1) as Ejobs by (rewrite Eq; by destruct insj).
  pose proof (find_some _ _ Hf) as [Hin [E1%String.eqb_eq E2%String.eqb_eq]%andb_true_iff].
  apply list_elem_of_In in Hin.
  split_and!; try done.
  - cbn. by rewrite Er.
  - cbn. by rewrite Ejobs.
  - exists row, f. cbn. rewrite Er. by split_and!.
  - cbn. rewrite Eq. by destruct insj.
  - cbn. intros [Hi1%negb_false_iff Hj1%negb_false_iff]%orb_false_iff. subst ins insj.
    destruct (Hnew eq_refl) as (row0 & Ers & Hrow & Hnone). rewrite Ers, (find_snoc _ _ _ Hnone) in Hf.
    destruct (fingerprint_match _ _ _); [|done]. injection Hf as ->. rewrite Hrow in *.
    assert (Some sj = Some (job_for (research_run_id r1) (queued_job tenant expected correlation (research_run_id r1) c u)))
      as [= ->] by (etrans; [symmetry; exact Hs|exact Hins]).
    rewrite Et. cbn. by rewrite lookup_insert_eq.
  - intros later. rewrite submit_run, Ef. cbv zeta. set (r2 := proposed _ _ _ _ _ _ (isoformat (clock_at later _))).
    destruct (Hinstant (clock_at later (ticks w1))) as [c' Hc].
    assert (proposed_job tenant expected correlation r2 =
      Ok (queued_job tenant expected correlation (research_run_id r2) c' c')) as ->.
    { apply proposed_job_Ok. exists c', c'. by split_and!. }
    change (both_tables (set_both (t', q') _)) with (t', q').
    rewrite (submit_both_again _ _ r2 _ _ _ _ _ _ _ Es) by done.
    by eexists.
Qed.
End submissions.

(** ** The routes *)
Section routes.
Context (outside : Outside) (setup : Setup) (submission : bool).

Inductive http_call := CreateRun (b : ResearchRequestBody) | ActOn (a : action) (id : string).

Definition http_operation (c : http_call) : string :=
  match c with
  | CreateRun _ => "research:create"
  | ActOn a id => "research:" +:+ action_name a +:+ ":" +:+ id
  end.
Definition http_payload (c : http_call) : pyval :=
  match c with CreateRun b => research_body_json b | ActOn _ _ => PDict [] end.

Definition serve_http (q : Request) (i : Identity) (key : option string) (c : http_call) : stateful Front Response :=
  match c with
  | CreateRun b => create_research_run outside setup submission q i key b
  | ActOn a id => _action outside setup a q i key id
  end.

(** The answers are [m] and the decisions still those of [db], up to research. *)
Definition answers (db : Database) (m : gmap research_operation IdempotencyRow) (f : Front) : Prop :=
  rows (desk f) = m ∧ undecided db (desk f).

Lemma on_desk_keeps {A} db m (c : stateful Desk A) :
  keeps (λ d, rows d = m) c → keeps (undecided db) c → keeps (answers db m) (on_desk c).
Proof.
  intros Hr Hu f [Ha Hb]. unfold on_desk, zoom. specialize (Hr _ Ha). specialize (Hu _ Hb).
  destruct (c (desk f)) as [[a|e] d]; by split.
Qed.

(** A check of the application writes the log of security events only. *)
Lemma require_same_database q i p a : database (require_permission q i p a).2 = database a.
Proof.
  unfold require_permission. destruct (permits i p).
  - unfold _record. by destruct (create _ _ _ _ _ _ _ _ _ _).
  - unfold mbind, stateful_bind, _record. by destruct (create _ _ _ _ _ _ _ _ _ _).
Qed.

Lemma set_same_app a f : database a = database (the_app f) → desk (set_app a f) = desk f.
Proof. unfold set_app. intros ->. by destruct f as [s [[[] ] ]]. Qed.

Lemma api_require_desk q i p f : desk (api_require q i p f).2 = desk f.
Proof.
  unfold api_require, on_app, zoom. pose proof (require_same_database q i p (the_app f)) as E.
  destruct (require_permission q i p (the_app f)) as [r a]. by apply set_same_app.
Qed.

Lemma find_document_desk i id f : desk (on_app (find_document i id) f).2 = desk f.
Proof.
  unfold on_app, zoom, find_document. by destruct (_ !! _); apply set_same_app.
Qed.

Lemma api_required_run i id f :
  api_required i id f =
    (match get_run (tenant_name i) id (research_db (store (world (desk f)))) with
     | Some r => Ok r | None => not_found end, f).
Proof.
  destruct f as [s [w q]]. unfold api_required, on_desk, on_world, repository, zoom, transaction, mbind, stateful_bind.
  cbn. rewrite same_research. by destruct (get_run _ _ _).
Qed.

Lemma desk_keeps {A} db m (c : stateful Front A) :
  (∀ f, desk (c f).2 = desk f) → keeps (answers db m) c.
Proof.
  intros Hc f [Ha Hb]. specialize (Hc f). unfold answers. destruct (c f) as [[a|e] f']; cbn in Hc; by rewrite Hc.
Qed.

Definition http_answered (digest : string) (r : Response) : IdempotencyRow :=
  mkIdempotencyRow digest (status_code r) (body r).

Lemma api_finish_answers db m k digest r :
  m !! k = None →
  triple (answers db m) (api_finish k digest r) (λ _, answers db (<[k := http_answered digest r]> m)) (answers db m).
Proof.
  intros Hk f [Ha Hb]. unfold api_finish, on_desk, on_world, repository, zoom, transaction, ResearchStore.store_idempotency.
  change (idempotency_rows _) with (rows (desk f)). rewrite Ha, Hk. by split.
Qed.

Lemma or_api_error_keeps {A} I status code (m : stateful Front A) : keeps I m → keeps I (or_api_error status code m).
Proof.
  intros Hm. apply triple_handle; [exact Hm|]. intros e c E. destruct (is_value_error _); [|discriminate E].
  injection E as <-. by apply triple_lift.
Qed.

Lemma create_run_keeps db m q i b d : keeps (answers db m) (create_run outside setup submission q i b d).
Proof using All.
  unfold create_run. apply (triple_bind _ _ _ (λ _, answers db m)); [by apply triple_lift|]. intros contract.
  destruct submission; (apply (triple_bind _ _ _ (λ _, answers db m)); [|intros; by apply triple_ret]);
    apply on_desk_keeps.
  - apply (submit_keeps outside setup (rows_are m) (λ _, rows_are m) (λ _ _, True)); [apply answers_discipline|].
    unfold rows_are. by intros w t <- E.
  - by apply (submit_keeps outside setup (only_research db) _ _ (decision_discipline setup db)).
  - by apply (perform_world outside setup (rows_are m) (λ _, rows_are m) (λ _ _, True) (answers_discipline setup m)
      (Execute _ _ _ _ _ _)).
  - by apply (perform_world outside setup (only_research db) _ _ (decision_discipline setup db) (Execute _ _ _ _ _ _)).
Qed.

Lemma act_keeps db m a i id correlation :
  keeps (answers db m) (on_desk (on_world
    (match a with
     | RetryRun => retry outside setup (tenant_name i) (identity_actor i) id correlation
     | CancelRun => cancel outside (tenant_name i) (identity_actor i) id correlation
     end))).
Proof using All.
  apply on_desk_keeps.
  - destruct a; [apply (perform_world outside setup (rows_are m) (λ _, rows_are m) (λ _ _, True)
        (answers_discipline setup m) (Retry _ _ _ _))
      |apply (perform_world outside setup (rows_are m) (λ _, rows_are m) (λ _ _, True)
        (answers_discipline setup m) (Cancel _ _ _ _))].
  - destruct a; [apply (perform_world outside setup (only_research db) _ _ (decision_discipline setup db) (Retry _ _ _ _))
      |apply (perform_world outside setup (only_research db) _ _ (decision_discipline setup db) (Cancel _ _ _ _))].
Qed.

(** The key of a request, once it is checked: a taken one answers at once. *)
Lemma api_begin_run i operation key payload f :
  let k := call_key i operation key in
  require_idempotency_key (Some key) = Ok key →
  api_begin i operation (Some key) payload f =
    match rows (desk f) !! k with
    | Some row => if i_hash row =? payload_hash payload
        then (Ok (k, payload_hash payload, Some (mkResponse (i_status row) (i_response row))), f)
        else (conflict ["IDEMPOTENCY_KEY_REUSED"], f)
    | None => (Ok (k, payload_hash payload, None), f)
    end.
Proof.
  cbv zeta. intros Hkey. destruct f as [s [w q]]. unfold api_begin. rewrite Hkey.
  rewrite (stateful_run _ _ _ _ _ (eq_refl : lift (Ok key) _ = (Ok _, _))). cbv zeta.
  unfold rows. cbn [desk world]. unfold on_desk, on_world, repository, zoom, transaction, handle, get_research_idempotency.
  unfold mbind, stateful_bind, result_bind. cbn [desk world queue store research_db].
  destruct (idempotency_rows _ !! _) as [row|]; cbn.
  - unfold require, raise. destruct (i_hash row =? payload_hash payload); cbn; by rewrite same_research.
  - by rewrite same_research.
Qed.

Lemma idempotency_key_same key k : require_idempotency_key key = Ok k → key = Some k.
Proof. destruct key as [v|]; cbn; [|done]. destruct (_ && _); [|done]. by intros [= ->]. Qed.

(** What a request leaves: under a taken key nothing, and its answer is the stored one; under a
    free key its answer when it succeeds, and nothing when it fails. *)
Definition http_settles (k : research_operation) (digest : string) (f : Front) (r : result Response * Front) : Prop :=
  undecided (decision_db (store (world (desk f)))) (desk r.2) ∧
  match rows (desk f) !! k with
  | Some row => desk r.2 = desk f ∧
      match r.1 with
      | Ok response => i_hash row = digest ∧ response = mkResponse (i_status row) (i_response row)
      | Raise _ => True
      end
  | None => rows (desk r.2) = match r.1 with
      | Ok response => <[k := http_answered digest response]> (rows (desk f))
      | Raise _ => rows (desk f)
      end
  end.

Lemma http_refused k digest f e f' : desk f' = desk f → http_settles k digest f (Raise e, f').
Proof.
  intros E. unfold http_settles. cbn. rewrite E. split; [unfold undecided; reflexivity|].
  by destruct (_ !! _).
Qed.
(** A step that leaves the desk alone: the request stops there, or goes on from the same desk. *)
Lemma http_step {A} k digest f f0 (m : stateful Front A) (g : A → stateful Front Response) :
  desk f0 = desk f → desk (m f0).2 = desk f0 →
  (∀ a f1, m f0 = (Ok a, f1) → desk f1 = desk f → http_settles k digest f (g a f1)) →
  http_settles k digest f ((m ≫= g) f0).
Proof.
  intros E0 Em Hg. unfold mbind, stateful_bind. destruct (m f0) as [[a|e] f1]; cbn in Em.
  - apply Hg; [done|congruence].
  - apply http_refused. congruence.
Qed.

(** The work of a request under a free key, then its answer. *)
Lemma http_work {A} k digest f f0 (work : stateful Front A) (rest : A → stateful Front Response) :
  desk f0 = desk f → rows (desk f) !! k = None → (∀ db m, keeps (answers db m) work) →
  (∀ a, ∃ r, rest a = (api_finish k digest r ≫= λ _, mret r)) →
  http_settles k digest f ((work ≫= rest) f0).
Proof.
  intros E Hk Hw Hrest. unfold http_settles. rewrite Hk.
  set (db := decision_db _).
  assert (triple (answers db (rows (desk f))) (work ≫= rest)
    (λ r, answers db (<[k := http_answered digest r]> (rows (desk f)))) (answers db (rows (desk f)))) as Ht.
  { eapply triple_bind; [apply Hw|]. intros a. destruct (Hrest a) as [r ->].
    intros f1 Ha. pose proof (api_finish_answers db _ k digest r Hk f1 Ha) as Hf.
    unfold mbind, stateful_bind. by destruct (api_finish k digest r f1) as [[[]|e] f2]. }
  specialize (Ht f0). destruct ((work ≫= rest) f0) as [[r|e] f1]; cbn;
    (destruct Ht as [Hr Hu]; [unfold answers, undecided; rewrite E; split; reflexivity|by split]).
Qed.

(** The key of a request, then what it does when the key is free. *)
Lemma http_keyed i operation key payload f f0 (g : _ → stateful Front Response) :
  let k := call_key i operation key in
  let digest := payload_hash payload in
  desk f0 = desk f →
  (∀ r f1, desk f1 = desk f → g (k, digest, Some r) f1 = (Ok r, f1)) →
  (∀ f1, desk f1 = desk f → rows (desk f) !! k = None → http_settles k digest f (g (k, digest, None) f1)) →
  http_settles k digest f ((api_begin i operation (Some key) payload ≫= g) f0).
Proof.
  cbv zeta. intros E Hreplay Hfree.
  destruct (require_idempotency_key (Some key)) as [key'|e] eqn:Ekey.
  2:{ apply http_step; [done|by unfold api_begin; rewrite Ekey|]. unfold api_begin. by rewrite Ekey. }
  pose proof (idempotency_key_same _ _ Ekey) as [= <-].
  pose proof (api_begin_run i operation key payload f0 Ekey) as Hb. cbv zeta in Hb. rewrite E in Hb.
  destruct (rows (desk f) !! _) as [row|] eqn:Ek.
  - destruct (i_hash row =? _) eqn:Eh.
    + rewrite (stateful_run _ _ _ _ _ Hb), Hreplay by done. unfold http_settles. rewrite Ek. cbn.
      rewrite E. split; [unfold undecided; reflexivity|]. split; [done|]. split; [by apply String.eqb_eq|done].
    + destruct (conflict _) as [?|e'] eqn:Ec; [discriminate Ec|].
      rewrite (stateful_run_Raise _ _ _ _ _ Hb). by apply http_refused.
  - rewrite (stateful_run _ _ _ _ _ Hb). by apply Hfree.
Qed.

End routes.

(** ** The worker *)

(** The statuses [execute] and [retry] take up. *)
Definition workable (s : ResearchStatus) : bool := bool_decide (s ∈ [CREATED; FAILED; PARTIALLY_COMPLETED]).

Lemma retry_refused outside setup tenant actor id correlation w r :
  cancelled_at outside (ticks w) = false → get_run tenant id (research_db (store w)) = Some r →
  workable (run_status r) = false →
  ∃ e w', retry outside setup tenant actor id correlation w = (Raise e, w') ∧
    exn_cls e = ResearchTransitionRejected ∧ store w' = store w.
Proof.
  intros Hc Hr Hs. unfold retry.
  set (w1 := (question w).2).
  assert (_ensure_active outside w = (Ok tt, w1)) as Ea.
  { unfold _ensure_active, mbind, stateful_bind, question, guard_with, lift. cbn. by rewrite Hc. }
  rewrite (stateful_run _ _ _ _ _ Ea).
  assert (_required tenant id w1 = (Ok r, w1)) as Eq.
  { unfold _required, repository, zoom, transaction, mbind, stateful_bind, lift. cbn.
    rewrite Hr. cbn. by destruct w as [[]]. }
  assert (∃ m, validate_retry outside tenant id w1 = (raise ResearchTransitionRejected m, w1)) as [m Ev].
  { unfold validate_retry. eexists. rewrite (stateful_run _ _ _ _ _ Eq).
    unfold guard_with, lift, mbind, stateful_bind, require. rewrite bool_decide_false; [reflexivity|].
    intros Hin. unfold workable in Hs. apply bool_decide_eq_false in Hs. apply Hs. by right. }
  rewrite (stateful_run_Raise _ _ _ _ _ Ev). by eexists _, _.
Qed.

(** A job whose run neither waits to start nor may be retried (it is cancelled or completed, or a
    worker died in the middle of it) stops the worker that claims it: the exception leaves
    [run_once], and the job stays claimed until its lease expires. *)
Theorem finished_run_stops_worker outside setup policy worker token now later during lease_lost d job lease q r :
  claim policy worker token now (queue d) = Ok (Some (job, lease), q) →
  is_cancelled (job_tenant job) (job_id job) q = false →
  get_run (job_tenant job) (Jobs.research_run_id job) (research_db (store (world d))) = Some r →
  research_run_id r = Jobs.research_run_id job → cancelled_at outside (ticks (world d)) = false →
  workable (run_status r) = false →
  ∃ e w, work_once outside setup policy worker token now later during lease_lost d = (Raise e, mkDesk w q) ∧
    exn_cls e = ResearchTransitionRejected ∧ store w = store (world d).
Proof.
  intros Hclaim Hnc Hr Hid Hc Hs. unfold work_once.
  assert (on_queue (claim policy worker token now) d = (Ok (Some (job, lease)), mkDesk (world d) q)) as Eq
    by (unfold on_queue, zoom, transaction; by rewrite Hclaim).
  rewrite (stateful_run _ _ _ _ _ Eq).
  assert (bool_decide (job_status job = Jobs.CANCELLED) = false) as ->.
  { apply bool_decide_eq_false. unfold claim in Hclaim. apply bind_Ok in Hclaim as (_ & _ & Hclaim).
    destruct (py_sorted _ _) as [|[k row] l]; [done|]. injection Hclaim as <- _ _. done. }
  rewrite (stateful_run _ _ _ _ _ (eq_refl : gets _ _ = (Ok _, _))). cbn [queue]. rewrite Hnc.
  destruct (retry_refused outside setup (job_tenant job) (run_actor r) (research_run_id r)
    (Jobs.correlation_id job) (world d) r Hc) as (e & w & Er & He & Hw); [by rewrite Hid|done|].
  exists e, w. split; [|done]. apply stateful_run_Raise. unfold process.
  assert (on_world (repository (λ t, Ok (get_run (job_tenant job) (Jobs.research_run_id job) t, t))) (mkDesk (world d) q) =
    (Ok (Some r), mkDesk (world d) q)) as Eg.
  { unfold on_world, repository, zoom, transaction. cbn. rewrite Hr. by rewrite same_research. }
  rewrite (stateful_run _ _ _ _ _ Eg). cbn [or_raise]. rewrite (stateful_run _ _ _ _ _ (eq_refl : lift _ _ = (Ok _, _))).
  rewrite (stateful_run _ _ _ _ _ (eq_refl : gets _ _ = (Ok _, _))). cbn [queue]. rewrite Hnc.
  unfold handle. rewrite bool_decide_false by (intros E; rewrite E in Hs; done).
  assert (on_world (retry outside setup (job_tenant job) (run_actor r) (research_run_id r) (Jobs.correlation_id job))
    (mkDesk (world d) q) = (Raise e, mkDesk w q)) as Ew by (unfold on_world, zoom; cbn; by rewrite Er).
  rewrite (stateful_run_Raise _ _ _ _ _ Ew). by rewrite He.
Qed.
End front.

(** ** Instances *)
#[local] Existing Instances ascii_casefold accept_all sample_urls sample_naming sample_normalizer sample_floats.

Definition zeros_alg : HashAlg := λ _, "0000000000000000000000000000000000000000000000000000000000000000".
Definition noon_instants : Timestamptz := λ _, Some 0%Z.
Definition all_alnum : Alphanumeric := λ _, true.
Definition ascii_lower : CaseMapping := λ s, s.
#[local] Existing Instances zeros_alg noon_instants all_alnum ascii_lower.

Definition sample_desk : Desk := mkDesk sample_world (Jobs.mkTables ∅ [] ∅).
Definition researcher (r : Role) : Identity :=
  mkIdentity "ann" (mkTenant "t1") r HUMAN None [] {[r]} None [].
Definition sample_start (q : string) : ResearchStartInput :=
  mkStart (Some "d1") None ["c1"] q "en" ["en"] Mcp.QUICK 365 [] [] None None "k1".
Definition mcp_server (queued : bool) : Server := mkServer queued queued (mkMcpPolicy 20 10).
Definition call_start (queued : bool) (q : string) (d : Desk) : result pyval * Desk :=
  perform_tool (sample_outside 1000) sample_setup (mcp_server queued) (researcher VALIDATOR)
    (ResearchStart (sample_start q)) "corr-1" d.
Definition ok_of {A} (r : result A) : bool := match r with Ok _ => true | Raise _ => false end.

(** A query of more than fifty words passes the input model and not the contract. *)
Definition long_query : string := str_join " " (repeat "w" 51).

Lemma mcp_calls_settle_their_key_witness :
  (∃ response d', call_start true "is it so" sample_desk = (Ok response, d') ∧
     call_start true "is it so" d' = (Ok response, d')) ∧
  (call_start true long_query sample_desk).1 = raise ValueError "QUERY_TOO_LONG" ∧
  rows (call_start true long_query sample_desk).2 !! ("t1", "ann", "mcp:research_start", "k1") =
    Some (in_progress (payload_hash (start_json (sample_start long_query)))) ∧
  (call_start true long_query (call_start true long_query sample_desk).2).1 =
    mcp_error "CONFLICT" ["IDEMPOTENCY_REQUEST_IN_PROGRESS"].
Proof.
  assert (∀ q d, if admitted (researcher VALIDATOR) (ResearchStart (sample_start q)) d
    then settles ("t1", "ann", "mcp:research_start", "k1") (payload_hash (start_json (sample_start q)))
      (contract_refused (mcp_server true) (ResearchStart (sample_start q))) d (call_start true q d)
    else ∃ e, coded e ∧ call_start true q d = (Raise e, d)) as Hx
    by (intros q d; apply (mcp_calls_settle_their_key (sample_outside 1000) sample_setup (mcp_server true)); reflexivity).
  split; [|split; [vm_compute; reflexivity|split; vm_compute; reflexivity]].
  pose proof (Hx "is it so" sample_desk) as H1. unfold settles in H1.
  replace (admitted _ _ sample_desk) with true in H1 by (vm_compute; reflexivity).
  replace (rows sample_desk !! _) with (@None IdempotencyRow) in H1 by (vm_compute; reflexivity).
  destruct (succeeds_with_Ok (call_start true "is it so" sample_desk).1 (λ _, true)) as (response & E & _);
    [vm_compute; reflexivity|].
  exists response, (call_start true "is it so" sample_desk).2.
  split; [rewrite <-E; apply surjective_pairing|].
  rewrite E in H1. destruct H1 as [_ Er].
  pose proof (Hx "is it so" (call_start true "is it so" sample_desk).2) as H2. unfold settles in H2.
  replace (admitted _ _ _) with true in H2 by (vm_compute; reflexivity).
  rewrite Er in H2. exact H2.
Defined.

Lemma tools_within_authority_witness :
  ∃ r, r = call_tool (sample_outside 1000) sample_setup (mcp_server true) (Some (token_claims (researcher VALIDATOR)))
             (ResearchStart (sample_start "is it so")) "corr-1" "corr-2" sample_desk ∧
    (∃ response, r.1 = Ok response) ∧ undecided sample_database r.2 ∧ permits (researcher VALIDATOR) RESEARCH_CREATE = true.
Proof.
  eexists. split; [reflexivity|].
  destruct (tools_within_authority (sample_outside 1000) sample_setup (mcp_server true)
    (authenticate [("token", researcher VALIDATOR)]) "token" (Some (token_claims (researcher VALIDATOR)))
    (ResearchStart (sample_start "is it so")) "corr-1" "corr-2" sample_desk) as (Ha & Hu & Hp).
  - intros i. unfold authenticate. cbn [assoc]. intros E.
    destruct (_ =? _); cbn in E; [injection E as <-; vm_compute; reflexivity|discriminate E].
  - vm_compute. reflexivity.
  - split; [exact Ha|]. split; [exact Hu|].
    destruct Hp as (i & Hi & Hperm & _).
    + intros E. apply (f_equal (λ d, length (research_runs (both_tables d).1))) in E. vm_compute in E. discriminate E.
    + vm_compute in Hi. injection Hi as <-. exact Hperm.
Defined.

Definition call_submit (clock : Outside) (d : Desk) : result Submitted * Desk :=
  submit clock sample_setup "t1" "ann" sample_request (payload_hash (document_json draft_case)) "corr-1" None d.

Lemma submission_is_one_transaction_witness :
  ∃ s d' d'', call_submit (sample_outside 1000) sample_desk = (Ok s, d') ∧
    job_of_run (queue d') "t1" "research-1" = Some (sub_job s) ∧ replayed s = false ∧
    call_submit (sample_outside 1000) d' = (Ok (mkSubmitted (sub_run s) (sub_job s) true), d'') ∧
    both_tables d'' = both_tables d'.
Proof.
  pose proof (submission_is_one_transaction sample_setup (sample_outside 1000) "t1" "ann" sample_request
    (payload_hash (document_json draft_case)) "corr-1" None sample_desk (λ _, ex_intro _ 0%Z eq_refl)) as Hx.
  fold (call_submit (sample_outside 1000) sample_desk) in Hx.
  destruct (succeeds_with_Ok (call_submit (sample_outside 1000) sample_desk).1 (λ s, negb (replayed s))) as (s & E & Hr);
    [vm_compute; reflexivity|].
  rewrite (surjective_pairing (call_submit _ _)), E in Hx.
  destruct Hx as (_ & _ & _ & _ & _ & Hj & _ & _ & Hagain).
  destruct (Hagain (sample_outside 1000)) as (d'' & E2 & Ht).
  assert (research_run_id <$> (sub_run <$> (call_submit (sample_outside 1000) sample_desk).1) = Ok "research-1") as Eid
    by (vm_compute; reflexivity).
  rewrite E in Eid. injection Eid as Eid. rewrite Eid in Hj.
  exists s, (call_submit (sample_outside 1000) sample_desk).2, d''.
  split_and!; [rewrite <-E; apply surjective_pairing|exact Hj|by apply negb_true_iff|exact E2|exact Ht].
Defined.

(** *** A job whose run was cancelled over HTTP *)

Definition http_request : Request :=
  mkRequest "corr-2" (λ _, midday) (λ _, midday) pretty pretty "0.2.0".

(** The run is submitted, then cancelled by the route of the API, which leaves the job queued. *)
Definition cancelled_run : result Response * Front :=
  _action (sample_outside 1000) sample_setup CancelRun http_request (researcher VALIDATOR) (Some "k2") "research-1"
    (mkFront [] (call_submit (sample_outside 1000) sample_desk).2).

Definition claim_once (d : Desk) : result bool * Desk :=
  work_once (sample_outside 1000) sample_setup default_policy "worker" "token" 1 2 id false d.

Definition job_state (d : Desk) : option JobStatus := job_status <$> job_of_run (queue d) "t1" "research-1".

Theorem cancelled_run_stops_worker :
  (status_code <$> cancelled_run.1) = Ok 200%Z ∧
  job_state (desk cancelled_run.2) = Some Jobs.QUEUED ∧
  (claim_once (desk cancelled_run.2)).1 =
    raise ResearchTransitionRejected "RESEARCH_TRANSITION_NOT_ALLOWED:CANCELLED:RETRY" ∧
  job_state (claim_once (desk cancelled_run.2)).2 = Some Jobs.RUNNING.
Proof. vm_compute. auto. Qed.

(** *** A run whose search provider is down *)

Definition search_down : Outside := {|
  clock_at _ := midday;
  monotonic_at n := Z.of_nat n;
  cancelled_at _ := false;
  resolve_at _ _ := Ok ["93.184.216.34"];
  search_at _ c _ := Answer (RequestFailed (mkProviderError "search" "PROVIDER_UNAVAILABLE" true None None));
  extract_at _ _ _ := Answer (Answered (Extracted sample_content))
|}.

Definition outage : result bool * Desk :=
  work_once search_down sample_setup default_policy "worker" "token" 1 2 id false
    (call_submit (sample_outside 1000) sample_desk).2.

(** The failure is retryable, the run FAILED, and the job COMPLETED: nothing retries it. *)
Theorem failed_run_completes_job :
  outage.1 = Ok true ∧
  run_status <$> get_run "t1" "research-1" (both_tables outage.2).1 = Some FAILED ∧
  job_state outage.2 = Some Jobs.COMPLETED.
Proof. vm_compute. auto. Qed.
