(* ===== verification/HandoffProps.v ===== *)
(** * What a handoff does to a decision

    The evidence of a research run reaches a decision once, as an open question: the case it is
    attached to cannot pass an evaluation before the evidence has been dealt with. *)

From S2P Require Import Prelude PyVal Json Sha256 PyTime AuditChain Engine Document DecisionFile Samples DecisionFileProps DecisionStore Research ResearchEvidence ResearchStore Handoff CircuitBreaker UrlPolicy Orchestrator ResearchSamples OrchestratorFacts OrchestratorProps.
From stdpp Require Import options.

Section handoff.
Context `{HashAlg} `{ContractValidator}.

Lemma attach_known tenant id expected l s run_id d :
  l ≠ [] → single_run l = Ok run_id → is_ok (single_correlation l) = true →
  decisions (decision_db s) !! (tenant, id) = Some d →
  is_Some (research_handoffs (research_db s) !! (tenant, run_id, id, handoff_id l)) →
  attach tenant id expected l s = Ok (d, s).
Proof.
  intros Hl Hr Hc Hd Hh. unfold attach. destruct l as [|e l]; [done|]. rewrite Hr.
  destruct (single_correlation (e :: l)) as [c|]; [|done]. cbn [mbind result_bind].
  rewrite Hd. cbn [or_raise mbind result_bind]. by rewrite bool_decide_true.
Qed.

Lemma attach_grouped tenant id expected l s d s' :
  attach tenant id expected l s = Ok (d, s') → l ≠ [] ∧ is_ok (single_correlation l) = true.
Proof.
  unfold attach. destruct l as [|e l]; [done|]. intros (run_id & _ & E)%bind_Ok.
  apply bind_Ok in E as (c & Hc & _). by rewrite Hc.
Qed.

(** A handoff happens exactly once and settles nothing: repeated, with whatever hash, it
    returns the document it finds and changes nothing; the first time the document must be the
    draft the run was made for, it stays semantically valid and its trail chained, and once
    evidence has been added to it no evaluation lets the case pass. *)
Theorem handoff_settles_nothing tenant id expected l s d s' :
  Forall conservative l → attach tenant id expected l s = Ok (d, s') →
  (∀ expected', attach tenant id expected' l s' = Ok (d, s')) ∧
  (s' = s ∨ ∃ d0, decisions (decision_db s) !! (tenant, id) = Some d0 ∧
     status d0 = "DRAFT" ∧ payload_hash (document_json d0) = expected ∧
     decisions (decision_db s') !! (tenant, id) = Some d ∧
     evidence d = evidence d0 ++ new_items d0 l ∧ semantically_valid d ∧
     (trail_chained (Document.audit_events d0) → trail_chained (Document.audit_events d)) ∧
     (new_items d0 l ≠ [] → ∀ clock version d2 r,
        evaluate_decision_file clock version d = Ok (d2, r) → outcome r ≠ PASS)).
Proof.
  intros Hl Ha. pose proof (attach_grouped _ _ _ _ _ _ _ Ha) as [Hne Hc].
  destruct (attach_inv _ _ _ _ _ _ _ Ha) as
    [(Hd & -> & run_id & Hr & Hh)|(d0 & run_id & c & Hd & Hs & Hh & _ & Hr & _ & E & Hv & E1 & E2)].
  { split; [|by left]. intros expected'. by eapply attach_known. }
  assert (decisions (decision_db s') !! (tenant, id) = Some d) as Hd'.
  { rewrite E1. cbn. by rewrite lookup_insert_eq. }
  split.
  { intros expected'. eapply attach_known; [done..|]. rewrite E2. cbn. by rewrite lookup_insert_eq. }
  right. exists d0. apply check_document_valid in Hv as [_ Hv]. split_and!; try done.
  - by rewrite E.
  - intros Ht. rewrite E. by apply trail_chained_snoc.
  - intros Hn clock version d2 r (_ & Hr' & _)%evaluate_inv Hp.
    pose proof (attached_conservative tenant id c l d0 Hl Hs) as [_ _ _ _ _ _ _ _ _ _ (m & Hm & Hall) _ _].
    assert (new_items d0 l = m) as <-.
    { rewrite <-E in Hm. rewrite E in Hm. cbn in Hm. by apply app_inv_head in Hm. }
    apply (evaluation_outcome clock version d r (proj2 Hv) Hr') in Hp as [He _].
    destruct (new_items d0 l) as [|x m] eqn:En; [done|]. rewrite Forall_cons in Hall.
    destruct Hall as [Hx _]. apply (He x).
    + rewrite E. cbn [evidence attached_document]. rewrite En. apply elem_of_app. right. left.
    + rewrite !elem_of_cons, elem_of_nil in Hx. rewrite !elem_of_cons. tauto.
Qed.
End handoff.

(** The store after the sample request has been proposed, and the evidence of its run. *)
Definition sample_evidence : list DecisionEvidence :=
  [mkDecisionEvidence "research-00" "research-1" ["c1"] "research:research-1:research-00" "UNVERIFIED"
     "2026-03-01T12:00:00+00:00" "sha256:1" (Some "corr-1")].

Lemma sample_conservative : Forall conservative sample_evidence.
Proof. constructor; [unfold conservative; cbn; set_solver|constructor]. Qed.

Lemma handoff_settles_nothing_witness :
  ∃ d s', attach (H := constant_alg) (H0 := accept_all) "t1" "d1"
    (payload_hash (H := constant_alg) (document_json draft_case)) sample_evidence (store (executed 5)) = Ok (d, s') ∧
  (∀ clock version d2 r, evaluate_decision_file (H := constant_alg) (H0 := accept_all) clock version d = Ok (d2, r) →
     outcome r ≠ PASS).
Proof.
  destruct (attach (H := constant_alg) (H0 := accept_all) "t1" "d1"
    (payload_hash (H := constant_alg) (document_json draft_case)) sample_evidence (store (executed 5)))
    as [[d s']|e] eqn:E; [|vm_compute in E; discriminate E].
  exists d, s'. split; [done|].
  destruct (handoff_settles_nothing (H := constant_alg) (H0 := accept_all) _ _ _ _ _ _ _
    sample_conservative E) as [_ [->|(d0 & Hd & _ & _ & _ & _ & _ & _ & Hp)]].
  - exfalso. apply (f_equal (λ r, match r with Ok (_, s) => size (research_handoffs (research_db s)) | _ => 0 end)) in E.
    vm_compute in E. discriminate E.
  - apply Hp. vm_compute in Hd. injection Hd as <-. vm_compute. discriminate.
Defined.
