(* ===== verification/CircuitProps.v ===== *)
(** * What the circuit breaker guarantees

    A run of retryable failures as long as the threshold opens the circuit of its tenant and
    provider, and only that one; it stays open for the recovery time, lets one trial through and
    opens again when the trial fails. *)

From S2P Require Import Prelude PyVal Identity CircuitBreaker.
From stdpp Require Import options.

Section circuit.
Context (p : CircuitPolicy) (tenant provider : string).

(** The retryable failures at the given times. *)
Definition failing (times : list Z) (m : Circuits) : Circuits :=
  foldl (λ m t, (record_failure p tenant provider true t m).2) m times.
Definition refused (now : Z) (m : Circuits) : Prop :=
  before_call p tenant provider now m = (raise ProviderCircuitOpen "PROVIDER_CIRCUIT_OPEN", m).
Definition admitted (now : Z) (m m' : Circuits) : Prop := before_call p tenant provider now m = (Ok tt, m').

Context (Hkey : _key tenant provider = Ok (tenant, provider)).

Lemma record_failure_eq now m :
  (record_failure p tenant provider true now m).2 =
    let s := default (mkCircuit 0 0) (m !! (tenant, provider)) in
    <[(tenant, provider) := mkCircuit (failures s + 1)
        (if (failure_threshold p <=? failures s + 1)%Z then now + recovery_seconds p else opened_until s)%Z]> m.
Proof using Hkey. unfold record_failure. rewrite (stateful_run _ _ _ (tenant, provider) m); [done|]. by rewrite Hkey. Qed.

Lemma before_call_eq now m :
  before_call p tenant provider now m =
    match m !! (tenant, provider) with
    | None => (Ok tt, m)
    | Some s =>
        if (now <? opened_until s)%Z then (raise ProviderCircuitOpen "PROVIDER_CIRCUIT_OPEN", m)
        else if (opened_until s =? 0)%Z then (Ok tt, m)
        else (Ok tt, <[(tenant, provider) := mkCircuit (failure_threshold p - 1) 0]> m)
    end.
Proof using Hkey.
  unfold before_call. rewrite (stateful_run _ _ _ (tenant, provider) m) by (by rewrite Hkey).
  rewrite (stateful_run _ _ _ (m !! (tenant, provider)) m) by done.
  destruct (m !! (tenant, provider)) as [s|]; [|done].
  unfold guard_with, lift, require, mbind, stateful_bind.
  destruct (now <? opened_until s)%Z; [done|]. cbn. by destruct (opened_until s =? 0)%Z.
Qed.

Lemma failing_other times m k : k ≠ (tenant, provider) → failing times m !! k = m !! k.
Proof using Hkey.
  intros Hk. revert m. induction times as [|t times IH]; intros m; cbn [failing foldl]; [done|].
  change (foldl _ ?m times) with (failing times m). rewrite IH, record_failure_eq. cbv zeta.
  by rewrite lookup_insert_ne.
Qed.

(** The state after a run of failures that started closed. *)
Lemma failing_state times m :
  (1 <= failure_threshold p)%Z → m !! (tenant, provider) = None → times ≠ [] →
  failing times m !! (tenant, provider) =
    Some (mkCircuit (Z.of_nat (length times))
      (if (failure_threshold p <=? Z.of_nat (length times))%Z then List.last times 0 + recovery_seconds p else 0)%Z).
Proof using Hkey.
  intros Hp Hm. induction times as [|t times IH] using rev_ind; [done|]. intros _.
  unfold failing. rewrite foldl_app. cbn [foldl]. fold (failing times m). rewrite record_failure_eq.
  cbv zeta. rewrite lookup_insert_eq, last_last, length_app.
  destruct (decide (times = [])) as [->|Hn].
  - cbn. rewrite Hm. cbn. done.
  - rewrite IH by done. cbn [default failures opened_until length id].
    replace (Z.of_nat (length times + 1)) with (Z.of_nat (length times) + 1)%Z by lia.
    f_equal. f_equal. destruct (_ <=? Z.of_nat (length times) + 1)%Z eqn:E; [done|].
    rewrite (proj2 (Z.leb_gt _ _)); [done|]. apply Z.leb_gt in E. lia.
Qed.

(** The breaker opens exactly when it should: with a valid policy and a closed circuit,
    fewer consecutive retryable failures than the threshold leave calls admitted; at the
    threshold every call before the recovery time has passed since the last failure is refused;
    then one trial is admitted, and its failure refuses calls for the recovery time again while
    its success closes the circuit; and no other tenant or provider notices anything. *)
Theorem breaker_opens second times m :
  circuit_policy second p = Ok p → (0 < second)%Z → times ≠ [] → Forall (λ t, (0 <= t)%Z) times →
  m !! (tenant, provider) = None →
  let m' := failing times m in
  (∀ k, k ≠ (tenant, provider) → m' !! k = m !! k) ∧
  ((Z.of_nat (length times) < failure_threshold p)%Z → ∀ now, (0 <= now)%Z → admitted now m' m') ∧
  (Z.of_nat (length times) = failure_threshold p →
   (∀ now, (now < List.last times 0 + recovery_seconds p)%Z → refused now m') ∧
   ∀ now, (List.last times 0 + recovery_seconds p <= now)%Z → ∃ m2, admitted now m' m2 ∧
     (∀ now2 later, (later < now2 + recovery_seconds p)%Z →
        refused later (record_failure p tenant provider true now2 m2).2) ∧
     (record_success tenant provider m2).2 !! (tenant, provider) = None).
Proof using Hkey.
  intros Hpol Hsec Hne Hnn Hm m'. unfold circuit_policy in Hpol.
  apply bind_Ok in Hpol as (? & Hpol%require_Ok & _). bool_prop.
  destruct Hpol as [[[H1%Z.leb_le _] Hr%Z.leb_le] _].
  pose proof (failing_state times m H1 Hm Hne) as Hs. fold m' in Hs.
  assert (0 <= List.last times 0)%Z as Hlast.
  { destruct (exists_last Hne) as (l & t & ->). rewrite last_last.
    rewrite Forall_app in Hnn. destruct Hnn as [_ Ht]. by inversion Ht. }
  split_and!.
  - intros k Hk. by apply failing_other.
  - intros Hlt now Hnow. unfold admitted. rewrite before_call_eq, Hs.
    rewrite (proj2 (Z.leb_gt _ _) Hlt). cbn [opened_until].
    by rewrite (proj2 (Z.ltb_ge _ _)) by lia.
  - intros Heq. rewrite (proj2 (Z.leb_le _ _)) in Hs by lia. split.
    + intros now Hnow. unfold refused. rewrite before_call_eq, Hs. cbn [opened_until].
      by rewrite (proj2 (Z.ltb_lt _ _)).
    + intros now Hnow. exists (<[(tenant, provider) := mkCircuit (failure_threshold p - 1) 0]> m'). split_and!.
      * unfold admitted. rewrite before_call_eq, Hs. cbn [opened_until].
        rewrite (proj2 (Z.ltb_ge _ _)) by lia. by rewrite (proj2 (Z.eqb_neq _ _)) by lia.
      * intros now2 later Hlater. unfold refused. rewrite before_call_eq, record_failure_eq. cbv zeta.
        rewrite !lookup_insert_eq. cbn [default failures opened_until id].
        rewrite (proj2 (Z.leb_le _ _)) by lia. cbn [opened_until]. by rewrite (proj2 (Z.ltb_lt _ _)).
      * unfold record_success. rewrite (stateful_run _ _ _ (tenant, provider) _) by (by rewrite Hkey).
        cbn. by rewrite lookup_delete_eq.
Qed.
End circuit.

Lemma breaker_opens_witness :
  refused (mkCircuitPolicy 2 30) "t1" "search" 35 (failing (mkCircuitPolicy 2 30) "t1" "search" [5; 9]%Z ∅).
Proof.
  apply (proj2 (proj2 (breaker_opens (mkCircuitPolicy 2 30) "t1" "search" eq_refl 1 [5; 9]%Z ∅ eq_refl
    eq_refl ltac:(done) ltac:(repeat constructor; lia) eq_refl))); reflexivity.
Defined.
