(* ===== verification/UrlPolicyProps.v ===== *)
(** * What an admitted URL satisfies

    The checks of the URL policy as one proposition, its domain rules as a relation on names, and
    the canonical path free of empty, current and parent components. *)

From S2P Require Import Prelude PyVal Identity PyDecimal ResearchEvidence UrlPolicy Samples ResearchSamples.
From stdpp Require Import options.

(** [domain] is [rule] or a name under it. *)
Definition under (domain rule : string) : Prop := domain = rule ∨ ∃ name, domain = name +:+ "." +:+ rule.

Lemma substring_all s : String.substring 0 (String.length s) s = s.
Proof. induction s as [|c s IH]; cbn; [done|]. by rewrite IH. Qed.

Lemma substring_app s t : String.substring (String.length s) (String.length t) (s +:+ t) = t.
Proof. induction s as [|c s IH]; [apply substring_all|]. rewrite str_app_cons. cbn. apply IH. Qed.

Lemma substring_split n s :
  n ≤ String.length s → s = String.substring 0 n s +:+ String.substring n (String.length s - n) s.
Proof.
  revert n. induction s as [|c s IH]; intros [|n] Hn; cbn in *; try lia; [done| |].
  - by rewrite substring_all.
  - rewrite str_app_cons. f_equal. apply IH. lia.
Qed.

Lemma str_endswith_spec suffix s : str_endswith suffix s = true ↔ ∃ p, s = p +:+ suffix.
Proof.
  unfold str_endswith. rewrite andb_true_iff, Nat.leb_le, String.eqb_eq. split.
  - intros [Hl E]. exists (String.substring 0 (String.length s - String.length suffix) s).
    rewrite <-E at 2. rewrite (substring_split (String.length s - String.length suffix) s) at 1 by lia.
    by replace (String.length s - (String.length s - String.length suffix)) with (String.length suffix) by lia.
  - intros [p ->]. rewrite str_length_app. split; [lia|].
    replace (String.length p + String.length suffix - String.length suffix) with (String.length p) by lia.
    apply substring_app.
Qed.

Lemma matches_under domain rule : _matches domain rule = true ↔ under domain rule.
Proof. unfold _matches, under. by rewrite orb_true_iff, String.eqb_eq, str_endswith_spec. Qed.

(** ** Paths *)
Definition plain_component (c : string) : Prop := c ∉ [""; "."; ".."].

Lemma normal_components_plain kept l :
  Forall plain_component kept → Forall plain_component (normal_components true kept l).
Proof.
  revert kept. induction l as [|c l IH]; intros kept Hk; cbn [normal_components]; [done|].
  destruct (str_in c [""; "."]) eqn:E1; [by apply IH|]. bool_prop.
  destruct (negb (c =? "..") || negb true && bool_decide (kept = []) ||
            match kept with k :: _ => k =? ".." | [] => false end) eqn:E2; apply IH.
  - constructor; [|done]. cbn [negb] in E2. rewrite andb_false_l, orb_false_r in E2. bool_prop.
    unfold plain_component. destruct E2 as [E2|E2]; [rewrite !not_elem_of_cons in *; naive_solver|].
    destruct kept as [|k kept]; [done|]. apply Forall_cons in Hk as [Hk _].
    apply String.eqb_eq in E2 as ->. destruct Hk. rewrite !elem_of_cons. tauto.
  - destruct kept; [done|]. by apply Forall_cons in Hk as [_ Hk].
Qed.

Lemma startswith_app s t u : str_startswith s t = true → str_startswith s (t +:+ u) = true.
Proof.
  revert t. induction s as [|c s IH]; intros [|d t]; try done.
  rewrite str_app_cons. cbn [str_startswith]. rewrite !andb_true_iff. intros [Hc Hs].
  split; [done|]. by apply IH.
Qed.

Lemma normpath_plain path :
  str_startswith "/" path = true →
  ∃ root components, normpath path = root +:+ str_join "/" components ∧
    Forall plain_component components ∧ root ∈ ["/"; "//"].
Proof.
  intros Hp. unfold normpath. destruct path as [|c path]; [done|]. rewrite Hp. cbn [String.eqb].
  set (root := if _ && _ then "//" else "/").
  assert (root ∈ ["/"; "//"]) as Hroot by (unfold root; case_match; [right; left|left]).
  exists root, (rev (normal_components true [] (split_slashes "" (String c path)))).
  assert ((root +:+ str_join "/" (rev (normal_components true [] (split_slashes "" (String c path)))) =? "") = false)
    as -> by (apply String.eqb_neq; unfold root; by case_match).
  split_and!; [done| |done]. apply Forall_rev. by apply normal_components_plain.
Qed.

Lemma canonical_path_plain path :
  path = "" ∨ str_startswith "/" path = true →
  ∃ root components slash, canonical_path path = root +:+ str_join "/" components +:+ slash ∧
    Forall plain_component components ∧ root ∈ ["/"; "//"] ∧ slash ∈ [""; "/"].
Proof.
  intros Hp. unfold canonical_path.
  assert (str_startswith "/" (if path =? "" then "/" else path) = true) as Hr.
  { destruct Hp as [->|Hp]; [done|]. by destruct path. }
  destruct (normpath_plain _ Hr) as (root & components & E & Hc & Hroot). rewrite E.
  set (slash := if str_endswith "/" path && negb (str_endswith "/" (root +:+ str_join "/" components))
                then "/" else "").
  assert (∀ b : bool, (if b then "/" else "") ∈ [""; "/"]) as Hslash by (intros []; [right; left|left]).
  exists root, components, slash. split_and!; [|done|done|apply Hslash].
  assert ((if str_endswith "/" path && negb (str_endswith "/" (root +:+ str_join "/" components))
           then (root +:+ str_join "/" components) +:+ "/" else root +:+ str_join "/" components) =
          root +:+ str_join "/" components +:+ slash) as ->.
  { unfold slash. destruct (str_endswith "/" path && _); [by rewrite str_app_assoc|by rewrite str_app_nil_r]. }
  rewrite (startswith_app "/" root); [done|].
  rewrite !elem_of_cons, elem_of_nil in Hroot. by destruct Hroot as [->|[->|[]]].
Qed.

Section policy.
Context `{CaseFolding} `{UrlLibrary}.

(** What [validate] asks of a URL, with the domain it yields. *)
Record admissible (p : PublicUrlPolicy) (resolve : string → result (list string)) (parsed : SplitUrl)
    (domain : string) : Prop := mkAdmissible {
  is_https : casefold (scheme parsed) = "https";
  no_credentials : username parsed = None ∧ password parsed = None;
  has_host : ∃ host, hostname parsed = Some host ∧ host ≠ "" ∧ normalize_domain host = Ok domain;
  default_port : port parsed = Ok None ∨ port parsed = Ok (Some 443%Z);
  not_local : domain ≠ "localhost" ∧ domain ≠ "localhost.localdomain" ∧ ¬ ∃ name, domain = name +:+ ".localhost";
  not_blocked : ∀ rule, rule ∈ _blocked p → ¬ under domain rule;
  is_allowed : _allowed p = [] ∨ ∃ rule, rule ∈ _allowed p ∧ under domain rule;
  all_public : ∃ literal, addresses resolve domain = Ok literal ∧ literal ≠ [] ∧
    ∀ a, a ∈ literal → _is_public a = true
}.

Lemma host_and_port_Ok host prt domain po :
  host_and_port host prt = Ok (domain, po) ↔ normalize_domain host = Ok domain ∧ prt = Ok po.
Proof.
  unfold host_and_port. destruct (normalize_domain host) as [d|e], prt as [q|e']; cbn;
    repeat case_match; split; try naive_solver.
Qed.

Lemma str_endswith_false suffix s : str_endswith suffix s = false ↔ ¬ ∃ p, s = p +:+ suffix.
Proof. rewrite <-str_endswith_spec. by destruct (str_endswith suffix s). Qed.

Lemma admit_url_spec p resolve parsed domain :
  admit_url p resolve parsed = Ok domain ↔ admissible p resolve parsed domain.
Proof.
  unfold admit_url. split.
  - intros Ha. apply bind_Ok in Ha as (? & H1%require_Ok%String.eqb_eq & Ha).
    apply bind_Ok in Ha as (? & H2%require_Ok & Ha). apply bind_Ok in Ha as (host & Hh & Ha).
    apply bind_Ok in Ha as ([d po] & [Hd Hp]%host_and_port_Ok & Ha).
    apply bind_Ok in Ha as (? & H3%require_Ok & Ha). apply bind_Ok in Ha as (? & H4%require_Ok & Ha).
    apply bind_Ok in Ha as (? & H5%require_Ok & Ha). apply bind_Ok in Ha as (? & H6%require_Ok & Ha).
    apply bind_Ok in Ha as (literal & Hl & Ha). apply bind_Ok in Ha as (? & H7%require_Ok & Ha).
    injection Ha as ->. bool_prop. split; try done.
    + exists host. destruct (hostname parsed) as [[|c s]|]; [done| |done]. injection Hh as <-. by split_and!.
    + rewrite Hp. destruct H3 as [->| ->]; [by left|by right].
    + destruct H4 as [Hn He]. rewrite str_endswith_false in He. rewrite !not_elem_of_cons in Hn. naive_solver.
    + intros rule Hr. rewrite existsb_false_Forall, Forall_forall in H5.
      rewrite <-matches_under, (H5 rule Hr). done.
    + destruct H6 as [H6|H6]; [by left|right]. apply existsb_true_Exists, Exists_exists in H6 as (rule & Hr & Hm).
      exists rule. by rewrite <-matches_under.
    + exists literal. split_and!; [done|by destruct H7|]. destruct H7 as [_ H7].
      rewrite forallb_true_Forall, Forall_forall in H7. exact H7.
  - intros [H1 [H2 H2'] (host & Hh & Hne & Hd) Hp (H4 & H4' & H4'') H5 H6 (literal & Hl & Hn & Hpub)].
    apply bind_Ok. exists tt. split; [by apply require_Ok, String.eqb_eq|].
    apply bind_Ok. exists tt. split; [by apply require_Ok; rewrite !bool_decide_true|].
    apply bind_Ok. exists host. split; [rewrite Hh; by destruct host|].
    apply bind_Ok. destruct Hp as [Hp|Hp]; eexists (domain, _); (split; [by apply host_and_port_Ok|]).
    all: apply bind_Ok; exists tt; split; [by apply require_Ok|].
    all: apply bind_Ok; exists tt; split; [apply require_Ok; bool_prop; rewrite str_endswith_false,
      !not_elem_of_cons; split_and!; try done; apply not_elem_of_nil|].
    all: apply bind_Ok; exists tt; split; [apply require_Ok; bool_prop; rewrite existsb_false_Forall, Forall_forall;
      intros rule Hr; apply not_true_iff_false; rewrite matches_under; by apply H5|].
    all: apply bind_Ok; exists tt; split; [apply require_Ok; bool_prop; destruct H6 as [H6|(rule & Hr & Hm)];
      [by left|right; apply existsb_true_Exists, Exists_exists; exists rule; by rewrite matches_under]|].
    all: apply bind_Ok; exists literal; split; [done|].
    all: apply bind_Ok; exists tt; split; [apply require_Ok; bool_prop; split;
      [done|by rewrite forallb_true_Forall, Forall_forall]|done].
Qed.

End policy.

(** An example: a name that merely ends like an allowed domain is not under it. *)
Example lookalike_not_under : _matches "evil-example.org" "example.org" = false ∧
  _matches "docs.example.org" "example.org" = true.
Proof. by split. Qed.
Example parents_resolved : canonical_path "/a/./b/../c/" = "/a/c/".
Proof. reflexivity. Qed.

