(* ===== verification/EgressProps.v ===== *)
(** * What an accepted configuration guarantees, and what egress control lets through

    The residency policy and the checks of a deployed configuration as propositions, and the
    guard of egress as one: a call passes exactly when everything the policy asks for holds and
    the decision was recorded. *)

From S2P Require Import Prelude PyVal JsonNumber JsonLoads Identity PyTime PyDecimal ResearchEvidence Research Jobs UrlPolicy Config Egress ResearchSamples.
From stdpp Require Import options.

(** ** Residency *)

(** The locations of the data at rest and of those who may see it. *)
Definition own_locations (r : DataResidencyPolicy) : list (list string) :=
  [storage_locations r; processing_locations r; backup_locations r; support_access_locations r].

Definition residency_holds (r : DataResidencyPolicy) (mode : OperatingMode) : Prop :=
  (∀ l, l ∈ own_locations r → l ≠ []) ∧
  match mode with
  | DEVELOPMENT_PROVIDER_INTEGRATION =>
      (∀ l, l ∈ own_locations r → l = ["local-development"]) ∧
      external_processing_locations r = ["external-unspecified"]
  | LOCAL =>
      (∀ l, l ∈ own_locations r → l = ["local"]) ∧
      (∀ x, x ∈ external_processing_locations r → x = "local")
  | EU_MANAGED | CONTROLLED_PILOT =>
      (∀ l x, l ∈ own_locations r → x ∈ l → x ∈ _EU_COUNTRY_CODES) ∧
      (∀ x, x ∈ external_processing_locations r → x ∈ _EU_COUNTRY_CODES) ∧
      evidence_refs r ≠ [] ∧ (∀ x, x ∈ evidence_refs r → str_startswith "https://" x = true)
  end.

Lemma forallb_elem {A} (f : A → bool) l : forallb f l = true ↔ ∀ x, x ∈ l → f x = true.
Proof. by rewrite forallb_true_Forall, Forall_forall. Qed.

Lemma require_tt b c msg : require b c msg = Ok tt ↔ b = true.
Proof. apply require_Ok. Qed.

(** A sequence of checks passes when every one does. *)
Lemma require_bind_tt b c msg (m : result unit) :
  (_ ← require b c msg; m) = Ok tt ↔ b = true ∧ m = Ok tt.
Proof. destruct b; cbn; naive_solver. Qed.

Lemma eu_checks r :
  (_ ← require (forallb (λ l, str_in l _EU_COUNTRY_CODES)
                  (concat (own_locations r) ++ external_processing_locations r)) ValueError "EU_DATA_LOCATION_REQUIRED";
   _ ← require (negb (bool_decide (evidence_refs r = []))) ValueError "EU_RESIDENCY_EVIDENCE_REQUIRED";
   require (forallb (str_startswith "https://") (evidence_refs r))
     ValueError "INVALID_RESIDENCY_EVIDENCE_REFERENCE") = Ok tt ↔
  (∀ l x, l ∈ own_locations r → x ∈ l → x ∈ _EU_COUNTRY_CODES) ∧
  (∀ x, x ∈ external_processing_locations r → x ∈ _EU_COUNTRY_CODES) ∧
  evidence_refs r ≠ [] ∧ (∀ x, x ∈ evidence_refs r → str_startswith "https://" x = true).
Proof.
  rewrite !require_bind_tt, require_tt, !forallb_elem, negb_true_iff, bool_decide_eq_false.
  setoid_rewrite elem_of_app. setoid_rewrite elem_of_concat. setoid_rewrite str_in_spec. naive_solver.
Qed.

Lemma validate_for_spec r mode : validate_for r mode = Ok tt ↔ residency_holds r mode.
Proof.
  unfold validate_for, residency_holds. fold (own_locations r). rewrite require_bind_tt, forallb_elem.
  setoid_rewrite negb_true_iff. setoid_rewrite bool_decide_eq_false.
  apply and_iff_compat_l. destruct mode.
  - rewrite require_bind_tt, forallb_elem, require_tt, bool_decide_eq_true.
    setoid_rewrite bool_decide_eq_true. done.
  - rewrite require_bind_tt, require_tt, !forallb_elem. setoid_rewrite bool_decide_eq_true.
    setoid_rewrite String.eqb_eq. done.
  - apply eu_checks.
  - apply eu_checks.
Qed.

(** ** Configurations *)

Section config.
Context `{CaseFolding} `{Uppercase} `{UrlLibrary} `{PurePaths}.

(** Where a provider of a deployed configuration may process. *)
Definition location_allowed (mode : OperatingMode) (r : DataResidencyPolicy) (e : ProviderEgress) : Prop :=
  (mode = LOCAL → processing_location e = "local") ∧
  (mode = EU_MANAGED → processing_location e ∈ _EU_COUNTRY_CODES) ∧
  processing_location e ∈ external_processing_locations r.

Definition hosts_match (c : RuntimeConfig) : Prop :=
  ∀ h, h ∈ map host (provider_egress c) ↔ h ∈ map host_key (egress_allowed_hosts c).

Record deployed_config (c : RuntimeConfig) : Prop := {
  dep_residency : ∃ mode r, operating_mode c = Some mode ∧ data_residency c = Some r ∧
    mode ≠ DEVELOPMENT_PROVIDER_INTEGRATION ∧ residency_holds r mode ∧
    ∀ e, e ∈ provider_egress c → location_allowed mode r e;
  dep_backend : database_backend c = POSTGRESQL;
  dep_oidc : authentication_mode c = OIDC ∧ ∃ o, oidc c = Some o ∧
    allow_insecure_loopback (oidc_policy o) = false ∧ authorized_parties (oidc_policy o) ≠ [] ∧
    required_scopes (oidc_policy o) ≠ [];
  dep_secrets : secret_provider c = EXTERNAL;
  dep_hosts : provider_egress c ≠ [] ∧ NoDup (map host (provider_egress c)) ∧ hosts_match c
}.

Lemma same_set_spec l m : same_set l m = true ↔ ∀ x, x ∈ l ↔ x ∈ m.
Proof.
  unfold same_set. rewrite andb_true_iff, !forallb_elem. setoid_rewrite str_in_spec. naive_solver.
Qed.

Lemma all_ok_spec {A} (f : A → result unit) l : all_ok f l = Ok tt ↔ ∀ x, x ∈ l → f x = Ok tt.
Proof.
  induction l as [|x l IH]; cbn; [split; [by intros _ x ?%elem_of_nil|done]|].
  rewrite bind_Ok. split.
  - intros ([] & Hx & Hl) y [->|Hy]%elem_of_cons; [done|by apply IH].
  - intros Hf. exists tt. split; [apply Hf; left|apply IH; intros; apply Hf; by right].
Qed.

Lemma provider_location_spec mode r e : provider_location mode r e = Ok tt ↔ location_allowed mode r e.
Proof.
  unfold provider_location, location_allowed. rewrite !require_bind_tt, require_tt, str_in_spec.
  rewrite !orb_true_iff, !negb_true_iff, !bool_decide_eq_false, str_in_spec, String.eqb_eq.
  destruct (decide (mode = LOCAL)), (decide (mode = EU_MANAGED)); tauto.
Qed.

Lemma validate_deployed_spec c : validate_deployed c = Ok tt → deployed_config c.
Proof.
  unfold validate_deployed. intros Hv. inv_ok.
  rewrite all_ok_spec in Hv. rename Hv into Hall.
  match goal with H : validate_for _ _ = Ok ?u |- _ => destruct u; apply validate_for_spec in H; rename H into Hres end.
  destruct (authentication_mode c) eqn:Ea, (oidc c) as [o|] eqn:Eo; try discriminate; simplify_eq.
  repeat match goal with
    | H : negb _ = true |- _ => apply negb_true_iff in H
    | H : bool_decide _ = false |- _ => apply bool_decide_eq_false in H
    | H : bool_decide _ = true |- _ => apply bool_decide_eq_true in H
    | H : same_set _ _ = true |- _ => rewrite same_set_spec in H
    end.
  split; try done.
  - eexists _, _. split_and!; try done. intros e He. by apply provider_location_spec, Hall.
  - split; [done|]. by eexists.
Qed.

(** ** Literal secrets *)

Inductive key_within (k : string) : pyval → Prop :=
  | key_here v d : (k, v) ∈ d → key_within k (PDict d)
  | key_below k' v d : (k', v) ∈ d → key_within k v → key_within k (PDict d).

Lemma has_literal_secret_spec v :
  has_literal_secret v = true ↔ ∃ k, key_within k v ∧ casefold k ∈ forbidden_keys.
Proof.
  induction v as [|b|z|t|s|l IH|d IH] using pyval_ind_nested;
    try (split; [done|]; intros (k & Hk & _); by inversion Hk).
  cbn [has_literal_secret]. rewrite existsb_true_Exists, Exists_exists. rewrite Forall_forall in IH.
  setoid_rewrite orb_true_iff. setoid_rewrite str_in_spec. split.
  - intros ([k v] & Hin & [Hk|Hv]); [exists k; split; [by eapply key_here|done]|].
    apply IH in Hv as (k' & Hk' & Hf); [|done]. exists k'. split; [by eapply key_below|done].
  - intros (k & Hk & Hf). inversion Hk as [v d' Hin|k' v d' Hin Hv]; subst.
    + exists (k, v). auto.
    + exists (k', v). split; [done|]. right. apply (IH (k', v) Hin). eauto.
Qed.

(** ** What the identity provider of a configuration is *)

Definition trusted_oidc (o : OidcRuntimeConfig) : Prop :=
  allow_insecure_loopback (oidc_policy o) = false →
  ∃ i u, urlsplit (issuer (oidc_policy o)) = Ok i ∧ urlsplit (jwks_uri o) = Ok u ∧
    scheme i = "https" ∧ scheme u = "https" ∧ hostname u = hostname i ∧ port u = port i ∧
    (∀ a, a ∈ algorithms (oidc_policy o) → a ∈ ["RS256"; "ES256"]).

Lemma oidc_policy_of_Ok p q :
  oidc_policy_of p = Ok q →
  q = p ∧ (∀ a, a ∈ algorithms p → a ∈ ["RS256"; "ES256"]) ∧
  (allow_insecure_loopback p = false → ∃ i, urlsplit (issuer p) = Ok i ∧ scheme i = "https").
Proof.
  unfold oidc_policy_of. intros Hp. inv_ok. split; [done|].
  match goal with H : _ && forallb _ _ = true |- _ => apply andb_true_iff in H as [_ Ha] end.
  rewrite forallb_elem in Ha. setoid_rewrite str_in_spec in Ha. split; [done|]. intros Hl.
  eexists. split; [done|]. rewrite Hl in *.
  match goal with H : negb (negb (scheme ?u =? _) && _ || _ || _ || _ || _ || _ || _) = true |- _ =>
    destruct (String.eqb_spec (scheme u) "https"); [done|discriminate H] end.
Qed.

Lemma oidc_runtime_config_Ok c d :
  oidc_runtime_config c = Ok d →
  d = c ∧ ∃ u i, urlsplit (jwks_uri c) = Ok u ∧ urlsplit (issuer (oidc_policy c)) = Ok i ∧
    scheme u = scheme i ∧ hostname u = hostname i ∧ port u = port i.
Proof.
  unfold oidc_runtime_config. intros Hc. inv_ok.
  match goal with H : (if ?b then _ else _) = Ok _ |- _ => destruct b; [discriminate H|] end.
  unfold same_origin in *. inv_ok. split; [done|]. eexists _, _. split; [done|]. split; [done|].
  match goal with H : (_ && _ && _) = true |- _ =>
    rewrite !andb_true_iff, !bool_decide_eq_true, String.eqb_eq in H; destruct H as [[E1 E2] E3] end.
  split_and!; congruence.
Qed.

Lemma oidc_config_trusted raw o : oidc_config raw = Ok (Some o) → trusted_oidc o.
Proof.
  destruct raw as [| | | | | |raw]; try done. cbn [oidc_config]. intros Hc. inv_ok.
  match goal with H : oidc_policy_of _ = Ok _ |- _ => apply oidc_policy_of_Ok in H as (-> & Halg & Hs) end.
  match goal with H : oidc_runtime_config _ = Ok _ |- _ =>
    apply oidc_runtime_config_Ok in H as (-> & u & i & Hu & Hi & E1 & E2 & E3) end.
  intros Hl. destruct (Hs Hl) as (i' & Hi' & Hi's). cbn [oidc_policy issuer] in *. simplify_eq.
  exists i, u. split_and!; try done; congruence.
Qed.

(** The outcome of the constructor, and the parts it is called with. *)
Lemma runtime_config_Ok c d :
  runtime_config c = Ok d →
  d = c ∧ (operating_mode c = Some CONTROLLED_PILOT ↔ is_Some (controlled_pilot c)) ∧
  (is_deployed (profile c) = true → deployed_config c).
Proof.
  unfold runtime_config. intros Hc. inv_ok. split; [done|]. split.
  - case_bool_decide; inv_ok; bool_prop; rewrite ?bool_decide_eq_true in *; [naive_solver|].
    match goal with H : controlled_pilot d = None |- _ => rewrite H end. split; [done|by intros []].
  - intros Hd. rewrite Hd in *. apply validate_deployed_spec.
    match goal with H : validate_deployed d = Ok ?u |- _ => by destruct u end.
Qed.

Lemma from_mapping_parts raw c :
  from_mapping raw = Ok c →
  has_literal_secret (PDict raw) = false ∧ runtime_config c = Ok c ∧
  oidc_config (lookup_or raw "oidc" PNone) = Ok (oidc c) ∧
  worker_config (match lookup_or raw "worker" (PDict []) with PDict d => d | _ => [] end) = Ok (worker_policy c).
Proof.
  unfold from_mapping, _reject_literal_secrets. intros Hf. inv_ok. bool_prop.
  match goal with H : runtime_config _ = Ok _ |- _ =>
    pose proof H as Hr; apply runtime_config_Ok in H as (-> & _ & _) end.
  split_and!; try done. cbn [worker_policy].
  match goal with H : match lookup_or raw "worker" _ with _ => _ end = Ok _ |- _ =>
    destruct (lookup_or raw "worker" _); try discriminate H; by simplify_eq end.
Qed.

Lemma job_policy_valid p q : job_policy p = Ok q → job_policy q = Ok q.
Proof. intros Hp. pose proof Hp as Hq. unfold job_policy in Hq. by inv_ok. Qed.


(** ** What the guard lets through *)

(** The development boundary: synthetic data to a provider that declares itself. *)
Definition development_boundary (e : ProviderEgress) : Prop :=
  processing_location e = "external-unspecified" ∧
  evidence_type (attestation e) = "OPERATOR_SELF_DECLARATION" ∧
  verification_status (attestation e) = "UNVERIFIED".

(** Verified third-party evidence, in force now, for the location in question. *)
Definition evidence_in_force (now : Z) (e : ProviderEgress) : Prop :=
  let a := attestation e in
  evidence_type a ∈ ["DPA"; "SIGNED_PROVIDER_ATTESTATION"; "TECHNICAL_PROVIDER_CONFIGURATION"] ∧
  verification_status a = "VERIFIED" ∧ text_truthy (verified_by a) = true ∧
  (∃ text issued from expires verified,
     verified_at a = Some text ∧ text ≠ "" ∧ _parse_time text = Ok verified ∧
     _parse_time (issued_at a) = Ok issued ∧ _parse_time (valid_from a) = Ok from ∧
     _parse_time (att_expires_at a) = Ok expires ∧
     issued ≤ now ∧ from ≤ now ∧ verified ≤ now ∧ now < expires)%Z ∧
  processing_location e ∈ confirmed_processing_locations e ∧
  str_startswith "https://" (evidence_ref a) = true ∧ att_issuer a ≠ "".

(** The URL goes to a host of the allowlist, over https, at the default port, without
    credentials. *)
Definition on_allowlist (c : RuntimeConfig) (url target : string) : Prop :=
  ∃ u p, urlsplit url = Ok u ∧ port u = Ok p ∧ scheme u = "https" ∧ username u = None ∧ password u = None ∧
    (p = None ∨ p = Some 443%Z) ∧ _host url ∈ map host_key (egress_allowed_hosts c) ∧
    (∀ h, h ∈ map host_key (egress_allowed_hosts c) → _valid_public_hostname h = true) ∧
    target = urlunsplit "https" (casefold (netloc u)) (if url_path u =? "" then "/" else url_path u) (url_query u) "".

(** The entry of the configuration a call belongs to: the first one for its host and provider. *)
Definition entry_of (c : RuntimeConfig) (name url : string) (e : ProviderEgress) : Prop :=
  List.find (λ e, (host e =? _host url) && (provider e =? name)) (provider_egress c) = Some e.

Definition permitted (g : Guard) (now : Z) (tenant name connector url target : string) : Prop :=
  ∃ c mode r e,
    config_supplier g = Some c ∧ (∀ p, expected_profile g = Some p → profile c = p) ∧
    operating_mode c = Some mode ∧ data_residency c = Some r ∧ residency_holds r mode ∧
    tenant_id_matches tenant = true ∧ on_allowlist c url target ∧
    entry_of c name url e ∧ service e = connector ∧
    ("*" ∈ tenant_ids e ∨ tenant ∈ tenant_ids e) ∧
    processing_location e ∈ external_processing_locations r ∧
    if bool_decide (profile c = DEVELOPMENT) && bool_decide (mode = DEVELOPMENT_PROVIDER_INTEGRATION)
    then development_boundary e else evidence_in_force now e.

Lemma egress_allowlist_Ok hosts l :
  egress_allowlist hosts = Ok l ↔
  l = py_sorted String.leb (fromkeys (map host_key hosts)) ∧ hosts ≠ [] ∧
  ∀ h, h ∈ map host_key hosts → _valid_public_hostname h = true.
Proof.
  unfold egress_allowlist. set (n := py_sorted _ _).
  assert (∀ h, h ∈ n ↔ h ∈ map host_key hosts) as Hn.
  { intros h. unfold n. by rewrite py_sorted_perm, elem_of_fromkeys. }
  assert (n = [] ↔ hosts = []) as Hnil.
  { split; intros E.
    - destruct hosts as [|h hosts]; [done|]. assert (host_key h ∈ n) as Hh by (apply Hn; left).
      rewrite E in Hh. by apply elem_of_nil in Hh.
    - unfold n. by rewrite E. }
  assert (negb (bool_decide (n = [])) && forallb _valid_public_hostname n = true ↔
    hosts ≠ [] ∧ ∀ h, h ∈ map host_key hosts → _valid_public_hostname h = true) as Hb.
  { rewrite andb_true_iff, negb_true_iff, bool_decide_eq_false, forallb_elem, Hnil. by setoid_rewrite Hn. }
  rewrite <-Hb. destruct (_ && _); cbn; naive_solver.
Qed.

Lemma valid_host_nonempty h : _valid_public_hostname h = true → h ≠ "".
Proof. intros Hv ->. unfold _valid_public_hostname in Hv. by destruct (ip_address ""). Qed.

Lemma split_with_port_Ok url u p : split_with_port url = Ok (u, p) ↔ urlsplit url = Ok u ∧ port u = Ok p.
Proof.
  unfold split_with_port. destruct (urlsplit url) as [v|]; cbn; [|split; [|intros []]; discriminate].
  destruct (port v) eqn:E; cbn; (split; [intros [=]; subst; done|intros [[=] ?]; subst; congruence]).
Qed.

Lemma allowlist_spec c tenant url target :
  (hosts ← egress_allowlist (egress_allowed_hosts c); _ ← tenant_context tenant; allowlist_validate hosts url)
    = Ok target ↔ tenant_id_matches tenant = true ∧ on_allowlist c url target.
Proof.
  rewrite bind_Ok. setoid_rewrite egress_allowlist_Ok. unfold tenant_context. split.
  - intros (l & (-> & Hne & Hv) & Ha). inv_ok. split; [done|]. unfold allowlist_validate in Ha. inv_ok.
    match goal with H : split_with_port url = _ |- _ => apply split_with_port_Ok in H as [Hu Hp] end.
    match goal with H : _ && _ = true |- _ =>
      rewrite !andb_true_iff, !orb_true_iff, !bool_decide_eq_true, String.eqb_eq, str_in_spec,
        py_sorted_perm, elem_of_fromkeys in H; destruct_and! end.
    eexists _, _. split_and!; try done. unfold _host. by rewrite Hu.
  - intros [Ht (u & p & Hu & Hp & Hs & Hn & Hw & Hport & Hh & Hv & ->)].
    eexists. split; [split_and!; [done| |done]|].
    { intros E. rewrite E in Hh. by apply elem_of_nil in Hh. }
    rewrite Ht. cbn [require mbind result_bind]. unfold allowlist_validate.
    rewrite (proj2 (split_with_port_Ok url u p)) by done. cbn [mbind result_bind].
    unfold _host in Hh. rewrite Hu in Hh. pose proof (Hv _ Hh) as Hvh.
    rewrite Hs, Hn, Hw, Hvh. rewrite (proj2 (str_in_spec _ _)) by by rewrite py_sorted_perm, elem_of_fromkeys.
    apply valid_host_nonempty, String.eqb_neq in Hvh as ->.
    by destruct Hport as [-> | ->].
Qed.

(** The four timestamps of an attestation, read in the order of the code. *)
Definition times (text : string) (a : ProviderAttestation) : result (Z * Z * Z * Z) :=
  issued ← _parse_time (issued_at a); from ← _parse_time (valid_from a);
  expires ← _parse_time (att_expires_at a); verified ← _parse_time text;
  Ok (issued, from, expires, verified).

Lemma times_Ok text a i f x v :
  times text a = Ok (i, f, x, v) ↔
  _parse_time text = Ok v ∧ _parse_time (issued_at a) = Ok i ∧ _parse_time (valid_from a) = Ok f ∧
  _parse_time (att_expires_at a) = Ok x.
Proof. unfold times. split; [intros Ht; by inv_ok|]. by intros (-> & -> & -> & ->). Qed.

Lemma attested_spec now e r : attested now e = Ok r → (r = None ↔ evidence_in_force now e).
Proof.
  unfold attested, evidence_in_force. set (a := attestation e).
  destruct (String.eqb_spec (evidence_type a) "OPERATOR_SELF_DECLARATION") as [E1|E1].
  { intros [= <-]. split; [done|]. intros (Ht & _). rewrite E1 in Ht. by elem_cases Ht. }
  destruct (String.eqb_spec (verification_status a) "VERIFIED") as [E2|E2]; cbn [negb].
  2:{ intros [= <-]. split; [done|]. by intros (_ & ? & _). }
  destruct (verified_at a) as [text|] eqn:Ev; cbn [text_truthy andb negb].
  2:{ intros [= <-]. split; [done|]. by intros (_ & _ & _ & (? & ? & ? & ? & ? & ? & _) & _). }
  destruct (String.eqb_spec text "") as [->|Ht]; cbn [negb andb].
  { intros [= <-]. split; [done|]. intros (_ & _ & _ & (? & ? & ? & ? & ? & [= <-] & ? & _) & _). done. }
  destruct (text_truthy (verified_by a)) eqn:E4; cbn [negb].
  2:{ intros [= <-]. split; [done|]. by intros (_ & _ & ? & _). }
  cbn [default from_option id]. fold (times text a).
  destruct (times text a) as [[[[i f] x] v]|er] eqn:Et.
  2:{ destruct (is_value_error _); [|done]. intros [= <-]. split; [done|].
      intros (_ & _ & _ & (t & i & f & x & v & [= <-] & _ & Hv & Hi & Hf & Hx & _) & _).
      by rewrite (proj2 (times_Ok text a i f x v)) in Et. }
  apply times_Ok in Et as (Hv & Hi & Hf & Hx).
  assert ((∃ t i f x v, Some text = Some t ∧ t ≠ "" ∧ _parse_time t = Ok v ∧
     _parse_time (issued_at a) = Ok i ∧ _parse_time (valid_from a) = Ok f ∧
     _parse_time (att_expires_at a) = Ok x ∧ i ≤ now ∧ f ≤ now ∧ v ≤ now ∧ now < x)%Z ↔
     (i ≤ now ∧ f ≤ now ∧ v ≤ now ∧ now < x)%Z) as ->.
  { split; [|intros Hle; by exists text, i, f, x, v].
    intros (t & i' & f' & x' & v' & [= <-] & _ & Hv' & Hi' & Hf' & Hx' & Hle). congruence. }
  destruct (Z.leb_spec x now); [intros [= <-]; split; [done|]; lia|].
  destruct ((now <? i)%Z || (now <? f)%Z || (now <? v)%Z || (x <=? f)%Z) eqn:Eb.
  { intros [= <-]. split; [done|]. rewrite !orb_true_iff, !Z.ltb_lt, Z.leb_le in Eb. lia. }
  rewrite !orb_false_iff, !Z.ltb_ge, Z.leb_gt in Eb.
  destruct (str_in (evidence_type a) _) eqn:Ety; cbn [negb].
  2:{ intros [= <-]. split; [done|]. intros [Hin _]. by apply str_in_false in Ety. }
  apply str_in_spec in Ety.
  case_bool_decide as Ec.
  { intros [= <-]. split; [done|]. intros (_ & _ & _ & _ & Hin & _). rewrite Ec in Hin. by apply elem_of_nil in Hin. }
  destruct (str_in (processing_location e) _) eqn:El; cbn [negb].
  2:{ intros [= <-]. split; [done|]. intros (_ & _ & _ & _ & Hin & _). by apply str_in_false in El. }
  apply str_in_spec in El.
  destruct (str_startswith "https://" (evidence_ref a)); cbn [negb orb].
  2:{ intros [= <-]. split; [done|]. by intros (_ & _ & _ & _ & _ & ? & _). }
  destruct (String.eqb_spec (att_issuer a) ""); intros [= <-]; split; try done; [by intros (_ & _ & _ & _ & _ & _ & ?)|].
  intros _. split_and!; try done; lia.
Qed.

(** A call the guard blocked is not permitted: some condition of [permitted] fails. *)
Ltac not_permitted Hj :=
  injection Hj as <-; split; [done|]; unfold permitted, entry_of in *;
  intros (? & ? & ? & ? & ? & ? & ? & ? & ? & ? & ? & ? & ? & ? & ? & ?); simplify_eq.

(** What the evidence must be, by boundary. *)
Definition evidence_suffices (now : Z) (c : RuntimeConfig) (mode : OperatingMode) (e : ProviderEgress) : Prop :=
  if bool_decide (profile c = DEVELOPMENT) && bool_decide (mode = DEVELOPMENT_PROVIDER_INTEGRATION)
  then development_boundary e else evidence_in_force now e.

Lemma allowlist_fun c url t u : on_allowlist c url t → on_allowlist c url u → t = u.
Proof.
  intros (v & p & Hv & _ & _ & _ & _ & _ & _ & _ & ->) (w & q & Hw & _ & _ & _ & _ & _ & _ & _ & ->).
  rewrite Hv in Hw. by injection Hw as ->.
Qed.

(** Once everything up to the entry is settled, the evidence decides. *)
Lemma permitted_entry g now tenant name connector url c mode r e u target :
  config_supplier g = Some c → (∀ p, expected_profile g = Some p → profile c = p) →
  operating_mode c = Some mode → data_residency c = Some r → residency_holds r mode →
  tenant_id_matches tenant = true → on_allowlist c url u → entry_of c name url e → service e = connector →
  ("*" ∈ tenant_ids e ∨ tenant ∈ tenant_ids e) →
  processing_location e ∈ external_processing_locations r →
  permitted g now tenant name connector url target ↔ target = u ∧ evidence_suffices now c mode e.
Proof.
  intros Ec Hp Em Er Hr Ht Hu He Es Hten Hl. split.
  - intros (c' & mode' & r' & e' & Ec' & _ & Em' & Er' & _ & _ & Hon & He' & _ & _ & _ & Hcond).
    unfold entry_of in *. simplify_eq. split; [by eapply allowlist_fun|done].
  - intros [-> Hc]. by exists c, mode, r, e.
Qed.

(** The verdict, and nothing else, decides. *)
Lemma judge_spec g now tenant name connector url v target :
  judge g now tenant name connector url = Ok v →
  verdict_url v = Some target ↔ permitted g now tenant name connector url target.
Proof.
  unfold judge. intros Hj.
  destruct (config_supplier g) as [c|] eqn:Ec; [|not_permitted Hj; congruence].
  destruct (match expected_profile g with Some p => _ | None => false end) eqn:Ep.
  { not_permitted Hj. destruct (expected_profile g) as [p|]; [|done].
    rewrite bool_decide_true in Ep; [done|naive_solver]. }
  destruct (operating_mode c) as [mode|] eqn:Em; [|not_permitted Hj; congruence].
  destruct (data_residency c) as [r|] eqn:Er; [|not_permitted Hj; congruence].
  destruct (validate_for r mode) as [[]|er] eqn:Ev.
  2:{ not_permitted Hj. match goal with H : residency_holds _ _ |- _ => apply validate_for_spec in H end. congruence. }
  apply validate_for_spec in Ev.
  pose proof (allowlist_spec c tenant url) as Hal.
  destruct (hosts ← egress_allowlist (egress_allowed_hosts c); _) as [u|er] eqn:Eu.
  2:{ not_permitted Hj. assert (Raise er = Ok target) by (apply Hal; done). discriminate. }
  destruct (proj1 (Hal u) eq_refl) as [Hten Hu].
  destruct (List.find _ (provider_egress c)) as [e|] eqn:Ef; [|not_permitted Hj; congruence].
  change (entry_of c name url e) in Ef.
  destruct (String.eqb_spec (service e) connector) as [Es|Es]; cbn [negb] in Hj;
    [|not_permitted Hj; congruence].
  destruct (negb (str_in "*" (tenant_ids e)) && negb (str_in tenant (tenant_ids e))) eqn:Et.
  { not_permitted Hj. apply andb_true_iff in Et as [E1 E2].
    rewrite negb_true_iff, str_in_false in E1, E2. tauto. }
  apply andb_false_iff in Et. rewrite !negb_false_iff, !str_in_spec in Et.
  destruct (str_in (processing_location e) (external_processing_locations r)) eqn:El; cbn [negb] in Hj.
  2:{ not_permitted Hj. by apply str_in_false in El. }
  apply str_in_spec in El.
  rewrite (permitted_entry _ _ _ _ _ _ c mode r e u) by (try done;
    intros p E; rewrite E in Ep; by apply negb_false_iff, bool_decide_eq_true in Ep).
  unfold evidence_suffices. destruct (bool_decide (profile c = DEVELOPMENT) && _).
  - unfold development_boundary. destruct (_ || _) eqn:Eb; injection Hj as <-; cbn [verdict_url].
    + rewrite !orb_true_iff, !negb_true_iff, !String.eqb_neq in Eb. naive_solver.
    + rewrite !orb_false_iff, !negb_false_iff, !String.eqb_eq in Eb. naive_solver.
  - apply bind_Ok in Hj as (o & Ho & [= <-]). apply attested_spec in Ho. destruct o; cbn [verdict_url]; naive_solver.
Qed.

(** Egress fails closed: a call of a provider goes out exactly when its decision was recorded
    and everything the policy asks for holds: the expected profile, a residency policy that
    holds for the operating mode, an https URL of the allowlist without credentials, an entry of
    the configuration for this host, provider and connector that admits the tenant and declares
    the location, and the evidence its boundary requires, verified and in force at this moment.
    The recorded decision says ALLOWED exactly then, and names tenant, actor, provider and host. *)
Theorem egress_fail_closed g c name connector url d k :
  authorize_egress g c name connector url = Ok (d, k) →
  ∃ now, utc_micros (guard_clock g) = Ok now ∧
  (∀ recorded target, k recorded = Ok target ↔
     recorded = true ∧ permitted g now (rc_tenant c) name connector url target) ∧
  (eg_decision d = "ALLOWED" ↔ ∃ target, permitted g now (rc_tenant c) name connector url target) ∧
  eg_tenant d = rc_tenant c ∧ eg_actor d = rc_actor c ∧ eg_provider d = name ∧ eg_host d = _host url.
Proof.
  unfold authorize_egress. intros Ha. apply bind_Ok in Ha as (now & Hn & Ha).
  apply bind_Ok in Ha as (v & Hv & [= <- <-]). exists now. split; [done|].
  pose proof (λ t, judge_spec _ _ _ _ _ _ _ t Hv) as Hj. split_and!; try done.
  - intros recorded target. rewrite <-Hj. destruct recorded; [|naive_solver].
    destruct (verdict_url v); naive_solver.
  - cbn [eg_decision egress_event]. setoid_rewrite <-Hj. case_bool_decide as Hd; [done|].
    split; [done|]. intros [t Ht]. destruct Hd. by rewrite Ht.
Qed.

(** A deployed system sends nothing to a provider outside its residency: under an accepted
    configuration for staging or production, whatever URL a call asks for, when the guard lets
    it through its provider processes locally or in a member state of the EU, serves this
    tenant, and is covered by verified evidence in force at that moment. *)
Theorem deployed_egress raw config g c name connector url d k target :
  from_mapping raw = Ok config → is_deployed (profile config) = true → config_supplier g = Some config →
  authorize_egress g c name connector url = Ok (d, k) → k true = Ok target →
  ∃ now e, utc_micros (guard_clock g) = Ok now ∧ e ∈ provider_egress config ∧ provider e = name ∧
    host e = _host url ∧ host e ∈ map host_key (egress_allowed_hosts config) ∧
    (processing_location e = "local" ∨ processing_location e ∈ _EU_COUNTRY_CODES) ∧
    ("*" ∈ tenant_ids e ∨ rc_tenant c ∈ tenant_ids e) ∧ evidence_in_force now e.
Proof.
  intros Hraw Hdep Hg Ha Hk. unfold authorize_egress in Ha. apply bind_Ok in Ha as (now & Hn & Ha).
  apply bind_Ok in Ha as (v & Hv & [= _ <-]). cbn in Hk.
  destruct (verdict_url v) as [t|] eqn:Et; [injection Hk as <-|discriminate].
  apply (judge_spec _ _ _ _ _ _ _ _ Hv) in Et
    as (config' & mode & r & e & Hg' & _ & Hm & Hr & Hres & _ & _ & He & _ & Hten & Hl & Hev).
  rewrite Hg in Hg'. injection Hg' as <-.
  destruct (from_mapping_parts _ _ Hraw) as (_ & Hc & _ & _).
  apply runtime_config_Ok in Hc as (_ & _ & Hd). destruct (Hd Hdep) as [(mode' & r' & Hm' & Hr' & Hmode & _ & Hloc) _ _ _ (_ & _ & Hh)].
  rewrite Hm in Hm'; rewrite Hr in Hr'. injection Hm' as <-. injection Hr' as <-.
  apply find_some in He as [Hin Heq]. rewrite <-list_elem_of_In in Hin.
  apply andb_true_iff in Heq as [Hhost%String.eqb_eq Hprov%String.eqb_eq].
  rewrite (bool_decide_false (mode = _)), andb_false_r in Hev by done.
  exists now, e. split_and!; try done.
  - apply Hh, list_elem_of_fmap. by exists e.
  - destruct (Hloc e Hin) as (Hlocal & _ & Hext). destruct Hres as [_ Hres]. destruct mode; [done|left; naive_solver|..];
      right; by apply Hres.
Qed.
End config.

(** ** A production configuration and a call under it *)
Section samples.
Definition upper_ascii : Uppercase := λ s, s.
Definition plain_paths : PurePaths := {|
  posix_is_absolute := str_startswith "/"; posix_parts := split_slashes "";
  windows_is_absolute _ := false; windows_parts _ := []
|}.
#[local] Existing Instances ascii_casefold upper_ascii sample_urls plain_paths.

Definition texts (l : list string) : pyval := PList (map PStr l).

Definition sample_attestation : pyval := PDict
  [("evidence_id", PStr "dpa-1"); ("evidence_type", PStr "DPA"); ("evidence_ref", PStr "https://example.org/dpa");
   ("issuer", PStr "Example"); ("issued_at", PStr "2026-01-01T00:00:00Z");
   ("valid_from", PStr "2026-01-01T00:00:00Z"); ("expires_at", PStr "2027-01-01T00:00:00Z");
   ("verification_status", PStr "VERIFIED"); ("verified_at", PStr "2026-02-01T00:00:00Z");
   ("verified_by", PStr "security@example.org")].

Definition sample_raw : mapping :=
  [("profile", PStr "production"); ("operating_mode", PStr "eu-managed");
   ("data_residency", PDict
     [("storage_locations", texts ["DE"]); ("processing_locations", texts ["DE"; "AT"]);
      ("backup_locations", texts ["FR"]); ("support_access_locations", texts ["AT"]);
      ("external_processing_locations", texts ["DE"]); ("evidence_refs", texts ["https://example.org/eu"])]);
   ("database_backend", PStr "postgresql"); ("authentication_mode", PStr "oidc");
   ("oidc", PDict
     [("issuer", PStr "https://id.example.org"); ("audience", PStr "api"); ("algorithms", texts ["RS256"]);
      ("authorized_parties", texts ["ui"]); ("required_scopes", texts ["decisions"]);
      ("jwks_uri", PStr "https://id.example.org/jwks")]);
   ("egress_allowed_hosts", texts ["Example.org"]); ("secret_provider", PStr "external");
   ("database_dsn_secret", PStr "dsn"); ("worker_database_dsn_secret", PStr "worker-dsn");
   ("provider_egress", PList
     [PDict [("provider", PStr "openai"); ("service", PStr "search"); ("host", PStr "example.org");
             ("processing_location", PStr "DE"); ("confirmed_processing_locations", texts ["DE"]);
             ("tenant_ids", texts ["t1"]); ("attestation", sample_attestation)]])].

Definition sample_config : option RuntimeConfig :=
  match from_mapping sample_raw with Ok c => Some c | Raise _ => None end.

Definition sample_guard : Guard := mkGuard sample_config midday (Some PRODUCTION).
Definition sample_context : EgressRequestContext := mkRequestContext "t1" "ann" "corr".


Lemma egress_fail_closed_witness :
  ∃ d k, authorize_egress sample_guard sample_context "openai" "search" "https://example.org/q" = Ok (d, k) ∧
    eg_decision d = "ALLOWED" ∧ is_ok (k true) = true ∧ is_ok (k false) = false ∧
    ∃ now target, permitted sample_guard now "t1" "openai" "search" "https://example.org/q" target.
Proof.
  destruct (authorize_egress sample_guard sample_context "openai" "search" "https://example.org/q") as [[d k]|e] eqn:E;
    [|vm_compute in E; discriminate E].
  exists d, k. split; [done|].
  destruct (egress_fail_closed _ _ _ _ _ _ _ E) as (now & _ & _ & Hd & _).
  vm_compute in E. injection E as <- <-. split_and!; try reflexivity. exists now. by apply Hd.
Defined.

Lemma deployed_egress_witness :
  match from_mapping sample_raw with
  | Ok c => ∃ now e, e ∈ provider_egress c ∧ processing_location e = "DE" ∧ evidence_in_force now e
  | Raise _ => False end.
Proof.
  destruct (from_mapping sample_raw) as [c|e] eqn:E; [|vm_compute in E; discriminate E].
  destruct (authorize_egress (mkGuard (Some c) midday None) sample_context "openai" "search" "https://example.org/q")
    as [[d k]|e] eqn:Ea; [|vm_compute in E; injection E as <-; vm_compute in Ea; discriminate Ea].
  destruct (k true) as [target|e] eqn:Ek;
    [|vm_compute in E; injection E as <-; vm_compute in Ea; injection Ea as <- <-; discriminate Ek].
  destruct (deployed_egress sample_raw c (mkGuard (Some c) midday None) sample_context "openai" "search" "https://example.org/q" d k target E)
    as (now & e & _ & Hin & _ & _ & _ & _ & _ & Hev); [vm_compute in E; by injection E as <-|done..|].
  exists now, e. split_and!; [done| |done].
  vm_compute in E. injection E as <-. cbn in Hin. by elem_cases Hin; rewrite Hin.
Defined.
End samples.
