(* ===== verification/ProvidersProps.v ===== *)
(** * What the providers of research let out, and what they let in

    A request leaves only after the decision that allows it is stored with the run
    ([provider_requests_recorded]); what comes back is an answer whose results are bounded,
    numbered and grounded in the summary, or content of the page that was asked for, or an error
    of the provider ([provider_answers_checked]). *)

From S2P Require Import Prelude PyVal JsonNumber Json JsonLoads Sha256 PyTime PyDecimal AuditChain Identity I18n Document DecisionStore Research ResearchEvidence ResearchStore ResearchProps Handoff CircuitBreaker UrlPolicy Config Egress Orchestrator Providers Samples ResearchSamples OrchestratorFacts OrchestratorProps EgressProps.
From stdpp Require Import options.

(** The orchestrator at a conversation: its ledger takes the decisions, the network answers the
    request, and the requests are listed. *)
Fixpoint play `{HashAlg} {A} (tenant : string) (network : HttpCall → HttpOutcome) (p : conversation A) :
    orchestration (outcome_of A * list HttpCall) :=
  match p with
  | Return o => mret (o, [])
  | Decision d k => recorded ← record_egress tenant d; play tenant network (k recorded)
  | Post c k => '(o, posted) ← play tenant network (k (network c)); mret (o, c :: posted)
  | Report _ _ k => play tenant network k
  end.

(** How a conversation may end, whatever the ledger and the network answer. *)
Inductive ends {A} : conversation A → outcome_of A → Prop :=
  | ends_return o : ends (Return o) o
  | ends_decision d k recorded o : ends (k recorded) o → ends (Decision d k) o
  | ends_post c k answer o : ends (k answer) o → ends (Post c k) o
  | ends_report status reason k o : ends k o → ends (Report status reason k) o.

(** One of them: the ledger records every decision. *)
Fixpoint ending {A} (network : HttpCall → HttpOutcome) (p : conversation A) : outcome_of A :=
  match p with
  | Return o => o
  | Decision _ k => ending network (k true)
  | Post c k => ending network (k (network c))
  | Report _ _ k => ending network k
  end.
Lemma ending_ends {A} network (p : conversation A) : ends p (ending network p).
Proof. induction p; cbn; econstructor; eauto. Qed.

Section playing.
Context `{HashAlg}.

(** It is the script the orchestrator runs. *)
Lemma play_script {A} tenant network (p : conversation A) w :
  run_script tenant (provider_script network p) w =
    match play tenant network p w with
    | (Ok (o, _), w') => (Ok o, w')
    | (Raise e, w') => (Raise e, w')
    end.
Proof.
  revert w. induction p as [o|d k IH|c k IH|s r k IH]; intros w; cbn; [done| | |apply IH].
  - unfold mbind, stateful_bind. destruct (record_egress tenant d w) as [[b|e] w']; [apply IH|done].
  - rewrite IH. unfold mbind, stateful_bind. by destruct (play tenant network (k (network c)) w) as [[[o l]|e] w'].
Qed.

(** The decision is recorded exactly when the run with it is stored. *)
Lemma record_egress_run tenant d w :
  match record_egress tenant d w with
  | (Ok true, w') => get_run tenant (research_run_id (run w)) (research_db (store w')) = Some (append_egress_decision d (run w))
  | (Ok false, w') => store w' = store w
  | (Raise _, _) => False
  end.
Proof.
  unfold record_egress, handle, change_run, modify, mbind, stateful_bind. rewrite save_run_eq.
  cbn [run set_run store].
  destruct (save tenant _ _) as [t|e] eqn:Es; cbn; [|done].
  apply save_inv in Es as (_ & [row Hrow] & [E _ _ _]). cbn in Hrow, E.
  unfold get_run. cbn [research_db store set_research set_store].
  rewrite (find_run_runs (set_runs (update_run (tenant, research_run_id (run w)) (append_egress_decision d (run w))
    (research_runs (research_db (store w)))) (research_db (store w))) _ _ E).
  by rewrite find_run_update, Hrow, bool_decide_true.
Qed.
End playing.

Create HintDb conversations.

Section requests.
Context `{HashAlg} `{CaseFolding} `{Uppercase} `{UrlLibrary} `{PurePaths} `{ReadFloat}.

(** ** What leaves *)

(** Neither a decision nor a request: the conversation returns. *)
Definition quiet {A} (p : conversation A) : Prop := ∀ tenant network w, ∃ o, play tenant network p w = (Ok (o, []), w).

Lemma quiet_return {A} (o : outcome_of A) : quiet (Return o).
Proof. intros tenant network w. by exists o. Qed.
Lemma quiet_report {A} status reason (p : conversation A) : quiet p → quiet (Report status reason p).
Proof. intros Hp tenant network w. apply Hp. Qed.
Hint Resolve quiet_return quiet_report : conversations.

(** At most one request, after its decision was allowed and stored with the run. *)
Definition cleared (g : Guard) (c : option EgressRequestContext) (name connector endpoint : string)
    (tenant : string) (w w' : World) (call : HttpCall) : Prop :=
  ∃ ctx d k, c = Some ctx ∧ authorize_egress g ctx name connector endpoint = Ok (d, k) ∧
    k true = Ok (call_url call) ∧
    get_run tenant (research_run_id (run w)) (research_db (store w')) = Some (append_egress_decision d (run w)).

Definition one_cleared {A} g c name connector endpoint (shape : HttpCall → Prop) tenant network w (p : conversation A) : Prop :=
  ∃ o posted w', play tenant network p w = (Ok (o, posted), w') ∧
    (posted = [] ∨ ∃ call, posted = [call] ∧ shape call ∧ cleared g c name connector endpoint tenant w w' call).

Lemma quiet_cleared {A} g c name connector endpoint shape tenant network w (p : conversation A) :
  quiet p → one_cleared g c name connector endpoint shape tenant network w p.
Proof. intros Hp. destruct (Hp tenant network w) as [o E]. exists o, [], w. by split; [|left]. Qed.

Lemma refused_without_record (g : Guard) ctx name connector endpoint d k url :
  authorize_egress g ctx name connector endpoint = Ok (d, k) → k false = Ok url → False.
Proof.
  unfold authorize_egress. intros Ha. apply bind_Ok in Ha as (now & _ & Ha).
  apply bind_Ok in Ha as (v & _ & [= _ <-]). done.
Qed.

Lemma guarded_cleared {A} g c name connector endpoint timed_out headers body timeout
    (failed : string → bool → conversation A) answered tenant network w :
  (∀ reason b, quiet (failed reason b)) → (∀ r, quiet (answered r)) →
  one_cleared g c name connector endpoint (λ call, call_headers call = headers ∧ call_body call = body)
    tenant network w (guarded_post g c name connector endpoint timed_out headers body timeout failed answered).
Proof.
  intros Hf Ha. unfold guarded_post.
  set (stop := λ reason b, Report None reason (failed reason b)).
  set (rejected := λ e : exn, if bool_decide (exn_cls e = EgressRejected) then stop (str_join "" (exn_args e)) false else Return Crashed).
  assert (∀ e, quiet (rejected e)) as Hr by (intros e; unfold rejected; case_bool_decide; [unfold stop; apply quiet_report, Hf|apply quiet_return]).
  destruct (authorize_current g c name connector endpoint) as [[d k]|e] eqn:E; [|apply quiet_cleared, (Hr e)].
  destruct c as [ctx|]; [|done]. cbn [authorize_current] in E.
  unfold one_cleared. cbn [play]. unfold mbind at 1, stateful_bind at 1.
  pose proof (record_egress_run tenant d w) as Hrec.
  destruct (record_egress tenant d w) as [[recorded|e] w1]; [|done].
  destruct (k recorded) as [url|e] eqn:Ek.
  2:{ destruct (Hr e tenant network w1) as [o Eo]. exists o, [], w1. split; [exact Eo|by left]. }
  destruct recorded; [|by destruct (refused_without_record _ _ _ _ _ _ _ _ E Ek)].
  set (call := mkHttpCall url headers body timeout).
  assert (quiet (match network call with
    | HttpTimeout => stop timed_out true | HttpFailed => stop "PROVIDER_UNAVAILABLE" true
    | HttpCrashed => Return Crashed | HttpAnswered r => answered r end)) as Hq
    by (destruct (network call); [unfold stop; apply quiet_report, Hf..|apply quiet_return|apply Ha]).
  destruct (Hq tenant network w1) as [o Eo]. exists o, [call], w1. cbn [play].
  split; [exact (stateful_run _ _ _ _ _ Eo)|]. right. exists call. split_and!; [done..|].
  exists ctx, d, k. by split_and!.
Qed.

Lemma one_cleared_weaken {A} g c name connector endpoint (P Q : HttpCall → Prop) tenant network w (p : conversation A) :
  (∀ call, P call → Q call) → one_cleared g c name connector endpoint P tenant network w p →
  one_cleared g c name connector endpoint Q tenant network w p.
Proof.
  intros HPQ (o & posted & w' & E & Hp). exists o, posted, w'. split; [done|].
  destruct Hp as [|(call & ? & ? & ?)]; [by left|right]. exists call. auto.
Qed.

Lemma quiet_search_failure reason b status after : quiet (search_fails reason b status after).
Proof. apply quiet_return. Qed.
Lemma quiet_extraction_failure reason b status after : quiet (extraction_fails reason b status after).
Proof. apply quiet_return. Qed.
Hint Resolve quiet_search_failure quiet_extraction_failure : conversations.

Lemma quiet_normalize_search r limit at_ : quiet (normalize_search r limit at_).
Proof. unfold normalize_search. repeat case_match; auto with conversations. Qed.
Lemma quiet_normalize_scrape p resolve at_ q domain r : quiet (normalize_scrape p resolve at_ q domain r).
Proof. unfold normalize_scrape. repeat case_match; auto with conversations. Qed.
Hint Resolve quiet_normalize_search quiet_normalize_scrape : conversations.

Definition search_call (p : OpenAIWebSearchProvider) (q : SearchQuery) (call : HttpCall) : Prop :=
  ∃ key, openai_key p = Some key ∧ call_headers call = bearer_headers key ∧ call_body call = search_body p q.

Lemma openai_cleared p g c at_ q tenant network w :
  one_cleared g c openai_id openai_version (openai_base p +:+ "/v1/responses") (search_call p q) tenant network w
    (openai_search p g c at_ q).
Proof.
  unfold openai_search. destruct (negb _); [by apply quiet_cleared, quiet_return|].
  destruct (openai_key p) as [key|] eqn:Ek; [|by apply quiet_cleared, quiet_return].
  destruct key as [|a key]; [by apply quiet_cleared, quiet_return|].
  eapply one_cleared_weaken; [|apply guarded_cleared].
  - intros call [? ?]. by exists (String a key).
  - auto with conversations.
  - intros r. destruct (negb _); [destruct (search_status _)|]; auto with conversations.
Qed.

Definition scrape_call (p : FirecrawlContentExtractor) (before : string → result (list string)) (q : ExtractionRequest)
    (call : HttpCall) : Prop :=
  ∃ key safe, firecrawl_key p = Some key ∧ validate_url (firecrawl_policy p) before (ex_url q) = Ok safe ∧
    call_headers call = bearer_headers key ∧ call_body call = scrape_body (safe_url safe).

Lemma firecrawl_cleared p g c before after at_ q tenant network w :
  one_cleared g c firecrawl_id firecrawl_version (firecrawl_base p +:+ "/v2/scrape") (scrape_call p before q)
    tenant network w (firecrawl_extract p g c before after at_ q).
Proof.
  unfold firecrawl_extract.
  destruct (firecrawl_key p) as [key|] eqn:Ek; [|by apply quiet_cleared, quiet_return].
  destruct key as [|a key]; [by apply quiet_cleared, quiet_return|].
  destruct (validate_url _ _ _) as [safe|e] eqn:Ev.
  2:{ apply quiet_cleared. case_bool_decide; auto with conversations. }
  eapply one_cleared_weaken; [|apply guarded_cleared].
  - intros call [? ?]. by exists (String a key), safe.
  - auto with conversations.
  - intros r. destruct (negb _); [destruct (extraction_status _)|]; auto with conversations.
Qed.

(** What a deployed system lets out: the request has the given shape, its decision is stored with
    the run, and it goes to a provider within the residency, with evidence in force. *)
Definition within_residency {A} (config : RuntimeConfig) (g : Guard) (c : EgressRequestContext) (name endpoint : string)
    (shape : HttpCall → Prop) (tenant : string) (network : HttpCall → HttpOutcome) (w : World) (p : conversation A) : Prop :=
  ∃ o posted w', play tenant network p w = (Ok (o, posted), w') ∧
    (posted = [] ∨ ∃ call d now e, posted = [call] ∧ shape call ∧
      get_run tenant (research_run_id (run w)) (research_db (store w')) = Some (append_egress_decision d (run w)) ∧
      (eg_decision d = "ALLOWED" ∧ eg_tenant d = rc_tenant c ∧ eg_actor d = rc_actor c ∧ eg_provider d = name ∧
       eg_host d = _host endpoint) ∧
      on_allowlist config endpoint (call_url call) ∧
      (e ∈ provider_egress config ∧ provider e = name ∧ host e = _host endpoint) ∧
      (processing_location e = "local" ∨ processing_location e ∈ _EU_COUNTRY_CODES) ∧
      ("*" ∈ tenant_ids e ∨ rc_tenant c ∈ tenant_ids e) ∧
      utc_micros (guard_clock g) = Ok now ∧ evidence_in_force now e).

Lemma cleared_within {A} raw config g c name connector endpoint shape tenant network w (p : conversation A) :
  from_mapping raw = Ok config → is_deployed (profile config) = true → config_supplier g = Some config →
  one_cleared g (Some c) name connector endpoint shape tenant network w p →
  within_residency config g c name endpoint shape tenant network w p.
Proof.
  intros Hraw Hdep Hg (o & posted & w' & E & Hp). exists o, posted, w'. split; [done|].
  destruct Hp as [|(call & Hposted & Hshape & ctx & d & k & [= <-] & Ha & Hk & Hstored)]; [by left|right].
  destruct (deployed_egress _ _ _ _ _ _ _ _ _ _ Hraw Hdep Hg Ha Hk)
    as (now & e & Hnow & Hin & Hname & Hhost & _ & Hloc & Hten & Hev).
  destruct (egress_fail_closed _ _ _ _ _ _ _ Ha) as (now' & Hnow' & Hlets & Hallowed & Ht & Hactor & Hprov & Hh).
  apply Hlets in Hk as [_ Hperm].
  exists call, d, now, e. split_and!; try done.
  - apply Hallowed. by exists (call_url call).
  - destruct Hperm as (config' & ? & ? & ? & Hc & _ & _ & _ & _ & _ & Hon & _). rewrite Hg in Hc. by injection Hc as <-.
Qed.

End requests.

(** ** What comes in *)

Section answers.
Context `{CaseFolding} `{Uppercase} `{UrlLibrary} `{PurePaths} `{ReadFloat}.

(** A wait of at most a minute. *)
Definition waits_within (t : string) : Prop := ∃ d, decimal_of_str t = Ok d ∧
  decimal_ge d (Finite false 0 0) = Ok true ∧ decimal_lt (Finite false 60 0) d = Ok false.

(** An error of provider [id]: it is retryable for a reason that may pass only, and names a wait
    only when the provider asked for one. *)
Record provider_failure (id timed_out : string) (e : ProviderError) : Prop := mkProviderFailure {
  failure_provider : pe_provider e = id;
  failure_retryable : retryable e = true →
    pe_reason e ∈ [timed_out; "PROVIDER_UNAVAILABLE"; "PROVIDER_RATE_LIMITED"] ∧
    ∀ s, pe_status e = Some s → s = 408%Z ∨ s = 429%Z ∨ (500 <= s <= 599)%Z;
  failure_wait : ∀ t, retry_after_seconds e = Some t → pe_status e = Some 429%Z ∧ waits_within t
}.

(** Results that are distinct, numbered, and quote the summary or nothing. *)
Record grounded (summary : string) (l : list SearchResult) : Prop := mkGrounded {
  urls_distinct : NoDup (map res_url l);
  ranks_counted : ∀ i r, l !! i = Some r → res_rank r = (Z.of_nat i + 1)%Z;
  quotes : Forall (λ r,
    (res_citation_kind r = "CITED" ∧ ∃ start stop, (0 <= start <= stop)%Z ∧ (stop <= Z.of_nat (str_len summary))%Z ∧
       res_snippet r = str_slice summary start stop) ∨
    (res_citation_kind r = "CONSULTED" ∧ res_snippet r = "")) l
}.

Definition search_checked (q : SearchQuery) (o : outcome_of SearchResponse) : Prop :=
  match o with
  | Answered r =>
      resp_provider_id r = openai_id ∧ resp_provider_version r = openai_version ∧
      (Z.of_nat (length (resp_results r)) <= sq_count q <= 20)%Z ∧ (Z.of_nat (str_len (resp_summary r)) <= 32768)%Z ∧
      grounded (resp_summary r) (resp_results r)
  | RequestFailed e => provider_failure openai_id "SEARCH_TIMEOUT" e
  | Crashed => True
  end.

Definition extraction_checked (p : FirecrawlContentExtractor) (before after : string → result (list string))
    (q : ExtractionRequest) (o : outcome_of ExtractionResponse) : Prop :=
  match o with
  | Answered (Extracted c) =>
      str_strip (markdown c) ≠ "" ∧
      (Z.of_nat (String.length (markdown c)) <= firecrawl_max_bytes p)%Z ∧
      (Z.of_nat (String.length (markdown c)) <= ex_max_bytes q)%Z ∧
      content_status c = 200%Z ∧ before_char ";" (casefold (content_mime c)) ∈ markdown_types ∧
      content_provider_id c = firecrawl_id ∧ content_version c = firecrawl_version ∧
      ∃ requested url final, validate_url (firecrawl_policy p) before (ex_url q) = Ok requested ∧
        validate_url (firecrawl_policy p) after url = Ok final ∧ content_url c = safe_url final ∧
        safe_domain final = safe_domain requested
  | Answered (NotExtracted e) => provider_failure firecrawl_id "EXTRACTION_TIMEOUT" e
  | RequestFailed _ => False
  | Crashed => True
  end.

Lemma ends_return_inv {A} (o o' : outcome_of A) : ends (Return o) o' → o' = o.
Proof. inversion 1; by subst. Qed.
Lemma ends_report_inv {A} status reason (p : conversation A) o : ends (Report status reason p) o → ends p o.
Proof. inversion 1; by subst. Qed.

(** How a guarded request ends. *)
Lemma ends_guarded {A} g c name connector endpoint timed_out headers body timeout
    (failed : string → bool → conversation A) answered o :
  ends (guarded_post g c name connector endpoint timed_out headers body timeout failed answered) o →
  o = Crashed ∨
  (∃ reason b, ends (failed reason b) o ∧ (b = true → reason ∈ [timed_out; "PROVIDER_UNAVAILABLE"])) ∨
  ∃ r, ends (answered r) o.
Proof.
  unfold guarded_post.
  set (rejected := λ e : exn, if bool_decide (exn_cls e = EgressRejected)
    then Report None (str_join "" (exn_args e)) (failed (str_join "" (exn_args e)) false) else Return Crashed).
  assert (∀ e, ends (rejected e) o → o = Crashed ∨
    (∃ reason b, ends (failed reason b) o ∧ (b = true → reason ∈ [timed_out; "PROVIDER_UNAVAILABLE"])) ∨
    ∃ r, ends (answered r) o) as Hr.
  { intros e. unfold rejected. case_bool_decide; intros He.
    - apply ends_report_inv in He. right; left. by exists (str_join "" (exn_args e)), false.
    - left. by apply ends_return_inv in He. }
  destruct (authorize_current _ _ _ _ _) as [[d k]|e]; [|apply Hr].
  inversion 1 as [|? ? recorded ? Hk| |]; subst. cbv beta in Hk. destruct (k recorded) as [url|e]; [|by eapply Hr].
  inversion Hk as [| |? ? answer ? Ho|]; subst. cbv beta in Ho.
  destruct answer as [| | |r]; [apply ends_report_inv in Ho..|apply ends_return_inv in Ho|];
    [right; left; exists timed_out, true; split; [done|intros _; left]
    |right; left; exists "PROVIDER_UNAVAILABLE", true; split; [done|intros _; right; left]
    |by left|right; right; by exists r].
Qed.

Lemma retry_after_within r t : retry_after r = Some t → waits_within t.
Proof.
  unfold retry_after. intros Ht. destruct (read_float _) as [value|]; [|done].
  destruct (decimal_of_str value) as [d|e] eqn:Ed; [|done].
  destruct d as [neg c x|neg|]; [| |done].
  - set (d := Finite neg c x) in *.
    destruct (decimal_ge d _) as [[|]|] eqn:Eg; [|done..].
    destruct (decimal_lt _ d) as [over|] eqn:El; [|done]. injection Ht as <-.
    destruct over; [|by exists d]. eexists. split_and!; vm_compute; reflexivity.
  - destruct neg; cbn in Ht; [done|]. injection Ht as <-. eexists. split_and!; vm_compute; reflexivity.
Qed.

(** A failure that carries no status and no wait. *)
Lemma plain_failure id timed_out reason b :
  (b = true → reason ∈ [timed_out; "PROVIDER_UNAVAILABLE"; "PROVIDER_RATE_LIMITED"]) →
  provider_failure id timed_out (mkProviderError id reason b None None).
Proof. intros Hb. split; cbn; [done| |done]. intros ->. split; [by apply Hb|done]. Qed.

(** A failure for the status of the response. *)
Lemma status_failure id timed_out reason b status r :
  (b = true → reason ∈ [timed_out; "PROVIDER_UNAVAILABLE"; "PROVIDER_RATE_LIMITED"] ∧
     (status = 408 ∨ status = 429 ∨ 500 <= status <= 599)%Z) →
  provider_failure id timed_out
    (mkProviderError id reason b (Some status) (if (status =? 429)%Z then retry_after r else None)).
Proof.
  intros Hb. split; cbn; [done| |].
  - intros ->. destruct (Hb eq_refl) as [Hr Hs]. split; [done|]. by intros s [= <-].
  - intros t Ht. destruct (Z.eqb_spec status 429) as [->|]; [|done]. split; [done|]. by eapply retry_after_within.
Qed.

Lemma search_status_retryable status reason :
  search_status status = (reason, true) →
  reason ∈ ["SEARCH_TIMEOUT"; "PROVIDER_UNAVAILABLE"; "PROVIDER_RATE_LIMITED"] ∧
  (status = 408 ∨ status = 429 ∨ 500 <= status <= 599)%Z.
Proof.
  unfold search_status. repeat case_match; intros ?; simplify_eq; bool_prop; (split; [set_solver|lia]).
Qed.
Lemma extraction_status_retryable status reason :
  extraction_status status = (reason, true) →
  reason ∈ ["EXTRACTION_TIMEOUT"; "PROVIDER_UNAVAILABLE"; "PROVIDER_RATE_LIMITED"] ∧
  (status = 408 ∨ status = 429 ∨ 500 <= status <= 599)%Z.
Proof.
  unfold extraction_status. repeat case_match; intros ?; simplify_eq; bool_prop; (split; [set_solver|lia]).
Qed.

(** *** The results of a search *)

Lemma foldM_invariant {A S} (Q : S → Prop) (f : A → S → result S) l s s' :
  (∀ x s s', Q s → f x s = Ok s' → Q s') → Q s → foldM f l s = Ok s' → Q s'.
Proof.
  intros Hf. revert s. induction l as [|x l IH]; intros s Hs Hl; cbn in Hl.
  - by injection Hl as <-.
  - apply bind_Ok in Hl as (s1 & Hx & Hl). eapply IH; [|done]. by eapply Hf.
Qed.

Lemma grounded_nil summary : grounded summary [].
Proof. split; [constructor|by intros i r E|constructor]. Qed.

Lemma grounded_snoc summary l url title snippet d kind :
  grounded summary l → url ∉ map res_url l →
  ((kind = "CITED" ∧ ∃ start stop, (0 <= start <= stop)%Z ∧ (stop <= Z.of_nat (str_len summary))%Z ∧
      snippet = str_slice summary start stop) ∨ (kind = "CONSULTED" ∧ snippet = "")) →
  grounded summary (l ++ [next_result l url title snippet d kind]).
Proof.
  intros [Hd Hr Hq] Hurl Hkind. split.
  - rewrite map_app. apply NoDup_app. split_and!; [done| |apply NoDup_singleton].
    intros x Hx [->|[]%elem_of_nil]%elem_of_cons. done.
  - intros i r [Hi|[Hi E]]%lookup_app_Some; [by apply Hr|].
    apply list_lookup_singleton_Some in E as [E <-]. cbn. lia.
  - apply Forall_app. split; [done|]. by constructor.
Qed.

Lemma grounded_take summary l n : grounded summary l → grounded summary (take n l).
Proof.
  intros [Hd Hr Hq]. split.
  - rewrite <-firstn_map. eapply sublist_NoDup; [apply Hd|apply sublist_take].
  - intros i r [Hi _]%lookup_take_Some. by apply Hr.
  - by apply Forall_take.
Qed.

Lemma results_grounded summary citations sources l : _results summary citations sources = Ok l → grounded summary l.
Proof.
  intros (mid & Hc & Hs)%bind_Ok. revert Hs. apply foldM_invariant.
  - intros d results results' Hg He. unfold consulted_result in He.
    apply bind_Ok in He as (url & _ & He). apply bind_Ok in He as (title & _ & He).
    destruct (str_in url _) eqn:Hin; [by injection He as <-|]. apply bind_Ok in He as (parsed & _ & [= <-]).
    apply grounded_snoc; [done|by apply str_in_false|by right].
  - revert Hc. apply foldM_invariant; [|apply grounded_nil].
    intros d results results' Hg He. unfold cited_result in He.
    apply bind_Ok in He as (url & _ & He). apply bind_Ok in He as (title & _ & He).
    apply bind_Ok in He as (start & _ & He). apply bind_Ok in He as (stop & _ & He).
    destruct (negb _) eqn:Hb; [done|]. destruct (str_in url _) eqn:Hin; [by injection He as <-|]. injection He as <-.
    apply grounded_snoc; [done|by apply str_in_false|]. left. split; [done|]. exists start, stop. bool_prop.
    split_and!; try lia. done.
Qed.

Lemma message_bounded output summary citations : _message output = Ok (summary, citations) → (Z.of_nat (str_len summary) <= 32768)%Z.
Proof.
  unfold _message. induction (omap (typed "message") output) as [|d l IH]; [done|]. cbn.
  intros (found & Hf & Hm)%bind_Ok. destruct found as [x|]; [|by apply IH]. injection Hm as ->.
  unfold message_text in Hf. destruct (field_of d "content"); try done.
  destruct (_ <? _)%nat; [done|]. destruct (omap _ _) as [|part parts]; [done|].
  destruct (text_part part) as [y|e] eqn:Et; [|done]. cbn in Hf. injection Hf as ->.
  unfold text_part in Et. destruct (field_of part "text"); try done. destruct (default (PList []) _); try done.
  destruct (_ || _) eqn:Eb; [done|]. injection Et as <- _. apply orb_false_iff in Eb as [Eb%Z.ltb_ge _]. exact Eb.
Qed.

Lemma read_search_checked payload limit summary id results :
  (0 <= limit)%Z → read_search payload limit = Ok (summary, id, results) →
  (Z.of_nat (length results) <= limit)%Z ∧ (Z.of_nat (str_len summary) <= 32768)%Z ∧ grounded summary results.
Proof.
  intros Hlimit. unfold read_search. destruct payload as [| | | | | |d]; try done.
  intros (i & _ & He)%bind_Ok. apply bind_Ok in He as (output & _ & He).
  destruct i; try done. destruct output; try done. destruct (_ || _); [done|].
  apply bind_Ok in He as ([text citations] & Hm & He). apply bind_Ok in He as (sources & _ & He).
  apply bind_Ok in He as (all & Hl & [= <- <- <-]). split_and!.
  - rewrite length_take. lia.
  - by eapply message_bounded.
  - by eapply grounded_take, results_grounded.
Qed.

Lemma search_checked_spec p g c at_ q o : ends (openai_search p g c at_ q) o → search_checked q o.
Proof.
  unfold openai_search. destruct (search_admitted q) eqn:Eq; cbn [negb].
  2:{ intros ->%ends_return_inv. by apply plain_failure. }
  assert (1 <= sq_count q <= 20)%Z as Hcount by (unfold search_admitted in Eq; bool_prop; lia).
  destruct (openai_key p) as [[|a key]|]; [intros ->%ends_return_inv; by apply plain_failure| |
    intros ->%ends_return_inv; by apply plain_failure].
  intros [->|[(reason & b & He & Hb)|(r & He)]]%ends_guarded; [done| |].
  - apply ends_return_inv in He as ->. apply plain_failure. intros E. specialize (Hb E). set_solver.
  - destruct (Z.eqb_spec (http_status r) 200) as [E|E]; cbn [negb] in He.
    + apply ends_report_inv in He. unfold normalize_search in He.
      destruct (payload ← http_json r; _) as [[[summary id] results]|e] eqn:En.
      * apply ends_return_inv in He as ->. apply bind_Ok in En as (payload & _ & En).
        apply read_search_checked in En as (Hn & Hs & Hg); [|lia]. cbn. split_and!; done || lia.
      * destruct (schema_error _); apply ends_return_inv in He as ->; [by apply plain_failure|done].
    + destruct (search_status (http_status r)) as [reason b] eqn:Es.
      apply ends_report_inv, ends_return_inv in He as ->. apply status_failure. intros ->.
      by apply search_status_retryable.
Qed.

Lemma extraction_checked_spec p g c before after at_ q o :
  ends (firecrawl_extract p g c before after at_ q) o → extraction_checked p before after q o.
Proof.
  unfold firecrawl_extract.
  destruct (firecrawl_key p) as [[|a key]|]; [intros ->%ends_return_inv; by apply plain_failure| |
    intros ->%ends_return_inv; by apply plain_failure].
  destruct (validate_url _ before _) as [safe|e] eqn:Ev.
  2:{ case_bool_decide; intros ->%ends_return_inv; [by apply plain_failure|done]. }
  intros [->|[(reason & b & He & Hb)|(r & He)]]%ends_guarded; [done| |].
  - apply ends_return_inv in He as ->. apply plain_failure. intros E. specialize (Hb E). set_solver.
  - destruct (Z.eqb_spec (http_status r) 200) as [E|E]; cbn [negb] in He.
    + apply ends_report_inv in He. unfold normalize_scrape in He.
      destruct (payload ← http_json r; _) as [sc|e].
      2:{ destruct (schema_error _); apply ends_return_inv in He as ->; [by apply plain_failure|done]. }
      destruct (String.eqb_spec (str_strip (sc_markdown sc)) ""); [apply ends_return_inv in He as ->; by apply plain_failure|].
      destruct (negb (utf8_encodes _)); [by apply ends_return_inv in He as ->|].
      destruct (Z.ltb_spec (Z.min (firecrawl_max_bytes p) (ex_max_bytes q)) (Z.of_nat (String.length (sc_markdown sc))));
        [apply ends_return_inv in He as ->; by apply plain_failure|].
      destruct (Z.eqb_spec (sc_status sc) 200); cbn [negb] in He; [|apply ends_return_inv in He as ->; by split].
      destruct (str_in _ markdown_types) eqn:Em; cbn [negb] in He; [|apply ends_return_inv in He as ->; by apply plain_failure].
      destruct (validate_url _ after _) as [final|err] eqn:Ef.
      2:{ case_bool_decide; apply ends_return_inv in He as ->; [by apply plain_failure|done]. }
      destruct (String.eqb_spec (safe_domain final) (safe_domain safe)); cbn [negb] in He;
        apply ends_return_inv in He as ->; [|by apply plain_failure].
      apply str_in_spec in Em. cbn. split_and!; try done; [lia..|]. by exists safe, (sc_url sc), final.
    + destruct (extraction_status (http_status r)) as [reason b] eqn:Es.
      apply ends_report_inv, ends_return_inv in He as ->. apply status_failure. intros ->.
      by apply extraction_status_retryable.
Qed.

(** C38: what comes back from a provider is checked, whatever the ledger and the network answer. A
    search has at most as many results as it asked for, with distinct URLs and ranks counted from
    one; a cited result quotes a part of the summary, any other quotes nothing. Extracted content
    is not blank, within both limits of bytes, of an accepted type and of status 200, and its URL
    is public by the policy and in the domain that was asked for. Anything else is an error of the
    provider, retryable only when the reason may pass, with a wait of at most a minute, or an
    exception, which the orchestrator handles as such. *)
Theorem provider_answers_checked :
  (∀ p g c at_ q o, ends (openai_search p g c at_ q) o → search_checked q o) ∧
  (∀ p g c before after at_ q o, ends (firecrawl_extract p g c before after at_ q) o →
     extraction_checked p before after q o).
Proof. split; [exact search_checked_spec|exact extraction_checked_spec]. Qed.
End answers.

(** ** Instances *)
Section samples.
#[local] Existing Instances constant_alg ascii_casefold accept_all upper_ascii sample_urls plain_paths sample_naming sample_normalizer sample_floats.

Definition float_texts : ReadFloat := λ s, if s =? "" then None else Some s.
#[local] Existing Instance float_texts.

Definition provider_entry (name connector : string) : pyval :=
  PDict [("provider", PStr name); ("service", PStr connector); ("host", PStr "example.org");
         ("processing_location", PStr "DE"); ("confirmed_processing_locations", texts ["DE"]);
         ("tenant_ids", texts ["t1"]); ("attestation", sample_attestation)].
Definition providers_raw : mapping :=
  assoc_set "provider_egress" (PList [provider_entry openai_id openai_version]) sample_raw.

Definition sample_openai : OpenAIWebSearchProvider :=
  mkOpenAI (Some "key-1") "gpt-5.6" "https://example.org" 30000000.
Definition sample_query : SearchQuery := search_query sample_request.

Definition answer_message : pyval := PDict
  [("type", PStr "message");
   ("content", PList [PDict [("type", PStr "output_text"); ("text", PStr "It is so.");
      ("annotations", PList [PDict [("type", PStr "url_citation"); ("url", PStr "https://example.org/a");
         ("title", PStr "A"); ("start_index", PInt 0); ("end_index", PInt 5)]])]])].
Definition answer_call : pyval := PDict
  [("type", PStr "web_search_call");
   ("action", PDict [("sources", PList
      [PDict [("type", PStr "url"); ("url", PStr "https://example.org/a")];
       PDict [("type", PStr "url"); ("url", PStr "https://example.org/b")]])])].
Definition answering (status : Z) (header : string) : HttpCall → HttpOutcome := λ _,
  HttpAnswered (mkHttpResponse status (λ _, Some header)
    (Ok (PDict [("id", PStr "resp-1"); ("output", PList [answer_call; answer_message])]))).

(** The sample run, stored and in the hands of the orchestrator. *)
Definition stored_world : World :=
  match prepare (sample_outside 1000) sample_setup "t1" "ann" sample_request
    (payload_hash (document_json draft_case)) "corr-1" None sample_world with
  | (Ok r, w) => set_run r w
  | (Raise _, w) => w
  end.

Definition search_played (c : RuntimeConfig) (network : HttpCall → HttpOutcome) :=
  play "t1" network
    (openai_search sample_openai (mkGuard (Some c) midday None) (Some sample_context) midday sample_query) stored_world.


Definition search_ended (c : RuntimeConfig) (network : HttpCall → HttpOutcome) : outcome_of SearchResponse :=
  ending network
    (openai_search sample_openai (mkGuard (Some c) midday None) (Some sample_context) midday sample_query).

Definition scraping : HttpCall → HttpOutcome := λ _, HttpAnswered (mkHttpResponse 200 (λ _, None)
  (Ok (PDict [("success", PBool true); ("data", PDict [("markdown", PStr "# So it is");
     ("metadata", PDict [("sourceURL", PStr "https://example.org/a"); ("contentType", PStr "text/html; charset=utf-8");
                         ("statusCode", PInt 200)])])]))).
Definition scrape_raw : mapping :=
  assoc_set "provider_egress" (PList [provider_entry firecrawl_id firecrawl_version]) sample_raw.
Definition sample_firecrawl : FirecrawlContentExtractor :=
  mkFirecrawl (Some "key-2") (mkUrlPolicy [] []) "https://example.org" 20000000 1000000.
Definition public_addresses : string → result (list string) := λ _, Ok ["93.184.216.34"].
Definition sample_scrape (domain : string) : ExtractionRequest := mkExtractionRequest "s1" domain "en" 100 86400.
Definition scrape_ended (c : RuntimeConfig) : outcome_of ExtractionResponse :=
  ending scraping (firecrawl_extract sample_firecrawl (mkGuard (Some c) midday None) (Some sample_context)
    public_addresses public_addresses midday (sample_scrape "https://example.org/a")).

Lemma provider_answers_checked_witness :
  match from_mapping providers_raw, from_mapping scrape_raw with
  | Ok c, Ok c' =>
      (∃ r, search_ended c (answering 200 "") = Answered r ∧ length (resp_results r) = 2%nat ∧
         grounded (resp_summary r) (resp_results r)) ∧
      (∃ e, search_ended c (answering 429 "3600") = RequestFailed e ∧ retryable e = true ∧
         retry_after_seconds e = Some "60.0" ∧ waits_within "60.0") ∧
      ∃ content, scrape_ended c' = Answered (Extracted content) ∧ content_status content = 200%Z
  | _, _ => False
  end.
Proof.
  assert (match from_mapping providers_raw, from_mapping scrape_raw with
    | Ok c, Ok c' =>
        match search_ended c (answering 200 ""), search_ended c (answering 429 "3600"), scrape_ended c' with
        | Answered r, RequestFailed e, Answered (Extracted _) =>
            (length (resp_results r) =? 2)%nat && retryable e && bool_decide (retry_after_seconds e = Some "60.0")
        | _, _, _ => false
        end
    | _, _ => false end = true) as Hrun by (vm_compute; reflexivity).
  destruct (from_mapping providers_raw) as [c|?], (from_mapping scrape_raw) as [c'|?]; try discriminate Hrun.
  destruct provider_answers_checked as [Hsearch Hscrape].
  pose proof (Hsearch _ _ _ _ _ _ (ending_ends (answering 200 "")
    (openai_search sample_openai (mkGuard (Some c) midday None) (Some sample_context) midday sample_query))) as H1.
  pose proof (Hsearch _ _ _ _ _ _ (ending_ends (answering 429 "3600")
    (openai_search sample_openai (mkGuard (Some c) midday None) (Some sample_context) midday sample_query))) as H2.
  pose proof (Hscrape _ _ _ _ _ _ _ _ (ending_ends scraping (firecrawl_extract sample_firecrawl
    (mkGuard (Some c') midday None) (Some sample_context) public_addresses public_addresses midday
    (sample_scrape "https://example.org/a")))) as H3.
  fold (search_ended c (answering 200 "")) in H1. fold (search_ended c (answering 429 "3600")) in H2.
  fold (scrape_ended c') in H3.
  destruct (search_ended c (answering 200 "")) as [r| |], (search_ended c (answering 429 "3600")) as [|err|],
    (scrape_ended c') as [[content|]| |]; try discriminate Hrun.
  apply andb_true_iff in Hrun as [[Hlen%Nat.eqb_eq Hretry]%andb_true_iff Hwait%bool_decide_eq_true].
  destruct H1 as (_ & _ & _ & _ & Hg). destruct (failure_wait _ _ _ H2 _ Hwait) as [_ Hw].
  destruct H3 as (_ & _ & _ & Hstatus & _).
  split_and!; [by exists r|by exists err|by exists content].
Defined.
End samples.

(** *** A whole run with both providers *)
Section whole_run.

(** [sample_urls] with a second host. *)
Definition url_host (s : string) : string :=
  if str_startswith "https://scrape." s then "scrape.example.org" else "example.org".
Definition two_hosts : UrlLibrary := {|
  urlsplit s := Ok (mkSplit (if str_startswith "https://" s then "https" else "http") None None
                      (Some (url_host s)) (Ok None) "/a" "" (url_host s) "");
  urlunsplit s n p q f := s +:+ "://" +:+ n +:+ p;
  ip_address := @ip_address sample_urls;
  idna s := Some s;
  ip_network _ := true;
  parse_qsl _ := [];
  urlencode _ := ""
|}.
#[local] Existing Instances constant_alg ascii_casefold accept_all upper_ascii two_hosts plain_paths sample_naming sample_normalizer sample_floats float_texts.

Definition both_raw : mapping :=
  let entry name connector host := PDict
    [("provider", PStr name); ("service", PStr connector); ("host", PStr host);
     ("processing_location", PStr "DE"); ("confirmed_processing_locations", texts ["DE"]);
     ("tenant_ids", texts ["t1"]); ("attestation", sample_attestation)] in
  assoc_set "egress_allowed_hosts" (texts ["example.org"; "scrape.example.org"])
    (assoc_set "provider_egress" (PList [entry openai_id openai_version "example.org";
      entry firecrawl_id firecrawl_version "scrape.example.org"]) sample_raw).

Definition sample_network (c : RuntimeConfig) : Network :=
  mkNetwork (λ _, mkGuard (Some c) midday None)
    (λ _ call, if call_url call =? "https://scrape.example.org/a" then scraping call else answering 200 "" call)
    (λ _, midday) (λ _, public_addresses) (λ _, public_addresses).

Definition wired_run (c : RuntimeConfig) : result ResearchRun :=
  (execute (with_providers (sample_outside 1000) (sample_network c) sample_openai
              (mkFirecrawl (Some "key-2") (mkUrlPolicy [] []) "https://scrape.example.org" 20000000 1000000))
     (mkSetup (policy sample_setup) openai_id firecrawl_id (evidence_policy sample_setup) None) "t1" "ann"
     sample_request (payload_hash (document_json draft_case)) "corr-1" None sample_world).1.

(** It completes, and its ledger holds the decisions that let its requests out. *)
Example wired_run_completes :
  match from_mapping both_raw with
  | Ok c => succeeds_with (wired_run c) (λ r,
      bool_decide (run_status r = COMPLETED) && (length (run_evidence r) =? 1)%nat &&
      bool_decide (omap re_decision (run_events r) = ["ALLOWED"; "ALLOWED"]))
  | Raise _ => false
  end = true.
Proof. vm_compute. reflexivity. Qed.
End whole_run.
