(* ===== verification/OidcProps.v ===== *)
(** * What an authenticated identity rests on

    Theorems over [Oidc]: an identity is made of the claims of a token verified with a fresh
    signing key of the issuer, authentication fails closed with a listed code, the cache of keys
    keeps its invariant, and the multi-factor policy is exact. *)

From S2P Require Import Prelude PyVal Identity PyDecimal ResearchEvidence Research UrlPolicy Config Egress Oidc Failures.
From stdpp Require Import options.
#[local] Set Default Proof Using "Type*".

(** ** The cache of keys *)

(** The document lists the key [k] under [kid] as a signing key. *)
Definition published `{Jwt} (payload : pyval) (kid : string) (k : string * Key) : Prop :=
  ∃ d items raw, payload = PDict d ∧ lookup_or d "keys" PNone = PList items ∧ PDict raw ∈ items ∧
    lookup_or raw "use" (PStr "sig") = PStr "sig" ∧ lookup_or raw "kid" PNone = PStr kid ∧
    lookup_or raw "kty" PNone ∈ [PStr "RSA"; PStr "EC"] ∧ from_dict raw = Ok k.

Section cache.
Context `{Jwt} (fetch : nat → result Response) (clock : nat → Z).

(** The keys are those of the [n]-th answer, stored at reading [m] of the clock. *)
Definition stored_from (p : JwksProvider) (s : JwksCache) (n m : nat) : Prop :=
  ∃ payload, fetched fetch n = Ok payload ∧
    (∀ kid k, cached_keys s !! kid = Some k → published payload kid k) ∧
    (Z.of_nat (size (cached_keys s)) ≤ maximum_keys p)%Z ∧
    expires_at s = (clock m + cache_ttl_seconds p)%Z.

(** The invariant: the cache is as created, or one answer of the issuer. *)
Definition cache_ok (p : JwksProvider) (s : JwksCache) : Prop :=
  (cached_keys s = ∅ ∧ expires_at s = 0%Z) ∨
  ∃ n m, n < fetches s ∧ m < readings s ∧ stored_from p s n m.

(** What a run does to the cache: it leaves it, or replaces it by an answer it has fetched. *)
Definition cache_step (p : JwksProvider) (s s' : JwksCache) : Prop :=
  fetches s ≤ fetches s' ∧ readings s ≤ readings s' ∧
  ((cached_keys s' = cached_keys s ∧ expires_at s' = expires_at s) ∨
   ∃ n m, fetches s ≤ n < fetches s' ∧ readings s ≤ m < readings s' ∧ stored_from p s' n m).

#[export] Instance cache_step_preorder p : PreOrder (cache_step p).
Proof.
  split; [intros s; split_and!; auto|].
  intros s1 s2 s3 (F1 & R1 & H1) (F2 & R2 & H2). split_and!; [lia|lia|].
  destruct H2 as [[K2 X2]|(n & m & ? & ? & H2)]; [|right; exists n, m; split_and!; [lia..|done]].
  destruct H1 as [[K1 X1]|(n & m & ? & ? & payload & Hf & Hk & Hs & Hx)]; [left; split; congruence|].
  right. exists n, m. split_and!; [lia..|]. exists payload. rewrite K2, X2. done.
Qed.

Lemma cache_step_ok p s s' : cache_step p s s' → cache_ok p s → cache_ok p s'.
Proof.
  intros (F & R & [[K X]|(n & m & ? & ? & Hs)]) Hok;
    [|right; exists n, m; split_and!; [lia..|done]].
  destruct Hok as [[K' X']|(n & m & ? & ? & payload & Hf & Hk & Hs & Hx)]; [left; split; congruence|].
  right. exists n, m. split_and!; [lia..|]. exists payload. rewrite K, X. done.
Qed.

(** The keys a document yields are published in it. *)
Lemma jwk_entries_spec items parsed m :
  jwk_entries parsed items = Ok m →
  (size m ≤ size parsed + length items) ∧
  ∀ kid k, m !! kid = Some k → parsed !! kid = Some k ∨
    ∃ raw, PDict raw ∈ items ∧ lookup_or raw "use" (PStr "sig") = PStr "sig" ∧
      lookup_or raw "kid" PNone = PStr kid ∧ lookup_or raw "kty" PNone ∈ [PStr "RSA"; PStr "EC"] ∧
      from_dict raw = Ok k.
Proof.
  revert parsed. induction items as [|raw items IH]; intros parsed; cbn [jwk_entries].
  { intros [= <-]. split; [cbn; lia|auto]. }
  intros (parsed' & Hentry & [Hsize Hall]%IH)%bind_Ok.
  assert (size parsed' ≤ S (size parsed) ∧ ∀ kid k, parsed' !! kid = Some k → parsed !! kid = Some k ∨
    ∃ d, raw = PDict d ∧ lookup_or d "use" (PStr "sig") = PStr "sig" ∧ lookup_or d "kid" PNone = PStr kid ∧
      lookup_or d "kty" PNone ∈ [PStr "RSA"; PStr "EC"] ∧ from_dict d = Ok k) as [Hs Hstep].
  { unfold jwk_entry in Hentry. destruct raw as [| | | | | |d]; try discriminate.
    destruct (py_eq (lookup_or d "use" _) _) eqn:Huse; cbn [negb] in Hentry;
      [|injection Hentry as <-; split; [lia|auto]].
    destruct (lookup_or d "kid" PNone) as [| | | |kid| |] eqn:Hkid; try discriminate.
    inv_ok. apply py_eq_str_r in Huse.
    match goal with Hb : _ || _ = true |- _ => rewrite orb_true_iff, !py_eq_str_r in Hb; rename Hb into Hkty end.
    split; [rewrite map_size_insert; destruct (parsed !! kid); cbn; lia|].
    intros kid' k. rewrite lookup_insert_Some. intros [[-> <-]|[_ ?]]; [|auto].
    right. exists d. split_and!; [done..| |done]. destruct Hkty as [->| ->]; set_solver. }
  split; [cbn; lia|]. intros kid k [Hk|(d & Hd & Hrest)]%Hall.
  - apply Hstep in Hk as [?|(d & -> & Hrest)]; [auto|right]. exists d. split; [left|done].
  - right. exists d. split; [by right|done].
Qed.

Lemma parse_jwks_spec limit payload m :
  parse_jwks limit payload = Ok m →
  (Z.of_nat (size m) ≤ limit)%Z ∧ ∀ kid k, m !! kid = Some k → published payload kid k.
Proof.
  unfold parse_jwks. destruct payload as [| | | | | |d]; try discriminate.
  destruct (lookup_or d "keys" PNone) as [| | | | |items|] eqn:Hd; try discriminate.
  intros HH. apply bind_Ok in HH as (u & Hlen%require_Ok & HH). apply bind_Ok in HH as (q & Hq & HH).
  apply rescue_Ok in Hq. inv_ok. apply jwk_entries_spec in Hq as [Hsize Hall].
  rewrite map_size_empty in Hsize. bool_prop. split; [lia|].
  intros kid k [Hk|(raw & Hin & Hrest)]%Hall; [by rewrite lookup_empty in Hk|].
  exists d, items, raw. tauto.
Qed.

Lemma refresh_step p : always (cache_step p) (_refresh fetch clock p).
Proof.
  intros s. unfold _refresh, mbind, stateful_bind, fetch_document.
  destruct (fetched fetch (fetches s)) as [payload|e] eqn:Hf; cbn [rescue];
    [|split_and!; cbn; [lia|lia|by left]].
  unfold lift. destruct (parse_jwks (maximum_keys p) payload) as [m|e] eqn:Hp;
    [|split_and!; cbn; [lia|lia|by left]].
  apply parse_jwks_spec in Hp as [Hs Hk]. split_and!; cbn; [lia..|].
  right. exists (fetches s), (readings s). split_and!; [lia..|].
  exists payload. done.
Qed.

Lemma read_clock_step p : always (cache_step p) (read_clock clock).
Proof. intros s. split_and!; cbn; [lia|lia|by left]. Qed.
#[local] Hint Resolve refresh_step read_clock_step : always.

Lemma get_key_step p kid algorithm : always (cache_step p) (get_key fetch clock p kid algorithm).
Proof. unfold get_key. always_steps. Qed.
#[local] Hint Resolve get_key_step : always.

Lemma verify_token_step policy p token : always (cache_step p) (verify_token fetch clock policy p token).
Proof. unfold verify_token. always_steps. Qed.

Lemma authenticate_step policy p token : always (cache_step p) (oidc_authenticate fetch clock policy p token).
Proof.
  intros s. unfold oidc_authenticate. pose proof (verify_token_step policy p token s) as Hs.
  by destruct (verify_token fetch clock policy p token s).
Qed.

(** ** Where a key comes from *)

Lemma refresh_Ok p s u s' :
  _refresh fetch clock p s = (Ok u, s') →
  fetches s' = S (fetches s) ∧ readings s' = S (readings s) ∧ stored_from p s' (fetches s) (readings s).
Proof.
  unfold _refresh, mbind, stateful_bind, fetch_document.
  destruct (fetched fetch (fetches s)) as [payload|e] eqn:Hf; cbn [rescue]; [|done].
  unfold lift. destruct (parse_jwks (maximum_keys p) payload) as [m|e] eqn:Hp; [|done].
  cbn. intros [= _ <-]. cbn. split_and!; [done..|].
  apply parse_jwks_spec in Hp as [Hs Hk]. exists payload. done.
Qed.

(** The key set the key was taken from was stored during the call, or had not expired when the
    call began. *)
Definition fresh_key (p : JwksProvider) (s s' : JwksCache) (kid : string) (k : string * Key) : Prop :=
  ∃ n m payload, n < fetches s' ∧ fetched fetch n = Ok payload ∧ published payload kid k ∧
    (readings s ≤ m ∨ (clock (readings s) < clock m + cache_ttl_seconds p)%Z).

Lemma get_key_Ok p kid algorithm s key s' :
  cache_ok p s → get_key fetch clock p kid algorithm s = (Ok key, s') →
  fresh_key p s s' kid (algorithm, key).
Proof.
  intros Hok HH. unfold get_key in HH.
  apply stateful_bind_Ok in HH as (u & s0 & Hg & HH). unfold guard_with, lift in Hg.
  injection Hg as _ <-. apply stateful_bind_Ok in HH as (now & s1 & Hr & HH). injection Hr as <- <-.
  apply stateful_bind_Ok in HH as (expiry & s1 & Hr & HH). injection Hr as <- <-.
  apply stateful_bind_Ok in HH as (v & s2 & Hr & HH). cbn [expires_at] in Hr.
  assert (Hfrom : ∀ t k, cached_keys t !! kid = Some k → ∀ n m, n < fetches t → stored_from p t n m →
    (readings s ≤ m ∨ (clock (readings s) < expires_at t)%Z) → fresh_key p s t kid k).
  { intros t k Hk n m Hn (payload & Hf & Hall & _ & Hx) Hage. exists n, m, payload.
    rewrite <-Hx. auto. }
  assert (H2 : readings s ≤ readings s2 ∧ ∀ k, cached_keys s2 !! kid = Some k → fresh_key p s s2 kid k).
  { destruct (expires_at s <=? clock (readings s))%Z eqn:Hx.
    - apply refresh_Ok in Hr as (F & R & Hs). cbn in *. split; [lia|].
      intros k Hk. eapply Hfrom; [done| |done|]; lia.
    - injection Hr as _ <-. cbn [readings cached_keys]. split; [lia|]. intros k Hk. apply Z.leb_gt in Hx.
      destruct Hok as [[He _]|(n & m & Hn & Hm & payload & Hf & Hall & _ & Hexp)];
        [by rewrite He, lookup_empty in Hk|].
      exists n, m, payload. rewrite <-Hexp. auto. }
  clear Hr. destruct H2 as [R2 H2].
  apply stateful_bind_Ok in HH as (cached & s3 & Hc & HH). injection Hc as <- <-.
  apply stateful_bind_Ok in HH as (found & s3 & Hc & HH).
  assert (H3 : ∀ k, found = Some k → fresh_key p s s3 kid k).
  { intros k ->. destruct (cached_keys s2 !! kid) as [k'|] eqn:Hk; [injection Hc as <- <-; by apply H2|].
    apply stateful_bind_Ok in Hc as (w & s4 & Hc & Hk'). apply refresh_Ok in Hc as (F & R & Hs).
    injection Hk' as Hk' <-. eapply Hfrom; [done| |done|]; lia. }
  destruct found as [[name material]|]; [|done].
  apply stateful_bind_Ok in HH as (w & s4 & Hg' & HH). injection HH as <- <-.
  unfold guard_with, lift in Hg'. injection Hg' as Hg' <-. apply require_Ok, String.eqb_eq in Hg' as ->.
  by apply H3.
Qed.
End cache.

(** ** The claims an identity is made of *)

Definition claim_is (claims : mapping) (name text : string) : Prop := _claim claims name = Ok (PStr text).

Lemma required_claim_Ok claims name s :
  _required_claim claims name = Ok s → claim_is claims name s ∧ str_blank s = false.
Proof.
  unfold _required_claim, claim_is. intros (v & -> & Hv)%bind_Ok.
  destruct v; try discriminate. cbn in Hv. inv_ok. bool_prop. tauto.
Qed.

(** The texts the role claim lists and the roles they stand for. *)
Definition role_items (claims : mapping) (name : string) (items : list string) : Prop :=
  ∃ v, _claim claims name = Ok v ∧ raw_roles v = Ok items.

(** The identity the claims describe. *)
Record identity_claims (policy : OidcPolicy) (claims : mapping) (i : Identity) : Prop := {
  ic_actor : claim_is claims (actor_id_claim policy) (identity_actor i);
  ic_tenant : claim_is claims (tenant_claim policy) (tenant_id (identity_tenant i));
  ic_kind : ∃ text, claim_is claims (actor_kind_claim policy) text ∧ actor_kind text = Ok (identity_kind i);
  ic_roles : ∃ items, role_items claims (role_claim policy) items ∧
    ∀ r, r ∈ identity_roles i ↔ ∃ item, item ∈ items ∧ assoc item KEYCLOAK_ROLE_MAP = Some r;
  ic_primary : identity_role i ∈ identity_roles i ∧ ∃ before after,
    _PRIMARY_ROLE_ORDER = before ++ identity_role i :: after ∧ ∀ r, r ∈ before → r ∉ identity_roles i;
  ic_party : ∃ party, client_id i = Some party ∧ claim_is claims "azp" party ∧
    (authorized_parties policy = [] ∨ party ∈ authorized_parties policy);
  ic_scopes : ∃ text, claim_is claims "scope" text ∧ scopes i = fromkeys (str_split text) ∧
    ∀ required, required ∈ required_scopes policy → required ∈ scopes i
}.

Lemma find_split {A} (f : A → bool) l x :
  List.find f l = Some x →
  f x = true ∧ ∃ before after, l = before ++ x :: after ∧ ∀ y, y ∈ before → f y = false.
Proof.
  induction l as [|y l IH]; cbn; [done|]. destruct (f y) eqn:E.
  - intros [= <-]. split; [done|]. exists [], l. split; [done|]. intros z []%elem_of_nil.
  - intros (Hx & before & after & -> & Hb)%IH. split; [done|]. exists (y :: before), after.
    split; [done|]. intros z [->|?]%elem_of_cons; auto.
Qed.

Lemma roles_Ok claims name roles :
  _roles claims name = Ok roles →
  roles ≠ ∅ ∧ ∃ items, role_items claims name items ∧
    ∀ r, r ∈ roles ↔ ∃ item, item ∈ items ∧ assoc item KEYCLOAK_ROLE_MAP = Some r.
Proof.
  unfold _roles. intros (v & Hv & HH)%bind_Ok. apply bind_Ok in HH as (items & Hi & HH). inv_ok. bool_prop.
  split; [done|]. exists items. split; [by exists v|].
  intros r. unfold mapped_roles. rewrite elem_of_list_to_set, list_elem_of_omap. done.
Qed.

Lemma map_claims_Ok policy claims i : _map_claims policy claims = Ok i → identity_claims policy claims i.
Proof.
  unfold _map_claims. intros HH.
  apply bind_Ok in HH as (actor & Hactor%required_claim_Ok & HH).
  apply bind_Ok in HH as (tenant & Htenant%required_claim_Ok & HH).
  apply bind_Ok in HH as (roles & [Hne Hroles]%roles_Ok & HH).
  apply bind_Ok in HH as (role & [Hin (before & after & Hsplit & Hbefore)]%or_raise_Ok%find_split & HH).
  apply bind_Ok in HH as (kind_text & Hkt%required_claim_Ok & HH).
  apply bind_Ok in HH as (kind & Hkind & HH).
  apply bind_Ok in HH as (organization & _ & HH). apply bind_Ok in HH as (group_list & _ & HH).
  apply bind_Ok in HH as (party & Hparty%required_claim_Ok & HH).
  apply bind_Ok in HH as (u & Hp%require_Ok & HH).
  apply bind_Ok in HH as (text & Htext%required_claim_Ok & HH).
  apply bind_Ok in HH as (u' & Hs%require_Ok & HH).
  apply bind_Ok in HH as (t & Ht & HH). unfold tenant_context in Ht. inv_ok.
  unfold make_identity in HH. inv_ok. cbn [identity_roles identity_role] in *.
  rewrite (bool_decide_false (roles = ∅)) in * by done.
  rewrite orb_true_iff, bool_decide_eq_true, str_in_spec in Hp.
  rewrite forallb_true_Forall, Forall_forall in Hs.
  split; cbn [identity_actor identity_tenant identity_kind identity_roles identity_role client_id scopes tenant_id].
  - apply Hactor.
  - apply Htenant.
  - exists kind_text. split; [apply Hkt|done].
  - done.
  - apply bool_decide_eq_true in Hin. split; [done|]. exists before, after. split; [done|].
    intros r Hr%Hbefore. by apply bool_decide_eq_false in Hr.
  - exists party. tauto.
  - exists text. split_and!; [tauto|done|].
    intros required Hr%Hs. by apply str_in_spec.
Qed.

(** ** Authentication *)

Section authentication.
Context `{Jwt} (fetch : nat → result Response) (clock : nat → Z).

(** What a verified token gives: the claims, decoded with a fresh key of an allowed algorithm. *)
Definition verified_claims (policy : OidcPolicy) (p : JwksProvider) (token : string) (s s' : JwksCache)
    (claims : mapping) : Prop :=
  ∃ header algorithm kid key,
    get_unverified_header token = Ok header ∧ named_key (algorithms policy) header = Some (algorithm, kid) ∧
    fresh_key fetch clock p s s' kid (algorithm, key) ∧
    decode token key (algorithms policy) (audience policy) (issuer policy) (clock_skew_seconds policy)
      verification_options = Ok claims.


(** ** How it fails *)

(** An exception that comes out of PyJWT or of the HTTP client. *)
Definition library_raised (e : exn) : Prop :=
  (∃ n, fetched fetch n = Raise e) ∨ (∃ t, get_unverified_header t = Raise e) ∨
  (∃ d, from_dict d = Raise e) ∨
  (∃ t k algs aud iss skew options, decode t k algs aud iss skew options = Raise e).

Definition authentication_codes : list string :=
  ["AUTH_TOKEN_INVALID"; "AUTH_ROLE_REQUIRED"; "AUTH_TOKEN_EXPIRED"; "AUTH_ISSUER_MISMATCH";
   "AUTH_AUDIENCE_MISMATCH"].

(** What the body of [authenticate] raises: a listed failure, an exception of its own that its
    handlers take, or one of a library. *)
Definition token_failure (e : exn) : Prop :=
  (∃ code, code ∈ authentication_codes ∧ e = Exn AuthenticationFailed [code]) ∨
  exn_cls e ∈ [TypeError; ValueError; JwksResolutionError] ∨ library_raised e.

Lemma failure_code code : str_in code authentication_codes = true → token_failure (Exn AuthenticationFailed [code]).
Proof. intros Hc%str_in_spec. left. by exists code. Qed.

Lemma own_failure c msg : bool_decide (c ∈ [TypeError; ValueError; JwksResolutionError]) = true →
  token_failure (Exn c [msg]).
Proof. intros Hc%bool_decide_eq_true. right. by left. Qed.

#[local] Hint Extern 1 (token_failure (Exn AuthenticationFailed _)) => (apply failure_code; reflexivity) : fails.
#[local] Hint Extern 1 (token_failure (Exn _ _)) => (apply own_failure; reflexivity) : fails.

Lemma claim_path_fails v parts : fails_in token_failure (claim_path v parts).
Proof. revert v. induction parts as [|part parts IH]; intros v; cbn [claim_path]; unfold failed; fails_steps. Qed.

Lemma claim_fails claims name : fails_in token_failure (_claim claims name).
Proof. apply claim_path_fails. Qed.
#[local] Hint Resolve claim_fails : fails.

Lemma required_claim_fails claims name : fails_in token_failure (_required_claim claims name).
Proof. unfold _required_claim, claim_text, failed. fails_steps. Qed.
#[local] Hint Resolve required_claim_fails : fails.

Lemma make_identity_fails i : fails_in token_failure (make_identity i).
Proof. unfold make_identity. fails_steps. Qed.
#[local] Hint Resolve make_identity_fails : fails.

Lemma roles_fails claims name : fails_in token_failure (_roles claims name).
Proof. unfold _roles, raw_roles, failed. fails_steps. Qed.
#[local] Hint Resolve roles_fails : fails.

Lemma groups_fails claims name : fails_in token_failure (_groups claims name).
Proof. unfold _groups, failed. fails_steps. Qed.
#[local] Hint Resolve groups_fails : fails.

Lemma optional_claim_fails claims name : fails_in token_failure (_optional_claim claims name).
Proof. unfold _optional_claim, claim_text, failed. fails_steps. Qed.
#[local] Hint Resolve optional_claim_fails : fails.

Lemma map_claims_fails policy claims : fails_in token_failure (_map_claims policy claims).
Proof. unfold _map_claims, actor_kind, enum_of, tenant_context. fails_steps. Qed.

Lemma library_failure e : library_raised e → token_failure e.
Proof. intros He. right. by right. Qed.

Lemma from_dict_fails d : fails_in token_failure (from_dict d).
Proof. intros e He. apply library_failure. right; right; left. by exists d. Qed.
#[local] Hint Resolve from_dict_fails : fails.

Lemma jwk_entries_fails parsed items : fails_in token_failure (jwk_entries parsed items).
Proof.
  revert parsed. induction items as [|raw items IH]; intros parsed; cbn [jwk_entries]; unfold jwk_entry; fails_steps.
Qed.

Lemma read_clock_fails : run_fails_in token_failure (read_clock clock).
Proof. done. Qed.
#[local] Hint Resolve read_clock_fails : fails.

Lemma refresh_fails p : run_fails_in token_failure (_refresh fetch clock p).
Proof.
  unfold _refresh. apply run_fails_bind; [|intros payload; apply run_fails_bind; [|intros parsed; fails_steps]].
  - intros s. unfold fetch_document. cbn [fst].
    apply (fails_rescue _ (λ e, fetched fetch (fetches s) = Raise e)); [by intros e|]. intros e He.
    destruct (_ || _); [apply own_failure; reflexivity|]. apply library_failure. left. by exists (fetches s).
  - apply run_fails_lift. unfold parse_jwks. fails_steps.
    apply (fails_rescue _ token_failure); [apply jwk_entries_fails|]. intros e He.
    destruct (_ || _); [apply own_failure; reflexivity|done].
Qed.
#[local] Hint Resolve refresh_fails : fails.

#[local] Hint Resolve map_claims_fails : fails.

Lemma verify_token_fails policy p token : run_fails_in token_failure (verify_token fetch clock policy p token).
Proof.
  unfold verify_token, get_key. fails_steps.
  - intros e He. apply library_failure. right; left. by exists token.
  - intros e He. apply library_failure. do 3 right. by eexists _, _, _, _, _, _, _.
Qed.

(** Authentication fails closed and says little: what leaves [authenticate] is an
    AuthenticationFailed with one of five codes, or an exception of the HTTP client or of PyJWT
    that is outside the classes the code names (PyJWTError, TypeError, ValueError and, for the
    client, HTTPError). *)
Theorem authentication_failures policy p token s e s' :
  oidc_authenticate fetch clock policy p token s = (Raise e, s') →
  (∃ code, code ∈ authentication_codes ∧ e = Exn AuthenticationFailed [code]) ∨
  (library_raised e ∧ is_pyjwt_error (exn_cls e) = false ∧ is_value_error (exn_cls e) = false ∧
   exn_cls e ≠ TypeError) ∨ (library_raised e ∧ exn_cls e = AuthenticationFailed).
Proof.
  unfold oidc_authenticate. intros HH. pose proof (verify_token_fails policy p token s) as Hf.
  destruct (verify_token fetch clock policy p token s) as [[a|e'] s1]; [done|].
  injection HH as <- <-. specialize (Hf e' eq_refl). destruct Hf as [(code & Hc & ->)|[Hown|Hlib]].
  - left. by exists code.
  - left. exists AUTH_TOKEN_INVALID. split; [left|]. destruct e' as [c args]. cbn in Hown.
    by elem_cases Hown; subst.
  - destruct e' as [c args]. unfold authentication_failure. cbn [exn_cls].
    destruct c; cbn; try (by right; left); try (by right; right);
      try (left; eexists; split; [|reflexivity]; apply str_in_spec; reflexivity).
Qed.
End authentication.

(** ** The cache under a sequence of requests *)

Section serving.
Context `{Jwt} (fetch : nat → result Response) (clock : nat → Z).

(** The cache after a sequence of tokens was presented. *)
Definition serve (policy : OidcPolicy) (p : JwksProvider) (tokens : list string) (s : JwksCache) : JwksCache :=
  fold_left (λ s token, (oidc_authenticate fetch clock policy p token s).2) tokens s.

(** A run makes at most [n] more fetches. *)
Definition at_most {A} (n : nat) (m : stateful JwksCache A) : Prop := ∀ s, fetches (m s).2 ≤ n + fetches s.

Lemma at_most_bind {A B} n1 n2 (m : stateful JwksCache A) (f : A → stateful JwksCache B) :
  at_most n1 m → (∀ a, at_most n2 (f a)) → at_most (n1 + n2) (m ≫= f).
Proof.
  intros Hm Hf s. unfold mbind, stateful_bind. specialize (Hm s).
  destruct (m s) as [[a|e] s1]; cbn in *; [|lia]. specialize (Hf a s1). lia.
Qed.

Lemma at_most_0 {A} (m : stateful JwksCache A) n : (∀ s, fetches (m s).2 = fetches s) → at_most n m.
Proof. intros Hm s. rewrite Hm. lia. Qed.

Lemma refresh_at_most p : at_most 1 (_refresh fetch clock p).
Proof.
  intros s. unfold _refresh, mbind, stateful_bind, fetch_document.
  destruct (rescue _ _); [|done]. unfold lift. by destruct (parse_jwks _ _).
Qed.

Lemma get_key_at_most p kid algorithm : at_most 2 (get_key fetch clock p kid algorithm).
Proof.
  unfold get_key. apply (at_most_bind 0 2); [by apply at_most_0|intros _].
  apply (at_most_bind 0 2); [by apply at_most_0|intros now].
  apply (at_most_bind 0 2); [by apply at_most_0|intros expiry].
  apply (at_most_bind 1 1); [destruct (_ <=? _)%Z; [apply refresh_at_most|by apply at_most_0]|intros _].
  apply (at_most_bind 0 1); [by apply at_most_0|intros cached].
  apply (at_most_bind 1 0).
  - destruct cached; [by apply at_most_0|].
    apply (at_most_bind 1 0); [apply refresh_at_most|intros _; by apply at_most_0].
  - intros [[name material]|]; [|by apply at_most_0].
    apply (at_most_bind 0 0); [by apply at_most_0|intros _; by apply at_most_0].
Qed.

Lemma authenticate_at_most policy p token : at_most 2 (oidc_authenticate fetch clock policy p token).
Proof.
  assert (at_most 2 (verify_token fetch clock policy p token)) as Hv.
  { unfold verify_token. apply (at_most_bind 0 2); [by apply at_most_0|intros _].
    apply (at_most_bind 0 2); [by apply at_most_0|intros header].
    apply (at_most_bind 0 2); [by apply at_most_0|intros [algorithm kid]].
    apply (at_most_bind 2 0); [apply get_key_at_most|intros key].
    apply (at_most_bind 0 0); [by apply at_most_0|intros claims; by apply at_most_0]. }
  intros s. unfold oidc_authenticate. specialize (Hv s).
  by destruct (verify_token fetch clock policy p token s).
Qed.

Lemma serve_step policy p tokens s :
  cache_step fetch clock p s (serve policy p tokens s) ∧
  fetches (serve policy p tokens s) ≤ 2 * length tokens + fetches s.
Proof.
  revert s. induction tokens as [|token tokens IH]; intros s; cbn [serve fold_left length]; [split; [done|lia]|].
  pose proof (authenticate_step fetch clock policy p token s) as H1.
  pose proof (authenticate_at_most policy p token s) as H2.
  destruct (IH (oidc_authenticate fetch clock policy p token s).2) as [H3 H4]. unfold serve in *. split; [by etrans|lia].
Qed.

(** Whatever tokens are presented to a new provider, its cache holds the keys of one answer
    of the issuer and no others: every key was published there as a signing key of type RSA or
    EC under its identifier, there are at most as many as the limit, and they expire the
    configured time after the reading of the clock that followed the answer. A request costs at
    most two fetches, and a refresh that fails leaves the keys and their expiry as they were. *)
Theorem verification_key_cache policy p tokens :
  let s := serve policy p tokens empty_cache in
  cache_ok fetch clock p s ∧ fetches s ≤ 2 * length tokens ∧
  ∀ t e t', _refresh fetch clock p t = (Raise e, t') →
    cached_keys t' = cached_keys t ∧ expires_at t' = expires_at t.
Proof.
  destruct (serve_step policy p tokens empty_cache) as [H1 H2]. cbv zeta. split_and!.
  - eapply cache_step_ok; [exact H1|by left].
  - cbn [fetches empty_cache] in H2. lia.
  - intros t e t'. unfold _refresh, mbind, stateful_bind, fetch_document.
    destruct (rescue _ _); [|by intros [= _ <-]]. unfold lift.
    by destruct (parse_jwks _ _); [|intros [= _ <-]].
Qed.
End serving.

(** ** Multi-factor authentication *)

Lemma meets_spec l m : meets l m = true ↔ ∃ s, s ∈ l ∧ s ∈ m.
Proof.
  unfold meets. rewrite existsb_true_Exists, Exists_exists. by setoid_rewrite str_in_spec.
Qed.

(** The policy is exact: a caller with no role under the policy needs no evidence; any other
    passes exactly with evidence under the current version of the policy, with an allowed
    context class, an allowed method, and an authentication that is not in the future and not
    older than the maximum; every other caller is refused. *)
Theorem mfa_require_exact p roles evidence now :
  (mfa_require p roles evidence now = Ok tt ↔
    (∀ r, r ∈ roles → r ∉ required_roles p) ∨
    ∃ e t method, evidence = Some e ∧ acr e ∈ allowed_acr p ∧ method ∈ amr e ∧ method ∈ allowed_methods p ∧
      mfa_policy_version e = mfa_version p ∧ authenticated_at e = Some t ∧ (now - max_auth_age p ≤ t ≤ now)%Z) ∧
  (mfa_require p roles evidence now ≠ Ok tt → mfa_require p roles evidence now = Raise (Exn MfaRequired ["MFA_REQUIRED"])).
Proof.
  unfold mfa_require. destruct (meets roles (required_roles p)) eqn:Hr; cbn [negb]; split.
  - apply meets_spec in Hr as (r & H1 & H2). rewrite require_Ok. split.
    + destruct evidence as [e|]; [|done]. unfold mfa_satisfied.
      destruct (authenticated_at e) as [t|] eqn:Ht; rewrite ?andb_false_r; [|done]. intros He. bool_prop.
      destruct He as [[[Ha (method & Hm)%meets_spec] Hv] [Hage Hpast]]. right. exists e, t, method.
      apply Z.leb_le in Hage, Hpast. split_and!; try tauto; lia.
    + intros [Hno|(e & t & method & -> & Ha & Hm & Hm' & Hv & Ht & Hage)]; [by destruct (Hno r)|].
      unfold mfa_satisfied. rewrite Ht. bool_prop. rewrite meets_spec, !Z.leb_le.
      split_and!; try done; try lia. by exists method.
  - destruct (match evidence with Some _ => _ | None => _ end); [done|by intros _].
  - split; [|done]. intros _. left. intros r Hin Hreq. apply not_true_iff_false in Hr. apply Hr, meets_spec. eauto.
  - done.
Qed.

(** ** The choice of an authenticator *)

(** In production there is no static authenticator, and both URLs of the trust anchor are trusted. *)
Lemma production_authenticator `{UrlLibrary} mode ids policy uri client a :
  create_authenticator PRODUCTION mode ids policy uri client = Ok a →
  ∃ q u keys, policy = Some q ∧ uri = Some u ∧ a = OidcAuthenticator q keys ∧ provider_uri keys = u ∧
    trusted_url (allow_insecure_loopback q) (issuer q) = Ok true ∧
    trusted_url (allow_insecure_loopback q) u = Ok true.
Proof.
  unfold create_authenticator. destruct mode; [done|]. cbn [bool_decide decide negb andb require mbind result_bind].
  destruct policy as [q|], uri as [u|], client; try done. unfold jwks_provider. intros HH. inv_ok.
  destruct x1; [|inv_ok; done]. inv_ok. eauto 10.
Qed.

(** ** A concrete run *)

Definition sample_claims : mapping :=
  [("sub", PStr "alice"); ("tenant_id", PStr "t1"); ("role", PList [PStr "offline_access"; PStr "auditor"; PStr "decision_approver"]);
   ("actor_kind", PStr "HUMAN"); ("azp", PStr "da-web"); ("scope", PStr "openid da.api")].

(** A library of one token, signed under the key [k1]. *)
#[export] Instance sample_jwt : Jwt := {|
  Key := string;
  get_unverified_header := λ t, if t =? "token" then Ok [("alg", PStr "RS256"); ("kid", PStr "k1")] else raise PyJWTError "";
  from_dict := λ d, match lookup_or d "n" PNone with PStr n => Ok ("RS256", n) | _ => raise PyJWTError "" end;
  decode := λ t k _ _ _ _ _, if (t =? "token") && (k =? "modulus") then Ok sample_claims else raise PyJWTError ""
|}.

Definition sample_jwks : pyval :=
  PDict [("keys", PList [PDict [("use", PStr "enc"); ("kty", PStr "RSA")];
                         PDict [("kid", PStr "k1"); ("kty", PStr "RSA"); ("n", PStr "modulus")]])].
Definition sample_fetch (n : nat) : result Response := Ok (mkResponse 200 (Ok tt) (Ok sample_jwks)).
Definition sample_clock (n : nat) : Z := 1000 + Z.of_nat n.
Definition sample_oidc_policy : OidcPolicy :=
  mkOidcPolicy "https://idp.test" "da" ["RS256"] "tenant_id" "sub" "role" "actor_kind" None None 30
    ["da-web"] ["da.api"] false.
Definition sample_provider : JwksProvider := mkProvider "https://idp.test/keys" 300 20.

Definition sample_authentication : result Identity * JwksCache :=
  oidc_authenticate sample_fetch sample_clock sample_oidc_policy sample_provider "token" empty_cache.

Lemma sample_authenticated :
  succeeds_with sample_authentication.1 (λ i, (identity_actor i =? "alice") && bool_decide (identity_role i = APPROVER)) = true.
Proof. vm_compute. reflexivity. Qed.


Lemma authentication_failures_witness :
  ∃ e s', oidc_authenticate sample_fetch sample_clock sample_oidc_policy sample_provider "other" empty_cache = (Raise e, s') ∧
    (e = Exn AuthenticationFailed ["AUTH_TOKEN_INVALID"] ∧
     (library_raised sample_fetch e → exn_cls e = AuthenticationFailed)).
Proof.
  destruct (oidc_authenticate sample_fetch sample_clock sample_oidc_policy sample_provider "other" empty_cache)
    as [r s'] eqn:E.
  assert (r = Raise (Exn AuthenticationFailed ["AUTH_TOKEN_INVALID"])) as Hr.
  { transitivity ((oidc_authenticate sample_fetch sample_clock sample_oidc_policy sample_provider "other" empty_cache).1);
      [by rewrite E|vm_compute; reflexivity]. }
  subst r. eexists _, s'. split; [reflexivity|]. split; [reflexivity|]. intros _.
  destruct (authentication_failures sample_fetch sample_clock _ _ _ _ _ _ E) as [(code & _ & Hc)|[(_ & _ & Hv & _)|[_ Hc]]];
    [by inversion Hc|by vm_compute in Hv|exact Hc].
Defined.

Lemma verification_key_cache_witness :
  let s := serve sample_fetch sample_clock sample_oidc_policy sample_provider ["token"; "other"; "token"] empty_cache in
  cached_keys s !! "k1" = Some ("RS256", "modulus") ∧ fetches s = 1 ∧ expires_at s = 1301%Z ∧
  cache_ok sample_fetch sample_clock sample_provider s.
Proof.
  split; [vm_compute; reflexivity|]. split; [vm_compute; reflexivity|]. split; [vm_compute; reflexivity|].
  apply (verification_key_cache sample_fetch sample_clock sample_oidc_policy sample_provider ["token"; "other"; "token"]).
Defined.
