(* ===== verification/DeploymentProps.v ===== *)
(** * What the pilot gate and an acceptance guarantee

    Theorems over [Deployment]: the gate lets a bundle pass exactly when its evidence is complete,
    and an accepted pilot rests on attested evidence and on an independent human reviewer, and is
    recorded once. *)

From S2P Require Import Prelude Hmac PyVal JsonNumber Json JsonLoads Sha256 PyTime Identity PyDecimal ResearchEvidence UrlPolicy Config Events Export ExportValidator Deployment EgressProps ResearchSamples Samples.
From stdpp Require Import options.
#[local] Set Default Proof Using "Type*".

(** ** The evidence by kind *)

Lemma by_kind_items l : NoDup (map kind l) → map snd (by_kind l) = l.
Proof.
  intros Hl. unfold by_kind.
  enough (Hgen : ∀ acc, NoDup (acc.*1 ++ map kind l) →
    foldl (λ d item, assoc_set (kind item) item d) acc l = acc ++ map (λ e, (kind e, e)) l).
  { rewrite Hgen by done. cbn. rewrite map_map. apply map_id. }
  clear Hl. induction l as [|e l IH]; intros acc Hacc; cbn; [by rewrite app_nil_r|].
  cbn in Hacc. rewrite assoc_set_new.
  - rewrite IH; [by rewrite <-app_assoc|]. by rewrite fmap_app, <-app_assoc.
  - apply NoDup_app in Hacc as (_ & Hdis & _). intros Hin. apply (Hdis _ Hin). left.
Qed.

Lemma because_nil b reason : because b reason = [] ↔ b = false.
Proof. by destruct b. Qed.

Lemma missing_evidence_nil items : missing_evidence items = [] ↔ ∀ k, k ∈ REQUIRED_EVIDENCE → ∃ e, e ∈ items ∧ kind e = k.
Proof.
  unfold missing_evidence. split.
  - intros Hnil k Hk. destruct (decide (k ∈ map kind items)) as [Hin|Hni].
    + apply list_elem_of_fmap in Hin as (e & -> & He). by exists e.
    + assert (k ∈ filter (λ k, k ∉ map kind items) REQUIRED_EVIDENCE) as Hf by by apply list_elem_of_filter.
      rewrite Hnil in Hf. by apply elem_of_nil in Hf.
  - intros Hall. apply elem_of_nil_inv. intros k [Hni (e & He & <-)%Hall]%list_elem_of_filter.
    apply Hni, list_elem_of_fmap. by exists e.
Qed.

Section gate.
Context `{HashAlg} `{FloatText} `{BytesText} `{UrlLibrary} `{CaseFolding}.

(** The store of artifacts has the item's artifact, and it matches the item. *)
Definition resolved (g : Gate) (e : EvidenceItem) : Prop :=
  ∃ a, resolve g (item_digest e) = Some a ∧ _artifact_matches e a = Ok true.

(** Observed within [max_age] before [now]. *)
Definition fresh_at (g : Gate) (t : datetime) (now : Z) : Prop :=
  ∃ m, utc_micros t = Ok m ∧ (m <= now <= m + max_age g)%Z.

(** What the gate is to establish. *)
Record evidence_complete (g : Gate) (b : DeploymentBundle) (now : Z) : Prop := {
  ec_present : ∀ k, k ∈ REQUIRED_EVIDENCE → ∃ e, e ∈ bundle_evidence b ∧ kind e = k;
  ec_items : ∀ e, e ∈ bundle_evidence b →
    verified e = true ∧ item_source e ≠ "SELF_DECLARED" ∧
    (item_deployment e = bundle_deployment b ∧ item_tenant e = bundle_tenant b ∧ item_commit e = bundle_commit b) ∧
    resolved g e ∧ fresh_at g (item_observed_at e) now;
  ec_created : fresh_at g (bundle_created_at b) now
}.

Lemma unresolved_artifact_spec g l u : unresolved_artifact g l = Ok u → u = false ↔ ∀ e, e ∈ l → resolved g e.
Proof.
  induction l as [|e l IH]; cbn [unresolved_artifact].
  { intros [= <-]. split; [|done]. intros _ e He. by apply elem_of_nil in He. }
  intros (matches & Hm & HH)%bind_Ok. setoid_rewrite elem_of_cons.
  destruct (resolve g (item_digest e)) as [a|] eqn:Ha; [|injection Hm as <-; cbn in HH; injection HH as <-].
  - destruct matches; [apply IH in HH; rewrite HH|injection HH as <-].
    + split; [|by auto]. intros Hl e' [->|?]; [by exists a|by auto].
    + split; [done|]. intros Hl. destruct (Hl e) as (a' & Ha' & Hm'); [by left|]. congruence.
  - split; [done|]. intros Hl. destruct (Hl e) as (a' & Ha' & _); [by left|]. congruence.
Qed.

Lemma any_observed_spec test l u :
  any_observed test l = Ok u →
  u = false ↔ ∀ e, e ∈ l → ∃ m, utc_micros (item_observed_at e) = Ok m ∧ test m = false.
Proof.
  induction l as [|e l IH]; cbn [any_observed].
  { intros [= <-]. split; [|done]. intros _ e He. by apply elem_of_nil in He. }
  intros (m & Hm & HH)%bind_Ok. setoid_rewrite elem_of_cons.
  destruct (test m) eqn:Et; [injection HH as <-|apply IH in HH; rewrite HH].
  - split; [done|]. intros Hl. destruct (Hl e) as (m' & Hm' & Ht); [by left|]. congruence.
  - split; [|by auto]. intros Hl e' [->|?]; [by exists m|by auto].
Qed.

Lemma bound_to_spec b e :
  bound_to b e = true ↔
  item_deployment e = bundle_deployment b ∧ item_tenant e = bundle_tenant b ∧ item_commit e = bundle_commit b.
Proof. unfold bound_to. rewrite !andb_true_iff, !String.eqb_eq. tauto. Qed.

Lemma bundle_kinds b : deployment_bundle b = Ok b → NoDup (map kind (bundle_evidence b)).
Proof. unfold deployment_bundle. intros Hb. inv_ok. by bool_prop. Qed.

Lemma evaluate_reasons g b now r :
  deployment_bundle b = Ok b → evaluate g b now = Ok r →
  gate_status r = (if bool_decide (gate_reasons r = []) then PILOT_REVIEW_REQUIRED else BLOCKED) ∧
  (gate_reasons r = [] ↔ evidence_complete g b now).
Proof.
  intros Hb%bundle_kinds%by_kind_items. unfold evaluate. rewrite Hb. clear Hb. intros HH.
  apply bind_Ok in HH as (u & Hu%unresolved_artifact_spec & HH).
  apply bind_Ok in HH as (stale & Hs%any_observed_spec & HH).
  apply bind_Ok in HH as (future & Hf%any_observed_spec & HH).
  apply bind_Ok in HH as (created & Hc & HH).
  match type of HH with context [mkGate _ ?l] => set (reasons := l) in HH end.
  injection HH as <-. cbn [gate_status gate_reasons]. split; [done|]. subst reasons.
  rewrite !app_nil, !because_nil, Hu, Hs, Hf, negb_false_iff, bool_decide_eq_true, missing_evidence_nil,
    !existsb_false_Forall, !Forall_forall, !Z.ltb_ge.
  setoid_rewrite negb_false_iff. setoid_rewrite Z.ltb_ge. setoid_rewrite bound_to_spec. setoid_rewrite String.eqb_neq.
  split.
  - intros (Hp & Hv & Hd & Hbound & Hr & Hst & Hfu & Hca & Hcf).
    split; [done| |exists created; split; [done|lia]].
    intros e He. destruct (Hst e He) as (m & Hm & ?), (Hfu e He) as (m' & Hm' & ?).
    split; [auto|split; [auto|split; [by apply Hbound|split; [auto|]]]].
    assert (m' = m) as -> by congruence. exists m. split; [done|lia].
  - intros [Hp Hitems (m & Hm & Hfresh)]. assert (m = created) as -> by congruence.
    assert (Ht : ∀ e, e ∈ bundle_evidence b → fresh_at g (item_observed_at e) now) by (intros e He; apply (Hitems e He)).
    split_and!; [done|(intros e He; apply (Hitems e He))..| | |lia|lia]; intros e (m' & ? & ?)%Ht; exists m'; split; (done || lia).
Qed.

Lemma gate_passed g b now r :
  deployment_bundle b = Ok b → evaluate g b now = Ok r → gate_status r = PILOT_REVIEW_REQUIRED →
  evidence_complete g b now.
Proof.
  intros Hb Hr Hp. destruct (evaluate_reasons _ _ _ _ Hb Hr) as [Hs Hiff]. rewrite Hs in Hp.
  by case_bool_decide as Hn; [apply Hiff|].
Qed.

(** The pilot gate is exact. Of a well-formed bundle that it evaluates, it asks for the review
    of the pilot, with no reason against, exactly when every required kind of evidence is present
    and every item is verified, not self-declared, bound to the deployment, the tenant and the
    commit of the bundle, backed by an artifact that matches it, and observed within the maximum
    age, not in the future, and so is the bundle created; in every other case it blocks and names
    a reason. *)
Theorem pilot_gate_exact g b now r :
  deployment_bundle b = Ok b → evaluate g b now = Ok r →
  (gate_status r = PILOT_REVIEW_REQUIRED ∧ gate_reasons r = [] ∧ evidence_complete g b now) ∨
  (gate_status r = BLOCKED ∧ gate_reasons r ≠ [] ∧ ¬ evidence_complete g b now).
Proof.
  intros Hb Hr. destruct (evaluate_reasons _ _ _ _ Hb Hr) as [-> <-].
  case_bool_decide; [left|right]; done.
Qed.

(** ** What a matching artifact attests *)

(** The artifact [a] is the content under the item's digest: a JSON object that names the kind,
    the deployment, the tenant and the commit of the bundle, says it was verified, was measured
    or comes from the repository, and carries a payload of the version and the shape of the kind. *)
Record attests (b : DeploymentBundle) (e : EvidenceItem) (a : string) : Prop := {
  at_digest : item_digest e = "sha256:" +:+ hexdigest a;
  at_object : ∃ raw payload, json_of a = Ok (PDict raw) ∧
    lookup_or raw "kind" PNone = PStr (kind e) ∧
    lookup_or raw "deployment_id" PNone = PStr (bundle_deployment b) ∧
    lookup_or raw "tenant_id" PNone = PStr (bundle_tenant b) ∧
    lookup_or raw "commit_sha" PNone = PStr (bundle_commit b) ∧
    lookup_or raw "verified" PNone = PBool true ∧
    (∃ s, lookup_or raw "source" PNone = PStr s ∧ s ≠ "SELF_DECLARED") ∧
    lookup_or raw "payload" PNone = PDict payload ∧
    lookup_or payload "schema_version" PNone = PStr "1.0.0" ∧ dict_payload_matches payload e = Ok true
}.

Lemma artifact_attests b e a :
  verified e = true → item_source e ≠ "SELF_DECLARED" →
  item_deployment e = bundle_deployment b ∧ item_tenant e = bundle_tenant b ∧ item_commit e = bundle_commit b →
  _artifact_matches e a = Ok true → attests b e a.
Proof.
  intros Hv Hs (Hd & Ht & Hc) HH. unfold _artifact_matches in HH.
  destruct (_ || negb (_constant_digest a (item_digest e))) eqn:Hg; [done|].
  apply orb_false_iff in Hg as [_ Hg]. apply negb_false_iff, String.eqb_eq in Hg.
  destruct (json_of a) as [[| | | | | |raw]|ex] eqn:Hj; try done; [|by destruct (bool_decide _)].
  destruct (has_exactly artifact_fields raw && binding_matches e raw) eqn:Hb; [|done].
  apply andb_true_iff in Hb as [_ Hb]. unfold binding_matches in Hb. cbv zeta in Hb.
  rewrite !andb_true_iff, !py_eq_str_r in Hb. destruct Hb as ((((((K1 & K2) & K3) & K4) & K5) & _) & K6).
  destruct (lookup_or raw "verified" PNone) as [|v| | | | |] eqn:Hver; try done. apply Bool.eqb_prop in K5 as ->.
  unfold _payload_matches in HH. destruct (lookup_or raw "payload" PNone) as [| | | | | |p] eqn:Hp; try done.
  split; [done|]. exists raw, p. rewrite <-Hd, <-Ht, <-Hc. split_and!; try done; [congruence|by exists (item_source e)|].
  unfold dict_payload_matches, payload_is in HH.
  destruct (py_eq (lookup_or p "schema_version" PNone) (PStr "1.0.0")) eqn:Hver'; [by apply py_eq_str_r in Hver'|done].
Qed.
End gate.

(** ** Acceptance *)

(** What a log of acceptances promises: an accepted event is its last, a refused one leaves it. *)
Class AcceptanceAuditLaws (Log : Type) `{AcceptanceAudit Log} := {
  append_accepted e s s' : append_acceptance e s = (Ok tt, s') → accepted_events s' = accepted_events s ++ [e];
  append_refused e s x s' : append_acceptance e s = (Raise x, s') → accepted_events s' = accepted_events s
}.

#[export] Instance in_memory_audit_laws : AcceptanceAuditLaws (list EventEnvelope).
Proof. split; [by intros e s s' [= <-]|done]. Qed.

#[export] Instance postgres_audit_laws `{BytesText} `{CaseFolding} : AcceptanceAuditLaws AcceptanceTable.
Proof.
  split; cbn; unfold zoom, transaction, postgres_append; intros e s.
  - intros s'. destruct (parse (envelope_dict e)); cbn; [|done].
    destruct (existsb (same_event_key e) (acceptance_rows s)); cbn; [done|]. by intros [= <-].
  - intros x s'. destruct (parse (envelope_dict e)); cbn; [|by intros [= _ <-]].
    destruct (existsb (same_event_key e) (acceptance_rows s)); cbn; [by intros [= _ <-]|done].
Qed.

(** Who may accept the pilot of [b]. *)
Definition independent_reviewer (b : DeploymentBundle) (reviewer : Identity) : Prop :=
  identity_kind reviewer = HUMAN ∧ REVIEWER ∈ identity_roles reviewer ∧
  tenant_id (identity_tenant reviewer) = bundle_tenant b ∧ identity_actor reviewer ≠ creator b.

Section acceptance.
Context `{HashAlg} `{FloatText} `{BytesText} `{UrlLibrary} `{CaseFolding} {Log : Type} `{AcceptanceAuditLaws Log}.

Definition acceptance_of (b : DeploymentBundle) (reviewer : Identity) (correlation : string) : AcceptanceRecord :=
  mkAcceptance PILOT_ACCEPTED (bundle_deployment b) (creator b) (identity_actor reviewer)
    (acceptance_event_id b (identity_actor reviewer) correlation).

Lemma accept_triple b technical reviewer correlation now l :
  triple (λ s, accepted_events s = l) (accept b technical reviewer correlation now)
    (λ rec s, accepted_events s = l ++ [acceptance_event b (identity_actor reviewer) correlation now] ∧
       rec = acceptance_of b reviewer correlation ∧ gate_status technical = PILOT_REVIEW_REQUIRED ∧
       independent_reviewer b reviewer ∧ str_blank correlation = false)
    (λ s, accepted_events s = l).
Proof.
  intros s Hs. unfold accept, acceptance_of, guard_with, lift, mbind, stateful_bind.
  destruct (require (bool_decide (gate_status technical = _)) _ _) as [[]|] eqn:Hgate; [|done].
  destruct (require (_ && _) _ _) as [[]|] eqn:Hrole; [|done].
  destruct (require (tenant_id _ =? _) _ _) as [[]|] eqn:Ht; [|done].
  destruct (compare_digest _ _) as [same|] eqn:Hsame; [|done].
  destruct (require (negb same) _ _) as [[]|] eqn:Hind; [|done].
  destruct (require (negb (str_blank _)) _ _) as [[]|] eqn:Hc; [|done].
  destruct (append_acceptance _ s) as [[[]|e] s'] eqn:Ha; [|by apply append_refused in Ha; rewrite Ha].
  apply append_accepted in Ha. unfold compare_digest in Hsame. inv_ok. bool_prop. cbn.
  rewrite Ha. unfold independent_reviewer. split_and!; tauto || done || congruence.
Qed.

(** C20: an accepted pilot rests on attested evidence and on an independent human. When the
    transition accepts on the answer the gate gave for the bundle, the reviewer is a human with
    the reviewer's role, of the tenant of the bundle and not its creator, and for every required
    kind of evidence the store holds an artifact that attests it for this deployment, tenant and
    commit; exactly one event, naming the reviewer, is appended to the log, in memory or in
    PostgreSQL. When the transition fails, the log is as it was. *)
Theorem accepted_pilot g b evaluated technical reviewer correlation now s :
  deployment_bundle b = Ok b → evaluate g b evaluated = Ok technical →
  match accept b technical reviewer correlation now s with
  | (Ok record, s') =>
      record = acceptance_of b reviewer correlation ∧ independent_reviewer b reviewer ∧
      accepted_events s' = accepted_events s ++ [acceptance_event b (identity_actor reviewer) correlation now] ∧
      ∀ k, k ∈ REQUIRED_EVIDENCE → ∃ e a, e ∈ bundle_evidence b ∧ kind e = k ∧
        resolve g (item_digest e) = Some a ∧ attests b e a
  | (Raise _, s') => accepted_events s' = accepted_events s
  end.
Proof.
  intros Hb He. pose proof (accept_triple b technical reviewer correlation now _ s eq_refl) as Ha.
  destruct (accept b technical reviewer correlation now s) as [[record|x] s']; [|done].
  destruct Ha as (Hlog & Hrec & Hpass & Hrev & _). split_and!; [done..|]. intros k Hk.
  apply (gate_passed _ _ _ _ Hb He) in Hpass as [Hp Hitems _]. destruct (Hp k Hk) as (e & Hin & <-).
  destruct (Hitems e Hin) as (Hv & Hsrc & Hbound & (a & Hr & Hm) & _).
  exists e, a. split_and!; [done..|by apply artifact_attests].
Qed.
End acceptance.

(** ** A complete bundle *)

Section sample.
Let alg : HashAlg := Sha256.sha256.
Let bytes : BytesText := λ s, Ok s.
#[local] Existing Instances alg bytes ascii_casefold sample_floats sample_urls.

Definition sample_commit : string := "0123456789abcdef0123456789abcdef01234567".
Definition sample_digest : string := "sha256:" +:+ Sha256.sha256 "".
Definition texts (l : list string) : list (string * pyval) := map (λ k, (k, PStr "a")) l.
Definition truths (l : list string) : list (string * pyval) := map (λ k, (k, PBool true)) l.

(** The payload of each kind, without its version. *)
Definition sample_payloads : list (string * mapping) :=
  [("ALERT_TEST_EVIDENCE", texts ["alert_name"; "receiver"] ++ truths ["triggered"; "notification_received"]);
   ("DATABASE_MIGRATION_EVIDENCE",
     ("database_schema_version", PStr "004") :: ("forced_rls_tables", PInt 28) ::
     truths ["application_role_tested"; "migration_role_tested"]);
   ("EDGE_CONFIGURATION_EVIDENCE",
     ("config_sha256", PStr sample_digest) :: ("validation_tool", PStr "a") ::
     truths ["host_allowlist_valid"; "tls_redirect_valid"]);
   ("INDEPENDENT_REVIEW_EVIDENCE",
     [("reviewer_id", PStr "a"); ("reviewed_commit_sha", PStr sample_commit); ("result", PStr "PASS");
      ("actor_independent", PBool true)]);
   ("MFA_POLICY_EVIDENCE", [("policy_version", PStr "a"); ("methods", PList [PStr "otp"]); ("flow_tested", PBool true)]);
   ("MONITORING_EVIDENCE",
     [("scrape_endpoint", PStr "a"); ("metric_names", PList [PStr "up"]); ("scrape_success", PBool true)]);
   ("MULTI_INSTANCE_EVIDENCE",
     ("instance_count", PInt 2) ::
     truths ["shared_session_verified"; "cross_instance_revoke_verified"; "tenant_isolation_verified"]);
   ("OIDC_REDIRECT_EVIDENCE", texts ["issuer"; "redirect_uri"] ++ truths ["exact_match"; "pkce_required"]);
   ("PUBLIC_HOST_EVIDENCE",
     [("hostname", PStr "a"); ("resolved_addresses", PList [PStr "93.184.216.34"]); ("public_only", PBool true)]);
   ("RECOVERY_EVIDENCE",
     [("status", PStr "PASS"); ("commit_sha", PStr sample_commit); ("report_sha256", PStr sample_digest);
      ("source_database", PStr "a"); ("restore_database", PStr "b"); ("observed_rpo_seconds", PInt 0);
      ("observed_rto_seconds", PInt 0); ("integrity_verified", PBool true)]);
   ("RETENTION_LEGAL_HOLD_EVIDENCE",
     texts ["retention_policy_version"] ++
     truths ["deletion_verified"; "legal_hold_block_verified"; "restore_resurrection_blocked"]);
   ("SIGNED_EXPORT_EVIDENCE",
     [("export_sha256", PStr sample_digest); ("algorithm", PStr "EdDSA"); ("key_id", PStr "a");
      ("offline_verified", PBool true)]);
   ("TLS_CERTIFICATE_EVIDENCE",
     [("host", PStr "a"); ("certificate_sha256", PStr sample_digest); ("not_before", PStr "2026-01-01T00:00:00Z");
      ("not_after", PStr "2027-01-01T00:00:00Z"); ("chain_verified", PBool true); ("minimum_tls", PStr "1.3")])].

Definition sample_artifact (k : string) (payload : mapping) : string :=
  canonical_json (PDict
    [("kind", PStr k); ("deployment_id", PStr "dep"); ("tenant_id", PStr "t1"); ("commit_sha", PStr sample_commit);
     ("verified", PBool true); ("observed_at", PStr (time_text midday)); ("source", PStr "MEASURED");
     ("payload", PDict (("schema_version", PStr "1.0.0") :: payload))]).

(** The artifacts under their digests. *)
Definition sample_artifacts : list (string * string) :=
  Eval vm_compute in map (λ kp, let a := sample_artifact kp.1 kp.2 in ("sha256:" +:+ Sha256.sha256 a, a)) sample_payloads.

Definition sample_items : list EvidenceItem :=
  zip_with (λ kp a, mkItem kp.1 true midday a.1 "MEASURED" "dep" "t1" sample_commit) sample_payloads sample_artifacts.

Definition sample_bundle : DeploymentBundle :=
  mkBundle "1.0.0" "dep" "t1" "controlled-pilot" sample_commit [("api", sample_digest)] [("api", sample_digest)]
    [("edge", sample_digest)] sample_items "VERIFIED" ["one host"] "alice" midday.

Definition sample_gate : Gate := mkGateOf 3600000000 (λ d, assoc d sample_artifacts).
Definition sample_now : Z := Eval vm_compute in match utc_micros midday with Ok m => m | Raise _ => 0%Z end.
Definition sample_reviewer : Identity := mkIdentity "rita" sample_tenant REVIEWER HUMAN None [] {[REVIEWER]} None [].

Lemma sample_bundle_valid : deployment_bundle sample_bundle = Ok sample_bundle.
Proof. vm_compute. reflexivity. Qed.

Lemma sample_gate_passes : evaluate sample_gate sample_bundle sample_now = Ok (mkGate PILOT_REVIEW_REQUIRED []).
Proof. vm_compute. reflexivity. Qed.

(** The bundle without its last item is blocked, with the kind that is missing. *)
Lemma incomplete_bundle_blocked :
  (b ← with_evidence sample_bundle (firstn 12 sample_items); evaluate sample_gate b sample_now) =
  Ok (mkGate BLOCKED ["MISSING_EVIDENCE:TLS_CERTIFICATE_EVIDENCE"]).
Proof. vm_compute. reflexivity. Qed.

(** The acceptance does not ask which bundle the gate has examined: with the answer for the
    complete bundle, the bundle without evidence is accepted. *)
Lemma unexamined_bundle_accepted :
  succeeds_with (with_evidence sample_bundle []) (λ b,
    is_ok (accept b (mkGate PILOT_REVIEW_REQUIRED []) sample_reviewer "c" midday (mkAcceptanceTable [])).1 &&
    match evaluate sample_gate b sample_now with
    | Ok r => bool_decide (gate_status r = BLOCKED)
    | Raise _ => false
    end) = true.
Proof. vm_compute. reflexivity. Qed.

Lemma pilot_gate_exact_witness : evidence_complete sample_gate sample_bundle sample_now.
Proof.
  destruct (pilot_gate_exact sample_gate sample_bundle sample_now _ sample_bundle_valid sample_gate_passes)
    as [(_ & _ & Hc)|(Hn & _)]; [exact Hc|discriminate Hn].
Defined.

Lemma accepted_pilot_witness :
  is_ok (accept sample_bundle (mkGate PILOT_REVIEW_REQUIRED []) sample_reviewer "c" midday (mkAcceptanceTable [])).1 = true ∧
  match accept sample_bundle (mkGate PILOT_REVIEW_REQUIRED []) sample_reviewer "c" midday (mkAcceptanceTable []) with
  | (Ok _, s) => length (acceptance_rows s) = 1 ∧ independent_reviewer sample_bundle sample_reviewer
  | _ => False
  end.
Proof.
  assert (Ha : is_ok (accept sample_bundle (mkGate PILOT_REVIEW_REQUIRED []) sample_reviewer "c" midday
    (mkAcceptanceTable [])).1 = true) by (vm_compute; reflexivity).
  split; [exact Ha|].
  pose proof (accepted_pilot (Log := AcceptanceTable) sample_gate sample_bundle sample_now _ sample_reviewer "c" midday
    (mkAcceptanceTable []) sample_bundle_valid sample_gate_passes) as Hp.
  destruct (accept _ _ _ _ _ _) as [[r|e] s]; [|discriminate Ha].
  destruct Hp as (_ & Hr & Hlog & _). split; [|exact Hr]. cbn in Hlog. rewrite Hlog. reflexivity.
Defined.
End sample.
