(* ===== verification/PilotUiProps.v ===== *)
(** * Sessions of the pilot's user interface rest on a login

    Theorems over [Sessions], [BrowserOidc] and [PilotUi], proved against the interface of the
    session store and discharged by the store in memory and the one in PostgreSQL. *)

From S2P Require Import Prelude Hmac PyVal JsonLoads Sha256 PyTime Identity PyDecimal ResearchEvidence UrlPolicy Config Export ExportValidator Oidc OidcProps Sessions BrowserOidc PilotUi.
From S2P Require ResearchSamples.
From stdpp Require Import options.
#[local] Set Default Proof Using "Type*".

(** The challenge of RFC 7636, appendix B. *)
Example rfc_challenge :
  pkce_challenge (H := Sha256.sha256) "dBjftJeZ4CVP-mB92K27uhbUJU1p1r_wW1gFWFOEjXk" =
  "E9Melhoa2OwvFrEMTJguCHaoeK1t8URWbuGJSstw-cM".
Proof. vm_compute. reflexivity. Qed.
Example epoch_text : isoformat (utc_datetime 1767355200000000) = "2026-01-02T12:00:00+00:00".
Proof. reflexivity. Qed.
Example report_allowed : _allowed_path "GET" "/v1/decisions/d1/report" = true.
Proof. reflexivity. Qed.
Example delete_refused : _allowed_path "DELETE" "/v1/decisions/d1" = false.
Proof. reflexivity. Qed.

(** An identifier may be made of dots: a client that removes dot segments requests [/v1/audit],
    which no pattern names. *)
Lemma dot_segment_allowed : _allowed_path "GET" "/v1/decisions/../audit" = true ∧ _allowed_path "GET" "/v1/audit" = false.
Proof. split; reflexivity. Qed.
(** The query may not name an [actor], the body may. *)
Lemma actor_in_body_admitted : inspect (PDict [("actor", PStr "eve")]) = false.
Proof. reflexivity. Qed.
Example leap_day_text : isoformat (utc_datetime 951782400000000) = "2000-02-29T00:00:00+00:00".
Proof. reflexivity. Qed.

(** ** The promise of a session store *)

(** Two sessions of one login. *)
Definition same_login (x y : BrowserSession) : Prop :=
  access_token x = access_token y ∧ session_identity x = session_identity y ∧ csrf_token x = csrf_token y.

(** [stored s i x]: a [get] of [i] may answer [x]. Only [create] adds a session, and its own. *)
Class BrowserSessionLaws (S : Type) `{BrowserSessionStore S} := {
  stored : S → string → BrowserSession → Prop;
  create_adds tok ident n s x s' : store_create tok ident n s = (Ok x, s') →
    access_token x = tok ∧ _safe_identity ident = Ok (session_identity x) ∧
    ∀ i y, stored s' i y → stored s i y ∨ (same_login x y ∧ session_id y = i);
  create_refused tok ident n s e s' : store_create tok ident n s = (Raise e, s') → ∀ i y, stored s' i y → stored s i y;
  get_stored o s x s' : store_get o s = (Ok (Some x), s') → ∃ i, o = Some i ∧ stored s i x;
  get_keeps o s : ∀ i y, stored (store_get o s).2 i y → stored s i y;
  destroy_keeps o s : ∀ i y, stored (store_destroy o s).2 i y → stored s i y;
  destroy_ends i s u s' : store_destroy (Some i) s = (Ok u, s') → ∀ y, ¬ stored s' i y
}.

Section memory.
Context (clock : nat → Z) (token : nat → nat → string) (l : MemorySessions.Limits).
Import MemorySessions.
#[local] Existing Instance memory_store.

Lemma values_pruned now (m : gmap string BrowserSession) i x : filter (λ kv : string * BrowserSession, live now kv.2) m !! i = Some x → m !! i = Some x.
Proof. by intros [? _]%map_lookup_filter_Some. Qed.

Lemma prune_values s i x : values (_prune clock s).2 !! i = Some x → values s !! i = Some x.
Proof. apply values_pruned. Qed.

#[refine] Instance memory_laws : @BrowserSessionLaws Store (memory_store clock token l) :=
  {| stored s i x := values s !! i = Some x |}.
Proof.
  - intros tok ident n s x s' HH. cbn in HH. unfold create in HH.
    apply stateful_bind_Ok in HH as (u & s1 & Hg & HH). injection Hg as _ <-.
    apply stateful_bind_Ok in HH as (safe & s1 & Hs & HH). injection Hs as Hs <-.
    apply stateful_bind_Ok in HH as (u1 & s1 & Hp & HH). pose proof (prune_values s) as Hv. rewrite Hp in Hv. cbn in Hv.
    apply stateful_bind_Ok in HH as (k & s2 & Hk & HH). injection Hk as _ <-.
    apply stateful_bind_Ok in HH as (u2 & s2 & Hg & HH). injection Hg as _ <-.
    cbn in HH. injection HH as <- <-. cbn. split_and!; [done..|].
    intros i y [[<- <-]|[_ Hy]]%lookup_insert_Some; [by right|left; auto].
  - intros tok ident n s e s'. cbn. unfold create, guard_with, lift, mbind, stateful_bind.
    destruct (require (0 <? n)%Z _ _) as [[]|]; [|by intros [= _ <-]].
    destruct (_safe_identity ident) as [safe|] eqn:Hsafe; [|by intros [= _ <-]].
    pose proof (prune_values s) as Hv. destruct (_prune clock s) as [[[]|e'] s1]; [|by intros [= _ <-]]. cbn.
    destruct (require _ _ "OIDC_SESSION_CAPACITY_EXCEEDED") as [[]|]; cbn; [done|]. intros [= _ <-]; exact Hv.
  - intros [i|] s x s'; unfold store_get, memory_store, get; [|by intros [=]].
    destruct (256 <? str_len i)%nat; [by intros [=]|]. intros [= Hx%values_pruned _]. by exists i.
  - intros [i|] s j y; unfold store_get, memory_store, get; [|done].
    destruct (256 <? str_len i)%nat; [done|]. apply values_pruned.
  - intros [i|] s j y; cbn; [|done]. by intros [_ ?]%lookup_delete_Some.
  - intros i s u s'. cbn. intros [= _ <-] y. cbn. by rewrite lookup_delete_eq.
Defined.
End memory.

(** ** The table keeps the promise *)

Lemma nonempty_texts_map l r : nonempty_texts l = Some r → l = map PStr r.
Proof.
  revert r. induction l as [|v l IH]; cbn; intros r; [by intros [= <-]|].
  destruct v as [| | | |s| |]; try done. destruct (s =? ""); [done|].
  destruct (nonempty_texts l) as [r'|]; [|done]. intros [= <-]. cbn. by rewrite (IH r').
Qed.

Lemma nonempty_list_map v r : nonempty_list v = Some r → nonempty_list (PList (map PStr r)) = Some r.
Proof.
  unfold nonempty_list. destruct v as [| | | | |[|v l]|]; try done. intros Hr.
  pose proof (nonempty_texts_map _ _ Hr) as Hl. rewrite Hl in Hr. destruct r as [|s r]; [done|]. exact Hr.
Qed.

Lemma nonempty_text_again v s : nonempty_text v = Some s → nonempty_text (PStr s) = Some s.
Proof. destruct v as [| | | |t| |]; cbn; try done. destruct (t =? "") eqn:E; [done|]. intros [= <-]. by rewrite E. Qed.

(** An identity made of checked fields passes the checks. *)
Ltac safe_again :=
  unfold _safe_identity; cbv zeta;
  match goal with |- context [require (forallb ?f ?l && ?k) ?c ?m] =>
    replace (require (forallb f l && k) c m) with (Ok tt : result unit) by reflexivity end;
  match goal with |- context [existsb ?f identity_optional] =>
    let b := eval vm_compute in (existsb f identity_optional) in
    replace (existsb f identity_optional) with b by reflexivity end;
  cbn -[nonempty_text nonempty_list str_in];
  repeat match goal with
  | H : nonempty_text _ = Some _ |- _ => rewrite H
  | H : nonempty_list _ = Some _ |- _ => rewrite H
  | H : str_in _ _ = true |- _ => rewrite H
  end; reflexivity.

(** A safe identity is safe. *)
Lemma safe_identity_idem identity safe : _safe_identity identity = Ok safe → _safe_identity safe = Ok safe.
Proof.
  unfold _safe_identity at 1. intros HH. apply bind_Ok in HH as (u & _ & HH).
  apply bind_Ok in HH as (actor & Ha%or_raise_Ok%nonempty_text_again & HH).
  apply bind_Ok in HH as (tenant & Ht%or_raise_Ok%nonempty_text_again & HH).
  apply bind_Ok in HH as (u1 & _ & HH). apply bind_Ok in HH as (kind & Hk & HH).
  apply bind_Ok in HH as (roles & Hr%or_raise_Ok%nonempty_list_map & HH).
  assert (Hkind : str_in kind ["HUMAN"; "AGENT"; "SERVICE"] = true).
  { apply or_raise_Ok in Hk. destruct (lookup_or identity "actor_kind" PNone) as [| | | |k| |]; try done.
    destruct (str_in k _) eqn:E; [|done]. by injection Hk as <-. }
  clear Hk. destruct (existsb _ identity_optional).
  - apply bind_Ok in HH as (a & Hacr%or_raise_Ok%nonempty_text_again & HH).
    apply bind_Ok in HH as (methods & Hm%or_raise_Ok%nonempty_list_map & HH).
    apply bind_Ok in HH as (at_ & Hat%or_raise_Ok%nonempty_text_again & HH).
    apply bind_Ok in HH as (version & Hv%or_raise_Ok%nonempty_text_again & HH). injection HH as <-. clear -Ha Ht Hkind Hr Hacr Hm Hat Hv. safe_again.
  - injection HH as <-. clear -Ha Ht Hkind Hr. safe_again.
Qed.

Section table.
Context `{FernetRoundTrip} (clock db_clock : nat → Z) (token : nat → nat → string) (c : TableSessions.Settings).
Import TableSessions.
#[local] Existing Instance table_store.

(** The row of [i] is not revoked and has the contents of [x]. *)
Definition row_of (t : gmap string Row) (i : string) (x : BrowserSession) : Prop :=
  ∃ r, t !! _digest i = Some r ∧ revoked r = false ∧ (256 <? str_len i)%nat = false ∧
    row_contents r = Ok (token_value (access_token x), session_identity x) ∧ csrf_token x = row_csrf r ∧ session_id x = i.

Lemma row_of_revoked d t i x : row_of (da_revoke d t) i x → row_of t i x ∧ d ≠ _digest i.
Proof.
  intros (r & Hr & Hrev & Hrest). unfold da_revoke in Hr.
  destruct (decide (d = _digest i)) as [->|Hd].
  - rewrite lookup_alter_eq in Hr. destruct (t !! _digest i); [|done]. cbn in Hr. by injection Hr as <-.
  - rewrite lookup_alter_ne in Hr by done. split; [by exists r|done].
Qed.

(** Nothing is stored that was not. *)
Definition only_removes (s s' : Store) : Prop := ∀ i x, row_of (rows s') i x → row_of (rows s) i x.
#[local] Instance only_removes_preorder : PreOrder only_removes.
Proof. split; [by intros s i x|]. intros s1 s2 s3 H1 H2 i x Hi. by apply H1, H2. Qed.

Lemma destroy_removes o : always only_removes (destroy o).
Proof.
  unfold destroy. destruct o as [j|]; always_steps. apply (always_modify only_removes). intros s i x [? _]%row_of_revoked. done.
Qed.
Lemma read_clock_removes k : always only_removes (read_clock k).
Proof. by intros s i x. Qed.
#[local] Hint Resolve destroy_removes read_clock_removes : always.

Lemma get_removes o : always only_removes (get clock db_clock c o).
Proof. unfold get. always_steps. Qed.

(** What [create] does to the table. *)
Lemma session_rows tok ident n t :
  triple (λ s, rows s = t) (create clock token c tok ident n)
    (λ x s, access_token x = tok ∧ _safe_identity ident = Ok (session_identity x) ∧
       ∃ k tenant actor e, rows s = <[_digest (session_id x) :=
         mkRow tenant actor (session_identity x) (csrf_token x) (fernet_encrypt k (token_value tok)) e false]> t)
    (λ s, rows s = t).
Proof.
  intros s Hs. unfold create, guard_with, lift, mbind, stateful_bind.
  destruct (require (0 <? n)%Z _ _) as [[]|]; [|done].
  destruct (_safe_identity ident) as [safe|] eqn:Hsafe; [|done]. cbn.
  destruct (tenant_context (text_of safe "tenant_id")) as [tenant|] eqn:Ht; [|done].
  assert (text_of safe "tenant_id" = tenant_id tenant) as -> by (unfold tenant_context in Ht; by inv_ok).
  unfold zoom, transaction, da_create. cbn. rewrite String.eqb_refl.
  destruct (require _ IntegrityError _) as [[]|]; cbn; [|done].
  split_and!; [done..|]. rewrite Hs. by eexists _, _, _, _.
Qed.

#[refine] Instance table_laws : @BrowserSessionLaws Store (table_store clock db_clock token c) :=
  {| stored s i x := row_of (rows s) i x |}.
Proof.
  - intros tok ident n s x s' HH. pose proof (session_rows tok ident n (rows s) s eq_refl) as Hc.
    unfold store_create, table_store in HH. rewrite HH in Hc. destruct Hc as (Htok & Hsafe & k & t & a & e & Hrows).
    split_and!; [done..|]. intros i y (r & Hr & Hrest). rewrite Hrows in Hr.
    apply lookup_insert_Some in Hr as [[_ <-]|[_ Hr]]; [right|left; by exists r].
    destruct Hrest as (_ & _ & Hcont & Hcsrf & Hid). unfold row_contents in Hcont. cbn in Hcont, Hcsrf.
    rewrite decrypt_encrypt, (safe_identity_idem _ _ Hsafe) in Hcont. cbn in Hcont. injection Hcont as Ht Hi.
    split; [|done]. split_and!; [|done|done]. rewrite Htok. destruct tok, (access_token y). cbn in Ht. by subst.
  - intros tok ident n s e s' HH i y. pose proof (session_rows tok ident n (rows s) s eq_refl) as Hc.
    unfold store_create, table_store in HH. rewrite HH in Hc. by rewrite Hc.
  - intros [i|] s x s'; unfold store_get, table_store, get; [|by intros [=]].
    destruct (256 <? str_len i)%nat eqn:Hlen; [by intros [=]|]. intros HH. exists i. split; [done|].
    apply stateful_bind_Ok in HH as (now & s1 & Hn & HH). injection Hn as <- <-.
    apply stateful_bind_Ok in HH as (row & s1 & Hg & HH). injection Hg as Hg <-. cbn [rows] in Hg.
    destruct row as [r|]; [|discriminate HH].
    apply stateful_bind_Ok in HH as ([tok safe] & s1 & Hc & HH). injection Hc as Hc%rescue_Ok <-.
    apply stateful_bind_Ok in HH as (now & s1 & Hn & HH). injection Hn as <- <-.
    destruct (row_expires_at r <=? _)%Z; [by apply stateful_bind_Ok in HH as (? & ? & _ & [=])|].
    destruct (lacks_mfa c safe); [by apply stateful_bind_Ok in HH as (? & ? & _ & [=])|].
    apply stateful_bind_Ok in HH as (t & s1 & Ht & HH). injection Ht as Ht _. injection HH as <- _.
    unfold sensitive_token in Ht. inv_ok. unfold da_get in Hg.
    destruct (rows s !! _digest i) as [r'|] eqn:Hr; [|done].
    destruct (negb (revoked r') && _) eqn:Hlive; [|done]. injection Hg as ->.
    exists r. bool_prop. naive_solver.
  - intros o s i y. apply get_removes.
  - intros o s i y. apply destroy_removes.
  - intros i s u s'. unfold store_destroy, table_store, destroy. intros HH y (r & Hr & Hrev & Hlen & Hrest).
    rewrite Hlen in HH. injection HH as _ <-. cbn [rows] in Hr.
    assert (row_of (da_revoke (_digest i) (rows s)) i y) as [_ Hne]%row_of_revoked by by exists r. done.
Defined.
End table.

(** A fact a computation has established is there for the next. *)
Lemma triple_fact {S A} (F : Prop) (P E : S → Prop) (m : stateful S A) (Q : A → S → Prop) :
  (F → triple P m Q E) → triple (λ s, P s ∧ F) m Q E.
Proof. intros Hm s [Hs HF]. by apply Hm. Qed.

(** ** Login transactions *)

Section logins.
Context `{HashAlg} (clock : nat → Z) (token : nat → nat → string) (l : LoginLimits).

(** The transaction was drawn by the store: its state, nonce and verifier are three draws in a
    row, and it returns to an allowed path. *)
Definition issued (t : LoginTransaction) : Prop :=
  return_path t ∈ allowed_return_paths l ∧
  ∃ n, state t = token n 32 ∧ nonce t = token (S n) 32 ∧ code_verifier t = token (S (S n)) 64.

Definition logins_ok (s : LoginStore) : Prop :=
  ∀ st t, login_values s !! st = Some t → state t = st ∧ issued t.

Lemma prune_logins_values s st t :
  login_values (prune_logins clock s).2 !! st = Some t → login_values s !! st = Some t.
Proof. by intros [? _]%map_lookup_filter_Some. Qed.

Lemma prune_logins_ok : keeps logins_ok (prune_logins clock).
Proof. intros s Hs. change (logins_ok (prune_logins clock s).2). intros st t Ht%prune_logins_values. by apply Hs. Qed.

Lemma create_login_ok path binding :
  triple logins_ok (create_login clock token l path binding) (λ t s, logins_ok s ∧ issued t) logins_ok.
Proof.
  unfold create_login. eapply triple_bind; [apply (triple_guard _ _ _ _ (λ _ s, logins_ok s ∧ path ∈ allowed_return_paths l));
    [by intros s Hp%str_in_spec|done]|intros []].
  eapply triple_bind; [apply (triple_lift _ _ (λ _ s, logins_ok s ∧ path ∈ allowed_return_paths l)); [done|by intros s [??]]|intros hash].
  eapply (triple_bind _ _ _ (λ _ s, logins_ok s ∧ path ∈ allowed_return_paths l)); [|intros []].
  { intros s [Hs Hp]. pose proof (prune_logins_ok s Hs) as Hk.
    destruct (prune_logins clock s) as [[[]|e] s']; [|done]. exact (conj Hk Hp). }
  intros s [Hs Hp]. unfold mbind, stateful_bind, gets, guard_with, lift. cbn -[Z.ltb].
  destruct (require _ _ _) as [[]|]; [|done]. cbn.
  assert (Hi : issued (mkLogin (token (login_draws s) 32) (token (S (login_draws s)) 32) (token (S (S (login_draws s))) 64)
    path (clock (login_readings s) + login_ttl l) hash)) by (split; [done|by exists (login_draws s)]).
  split; [|done]. intros st t Ht. cbn in Ht. apply lookup_insert_Some in Ht as [[<- <-]|[_ Ht]]; [done|by apply Hs].
Qed.

(** What [consume] takes: the pending transaction of that state, bound to the browser. *)
Lemma consume_login_Ok st binding s t s' :
  consume_login clock st binding s = (Ok t, s') →
  login_values s !! st = Some t ∧ browser_binding_hash t = hexdigest binding ∧
  (∃ n, (clock n < login_expires_at t)%Z) ∧ login_values s' !! st = None ∧ login_values s' ⊆ login_values s.
Proof.
  intros HH. unfold consume_login in HH.
  apply stateful_bind_Ok in HH as (u & s1 & Hg & HH). injection Hg as _ <-.
  apply stateful_bind_Ok in HH as (hash & s1 & Hh & HH). injection Hh as Hh <-.
  apply stateful_bind_Ok in HH as (u1 & s1 & Hp & HH). pose proof (prune_logins_values s) as Hv. rewrite Hp in Hv. cbn in Hv.
  apply stateful_bind_Ok in HH as (found & s2 & Hf & HH). injection Hf as Hf <-.
  destruct found as [t'|]; [|discriminate HH].
  destruct (browser_binding_hash t' =? hash) eqn:Hb; [|discriminate HH]. apply String.eqb_eq in Hb.
  apply stateful_bind_Ok in HH as (u2 & s2 & Hd & HH). injection Hd as _ <-.
  apply stateful_bind_Ok in HH as (now & s2 & Hn & HH). injection Hn as <- <-.
  apply stateful_bind_Ok in HH as (u3 & s2 & Hg & HH). injection Hg as Hg <-. injection HH as -> <-.
  apply require_Ok, Z.ltb_lt in Hg. unfold _browser_binding_hash in Hh. inv_ok.
  split_and!; [by apply Hv|done|by eexists|by apply lookup_delete_eq|].
  apply map_subseteq_spec. intros i x Hx. cbn in Hx. apply lookup_delete_Some in Hx as [_ Hx]. by apply Hv.
Qed.

(** A consumed state is not consumed again. *)
Lemma consumed_once st binding binding' s t s' :
  consume_login clock st binding s = (Ok t, s') → ∃ e, (consume_login clock st binding' s').1 = Raise e.
Proof.
  intros (_ & _ & _ & Hnone & _)%consume_login_Ok.
  destruct (consume_login clock st binding' s') as [[t'|e] s''] eqn:E; [|by exists e].
  apply consume_login_Ok in E as (Hsome & _). congruence.
Qed.

Lemma consume_keeps st binding : keeps logins_ok (consume_login clock st binding).
Proof.
  unfold consume_login. eapply triple_bind; [apply (triple_guard _ _ _ _ (λ _, logins_ok)); done|intros []].
  eapply triple_bind; [apply (triple_lift _ _ (λ _, logins_ok)); done|intros hash].
  eapply triple_bind; [apply prune_logins_ok|intros []].
  eapply triple_bind; [apply (triple_gets _ _ (λ _, logins_ok)); done|intros [t|]].
  - destruct (_ =? _); [|by apply triple_lift].
    eapply triple_bind; [apply (triple_modify _ _ (λ _, logins_ok))|intros []].
    { intros s Hs st' t' Ht. cbn in Ht. apply lookup_delete_Some in Ht as [_ Ht]. by apply Hs. }
    intros s Hs. unfold mbind, stateful_bind, guard_with, lift. cbn -[Z.ltb].
    by destruct (require _ _ _) as [[]|].
  - by apply triple_lift.
Qed.
End logins.

(** ** The exchange of a code *)

Section exchange.
Context `{Jwt} (fetch post : nat → result Response) (clock : nat → Z) (c : BrowserClient).

(** A signing key some answer of the issuer lists. *)
Definition issuer_key (kid : string) (k : string * Key) : Prop :=
  ∃ n payload, fetched fetch n = Ok payload ∧ published payload kid k.

(** The tokens are those of an answer of the token endpoint, and its identity token was verified,
    with every check on, under a key of the issuer, for this client and for the nonce of the
    transaction. *)
Definition verified_tokens (t : LoginTransaction) (tokens : TokenSet) : Prop :=
  ∃ n payload id header algorithm kid key claims,
    token_response (post n) = Ok payload ∧
    token_fields payload = Ok (token_value (tokens_access tokens), id, expires_in tokens) ∧
    get_unverified_header id = Ok header ∧ named_key (browser_algorithms c) header = Some (algorithm, kid) ∧
    issuer_key kid (algorithm, key) ∧
    decode id key (browser_algorithms c) (browser_client_id c) (browser_issuer c) 0 id_token_options = Ok claims ∧
    lookup_or claims "nonce" PNone = PStr (nonce t) ∧ authentication_claims tokens = authentication_part claims.

Definition keys_ok (k : JwksCache) : Prop := cache_ok fetch clock (browser_keys c) k.

Lemma checked_claims_step token expected : always (cache_step fetch clock (browser_keys c)) (checked_claims fetch clock c token expected).
Proof. pose proof get_key_step. unfold checked_claims. always_steps. Qed.

Lemma validate_keeps token expected k : keys_ok k → keys_ok (_validate_id_token fetch clock c token expected k).2.
Proof.
  intros Hk. unfold _validate_id_token. pose proof (checked_claims_step token expected k) as Hs.
  destruct (checked_claims fetch clock c token expected k) as [r k']. by eapply cache_step_ok.
Qed.

Lemma validate_Ok token expected k claims k' :
  keys_ok k → _validate_id_token fetch clock c token expected k = (Ok claims, k') →
  ∃ header algorithm kid key all, get_unverified_header token = Ok header ∧
    named_key (browser_algorithms c) header = Some (algorithm, kid) ∧ issuer_key kid (algorithm, key) ∧
    decode token key (browser_algorithms c) (browser_client_id c) (browser_issuer c) 0 id_token_options = Ok all ∧
    lookup_or all "nonce" PNone = PStr expected ∧ claims = authentication_part all.
Proof.
  intros Hk. unfold _validate_id_token. destruct (checked_claims fetch clock c token expected k) as [r k1] eqn:HH.
  intros [= Hr _]. apply rescue_Ok in Hr as ->. unfold checked_claims in HH.
  apply stateful_bind_Ok in HH as (header & s1 & Hh & HH). injection Hh as Hh <-.
  apply stateful_bind_Ok in HH as ([algorithm kid] & s1 & Hn & HH). injection Hn as Hn <-. apply or_raise_Ok in Hn.
  apply stateful_bind_Ok in HH as (key & s1 & Hkey & HH).
  apply get_key_Ok in Hkey as (n & m & payload & _ & Hf & Hp & _); [|done].
  apply stateful_bind_Ok in HH as (all & s2 & Hd & HH). injection Hd as Hd <-.
  destruct (lookup_or all "nonce" PNone) as [| | | |nn| |] eqn:Hnonce; try discriminate HH.
  apply stateful_bind_Ok in HH as (same & s2 & Hs & HH). injection Hs as Hs <-.
  apply stateful_bind_Ok in HH as (u & s2 & Hg & HH). injection Hg as Hg <-. injection HH as <- <-.
  apply require_Ok in Hg as ->. apply compare_digest_same in Hs as ->.
  exists header, algorithm, kid, key, all. split_and!; try done. by exists n, payload.
Qed.

Lemma exchange_verifies code t :
  triple (λ b, keys_ok (key_cache b)) (exchange fetch clock post c code t)
    (λ tokens b, keys_ok (key_cache b) ∧ verified_tokens t tokens) (λ b, keys_ok (key_cache b)).
Proof.
  intros b Hb. unfold exchange, guard_with, lift, mbind, stateful_bind.
  destruct (require _ _ "OIDC_CODE_INVALID") as [[]|]; [|done].
  destruct (require _ _ "OIDC_PKCE_VERIFIER_INVALID") as [[]|]; [|done].
  unfold post_form. destruct (token_response _) as [payload|] eqn:Hpost; [|done].
  destruct (token_fields payload) as [[[access id] n]|] eqn:Hfields; [|done].
  unfold zoom. cbn [key_cache]. pose proof (validate_keeps id (nonce t) (key_cache b) Hb) as Hk.
  destruct (_validate_id_token fetch clock c id (nonce t) (key_cache b)) as [[claims|e] k] eqn:Hv; [|done].
  apply validate_Ok in Hv as (header & algorithm & kid & key & all & Hv); [|done].
  destruct (sensitive_token access) as [tok|] eqn:Htok; [|done]. cbn. split; [done|].
  unfold sensitive_token in Htok. inv_ok.
  exists (length (posted b)), payload, id, header, algorithm, kid, key, all. naive_solver.
Qed.
End exchange.

(** ** The application *)

#[local] Set Default Proof Using "All".
Section application.
Context `{HashAlg} `{FloatText} `{BytesText} `{UrlLibrary} `{CaseFolding} `{Networks} `{Jwt}.
Context {Sessions : Type} `{BrowserSessionLaws Sessions}.
Context (fetch post : nat → result Response) (upstream : nat → result ApiResponse)
  (login_time key_time wall_time : nat → Z) (login_token ui_token : nat → nat → string).
Context (settings : UiSettings) (limits : LoginLimits) (client : BrowserClient) (base_url : string).

Notation App := (Ui Sessions).
Notation step := (serve_ui fetch post upstream login_time key_time wall_time login_token ui_token settings limits
                    client base_url).

(** The multi-factor policy, if any, let the roles of [identity] pass, and [identity'] also names
    the evidence. *)
Definition mfa_passed (claims identity identity' : mapping) : Prop :=
  match mfa_policy settings with
  | None => identity' = identity
  | Some p => ∃ roles evidence now, role_texts (lookup_or identity "roles" PNone) = Some roles ∧
      evidence_from_validated_claims claims (mfa_version p) = Ok evidence ∧
      mfa_require p roles evidence now = Ok tt ∧
      identity' = match evidence with Some e => with_evidence_of identity e | None => identity end
  end.

(** What a session rests on: a transaction this application issued, tokens verified against it,
    the identity the API answered to the very access token of the session, and the policy. *)
Definition authenticated (calls : list ApiCall) (x : BrowserSession) : Prop :=
  ∃ t tokens n correlation a identity identity',
    issued login_token limits t ∧ verified_tokens fetch post client t tokens ∧
    access_token x = tokens_access tokens ∧
    calls !! n = Some (session_call base_url (access_token x) correlation) ∧ upstream n = Ok a ∧
    identity_answer a = Ok identity ∧ mfa_passed (authentication_claims tokens) identity identity' ∧
    _safe_identity identity' = Ok (session_identity x).

Record ui_ok (u : App) : Prop := {
  uo_logins : logins_ok login_token limits (ui_logins u);
  uo_keys : keys_ok fetch key_time client (key_cache (ui_browser u));
  uo_sessions : ∀ i x, stored (ui_sessions u) i x → session_id x = i ∧ authenticated (ui_calls u) x
}.

Lemma authenticated_mono calls more x : authenticated calls x → authenticated (calls ++ more) x.
Proof.
  intros (t & tokens & n & c & a & i & i' & Q1 & Q2 & Q3 & Q4 & Q5 & Q6 & Q7 & Q8). exists t, tokens, n, c, a, i, i'.
  split_and!; (assumption || by apply lookup_app_l_Some).
Qed.

Lemma logins_triple {A} (m : stateful LoginStore A) (Q : A → Prop) :
  triple (logins_ok login_token limits) m (λ a l, logins_ok login_token limits l ∧ Q a) (logins_ok login_token limits) →
  triple ui_ok (with_logins m) (λ a u, ui_ok u ∧ Q a) ui_ok.
Proof.
  intros Hm u [Hl Hk Hs]. unfold with_logins, zoom. specialize (Hm _ Hl).
  destruct (m (ui_logins u)) as [[a|e] l]; [destruct Hm|]; done.
Qed.

Lemma browser_triple {A} (m : stateful BrowserState A) (Q : A → Prop) :
  triple (λ b, keys_ok fetch key_time client (key_cache b)) m
    (λ a b, keys_ok fetch key_time client (key_cache b) ∧ Q a) (λ b, keys_ok fetch key_time client (key_cache b)) →
  triple ui_ok (with_browser m) (λ a u, ui_ok u ∧ Q a) ui_ok.
Proof.
  intros Hm u [Hl Hk Hs]. unfold with_browser, zoom. specialize (Hm _ Hk).
  destruct (m (ui_browser u)) as [[a|e] b]; [destruct Hm|]; done.
Qed.

Lemma consume_triple st binding :
  triple (logins_ok login_token limits) (consume_login login_time st binding)
    (λ t l, logins_ok login_token limits l ∧ issued login_token limits t) (logins_ok login_token limits).
Proof.
  intros s Hs. pose proof (consume_keeps login_time login_token limits st binding s Hs) as Hk.
  destruct (consume_login login_time st binding s) as [[t|e] s'] eqn:E; [|done].
  apply consume_login_Ok in E as (Ht & _). split; [done|]. by eapply Hs.
Qed.

Lemma get_triple o :
  triple ui_ok (with_sessions (store_get o))
    (λ found u, ui_ok u ∧ ∀ x, found = Some x → o = Some (session_id x) ∧ authenticated (ui_calls u) x) ui_ok.
Proof.
  intros u [Hl Hk Hs]. unfold with_sessions, zoom. pose proof (get_keeps o (ui_sessions u)) as Hg.
  destruct (store_get o (ui_sessions u)) as [[found|e] s] eqn:E; [|split; naive_solver].
  split; [split; naive_solver|]. intros x ->. apply get_stored in E as (i & -> & Hx).
  by apply Hs in Hx as [-> ?].
Qed.

Lemma destroy_triple o : keeps ui_ok (with_sessions (store_destroy o)).
Proof.
  intros u [Hl Hk Hs]. unfold with_sessions, zoom. pose proof (destroy_keeps o (ui_sessions u)) as Hd.
  destruct (store_destroy o (ui_sessions u)) as [[[]|e] s]; split; naive_solver.
Qed.

Lemma request_triple c :
  triple ui_ok (request_api upstream c) (λ a u, ui_ok u ∧ ∃ n, ui_calls u !! n = Some c ∧ upstream n = Ok a) ui_ok.
Proof.
  intros u [Hl Hk Hs]. unfold request_api.
  assert (Hok : ui_ok (mkUi (ui_logins u) (ui_sessions u) (ui_browser u) (ui_calls u ++ [c]) (ui_draws u) (ui_readings u))).
  { split; [done..|]. intros i x [? ?]%Hs. split; [done|by apply authenticated_mono]. }
  destruct (upstream (length (ui_calls u))) as [a|e] eqn:E; cbn; [|done]. split; [done|].
  exists (length (ui_calls u)). split; [apply list_lookup_middle; lia|done].
Qed.

Lemma api_session_triple tok correlation :
  triple ui_ok (api_session upstream base_url tok correlation)
    (λ identity u, ui_ok u ∧ ∃ n a, ui_calls u !! n = Some (session_call base_url tok correlation) ∧ upstream n = Ok a ∧
       identity_answer a = Ok identity) ui_ok.
Proof.
  unfold api_session. eapply triple_bind; [apply request_triple|intros a].
  apply triple_lift; [|by intros u [? _]]. intros identity u Hi [Hok (n & Hn & Ha)]. split; [done|]. by exists n, a.
Qed.

(** The multi-factor step reads the clock at most. *)
Lemma mfa_step_triple (I : App → Prop) claims identity :
  (∀ u n, I u → I (mkUi (ui_logins u) (ui_sessions u) (ui_browser u) (ui_calls u) (ui_draws u) n)) →
  triple I (mfa_step wall_time settings claims identity) (λ identity' u, I u ∧ mfa_passed claims identity identity') I.
Proof.
  intros HI u Hu. unfold mfa_step, mfa_passed, mbind, stateful_bind, lift.
  destruct (mfa_policy settings) as [p|]; [|done].
  destruct (role_texts _) as [roles|]; cbn; [|done].
  destruct (evidence_from_validated_claims claims (mfa_version p)) as [evidence|]; [|done]. cbn.
  destruct (mfa_require p roles evidence (wall_time (ui_readings u))) as [[]|] eqn:Hm; cbn; [|by apply HI].
  split; [by apply HI|]. by exists roles, evidence, (wall_time (ui_readings u)).
Qed.

Lemma mfa_step_weakened (I : App → Prop) claims identity :
  (∀ u n, I u → I (mkUi (ui_logins u) (ui_sessions u) (ui_browser u) (ui_calls u) (ui_draws u) n)) →
  (∀ u, I u → ui_ok u) →
  triple I (mfa_step wall_time settings claims identity) (λ identity' u, I u ∧ mfa_passed claims identity identity') ui_ok.
Proof. intros HI Hok. eapply triple_conseq; [by apply mfa_step_triple|auto..]. Qed.

Lemma create_triple t tokens identity identity' :
  issued login_token limits t → verified_tokens fetch post client t tokens →
  mfa_passed (authentication_claims tokens) identity identity' →
  triple (λ u, ui_ok u ∧ ∃ n a c, ui_calls u !! n = Some (session_call base_url (tokens_access tokens) c) ∧
            upstream n = Ok a ∧ identity_answer a = Ok identity)
    (with_sessions (store_create (tokens_access tokens) identity' (expires_in tokens))) (λ _, ui_ok) ui_ok.
Proof.
  intros Ht Hv Hm u [[Hl Hk Hs] (n & a & c & Hn & Ha & Hi)]. unfold with_sessions, zoom.
  destruct (store_create _ _ _ (ui_sessions u)) as [[x|e] s] eqn:E.
  - apply create_adds in E as (Htok & Hsafe & Hadds). split; [done..|]. intros i y [?|[(Hyt & Hyi & _) Hid]]%Hadds; [by apply Hs|].
    split; [done|]. exists t, tokens, n, c, a, identity, identity'. rewrite <-Hyt, <-Hyi, Htok. done.
  - pose proof (create_refused _ _ _ _ _ _ E) as Hr. split; [done..|]. intros i y Hy%Hr. by apply Hs.
Qed.

(** ** The routes keep the invariant *)

Lemma require_session_triple r :
  triple ui_ok (_require_session r)
    (λ x u, ui_ok u ∧ assoc SESSION_COOKIE (ui_cookies r) = Some (session_id x) ∧ authenticated (ui_calls u) x) ui_ok.
Proof.
  unfold _require_session. eapply triple_bind; [apply get_triple|intros [x|]].
  - apply triple_ret. intros u [Hu Hx]. split; [done|by apply Hx].
  - apply triple_lift; [done|by intros u [? _]].
Qed.

Lemma callback_triple r correlation code st :
  keeps ui_ok (callback fetch post upstream login_time key_time wall_time settings client base_url r correlation code st).
Proof.
  unfold callback. eapply triple_bind; [apply logins_triple, consume_triple|intros t; apply triple_fact; intros Ht].
  eapply triple_bind; [apply browser_triple, exchange_verifies|intros tokens; apply triple_fact; intros Hv].
  eapply triple_bind; [apply api_session_triple|intros identity].
  eapply triple_bind; [apply (mfa_step_weakened (λ u, ui_ok u ∧ ∃ n a, ui_calls u !! n =
    Some (session_call base_url (tokens_access tokens) correlation) ∧ upstream n = Ok a ∧ identity_answer a = Ok identity))|].
  { intros u n [[Hl Hk Hs] Hn]. by split. }
  { by intros u [? _]. }
  intros identity'. apply triple_fact. intros Hm.
  eapply (triple_bind _ _ _ (λ _, ui_ok)); [|intros x; by apply triple_ret].
  eapply triple_conseq; [exact (create_triple t tokens identity identity' Ht Hv Hm)|naive_solver..].
Qed.

Lemma proxy_keeps r correlation path : keeps ui_ok (proxy upstream base_url r correlation path).
Proof.
  assert (Hforward : ∀ x p, keeps ui_ok (forward upstream base_url r x p correlation)).
  { intros x p. unfold forward. eapply triple_bind; [apply request_triple|intros a; by apply triple_ret; intros u [? _]]. }
  unfold proxy. eapply (triple_bind _ _ _ (λ _, ui_ok)).
  { eapply triple_post; [apply require_session_triple|by intros x u [? _]]. }
  intros x. cbv zeta. repeat (apply triple_if; intros _); try (by apply triple_ret); try apply Hforward.
  eapply (triple_bind _ _ _ (λ _, ui_ok)); [by apply triple_lift|intros []].
  eapply (triple_bind _ _ _ (λ _, ui_ok)); [by apply triple_lift|intros override].
  apply triple_if; intros _; [by apply triple_ret|apply Hforward].
Qed.

Lemma logout_keeps r : keeps ui_ok (logout r).
Proof.
  unfold logout. eapply (triple_bind _ _ _ (λ _, ui_ok)).
  { eapply triple_post; [apply require_session_triple|by intros x u [? _]]. }
  intros x. eapply (triple_bind _ _ _ (λ _, ui_ok)); [by apply triple_lift|intros []].
  eapply (triple_bind _ _ _ (λ _, ui_ok)); [apply destroy_triple|intros []]. by apply triple_ret.
Qed.

Lemma login_keeps path : keeps ui_ok (login login_time login_token ui_token limits client path).
Proof.
  unfold login. eapply (triple_bind _ _ _ (λ _, ui_ok)); [by intros u [? ? ?]|intros binding].
  eapply (triple_bind _ _ _ (λ _, ui_ok)).
  { eapply triple_post; [apply logins_triple, create_login_ok|by intros t u [? _]]. }
  intros t. eapply (triple_bind _ _ _ (λ _, ui_ok)); [by apply triple_lift|intros url]. by apply triple_ret.
Qed.

Lemma serve_ui_keeps fresh r route : keeps ui_ok (step fresh r route).
Proof.
  unfold serve_ui. cbv zeta. eapply (triple_bind _ _ _ (λ _, ui_ok)); [|intros p; by apply triple_ret].
  destruct (refused settings r); [by apply triple_ret|]. unfold answer. apply triple_handle.
  - destruct route; cbn [dispatch]; try (by apply triple_ret);
      [apply login_keeps|apply callback_triple|apply logout_keeps| |apply proxy_keeps].
    unfold bff_session. eapply (triple_bind _ _ _ (λ _, ui_ok)); [|intros x; by apply triple_ret].
    eapply triple_post; [apply require_session_triple|by intros x u [? _]].
  - intros e k. destruct (error_reply e) as [p|]; [|done]. intros [= <-]. by apply triple_ret.
Qed.

(** The states the application reaches from [u0], whatever the browsers send. *)
Inductive ui_reachable (u0 : App) : App → Prop :=
  | reach_start : ui_reachable u0 u0
  | reach_step u fresh r route : ui_reachable u0 u → ui_reachable u0 (step fresh r route u).2.

(** The application as it is created. *)
Definition ui_start (u0 : App) : Prop :=
  ui_logins u0 = empty_logins ∧ ui_browser u0 = empty_browser ∧ ∀ i x, ¬ stored (ui_sessions u0) i x.

Lemma ui_reachable_ok u0 u : ui_start u0 → ui_reachable u0 u → ui_ok u.
Proof.
  intros (Hl & Hb & Hs). induction 1 as [|u fresh r route _ IH].
  - split; [|rewrite Hb; by left|by intros i x ?%Hs]. rewrite Hl. intros st t Ht. cbn in Ht. by rewrite lookup_empty in Ht.
  - pose proof (serve_ui_keeps fresh r route u IH) as Hk. by destruct (step fresh r route u) as [[p|e] u'].
Qed.

(** ** The calls of the API *)

Definition same_calls (u u' : App) : Prop := ui_calls u' = ui_calls u.
#[local] Instance same_calls_preorder : PreOrder same_calls.
Proof. split; [done|]. intros u1 u2 u3 E1 E2. unfold same_calls in *. congruence. Qed.

Lemma with_logins_calls {A} (m : stateful LoginStore A) : always same_calls (with_logins m).
Proof. intros u. unfold with_logins, zoom. by destruct (m (ui_logins u)). Qed.
Lemma with_sessions_calls {A} (m : stateful Sessions A) : always same_calls (with_sessions m).
Proof. intros u. unfold with_sessions, zoom. by destruct (m (ui_sessions u)). Qed.
Lemma with_browser_calls {A} (m : stateful BrowserState A) : always same_calls (with_browser m).
Proof. intros u. unfold with_browser, zoom. by destruct (m (ui_browser u)). Qed.
Lemma now_utc_calls : always same_calls (now_utc wall_time).
Proof. done. Qed.
Lemma draw_binding_calls : always same_calls (draw_binding ui_token).
Proof. done. Qed.
#[local] Hint Resolve with_logins_calls with_sessions_calls with_browser_calls now_utc_calls draw_binding_calls : always.

Lemma require_session_calls r : always same_calls (_require_session r).
Proof. unfold _require_session. always_steps. Qed.
#[local] Hint Resolve require_session_calls : always.
Lemma login_calls path : always same_calls (login login_time login_token ui_token limits client path).
Proof. unfold login. always_steps. Qed.
Lemma logout_calls r : always same_calls (logout r).
Proof. unfold logout. always_steps. Qed.
Lemma bff_session_calls r : always same_calls (bff_session r).
Proof. unfold bff_session. always_steps. Qed.
Lemma mfa_step_calls claims identity : always same_calls (mfa_step wall_time settings claims identity).
Proof. unfold mfa_step. always_steps. Qed.

(** A run that keeps the log, next to what else it establishes. *)
Lemma triple_calls {A} l P (m : stateful App A) Q E :
  triple P m Q E → always same_calls m →
  triple (λ u, P u ∧ ui_calls u = l) m (λ a u, Q a u ∧ ui_calls u = l) (λ u : App, ui_calls u = l).
Proof.
  intros Hm Hc u [Hu Hl]. specialize (Hm u Hu). specialize (Hc u). unfold same_calls in Hc.
  destruct (m u) as [[a|e] u']; cbn in Hc; [split; [done|]|]; congruence.
Qed.

Lemma triple_same_calls {A} l (m : stateful App A) :
  always same_calls m → triple (λ u : App, ui_calls u = l) m (λ _ (u : App), ui_calls u = l) (λ u : App, ui_calls u = l).
Proof. intros Hc u Hl. specialize (Hc u). unfold same_calls in Hc. destruct (m u) as [[a|e] u']; cbn in Hc; congruence. Qed.

(** What a call that [route] makes rests on, given the log of the calls before it. *)
Definition guarded_call (l : list ApiCall) (r : UiRequest) (correlation : string) (route : Route) (call : ApiCall) : Prop :=
  match route with
  | Callback code st => ∃ t tokens, issued login_token limits t ∧ verified_tokens fetch post client t tokens ∧
      call = session_call base_url (tokens_access tokens) correlation
  | Proxy path => ∃ session, call = proxy_call base_url r session ("/" +:+ path) correlation ∧
      authenticated l session ∧ assoc SESSION_COOKIE (ui_cookies r) = Some (session_id session) ∧
      _allowed_path (ui_method r) ("/" +:+ path) = true ∧ query_override (ui_query r) = false ∧
      (ui_method r ∉ ["GET"; "HEAD"] → header r "x-csrf-token" = Some (csrf_token session) ∧
         (ui_body r = "" ∨ _has_identity_override (ui_body r) = Ok false))
  | _ => False
  end.

(** At most one call was added to [l], and it is guarded. *)
Definition calls_after (l : list ApiCall) r correlation route (u : App) : Prop :=
  ui_calls u = l ∨ ∃ call, ui_calls u = l ++ [call] ∧ guarded_call l r correlation route call.

Lemma request_calls l c :
  triple (λ u : App, ui_calls u = l) (request_api upstream c) (λ _ (u : App), ui_calls u = l ++ [c]) (λ u : App, ui_calls u = l ++ [c]).
Proof. intros u <-. unfold request_api. by destruct (rescue _ _). Qed.

Lemma csrf_Ok r x : _require_csrf r x = Ok tt → header r "x-csrf-token" = Some (csrf_token x).
Proof.
  unfold _require_csrf. destruct (header r "x-csrf-token") as [t|]; cbn; [|done].
  destruct (t =? ""); [done|]. intros ([] & Hs & HH)%bind_Ok; [by apply compare_digest_same in Hs as ->|done].
Qed.

Lemma proxy_calls l r correlation path :
  triple (λ u : App, ui_ok u ∧ ui_calls u = l) (proxy upstream base_url r correlation path)
    (λ _, calls_after l r correlation (Proxy path)) (calls_after l r correlation (Proxy path)).
Proof.
  assert (Hforward : ∀ x, guarded_call l r correlation (Proxy path) (proxy_call base_url r x ("/" +:+ path) correlation) →
    triple (λ u : App, ui_calls u = l) (forward upstream base_url r x ("/" +:+ path) correlation)
      (λ _, calls_after l r correlation (Proxy path)) (calls_after l r correlation (Proxy path))).
  { intros x Hx. unfold forward.
    eapply (triple_bind _ _ _ (λ _ (u : App), ui_calls u = l ++ [proxy_call base_url r x ("/" +:+ path) correlation]));
      [eapply triple_conseq; [apply (request_calls l)|done|done|]|intros a; apply triple_ret];
      intros u Hu; right; eexists; (split; [exact Hu|exact Hx]). }
  unfold proxy. eapply triple_bind.
  { eapply triple_conseq; [exact (triple_calls l _ _ _ _ (require_session_triple r) (require_session_calls r))|done| |by left].
    intros x u HH. exact HH. }
  intros x u [(_ & Hcookie & Hauth) Hl]. rewrite Hl in Hauth. revert u Hl. cbv zeta.
  match goal with |- ∀ u, _ → match ?m u with _ => _ end => change (triple (λ u : App, ui_calls u = l) m
    (λ _, calls_after l r correlation (Proxy path)) (calls_after l r correlation (Proxy path))) end.
  apply triple_if; intros Hpath; [by apply triple_ret; left|]. apply negb_false_iff in Hpath.
  apply triple_if; intros Hquery; [by apply triple_ret; left|].
  apply triple_if; intros Hmethod.
  { apply Hforward. exists x. apply str_in_spec in Hmethod. split_and!; done. }
  apply str_in_false in Hmethod. eapply triple_bind; [apply (triple_lift _ _ (λ _ u, ui_calls u = l ∧
    header r "x-csrf-token" = Some (csrf_token x))); [intros [] u Hc%csrf_Ok; by split|by left]|intros []].
  apply triple_fact. intros Hcsrf.
  eapply triple_bind; [apply (triple_lift _ _ (λ o u, ui_calls u = l ∧ (o = false → ui_body r = "" ∨
    _has_identity_override (ui_body r) = Ok false)));
    [intros o u Ho Hu; split; [done|intros ->]|by left]|intros o].
  { destruct (ui_body r =? "") eqn:Hb; [left; by apply String.eqb_eq|by right]. }
  apply triple_fact. intros Hbody. apply triple_if; intros Ho; [by apply triple_ret; left|].
  apply Hforward. exists x. split_and!; auto.
Qed.

Lemma callback_calls l r correlation code st :
  triple (λ u : App, ui_ok u ∧ ui_calls u = l)
    (callback fetch post upstream login_time key_time wall_time settings client base_url r correlation code st)
    (λ _, calls_after l r correlation (Callback code st)) (calls_after l r correlation (Callback code st)).
Proof.
  unfold callback. eapply triple_bind.
  { eapply triple_conseq; [exact (triple_calls l _ _ _ _ (logins_triple _ _ (consume_triple st
      (default "" (assoc LOGIN_COOKIE (ui_cookies r))))) (with_logins_calls _))|done| |by left]. intros t u HH. exact HH. }
  intros t u [[Hu Ht] Hl]. revert u Hu Hl.
  enough (Hrest : triple (λ u : App, ui_ok u ∧ ui_calls u = l) (tokens ← with_browser (exchange fetch key_time post client code t);
    identity ← api_session upstream base_url (tokens_access tokens) correlation;
    identity ← mfa_step wall_time settings (authentication_claims tokens) identity;
    session ← with_sessions (store_create (tokens_access tokens) identity (expires_in tokens));
    mret (mkReply 303 (RedirectTo (return_path t)) [mkCookie LOGIN_COOKIE None 0;
      mkCookie SESSION_COOKIE (Some (session_id session)) (Z.min (session_ttl_seconds settings) (expires_in tokens))] []) : stateful App Reply)
    (λ _, calls_after l r correlation (Callback code st)) (calls_after l r correlation (Callback code st)))
    by (intros u Hu Hl; by apply Hrest).
  eapply triple_bind.
  { eapply triple_conseq; [exact (triple_calls l _ _ _ _ (browser_triple _ _
      (exchange_verifies fetch post key_time client code t)) (with_browser_calls _))|done| |by left].
    intros tokens u HH. exact HH. }
  intros tokens u [[_ Hv] Hl]. revert u Hl. set (call := session_call base_url (tokens_access tokens) correlation).
  match goal with |- ∀ u, _ → match ?m u with _ => _ end => change (triple (λ u : App, ui_calls u = l) m
    (λ _, calls_after l r correlation (Callback code st)) (calls_after l r correlation (Callback code st))) end.
  eapply (triple_conseq (λ u : App, ui_calls u = l) _ _ (λ _ (u : App), ui_calls u = l ++ [call]) _ (λ u : App, ui_calls u = l ++ [call]));
    [|done|intros ? u Hu|intros u Hu]; [|right; exists call; (split; [exact Hu|by exists t, tokens])..].
  eapply (triple_bind _ _ _ (λ _ (u : App), ui_calls u = l ++ [call])).
  { unfold api_session. eapply triple_bind; [apply request_calls|intros a; by apply triple_lift]. }
  intros identity. eapply triple_bind; [by apply triple_same_calls, mfa_step_calls|intros identity'].
  eapply triple_bind; [by apply triple_same_calls, with_sessions_calls|intros x; by apply triple_ret].
Qed.

Lemma step_calls l fresh r route :
  refused settings r = None →
  triple (λ u : App, ui_ok u ∧ ui_calls u = l) (step fresh r route)
    (λ _, calls_after l r (correlation_of fresh r) route) (calls_after l r (correlation_of fresh r) route).
Proof.
  intros Hr. unfold serve_ui. cbv zeta. rewrite Hr.
  eapply (triple_bind _ _ _ (λ _, calls_after l r (correlation_of fresh r) route)); [|intros p; by apply triple_ret].
  assert (Hsame : ∀ m : stateful App Reply, always same_calls m → triple (λ u : App, ui_ok u ∧ ui_calls u = l) m
    (λ _, calls_after l r (correlation_of fresh r) route) (calls_after l r (correlation_of fresh r) route)).
  { intros m Hm. eapply triple_conseq; [exact (triple_same_calls l m Hm)|by intros u [_ ?]|by left|by left]. }
  unfold answer. apply triple_handle.
  - destruct route; cbn [dispatch]; try (by apply Hsame, always_ret, same_calls_preorder);
      [apply Hsame, login_calls|apply callback_calls|apply Hsame, logout_calls|apply Hsame, bff_session_calls|apply proxy_calls].
  - intros e k. destruct (error_reply e) as [p|]; [|done]. intros [= <-]. by apply triple_ret.
Qed.

(** C18: every session rests on a login. Whatever requests browsers send, a session that the
    store holds carries the access token of tokens that were verified, with a key of the issuer
    and for this client, against the nonce of a login transaction the application issued; its
    identity is the API's answer to that very token, admitted by the multi-factor policy; and it
    is held under its own identifier. After a logout that succeeds, nothing is held under the
    identifier of the request's cookie. This is proved for the store in memory and for the one
    in PostgreSQL. *)
Theorem sessions_rest_on_login u0 u :
  ui_start u0 → ui_reachable u0 u →
  (∀ i x, stored (ui_sessions u) i x → session_id x = i ∧ authenticated (ui_calls u) x) ∧
  ∀ r p u' i, logout r u = (Ok p, u') → assoc SESSION_COOKIE (ui_cookies r) = Some i →
    ∀ x, ¬ stored (ui_sessions u') i x.
Proof.
  intros Hstart Hreach. pose proof (ui_reachable_ok u0 u Hstart Hreach) as Hok. split; [apply Hok|].
  intros r p u' i HH Hi. unfold logout in HH.
  apply stateful_bind_Ok in HH as (x & u1 & Hx & HH). pose proof (require_session_triple r u Hok) as Hs.
  rewrite Hx in Hs. destruct Hs as (_ & Hcookie & _). simplify_eq.
  apply stateful_bind_Ok in HH as (c & u2 & Hc & HH). injection Hc as _ <-.
  apply stateful_bind_Ok in HH as (d & u2 & Hd & HH). injection HH as _ <-. unfold with_sessions, zoom in Hd.
  destruct (store_destroy (Some (session_id x)) (ui_sessions u1)) as [[v|e] s] eqn:E; [|done].
  injection Hd as _ <-. exact (destroy_ends _ _ _ _ E).
Qed.

End application.

(** ** A concrete login *)

Section sample.
Let alg : HashAlg := Sha256.sha256.
Let bytes : BytesText := λ s, Ok s.
#[local] Existing Instances alg bytes ascii_casefold ResearchSamples.sample_floats ResearchSamples.sample_urls.

(** The library decodes one identity token, for the nonce of the first login. *)
Definition ui_token (n bytes : nat) : string := str_join "" (repeat "a" 42) +:+ pretty n.
Definition ui_jwt : Jwt := {|
  Key := string;
  get_unverified_header := λ t, if t =? "id" then Ok [("alg", PStr "RS256"); ("kid", PStr "k1")] else raise PyJWTError "";
  from_dict := λ d, match lookup_or d "n" PNone with PStr n => Ok ("RS256", n) | _ => raise PyJWTError "" end;
  decode := λ t k _ _ _ _ _, if (t =? "id") && (k =? "modulus")
    then Ok [("nonce", PStr (ui_token 1 32)); ("acr", PStr "2"); ("amr", PList [PStr "otp"]); ("auth_time", PInt 1767355200)]
    else raise PyJWTError ""
|}.
Definition ui_crypto : SessionCrypto := {|
  session_hmac s := s; fernet_encrypt n s := s; fernet_decrypt s := Ok s
|}.
#[local] Instance ui_crypto_round_trip : FernetRoundTrip (H := ui_crypto).
Proof. done. Qed.
Definition ui_networks : Networks := λ a n, n =? "10.0.0.0/8".
#[local] Existing Instances ui_jwt ui_crypto ui_networks.

Definition ui_post (n : nat) : result Response :=
  Ok (mkResponse 200 (Ok tt) (Ok (PDict [("access_token", PStr "access"); ("id_token", PStr "id"); ("expires_in", PInt 300)]))).
Definition ui_upstream (n : nat) : result ApiResponse :=
  Ok (mkApiResponse 200 [("content-type", "application/json")] "{}" (Ok (PDict
    [("actor_id", PStr "alice"); ("tenant_id", PStr "t1"); ("actor_kind", PStr "HUMAN"); ("roles", PList [PStr "APPROVER"])]))).
(** Twelve o'clock of the second of January 2026, and the next minutes. *)
Definition ui_wall (n : nat) : Z := (1767355200000000 + 60000000 * Z.of_nat n)%Z.

Definition ui_policy : MfaPolicy := mkMfaPolicy "v1" ["APPROVER"] ["2"] ["otp"] 900000000.
Definition sample_ui_settings : UiSettings :=
  mkUiSettings ["pilot.test"] ["10.0.0.0/8"] "https://pilot.test/bye" 300 None "da-ui" (Some ui_policy).
Definition sample_limits : LoginLimits := mkLoginLimits 180 4 ["/"].
Definition sample_client : BrowserClient :=
  mkBrowserClient "https://idp.test" "da-ui" "https://idp.test/auth" "https://idp.test/token" "https://pilot.test/auth/callback"
    sample_provider ["RS256"].
Definition ui_request (method : string) (headers cookies : list (string * string)) : UiRequest :=
  mkUiRequest method (Some "pilot.test") headers cookies (Some "10.0.0.1") "" "".

(** Login, callback and a request of the browser. *)
Definition browser_requests : list (UiRequest * Route) :=
  [(ui_request "GET" [] [], Login "/");
   (ui_request "GET" [] [(LOGIN_COOKIE, ui_token 0 32)], Callback "code" (ui_token 0 32));
   (ui_request "POST" [("x-csrf-token", ui_token 1 32)] [(SESSION_COOKIE, ui_token 0 32)], Proxy "v1/decisions/d1/evaluate")].

Section run.
Context {S : Type} `{BrowserSessionStore S}.
Notation run_step := (serve_ui sample_fetch ui_post ui_upstream sample_clock sample_clock ui_wall ui_token ui_token
  sample_ui_settings sample_limits sample_client "http://api").
Definition ui_after (l : list (UiRequest * Route)) (u : Ui S) : Ui S :=
  foldl (λ u rr, (run_step "uuid" rr.1 rr.2 u).2) u l.
Lemma ui_after_reachable u0 l u :
  ui_reachable sample_fetch ui_post ui_upstream sample_clock sample_clock ui_wall ui_token ui_token sample_ui_settings
    sample_limits sample_client "http://api" u0 u →
  ui_reachable sample_fetch ui_post ui_upstream sample_clock sample_clock ui_wall ui_token ui_token sample_ui_settings
    sample_limits sample_client "http://api" u0 (ui_after l u).
Proof. revert u. induction l as [|[r route] l IH]; intros u Hu; [exact Hu|]. cbn. apply IH. by apply reach_step. Qed.
End run.

(** With the table of sessions *)
Definition ui_table : BrowserSessionStore TableSessions.Store :=
  TableSessions.table_store ui_wall ui_wall ui_token (TableSessions.mkSettings 300 (Some "v1")).
Definition ui_table_laws : BrowserSessionLaws TableSessions.Store (H := ui_table) := table_laws _ _ _ _.
(** In memory *)
Definition ui_memory : BrowserSessionStore MemorySessions.Store :=
  MemorySessions.memory_store sample_clock ui_token (MemorySessions.mkLimits 300 4).
Definition ui_memory_laws : BrowserSessionLaws MemorySessions.Store (H := ui_memory) := memory_laws _ _ _.

Definition table_start : Ui TableSessions.Store := mkUi empty_logins TableSessions.empty empty_browser [] 0 0.
Definition memory_start : Ui MemorySessions.Store := mkUi empty_logins MemorySessions.empty empty_browser [] 0 0.

Definition sample_session_identity : mapping :=
  [("actor_id", PStr "alice"); ("tenant_id", PStr "t1"); ("actor_kind", PStr "HUMAN"); ("roles", PList [PStr "APPROVER"]);
   ("acr", PStr "2"); ("amr", PList [PStr "otp"]); ("authenticated_at", PStr "2026-01-02T12:00:00+00:00");
   ("mfa_policy_version", PStr "v1")].
Definition sample_session : BrowserSession :=
  mkSession (ui_token 0 32) (ui_token 1 32) (mkToken "access") sample_session_identity 1767355500000000.
Definition logged_in : Ui TableSessions.Store := ui_after (H := ui_table) (firstn 2 browser_requests) table_start.
Lemma logged_in_row :
  TableSessions.rows (ui_sessions logged_in) !! TableSessions._digest (ui_token 0 32) =
  Some (TableSessions.mkRow "t1" "alice" sample_session_identity (ui_token 1 32) "access" 1767355500000000 false).
Proof. vm_compute. reflexivity. Qed.

Lemma sessions_rest_on_login_witness :
  stored (BrowserSessionLaws := ui_table_laws) (ui_sessions logged_in) (ui_token 0 32) sample_session ∧
  authenticated sample_fetch ui_post ui_upstream ui_token sample_ui_settings sample_limits sample_client "http://api"
    (ui_calls logged_in) sample_session.
Proof.
  assert (Hx : stored (BrowserSessionLaws := ui_table_laws) (ui_sessions logged_in) (ui_token 0 32) sample_session).
  { eexists. split; [exact logged_in_row|]. repeat split. }
  split; [exact Hx|].
  refine (proj2 (proj1 (sessions_rest_on_login (H7 := ui_table_laws) sample_fetch ui_post ui_upstream sample_clock sample_clock
    ui_wall ui_token ui_token sample_ui_settings sample_limits sample_client "http://api" table_start logged_in _ _) _ _ Hx)).
  - split; [reflexivity|]. split; [reflexivity|]. intros i y (r & Hr & _). cbn in Hr. by rewrite lookup_empty in Hr.
  - apply ui_after_reachable. constructor.
Defined.

(** The third request of the browser is forwarded, with the session's token. *)
Definition in_memory : Ui MemorySessions.Store := ui_after (H := ui_memory) (firstn 2 browser_requests) memory_start.
Definition forwarded_request : UiRequest :=
  ui_request "POST" [("x-csrf-token", ui_token 1 32)] [(SESSION_COOKIE, ui_token 0 32)].
Definition after_proxy : Ui MemorySessions.Store :=
  (serve_ui (H6 := ui_memory) sample_fetch ui_post ui_upstream sample_clock sample_clock ui_wall ui_token ui_token
     sample_ui_settings sample_limits sample_client "http://api" "uuid" forwarded_request
     (Proxy "v1/decisions/d1/evaluate") in_memory).2.
Lemma after_proxy_calls : length (ui_calls in_memory) = 1 ∧ length (ui_calls after_proxy) = 2.
Proof. split; vm_compute; reflexivity. Qed.

End sample.
