(* ===== verification/ExportProps.v ===== *)
(** * What an accepted export guarantees

    The checks of the validator as propositions: the members of an accepted archive are the
    declared ones, their digests are those of the manifest, the events of every stream are
    chained, and a signed archive carries a signature over the manifest by a key that was usable
    when it signed and is not revoked. *)

From S2P Require Import Prelude Hmac PyVal JsonNumber Json JsonLoads Sha256 PyTime AuditChain Identity Config UrlPolicy Events Export ExportValidator EgressProps.
From stdpp Require Import options.

(** ** Chains *)

Section chains.
Context `{HashAlg}.

Definition in_stream (stream_of : mapping → result string) (s : string) (e : mapping) : bool :=
  succeeds_with (stream_of e) (String.eqb s).

(** The events of a stream, in the order of the member *)
Definition stream_events (stream_of : mapping → result string) (s : string) (events : list mapping) : list pyval :=
  map PDict (base.filter (λ e, in_stream stream_of s e = true) events).

(** Every event of the member belongs to a stream, and every stream is a chain. *)
Definition streams_chained (stream_of : mapping → result string) (events : list mapping) : Prop :=
  (∀ e, e ∈ events → ∃ s, stream_of e = Ok s) ∧ ∀ s, chained (stream_events stream_of s events).

Lemma check_streams_chained stream_of events previous :
  check_streams stream_of previous events = Ok tt →
  (∀ e, e ∈ events → ∃ s, stream_of e = Ok s) ∧
  ∀ s p, assoc s previous = option_map payload_hash p → chained_from p (stream_events stream_of s events).
Proof.
  revert previous. induction events as [|e events IH]; intros previous; cbn [check_streams].
  - intros _. split; [by intros e ?%elem_of_nil|done].
  - intros Hc. inv_ok. rename x into stream. apply IH in Hc as [Hin Hs].
    split; [by intros e' [->|?]%elem_of_cons; eauto|]. intros s p Hp.
    assert (in_stream stream_of s e = (s =? stream)) as Hin' by by (unfold in_stream; rewrite H0).
    unfold stream_events. rewrite filter_cons.
    destruct (decide (in_stream stream_of s e = true)) as [E|E]; rewrite Hin' in E.
    + apply String.eqb_eq in E as ->. cbn. rewrite Hp in H1. split.
      * destruct p; cbn in *; [by rewrite py_eq_str_r in H1|].
        destruct (lookup_or e "previous_event_hash" PNone) eqn:El; try discriminate H1. done.
      * apply (Hs stream). by rewrite assoc_set_eq.
    + apply Hs. rewrite assoc_set_ne; [done|]. intros ->. by rewrite String.eqb_refl in E.
Qed.

Lemma check_streams_sound stream_of events :
  check_streams stream_of [] events = Ok tt → streams_chained stream_of events.
Proof. intros [Hi Hc]%check_streams_chained. split; [done|]. intros s. by apply Hc. Qed.

(** A lifecycle event covers its other fields with its own hash. *)
Definition sealed_event (e : mapping) : Prop :=
  lookup_or e "event_hash" PNone =
    PStr (payload_hash (PDict (base.filter (λ kv, kv.1 ∉ ["schema_version"; "event_hash"]) e))).

Fixpoint hash_linked (previous : pyval) (events : list mapping) : Prop :=
  match events with
  | [] => True
  | e :: events => lookup_or e "previous_event_hash" PNone = previous ∧
                   hash_linked (lookup_or e "event_hash" PNone) events
  end.

Definition of_request (r : string) (events : list mapping) : list mapping :=
  base.filter (λ e, lookup_or e "request_id" PNone = PStr r) events.

Definition lifecycle_chained (events : list mapping) : Prop :=
  (∀ e, e ∈ events → sealed_event e ∧ ∃ r, lookup_or e "request_id" PNone = PStr r) ∧
  ∀ r, hash_linked PNone (of_request r events).

Lemma constant_equal_true v s : _constant_equal v s = Ok true → v = PStr s.
Proof. destruct v; cbn; try done. intros Hc. inv_ok. by apply String.eqb_eq in Hc as ->. Qed.

Lemma check_lifecycle_chained events previous :
  check_lifecycle previous events = Ok tt →
  (∀ e, e ∈ events → sealed_event e ∧ ∃ r, lookup_or e "request_id" PNone = PStr r) ∧
  ∀ r, hash_linked (match assoc r previous with Some h => PStr h | None => PNone end) (of_request r events).
Proof.
  revert previous. induction events as [|e events IH]; intros previous; cbn [check_lifecycle].
  - intros _. split; [by intros e ?%elem_of_nil|done].
  - destruct (lookup_or e "request_id" PNone) as [| | | |r| |] eqn:Er; try discriminate.
    destruct (lookup_or e "event_hash" PNone) as [| | | |h| |] eqn:Eh; try discriminate.
    intros Hc. inv_ok. apply IH in Hc as [Hin Hs]. apply constant_equal_true in H1.
    split; [intros e' [->|?]%elem_of_cons; [|by apply Hin]|].
    + split; [|by exists r]. unfold sealed_event. by rewrite Eh, H1.
    + intros r'. unfold of_request. rewrite filter_cons.
      destruct (decide (lookup_or e "request_id" PNone = PStr r')) as [E|Hne]; rewrite Er in *;
        [injection E as ->|]; cbn [hash_linked].
      * split; [|rewrite Eh; specialize (Hs r'); by rewrite assoc_set_eq in Hs].
        destruct (assoc r' previous); [by rewrite py_eq_str_r in H0|].
        by destruct (lookup_or e "previous_event_hash" PNone).
      * specialize (Hs r'). rewrite assoc_set_ne in Hs; [done|congruence].
Qed.

Lemma dicts_of_Ok v l : dicts_of v = Ok l → v = PList (map PDict l).
Proof.
  destruct v as [| | | | |vs|]; try discriminate. cbn. intros Hl. f_equal. revert l Hl.
  induction vs as [|v vs IH]; cbn; intros l Hl; inv_ok; [done|]. destruct v; inv_ok. cbn. f_equal. eauto.
Qed.

(** The audit members of an export whose chains hold. *)
Definition chains_hold (members : mapping) : Prop :=
  (∀ name, name ∈ linked_members → ∃ events,
     assoc name members = Some (PList (map PDict events)) ∧ streams_chained (_audit_stream name) events) ∧
  ∃ events, assoc "audit/lifecycle-events.json" members = Some (PList (map PDict events)) ∧
    lifecycle_chained events.

Lemma check_linked_sound names members :
  check_linked names members = Ok tt → ∀ name, name ∈ names → ∃ events,
    assoc name members = Some (PList (map PDict events)) ∧ streams_chained (_audit_stream name) events.
Proof.
  induction names as [|n names IH]; cbn; intros Hc name; [by intros ?%elem_of_nil|]. inv_ok.
  destruct x1. intros [->|Hin]%elem_of_cons; [|by apply IH]. apply dicts_of_Ok in H1 as ->.
  eexists. split; [done|]. by apply check_streams_sound.
Qed.

Lemma validate_audit_chains_sound members : _validate_audit_chains members = Ok tt → chains_hold members.
Proof.
  intros Hv. unfold _validate_audit_chains in Hv. inv_ok. destruct x. split; [by apply check_linked_sound|].
  apply dicts_of_Ok in H2 as ->. eexists. split; [done|]. apply check_lifecycle_chained in Hv as [? Hr].
  split; [done|]. intros r. apply (Hr r).
Qed.
End chains.

(** ** Accepted archives *)

Section accepted.
Context `{HashAlg} `{FloatText} `{BytesText} `{Ed25519} `{ManifestSchema} `{ZipFile}.

(** The manifest declares the member, and its bytes are the declared ones. *)
Record sealed_member (entries : list Entry) (declared members : mapping) (name bytes : string) : Prop := {
  sm_read : read_entry entries name = Ok bytes;
  sm_declared : ∃ item, assoc name declared = Some item ∧
    py_item item "sha256" = Ok (PStr (hexdigest bytes)) ∧
    succeeds_with (py_item item "bytes") (λ n, py_eq n (PInt (Z.of_nat (String.length bytes)))) = true;
  sm_json : ∃ v, json_of bytes = Ok v ∧ assoc name members = Some v
}.

(** The signature over the manifest, by a key that was usable when it signed. *)
Definition signed_manifest (entries : list Entry) (manifest_bytes : string)
    (resolver : option (string → option VerificationKey)) (now : datetime) (key_id : string) : Prop :=
  ∃ resolve key raw e t, resolver = Some resolve ∧ resolve key_id = Some key ∧
    read_entry entries "signature.json" = Ok raw ∧ sig_key_id e = key_id ∧
    format_version e = "1.0.0" ∧ algorithm e = "EdDSA" ∧ fromisoformat (replace_Z (signed_at e)) = Ok t ∧
    usable_at key t = Ok true ∧
    (∀ r, revoked_at key = Some r → datetime_lt now r = Ok true) ∧
    verify_signature (public_key_pem key) (signature e) (_signing_input e manifest_bytes) = true.

Record accepted (entries : list Entry) (resolver : option (string → option VerificationKey))
    (expected_tenant : option string) (now : datetime) (r : ValidationReport)
    (manifest_bytes : string) (manifest : pyval) (declared members : mapping) : Prop := {
  acc_manifest : read_entry entries "manifest.json" = Ok manifest_bytes ∧ json_of manifest_bytes = Ok manifest;
  acc_version : ∃ version, py_item manifest "schema_version" = Ok (PStr version) ∧
    manifest_valid (schema_file version) manifest = true ∧
    (version = "0.8.0" ∧ provenance_status r = "LEGACY_UNSIGNED" ∧ rep_key_id r = None ∨
     version = "0.9.0" ∧ provenance_status r = "SIGNED_VALID" ∧
     ∃ key_id tenant, rep_key_id r = Some key_id ∧ rep_tenant_id r = Some tenant ∧
       signed_manifest entries manifest_bytes resolver now key_id ∧
       ∀ t, expected_tenant = Some t → tenant = t);
  acc_names : NoDup (map filename entries) ∧ ∀ n, n ∈ map filename entries ↔
    n ∈ expected_names (provenance_status r =? "SIGNED_VALID");
  acc_paths : ∀ n, n ∈ map filename entries → _safe_path n = true;
  acc_declared : ∃ items, declarations manifest = Ok (items, declared) ∧ member_count r = length items;
  acc_members : ∀ name, name ∈ EXPORT_MEMBERS → ∃ bytes, sealed_member entries declared members name bytes;
  acc_chains : chains_hold members
}.

Lemma or_reject_Ok {A} classes code (m : result A) a : or_reject classes code m = Ok a ↔ m = Ok a.
Proof. destruct m as [b|e]; cbn; [done|]. case_bool_decide; split; discriminate. Qed.

Lemma py_item_get v k x : py_get v k PNone = Ok x → x ≠ PNone → py_item v k = Ok x.
Proof. destruct v as [| | | | | |d]; cbn; try discriminate. destruct (assoc k d); cbn; congruence. Qed.

Lemma manifest_version_Ok m v :
  manifest_version m = Ok v → py_item m "schema_version" = Ok (PStr v) ∧ v ∈ ["0.8.0"; "0.9.0"].
Proof.
  unfold manifest_version. intros Hv. inv_ok. destruct x as [| | | |s| |]; try discriminate.
  destruct (str_in s _) eqn:E; [|discriminate]. injection Hv as ->. split; [by apply py_item_get|].
  by apply str_in_spec.
Qed.

Lemma check_names_Ok names signed u :
  check_names names signed = Ok u → ∀ n, n ∈ names ↔ n ∈ expected_names signed.
Proof.
  unfold check_names. destruct (same_set _ _) eqn:E; [intros _; by apply same_set_spec|].
  by destruct (signed && _).
Qed.

Lemma read_member_Ok entries declared name kv :
  read_member entries declared name = Ok kv →
  kv.1 = name ∧ ∃ bytes, sealed_member entries declared [kv] name bytes.
Proof.
  unfold read_member. intros Hr. inv_ok. split; [done|]. eexists. split; [done| |].
  - eexists. split; [done|]. split; [|by rewrite H7]. by apply constant_equal_true in H10 as ->.
  - rewrite or_reject_Ok in H12. eexists. split; [done|]. cbn. by rewrite String.eqb_refl.
Qed.

Lemma read_members_Ok entries declared names members name :
  mapM (read_member entries declared) names = Ok members → name ∈ names →
  ∃ bytes, sealed_member entries declared members name bytes.
Proof.
  revert members. induction names as [|n names IH]; cbn; intros members Hr Hin; [by apply elem_of_nil in Hin|].
  inv_ok. destruct x as [n' v]. apply read_member_Ok in H5 as [[= ->] [bytes Hb]].
  destruct (decide (name = n)) as [->|Hne].
  - exists bytes. destruct Hb as [? ? (w & ? & Hw)]. split; [done..|]. exists w. split; [done|].
    cbn in *. rewrite String.eqb_refl in *. done.
  - apply elem_of_cons in Hin as [->|Hin]; [done|]. destruct (IH _ H6 Hin) as [b' [? ? (w & ? & Hw)]].
    exists b'. split; [done..|]. exists w. split; [done|]. cbn.
    by destruct (String.eqb_spec name n).
Qed.

Lemma datetime_le_false r t : datetime_le r t = Ok false → datetime_lt t r = Ok true.
Proof. unfold datetime_le. intros Hr. inv_ok. by destruct x. Qed.

Lemma check_key_sound key at_ now u :
  check_key key at_ now = Ok u → ∃ t, fromisoformat (replace_Z (py_str at_)) = Ok t ∧ usable_at key t = Ok true ∧
    ∀ r, revoked_at key = Some r → datetime_lt now r = Ok true.
Proof.
  unfold check_key, timestamp_of. destruct (fromisoformat _) as [t|e]; [|by destruct (is_value_error _)].
  intros Hk. apply bind_Ok in Hk as (t' & [= <-] & Hk). inv_ok. exists t. split; [done|].
  split; [done|]. intros r Hr. apply datetime_le_false. rewrite Hr in *. by bool_prop; subst.
Qed.

Lemma validate_signature_sound entries raw manifest_bytes resolver now key_id :
  read_entry entries "signature.json" = Ok raw →
  _validate_signature raw manifest_bytes resolver now = Ok key_id →
  signed_manifest entries manifest_bytes resolver now key_id.
Proof.
  intros Hraw. unfold _validate_signature. intros Hv.
  apply bind_Ok in Hv as (envelope & _ & Hv). apply bind_Ok in Hv as (fields & _ & Hv).
  apply bind_Ok in Hv as ([] & _ & Hv). apply bind_Ok in Hv as (format & _ & Hv).
  apply bind_Ok in Hv as ([] & Hf & Hv). apply bind_Ok in Hv as (alg & _ & Hv).
  apply bind_Ok in Hv as ([] & Ha & Hv). apply bind_Ok in Hv as (id & _ & Hv).
  apply bind_Ok in Hv as (text & _ & Hv).
  rewrite require_Ok, py_eq_str_r in Hf, Ha. subst.
  destruct id as [| | | |id| |]; try discriminate. destruct text as [| | | |text| |]; try discriminate.
  destruct resolver as [resolve|]; [|discriminate]. inv_ok.
  match goal with Hk : check_key _ _ _ = Ok _ |- _ => apply check_key_sound in Hk as (t & Ht & Hu & Hr) end.
  eexists resolve, x, raw, (mkSignature _ _ _ _ _), t. naive_solver.
Qed.

Lemma provenance_Ok entries version manifest_bytes manifest resolver tenant now status t k :
  provenance entries version manifest_bytes manifest resolver tenant now = Ok (status, t, k) →
  version ∈ ["0.8.0"; "0.9.0"] →
  version = "0.8.0" ∧ status = "LEGACY_UNSIGNED" ∧ k = None ∨
  version = "0.9.0" ∧ status = "SIGNED_VALID" ∧ ∃ key_id x, k = Some key_id ∧ t = Some x ∧
    signed_manifest entries manifest_bytes resolver now key_id ∧ ∀ e, tenant = Some e → x = e.
Proof.
  unfold provenance. intros Hp Hv. destruct (String.eqb_spec version "0.9.0") as [->|Hne]; cbn in Hp.
  - right. inv_ok. split; [done|]. split; [done|]. eexists _, _. split; [done|]. split; [done|].
    split; [by eapply validate_signature_sound|]. intros e ->. inv_ok. by bool_prop.
  - left. inv_ok. by elem_cases Hv.
Qed.

Lemma validate_entries_sound entries resolver tenant now r :
  validate_entries entries resolver tenant now = Ok r →
  ∃ manifest_bytes manifest declared members,
    accepted entries resolver tenant now r manifest_bytes manifest declared members.
Proof.
  unfold validate_entries. intros Hv.
  apply bind_Ok in Hv as ([] & Hnd & Hv). apply bind_Ok in Hv as ([] & Hsafe & Hv).
  apply bind_Ok in Hv as ([bytes manifest] & Hm & Hv). rewrite or_reject_Ok in Hm.
  apply bind_Ok in Hm as (b & Hb & Hm). apply bind_Ok in Hm as (m & Hj & [= -> ->]).
  apply bind_Ok in Hv as (version & Hver & Hv). apply bind_Ok in Hv as ([] & Hnames & Hv).
  apply bind_Ok in Hv as ([] & _ & Hv). apply bind_Ok in Hv as ([] & Hschema & Hv).
  apply bind_Ok in Hv as ([items declared] & Hdecl & Hv). apply bind_Ok in Hv as (members & Hmem & Hv).
  apply bind_Ok in Hv as ([] & Hchains & Hv). apply bind_Ok in Hv as (? & _ & Hv).
  apply bind_Ok in Hv as ([[status t] k] & Hprov & Hv). inv_ok.
  apply manifest_version_Ok in Hver as [Hver Hin]. apply provenance_Ok in Hprov; [|done].
  exists bytes, manifest, declared, members. split; cbn.
  - done.
  - exists version. split; [done|]. unfold _validate_manifest in Hschema. by rewrite require_Ok in Hschema.
  - bool_prop. split; [done|]. pose proof (check_names_Ok _ _ _ Hnames) as Hn.
    destruct Hprov as [(-> & -> & _)|(-> & -> & _)]; exact Hn.
  - intros n Hn. by apply (proj1 (forallb_elem _ _) Hsafe).
  - by exists items.
  - intros name Hname. by eapply read_members_Ok.
  - by apply validate_audit_chains_sound.
Qed.
End accepted.
