(* ===== verification/ExportRoundTrip.v ===== *)
(** * Building an export and validating it

    The validator accepts what the service builds: the archive of a snapshot, signed by a key
    the validator knows, gives a report of the same case, tenant and key. *)

From S2P Require Import Prelude Hmac PyVal JsonNumber Json JsonLoads Sha256 PyTime AuditChain Identity ResearchEvidence Intake IntakeProps Config UrlPolicy Events Export ExportValidator EgressProps ExportProps.
From stdpp Require Import options.

(** ** The time of a signature is read back *)

Lemma zulu_char c k : Ascii.eqb c "+" = false → zulu (String c k) = String c (zulu k).
Proof.
  intros Hc. cbn [zulu]. destruct k as [|b [|d [|e [|f [|g k]]]]]; try done.
  cbn [String.eqb]. by rewrite Hc.
Qed.

Lemma digit_not_plus (z : Z) : (0 <= z < 10)%Z → Ascii.eqb (digit z) "+" = false.
Proof.
  intros Hz. destruct (is_digit_digit z Hz) as [Hd _]. by destruct (Ascii.eqb_spec (digit z) "+") as [E|]; [rewrite E in Hd|].
Qed.

Lemma zulu_pad w z k : zulu (pad_app w z k) = pad_app w z (zulu k).
Proof.
  revert z k. induction w as [|w IH]; intros z k; [done|].
  cbn [pad_app]. rewrite IH, zulu_char; [done|]. apply digit_not_plus. apply Z.mod_pos_bound. lia.
Qed.

Lemma timestamp_read_back t :
  utcoffset t = Some 0%Z → replace_Z (zulu (isoformat t)) = isoformat t.
Proof.
  intros Ho. unfold isoformat. rewrite Ho. rewrite zulu_pad, replace_Z_pad.
  do 5 (rewrite zulu_char, zulu_pad by done; rewrite replace_Z_char, replace_Z_pad by done).
  destruct (Z.eqb (microsecond t) 0); [done|].
  by rewrite zulu_char, zulu_pad, replace_Z_char, replace_Z_pad by done.
Qed.

(** ** Sorting the keys of an event changes no check *)

Definition sorted_keys (d : mapping) : mapping := py_sorted key_leb (map (λ kv, (kv.1, normalize_keys kv.2)) d).

Lemma lookup_sorted d k : lookup_or (sorted_keys d) k PNone = normalize_keys (lookup_or d k PNone).
Proof. unfold lookup_or, sorted_keys. rewrite assoc_normalize. by destruct (assoc k d). Qed.

Lemma py_eq_normalize v s : py_eq (normalize_keys v) (PStr s) = py_eq v (PStr s).
Proof. by destruct v. Qed.
Lemma text_normalize v code : _text (normalize_keys v) code = _text v code.
Proof. by destruct v. Qed.
Lemma legacy_version_normalize v : legacy_version (normalize_keys v) = legacy_version v.
Proof. by destruct v. Qed.
Lemma event_timestamp_normalize v : event_timestamp (normalize_keys v) = event_timestamp v.
Proof. unfold event_timestamp. by rewrite text_normalize. Qed.

Lemma has_exactly_sorted fields d : has_exactly fields (sorted_keys d) = has_exactly fields d.
Proof.
  unfold has_exactly. f_equal.
  - apply eq_true_iff_eq. unfold known_fields, sorted_keys.
    rewrite !forallb_true_Forall, (py_sorted_perm key_leb), Forall_fmap. done.
  - induction fields as [|k fields IH]; cbn; [done|]. rewrite IH. f_equal. apply bool_decide_ext.
    unfold sorted_keys. rewrite assoc_normalize. apply fmap_is_Some.
Qed.

Lemma parse_sorted d e : parse d = Ok e → ∃ e', parse (sorted_keys d) = Ok e'.
Proof.
  unfold parse. cbn zeta. rewrite !lookup_sorted, py_eq_normalize, has_exactly_sorted, event_timestamp_normalize,
    !text_normalize. intros Hp.
  apply bind_Ok in Hp as ([] & -> & Hp). cbn [mbind result_bind].
  apply bind_Ok in Hp as (p & Hpay & Hp).
  destruct (has_exactly _ d); [|discriminate].
  destruct (lookup_or d "payload" PNone) eqn:E; try discriminate. cbn [normalize_keys mbind result_bind require].
  destruct (event_timestamp _); [|discriminate].
  cbn [mbind result_bind] in *. inv_ok. rewrite H; cbn [mbind result_bind]. rewrite H0; cbn [require mbind result_bind].
  rewrite H1; cbn [mbind result_bind]. rewrite H2; cbn [mbind result_bind]. rewrite H3; cbn [mbind result_bind].
  rewrite H4; cbn [mbind result_bind]. rewrite H5; cbn [mbind result_bind]. by eexists.
Qed.

Lemma validate_event_sorted member d :
  validate_export_event member d = Ok tt → validate_export_event member (sorted_keys d) = Ok tt.
Proof.
  unfold validate_export_event. cbn zeta. rewrite !lookup_sorted, py_eq_normalize, legacy_version_normalize.
  destruct (py_eq _ (PStr _CURRENT)).
  - intros He. inv_ok. by destruct (parse_sorted _ _ H) as [e' ->].
  - by destruct (lookup_or d "event_type" PNone).
Qed.

Lemma validate_events_sorted member l :
  validate_events member l = Ok tt → validate_events member (map normalize_keys l) = Ok tt.
Proof.
  induction l as [|v l IH]; [done|]. destruct v as [| | | | | |d]; try discriminate. cbn [validate_events map].
  intros Hv. apply bind_Ok in Hv as ([] & Hd & Hv). apply validate_event_sorted in Hd.
  cbn [normalize_keys validate_events]. unfold sorted_keys in Hd. rewrite Hd. by apply IH.
Qed.

(** The members of an export, as the validator reads them. *)
Definition parsed (snapshot : mapping) : mapping :=
  map (λ name, (name, normalize_keys (lookup_or snapshot name PNone))) EXPORT_MEMBERS.

Lemma assoc_parsed snapshot name v :
  name ∈ EXPORT_MEMBERS → assoc name snapshot = Some v → assoc name (parsed snapshot) = Some (normalize_keys v).
Proof.
  intros Hin Hv. unfold parsed. induction EXPORT_MEMBERS as [|n l IH]; [by apply elem_of_nil in Hin|].
  cbn [map assoc]. destruct (String.eqb_spec name n) as [->|Hne]; cbn [fst snd].
  - unfold lookup_or. by rewrite Hv.
  - apply IH. by apply elem_of_cons in Hin as [->|].
Qed.

(** The events the service checks before it builds are accepted by the validator. *)
Lemma check_versions_parsed snapshot members :
  validate_members members snapshot = Ok tt → (∀ m, m ∈ members → m ∈ EXPORT_MEMBERS) →
  check_versions members (parsed snapshot) = Ok tt.
Proof.
  induction members as [|m members IH]; [done|]. cbn [validate_members check_versions]. intros Hv Hin.
  apply bind_Ok in Hv as (v & Hm & Hv). apply bind_Ok in Hv as (l & Hl & Hv).
  apply bind_Ok in Hv as ([] & _ & Hv). apply bind_Ok in Hv as ([] & Hev & Hv).
  rewrite or_raise_Ok in Hm. destruct v as [| | | | |vs|]; try discriminate. injection Hl as ->.
  rewrite (assoc_parsed _ _ _ (Hin m ltac:(left)) Hm). cbn [or_raise mbind result_bind normalize_keys].
  rewrite (validate_events_sorted _ _ Hev). apply IH; [done|]. intros n Hn. apply Hin. by right.
Qed.

(** ** Sorting the keys changes no digest *)

Lemma key_leb_trans {A} (x y z : string * A) : key_leb x y = true → key_leb y z = true → key_leb x z = true.
Proof. apply str_leb_trans. Qed.

Lemma insert_sorted_head {A} (leb : A → A → bool) x l :
  Forall (λ y, leb x y = true) l → insert_sorted leb x l = x :: l.
Proof. intros Hl. destruct l as [|y l]; [done|]. apply Forall_cons in Hl as [Hy _]. cbn. by rewrite Hy. Qed.

Definition sorted_by_key (l : list (string * pyval)) : Prop := StronglySorted (λ x y, key_leb x y = true) l.

Lemma py_sorted_strong (l : list (string * pyval)) : sorted_by_key (py_sorted key_leb l).
Proof.
  apply Sorted_StronglySorted; [intros x y z; apply key_leb_trans|].
  apply py_sorted_Sorted. intros x y. apply String.leb_total.
Qed.

Lemma py_sorted_id (l : list (string * pyval)) : sorted_by_key l → py_sorted key_leb l = l.
Proof. induction 1 as [|x l Hs IH Hx]; cbn; [done|]. unfold py_sorted in IH. rewrite IH. by apply insert_sorted_head. Qed.

Lemma normalize_idem v : normalize_keys (normalize_keys v) = normalize_keys v.
Proof.
  induction v as [| | | | |l IH|d IH] using pyval_ind_nested; try done.
  - cbn. f_equal. rewrite map_map. by apply map_ext_Forall.
  - cbn. f_equal. set (l := py_sorted key_leb (map _ d)).
    assert (map (λ kv, (kv.1, normalize_keys kv.2)) l = l) as ->.
    { assert (Forall (λ kv : string * pyval, (kv.1, normalize_keys kv.2) = kv) l) as Hl.
      { subst l. rewrite (py_sorted_perm key_leb), Forall_map. eapply Forall_impl; [exact IH|].
        intros [k v]. cbn. by intros ->. }
      clear IH. induction Hl as [|kv l' Hkv _ IHl]; cbn; [done|]. by rewrite Hkv, IHl. }
    apply py_sorted_id, py_sorted_strong.
Qed.

Lemma canonical_sorted v : canonical_json (normalize_keys v) = canonical_json v.
Proof. unfold canonical_json. by rewrite normalize_idem. Qed.

Section filters.
Context (P : string * pyval → Prop) `{!∀ kv, Decision (P kv)}.

Lemma filter_insert_sorted x (l : list (string * pyval)) : sorted_by_key l →
  base.filter P (insert_sorted key_leb x l) =
    if decide (P x) then insert_sorted key_leb x (base.filter P l) else base.filter P l.
Proof.
  induction 1 as [|y l Hs IH Hy]; cbn [insert_sorted]; [by rewrite filter_cons|].
  destruct (key_leb x y) eqn:E.
  - rewrite filter_cons. destruct (decide (P x)); [|done]. rewrite insert_sorted_head; [done|].
    apply Forall_forall. intros z [_ Hz]%list_elem_of_filter. apply elem_of_cons in Hz as [->|Hz]; [done|].
    rewrite Forall_forall in Hy. by eapply key_leb_trans; [|apply Hy].
  - rewrite (filter_cons P y l), filter_cons, IH.
    destruct (decide (P x)), (decide (P y)); cbn [insert_sorted]; rewrite ?E; done.
Qed.

Lemma filter_py_sorted (l : list (string * pyval)) :
  base.filter P (py_sorted key_leb l) = py_sorted key_leb (base.filter P l).
Proof.
  induction l as [|x l IH]; [done|]. unfold py_sorted in *. cbn [foldr].
  rewrite filter_insert_sorted, IH, filter_cons by apply py_sorted_strong. by destruct (decide (P x)).
Qed.
End filters.

Section chains.
Context `{HashAlg}.

Lemma prefixed_hash_sorted d : _prefixed_hash (PDict (sorted_keys d)) = _prefixed_hash (PDict d).
Proof. unfold _prefixed_hash. by rewrite <-(canonical_sorted (PDict d)). Qed.

Lemma audit_stream_sorted name d : _audit_stream name (sorted_keys d) = _audit_stream name d.
Proof.
  unfold _audit_stream. rewrite lookup_sorted. destruct (name =? _); [done|]. by destruct (lookup_or d "event_id" PNone).
Qed.

Lemma py_eq_link v o :
  py_eq (normalize_keys v) (match o with Some h => PStr h | None => PNone end) =
  py_eq v (match o with Some h => PStr h | None => PNone end).
Proof. by destruct o, v. Qed.

Lemma check_streams_sorted name previous events :
  check_streams (_audit_stream name) previous (map sorted_keys events) =
  check_streams (_audit_stream name) previous events.
Proof.
  revert previous. induction events as [|e events IH]; intros previous; cbn [map check_streams]; [done|].
  rewrite audit_stream_sorted. destruct (_audit_stream name e); [|done]. cbn [mbind result_bind].
  rewrite lookup_sorted, py_eq_link, prefixed_hash_sorted. by rewrite IH.
Qed.

Lemma filter_sorted_keys (P : string → Prop) `{!∀ kv : string * pyval, Decision (P kv.1)} d :
  base.filter (λ kv, P kv.1) (sorted_keys d) = sorted_keys (base.filter (λ kv, P kv.1) d).
Proof.
  unfold sorted_keys. unfold mapping in *. rewrite filter_py_sorted. f_equal. induction d as [|[k v] d IH]; cbn [map]; [done|].
  rewrite !filter_cons. do 2 destruct (decide _); cbn [map fst] in *; by rewrite ?IH.
Qed.

Lemma check_lifecycle_sorted previous events :
  check_lifecycle previous (map sorted_keys events) = check_lifecycle previous events.
Proof.
  revert previous. induction events as [|e events IH]; intros previous; cbn [map check_lifecycle]; [done|].
  rewrite !lookup_sorted.
  destruct (lookup_or e "request_id" PNone); try done. destruct (lookup_or e "event_hash" PNone); try done.
  cbn [normalize_keys]. rewrite py_eq_link. destruct (require _ _ _); [|done]. cbn [mbind result_bind].
  assert (base.filter (λ kv, kv.1 ∉ ["schema_version"; "event_hash"]) (sorted_keys e) =
    sorted_keys (base.filter (λ kv, kv.1 ∉ ["schema_version"; "event_hash"]) e)) as ->
    by apply (filter_sorted_keys (λ k, k ∉ ["schema_version"; "event_hash"])).
  rewrite prefixed_hash_sorted.
  destruct (_constant_equal _ _) as [[]|]; [|done..]. cbn [require mbind result_bind]. apply IH.
Qed.

Lemma dicts_of_sorted v : dicts_of (normalize_keys v) = l ← dicts_of v; Ok (map sorted_keys l).
Proof.
  destruct v as [| | | | |l|]; try done. cbn [normalize_keys dicts_of]. induction l as [|x l IH]; [done|].
  cbn [map mapM]. destruct x; try done. cbn [normalize_keys mbind result_bind].
  rewrite IH. by destruct (mapM _ l).
Qed.

Lemma check_linked_parsed names snapshot :
  check_linked names snapshot = Ok tt → (∀ m, m ∈ names → m ∈ EXPORT_MEMBERS) →
  check_linked names (parsed snapshot) = Ok tt.
Proof.
  induction names as [|m names IH]; [done|]. cbn [check_linked]. intros Hv Hin. inv_ok.
  rewrite (assoc_parsed _ _ _ (Hin m ltac:(left)) H0). cbn [or_raise mbind result_bind].
  rewrite dicts_of_sorted, H1. cbn [mbind result_bind]. rewrite check_streams_sorted, H2. apply IH; [done|].
  intros n Hn. apply Hin. by right.
Qed.

Lemma linked_members_exported m : m ∈ linked_members → m ∈ EXPORT_MEMBERS.
Proof. intros Hm. apply str_in_spec. unfold linked_members in Hm. elem_cases Hm; by subst. Qed.

(** The chains of a snapshot are those of the members the validator reads. *)
Lemma audit_chains_parsed snapshot :
  _validate_audit_chains snapshot = Ok tt → _validate_audit_chains (parsed snapshot) = Ok tt.
Proof.
  unfold _validate_audit_chains. intros Hv. inv_ok. destruct x.
  rewrite (check_linked_parsed _ _ H0) by apply linked_members_exported.
  cbn [mbind result_bind].
  rewrite (assoc_parsed _ _ _ (proj1 (str_in_spec "audit/lifecycle-events.json" EXPORT_MEMBERS) eq_refl) H1). cbn [or_raise mbind result_bind].
  rewrite dicts_of_sorted, H2. cbn [mbind result_bind]. by rewrite check_lifecycle_sorted.
Qed.
End chains.

(** ** From the service to the validator *)

(** An entry of an archive that was written. *)
Definition written (m : string * string) : Entry := mkEntry m.1 (Z.of_nat (String.length m.2)) (Ok m.2).

(** What the ZIP and JSON libraries and the digest promise: an archive is read back as it was
    written, the UTF-8 text of a JSON document is decoded to itself, a digest is ASCII. *)
Class ExportLaws `{HashAlg} `{BytesText} `{ZipFile} : Prop := {
  zip_round_trip l : NoDup l.*1 → zip_entries (zip_write l) = Ok (map written l);
  decode_canonical v : decode_bytes (canonical_json v) = Ok (canonical_json v);
  digest_ascii s : is_ascii (hexdigest s) = true
}.

Lemma mapM_pointwise {A B} (f : A → result B) (g : A → B) l :
  (∀ x, x ∈ l → f x = Ok (g x)) → mapM f l = Ok (map g l).
Proof.
  intros Hf. induction l as [|x l IH]; [done|]. cbn. rewrite Hf by left. cbn. rewrite IH; [done|].
  intros y Hy. apply Hf. by right.
Qed.

Lemma read_entry_written l name : read_entry (map written l) name = or_raise (assoc name l) KeyError name.
Proof.
  unfold read_entry. induction l as [|[n b] l IH]; [done|]. cbn [map list_find written filename fst snd assoc].
  destruct (decide (n = name)) as [->|Hne]; [by rewrite String.eqb_refl|].
  rewrite (proj2 (String.eqb_neq name n)) by done. rewrite <-IH.
  by destruct (list_find _ (map written l)) as [[i e]|].
Qed.

Lemma py_item_sorted d k : py_item (normalize_keys (PDict d)) k = or_raise (normalize_keys <$> assoc k d) KeyError k.
Proof. cbn [normalize_keys py_item]. by rewrite assoc_normalize. Qed.
Lemma py_get_sorted d k : py_get (normalize_keys (PDict d)) k PNone = Ok (normalize_keys (lookup_or d k PNone)).
Proof. cbn [normalize_keys py_get]. rewrite assoc_normalize. unfold lookup_or. by destruct (assoc k d). Qed.

#[local] Set Default Proof Using "Type*".

Section round_trip.
Context `{!HashAlg} `{!CaseFolding} `{!FloatText} `{!BytesText} `{!Ed25519} `{!ManifestSchema} `{!ZipFile} `{!ExportLaws}.

Lemma json_of_canonical v : readable v = true → json_of (canonical_json v) = Ok (normalize_keys v).
Proof. intros Hv. unfold json_of. rewrite decode_canonical. cbn. by apply loads_canonical_json. Qed.

(** The declarations of the members, by path *)
Definition declared_members (f : string → string) : mapping :=
  map (λ n, (n, normalize_keys (member_record (n, f n)))) EXPORT_MEMBERS.

Lemma by_path_members f :
  by_path (map (λ n, normalize_keys (member_record (n, f n))) EXPORT_MEMBERS) [] = Ok (Some (declared_members f)).
Proof. reflexivity. Qed.

Lemma assoc_declared f n : n ∈ EXPORT_MEMBERS →
  assoc n (declared_members f) = Some (normalize_keys (member_record (n, f n))).
Proof. unfold EXPORT_MEMBERS. intros Hn. elem_cases Hn; subst; reflexivity. Qed.

Lemma read_member_written entries f n v :
  n ∈ EXPORT_MEMBERS → read_entry entries n = Ok (f n) → f n = canonical_json v → readable v = true →
  read_member entries (declared_members f) n = Ok (n, normalize_keys v).
Proof.
  intros Hn He Hf Hv. unfold read_member. rewrite He. cbn [mbind result_bind].
  rewrite assoc_declared by done. cbn [or_raise mbind result_bind].
  assert (∀ k, py_item (normalize_keys (member_record (n, f n))) k = or_raise (normalize_keys <$> assoc k
    [("path", PStr n); ("sha256", PStr (hexdigest (f n))); ("bytes", PInt (Z.of_nat (String.length (f n))))]) KeyError k) as Hi
    by (intros k; apply py_item_sorted).
  rewrite !Hi. cbn [assoc String.eqb Ascii.eqb Bool.eqb fmap option_fmap option_map or_raise mbind result_bind normalize_keys].
  cbn [py_eq as_int]. rewrite bool_decide_true by done. cbn [require mbind result_bind _constant_equal].
  rewrite digest_ascii, String.eqb_refl. cbn [andb require mbind result_bind].
  rewrite Hf, json_of_canonical by done. done.
Qed.

(** A key the validator knows, usable at the time of the signature and not revoked since. *)
Record trusts (resolve : string → option VerificationKey) (k : Signer) (signed now : datetime) : Prop := {
  tr_key : ∃ key, resolve (signer_key_id k) = Some key ∧ usable_at key signed = Ok true ∧
    (∀ r, revoked_at key = Some r → datetime_le r now = Ok false) ∧
    ∀ m, verify_signature (public_key_pem key) (private_sign k m) m = true
}.

Lemma validate_signature_written k signed payload resolve now :
  valid_datetime signed = true → utcoffset signed = Some 0%Z → trusts resolve k signed now →
  _validate_signature (canonical_json (signature_dict (sign k signed payload))) payload (Some resolve) now =
    Ok (signer_key_id k).
Proof.
  intros Hv Ho [(key & Hkey & Hu & Hr & Hsig)]. unfold _validate_signature, signature_dict, sign.
  rewrite json_of_canonical by reflexivity. cbn [or_reject mbind result_bind].
  set (d := [("format_version", _); _; _; _; _]).
  assert (set_is signature_fields (normalize_keys (PDict d)) = Ok true) as -> by reflexivity.
  cbn [require mbind result_bind]. rewrite !py_get_sorted, !py_item_sorted.
  subst d. cbn -[check_key canonical_json zulu isoformat _signing_input].
  rewrite Hkey. cbn -[check_key canonical_json zulu isoformat _signing_input].
  assert (check_key key (PStr (zulu (isoformat signed))) now = Ok tt) as ->.
  { unfold check_key, timestamp_of. cbn [py_str]. rewrite timestamp_read_back, fromisoformat_isoformat by auto.
    cbn [mbind result_bind]. rewrite Ho, bool_decide_true by done. cbn [require mbind result_bind]. rewrite Hu. cbn.
    destruct (revoked_at key) as [r|]; [|done]. rewrite (Hr r) by done. done. }
  cbn -[canonical_json zulu isoformat _signing_input].
  unfold verify_ed25519. rewrite Hsig. done.
Qed.

(** The manifest and the members of the archive of a snapshot *)
Definition export_manifest (s : ExportService) (identity : Identity) (decision_id : string) (snapshot : mapping)
    (clock : datetime) : pyval :=
  manifest_of s (tenant_id (identity_tenant identity)) decision_id (zulu (isoformat clock))
    (map (member_bytes snapshot) EXPORT_MEMBERS).

Definition export_members (s : ExportService) (identity : Identity) (decision_id : string) (snapshot : mapping)
    (clock signed : datetime) : list (string * string) :=
  archive_members s signed (canonical_json (export_manifest s identity decision_id snapshot clock))
    (map (member_bytes snapshot) EXPORT_MEMBERS).

(** The name of the export *)
Definition export_name (s : ExportService) (identity : Identity) (decision_id : string) (clock : datetime) : string :=
  "export-" +:+ String.substring 0 24 (hexdigest (canonical_json
    (PDict [("tenant", PStr (tenant_id (identity_tenant identity))); ("case", PStr decision_id);
            ("generated_at", PStr (zulu (isoformat clock))); ("commit", PStr (commit_sha s))]))).

(** What the validator needs of a snapshot and of the service: its JSON can be read back, its
    chains hold, the schema accepts the manifest, and the archive is within the limits. *)
Record exportable (s : ExportService) (identity : Identity) (decision_id : string) (snapshot : mapping)
    (clock signed : datetime) : Prop := {
  ex_readable : readable (PDict snapshot) = true;
  ex_manifest : readable (export_manifest s identity decision_id snapshot clock) = true;
  ex_schema : manifest_valid "pilot-export-v0.9.schema.json"
    (normalize_keys (export_manifest s identity decision_id snapshot clock)) = true;
  ex_chains : _validate_audit_chains snapshot = Ok tt;
  ex_size : (foldr (λ m n, Z.of_nat (String.length m.2) + n) 0
    (export_members s identity decision_id snapshot clock signed) <= MAX_UNCOMPRESSED_BYTES)%Z;
  ex_archive : let content := zip_write (export_members s identity decision_id snapshot clock signed) in
    content ≠ "" ∧ (Z.of_nat (String.length content) <= MAX_ARCHIVE_BYTES)%Z;
  ex_clock : valid_datetime signed = true ∧ utcoffset signed = Some 0%Z
}.

Lemma Ok_inj {A} (a b : A) : Ok a = Ok b → a = b.
Proof. congruence. Qed.

Lemma build_Ok s identity decision_id snapshot clock signed content k :
  signer s = Some k → build s identity decision_id (Some snapshot) clock signed = Ok content →
  (∀ n, n ∈ EXPORT_MEMBERS → is_Some (assoc n snapshot)) ∧ _validate_export_events snapshot = Ok tt ∧
  content = zip_write (export_members s identity decision_id snapshot clock signed).
Proof using Type.
  intros Hk Hb. unfold build in Hb. rewrite Hk in Hb.
  apply bind_Ok in Hb as (? & _ & Hb). apply bind_Ok in Hb as (? & [= <-] & Hb).
  apply bind_Ok in Hb as (? & Hall & Hb). apply bind_Ok in Hb as (? & _ & Hb).
  apply bind_Ok in Hb as (? & Hev & Hb). rewrite require_Ok in Hall.
  unfold has_exactly in Hall. apply andb_true_iff in Hall as [_ Hall]. rewrite forallb_elem in Hall.
  split; [|split].
  - intros n Hn. apply Hall in Hn. by apply bool_decide_eq_true in Hn.
  - destruct (_validate_export_events snapshot) as [[]|e]; [done|]. by case_bool_decide.
  - symmetry. exact (Ok_inj _ _ Hb).
Qed.

Lemma assoc_members snapshot n : n ∈ EXPORT_MEMBERS →
  assoc n (map (member_bytes snapshot) EXPORT_MEMBERS) = Some (canonical_json (lookup_or snapshot n PNone)).
Proof. unfold EXPORT_MEMBERS. intros Hn. elem_cases Hn; subst; reflexivity. Qed.

Lemma readable_lookup snapshot n : readable (PDict snapshot) = true → readable (lookup_or snapshot n PNone) = true.
Proof.
  cbn. intros [_ Hv]%andb_true_iff. unfold lookup_or. induction snapshot as [|[k v] d IH]; [done|].
  cbn in *. apply andb_true_iff in Hv as [Hk Hv]. destruct (n =? k); [done|]. by apply IH.
Qed.

Lemma members_read s identity decision_id snapshot clock signed k :
  signer s = Some k → exportable s identity decision_id snapshot clock signed →
  mapM (read_member (map written (export_members s identity decision_id snapshot clock signed))
         (declared_members (λ n, canonical_json (lookup_or snapshot n PNone)))) EXPORT_MEMBERS = Ok (parsed snapshot).
Proof.
  intros Hk Hex. apply mapM_pointwise. intros n Hn.
  apply read_member_written; [done| |done|by apply readable_lookup, Hex].
  rewrite read_entry_written. unfold export_members, archive_members. rewrite Hk.
  assert (n ≠ "manifest.json" ∧ n ≠ "signature.json") as [H1' H2']
    by (unfold EXPORT_MEMBERS in Hn; elem_cases Hn; by subst).
  cbn [app assoc fst snd]. rewrite (proj2 (String.eqb_neq _ _) H1'), (proj2 (String.eqb_neq _ _) H2').
  by rewrite assoc_members.
Qed.

Lemma manifest_fields s identity decision_id snapshot clock k :
  signer s = Some k → let m := normalize_keys (export_manifest s identity decision_id snapshot clock) in
  py_item m "schema_version" = Ok (PStr "0.9.0") ∧
  py_item m "tenant_id" = Ok (PStr (tenant_id (identity_tenant identity))) ∧
  py_item m "case_ref" = Ok (PStr decision_id) ∧
  py_item m "export_id" = Ok (PStr (export_name s identity decision_id clock)) ∧
  manifest_version m = Ok "0.9.0" ∧
  declarations m = Ok (map (λ n, normalize_keys (member_record (n, canonical_json (lookup_or snapshot n PNone)))) EXPORT_MEMBERS,
    declared_members (λ n, canonical_json (lookup_or snapshot n PNone))).
Proof.
  intros Hk. cbn zeta. unfold export_manifest, manifest_of. rewrite Hk, (bool_decide_true (is_Some (Some k))) by done.
  set (d := app _ _).
  assert (∀ k v, assoc k d = Some v → py_item (normalize_keys (PDict d)) k = Ok (normalize_keys v)) as Hd
    by (intros k' v Hv; by rewrite py_item_sorted, Hv).
  assert (py_item (normalize_keys (PDict d)) "schema_version" = Ok (PStr "0.9.0")) as Hver
    by by apply (Hd _ (PStr "0.9.0")).
  split; [exact Hver|]. split; [by apply (Hd _ (PStr _))|]. split; [by apply (Hd _ (PStr _))|].
  split; [apply (Hd _ (PStr (export_name s identity decision_id clock))); reflexivity|].
  split.
  - unfold manifest_version. unfold d. rewrite py_get_sorted. reflexivity.
  - unfold declarations.
    rewrite (Hd _ (PList (map member_record (map (member_bytes snapshot) EXPORT_MEMBERS)))) by reflexivity.
    cbn [normalize_keys mbind result_bind]. rewrite !map_map.
    set (f := λ n, canonical_json (lookup_or snapshot n PNone)).
    change (map _ EXPORT_MEMBERS) with (map (λ n, normalize_keys (member_record (n, f n))) EXPORT_MEMBERS).
    rewrite by_path_members. reflexivity.
Qed.

Lemma written_names s identity decision_id snapshot clock signed k :
  signer s = Some k →
  map filename (map written (export_members s identity decision_id snapshot clock signed)) =
    "manifest.json" :: "signature.json" :: EXPORT_MEMBERS.
Proof. intros Hk. unfold export_members, archive_members. rewrite Hk. reflexivity. Qed.

Lemma written_sizes l :
  foldr (λ e n, (file_size e + n)%Z) 0%Z (map written l) = foldr (λ m n, (Z.of_nat (String.length m.2) + n)%Z) 0%Z l.
Proof. induction l as [|m l IH]; cbn [map foldr]; [done|]. by rewrite IH. Qed.

(** The tenant the validator expects, if it expects one *)
Definition expects (expected : option string) (tenant : string) : Prop :=
  ∀ t, expected = Some t → t = tenant ∧ is_ascii t = true.

Lemma expected_tenant_ok expected tenant : expects expected tenant →
  match expected with
  | None => Ok tt
  | Some t => equal ← _constant_equal (PStr tenant) t; require equal ExportValidationError "EXPORT_TENANT_MISMATCH"
  end = Ok tt.
Proof.
  intros He. destruct expected as [t|]; [|done]. destruct (He t eq_refl) as [-> Ha]. cbn [_constant_equal].
  rewrite Ha. cbn. by rewrite String.eqb_refl.
Qed.

Lemma audit_members_exported m : m ∈ audit_members → m ∈ EXPORT_MEMBERS.
Proof. intros Hm. apply str_in_spec. unfold audit_members in Hm. elem_cases Hm; by subst. Qed.

Lemma validate_entries_written s identity decision_id snapshot clock signed k resolve expected now :
  signer s = Some k → exportable s identity decision_id snapshot clock signed →
  _validate_export_events snapshot = Ok tt → trusts resolve k signed now →
  expects expected (tenant_id (identity_tenant identity)) →
  validate_entries (map written (export_members s identity decision_id snapshot clock signed))
    (Some resolve) expected now =
    Ok (mkReport true decision_id 10 (export_name s identity decision_id clock) "SIGNED_VALID"
          (Some (tenant_id (identity_tenant identity))) (Some (signer_key_id k))).
Proof.
  intros Hk Hex Hev Ht Hexp. unfold validate_entries. cbn zeta.
  destruct (manifest_fields s identity decision_id snapshot clock k Hk) as (Hver & Hten & Hcase & Hid & Hv & Hd).
  rewrite (written_names _ _ _ _ _ _ k) by done. cbn [require mbind result_bind].
  assert (bool_decide (NoDup ("manifest.json" :: "signature.json" :: EXPORT_MEMBERS)) = true) as -> by reflexivity.
  assert (forallb _safe_path ("manifest.json" :: "signature.json" :: EXPORT_MEMBERS) = true) as -> by reflexivity.
  cbn [require mbind result_bind]. rewrite read_entry_written.
  set (m := export_manifest s identity decision_id snapshot clock) in *.
  assert (assoc "manifest.json" (export_members s identity decision_id snapshot clock signed) = Some (canonical_json m))
    as -> by (unfold export_members, archive_members; reflexivity).
  cbn [or_raise mbind result_bind]. rewrite json_of_canonical by apply Hex. cbn [or_reject mbind result_bind].
  rewrite Hv. cbn [mbind result_bind].
  assert (check_names ("manifest.json" :: "signature.json" :: EXPORT_MEMBERS) ("0.9.0" =? "0.9.0") = Ok tt) as ->
    by reflexivity.
  cbn [mbind result_bind]. rewrite written_sizes, (proj2 (Z.leb_le _ _) (ex_size _ _ _ _ _ _ Hex)).
  cbn [require mbind result_bind].
  assert (_validate_manifest (normalize_keys m) "0.9.0" = Ok tt) as ->.
  { unfold _validate_manifest. change (schema_file "0.9.0") with "pilot-export-v0.9.schema.json".
    by rewrite (ex_schema _ _ _ _ _ _ Hex : manifest_valid _ (normalize_keys m) = true). }
  cbn [mbind result_bind]. rewrite Hd. cbn [mbind result_bind].
  rewrite (members_read _ _ _ _ _ _ k) by done. cbn [mbind result_bind].
  rewrite audit_chains_parsed by apply Hex. cbn [mbind result_bind].
  assert (_validate_export_event_versions (parsed snapshot) = Ok tt) as ->
    by (apply check_versions_parsed; [exact Hev|apply audit_members_exported]).
  rewrite String.eqb_refl. cbn [or_reject mbind result_bind].
  unfold provenance. rewrite String.eqb_refl, Hten. cbn [negb mbind result_bind py_str].
  rewrite expected_tenant_ok by done. cbn [mbind result_bind]. rewrite read_entry_written.
  assert (assoc "signature.json" (export_members s identity decision_id snapshot clock signed) =
    Some (canonical_json (signature_dict (sign k signed (canonical_json m))))) as ->
    by (unfold export_members, archive_members; rewrite Hk; reflexivity).
  cbn [or_raise mbind result_bind].
  rewrite validate_signature_written by (done || apply Hex). cbn [mbind result_bind].
  rewrite Hcase. cbn [mbind result_bind]. rewrite Hid. reflexivity.
Qed.
End round_trip.
