(* ===== verification/ExportTheorems.v ===== *)
(** * Exports, end to end

    What an accepted archive guarantees, the round trip of the service and the validator, and the
    audit events that keep a decision from being exported under a signature. *)

From S2P Require Import Prelude Hmac PyVal JsonNumber Json JsonLoads Sha256 PyTime AuditChain Identity Document Samples Intake Handoff ResearchEvidence ResearchSamples Config UrlPolicy Events Export ExportValidator EgressProps ExportProps ExportRoundTrip.
From stdpp Require Import options.

(** ** Guarantees *)

Section guarantees.
Context `{!HashAlg} `{!CaseFolding} `{!FloatText} `{!BytesText} `{!Ed25519} `{!ManifestSchema} `{!ZipFile}.

(** C34: an archive the offline validator accepts is what its manifest declares: the members are
    the expected ones, without duplicates and with safe names; each member's bytes have the
    declared size and digest and are JSON; the events of every stream are chained by their
    hashes and every lifecycle event is sealed by its own; and a report that says [SIGNED_VALID]
    comes with a signature over the manifest by a known key, usable when it signed and not
    revoked since, and with the expected tenant. *)
Theorem accepted_export content resolver expected now r :
  validate_export content resolver expected now = Ok r →
  ∃ entries manifest_bytes manifest declared members, zip_entries content = Ok entries ∧
    accepted entries resolver expected now r manifest_bytes manifest declared members.
Proof.
  unfold validate_export. intros Hv. apply bind_Ok in Hv as ([] & _ & Hv). apply bind_Ok in Hv as (entries & He & Hv).
  apply or_reject_Ok in He. exists entries.
  apply validate_entries_sound in Hv as (b & m & d & ms & Ha). by exists b, m, d, ms.
Qed.

Lemma accepted_member entries resolver expected now r bytes m declared members name :
  accepted entries resolver expected now r bytes m declared members → name ∈ EXPORT_MEMBERS →
  ∃ payload item, read_entry entries name = Ok payload ∧ assoc name declared = Some item ∧
    py_item item "sha256" = Ok (PStr (hexdigest payload)).
Proof.
  intros Ha Hn. destruct (acc_members _ _ _ _ _ _ _ _ _ Ha name Hn) as [payload [Hr (item & Hi & Hd & _) _]].
  by exists payload, item.
Qed.

(** The manifest seals the archive: of two archives the validator accepts with the same
    manifest bytes (hence under the same signature), every member has the same bytes, unless the
    two versions of it are a collision of the digest. *)
Theorem manifest_seals_archive content content' resolver resolver' expected expected' now now' r r' entries entries' :
  validate_export content resolver expected now = Ok r → zip_entries content = Ok entries →
  validate_export content' resolver' expected' now' = Ok r' → zip_entries content' = Ok entries' →
  read_entry entries "manifest.json" = read_entry entries' "manifest.json" →
  ∀ name, name ∈ EXPORT_MEMBERS → ∃ b b', read_entry entries name = Ok b ∧ read_entry entries' name = Ok b' ∧
    (b = b' ∨ collision b b').
Proof.
  unfold validate_export. intros Hv He Hv' He' Hm name Hn. inv_ok. rewrite He in *. rewrite He' in *.
  cbn [or_reject] in *. simplify_eq.
  apply validate_entries_sound in Hv as (bm & m & d & ms & Ha).
  apply validate_entries_sound in Hv' as (bm' & m' & d' & ms' & Ha').
  destruct (accepted_member _ _ _ _ _ _ _ _ _ _ Ha Hn) as (p & i & Hp & Hi & Hd).
  destruct (accepted_member _ _ _ _ _ _ _ _ _ _ Ha' Hn) as (p' & i' & Hp' & Hi' & Hd').
  destruct (acc_manifest _ _ _ _ _ _ _ _ _ Ha) as [Hb Hj]. destruct (acc_manifest _ _ _ _ _ _ _ _ _ Ha') as [Hb' Hj'].
  destruct (acc_declared _ _ _ _ _ _ _ _ _ Ha) as (its & Hdec & _).
  destruct (acc_declared _ _ _ _ _ _ _ _ _ Ha') as (its' & Hdec' & _).
  exists p, p'. split; [done|]. split; [done|].
  rewrite Hm in Hb. simplify_eq.
  destruct (decide (p = p')) as [->|Hne]; [by left|right]. split; [done|]. congruence.
Qed.

End guarantees.

(** ** Events the registry does not know *)

(** A legacy event whose type is not registered for its member. *)
Definition unregistered (member : string) (e : mapping) : Prop :=
  ∃ t, lookup_or e "event_type" PNone = PStr t ∧ lookup_or e "schema_version" PNone ≠ PStr "1.0.0" ∧
    t ∉ default [] (assoc member _LEGACY_EXPORT_TYPES).

Lemma unregistered_rejected member e u : unregistered member e → validate_export_event member e ≠ Ok u.
Proof.
  intros (t & Ht & Hv & Hn). unfold validate_export_event. cbn zeta.
  destruct (py_eq _ _) eqn:E; [by rewrite py_eq_str_r in E|].
  destruct (legacy_version _) as [b|]; [|discriminate]. cbn [mbind result_bind].
  rewrite Ht, (proj2 (str_in_false t _) Hn), andb_false_r. discriminate.
Qed.

Lemma validate_events_elem member l e :
  validate_events member l = Ok tt → PDict e ∈ l → validate_export_event member e = Ok tt.
Proof.
  induction l as [|v l IH]; [by intros _ ?%elem_of_nil|]. destruct v as [| | | | | |d]; try discriminate.
  cbn [validate_events]. intros Hv. apply bind_Ok in Hv as ([] & Hd & Hv).
  intros [[= ->]|Hin]%elem_of_cons; [done|]. by apply IH.
Qed.

Lemma validate_members_elem members snapshot member l e :
  validate_members members snapshot = Ok tt → member ∈ members → assoc member snapshot = Some (PList l) →
  PDict e ∈ l → validate_export_event member e = Ok tt.
Proof.
  induction members as [|m members IH]; [by intros _ ?%elem_of_nil|]. cbn [validate_members]. intros Hv Hin Ha He.
  apply bind_Ok in Hv as (v & Hm & Hv). apply bind_Ok in Hv as (l' & Hl & Hv).
  apply bind_Ok in Hv as ([] & _ & Hv). apply bind_Ok in Hv as ([] & Hev & Hv).
  apply elem_of_cons in Hin as [->|Hin]; [|by apply IH].
  rewrite or_raise_Ok in Hm. rewrite Ha in Hm. injection Hm as <-. injection Hl as <-. by eapply validate_events_elem.
Qed.

Section registry.
Context `{!HashAlg} `{!CaseFolding} `{!ZipFile}.

(** The events a module of the program writes, and the export member they end in: evidence
    attached from a research run, the compilation of an intake, and a fact a human confirmed,
    corrected or rejected ([event_type=f"intake.fact-{action.lower()}"]). *)
Inductive exported_event : string → mapping → Prop :=
  | handoff_exported tenant id correlation l d e :
      event_json (handoff_event tenant id correlation l d) = PDict e →
      exported_event "audit/decision-events.json" e
  | compiled_exported report actor timestamp e :
      event_json (compiled_event report actor timestamp) = PDict e →
      exported_event "audit/decision-events.json" e
  | verified_exported action intake n occurred_at actor source target payload previous :
      action ∈ ["confirm"; "correct"; "reject"] →
      exported_event "audit/intake-events.json"
        (intake_audit_event intake n ("intake.fact-" +:+ action) occurred_at actor source target
           ["FACT_HUMAN_CONFIRMED"] payload previous).

Lemma exported_event_unregistered member e : exported_event member e → unregistered member e.
Proof.
  intros [tenant id correlation l d e' [= <-]|report actor timestamp e' [= <-]|action * Ha].
  - eexists. split; [reflexivity|]. split; [discriminate|]. apply str_in_false. reflexivity.
  - eexists. split; [reflexivity|]. split; [discriminate|]. apply str_in_false. reflexivity.
  - eexists. split; [reflexivity|]. split; [discriminate|]. apply str_in_false.
    elem_cases Ha; subst; reflexivity.
Qed.

(** A signed export is refused as soon as one audit event of the snapshot is of a type the
    registry does not list for its member, which the service's own modules write: attaching
    research evidence and compiling an intake both append such an event to the decision's events,
    and verifying a fact appends one to the intake's. The registry has [research.evidence-attached]
    among the research events only, and [intake.fact-confirmed] where the route writes
    [intake.fact-confirm]. *)
Theorem own_events_block_signed_export s k identity decision_id snapshot clock signed member l e :
  signer s = Some k → member ∈ audit_members → assoc member snapshot = Some (PList l) → PDict e ∈ l →
  exported_event member e →
  ∀ content, build s identity decision_id (Some snapshot) clock signed ≠ Ok content.
Proof.
  intros Hk Hm Ha He Hx content Hb. apply (build_Ok _ _ _ _ _ _ _ k) in Hb as (_ & Hev & _); [|done].
  apply (unregistered_rejected member e tt); [by apply exported_event_unregistered|].
  eapply validate_members_elem; [exact Hev| |exact Ha|exact He].
  unfold audit_members in Hm. elem_cases Hm; subst; apply str_in_spec; reflexivity.
Qed.
End registry.

(** ** A concrete export *)

(** An archive as the JSON list of its members *)
Definition member_json (m : string * string) : pyval := PList [PStr m.1; PStr m.2].
Definition member_of_json (v : pyval) : result Entry :=
  match v with PList [PStr n; PStr b] => Ok (written (n, b)) | _ => raise BadZipFile "" end.
Definition list_zip : ZipFile := {|
  zip_write l := dumps_app (PList (map member_json l)) "";
  zip_entries c := match loads (H := sample_floats) c with
                   | Ok (PList l) => mapM member_of_json l
                   | _ => raise BadZipFile ""
                   end
|}.
Definition plain_text : BytesText := λ s, Ok s.
(** A signature is the key and the message. *)
Definition plain_signature : Ed25519 := λ pem text message, text =? pem +:+ message.
Definition any_manifest : ManifestSchema := λ _ _, true.

#[local] Existing Instances ascii_casefold constant_alg sample_floats list_zip plain_text plain_signature any_manifest.

Lemma list_zip_laws : ExportLaws.
Proof.
  split; [|done|done]. intros l _. cbn [zip_entries zip_write list_zip]. rewrite loads_dumps.
  - induction l as [|[n b] l IH]; [done|]. cbn [map mapM member_of_json member_json fst snd mbind result_bind].
    by rewrite IH.
  - cbn. by induction l.
Qed.

Definition export_event (n previous : pyval) : pyval :=
  PDict [("event_type", PStr "decision.received"); ("event_id", n); ("previous_event_hash", previous)].

Definition sample_export : mapping :=
  [("decision/decision-file.json", PDict [("b", PInt 1); ("a", PNone)]); ("decision/assurance-report.json", PDict []);
   ("intake/intake-records.json", PList []); ("research/research-runs.json", PList []);
   ("research/sources.json", PList []); ("research/evidence.json", PList []);
   ("audit/decision-events.json", PList [export_event (PStr "1") PNone; export_event (PStr "2") (PStr "sha256:00")]);
   ("audit/intake-events.json", PList []); ("audit/research-events.json", PList []);
   ("audit/lifecycle-events.json", PList [])].

Definition sample_signer : Signer := mkSigner "key-1" (λ m, "pem" +:+ m).
Definition sample_service : ExportService := mkService "1.0" "c" [("policy", PStr "1")] (Some sample_signer) "1.0.0".
Definition sample_exporter : Identity := mkIdentity "eve" sample_tenant AUDITOR HUMAN None [] {[AUDITOR]} None [].
Definition sample_resolver (id : string) : option VerificationKey :=
  if id =? "key-1" then Some (mkKey "key-1" "pem" midday midday None) else None.
Definition sample_archive : string :=
  zip_write (export_members sample_service sample_exporter "d1" sample_export midday midday).

Lemma sample_built :
  build sample_service sample_exporter "d1" (Some sample_export) midday midday = Ok sample_archive.
Proof. vm_compute. reflexivity. Qed.

Lemma sample_exportable : exportable sample_service sample_exporter "d1" sample_export midday midday.
Proof. split; vm_compute; done. Qed.

Lemma plain_signature_verifies pem m : plain_signature pem (pem +:+ m) m = true.
Proof. apply String.eqb_refl. Qed.

Lemma sample_trusted : trusts sample_resolver sample_signer midday midday.
Proof. constructor. eexists. split; [reflexivity|]. split; [reflexivity|]. split; [done|]. apply plain_signature_verifies. Qed.

Lemma sample_expected : expects (Some "t1") "t1".
Proof. by intros t [= <-]. Qed.

Definition sample_report : ValidationReport :=
  mkReport true "d1" 10 (export_name sample_service sample_exporter "d1" midday) "SIGNED_VALID" (Some "t1") (Some "key-1").

Lemma sample_validated : validate_export sample_archive (Some sample_resolver) (Some "t1") midday = Ok sample_report.
Proof. vm_compute. reflexivity. Qed.


Lemma accepted_export_witness :
  ∃ entries manifest_bytes manifest declared members, zip_entries sample_archive = Ok entries ∧
    accepted entries (Some sample_resolver) (Some "t1") midday sample_report manifest_bytes manifest declared members.
Proof. exact (accepted_export _ _ _ _ _ sample_validated). Defined.

Definition sample_entries : list Entry :=
  map written (export_members sample_service sample_exporter "d1" sample_export midday midday).
Lemma sample_opened : zip_entries sample_archive = Ok sample_entries.
Proof. vm_compute. reflexivity. Qed.

Lemma manifest_seals_archive_witness :
  ∃ b b', read_entry sample_entries "decision/decision-file.json" = Ok b ∧
    read_entry sample_entries "decision/decision-file.json" = Ok b' ∧ (b = b' ∨ collision b b').
Proof.
  refine (manifest_seals_archive _ _ _ _ _ _ _ _ _ _ _ _ sample_validated sample_opened sample_validated sample_opened
    eq_refl _ _). left.
Defined.

(** The sample, after research evidence was attached to its decision. *)
Definition attached_event : mapping :=
  match event_json (handoff_event "t1" "d1" "c" [] draft_case) with PDict e => e | _ => [] end.
Definition attached_export : mapping :=
  assoc_set "audit/decision-events.json" (PList [PDict attached_event]) sample_export.

Lemma own_events_block_signed_export_witness :
  build sample_service sample_exporter "d1" (Some attached_export) midday midday ≠ Ok sample_archive.
Proof.
  refine (own_events_block_signed_export sample_service sample_signer sample_exporter "d1" attached_export midday midday "audit/decision-events.json"
    [PDict attached_event] attached_event eq_refl _ eq_refl _ _ sample_archive).
  - apply str_in_spec. reflexivity.
  - left.
  - eapply handoff_exported. reflexivity.
Defined.

(** ** Reading the registry of verification keys *)

Section key_registry.
Context `{!FloatText}.

(** What a registry that was read holds: under each name the key of that name, with aware
    validity times. *)
Definition sound_keys (keys : list (string * VerificationKey)) : Prop :=
  ∀ id k, assoc id keys = Some k →
    vk_id k = id ∧ is_Some (utcoffset (not_before k)) ∧ is_Some (utcoffset (not_after k)).

Definition invalid_registry : exn := Exn ExportValidationError ["INVALID_VERIFICATION_KEY_REGISTRY"].

Lemma timestamp_error v e : timestamp_of v = Raise e → exn_cls e = ValueError.
Proof. unfold timestamp_of, fromisoformat. intros [_ ->]%or_raise_Raise. done. Qed.

Lemma registry_key_outcome keys item :
  match registry_key keys item with
  | Ok k => is_Some (utcoffset (not_before k)) ∧ is_Some (utcoffset (not_after k))
  | Raise e => exn_cls e = ValueError
  end.
Proof.
  destruct (registry_key keys item) as [k|e] eqn:E; unfold registry_key in E; cbn zeta in E.
  - apply bind_Ok in E as (before & _ & E). apply bind_Ok in E as (after & _ & E).
    apply bind_Ok in E as (revoked & _ & E). apply bind_Ok in E as ([] & Hr & E). injection E as <-.
    rewrite require_Ok, !andb_true_iff, !bool_decide_eq_true in Hr. cbn. tauto.
  - repeat match goal with
    | H : mbind _ _ = Raise _ |- _ => apply bind_Raise in H as [H|(? & ? & H)]
    | H : require _ _ _ = Raise _ |- _ => apply require_Raise in H as [_ ->]
    | H : match ?v with PNone => _ | _ => _ end = Raise _ |- _ => destruct v
    end; try done; by eapply timestamp_error.
Qed.

Lemma registry_keys_outcome items keys : sound_keys keys →
  match registry_keys keys items with Ok keys' => sound_keys keys' | Raise e => e = invalid_registry end.
Proof.
  revert keys. induction items as [|v items IH]; intros keys Hk; [done|]. cbn [registry_keys].
  destruct v as [| | | | | |item]; try done. destruct (has_exactly _ item); [|done]. cbn [require mbind result_bind].
  pose proof (registry_key_outcome keys item) as Ho. destruct (registry_key keys item) as [k|e].
  - cbn [mbind result_bind]. apply IH. intros id k' Ha. destruct (decide (id = vk_id k)) as [->|Hne].
    + rewrite assoc_set_eq in Ha. by injection Ha as <-.
    + rewrite assoc_set_ne in Ha by done. by apply Hk.
  - by rewrite Ho.
Qed.

(** C36: reading a registry of verification keys ends for every file: either with keys that carry
    the names they are found under and aware validity times, or with the one error the command
    line reports; the exceptions are an integer literal over the limit of the interpreter, and
    an exception of reading the file that the code does not expect. *)
Theorem key_registry_outcomes text :
  match _load_key_registry text with
  | Ok keys => sound_keys keys
  | Raise e => e = invalid_registry ∨ e = Exn ValueError ["Exceeds the limit"] ∨ text = Raise e
  end.
Proof.
  unfold _load_key_registry. destruct text as [t|e]; cbn [mbind result_bind].
  - destruct (loads t) as [v|e] eqn:El; cbn [or_reject mbind result_bind].
    + destruct v as [| | | | | |d]; try by left. destruct (_ && _); [|by left].
      destruct (lookup_or d "keys" PNone) as [| | | | |items|]; try by left.
      pose proof (registry_keys_outcome items [] ltac:(done)) as Ho.
      destruct (registry_keys [] items); [done|by left].
    + apply loads_total in El as [El|El]; rewrite El; [by left|]. right. left. done.
  - unfold or_reject. case_bool_decide; [by left|by right; right].
Qed.
End key_registry.
